(* ===== verification/_CoqProject ===== *)
-Q . S2P
Prelude.v
Floats.v
Types.v
Constraints.v
ParamLayers.v
Resolver.v
Token.v
Json.v
Channels.v
ToolRegistry.v
Vfs.v
Process.v
Signals.v
Pipes.v
Router.v
Auth.v
Gateway.v
EventBus.v
Hil.v
Resources.v
Jobs.v
Ipc.v
Services.v
Text.v
Cron.v
Store.v
Memory.v
Sessions.v
Invocations.v
History.v
Proc.v
Recovery.v
Lifecycle.v
AgentsYaml.v
Snapshot.v
Llm.v
ExecTools.v
Adapters.v
LlmService.v
Executor.v
Dispatch.v
Turn.v
Streaming.v
AgentLoop.v
Manifests.v
Packages.v
Secrets.v
Syscalls.v
KernelIpc.v
Handlers.v
Workspace.v
McpBridge.v
McpSockets.v
ClientAtp.v
Client.v
Tui.v
