(* ===== verification/Prelude.v ===== *)
(** * Avix, an agent operating system: verification development

    Avix runs LLM agents the way an operating system runs processes.  A client speaks ATP over a
    WebSocket to the gateway; the gateway checks every command and forwards it to the kernel's
    socket; the kernel spawns agents, keeps their sessions and invocations, and restores them after a
    crash; an agent's executor asks the language-model service for answers and dispatches the tool calls
    in them, through the router, to the service that owns the tool; services register tools with the
    service manager; agents exchange messages over pipes and receive signals; a human approves sensitive
    calls; files, memory and manifests live in a virtual filesystem.  The sources are the Rust crate
    [src/crates/avix-core] and the services under [src/services]; paths below are relative to
    [src/crates/avix-core/src] unless they say otherwise.

    ** Files

    Foundations
    - [Prelude]: results with the [?] operator as a monad, machine integers, the functions of [str] the
      sources use, hash-map order, tactics and hints.  [Text]: UTF-8.  [Floats]: [f64] and [f32] on
      the Standard Library's specification floats.  [Json]: [serde_json::Value].
    - [Types] ([types/], [error.rs], [router/mangle.rs]): errors, pids, roles, tool names and their mangling,
      tool states, the capability map, socket addresses, modalities.  [Token] ([types/token.rs]).
    - [Channels]: tokio's bounded and broadcast channels as interfaces with laws, and one implementation of each.
      [Store]: the redb tables of JSON documents, with the facts the three record stores share.

    Parameters
    - [Constraints], [ParamLayers], [Resolver] ([params/]): how an agent's parameters follow from the system,
      crew, user and manifest layers.

    Kernel
    - [Process] ([process/]), [Signals] ([signal/]), [Pipes] ([pipe/]), [Vfs] ([memfs/]), [Hil] and [Resources]
      ([kernel/hil.rs], [approval_token.rs], [hil_manager.rs], [resource_request.rs], [capability_resolver.rs]).
    - [Sessions], [Invocations], [History] ([session/], [invocation/], [history/]): records and their stores.
    - [Proc] ([kernel/proc/], the crash recovery of [kernel/boot.rs]) with [Recovery] (both restart phases
      together), [Lifecycle] (its operations as steps) and [AgentsYaml] (the list of agents on disk).
    - [Snapshot] ([snapshot/]).
    - [Manifests] ([agent_manifest/]), [Packages] ([service/package_source.rs], the installers, [packaging/]),
      [Secrets] ([secrets/]), [Syscalls] ([syscall/]): what is installed, by whom, and the system calls.
    - [KernelIpc] ([kernel/ipc_server.rs]): a definition for each method of the kernel's socket.

    Gateway
    - [Auth] ([auth/], [config/auth.rs]), [Gateway] ([gateway/acl.rs], [replay.rs], [validator.rs],
      [translator.rs], [atp/]), [EventBus] ([gateway/event_bus.rs]), [Handlers] ([gateway/handlers/],
      [gateway/server.rs]).

    Agents
    - [ExecTools], [Executor], [Dispatch], [Turn], [AgentLoop] ([executor/], [bootstrap/executor_factory.rs]): the
      gate on tool calls, the executor's state, dispatch, the turn loop, and the life of an agent's task.
    - [Llm], [Adapters], [LlmService] ([llm_svc/], [llm_client/], [config/llm.rs]), [Streaming]: the path of an answer
      from the provider's bytes to the executor.

    Services
    - [ToolRegistry] ([tool_registry/]), [Router] ([router/], [ipc/message.rs]) with Module [Concurrent] for the
      interleavings, [Ipc] ([ipc/], the executor's two calls), [Services] ([service/]), [Jobs] ([jobs/]), [Cron]
      ([cron_svc/]), [Memory] ([memory_svc/]), [Workspace] ([src/services/workspace]), [McpBridge] ([mcp_bridge/]) and
      [McpSockets]: the bridge against the two sockets it can be given.

    Clients
    - [ClientAtp] ([src/crates/avix-client-core/src/atp/]): the frames as the client reads and writes them, the
      dispatcher, the emitter; [Client] (the rest of avix-client-core): notifications, connection state, commands, files;
      [Tui] ([src/crates/avix-cli/src/tui/]): state, reducer, parser, events, commands and keys of the terminal UI.

    Each file ends with a Module [Toy] (or a speaking name): small concrete worlds on which the definitions are run, and
    the witnesses of the theorems with hypotheses.

    ** How the code is represented

    A struct is a record, an enum an inductive type, an operation one definition with the source's guards and early
    returns; a [HashMap] is a [gmap] whose order of iteration is any ([HashOrder]), a [HashSet] a [gset].  A fallible
    function returns [result]; a handler on shared state takes and returns the state, directly or through a small
    state and error monad ([Memory.MemM], [Workspace.W], [Packages.IO], [Syscalls.Call]).  A lock held for a whole
    operation makes it one step; where an operation releases its locks in between, its parts are
    separate definitions, composed into the handler and also into a step relation ([Router.Concurrent.step],
    [Hil.step]) whose reachable states the invariants are about.  The kernel's operations are steps one at a time
    ([Lifecycle.step]); two requests that interleave inside one operation are outside that model.  A call
    that waits or panics is a value ([None], [Waits], [Panics]), as said at each definition.

    Code outside the sources is an argument: clocks (nanoseconds), uuids, random salt and nonces, HMAC and digests, base64
    and hexadecimal, chrono's texts, Unicode's tables, OpenPGP ([Packages.Pgp]), archive decoders, child processes,
    providers over HTTP ([LlmService.Net]), and these classes: JSON and YAML text ([Ipc.JsonText], [Adapters.JsonStr],
    [Store.Serde], [AgentsYaml.YamlText], [Snapshot.SnapshotYaml]), tables ([Store.Redb]), disks and files ([Vfs.Disk],
    [AgentsYaml.FileOps], [Packages.InstallWorld]), sockets and pipes ([Ipc.ByteStream], [McpBridge.Process]), channels
    ([Channels.Mpsc], [Channels.Broadcast]), the cron crate ([Cron.Schedule]), ciphers ([Secrets.Cipher]).
    Laws are separate classes ([Channels.MpscLaws], [Store.RedbLaws], [Packages.InstallWorldLaws],
    [Secrets.CipherLaws], ...), assumed only where a theorem needs them and inhabited by concrete functions in
    the witnesses.

    Interfaces between components are classes, too, which the client's theorems use and the implementation's
    theorems discharge: [Sessions.SessionStoreI] and [Invocations.InvocationStoreI] (the kernel on its stores),
    [Handlers.IpcRouter] (the gateway on the kernel, implemented by [KernelIpc]), [Handlers.HilResolver],
    [Cron.AgentSpawner], [McpBridge.McpTransportIO].

    ** What the theorems show

    - Parameters: [resolve] refines a reference merge of layers and limits, provenance names the deciding layer, limits
      intersect as conjunctions, the system ceiling holds.
    - Agents: whatever the model, the signals and the tools do, every dispatched call was permitted by the token in
      force and within its budget; the turn loop ends; every request is a well-formed conversation; streamed text
      arrives complete and in order from the provider's bytes to the client's events.
    - Kernel: in every state the operations reach, maps, records and processes agree and what has ended stays ended; a
      spawn and a crash recovery have exactly their effects; every request on the socket is a lifecycle step or
      changes no process; sessions are isolated between users; approvals are single-use in every interleaving.
    - Gateway: the decision on a frame is characterised exactly; from the client's frame to the kernel a user reaches
      own sessions only; tokens live exactly as long as they should.
    - Router, pipes, jobs, frames: a dispatch reaches a service exactly when tool, capability, slot and endpoint allow
      it; calls in flight are accounted for in every interleaving; pipes are authorised bounded FIFO queues; a call over a
      connection is the handler applied once; a watcher loses no event.
    - Services: only a service's token speaks for it; the MCP bridge, on the service socket, registers and removes
      exactly its tools and routes each call to its server, but loses a server for good when it fails once.
    - Files: memory tools stay in the caller's memory, facts are read back, the workspace stays below its root's text,
      conversations and the list of agents survive, the latter atomically.
    - Clients: what the gateway writes the client reads, and the other way round, but for five kinds of event; each call gets
      the reply to its own command in every interleaving; a question to a human reaches the client's screen and the
      answer resolves that question and no other; decisions on notifications are kept; each connection has one bridge
      until a bridge ends; the reducer never panics on ASCII input.
    - Installing: packages are unpacked only from bytes that passed the check asked for, and below their directory when no
      path climbs; the quota bounds installs per window; on the kernel's socket third-party sources are installed
      unverified or not at all; secrets are read back under their key only; system calls are served as the
      registry says, by the dispatcher, but mostly not by the kernel's socket.

    Several theorems and examples record behaviour that differs from what comments or callers expect, among them
    [workspace_reaches_no_file], [bridge_registers_nothing], [degraded_forever], [third_party_unverified],
    [kernel_tools_served], [loaded_crontab_never_runs], [spawned_agent_router_check], [climber_escapes], [guard_by_text],
    [never_leaves], [late_exit_doubles], [accent_panics], [refused_install_completes].

    ** Bounds and fuel

    Recursion is on lists, strings and scripts.  The turn loop recurses over the script of what happens to it
    ([Turn.Turn]), and the theorem on its end bounds the number of answered requests.  Where a loop of the code is not
    structural the fuel is a bound that a lemma shows to be enough: the length of the buffer ([Llm.drain_lines]), the number of
    attempts ([Cron.job_loop]), the length of a text ([Manifests.trim_end_text], [Packages.trim_start_text]).
    [McpBridge]'s [patience] is the number of messages a wait reads: running out of it is a call that does not come
    back, which is what the code does.  [Ipc.wire_ok] recurses on the nesting depth (serde_json's limit is 127).  Integers
    are [Z] with their width in the statements, and builds with overflow checks are told from those without where an
    overflow can happen.

    ** Not modelled

    Binding of sockets and accept loops; the WebSocket, HTTP and archive libraries; child processes; serde's derived
    conversions.  Of the core crate: the wiring of [bootstrap/mod.rs], most of [config/], the autoagents client, token
    refresh and binary output of [llm_svc/], the memory index, [trace.rs], the permission store, the package
    builder and scaffolding, the library of the command line.  Of the rest: the tracer of the client library, what the
    terminal UI draws, the argument parser of the command line, and the desktop and web applications; [src/services/mcp-bridge]
    is a copy of [mcp_bridge/]. *)

From Stdlib Require Export Ascii ZArith Lia.
From stdpp Require Export base decidable option list gmap strings pretty sets.

#[global] Arguments String.append : simpl nomatch.

(** ** Results

    Rust's [Result<A, E>].  The [MRet]/[MBind] instances give the stdpp notation
    [x ← e; k] the meaning of the [?] operator. *)

Inductive result (E A : Type) : Type :=
| Ok (a : A)
| Err (e : E).
Arguments Ok {E A} a.
Arguments Err {E A} e.

#[global] Instance result_ret {E} : MRet (result E) := fun A a => Ok a.
#[global] Instance result_bind {E} : MBind (result E) := fun A B f m =>
  match m with Ok a => f a | Err e => Err e end.
#[global] Instance result_fmap {E} : FMap (result E) := fun A B f m =>
  match m with Ok a => Ok (f a) | Err e => Err e end.
#[global] Instance result_eq_dec {E A} `{EqDecision E, EqDecision A} :
  EqDecision (result E A).
Proof. solve_decision. Defined.

Definition is_ok {E A} (r : result E A) : bool :=
  match r with Ok _ => true | Err _ => false end.

Lemma is_ok_inv {E A} (r : result E A) : is_ok r = true -> exists a, r = Ok a.
Proof. destruct r; [by eexists | done]. Qed.

(** [Option::ok_or] and [Result::map_err]. *)
Definition ok_or {E A} (e : E) (o : option A) : result E A :=
  match o with Some a => Ok a | None => Err e end.
Definition map_err {E F A} (f : E -> F) (r : result E A) : result F A :=
  match r with Ok a => Ok a | Err e => Err (f e) end.

Lemma bind_Ok_inv {E A B} (m : result E A) (f : A -> result E B) b :
  m ≫= f = Ok b -> exists a, m = Ok a /\ f a = Ok b.
Proof. destruct m; naive_solver. Qed.

Lemma ok_or_Ok {E A} (e : E) (o : option A) a : ok_or e o = Ok a <-> o = Some a.
Proof. destruct o; naive_solver. Qed.

Lemma map_err_Ok {E F A} (f : E -> F) (r : result E A) a :
  map_err f r = Ok a <-> r = Ok a.
Proof. destruct r; naive_solver. Qed.

(** ** Machine integers

    A [u32]/[u64]/[usize] is a [Z]; wrapping and saturation are written out. *)

Definition u32_max : Z := 4294967295.
Definition u64_max : Z := 18446744073709551615.
Definition is_u32 (z : Z) : Prop := (0 <= z <= u32_max)%Z.
Definition is_u64 (z : Z) : Prop := (0 <= z <= u64_max)%Z.
#[global] Instance is_u32_dec z : Decision (is_u32 z).
Proof. unfold is_u32. apply _. Defined.
#[global] Instance is_u64_dec z : Decision (is_u64 z).
Proof. unfold is_u64. apply _. Defined.

Definition u32_saturating_add (a b : Z) : Z := Z.min (a + b) u32_max.
Definition u64_saturating_add (a b : Z) : Z := Z.min (a + b) u64_max.
Definition saturating_sub (a b : Z) : Z := Z.max (a - b) 0.
Definition u32_wrapping_add (a b : Z) : Z := ((a + b) mod (u32_max + 1))%Z.
(** [a.checked_add(b)]: the addition of a debug build panics exactly where this is [None]. *)
Definition u32_checked_add (a b : Z) : option Z :=
  if decide (is_u32 (a + b)) then Some (a + b)%Z else None.
Definition u64_checked_add (a b : Z) : option Z :=
  if decide (is_u64 (a + b)) then Some (a + b)%Z else None.

Create HintDb machine.
#[export] Hint Unfold is_u32 is_u64 u32_max u64_max u32_saturating_add u64_saturating_add
  saturating_sub u32_wrapping_add u32_checked_add u64_checked_add : machine.

(** Arithmetic on machine integers: unfold and call [lia]. *)
Ltac machine := autounfold with machine in *; lia.

(** ** Strings

    Rust strings are byte strings in UTF-8; the functions below are the ones of
    [str] the sources use, on the byte representation. *)

Definition starts_with (p s : string) : bool := String.prefix p s.
#[global] Arguments starts_with : simpl never.

Fixpoint str_contains (sub s : string) : bool :=
  starts_with sub s ||
  match s with EmptyString => false | String _ t => str_contains sub t end.

(** [s.contains(c)] for a character. *)
Fixpoint str_contains_char (c : ascii) (s : string) : bool :=
  match s with
  | EmptyString => false
  | String d t => bool_decide (c = d) || str_contains_char c t
  end.

(** [s[n..]]. *)
Fixpoint str_drop (n : nat) (s : string) : string :=
  match n, s with
  | S k, String _ t => str_drop k t
  | _, _ => s
  end.

(** [s.strip_prefix(p)]. *)
Definition strip_prefix (p s : string) : option string :=
  if starts_with p s then Some (str_drop (String.length p) s) else None.

(** [s.replace(c, by)] for a character pattern. *)
Fixpoint replace_char (c : ascii) (by_ : string) (s : string) : string :=
  match s with
  | EmptyString => EmptyString
  | String d t => (if decide (c = d) then by_ else String d EmptyString) +:+ replace_char c by_ t
  end.

(** [s.split(c).next()]: the part before the first [c]; the whole string if there is none. *)
Fixpoint split_next (c : ascii) (s : string) : string :=
  match s with
  | EmptyString => EmptyString
  | String d t => if decide (c = d) then EmptyString else String d (split_next c t)
  end.

(** [s.split_once(c)]. *)
Fixpoint split_once (c : ascii) (s : string) : option (string * string) :=
  match s with
  | EmptyString => None
  | String d t =>
      if decide (c = d) then Some (EmptyString, t)
      else '(a, b) ← split_once c t; Some (String d a, b)
  end.

(** [s.rsplit_once(c)]. *)
Fixpoint rsplit_once (c : ascii) (s : string) : option (string * string) :=
  match s with
  | EmptyString => None
  | String d t =>
      match rsplit_once c t with
      | Some (a, b) => Some (String d a, b)
      | None => if decide (c = d) then Some (EmptyString, t) else None
      end
  end.

(** [s.trim_start_matches(c)]. *)
Fixpoint trim_start_matches (c : ascii) (s : string) : string :=
  match s with
  | String d t => if decide (c = d) then trim_start_matches c t else s
  | EmptyString => EmptyString
  end.

(** [s.trim_end_matches(c)]. *)
Fixpoint trim_end_matches (c : ascii) (s : string) : string :=
  match s with
  | EmptyString => EmptyString
  | String d t =>
      match trim_end_matches c t with
      | EmptyString => if decide (c = d) then EmptyString else String d EmptyString
      | t' => String d t'
      end
  end.

(** [v.join(sep)]. *)
Fixpoint str_join (sep : string) (l : list string) : string :=
  match l with
  | [] => EmptyString
  | [s] => s
  | s :: l' => s +:+ sep +:+ str_join sep l'
  end.

(** [v.contains(&s)] on a slice of strings. *)
Definition list_contains (s : string) (l : list string) : bool := bool_decide (s ∈ l).

(** The lexicographic byte order of [str::cmp]. *)
Fixpoint str_leb (a b : string) : bool :=
  match a, b with
  | EmptyString, _ => true
  | String _ _, EmptyString => false
  | String c a', String d b' =>
      let m := Ascii.N_of_ascii c in let n := Ascii.N_of_ascii d in
      if (m <? n)%N then true else if (n <? m)%N then false else str_leb a' b'
  end.

(** [v.sort()] on strings: insertion sort, stable like the source's merge sort
    (equal strings are indistinguishable). *)
Fixpoint str_insert_sorted (s : string) (l : list string) : list string :=
  match l with
  | [] => [s]
  | t :: l' => if str_leb s t then s :: l else t :: str_insert_sorted s l'
  end.
Definition str_sort (l : list string) : list string := foldr str_insert_sorted [] l.

(** *** Facts about strings *)

Lemma str_app_assoc (a b c : string) : (a +:+ b) +:+ c = a +:+ (b +:+ c).
Proof. induction a as [|x a IH]; [done|]. cbn. f_equal. exact IH. Qed.

Lemma str_app_nil_r (a : string) : a +:+ EmptyString = a.
Proof. induction a as [|x a IH]; [done|]. cbn. f_equal. exact IH. Qed.

Lemma str_app_inj_l (a b c : string) : a +:+ b = a +:+ c -> b = c.
Proof. induction a as [|x a IH]; cbn; [done|]. intros [=]. auto. Qed.

Lemma starts_with_spec p s : starts_with p s = true <-> exists r, s = p +:+ r.
Proof.
  unfold starts_with. revert s. induction p as [|c p IH]; intros s; cbn.
  - split; [intros _; by exists s | by destruct s].
  - destruct s as [|d s]; cbn; [split; [done | by intros [r Hr]]|].
    destruct (Ascii.ascii_dec c d) as [->|Hne].
    + rewrite IH. split; intros [r Hr]; exists r; [by subst | by injection Hr].
    + split; [done|]. intros [r [= -> _]]. done.
Qed.

Lemma starts_with_app p s : starts_with p (p +:+ s) = true.
Proof. apply starts_with_spec. by exists s. Qed.

Lemma str_length_app a b : String.length (a +:+ b) = (String.length a + String.length b)%nat.
Proof. induction a as [|c a IH]; cbn; [done|]. by rewrite IH. Qed.
Lemma str_drop_app p s : str_drop (String.length p) (p +:+ s) = s.
Proof. induction p as [|c p IH]; cbn; [by destruct s | exact IH]. Qed.

Lemma str_contains_spec sub s :
  str_contains sub s = true <-> exists a b, s = a +:+ sub +:+ b.
Proof.
  induction s as [|c s IH]; cbn; rewrite orb_true_iff, starts_with_spec.
  - split.
    + intros [[r Hr]|]; [exists EmptyString, r; exact Hr | done].
    + intros (a & b & H). left. destruct a; [by exists b | done].
  - rewrite IH. split.
    + intros [[r Hr]|(a & b & ->)]; [by exists EmptyString, r | by exists (String c a), b].
    + intros (a & b & H). destruct a as [|d a]; [left; by exists b|].
      cbn in H. injection H as -> ->. right. by exists a, b.
Qed.

Lemma strip_prefix_app p s : strip_prefix p (p +:+ s) = Some s.
Proof. unfold strip_prefix. by rewrite starts_with_app, str_drop_app. Qed.
Lemma split_once_spec c s a b :
  split_once c s = Some (a, b) ->
  s = a +:+ String c b /\ str_contains_char c a = false.
Proof.
  revert a. induction s as [|d s IH]; intros a H; cbn in H; [done|].
  case_decide; subst.
  - by injection H as <- <-.
  - destruct (split_once c s) as [[a' b']|] eqn:E; [|done]. cbn in H.
    injection H as <- <-. destruct (IH _ eq_refl) as [-> Hc].
    split; [done|]. cbn. by rewrite bool_decide_eq_false_2, Hc by done.
Qed.

Lemma split_once_app c a b :
  str_contains_char c a = false -> split_once c (a +:+ String c b) = Some (a, b).
Proof.
  induction a as [|d a IH]; cbn; intros H.
  - by rewrite decide_True by done.
  - apply orb_false_iff in H as [Hd Ha]. apply bool_decide_eq_false_1 in Hd.
    rewrite decide_False by done. by rewrite (IH Ha).
Qed.

Lemma str_leb_total a b : str_leb a b = false -> str_leb b a = true.
Proof.
  revert b. induction a as [|c a IH]; intros [|d b]; cbn; try done.
  destruct (N.ltb_spec (Ascii.N_of_ascii c) (Ascii.N_of_ascii d)); [done|].
  destruct (N.ltb_spec (Ascii.N_of_ascii d) (Ascii.N_of_ascii c)); [done|auto].
Qed.

Lemma str_leb_trans a b c : str_leb a b = true -> str_leb b c = true -> str_leb a c = true.
Proof.
  revert b c. induction a as [|x a IH]; intros [|y b] [|z c]; cbn; try done.
  repeat match goal with |- context [(?m <? ?n)%N] => destruct (N.ltb_spec m n) end;
    try done; try lia. eauto.
Qed.

Lemma str_leb_antisym a b : str_leb a b = true -> str_leb b a = true -> a = b.
Proof.
  revert b. induction a as [|x a IH]; intros [|y b]; cbn; try done.
  repeat match goal with |- context [(?m <? ?n)%N] => destruct (N.ltb_spec m n) end;
    try done; try lia.
  intros H1 H2. f_equal; [|auto].
  rewrite <-(Ascii.ascii_N_embedding x), <-(Ascii.ascii_N_embedding y). f_equal. lia.
Qed.

Lemma str_insert_sorted_perm s l : str_insert_sorted s l ≡ₚ s :: l.
Proof.
  induction l as [|t l IH]; cbn; [done|]. case_match; [done|].
  rewrite IH. apply Permutation_swap.
Qed.

Lemma str_sort_perm l : str_sort l ≡ₚ l.
Proof. induction l as [|s l IH]; cbn; [done|]. by rewrite str_insert_sorted_perm, IH. Qed.

Lemma str_insert_comm s t l :
  str_insert_sorted s (str_insert_sorted t l) = str_insert_sorted t (str_insert_sorted s l).
Proof.
  induction l as [|u l IH]; cbn.
  - destruct (str_leb s t) eqn:E1, (str_leb t s) eqn:E2; try done.
    + by rewrite (str_leb_antisym s t).
    + by rewrite (str_leb_total _ _ E1) in E2.
  - destruct (str_leb t u) eqn:Et, (str_leb s u) eqn:Es; cbn; rewrite ?Et, ?Es.
    + destruct (str_leb s t) eqn:E1, (str_leb t s) eqn:E2; try done.
      * by rewrite (str_leb_antisym s t).
      * by rewrite (str_leb_total _ _ E1) in E2.
    + destruct (str_leb s t) eqn:E1; [|done].
      by rewrite (str_leb_trans s t u) in Es.
    + destruct (str_leb t s) eqn:E1; [|done].
      by rewrite (str_leb_trans t s u) in Et.
    + by rewrite IH.
Qed.

(** Sorting forgets the order in which the elements were inserted. *)
Lemma str_sort_proper l k : l ≡ₚ k -> str_sort l = str_sort k.
Proof.
  induction 1 as [|s l k _ IH|s t l|l k m _ IH1 _ IH2]; cbn.
  - done.
  - unfold str_sort in IH. by rewrite IH.
  - apply str_insert_comm.
  - congruence.
Qed.
#[global] Instance str_sort_Proper : Proper ((≡ₚ) ==> (=)) str_sort.
Proof. intros l k H. by apply str_sort_proper. Qed.

(** ** Hash maps *)

(** A [HashMap] is iterated in some order of its entries. *)
Class HashOrder : Type := hash_iter : forall A : Type, gmap string A -> list (string * A).
Class HashOrderLaws `{!HashOrder} : Prop :=
  hash_iter_perm (A : Type) (m : gmap string A) : hash_iter A m ≡ₚ map_to_list m.
(** A directory is listed in some order, too. *)
Definition dir_iter `{!HashOrder} (s : gset string) : list string := (hash_iter unit (gset_to_gmap () s)).*1.
Lemma dir_iter_spec `{!HashOrder, !HashOrderLaws} (s : gset string) : NoDup (dir_iter s) /\ forall e, e ∈ dir_iter s <-> e ∈ s.
Proof.
  unfold dir_iter. split; [rewrite hash_iter_perm; apply NoDup_fst_map_to_list|]. intros e. rewrite list_elem_of_fmap. split.
  - intros ([k []] & -> & Hk). rewrite hash_iter_perm in Hk. apply elem_of_map_to_list, lookup_gset_to_gmap_Some in Hk. apply Hk.
  - intros He. exists (e, ()). split; [done|]. rewrite hash_iter_perm. apply elem_of_map_to_list, lookup_gset_to_gmap_Some. done.
Qed.

(** ** Proof automation *)

(** Case analysis on every [match] and [if] of the goal and the hypotheses, then
    injectivity and contradiction. *)
Ltac split_cases := repeat (case_match; simplify_eq/=); try done.

(** Invert a chain of [?] that succeeded. *)
Ltac invert_bind :=
  repeat match goal with
  | H : mbind _ _ = Ok _ |- _ => apply bind_Ok_inv in H as (? & ? & ?)
  | H : ok_or _ _ = Ok _ |- _ => apply ok_or_Ok in H
  | H : map_err _ _ = Ok _ |- _ => apply map_err_Ok in H
  end; simplify_eq/=.

Create HintDb avix.
#[export] Hint Resolve starts_with_app str_sort_perm : avix.
#[export] Hint Rewrite str_app_assoc str_app_nil_r str_drop_app : avix.
