(* ===== verification/Floats.v ===== *)
(** * IEEE-754 numbers of the sources ([f64] and [f32])

    The values are those of the Standard Library's [SpecFloat] (binary64 is
    [prec = 53], [emax = 1024]; binary32 is [prec = 24], [emax = 128]), so every
    comparison, conversion and rounding below is executable.  [f64::max] and
    [f64::min] ignore a NaN operand as Rust documents; on operands that compare
    equal (which differ at most in the sign of a zero) they return the receiver. *)

From Stdlib Require Import SpecFloat.
From S2P Require Import Prelude.
Local Open Scope Z_scope.

Definition f64 : Type := spec_float.
Definition f32 : Type := spec_float.

#[global] Instance spec_float_eq_dec : EqDecision spec_float.
Proof. solve_decision. Defined.

Definition is_nan (x : spec_float) : bool := match x with S754_nan => true | _ => false end.

Definition f64_lt (x y : f64) : bool := SFltb x y.
Definition f64_le (x y : f64) : bool := SFleb x y.

Definition f64_max (a b : f64) : f64 :=
  if is_nan a then b else if is_nan b then a else if f64_lt a b then b else a.
Definition f64_min (a b : f64) : f64 :=
  if is_nan a then b else if is_nan b then a else if f64_lt b a then b else a.

(** [n as f64] for an integer below [2^53]: exact, mantissa normalised to 53 bits. *)
Definition f64_of_int (n : Z) : f64 :=
  match n with
  | Z0 => S754_zero false
  | Zpos _ => let k := 52 - Z.log2 n in S754_finite false (Z.to_pos (Z.shiftl n k)) (- k)
  | Zneg p => let k := 52 - Z.log2 (Zpos p) in
              S754_finite true (Z.to_pos (Z.shiftl (Zpos p) k)) (- k)
  end.

(** [x as u32]: truncation toward zero, saturating; NaN gives 0. *)
Definition f64_to_u32 (x : f64) : Z :=
  match x with
  | S754_nan | S754_zero _ | S754_infinity true | S754_finite true _ _ => 0
  | S754_infinity false => u32_max
  | S754_finite false m e => Z.min (Z.shiftl (Zpos m) e) u32_max
  end.

(** [x as f64] for an [f32] (exact) and [x as f32] for an [f64] (round to nearest even). *)
Definition convert (prec emax : Z) (x : spec_float) : spec_float :=
  match x with
  | S754_finite s m e => binary_normalize prec emax (if s then Zneg m else Zpos m) e s
  | _ => x
  end.
Definition f64_of_f32 (x : f32) : f64 := convert 53 1024 x.
Definition f32_of_f64 (x : f64) : f32 := convert 24 128 x.

Definition f32_sub (x y : f32) : f32 := SFsub 24 128 x y.
Definition f32_abs (x : f32) : f32 := SFabs x.
(** [f32::EPSILON] is [2^-23]. *)
Definition f32_epsilon : f32 := S754_finite false 8388608 (-46).
(** The literal [0.7_f32]. *)
Definition f32_0_7 : f32 := S754_finite false 11744051 (-24).

(** ** The order of the non-NaN values

    Each value gets a sign class, a signed exponent and a signed mantissa; the
    IEEE order is the lexicographic order of the three. *)

Definition ord_class (x : spec_float) : Z :=
  match x with
  | S754_nan | S754_zero _ => 0
  | S754_infinity true => -2 | S754_finite true _ _ => -1
  | S754_finite false _ _ => 1 | S754_infinity false => 2
  end.
Definition ord_exp (x : spec_float) : Z :=
  match x with S754_finite s _ e => if s then - e else e | _ => 0 end.
Definition ord_mant (x : spec_float) : Z :=
  match x with S754_finite s m _ => if s then Zneg m else Zpos m | _ => 0 end.

Definition ord_le (x y : spec_float) : Prop :=
  ord_class x < ord_class y \/ ord_class x = ord_class y /\
  (ord_exp x < ord_exp y \/ ord_exp x = ord_exp y /\ ord_mant x <= ord_mant y).

Lemma SFcompare_ord x y :
  is_nan x = false -> is_nan y = false ->
  match SFcompare x y with
  | None => False
  | Some Lt => ord_le x y /\ ~ ord_le y x
  | Some Eq => ord_le x y /\ ord_le y x
  | Some Gt => ord_le y x /\ ~ ord_le x y
  end.
Proof.
  unfold ord_le.
  destruct x as [[]|[]| |[] mx ex], y as [[]|[]| |[] my ey]; cbn; intros Hx Hy; try done; try lia;
    destruct (Z.compare_spec ex ey) as [->|?|?]; try lia;
    change (Pos.compare_cont Eq mx my) with (Pos.compare mx my);
    destruct (Pos.compare_spec mx my) as [->|?|?]; cbn; lia.
Qed.

Lemma f64_le_ord x y :
  is_nan x = false -> is_nan y = false -> f64_le x y = true <-> ord_le x y.
Proof.
  intros Hx Hy. pose proof (SFcompare_ord x y Hx Hy) as H.
  unfold f64_le, SFleb. destruct (SFcompare x y) as [[]|]; naive_solver.
Qed.

Lemma f64_lt_ord x y :
  is_nan x = false -> is_nan y = false -> f64_lt x y = true <-> ~ ord_le y x.
Proof.
  intros Hx Hy. pose proof (SFcompare_ord x y Hx Hy) as H.
  unfold f64_lt, SFltb. destruct (SFcompare x y) as [[]|]; naive_solver.
Qed.

Lemma ord_le_refl x : ord_le x x.
Proof. unfold ord_le. lia. Qed.
Lemma ord_le_trans x y z : ord_le x y -> ord_le y z -> ord_le x z.
Proof. unfold ord_le. lia. Qed.
Lemma ord_le_total x y : ord_le x y \/ ord_le y x.
Proof. unfold ord_le. lia. Qed.

#[export] Hint Resolve ord_le_refl : avix.

Lemma f64_max_nan a b : is_nan a = false -> is_nan b = false -> is_nan (f64_max a b) = false.
Proof. intros Ha Hb. unfold f64_max. rewrite Ha, Hb. by case_match. Qed.
Lemma f64_min_nan a b : is_nan a = false -> is_nan b = false -> is_nan (f64_min a b) = false.
Proof. intros Ha Hb. unfold f64_min. rewrite Ha, Hb. by case_match. Qed.

(** The result of [max] is the least upper bound of its operands, [min] the greatest lower. *)
Lemma f64_max_ord a b x :
  is_nan a = false -> is_nan b = false ->
  ord_le (f64_max a b) x <-> ord_le a x /\ ord_le b x.
Proof.
  intros Ha Hb. unfold f64_max. rewrite Ha, Hb.
  destruct (f64_lt a b) eqn:E.
  - apply f64_lt_ord in E; [|done..]. unfold ord_le in *. lia.
  - assert (ord_le b a) as H.
    { destruct (ord_le_total a b) as [H|]; [|done]. 
      apply not_true_iff_false in E. rewrite f64_lt_ord in E by done.
      unfold ord_le in *. lia. }
    unfold ord_le in *. lia.
Qed.

Lemma f64_min_ord a b x :
  is_nan a = false -> is_nan b = false ->
  ord_le x (f64_min a b) <-> ord_le x a /\ ord_le x b.
Proof.
  intros Ha Hb. unfold f64_min. rewrite Ha, Hb.
  destruct (f64_lt b a) eqn:E.
  - apply f64_lt_ord in E; [|done..]. unfold ord_le in *. lia.
  - assert (ord_le a b) as H.
    { apply not_true_iff_false in E. rewrite f64_lt_ord in E by done.
      unfold ord_le in *. lia. }
    unfold ord_le in *. lia.
Qed.

Lemma f64_max_choice a b : f64_max a b = a \/ f64_max a b = b.
Proof. unfold f64_max. repeat case_match; auto. Qed.
Lemma f64_min_choice a b : f64_min a b = a \/ f64_min a b = b.
Proof. unfold f64_min. repeat case_match; auto. Qed.

(** ** Integers inside the floats *)

Lemma f64_of_int_nan n : is_nan (f64_of_int n) = false.
Proof. by destruct n. Qed.

Lemma shiftl_log2_bounds n k :
  0 < n -> 0 <= k -> k = 52 - Z.log2 n -> 2 ^ 52 <= Z.shiftl n k < 2 ^ 53.
Proof.
  intros Hn Hk ->. rewrite Z.shiftl_mul_pow2 by lia.
  pose proof (Z.log2_spec n Hn) as [Hl Hu]. pose proof (Z.log2_nonneg n).
  replace (2 ^ 52) with (2 ^ Z.log2 n * 2 ^ (52 - Z.log2 n))
    by (rewrite <-Z.pow_add_r by lia; f_equal; lia).
  replace (2 ^ 53) with (2 ^ Z.succ (Z.log2 n) * 2 ^ (52 - Z.log2 n))
    by (rewrite <-Z.pow_add_r by lia; f_equal; lia).
  pose proof (Z.pow_pos_nonneg 2 (52 - Z.log2 n)). nia.
Qed.

Lemma log2_small n : 0 < n < 2 ^ 53 -> 0 <= 52 - Z.log2 n.
Proof.
  intros [Hn Hs]. assert (Z.log2 n < 53); [|lia]. by apply Z.log2_lt_pow2.
Qed.

Lemma f64_to_u32_of_int n : is_u32 n -> f64_to_u32 (f64_of_int n) = n.
Proof.
  intros Hn. destruct n as [|p|p]; [done| |machine]. unfold f64_of_int, f64_to_u32.
  assert (0 <= 52 - Z.log2 (Zpos p)) as Hk by (apply log2_small; machine).
  pose proof (shiftl_log2_bounds (Zpos p) _ ltac:(lia) Hk eq_refl) as [Hl _].
  rewrite Z2Pos.id by lia. rewrite Z.shiftl_shiftl by lia.
  replace (52 - Z.log2 (Z.pos p) + - (52 - Z.log2 (Z.pos p))) with 0 by lia.
  rewrite Z.shiftl_0_r. machine.
Qed.

(** On integers below [2^53] the float order is the integer order. *)
Lemma f64_of_int_ord a b :
  0 <= a < 2 ^ 53 -> 0 <= b < 2 ^ 53 -> ord_le (f64_of_int a) (f64_of_int b) <-> a <= b.
Proof.
  intros Ha Hb. destruct a as [|a|a], b as [|b|b]; unfold ord_le; cbn -[Z.log2 Z.shiftl]; try lia.
  pose proof (log2_small (Zpos a) ltac:(lia)) as Hka.
  pose proof (log2_small (Zpos b) ltac:(lia)) as Hkb.
  pose proof (shiftl_log2_bounds (Zpos a) _ ltac:(lia) Hka eq_refl).
  pose proof (shiftl_log2_bounds (Zpos b) _ ltac:(lia) Hkb eq_refl).
  rewrite !Z2Pos.id by lia.
  destruct (Z.lt_trichotomy (Z.log2 (Zpos a)) (Z.log2 (Zpos b))) as [Hlt|[Heq|Hgt]].
  - pose proof (Z.log2_lt_cancel _ _ Hlt). lia.
  - rewrite Heq, !Z.shiftl_mul_pow2 by lia.
    pose proof (Z.pow_pos_nonneg 2 (52 - Z.log2 (Zpos b))). nia.
  - pose proof (Z.log2_lt_cancel _ _ Hgt). lia.
Qed.
