(* ===== verification/Types.v ===== *)
(** * Core types ([crates/avix-core/src/types], [error.rs], [router/mangle.rs])

    Errors, process identifiers, roles, tool names with their wire mangling, tool
    states and categories, the capability-to-tool map, IPC addresses and
    modalities.  The wall clock and the random salt of [Pid::generate] are
    arguments. *)

From S2P Require Import Prelude.
Local Open Scope Z_scope.

(** ** Errors *)

Inductive AvixError : Type :=
| InvalidPid (s : string)
| InvalidIpcAddr (s : string)
| InvalidToolName (name reason : string)
| UnknownCredentialType (s : string)
| ConfigParse (s : string)
| CapabilityDenied (s : string)
| NoProviderAvailable (s : string)
| ProviderNotPermitted (s : string)
| AdapterError (s : string)
| Io (s : string)
| IpcTimeout
| IpcFrameTooLarge
| InvalidInput (s : string)
| NotFound (s : string)
| ManifestNotFound (path : string)
| ManifestSignatureMismatch (path : string)
| ManifestKindMismatch (expected found : string)
| RequiredToolDenied (tool agent : string)
| ModelRequirementsNotMet (reason : string)
| Serialization (s : string)
| McpProtocol (s : string)
| McpUnreachable (s : string)
| Cancelled (s : string).

#[global] Instance AvixError_eq_dec : EqDecision AvixError.
Proof. solve_decision. Defined.

(** The [Display] implementation derived by [thiserror]. *)
Definition avix_error_to_string (e : AvixError) : string :=
  match e with
  | InvalidPid s => "invalid PID: " +:+ s
  | InvalidIpcAddr s => "invalid IPC address: " +:+ s
  | InvalidToolName n r => "invalid tool name '" +:+ n +:+ "': " +:+ r
  | UnknownCredentialType s => "unknown credential type: " +:+ s
  | ConfigParse s => "config parse error: " +:+ s
  | CapabilityDenied s => "capability denied: " +:+ s
  | NoProviderAvailable s => "no provider available for modality: " +:+ s
  | ProviderNotPermitted s => "provider not permitted: " +:+ s
  | AdapterError s => "adapter error: " +:+ s
  | Io s => "IO error: " +:+ s
  | IpcTimeout => "IPC call timed out"
  | IpcFrameTooLarge => "IPC frame too large"
  | InvalidInput s => "invalid input: " +:+ s
  | NotFound s => "not found: " +:+ s
  | ManifestNotFound p => "manifest not found at path: " +:+ p
  | ManifestSignatureMismatch p => "manifest signature mismatch at path: " +:+ p
  | ManifestKindMismatch e f => "manifest kind mismatch: expected '" +:+ e +:+ "', found '" +:+ f +:+ "'"
  | RequiredToolDenied t a => "required tool '" +:+ t +:+ "' denied for agent '" +:+ a +:+ "'"
  | ModelRequirementsNotMet r => "model requirements not met: " +:+ r
  | Serialization s => "serialization error: " +:+ s
  | McpProtocol s => "MCP protocol error: " +:+ s
  | McpUnreachable s => "MCP server unreachable: " +:+ s
  | Cancelled s => "cancelled: " +:+ s
  end%string.

(** ** Process identifiers *)

Module Pid.

Definition PID_EPOCH_MS : Z := 1735689600000.

(** [Pid::generate]: [now_ms] is the clock in milliseconds, [rnd] the random [u32]. *)
Definition generate (now_ms rnd : Z) : Z :=
  let ts := Z.land (saturating_sub now_ms PID_EPOCH_MS) 0x3FFFFFFFFFF in
  let salt := Z.land rnd 0x3FFFFF in
  Z.lor (Z.shiftl ts 22) salt.

Definition kernel : Z := 0.
Definition is_kernel (p : Z) : bool := bool_decide (p = 0).

Definition to_string (p : Z) : string :=
  if is_kernel p then "kernel"%string else pretty p.

(** The timestamp and the salt a PID was built from. *)
Definition timestamp_of (p : Z) : Z := Z.shiftr p 22.
Definition salt_of (p : Z) : Z := Z.land p 0x3FFFFF.

Lemma land_mask x n : 0 <= n -> Z.land x (2 ^ n - 1) = x mod 2 ^ n.
Proof.
  intros Hn.
  replace (2 ^ n - 1) with (Z.ones n) by (rewrite Z.ones_equiv; lia).
  by apply Z.land_ones.
Qed.

(** The two fields do not overlap: the bitwise or is a sum. *)
Lemma generate_sum now_ms rnd :
  generate now_ms rnd =
    (saturating_sub now_ms PID_EPOCH_MS mod 2 ^ 42) * 2 ^ 22 + rnd mod 2 ^ 22.
Proof.
  unfold generate.
  change 0x3FFFFFFFFFF with (2 ^ 42 - 1). change 0x3FFFFF with (2 ^ 22 - 1).
  rewrite !land_mask by lia. rewrite Z.shiftl_mul_pow2 by lia.
  set (a := saturating_sub now_ms PID_EPOCH_MS mod 2 ^ 42).
  pose proof (Z.mod_pos_bound rnd (2 ^ 22) ltac:(lia)) as Hb.
  set (b := rnd mod 2 ^ 22) in *.
  rewrite <-Z.lxor_lor, <-Z.add_nocarry_lxor; [done|..]; 
  (apply Z.bits_inj'; intros i Hi; rewrite Z.land_spec, Z.bits_0;
   destruct (Z.lt_ge_cases i 22) as [Hlt|Hge];
   [by rewrite Z.mul_pow2_bits_low by lia|];
   rewrite (Z.bits_above_log2 b i), andb_false_r; [done|lia|];
   destruct (decide (b = 0)) as [->|]; [cbn; lia|];
   assert (Z.log2 b < 22); [apply Z.log2_lt_pow2; lia|lia]).
Qed.

(** a generated PID is a 64-bit number whose upper 42 bits are the
    milliseconds since 2025-01-01 (clamped at 0) and whose lower 22 bits are the
    salt, so two PIDs agree exactly when clock and salt agree. *)
Theorem generate_layout now_ms rnd :
  is_u64 (generate now_ms rnd) /\
  timestamp_of (generate now_ms rnd) = saturating_sub now_ms PID_EPOCH_MS mod 2 ^ 42 /\
  salt_of (generate now_ms rnd) = rnd mod 2 ^ 22 /\
  (forall now' rnd', generate now_ms rnd = generate now' rnd' <->
     saturating_sub now_ms PID_EPOCH_MS mod 2 ^ 42 = saturating_sub now' PID_EPOCH_MS mod 2 ^ 42
     /\ rnd mod 2 ^ 22 = rnd' mod 2 ^ 22) /\
  (is_kernel (generate now_ms rnd) = true <->
     saturating_sub now_ms PID_EPOCH_MS mod 2 ^ 42 = 0 /\ rnd mod 2 ^ 22 = 0).
Proof.
  pose proof (Z.mod_pos_bound rnd (2 ^ 22) ltac:(lia)) as Hb.
  pose proof (Z.mod_pos_bound (saturating_sub now_ms PID_EPOCH_MS) (2 ^ 42) ltac:(lia)) as Ha.
  unfold timestamp_of, salt_of, is_kernel.
  change 0x3FFFFF with (2 ^ 22 - 1). rewrite land_mask by lia.
  rewrite Z.shiftr_div_pow2 by lia. rewrite bool_decide_eq_true, !generate_sum.
  split; [machine|]. split; [|split; [|split]].
  - rewrite Z.div_add_l by lia. rewrite Z.div_small by lia. lia.
  - rewrite Z.add_comm, Z.mod_add by lia. by apply Z.mod_small.
  - intros now' rnd'. rewrite generate_sum.
    pose proof (Z.mod_pos_bound rnd' (2 ^ 22) ltac:(lia)).
    pose proof (Z.mod_pos_bound (saturating_sub now' PID_EPOCH_MS) (2 ^ 42) ltac:(lia)). lia.
  - lia.
Qed.

End Pid.

(** ** Roles *)

Module Role.

Inductive t : Type := Guest | User | Operator | Admin.
#[global] Instance eq_dec : EqDecision t.
Proof. solve_decision. Defined.

(** The discriminants of the Rust enum, which its derived [Ord] compares. *)
Definition rank (r : t) : nat :=
  match r with Guest => 0 | User => 1 | Operator => 2 | Admin => 3 end%nat.
Definition ltb (a b : t) : bool := (rank a <? rank b)%nat.
Definition leb (a b : t) : bool := (rank a <=? rank b)%nat.

Definition can_access_domain (r : t) (domain : string) : bool :=
  if list_contains domain ["proc"; "fs"; "llm"; "exec"; "jobs"]%string then true
  else if list_contains domain ["sys"; "cap"]%string then leb Admin r
  else if decide (domain = "kernel"%string) then leb Operator r
  else false.

Definition to_string (r : t) : string :=
  match r with Admin => "admin" | Operator => "operator" | User => "user" | Guest => "guest" end%string.

Definition from_str (s : string) : result AvixError t :=
  if decide (s = "admin"%string) then Ok Admin
  else if decide (s = "operator"%string) then Ok Operator
  else if decide (s = "user"%string) then Ok User
  else if decide (s = "guest"%string) then Ok Guest
  else Err (ConfigParse ("unknown role: " +:+ s)%string).

Lemma from_str_to_string r : from_str (to_string r) = Ok r.
Proof. by destruct r. Qed.

Lemma ltb_leb a b : ltb a b = negb (leb b a).
Proof. by destruct a, b. Qed.
Lemma leb_trans a b c : leb a b = true -> leb b c = true -> leb a c = true.
Proof. by destruct a, b, c. Qed.
Lemma leb_total a b : leb a b = false -> leb b a = true.
Proof. by destruct a, b. Qed.

End Role.

(** ** Tool names and wire mangling *)

Module Mangle.

(** [s.replace("__", "/")]: leftmost, non-overlapping occurrences. *)
Fixpoint replace_dunder (s : string) : string :=
  match s with
  | String c t =>
      if decide (c = "_"%char) then
        match t with
        | String d t' => if decide (d = "_"%char) then String "/" (replace_dunder t')
                         else String c (replace_dunder t)
        | EmptyString => s
        end
      else String c (replace_dunder t)
  | EmptyString => EmptyString
  end.

Definition mangle (name : string) : string := replace_char "/" "__" name.
Definition unmangle (name : string) : string := replace_dunder name.
Definition validate_tool_name (name : string) : result AvixError unit :=
  if str_contains "__" name then
    Err (InvalidToolName name "tool names must not contain '__' (reserved for wire mangling)")
  else Ok ().

Lemma mangle_cons c t :
  mangle (String c t) =
    if decide (c = "/"%char) then String "_" (String "_" (mangle t)) else String c (mangle t).
Proof.
  unfold mangle. cbn. repeat case_decide; subst; try done.
Qed.

Lemma unmangle_dunder t : unmangle (String "_" (String "_" t)) = String "/" (unmangle t).
Proof. done. Qed.

Lemma unmangle_other c t : c ≠ "_"%char -> unmangle (String c t) = String c (unmangle t).
Proof. intros Hc. unfold unmangle. cbn [replace_dunder]. by rewrite decide_False by done. Qed.

Lemma unmangle_single c t :
  c ≠ "_"%char -> unmangle (String "_" (String c t)) = String "_" (unmangle (String c t)).
Proof. intros Hc. unfold unmangle. cbn [replace_dunder]. by rewrite decide_True, decide_False by done. Qed.

(** The name has an underscore immediately before a slash. *)
Definition ambiguous (s : string) : bool := str_contains "_/" s.
Definition reserved (s : string) : bool := str_contains "__" s.

Lemma contains_two_cons a b c t :
  str_contains (String a (String b EmptyString)) (String c t) =
    (bool_decide (c = a) && match t with String d _ => bool_decide (d = b) | _ => false end)
    || str_contains (String a (String b EmptyString)) t.
Proof.
  cbn [str_contains]. f_equal. unfold starts_with. cbn.
  destruct (Ascii.ascii_dec a c) as [->|Hac].
  - rewrite bool_decide_eq_true_2 by done. destruct t as [|d t]; [done|]. cbn.
    destruct (Ascii.ascii_dec b d) as [->|]; [|by rewrite bool_decide_eq_false_2 by congruence].
    rewrite bool_decide_eq_true_2 by done. by destruct t.
  - by rewrite bool_decide_eq_false_2 by congruence.
Qed.

Lemma unmangle_mangle_iff s :
  reserved s = false -> (unmangle (mangle s) = s <-> ambiguous s = false).
Proof.
  unfold reserved, ambiguous. induction s as [|c t IH]; [done|].
  rewrite !contains_two_cons, !orb_false_iff. intros [Hd Hr]. specialize (IH Hr).
  rewrite mangle_cons. destruct (decide (c = "/"%char)) as [->|Hc].
  - rewrite unmangle_dunder. rewrite bool_decide_eq_false_2 by done. cbn. naive_solver congruence.
  - destruct (decide (c = "_"%char)) as [->|Hu].
    2:{ rewrite unmangle_other, bool_decide_eq_false_2 by done. cbn. naive_solver congruence. }
    rewrite bool_decide_eq_true_2 in * by done. cbn [andb] in *.
    destruct t as [|d t]; [done|]. apply bool_decide_eq_false_1 in Hd.
    rewrite mangle_cons in *. destruct (decide (d = "/"%char)) as [->|Hs].
    + rewrite bool_decide_eq_true_2 by done. split; [|naive_solver].
      rewrite unmangle_dunder. discriminate.
    + rewrite (bool_decide_eq_false_2 (d = _)) by done.
      rewrite unmangle_single by done. naive_solver congruence.
Qed.

End Mangle.

Module ToolName.

Definition parse (s : string) : result AvixError string :=
  if decide (s = EmptyString) then Err (InvalidToolName s "name must not be empty")
  else if str_contains "__" s then
    Err (InvalidToolName s "name must not contain '__' (reserved for wire mangling)")
  else Ok s.

Definition mangled (n : string) : string := replace_char "/" "__" n.
Definition unmangle (m : string) : result AvixError string := parse (Mangle.replace_dunder m).

(** for every name that [parse] accepts, unmangling its wire form gives the
    name back exactly when no underscore stands before a slash; otherwise the
    round trip returns another name or fails. *)
Theorem wire_roundtrip s n :
  parse s = Ok n ->
  (unmangle (mangled n) = Ok n <-> Mangle.ambiguous n = false).
Proof.
  unfold parse at 1, unmangle. case_decide as Hn; [done|].
  destruct (str_contains "__" s) eqn:Hd; [done|]. intros [= <-].
  change (Mangle.replace_dunder (mangled s)) with (Mangle.unmangle (Mangle.mangle s)).
  rewrite <-(Mangle.unmangle_mangle_iff s Hd). split.
  - unfold parse. case_decide; [done|]. case_match; [done|]. by intros [= ->].
  - intros ->. unfold parse. by rewrite decide_False, Hd by done.
Qed.

(** Two different valid names may share a wire form. *)
Example wire_collision :
  parse "fs_/read" = Ok "fs_/read"%string /\ parse "fs/_read" = Ok "fs/_read"%string /\
  mangled "fs_/read" = mangled "fs/_read".
Proof. by vm_compute. Qed.

Lemma wire_roundtrip_witness :
  parse "fs/read" = Ok "fs/read"%string /\
  (unmangle (mangled "fs/read") = Ok "fs/read"%string <-> Mangle.ambiguous "fs/read" = false).
Proof. split; [reflexivity | apply (wire_roundtrip "fs/read" "fs/read"); reflexivity]. Defined.

End ToolName.

(** ** Tool states, categories, visibility *)

Module Tool.

Inductive ToolState : Type := Available | Degraded | Unavailable.
#[global] Instance ToolState_eq_dec : EqDecision ToolState.
Proof. solve_decision. Defined.

Definition can_transition_to (a b : ToolState) : bool :=
  match a, b with Available, Available => false | _, _ => true end.

Inductive ToolCategory : Type := Direct | AvixBehaviour | Transparent.
#[global] Instance ToolCategory_eq_dec : EqDecision ToolCategory.
Proof. solve_decision. Defined.

Definition classify (tool_name : string) : ToolCategory :=
  let ns := split_next "/" tool_name in
  if list_contains ns ["agent"; "pipe"; "cap"; "job"]%string then AvixBehaviour else Direct.

Inductive ToolVisibility : Type :=
| All | Crew (c : string) | User (u : string).
#[global] Instance ToolVisibility_eq_dec : EqDecision ToolVisibility.
Proof. solve_decision. Defined.

End Tool.

(** ** The capability map *)

Module CapabilityToolMap.

Record t : Type := { map : gmap string (list string); always : list string }.

Definition default_map : t := {|
  map :=
    <["memory:share" := ["memory/share-request"]]>
    (<["memory:write" := ["memory/retrieve"; "memory/get-fact"; "memory/get-preferences";
        "memory/log-event"; "memory/store-fact"; "memory/update-preference"; "memory/forget"]]>
    (<["memory:read" := ["memory/retrieve"; "memory/get-fact"; "memory/get-preferences"]]>
    (<["pipe:use" := ["pipe/open"; "pipe/write"; "pipe/read"; "pipe/close"]]>
    (<["agent:spawn" := ["agent/spawn"; "agent/kill"; "agent/list"; "agent/wait";
        "agent/send-message"]]> (∅ : gmap string (list string))))));
  always := ["cap/request-tool"; "cap/escalate"; "cap/list"; "job/watch"; "sys/tools"]
|}%string.

Definition tools_for_capability (m : t) (cap : string) : list string :=
  default [] (map m !! cap).
Definition all_gated_cat2_tools (m : t) : list string :=
  concat ((map_to_list (map m)).*2).
Definition always_present (m : t) : list string := always m.

End CapabilityToolMap.

(** ** IPC addresses (Unix) *)

Module IpcAddr.

Definition from_name (runtime_dir name : string) : string :=
  (runtime_dir +:+ "/" +:+ name +:+ ".sock")%string.
Definition for_agent (runtime_dir : string) (pid : Z) : string :=
  (runtime_dir +:+ "/agents/" +:+ Pid.to_string pid +:+ ".sock")%string.
Definition for_service (runtime_dir name : string) : string :=
  (runtime_dir +:+ "/services/" +:+ name +:+ ".sock")%string.
Definition router (runtime_dir : string) : string := from_name runtime_dir "router".
Definition kernel (runtime_dir : string) : string := from_name runtime_dir "kernel".
Definition auth (runtime_dir : string) : string := from_name runtime_dir "auth".
Definition memfs (runtime_dir : string) : string := from_name runtime_dir "memfs".

End IpcAddr.

(** ** Modalities *)

Module Modality.

Inductive t : Type := Text | Image | Speech | Transcription | Embedding.
#[global] Instance eq_dec : EqDecision t.
Proof. solve_decision. Defined.

Definition as_str (m : t) : string :=
  match m with
  | Text => "text" | Image => "image" | Speech => "speech"
  | Transcription => "transcription" | Embedding => "embedding"
  end%string.
Definition all : list t := [Text; Image; Speech; Transcription; Embedding].
Definition from_str (s : string) : result AvixError t :=
  match list_find (fun m => s = as_str m) all with
  | Some (_, m) => Ok m
  | None => Err (ConfigParse ("unknown modality: " +:+ s)%string)
  end.

Lemma from_str_as_str m : from_str (as_str m) = Ok m.
Proof. by destruct m. Qed.

End Modality.
