(* ===== verification/Constraints.v ===== *)
(** * Parameter constraints ([params/constraint.rs])

    Range, enumeration, set and boolean constraints with their [intersect],
    [allows], [clamp] and [filter], and the algebra that makes layered limits
    sound: an intersection admits exactly what both sides admit. *)

From S2P Require Import Prelude Floats.
Local Open Scope Z_scope.

Module RangeConstraint.

Record t : Type := { min : option f64; max : option f64 }.

(** [match (a, b) { (Some, Some) => f, one => that one, none => None }] *)
Definition pick (f : f64 -> f64 -> f64) (a b : option f64) : option f64 :=
  match a, b with
  | Some x, Some y => Some (f x y)
  | Some x, None => Some x
  | None, Some y => Some y
  | None, None => None
  end.

Definition intersect (self other : t) : t := {|
  min := pick f64_max (min self) (min other);
  max := pick f64_min (max self) (max other)
|}.

Definition clamp (self : t) (value : f64) : f64 :=
  let v := match min self with Some lo => f64_max value lo | None => value end in
  match max self with Some hi => f64_min v hi | None => v end.

Definition allows (self : t) (value : f64) : bool :=
  if match min self with Some lo => f64_lt value lo | None => false end then false
  else if match max self with Some hi => f64_lt hi value | None => false end then false
  else true.

(** The two halves of [allows]. *)
Definition above_min (o : option f64) (v : f64) : bool :=
  match o with Some lo => negb (f64_lt v lo) | None => true end.
Definition below_max (o : option f64) (v : f64) : bool :=
  match o with Some hi => negb (f64_lt hi v) | None => true end.

Lemma allows_halves c v : allows c v = above_min (min c) v && below_max (max c) v.
Proof. destruct c as [[lo|] [hi|]]; unfold allows; cbn; by repeat case_match. Qed.

Lemma f64_lt_nan_l x y : is_nan x = true -> f64_lt x y = false.
Proof. by destruct x. Qed.
Lemma f64_lt_nan_r x y : is_nan y = true -> f64_lt x y = false.
Proof. by destruct x, y. Qed.

Lemma not_lt_ord x y :
  is_nan x = false -> is_nan y = false -> negb (f64_lt x y) = true <-> ord_le y x.
Proof.
  intros Hx Hy. rewrite negb_true_iff, <-not_true_iff_false, f64_lt_ord by done.
  unfold ord_le. lia.
Qed.

(** Case split on which of three floats are NaN. *)
Ltac nan_cases x := let E := fresh "Hnan" in destruct (is_nan x) eqn:E.

Lemma above_min_max a b v :
  negb (f64_lt v (f64_max a b)) = negb (f64_lt v a) && negb (f64_lt v b).
Proof.
  nan_cases v; [by rewrite !f64_lt_nan_l|].
  nan_cases a; [unfold f64_max; rewrite Hnan0; by rewrite (f64_lt_nan_r v a)|].
  nan_cases b.
  { unfold f64_max. rewrite Hnan0, Hnan1, (f64_lt_nan_r v b) by done. by rewrite andb_true_r. }
  apply eq_true_iff_eq. rewrite andb_true_iff, !not_lt_ord by auto using f64_max_nan.
  by rewrite f64_max_ord.
Qed.

Lemma below_max_min a b v :
  negb (f64_lt (f64_min a b) v) = negb (f64_lt a v) && negb (f64_lt b v).
Proof.
  nan_cases v; [by rewrite !f64_lt_nan_r|].
  nan_cases a; [unfold f64_min; rewrite Hnan0; by rewrite (f64_lt_nan_l a v)|].
  nan_cases b.
  { unfold f64_min. rewrite Hnan0, Hnan1, (f64_lt_nan_l b v) by done. by rewrite andb_true_r. }
  apply eq_true_iff_eq. rewrite andb_true_iff, !not_lt_ord by auto using f64_min_nan.
  by rewrite f64_min_ord.
Qed.

(** The intersection of two ranges admits a value exactly when both do, NaN bounds
    and NaN values included. *)
Lemma range_intersect_allows a b v : allows (intersect a b) v = allows a v && allows b v.
Proof.
  rewrite !allows_halves.
  assert (above_min (min (intersect a b)) v = above_min (min a) v && above_min (min b) v) as ->.
  { destruct a as [[] ?], b as [[] ?]; cbn; rewrite ?above_min_max, ?andb_true_r; done. }
  assert (below_max (max (intersect a b)) v = below_max (max a) v && below_max (max b) v) as ->.
  { destruct a as [? []], b as [? []]; cbn; rewrite ?below_max_min, ?andb_true_r; done. }
  destruct (above_min (min a) v), (above_min (min b) v), (below_max (max a) v),
    (below_max (max b) v); done.
Qed.

(** The bounds are not the wrong way round. *)
Definition consistent (c : t) : bool :=
  match min c, max c with Some lo, Some hi => negb (f64_lt hi lo) | _, _ => true end.

Lemma f64_lt_irrefl x : f64_lt x x = false.
Proof.
  nan_cases x; [by apply f64_lt_nan_l|]. apply negb_true_iff, not_lt_ord; auto with avix.
Qed.

Lemma f64_max_ge_r v lo : negb (f64_lt (f64_max v lo) lo) = true.
Proof.
  unfold f64_max. nan_cases v; [by rewrite f64_lt_irrefl|].
  nan_cases lo; [by rewrite f64_lt_nan_r|].
  destruct (f64_lt v lo) eqn:E; [by rewrite f64_lt_irrefl | by rewrite E].
Qed.

Lemma f64_min_le_r v hi : negb (f64_lt hi (f64_min v hi)) = true.
Proof.
  unfold f64_min. nan_cases v; [by rewrite f64_lt_irrefl|].
  nan_cases hi; [by rewrite f64_lt_nan_l|].
  destruct (f64_lt hi v) eqn:E; [by rewrite f64_lt_irrefl | by rewrite E].
Qed.

Lemma clamp_allows c v : consistent c = true -> allows c (clamp c v) = true.
Proof.
  rewrite allows_halves. destruct c as [[lo|] [hi|]]; unfold consistent, clamp; cbn; intros Hc.
  - rewrite f64_min_le_r, andb_true_r.
    destruct (f64_min_choice (f64_max v lo) hi) as [->| ->]; [apply f64_max_ge_r | exact Hc].
  - by rewrite f64_max_ge_r.
  - apply f64_min_le_r.
  - done.
Qed.

Lemma clamp_id c v : is_nan v = false -> allows c v = true -> clamp c v = v.
Proof.
  rewrite allows_halves. intros Hv. destruct c as [[lo|] [hi|]]; unfold clamp, f64_max, f64_min; cbn;
    rewrite ?Hv, ?andb_true_iff, ?negb_true_iff; intros [H1 H2] || intros H1;
    rewrite ?H1, ?H2, ?Hv; repeat (case_match; try done); congruence.
Qed.

(** the intersection of two ranges admits a value exactly when both ranges
    do, for all IEEE values; clamping into a consistent range gives an admitted
    value, and leaves an admitted (non-NaN) value untouched. *)
Theorem range_algebra (a b : t) (v : f64) :
  allows (intersect a b) v = allows a v && allows b v /\
  (consistent a = true -> allows a (clamp a v) = true) /\
  (is_nan v = false -> allows a v = true -> clamp a v = v).
Proof. auto using range_intersect_allows, clamp_allows, clamp_id. Qed.

(** Integer-valued bounds on an unsigned integer: clamping through the floats and
    back is the integer clamp. *)
Lemma clamp_int lo hi v :
  is_u32 lo -> is_u32 hi -> is_u32 v ->
  f64_to_u32 (clamp {| min := Some (f64_of_int lo); max := Some (f64_of_int hi) |} (f64_of_int v))
  = Z.min (Z.max v lo) hi.
Proof.
  intros Hlo Hhi Hv. unfold clamp. cbn [min max].
  assert (forall x y, is_u32 x -> is_u32 y ->
    f64_lt (f64_of_int x) (f64_of_int y) = (x <? y)) as Hlt.
  { intros x y Hx Hy. apply eq_true_iff_eq. rewrite Z.ltb_lt, f64_lt_ord by apply f64_of_int_nan.
    rewrite f64_of_int_ord by machine. lia. }
  unfold f64_max, f64_min. rewrite !f64_of_int_nan, Hlt by done.
  destruct (Z.ltb_spec v lo); rewrite f64_of_int_nan, Hlt by done.
  - destruct (Z.ltb_spec hi lo); rewrite f64_to_u32_of_int by done; lia.
  - destruct (Z.ltb_spec hi v); rewrite f64_to_u32_of_int by done; lia.
Qed.

Lemma range_algebra_witness :
  let a := {| min := Some (f64_of_int 1); max := Some (f64_of_int 200) |} in
  allows a (clamp a (f64_of_int 500)) = true /\
  clamp a (f64_of_int 7) = f64_of_int 7.
Proof.
  split.
  - apply (range_algebra _ {| min := None; max := None |}). reflexivity.
  - apply (range_algebra _ {| min := None; max := None |}); reflexivity.
Defined.

End RangeConstraint.

Module EnumConstraint.

Record t : Type := { values : list string }.

Definition intersect (self other : t) : t :=
  {| values := filter (fun v => list_contains v (values other) = true) (values self) |}.
Definition allows (self : t) (value : string) : bool := list_contains value (values self).

Lemma enum_intersect_allows a b v : allows (intersect a b) v = allows a v && allows b v.
Proof.
  unfold allows, intersect, list_contains. cbn. apply eq_true_iff_eq.
  rewrite andb_true_iff, !bool_decide_eq_true, list_elem_of_filter, bool_decide_eq_true. tauto.
Qed.

End EnumConstraint.

Module SetConstraint.

Record t : Type := { allowed : list string }.

Definition intersect (self other : t) : t :=
  {| allowed := filter (fun v => list_contains v (allowed other) = true) (allowed self) |}.
Definition allows (self : t) (item : string) : bool := list_contains item (allowed self).
Definition filter_list (self : t) (l : list string) : list string :=
  filter (fun v => allows self v = true) l.

Lemma set_intersect_allows a b v : allows (intersect a b) v = allows a v && allows b v.
Proof.
  unfold allows, intersect, list_contains. cbn. apply eq_true_iff_eq.
  rewrite andb_true_iff, !bool_decide_eq_true, list_elem_of_filter, bool_decide_eq_true. tauto.
Qed.

(** Filtering by an intersection is filtering twice. *)
Lemma filter_list_intersect a b l :
  filter_list (intersect a b) l = filter_list a (filter_list b l).
Proof.
  induction l as [|v l IH]; [done|]. unfold filter_list in *.
  rewrite !filter_cons. destruct (decide (allows b v = true)) as [Hb|Hb].
  - rewrite filter_cons. destruct (decide (allows a v = true)) as [Ha|Ha].
    + rewrite decide_True by (rewrite set_intersect_allows, Ha, Hb; done). by rewrite IH.
    + rewrite decide_False; [done|]. rewrite set_intersect_allows. by intros [? ?]%andb_true_iff.
  - rewrite decide_False; [done|]. rewrite set_intersect_allows. by intros [? ?]%andb_true_iff.
Qed.

End SetConstraint.

Module BoolConstraint.

Record t : Type := { value : option bool }.

Definition allows (self : t) (v : bool) : bool :=
  match value self with Some locked => bool_decide (v = locked) | None => true end.
(** [self.value.or(other.value)]: the receiver wins a conflict. *)
Definition intersect (self other : t) : t :=
  {| value := match value self with Some b => Some b | None => value other end |}.

Definition conflict (a b : t) : bool :=
  match value a, value b with Some x, Some y => negb (eqb x y) | _, _ => false end.

Lemma bool_intersect_allows a b v :
  conflict a b = false -> allows (intersect a b) v = allows a v && allows b v.
Proof. destruct a as [[[]|]], b as [[[]|]], v; done. Qed.

End BoolConstraint.
