(* ===== verification/ParamLayers.v ===== *)
(** * Parameter layers ([params/defaults.rs], [params/limits.rs])

    [AgentDefaults] with [merge_over], [AgentLimits] with [intersect] and
    [check_defaults], and the compiled-in system layers.  YAML (de)serialisation
    of the file envelopes is done by serde and is not modelled. *)

From S2P Require Import Prelude Floats Types Constraints.
Local Open Scope Z_scope.

(** [Option::or]. *)
Definition opt_or {A} (a b : option A) : option A :=
  match a with Some x => Some x | None => b end.

(** ** Defaults *)

Module Defaults.

Record EntrypointDefaults : Type := {
  model_preference : option string;
  min_context_tokens : option Z;
  max_tool_chain : option Z
}.
Record MemoryDefaults : Type := {
  episodic_enabled : option bool;
  semantic_enabled : option bool;
  preferences_enabled : option bool;
  auto_inject_at_spawn : option bool;
  auto_log_on_session_end : option bool
}.
Record SnapshotDefaults : Type := {
  snap_enabled : option bool;
  auto_snapshot_interval_sec : option Z;
  restore_on_crash : option bool
}.
Record EnvironmentDefaults : Type := {
  temperature : option f32;
  timeout_sec : option Z
}.
Record PermissionsHintDefaults : Type := {
  owner : option string;
  crew : option string;
  world : option string
}.

Record AgentDefaults : Type := {
  entrypoint : option EntrypointDefaults;
  memory : option MemoryDefaults;
  snapshot : option SnapshotDefaults;
  environment : option EnvironmentDefaults;
  permissions_hint : option PermissionsHintDefaults
}.

(** [AgentDefaults::default()]. *)
Definition empty : AgentDefaults :=
  {| entrypoint := None; memory := None; snapshot := None; environment := None;
     permissions_hint := None |}.

Definition merge_option {T} (base over : option T) (merge_fn : T -> T -> T) : option T :=
  match base, over with
  | Some b, Some o => Some (merge_fn b o)
  | Some b, None => Some b
  | None, Some o => Some o
  | None, None => None
  end.

Definition merge_entrypoint (base over : EntrypointDefaults) : EntrypointDefaults := {|
  model_preference := opt_or (model_preference over) (model_preference base);
  min_context_tokens := opt_or (min_context_tokens over) (min_context_tokens base);
  max_tool_chain := opt_or (max_tool_chain over) (max_tool_chain base)
|}.
Definition merge_memory (base over : MemoryDefaults) : MemoryDefaults := {|
  episodic_enabled := opt_or (episodic_enabled over) (episodic_enabled base);
  semantic_enabled := opt_or (semantic_enabled over) (semantic_enabled base);
  preferences_enabled := opt_or (preferences_enabled over) (preferences_enabled base);
  auto_inject_at_spawn := opt_or (auto_inject_at_spawn over) (auto_inject_at_spawn base);
  auto_log_on_session_end := opt_or (auto_log_on_session_end over) (auto_log_on_session_end base)
|}.
Definition merge_snapshot (base over : SnapshotDefaults) : SnapshotDefaults := {|
  snap_enabled := opt_or (snap_enabled over) (snap_enabled base);
  auto_snapshot_interval_sec :=
    opt_or (auto_snapshot_interval_sec over) (auto_snapshot_interval_sec base);
  restore_on_crash := opt_or (restore_on_crash over) (restore_on_crash base)
|}.
Definition merge_environment (base over : EnvironmentDefaults) : EnvironmentDefaults := {|
  temperature := opt_or (temperature over) (temperature base);
  timeout_sec := opt_or (timeout_sec over) (timeout_sec base)
|}.
Definition merge_permissions_hint (base over : PermissionsHintDefaults) : PermissionsHintDefaults := {|
  owner := opt_or (owner over) (owner base);
  crew := opt_or (crew over) (crew base);
  world := opt_or (world over) (world base)
|}.

Definition merge_over (self other : AgentDefaults) : AgentDefaults := {|
  entrypoint := merge_option (entrypoint self) (entrypoint other) merge_entrypoint;
  memory := merge_option (memory self) (memory other) merge_memory;
  snapshot := merge_option (snapshot self) (snapshot other) merge_snapshot;
  environment := merge_option (environment self) (environment other) merge_environment;
  permissions_hint :=
    merge_option (permissions_hint self) (permissions_hint other) merge_permissions_hint
|}.

Definition system_agent_defaults : AgentDefaults := {|
  entrypoint := Some {| model_preference := Some "claude-sonnet-4"%string;
                        min_context_tokens := Some 8000; max_tool_chain := Some 5 |};
  memory := Some {| episodic_enabled := Some true; semantic_enabled := Some true;
                    preferences_enabled := Some true; auto_inject_at_spawn := Some true;
                    auto_log_on_session_end := Some false |};
  snapshot := Some {| snap_enabled := Some false; auto_snapshot_interval_sec := Some 0;
                      restore_on_crash := Some false |};
  environment := Some {| temperature := Some f32_0_7; timeout_sec := Some 300 |};
  permissions_hint := Some {| owner := Some "rw"; crew := Some "r"; world := Some "r--" |}%string
|}.

(** A leaf of a two-level optional structure. *)
Definition leaf {S T} (section : option S) (field : S -> option T) : option T :=
  s ← section; field s.

(** Merging a section is merging each of its leaves, when the section's merge is
    leafwise. *)
Lemma leaf_merge {S T} (a b : option S) (f : S -> S -> S) (field : S -> option T) :
  (forall x y, field (f x y) = opt_or (field y) (field x)) ->
  leaf (merge_option a b f) field = opt_or (leaf b field) (leaf a field).
Proof. intros Hf. destruct a as [x|], b as [y|]; cbn; rewrite ?Hf; [done|by destruct (field x)|by destruct (field y)|done]. Qed.

Lemma opt_or_assoc {T} (a b c : option T) : opt_or (opt_or a b) c = opt_or a (opt_or b c).
Proof. by destruct a. Qed.

Lemma merge_option_assoc {T} (f : T -> T -> T) (a b c : option T) :
  (forall x y z, f (f x y) z = f x (f y z)) ->
  merge_option (merge_option a b f) c f = merge_option a (merge_option b c f) f.
Proof. intros Hf. destruct a, b, c; cbn; by rewrite ?Hf. Qed.

(** Layers may be merged in any grouping. *)
Lemma merge_over_assoc a b c : merge_over (merge_over a b) c = merge_over a (merge_over b c).
Proof.
  unfold merge_over. cbn. f_equal; apply merge_option_assoc; intros x y z;
    [unfold merge_entrypoint|unfold merge_memory|unfold merge_snapshot|unfold merge_environment
    |unfold merge_permissions_hint]; cbn; by rewrite !opt_or_assoc.
Qed.

Lemma merge_over_empty_l a : merge_over empty a = a.
Proof. destruct a as [[] [] [] [] []]; done. Qed.
Lemma merge_over_empty_r a : merge_over a empty = a.
Proof. destruct a as [[] [] [] [] []]; done. Qed.

End Defaults.

(** ** Limits *)

Module Limits.

Record EntrypointLimits : Type := {
  model_preference : option EnumConstraint.t;
  min_context_tokens : option RangeConstraint.t;
  max_tool_chain : option RangeConstraint.t
}.
Record ToolsLimits : Type := {
  required : option SetConstraint.t;
  optional : option SetConstraint.t
}.
Record MemoryLimits : Type := {
  episodic_enabled : option BoolConstraint.t;
  semantic_enabled : option BoolConstraint.t
}.
Record SnapshotLimits : Type := {
  snap_enabled : option BoolConstraint.t;
  auto_snapshot_interval_sec : option RangeConstraint.t
}.
Record EnvironmentLimits : Type := {
  temperature : option RangeConstraint.t;
  timeout_sec : option RangeConstraint.t
}.
Record AgentLimits : Type := {
  entrypoint : option EntrypointLimits;
  tools : option ToolsLimits;
  memory : option MemoryLimits;
  snapshot : option SnapshotLimits;
  environment : option EnvironmentLimits
}.

Definition intersect_option {T} (a b : option T) (f : T -> T -> T) : option T :=
  match a, b with
  | Some x, Some y => Some (f x y)
  | Some x, None => Some x
  | None, Some y => Some y
  | None, None => None
  end.

Definition intersect_entrypoint (a b : EntrypointLimits) : EntrypointLimits := {|
  model_preference :=
    intersect_option (model_preference a) (model_preference b) EnumConstraint.intersect;
  min_context_tokens :=
    intersect_option (min_context_tokens a) (min_context_tokens b) RangeConstraint.intersect;
  max_tool_chain :=
    intersect_option (max_tool_chain a) (max_tool_chain b) RangeConstraint.intersect
|}.
Definition intersect_tools (a b : ToolsLimits) : ToolsLimits := {|
  required := intersect_option (required a) (required b) SetConstraint.intersect;
  optional := intersect_option (optional a) (optional b) SetConstraint.intersect
|}.
Definition intersect_memory (a b : MemoryLimits) : MemoryLimits := {|
  episodic_enabled :=
    intersect_option (episodic_enabled a) (episodic_enabled b) BoolConstraint.intersect;
  semantic_enabled :=
    intersect_option (semantic_enabled a) (semantic_enabled b) BoolConstraint.intersect
|}.
Definition intersect_snapshot (a b : SnapshotLimits) : SnapshotLimits := {|
  snap_enabled := intersect_option (snap_enabled a) (snap_enabled b) BoolConstraint.intersect;
  auto_snapshot_interval_sec :=
    intersect_option (auto_snapshot_interval_sec a) (auto_snapshot_interval_sec b)
      RangeConstraint.intersect
|}.
Definition intersect_environment (a b : EnvironmentLimits) : EnvironmentLimits := {|
  temperature := intersect_option (temperature a) (temperature b) RangeConstraint.intersect;
  timeout_sec := intersect_option (timeout_sec a) (timeout_sec b) RangeConstraint.intersect
|}.

Definition intersect (self other : AgentLimits) : AgentLimits := {|
  entrypoint := intersect_option (entrypoint self) (entrypoint other) intersect_entrypoint;
  tools := intersect_option (tools self) (tools other) intersect_tools;
  memory := intersect_option (memory self) (memory other) intersect_memory;
  snapshot := intersect_option (snapshot self) (snapshot other) intersect_snapshot;
  environment := intersect_option (environment self) (environment other) intersect_environment
|}.

(** A violation; [value] is kept before the [to_string] that renders it. *)
Inductive offending : Type := OffU32 (n : Z) | OffStr (s : string) | OffF32 (x : f32).
Record LimitViolation : Type := { field : string; value : offending }.

(** [if let (Some(c), Some(v)) = .. { if !c.allows(v) { violations.push(..) } }] *)
Definition violation {C V} (allows : C -> V -> bool) (name : string) (render : V -> offending)
    (c : option C) (v : option V) : list LimitViolation :=
  match c, v with
  | Some c, Some v => if allows c v then [] else [{| field := name; value := render v |}]
  | _, _ => []
  end.

(** [c.allows(v as f64)] *)
Definition range_allows {V} (as_f64 : V -> f64) (c : RangeConstraint.t) (v : V) : bool :=
  RangeConstraint.allows c (as_f64 v).

Definition check_entrypoint (lim : EntrypointLimits) (def : Defaults.EntrypointDefaults)
    : list LimitViolation :=
  violation (range_allows f64_of_int) "entrypoint.maxToolChain" OffU32
    (max_tool_chain lim) (Defaults.max_tool_chain def) ++
  violation (range_allows f64_of_int) "entrypoint.minContextTokens" OffU32
    (min_context_tokens lim) (Defaults.min_context_tokens def) ++
  violation EnumConstraint.allows "entrypoint.modelPreference" OffStr
    (model_preference lim) (Defaults.model_preference def).

Definition check_environment (lim : EnvironmentLimits) (def : Defaults.EnvironmentDefaults)
    : list LimitViolation :=
  violation (range_allows f64_of_f32) "environment.temperature" OffF32
    (temperature lim) (Defaults.temperature def) ++
  violation (range_allows f64_of_int) "environment.timeoutSec" OffU32
    (timeout_sec lim) (Defaults.timeout_sec def).

Definition both {A B C} (a : option A) (b : option B) (f : A -> B -> list C) : list C :=
  match a, b with Some x, Some y => f x y | _, _ => [] end.

Definition check_defaults (self : AgentLimits) (defaults : Defaults.AgentDefaults)
    : result (list LimitViolation) unit :=
  let violations :=
    both (entrypoint self) (Defaults.entrypoint defaults) check_entrypoint ++
    both (environment self) (Defaults.environment defaults) check_environment in
  match violations with [] => Ok () | _ => Err violations end.

Definition range (lo hi : Z) : RangeConstraint.t :=
  {| RangeConstraint.min := Some (f64_of_int lo); RangeConstraint.max := Some (f64_of_int hi) |}.

Definition system_agent_limits : AgentLimits := {|
  entrypoint := Some {| model_preference := None;
                        min_context_tokens := Some (range 1000 200000);
                        max_tool_chain := Some (range 1 200) |};
  tools := None;
  memory := Some {| episodic_enabled := None; semantic_enabled := None |};
  snapshot := Some {| snap_enabled := Some {| BoolConstraint.value := None |};
                      auto_snapshot_interval_sec := Some (range 0 3600) |};
  environment := Some {| temperature := Some (range 0 2); timeout_sec := Some (range 30 600) |}
|}.

(** *** Intersection is conjunction *)

Lemma violation_nil {C V} (allows : C -> V -> bool) name render c v :
  violation allows name render c v = [] <->
  match c, v with Some c, Some v => allows c v = true | _, _ => True end.
Proof. unfold violation. destruct c, v; try done. by case_match. Qed.

Lemma violation_intersect {C V} (allows : C -> V -> bool) (inter : C -> C -> C) name render a b v :
  (forall x y w, allows (inter x y) w = allows x w && allows y w) ->
  violation allows name render (intersect_option a b inter) v = [] <->
  violation allows name render a v = [] /\ violation allows name render b v = [].
Proof.
  intros H. rewrite !violation_nil.
  destruct a, b, v; cbn; rewrite ?H, ?andb_true_iff; tauto.
Qed.

Lemma range_allows_intersect {V} (as_f64 : V -> f64) a b v :
  range_allows as_f64 (RangeConstraint.intersect a b) v
  = range_allows as_f64 a v && range_allows as_f64 b v.
Proof. apply RangeConstraint.range_intersect_allows. Qed.

Lemma both_intersect {L D} (f : L -> D -> list LimitViolation) (inter : L -> L -> L) a b d :
  (forall x y w, f (inter x y) w = [] <-> f x w = [] /\ f y w = []) ->
  both (intersect_option a b inter) d f = [] <-> both a d f = [] /\ both b d f = [].
Proof. intros H. destruct a, b, d; cbn; rewrite ?H; tauto. Qed.

Lemma check_entrypoint_intersect a b d :
  check_entrypoint (intersect_entrypoint a b) d = [] <->
  check_entrypoint a d = [] /\ check_entrypoint b d = [].
Proof.
  unfold check_entrypoint. rewrite !app_nil. cbn.
  rewrite (violation_intersect _ _ _ _ _ _ _ (range_allows_intersect _)).
  rewrite (violation_intersect _ _ _ _ _ _ _ (range_allows_intersect _)).
  rewrite (violation_intersect _ _ _ _ _ _ _ EnumConstraint.enum_intersect_allows). tauto.
Qed.

Lemma check_environment_intersect a b d :
  check_environment (intersect_environment a b) d = [] <->
  check_environment a d = [] /\ check_environment b d = [].
Proof.
  unfold check_environment. rewrite !app_nil. cbn.
  rewrite (violation_intersect _ _ _ _ _ _ _ (range_allows_intersect _)).
  rewrite (violation_intersect _ _ _ _ _ _ _ (range_allows_intersect _)).
  tauto.
Qed.

Lemma check_defaults_Ok l d :
  check_defaults l d = Ok () <->
  both (entrypoint l) (Defaults.entrypoint d) check_entrypoint = [] /\
  both (environment l) (Defaults.environment d) check_environment = [].
Proof. unfold check_defaults. rewrite <-app_nil. case_match; naive_solver. Qed.

Lemma check_defaults_intersect a b d :
  check_defaults (intersect a b) d = Ok () <->
  check_defaults a d = Ok () /\ check_defaults b d = Ok ().
Proof.
  rewrite !check_defaults_Ok. cbn.
  rewrite (both_intersect _ _ _ _ _ check_entrypoint_intersect).
  rewrite (both_intersect _ _ _ _ _ check_environment_intersect). tauto.
Qed.

(** intersecting a whole stack of limit layers admits a set of defaults
    exactly when every layer admits it; adding layers can only tighten, and the
    order of the layers is irrelevant. *)
Theorem limits_stack_sound (system : AgentLimits) (layers : list AgentLimits)
    (d : Defaults.AgentDefaults) :
  check_defaults (foldl intersect system layers) d = Ok () <->
  Forall (fun l => check_defaults l d = Ok ()) (system :: layers).
Proof.
  revert system. induction layers as [|l layers IH]; intros system; cbn.
  - rewrite Forall_singleton. done.
  - rewrite IH, !Forall_cons, check_defaults_intersect. tauto.
Qed.

End Limits.
