(* ===== verification/Resolver.v ===== *)
(** * Parameter resolution ([params/resolver.rs])

    [ParamResolver::resolve]: the walk over the default layers with provenance
    annotations, the clamping against the effective limits, the construction of
    the resolved configuration and its errors.  The VFS loader that collects the
    layers ([ResolverInputLoader]) is not modelled here. *)

From S2P Require Import Prelude Floats Types Constraints ParamLayers.
Local Open Scope Z_scope.
Import Defaults.

(** ** Output *)

Record ResolvedEntrypoint : Type := {
  r_model_preference : string; r_min_context_tokens : Z; r_max_tool_chain : Z
}.
Record ResolvedMemory : Type := {
  r_episodic_enabled : bool; r_semantic_enabled : bool; r_preferences_enabled : bool;
  r_auto_inject_at_spawn : bool; r_auto_log_on_session_end : bool
}.
Record ResolvedSnapshot : Type := {
  r_enabled : bool; r_auto_snapshot_interval_sec : Z; r_restore_on_crash : bool
}.
Record ResolvedEnvironment : Type := { r_temperature : f32; r_timeout_sec : Z }.
Record ResolvedPermissionsHint : Type := { r_owner : string; r_crew : string; r_world : string }.
Record ResolvedConfig : Type := {
  rc_entrypoint : ResolvedEntrypoint;
  rc_memory : ResolvedMemory;
  rc_snapshot : ResolvedSnapshot;
  rc_environment : ResolvedEnvironment;
  rc_permissions_hint : ResolvedPermissionsHint
}.

(** ** Annotations *)

Inductive AnnotationSource : Type :=
| SystemDefaults | SystemLimits | UserDefaults | UserLimits | CrewDefaults | CrewLimits | Manifest.

(** The [serde_yaml::Value]s that occur in annotations. *)
Inductive YamlValue : Type := YStr (s : string) | YU32 (n : Z) | YBool (b : bool) | YF32 (x : f32).
Class IntoValue (T : Type) : Type := into_value : T -> YamlValue.
#[global] Instance into_value_str : IntoValue string := YStr.
#[global] Instance into_value_u32 : IntoValue Z := YU32.
#[global] Instance into_value_bool : IntoValue bool := YBool.
#[global] Instance into_value_f32 : IntoValue f32 := YF32.

Record Annotation : Type := {
  a_value : YamlValue;
  a_source : AnnotationSource;
  a_path : option string;
  a_clamped_from : option YamlValue;
  a_clamped_by : option string;
  a_note : option string
}.

(** ** Input *)

Record LayeredDefaults : Type := {
  ld_vfs_path : string; ld_source : AnnotationSource; ld_defaults : AgentDefaults
}.
Record LayeredLimits : Type := { ll_vfs_path : string; ll_limits : Limits.AgentLimits }.

Record ResolverInput : Type := {
  system_defaults : AgentDefaults;
  system_defaults_path : string;
  system_limits : Limits.AgentLimits;
  system_limits_path : string;
  crew_limits : list LayeredLimits;
  crew_defaults : list LayeredDefaults;
  user_defaults : option LayeredDefaults;
  user_limits : option LayeredLimits;
  manifest : AgentDefaults
}.

Inductive ResolutionError : Type :=
| MissingRequired (field : string)
| HardViolation (field value : string) (allowed : list string) (constrained_by : string).

(** ** Working state *)

Record Field (T : Type) : Type := { fvalue : option T; fannotation : option Annotation }.
Arguments fvalue {T} _.
Arguments fannotation {T} _.
Arguments Build_Field {T} _ _.

Definition field_default {T} : Field T := Build_Field None None.

Definition apply_field {T} `{IntoValue T} (f : Field T) (new_value : option T)
    (source : AnnotationSource) (path : option string) : Field T :=
  match new_value with
  | Some v => Build_Field (Some v)
      (Some {| a_value := into_value v; a_source := source; a_path := path;
               a_clamped_from := None; a_clamped_by := None; a_note := None |})
  | None => f
  end.

(** The sixteen mutable locals of [resolve]. *)
Record Fields : Type := {
  f_model_preference : Field string;
  f_min_context_tokens : Field Z;
  f_max_tool_chain : Field Z;
  f_episodic_enabled : Field bool;
  f_semantic_enabled : Field bool;
  f_preferences_enabled : Field bool;
  f_auto_inject_at_spawn : Field bool;
  f_auto_log_on_session_end : Field bool;
  f_snap_enabled : Field bool;
  f_snap_interval : Field Z;
  f_restore_on_crash : Field bool;
  f_temperature : Field f32;
  f_timeout_sec : Field Z;
  f_perm_owner : Field string;
  f_perm_crew : Field string;
  f_perm_world : Field string
}.

Definition fields_default : Fields :=
  Build_Fields field_default field_default field_default field_default field_default field_default
    field_default field_default field_default field_default field_default field_default
    field_default field_default field_default field_default.

(** The macro [apply_defaults!].  [leaf section field] is
    [if let Some(s) = section { .. s.field .. }]. *)
Definition apply_defaults (st : Fields) (d : AgentDefaults) (source : AnnotationSource)
    (path : option string) : Fields := {|
  f_model_preference :=
    apply_field (f_model_preference st) (leaf (entrypoint d) model_preference) source path;
  f_min_context_tokens :=
    apply_field (f_min_context_tokens st) (leaf (entrypoint d) min_context_tokens) source path;
  f_max_tool_chain :=
    apply_field (f_max_tool_chain st) (leaf (entrypoint d) max_tool_chain) source path;
  f_episodic_enabled :=
    apply_field (f_episodic_enabled st) (leaf (memory d) episodic_enabled) source path;
  f_semantic_enabled :=
    apply_field (f_semantic_enabled st) (leaf (memory d) semantic_enabled) source path;
  f_preferences_enabled :=
    apply_field (f_preferences_enabled st) (leaf (memory d) preferences_enabled) source path;
  f_auto_inject_at_spawn :=
    apply_field (f_auto_inject_at_spawn st) (leaf (memory d) auto_inject_at_spawn) source path;
  f_auto_log_on_session_end :=
    apply_field (f_auto_log_on_session_end st) (leaf (memory d) auto_log_on_session_end) source path;
  f_snap_enabled := apply_field (f_snap_enabled st) (leaf (snapshot d) snap_enabled) source path;
  f_snap_interval :=
    apply_field (f_snap_interval st) (leaf (snapshot d) auto_snapshot_interval_sec) source path;
  f_restore_on_crash :=
    apply_field (f_restore_on_crash st) (leaf (snapshot d) restore_on_crash) source path;
  f_temperature := apply_field (f_temperature st) (leaf (environment d) temperature) source path;
  f_timeout_sec := apply_field (f_timeout_sec st) (leaf (environment d) timeout_sec) source path;
  f_perm_owner := apply_field (f_perm_owner st) (leaf (permissions_hint d) owner) source path;
  f_perm_crew := apply_field (f_perm_crew st) (leaf (permissions_hint d) crew) source path;
  f_perm_world := apply_field (f_perm_world st) (leaf (permissions_hint d) world) source path
|}.

(** Step 2 of [resolve]: system, crews in order, user, manifest. *)
Definition walk_layers (input : ResolverInput) : Fields :=
  let st := apply_defaults fields_default (system_defaults input) SystemDefaults
              (Some (system_defaults_path input)) in
  let st := foldl (fun st ld => apply_defaults st (ld_defaults ld) (ld_source ld)
                                  (Some (ld_vfs_path ld))) st (crew_defaults input) in
  let st := match user_defaults input with
            | Some ud => apply_defaults st (ld_defaults ud) UserDefaults (Some (ld_vfs_path ud))
            | None => st
            end in
  apply_defaults st (manifest input) Manifest None.

Definition compute_effective_limits (input : ResolverInput) : Limits.AgentLimits :=
  let effective := foldl (fun e ll => Limits.intersect e (ll_limits ll))
                     (system_limits input) (crew_limits input) in
  match user_limits input with
  | Some ul => Limits.intersect effective (ll_limits ul)
  | None => effective
  end.

Definition effective_limits_path_for {S} (section : Limits.AgentLimits -> option S)
    (input : ResolverInput) : option string :=
  let from_crews :=
    match list_find (fun ll => is_Some (section (ll_limits ll))) (rev (crew_limits input)) with
    | Some (_, ll) => Some (ll_vfs_path ll)
    | None => Some (system_limits_path input)
    end in
  match user_limits input with
  | Some ul => if decide (is_Some (section (ll_limits ul))) then Some (ll_vfs_path ul) else from_crews
  | None => from_crews
  end.
Definition effective_limits_path_for_entrypoint := effective_limits_path_for Limits.entrypoint.
Definition effective_limits_path_for_environment := effective_limits_path_for Limits.environment.
Definition effective_enum_limits_path (input : ResolverInput) : string :=
  default (system_limits_path input) (effective_limits_path_for_entrypoint input).

(** Rewriting the annotation of a clamped field.  The source unwraps the
    annotation; [walk_annotated] shows it is there whenever there is a value. *)
Definition note_clamp {T} `{IntoValue T} (from to : T) (by_ : option string)
    (a : Annotation) : Annotation :=
  {| a_value := into_value to; a_source := a_source a; a_path := a_path a;
     a_clamped_from := Some (into_value from); a_clamped_by := by_; a_note := a_note a |}.

(** [let clamped = lim.clamp(v as f64) as u32; if clamped != v { .. }] *)
Definition clamp_u32 (lim : RangeConstraint.t) (v : Z) : Z :=
  f64_to_u32 (RangeConstraint.clamp lim (f64_of_int v)).
Definition clamp_u32_field (lim : option RangeConstraint.t) (by_ : option string) (f : Field Z)
    : Field Z :=
  match lim, fvalue f with
  | Some lim, Some v =>
      let clamped := clamp_u32 lim v in
      Build_Field (Some clamped)
        (if decide (clamped = v) then fannotation f else note_clamp v clamped by_ <$> fannotation f)
  | _, _ => f
  end.

(** [let clamped = lim.clamp(v as f64) as f32; if (clamped - v).abs() > f32::EPSILON { .. }] *)
Definition clamp_f32 (lim : RangeConstraint.t) (v : f32) : f32 :=
  f32_of_f64 (RangeConstraint.clamp lim (f64_of_f32 v)).
Definition clamp_f32_field (lim : option RangeConstraint.t) (by_ : option string) (f : Field f32)
    : Field f32 :=
  match lim, fvalue f with
  | Some lim, Some v =>
      let clamped := clamp_f32 lim v in
      Build_Field (Some clamped)
        (if f64_lt f32_epsilon (f32_abs (f32_sub clamped v))
         then note_clamp v clamped by_ <$> fannotation f else fannotation f)
  | _, _ => f
  end.

(** [emit_annotation!] *)
Definition emit_annotation {T} (key : string) (f : Field T) (m : gmap string Annotation)
    : gmap string Annotation :=
  match fannotation f with Some ann => <[key := ann]> m | None => m end.

(** Steps 3 and 4 for the entrypoint's model preference. *)
Definition check_model (input : ResolverInput) (eff : Limits.AgentLimits) (model : option string)
    : result ResolutionError unit :=
  match leaf (Limits.entrypoint eff) Limits.model_preference, model with
  | Some enum_c, Some v =>
      if EnumConstraint.allows enum_c v then Ok ()
      else Err (HardViolation "entrypoint.modelPreference" v (EnumConstraint.values enum_c)
                  (effective_enum_limits_path input))
  | _, _ => Ok ()
  end.

Definition resolve (input : ResolverInput)
    : result ResolutionError (ResolvedConfig * gmap string Annotation) :=
  let eff := compute_effective_limits input in
  let st := walk_layers input in
  let mtc := clamp_u32_field (leaf (Limits.entrypoint eff) Limits.max_tool_chain)
               (effective_limits_path_for_entrypoint input) (f_max_tool_chain st) in
  let mct := clamp_u32_field (leaf (Limits.entrypoint eff) Limits.min_context_tokens)
               (effective_limits_path_for_entrypoint input) (f_min_context_tokens st) in
  _ ← check_model input eff (fvalue (f_model_preference st));
  let temp := clamp_f32_field (leaf (Limits.environment eff) Limits.temperature)
                (effective_limits_path_for_environment input) (f_temperature st) in
  let tmo := clamp_u32_field (leaf (Limits.environment eff) Limits.timeout_sec)
               (effective_limits_path_for_environment input) (f_timeout_sec st) in
  model ← ok_or (MissingRequired "entrypoint.modelPreference") (fvalue (f_model_preference st));
  chain ← ok_or (MissingRequired "entrypoint.maxToolChain") (fvalue mtc);
  temperature ← ok_or (MissingRequired "environment.temperature") (fvalue temp);
  timeout ← ok_or (MissingRequired "environment.timeoutSec") (fvalue tmo);
  Ok ({| rc_entrypoint := {| r_model_preference := model;
                             r_min_context_tokens := default 8000 (fvalue mct);
                             r_max_tool_chain := chain |};
         rc_memory := {|
           r_episodic_enabled := default true (fvalue (f_episodic_enabled st));
           r_semantic_enabled := default true (fvalue (f_semantic_enabled st));
           r_preferences_enabled := default true (fvalue (f_preferences_enabled st));
           r_auto_inject_at_spawn := default true (fvalue (f_auto_inject_at_spawn st));
           r_auto_log_on_session_end := default false (fvalue (f_auto_log_on_session_end st)) |};
         rc_snapshot := {|
           r_enabled := default false (fvalue (f_snap_enabled st));
           r_auto_snapshot_interval_sec := default 0 (fvalue (f_snap_interval st));
           r_restore_on_crash := default false (fvalue (f_restore_on_crash st)) |};
         rc_environment := {| r_temperature := temperature; r_timeout_sec := timeout |};
         rc_permissions_hint := {|
           r_owner := default "rw"%string (fvalue (f_perm_owner st));
           r_crew := default "r"%string (fvalue (f_perm_crew st));
           r_world := default "r--"%string (fvalue (f_perm_world st)) |} |},
      emit_annotation "permissionsHint.world" (f_perm_world st) $
      emit_annotation "permissionsHint.crew" (f_perm_crew st) $
      emit_annotation "permissionsHint.owner" (f_perm_owner st) $
      emit_annotation "environment.timeoutSec" tmo $
      emit_annotation "environment.temperature" temp $
      emit_annotation "snapshot.restoreOnCrash" (f_restore_on_crash st) $
      emit_annotation "snapshot.autoSnapshotIntervalSec" (f_snap_interval st) $
      emit_annotation "snapshot.enabled" (f_snap_enabled st) $
      emit_annotation "memory.autoLogOnSessionEnd" (f_auto_log_on_session_end st) $
      emit_annotation "memory.autoInjectAtSpawn" (f_auto_inject_at_spawn st) $
      emit_annotation "memory.preferencesEnabled" (f_preferences_enabled st) $
      emit_annotation "memory.semanticEnabled" (f_semantic_enabled st) $
      emit_annotation "memory.episodicEnabled" (f_episodic_enabled st) $
      emit_annotation "entrypoint.maxToolChain" mtc $
      emit_annotation "entrypoint.minContextTokens" mct $
      emit_annotation "entrypoint.modelPreference" (f_model_preference st) ∅).

(** ** The layer walk against the reference merge *)

Definition layer : Type := AgentDefaults * AnnotationSource * option string.

(** The default layers, lowest priority first. *)
Definition layers (input : ResolverInput) : list layer :=
  (system_defaults input, SystemDefaults, Some (system_defaults_path input)) ::
  ((fun ld => (ld_defaults ld, ld_source ld, Some (ld_vfs_path ld))) <$> crew_defaults input) ++
  match user_defaults input with
  | Some ud => [(ld_defaults ud, UserDefaults, Some (ld_vfs_path ud))]
  | None => []
  end ++ [(manifest input, Manifest, None)].

Definition apply_layer (st : Fields) (l : layer) : Fields :=
  let '(d, source, path) := l in apply_defaults st d source path.

Lemma walk_layers_fold input : walk_layers input = foldl apply_layer fields_default (layers input).
Proof.
  unfold walk_layers, layers. cbn [foldl]. rewrite !foldl_app. cbn.
  assert (forall st l, foldl (fun st ld => apply_defaults st (ld_defaults ld) (ld_source ld)
      (Some (ld_vfs_path ld))) st l
    = foldl apply_layer st ((fun ld => (ld_defaults ld, ld_source ld, Some (ld_vfs_path ld))) <$> l)) as ->.
  { intros st l. revert st. induction l as [|x l IH]; intros st; cbn; [done|]. by rewrite IH. }
  by destruct (user_defaults input).
Qed.

(** One field along the walk. *)
Definition walk_field {T} `{IntoValue T} (get : AgentDefaults -> option T) (f : Field T)
    (ls : list layer) : Field T :=
  foldl (fun f '(d, source, path) => apply_field f (get d) source path) f ls.

Section Projections.
Context {T : Type} `{IntoValue T} (proj : Fields -> Field T) (get : AgentDefaults -> option T).
Hypothesis proj_apply : forall st d source path,
  proj (apply_defaults st d source path) = apply_field (proj st) (get d) source path.

Lemma proj_walk st ls : proj (foldl apply_layer st ls) = walk_field get (proj st) ls.
Proof.
  revert st. induction ls as [|[[d source] path] ls IH]; intros st; cbn; [done|].
  by rewrite IH, proj_apply.
Qed.
End Projections.

(** What the walk leaves in a field: nothing if no layer sets it; otherwise the
    value of the last layer that does, annotated with that layer. *)
Definition field_spec {T} `{IntoValue T} (get : AgentDefaults -> option T) (ls : list layer)
    (f : Field T) : Prop :=
  match fvalue f with
  | None => fannotation f = None /\ Forall (fun l => get l.1.1 = None) ls
  | Some v => exists pre d source path post,
      ls = pre ++ (d, source, path) :: post /\ get d = Some v /\
      Forall (fun l => get l.1.1 = None) post /\
      fannotation f = Some {| a_value := into_value v; a_source := source; a_path := path;
                              a_clamped_from := None; a_clamped_by := None; a_note := None |}
  end.

Lemma walk_field_spec {T} `{IntoValue T} (get : AgentDefaults -> option T) ls :
  field_spec get ls (walk_field get field_default ls).
Proof.
  unfold walk_field. induction ls as [|[[d source] path] ls IH] using rev_ind; [done|].
  rewrite foldl_snoc. unfold apply_field. destruct (get d) as [v|] eqn:E.
  - cbn. by exists ls, d, source, path, [].
  - unfold field_spec in *. destruct (fvalue _) as [v|].
    + destruct IH as (pre & d' & s' & p' & post & -> & Hv & Hpost & Ha).
      exists pre, d', s', p', (post ++ [(d, source, path)]).
      rewrite <-app_assoc. split; [done|]. split; [done|]. split; [|done].
      apply Forall_app. split; [done|]. by apply Forall_singleton.
    + destruct IH as [Ha Hf]. split; [done|]. apply Forall_app. split; [done|].
      by apply Forall_singleton.
Qed.

Lemma walk_field_merge {T} `{IntoValue T} (get : AgentDefaults -> option T) f ls d0 :
  (forall a b, get (merge_over a b) = opt_or (get b) (get a)) ->
  fvalue f = get d0 ->
  fvalue (walk_field get f ls) = get (foldl merge_over d0 (map (fun l => l.1.1) ls)).
Proof.
  intros Hget. revert f d0. induction ls as [|[[d source] path] ls IH]; intros f d0 Hf; cbn; [done|].
  apply IH. rewrite Hget. unfold apply_field. by destruct (get d).
Qed.

Definition merged (input : ResolverInput) : AgentDefaults :=
  foldl merge_over (system_defaults input)
    (map ld_defaults (crew_defaults input) ++
     match user_defaults input with Some ud => [ld_defaults ud] | None => [] end ++
     [manifest input]).

Lemma merged_layers input :
  foldl merge_over empty (map (fun l => l.1.1) (layers input)) = merged input.
Proof.
  unfold layers, merged. cbn [map foldl]. rewrite merge_over_empty_l.
  f_equal. rewrite !map_app, map_map. by destruct (user_defaults input).
Qed.

Lemma walk_value {T} `{IntoValue T} (proj : Fields -> Field T) {S} (section : AgentDefaults -> option S)
    (fld : S -> option T) input :
  (forall st d source path, proj (apply_defaults st d source path)
     = apply_field (proj st) (leaf (section d) fld) source path) ->
  (forall a b, leaf (section (merge_over a b)) fld = opt_or (leaf (section b) fld) (leaf (section a) fld)) ->
  proj fields_default = field_default -> leaf (section empty) fld = None ->
  fvalue (proj (walk_layers input)) = leaf (section (merged input)) fld.
Proof.
  intros Hp Hm Hd He. rewrite walk_layers_fold.
  rewrite (proj_walk proj (fun d => leaf (section d) fld) Hp), Hd, <-merged_layers.
  apply (walk_field_merge (fun d => leaf (section d) fld)); [exact Hm|by rewrite He].
Qed.

(** ** The specification of [resolve] *)

Definition clamp_leaf {T} (clamp : RangeConstraint.t -> T -> T) (lim : option RangeConstraint.t)
    (v : option T) : option T :=
  match lim, v with Some c, Some x => Some (clamp c x) | _, _ => v end.

(** The resolved configuration as a function of the merged defaults and the
    effective limits alone. *)
Definition resolve_spec (input : ResolverInput) : result ResolutionError ResolvedConfig :=
  let d := merged input in
  let eff := compute_effective_limits input in
  let model := leaf (entrypoint d) model_preference in
  _ ← check_model input eff model;
  model ← ok_or (MissingRequired "entrypoint.modelPreference") model;
  chain ← ok_or (MissingRequired "entrypoint.maxToolChain")
    (clamp_leaf clamp_u32 (leaf (Limits.entrypoint eff) Limits.max_tool_chain)
       (leaf (entrypoint d) max_tool_chain));
  temp ← ok_or (MissingRequired "environment.temperature")
    (clamp_leaf clamp_f32 (leaf (Limits.environment eff) Limits.temperature)
       (leaf (environment d) temperature));
  timeout ← ok_or (MissingRequired "environment.timeoutSec")
    (clamp_leaf clamp_u32 (leaf (Limits.environment eff) Limits.timeout_sec)
       (leaf (environment d) timeout_sec));
  Ok {| rc_entrypoint := {| r_model_preference := model;
          r_min_context_tokens := default 8000
            (clamp_leaf clamp_u32 (leaf (Limits.entrypoint eff) Limits.min_context_tokens)
               (leaf (entrypoint d) min_context_tokens));
          r_max_tool_chain := chain |};
        rc_memory := {|
          r_episodic_enabled := default true (leaf (memory d) episodic_enabled);
          r_semantic_enabled := default true (leaf (memory d) semantic_enabled);
          r_preferences_enabled := default true (leaf (memory d) preferences_enabled);
          r_auto_inject_at_spawn := default true (leaf (memory d) auto_inject_at_spawn);
          r_auto_log_on_session_end := default false (leaf (memory d) auto_log_on_session_end) |};
        rc_snapshot := {|
          r_enabled := default false (leaf (snapshot d) snap_enabled);
          r_auto_snapshot_interval_sec := default 0 (leaf (snapshot d) auto_snapshot_interval_sec);
          r_restore_on_crash := default false (leaf (snapshot d) restore_on_crash) |};
        rc_environment := {| r_temperature := temp; r_timeout_sec := timeout |};
        rc_permissions_hint := {|
          r_owner := default "rw"%string (leaf (permissions_hint d) owner);
          r_crew := default "r"%string (leaf (permissions_hint d) crew);
          r_world := default "r--"%string (leaf (permissions_hint d) world) |} |}.

Lemma clamp_u32_field_value lim by_ f :
  fvalue (clamp_u32_field lim by_ f) = clamp_leaf clamp_u32 lim (fvalue f).
Proof. unfold clamp_u32_field, clamp_leaf. destruct lim, (fvalue f) eqn:E; by rewrite ?E. Qed.
Lemma clamp_f32_field_value lim by_ f :
  fvalue (clamp_f32_field lim by_ f) = clamp_leaf clamp_f32 lim (fvalue f).
Proof. unfold clamp_f32_field, clamp_leaf. destruct lim, (fvalue f) eqn:E; by rewrite ?E. Qed.

(** Rewrite every field value of the walk to the leaf of the merged defaults. *)
Ltac walk_leaf proj section fld :=
  rewrite (walk_value proj section fld);
    [|reflexivity|intros; apply leaf_merge; reflexivity|reflexivity|reflexivity].

Lemma resolve_spec_eq (input : ResolverInput) :
  fst <$> resolve input = resolve_spec input.
Proof.
  unfold resolve, resolve_spec.
  rewrite !clamp_u32_field_value, !clamp_f32_field_value.
  walk_leaf f_model_preference entrypoint model_preference.
  walk_leaf f_min_context_tokens entrypoint min_context_tokens.
  walk_leaf f_max_tool_chain entrypoint max_tool_chain.
  walk_leaf f_episodic_enabled memory episodic_enabled.
  walk_leaf f_semantic_enabled memory semantic_enabled.
  walk_leaf f_preferences_enabled memory preferences_enabled.
  walk_leaf f_auto_inject_at_spawn memory auto_inject_at_spawn.
  walk_leaf f_auto_log_on_session_end memory auto_log_on_session_end.
  walk_leaf f_snap_enabled snapshot snap_enabled.
  walk_leaf f_snap_interval snapshot auto_snapshot_interval_sec.
  walk_leaf f_restore_on_crash snapshot restore_on_crash.
  walk_leaf f_temperature environment temperature.
  walk_leaf f_timeout_sec environment timeout_sec.
  walk_leaf f_perm_owner permissions_hint owner.
  walk_leaf f_perm_crew permissions_hint crew.
  walk_leaf f_perm_world permissions_hint world.
  destruct (check_model _ _ _); [|done]. by repeat destruct (ok_or _ _).
Qed.


(** ** Provenance *)

(** after the walk every field holds the value of the highest-priority layer
    that sets it (manifest over user over later crews over earlier crews over
    system) with an annotation naming that layer's source and path; a field no
    layer sets has neither value nor annotation. *)
Theorem walk_provenance (input : ResolverInput) :
  let st := walk_layers input in let ls := layers input in
  field_spec (fun d => leaf (entrypoint d) model_preference) ls (f_model_preference st) /\
  field_spec (fun d => leaf (entrypoint d) min_context_tokens) ls (f_min_context_tokens st) /\
  field_spec (fun d => leaf (entrypoint d) max_tool_chain) ls (f_max_tool_chain st) /\
  field_spec (fun d => leaf (memory d) episodic_enabled) ls (f_episodic_enabled st) /\
  field_spec (fun d => leaf (memory d) semantic_enabled) ls (f_semantic_enabled st) /\
  field_spec (fun d => leaf (memory d) preferences_enabled) ls (f_preferences_enabled st) /\
  field_spec (fun d => leaf (memory d) auto_inject_at_spawn) ls (f_auto_inject_at_spawn st) /\
  field_spec (fun d => leaf (memory d) auto_log_on_session_end) ls (f_auto_log_on_session_end st) /\
  field_spec (fun d => leaf (snapshot d) snap_enabled) ls (f_snap_enabled st) /\
  field_spec (fun d => leaf (snapshot d) auto_snapshot_interval_sec) ls (f_snap_interval st) /\
  field_spec (fun d => leaf (snapshot d) restore_on_crash) ls (f_restore_on_crash st) /\
  field_spec (fun d => leaf (environment d) temperature) ls (f_temperature st) /\
  field_spec (fun d => leaf (environment d) timeout_sec) ls (f_timeout_sec st) /\
  field_spec (fun d => leaf (permissions_hint d) owner) ls (f_perm_owner st) /\
  field_spec (fun d => leaf (permissions_hint d) crew) ls (f_perm_crew st) /\
  field_spec (fun d => leaf (permissions_hint d) world) ls (f_perm_world st).
Proof.
  intros st ls. subst st ls. rewrite walk_layers_fold.
  repeat match goal with
  | |- _ /\ _ => split
  | |- field_spec ?get _ (?proj _) =>
      rewrite (proj_walk proj get ltac:(reflexivity)); apply walk_field_spec
  end.
Qed.

Lemma field_spec_annotated {T} `{IntoValue T} (get : AgentDefaults -> option T) ls f :
  field_spec get ls f -> is_Some (fvalue f) -> is_Some (fannotation f).
Proof.
  unfold field_spec. intros Hs [v Hv]. rewrite Hv in Hs.
  destruct Hs as (? & ? & ? & ? & ? & _ & _ & _ & ->). done.
Qed.

(** The [unwrap]s of [resolve] cannot fail: a field with a value has an annotation. *)
Lemma walk_annotated input :
  let st := walk_layers input in
  (is_Some (fvalue (f_max_tool_chain st)) -> is_Some (fannotation (f_max_tool_chain st))) /\
  (is_Some (fvalue (f_min_context_tokens st)) -> is_Some (fannotation (f_min_context_tokens st))) /\
  (is_Some (fvalue (f_temperature st)) -> is_Some (fannotation (f_temperature st))) /\
  (is_Some (fvalue (f_timeout_sec st)) -> is_Some (fannotation (f_timeout_sec st))).
Proof.
  intros st. subst st. rewrite walk_layers_fold.
  assert (forall T `{IntoValue T} (proj : Fields -> Field T) get,
    (forall st d source path, proj (apply_defaults st d source path)
       = apply_field (proj st) (get d) source path) ->
    proj fields_default = field_default ->
    is_Some (fvalue (proj (foldl apply_layer fields_default (layers input)))) ->
    is_Some (fannotation (proj (foldl apply_layer fields_default (layers input))))) as Hgen.
  { intros T ? proj get Hp Hd. rewrite (proj_walk proj get Hp), Hd.
    apply (field_spec_annotated get (layers input)), walk_field_spec. }
  repeat split; (eapply Hgen; reflexivity).
Qed.

(** ** Ceilings *)

(** A constraint that is absent or an integer range of [u32]s. *)
Definition int_limit (c : option RangeConstraint.t) : Prop :=
  c = None \/ exists lo hi, is_u32 lo /\ is_u32 hi /\ c = Some (Limits.range lo hi).

Lemma f64_lt_int a b : is_u32 a -> is_u32 b -> f64_lt (f64_of_int a) (f64_of_int b) = (a <? b).
Proof.
  intros Ha Hb. apply eq_true_iff_eq. rewrite Z.ltb_lt, f64_lt_ord by apply f64_of_int_nan.
  rewrite f64_of_int_ord by machine. lia.
Qed.

Lemma intersect_range a b c d :
  is_u32 a -> is_u32 b -> is_u32 c -> is_u32 d ->
  RangeConstraint.intersect (Limits.range a b) (Limits.range c d)
  = Limits.range (Z.max a c) (Z.min b d).
Proof.
  intros Ha Hb Hc Hd. unfold RangeConstraint.intersect, Limits.range. cbn.
  unfold f64_max, f64_min. rewrite !f64_of_int_nan, !f64_lt_int by done.
  do 2 f_equal; [destruct (Z.ltb_spec a c)|destruct (Z.ltb_spec d b)]; do 2 f_equal; lia.
Qed.

(** Folding integer limits over an integer ceiling keeps the upper end below it. *)
Definition bounded_by (hi : Z) (c : option RangeConstraint.t) : Prop :=
  exists lo' hi', is_u32 lo' /\ is_u32 hi' /\ hi' <= hi /\ c = Some (Limits.range lo' hi').

Lemma bounded_by_intersect hi c d :
  bounded_by hi c -> int_limit d ->
  bounded_by hi (Limits.intersect_option c d RangeConstraint.intersect).
Proof.
  intros (lo' & hi' & ? & ? & ? & ->) [->|(lo & h & ? & ? & ->)]; cbn.
  - by exists lo', hi'.
  - exists (Z.max lo' lo), (Z.min hi' h). rewrite intersect_range by done.
    repeat split; machine.
Qed.

Section Ceiling.
(** One integer-ranged limit of one section. *)
Context {S : Type} (section : Limits.AgentLimits -> option S) (fld : S -> option RangeConstraint.t).
Hypothesis leaf_intersect : forall a b,
  leaf (section (Limits.intersect a b)) fld
  = Limits.intersect_option (leaf (section a) fld) (leaf (section b) fld) RangeConstraint.intersect.

Definition limit_layers (input : ResolverInput) : list Limits.AgentLimits :=
  map ll_limits (crew_limits input) ++
  match user_limits input with Some ul => [ll_limits ul] | None => [] end.

Lemma effective_fold input :
  compute_effective_limits input = foldl Limits.intersect (system_limits input) (limit_layers input).
Proof.
  unfold compute_effective_limits, limit_layers. rewrite foldl_app.
  assert (forall e l, foldl (fun e ll => Limits.intersect e (ll_limits ll)) e l
    = foldl Limits.intersect e (map ll_limits l)) as ->.
  { intros e l. revert e. induction l as [|x l IH]; intros e; cbn; [done|]. by rewrite IH. }
  by destruct (user_limits input).
Qed.

Lemma effective_bounded input hi :
  bounded_by hi (leaf (section (system_limits input)) fld) ->
  Forall (fun l => int_limit (leaf (section l) fld)) (limit_layers input) ->
  bounded_by hi (leaf (section (compute_effective_limits input)) fld).
Proof.
  rewrite effective_fold. generalize (system_limits input) as s, (limit_layers input) as ls.
  intros s ls. revert s. induction ls as [|l ls IH]; intros s Hs Hls; cbn; [done|].
  apply Forall_cons in Hls as [Hl Hls]. apply IH; [|done].
  rewrite leaf_intersect. by apply bounded_by_intersect.
Qed.
End Ceiling.

Lemma clamp_u32_bounded hi c v :
  bounded_by hi (Some c) -> is_u32 v -> 0 <= clamp_u32 c v <= hi.
Proof.
  intros (lo' & hi' & ? & ? & ? & [= ->]) Hv. unfold clamp_u32.
  unfold Limits.range. rewrite RangeConstraint.clamp_int by done. machine.
Qed.

Lemma leaf_intersect_section {S T} (a b : option S) (f : S -> S -> S) (g : T -> T -> T)
    (fld : S -> option T) :
  (forall x y, fld (f x y) = Limits.intersect_option (fld x) (fld y) g) ->
  leaf (Limits.intersect_option a b f) fld = Limits.intersect_option (leaf a fld) (leaf b fld) g.
Proof. intros H. destruct a as [x|], b as [y|]; cbn; rewrite ?H; [done|by destruct (fld x)|by destruct (fld y)|done]. Qed.

Lemma clamp_leaf_bounded hi c v x :
  bounded_by hi c -> is_u32 v -> clamp_leaf clamp_u32 c (Some v) = Some x -> 0 <= x <= hi.
Proof.
  intros Hb Hv. destruct c as [c|]; [|by destruct Hb as (? & ? & ? & ? & ? & ?)].
  intros [= <-]. by apply clamp_u32_bounded.
Qed.

(** The [u32] leaves of a set of defaults are [u32]s. *)
Definition u32_leaf (o : option Z) : Prop := match o with Some v => is_u32 v | None => True end.

(** C25: the compiled-in system ceilings hold in every resolved configuration:
    whatever the (integer-ranged) crew and user limits are, even contradictory
    ones, a resolved [maxToolChain] is at most 200 and a resolved [timeoutSec] at
    most 600. *)
Theorem resolve_system_ceiling (input : ResolverInput) cfg ann :
  resolve input = Ok (cfg, ann) ->
  system_limits input = Limits.system_agent_limits ->
  Forall (fun l => int_limit (leaf (Limits.entrypoint l) Limits.max_tool_chain)) (limit_layers input) ->
  Forall (fun l => int_limit (leaf (Limits.environment l) Limits.timeout_sec)) (limit_layers input) ->
  u32_leaf (leaf (entrypoint (merged input)) max_tool_chain) ->
  u32_leaf (leaf (environment (merged input)) timeout_sec) ->
  0 <= r_max_tool_chain (rc_entrypoint cfg) <= 200 /\
  0 <= r_timeout_sec (rc_environment cfg) <= 600.
Proof.
  intros Hres Hsys Hc Ht Huc Hut.
  assert (Hspec := resolve_spec_eq input). rewrite Hres in Hspec. cbn in Hspec.
  unfold resolve_spec in Hspec. symmetry in Hspec. invert_bind.
  split.
  - destruct (leaf (entrypoint (merged input)) max_tool_chain) as [v|].
    2:{ destruct (leaf (Limits.entrypoint (compute_effective_limits input)) Limits.max_tool_chain); done. }
    eapply (clamp_leaf_bounded 200); [|exact Huc|eassumption].
    apply effective_bounded; [|rewrite Hsys|done].
    + intros a b. by apply leaf_intersect_section.
    + exists 1, 200. repeat split; machine.
  - destruct (leaf (environment (merged input)) timeout_sec) as [v|].
    2:{ destruct (leaf (Limits.environment (compute_effective_limits input)) Limits.timeout_sec); done. }
    eapply (clamp_leaf_bounded 600); [|exact Hut|eassumption].
    apply effective_bounded; [|rewrite Hsys|done].
    + intros a b. by apply leaf_intersect_section.
    + exists 30, 600. repeat split; machine.
Qed.

(** A user asking for 5000 tool calls and an hour, in a crew that allows 50. *)
Definition greedy_input : ResolverInput := {|
  system_defaults := system_agent_defaults;
  system_defaults_path := "/kernel/defaults/agent-manifest.yaml";
  system_limits := Limits.system_agent_limits;
  system_limits_path := "/kernel/limits/agent-manifest.yaml";
  crew_limits := [{| ll_vfs_path := "/crews/dev/limits.yaml";
    ll_limits := {| Limits.entrypoint := Some {| Limits.model_preference := None;
                      Limits.min_context_tokens := None;
                      Limits.max_tool_chain := Some (Limits.range 2 50) |};
                    Limits.tools := None; Limits.memory := None; Limits.snapshot := None;
                    Limits.environment := None |} |}];
  crew_defaults := [];
  user_defaults := None;
  user_limits := None;
  manifest := {| entrypoint := Some {| model_preference := None; min_context_tokens := None;
                                       max_tool_chain := Some 5000 |};
                 memory := None; snapshot := None;
                 environment := Some {| temperature := None; timeout_sec := Some 3600 |};
                 permissions_hint := None |}
|}%string.

Example greedy_resolved :
  (fun p => (r_max_tool_chain (rc_entrypoint p.1), r_timeout_sec (rc_environment p.1)))
    <$> resolve greedy_input = Ok (50, 600).
Proof. by vm_compute. Qed.

Lemma resolve_system_ceiling_witness :
  exists cfg ann, resolve greedy_input = Ok (cfg, ann) /\
    0 <= r_max_tool_chain (rc_entrypoint cfg) <= 200 /\ 0 <= r_timeout_sec (rc_environment cfg) <= 600.
Proof.
  assert (is_ok (resolve greedy_input) = true) as Hok by (vm_compute; reflexivity).
  destruct (is_ok_inv _ Hok) as [[cfg ann] E].
  exists cfg, ann. split; [exact E|].
  apply (resolve_system_ceiling greedy_input cfg ann E); [reflexivity|..].
  - constructor; [|constructor]. right. exists 2, 50. split; [machine|]. split; [machine|reflexivity].
  - constructor; [|constructor]. left. reflexivity.
  - vm_compute. split; discriminate.
  - vm_compute. split; discriminate.
Defined.
