(* ===== verification/Token.v ===== *)
(** * Capability tokens ([types/token.rs])

    Instants are nanoseconds since the epoch; [Utc::now()] is an argument.
    HMAC-SHA256 with hexadecimal output is the parameter [hmac_hex key payload]
    (crates [hmac], [sha2], [hex]). *)

From S2P Require Import Prelude Types.
Local Open Scope Z_scope.

(** [DateTime::timestamp]: whole seconds. *)
Definition timestamp (t : Z) : Z := t / 1000000000.
Definition seconds (n : Z) : Z := n * 1000000000.

Record SessionToken : Type := { st_role : Role.t; st_session_id : string }.

Record IssuedTo : Type := { it_pid : Z; agent_name : string; spawned_by : string }.
#[global] Instance IssuedTo_eq_dec : EqDecision IssuedTo.
Proof. solve_decision. Defined.

Record CapabilityToken : Type := {
  granted_tools : list string;
  issued_at : Z;
  expires_at : Z;
  issued_to : option IssuedTo;
  signature : string
}.
#[global] Instance CapabilityToken_eq_dec : EqDecision CapabilityToken.
Proof. solve_decision. Defined.

Definition has_tool (t : CapabilityToken) (tool : string) : bool :=
  existsb (fun x => bool_decide (x = tool)) (granted_tools t).
Definition is_expired (now : Z) (t : CapabilityToken) : bool := bool_decide (expires_at t < now).

(** [{}|{}|{}] of the two timestamps and the sorted, comma-joined tools. *)
Definition canonical_payload (t : CapabilityToken) : string :=
  (pretty (timestamp (issued_at t)) +:+ "|" +:+ pretty (timestamp (expires_at t)) +:+ "|" +:+
   str_join "," (str_sort (granted_tools t)))%string.

(** [CapabilityToken::test_token]: no signature, an hour to live. *)
Definition test_token (now : Z) (caps : list string) : CapabilityToken :=
  {| granted_tools := caps; issued_at := now; expires_at := now + seconds 3600; issued_to := None; signature := "test-sig" |}.
Definition with_signature (t : CapabilityToken) (s : string) : CapabilityToken :=
  {| granted_tools := granted_tools t; issued_at := issued_at t; expires_at := expires_at t;
     issued_to := issued_to t; signature := s |}.

Lemma has_tool_elem t tool : has_tool t tool = true <-> tool ∈ granted_tools t.
Proof.
  unfold has_tool. rewrite existsb_exists. split.
  - intros (x & Hx & ->%bool_decide_eq_true). by apply list_elem_of_In.
  - intros Hx. exists tool. split; [by apply list_elem_of_In | by apply bool_decide_eq_true].
Qed.

Section Hmac.
Variable hmac_hex : string -> string -> string.

Definition compute_signature (t : CapabilityToken) (key : string) : string :=
  ("sha256:" +:+ hmac_hex key (canonical_payload t))%string.

Definition mint (now : Z) (tools : list string) (to : option IssuedTo) (ttl_secs : Z)
    (key : string) : CapabilityToken :=
  let token := {| granted_tools := tools; issued_at := now; expires_at := now + seconds ttl_secs;
                  issued_to := to; signature := EmptyString |} in
  with_signature token (compute_signature token key).

Definition verify_signature (t : CapabilityToken) (key : string) : bool :=
  bool_decide (signature t = compute_signature t key).

Lemma mint_verifies now tools to ttl key : verify_signature (mint now tools to ttl key) key = true.
Proof. by apply bool_decide_eq_true. Qed.

(** The signature does not depend on the order of the granted tools. *)
Lemma verify_signature_perm t t' key :
  granted_tools t ≡ₚ granted_tools t' -> timestamp (issued_at t) = timestamp (issued_at t') ->
  timestamp (expires_at t) = timestamp (expires_at t') -> signature t = signature t' ->
  verify_signature t key = verify_signature t' key.
Proof.
  intros Hp Hi He Hs. unfold verify_signature, compute_signature, canonical_payload.
  by rewrite Hi, He, Hs, (str_sort_proper _ _ Hp).
Qed.

Lemma compute_signature_payload t t' key :
  (forall p q, hmac_hex key p = hmac_hex key q -> p = q) ->
  compute_signature t key = compute_signature t' key <-> canonical_payload t = canonical_payload t'.
Proof.
  intros Hinj. unfold compute_signature. split.
  - intros H. by apply Hinj, (str_app_inj_l "sha256:").
  - by intros ->.
Qed.
End Hmac.

(** ** The payload determines its parts *)

Lemma pretty_N_char_no_pipe x : pretty.pretty_N_char x <> "|"%char.
Proof. unfold pretty_N_char. by repeat case_match. Qed.

Lemma pretty_N_go_no_pipe x s :
  str_contains_char "|" s = false -> str_contains_char "|" (pretty.pretty_N_go x s) = false.
Proof.
  revert s. induction (N.lt_wf_0 x) as [x _ IH]; intros s Hs.
  destruct (decide (x = 0%N)) as [->|Hx]; [done|].
  rewrite pretty_N_go_step by lia. apply IH; [apply N.div_lt; lia|].
  cbn. rewrite Hs, bool_decide_eq_false_2; [done|].
  intros Heq. by apply (pretty_N_char_no_pipe (x `mod` 10)).
Qed.

Lemma pretty_N_no_pipe (x : N) : str_contains_char "|" (pretty x) = false.
Proof.
  unfold pretty, pretty_N. case_decide; [done|]. by apply pretty_N_go_no_pipe.
Qed.

Lemma pretty_Z_no_pipe (z : Z) : str_contains_char "|" (pretty z) = false.
Proof.
  unfold pretty, pretty_Z. destruct z; [done| |].
  - apply pretty_N_no_pipe.
  - cbn. apply pretty_N_no_pipe.
Qed.

Lemma pipe_split (a b c d : string) :
  str_contains_char "|" a = false -> str_contains_char "|" c = false ->
  (a +:+ String "|" b = c +:+ String "|" d)%string -> a = c /\ b = d.
Proof.
  intros Ha Hc H. apply (f_equal (split_once "|")) in H.
  rewrite !split_once_app in H by done. by injection H.
Qed.

Lemma canonical_payload_inj t t' :
  canonical_payload t = canonical_payload t' <->
  timestamp (issued_at t) = timestamp (issued_at t') /\
  timestamp (expires_at t) = timestamp (expires_at t') /\
  str_join "," (str_sort (granted_tools t)) = str_join "," (str_sort (granted_tools t')).
Proof.
  unfold canonical_payload. split.
  - intros [Hi%(inj pretty) H]%pipe_split; [|apply pretty_Z_no_pipe..].
    apply pipe_split in H as [He%(inj pretty) Ht]; [|apply pretty_Z_no_pipe..]. done.
  - by intros (-> & -> & ->).
Qed.

(** with a collision-free MAC, a token that carries the signature of a minted
    token verifies under the same key exactly when both timestamps agree to the
    second and the sorted, comma-joined tool lists agree.  In particular the
    [issued_to] identity, the sub-second part of the timestamps and the boundaries
    between tool names are outside the signature. *)
Theorem signature_binding (hmac_hex : string -> string -> string) now tools to ttl key t' :
  (forall p q, hmac_hex key p = hmac_hex key q -> p = q) ->
  let t := mint hmac_hex now tools to ttl key in
  verify_signature hmac_hex (with_signature t' (signature t)) key = true <->
  timestamp (issued_at t') = timestamp now /\
  timestamp (expires_at t') = timestamp (now + seconds ttl) /\
  str_join "," (str_sort (granted_tools t')) = str_join "," (str_sort tools).
Proof.
  intros Hinj t. unfold verify_signature. rewrite bool_decide_eq_true.
  change (signature (with_signature t' (signature t)))
    with (compute_signature hmac_hex {| granted_tools := tools; issued_at := now;
            expires_at := now + seconds ttl; issued_to := to; signature := EmptyString |} key).
  rewrite (compute_signature_payload _ _ _ _ Hinj), canonical_payload_inj. cbn. naive_solver.
Qed.

(** A toy MAC for the witnesses: it is injective in the payload. *)
Definition toy_mac (key p : string) : string := (key +:+ p)%string.

Lemma signature_binding_witness :
  let t := mint toy_mac 0 ["fs/read"]%string (Some {| it_pid := 7; agent_name := "a"; spawned_by := "alice" |}%string) 3600 "k" in
  let forged := {| granted_tools := ["fs/read"]%string; issued_at := 999; expires_at := seconds 3600 + 5;
                   issued_to := Some {| it_pid := 8; agent_name := "b"; spawned_by := "root" |}%string;
                   signature := EmptyString |} in
  verify_signature toy_mac (with_signature forged (signature t)) "k" = true.
Proof.
  apply (signature_binding toy_mac 0 ["fs/read"]%string _ 3600 "k").
  - intros p q H. exact (str_app_inj_l "k" p q H).
  - repeat split; reflexivity.
Defined.

(** ** YAML manifest *)

Record ManifestMetadata : Type := {
  mm_issued_at : Z; mm_expires_at : Z; mm_issued_to : option IssuedTo
}.
Record ManifestTools : Type := { granted : list string }.
Record ManifestConstraints : Type := {
  max_tokens_per_turn : option Z;
  max_tool_chain_length : option Z;
  allow_pipe_targets : option (list Z)
}.
Record ManifestSpec : Type := {
  ms_tools : ManifestTools; ms_constraints : option ManifestConstraints; ms_signature : string
}.
Record CapabilityTokenManifest : Type := {
  api_version : string; kind : string; metadata : ManifestMetadata; spec : ManifestSpec
}.

Definition from_token (t : CapabilityToken) : CapabilityTokenManifest := {|
  api_version := "avix/v1"; kind := "CapabilityToken";
  metadata := {| mm_issued_at := issued_at t; mm_expires_at := expires_at t;
                 mm_issued_to := issued_to t |};
  spec := {| ms_tools := {| granted := granted_tools t |}; ms_constraints := None;
             ms_signature := signature t |}
|}.
Definition into_token (m : CapabilityTokenManifest) : CapabilityToken := {|
  granted_tools := granted (ms_tools (spec m));
  issued_at := mm_issued_at (metadata m);
  expires_at := mm_expires_at (metadata m);
  issued_to := mm_issued_to (metadata m);
  signature := ms_signature (spec m)
|}.

Lemma into_from_token t : into_token (from_token t) = t.
Proof. by destruct t. Qed.
