(* ===== verification/Json.v ===== *)
(** * JSON values ([serde_json::Value])

    Objects are association lists with the lookup and insertion of
    [serde_json::Map]; the order of the keys is not significant. *)

From S2P Require Import Prelude Floats.
Local Open Scope Z_scope.

Inductive json : Type :=
| JNull
| JBool (b : bool)
| JInt (z : Z)
| JFloat (x : f64)
| JStr (s : string)
| JArr (l : list json)
| JObj (l : list (string * json)).

Fixpoint assoc_get {A} (k : string) (l : list (string * A)) : option A :=
  match l with
  | [] => None
  | (k', v) :: l' => if decide (k = k') then Some v else assoc_get k l'
  end.
Fixpoint assoc_set {A} (k : string) (v : A) (l : list (string * A)) : list (string * A) :=
  match l with
  | [] => [(k, v)]
  | (k', v') :: l' => if decide (k = k') then (k, v) :: l' else (k', v') :: assoc_set k v l'
  end.

(** [v.get(key)] *)
Definition jget (j : json) (key : string) : option json :=
  match j with JObj l => assoc_get key l | _ => None end.
(** [v[key]]: [Null] when absent. *)
Definition jindex (j : json) (key : string) : json := default JNull (jget j key).
Definition as_str (j : json) : option string := match j with JStr s => Some s | _ => None end.
Definition as_bool (j : json) : option bool := match j with JBool b => Some b | _ => None end.
Definition as_u64 (j : json) : option Z :=
  match j with JInt z => if decide (is_u64 z) then Some z else None | _ => None end.
Definition jobj_insert (j : json) (key : string) (v : json) : json :=
  match j with JObj l => JObj (assoc_set key v l) | _ => j end.
Definition jstrs (l : list string) : json := JArr (map JStr l).
Definition jopt {A} (f : A -> json) (o : option A) : json :=
  match o with Some a => f a | None => JNull end.

Lemma assoc_get_set {A} k k' (v : A) l :
  assoc_get k (assoc_set k' v l) = if decide (k = k') then Some v else assoc_get k l.
Proof.
  induction l as [|[k0 v0] l IH]; cbn; [done|].
  destruct (decide (k' = k0)) as [->|]; cbn.
  - by repeat case_decide.
  - rewrite IH. repeat case_decide; congruence.
Qed.

Lemma jget_insert l key v key' :
  jget (jobj_insert (JObj l) key v) key' = if decide (key' = key) then Some v else assoc_get key' l.
Proof. apply assoc_get_set. Qed.

Definition assoc_remove {A} (k : string) (l : list (string * A)) : list (string * A) :=
  filter (fun x => x.1 <> k) l.
Definition jobj_remove (j : json) (key : string) : json :=
  match j with JObj l => JObj (assoc_remove key l) | _ => j end.

Lemma assoc_get_remove {A} k k' (l : list (string * A)) :
  assoc_get k (assoc_remove k' l) = if decide (k = k') then None else assoc_get k l.
Proof.
  unfold assoc_remove. induction l as [|[k0 v0] l IH]; [by case_decide|].
  rewrite filter_cons. simpl. destruct (decide (k0 <> k')) as [Hn|Hn]; simpl; rewrite IH.
  - repeat case_decide; congruence.
  - apply dec_stable in Hn. by repeat case_decide; subst.
Qed.

Lemma jget_remove j key key' :
  jget (jobj_remove j key) key' = if decide (key' = key) then None else jget j key'.
Proof. destruct j; simpl; try (by case_decide). apply assoc_get_remove. Qed.

(** Decide the comparisons of constant keys. *)
Ltac eval_keys :=
  repeat match goal with
  | |- context [decide (?a = ?b :> string)] =>
      first [rewrite (decide_True (P := a = b)) by reflexivity | rewrite (decide_False (P := a = b)) by discriminate]
  end.
(** Compute lookups in objects with constant keys. *)
Ltac read_keys := repeat progress (cbn; eval_keys).
