(* ===== verification/Channels.v ===== *)
(** * Channels: the asynchronous queues the runtime is built on

    The bounded [mpsc] and [broadcast] channels come from the tokio package,
    which is not part of the sources: they are the two interfaces below, a class
    of operations and a class of laws that state their documented behaviour
    through a view of the channel as a list.  The components that use a channel
    are proved against the laws; the two list implementations at the end of the
    file inhabit the interfaces and are what the witnesses run. *)

From S2P Require Import Prelude.

(** ** Bounded multi-producer channels ([tokio::sync::mpsc]) *)

Inductive TrySendError : Type := TrySendClosed | TrySendFull.

(** [None] in [mpsc_channel] is the panic on a zero capacity; [None] in
    [mpsc_send] and [mpsc_recv] is a call that waits. *)
Class Mpsc (A C : Type) : Type := {
  mpsc_channel : nat -> option C;
  mpsc_try_send : C -> A -> result TrySendError C;
  mpsc_send : C -> A -> option (result unit C);
  mpsc_recv : C -> option (A * C)
}.

Class MpscLaws (A C : Type) `{!Mpsc A C} : Type := {
  mpsc_queue : C -> list A;
  mpsc_capacity : C -> nat;
  mpsc_connected : C -> bool;
  mpsc_channel_law n :
    match mpsc_channel n with
    | Some c => n <> 0 /\ mpsc_queue c = [] /\ mpsc_capacity c = n /\ mpsc_connected c = true
    | None => n = 0
    end;
  mpsc_try_send_law c a :
    match mpsc_try_send c a with
    | Ok c' => mpsc_connected c = true /\ length (mpsc_queue c) < mpsc_capacity c /\
               mpsc_queue c' = mpsc_queue c ++ [a] /\ mpsc_capacity c' = mpsc_capacity c /\
               mpsc_connected c' = true
    | Err TrySendFull => mpsc_connected c = true /\ mpsc_capacity c <= length (mpsc_queue c)
    | Err TrySendClosed => mpsc_connected c = false
    end;
  mpsc_send_law c a :
    match mpsc_send c a with
    | Some (Ok c') => mpsc_connected c = true /\ length (mpsc_queue c) < mpsc_capacity c /\
               mpsc_queue c' = mpsc_queue c ++ [a] /\ mpsc_capacity c' = mpsc_capacity c /\
               mpsc_connected c' = true
    | Some (Err _) => mpsc_connected c = false
    | None => mpsc_connected c = true /\ mpsc_capacity c <= length (mpsc_queue c)
    end;
  mpsc_recv_law c :
    match mpsc_recv c with
    | Some (a, c') => mpsc_queue c = a :: mpsc_queue c' /\ mpsc_capacity c' = mpsc_capacity c /\
                      mpsc_connected c' = mpsc_connected c
    | None => mpsc_queue c = []
    end
}.

(** ** Broadcast channels ([tokio::sync::broadcast])

    A receiver sees what was sent after it subscribed; when more than the
    capacity is pending for it, the next [recv] reports the lag and moves it to
    the oldest value still held. *)

Inductive bc_result (A : Type) : Type := BcValue (a : A) | BcLagged | BcClosed | BcWait.
Arguments BcValue {A} a.
Arguments BcLagged {A}.
Arguments BcClosed {A}.
Arguments BcWait {A}.

Class Broadcast (A B R : Type) : Type := {
  bc_channel : nat -> B;
  bc_subscribe : B -> R;
  bc_send : B -> A -> B;
  (** dropping the last sender *)
  bc_close : B -> B;
  bc_recv : B -> R -> bc_result A * R
}.

Class BroadcastLaws (A B R : Type) `{!Broadcast A B R} : Type := {
  bc_pending : B -> R -> list A;
  bc_capacity : B -> nat;
  bc_closed : B -> bool;
  (** the receivers that subscribed to the channel *)
  bc_member : B -> R -> Prop;
  bc_channel_law n : bc_capacity (bc_channel n) = n /\ bc_closed (bc_channel n) = false;
  bc_subscribe_law b : bc_member b (bc_subscribe b) /\ bc_pending b (bc_subscribe b) = [];
  bc_send_law b a r : bc_member b r ->
    bc_member (bc_send b a) r /\ bc_pending (bc_send b a) r = bc_pending b r ++ [a];
  bc_send_meta b a : bc_capacity (bc_send b a) = bc_capacity b /\ bc_closed (bc_send b a) = bc_closed b;
  bc_close_law b r : bc_member b r ->
    bc_member (bc_close b) r /\ bc_pending (bc_close b) r = bc_pending b r;
  bc_close_meta b : bc_capacity (bc_close b) = bc_capacity b /\ bc_closed (bc_close b) = true;
  bc_recv_law b r : bc_member b r ->
    bc_member b (bc_recv b r).2 /\
    match bc_recv b r with
    | (BcValue a, r') => length (bc_pending b r) <= bc_capacity b /\
                         bc_pending b r = a :: bc_pending b r'
    | (BcLagged, r') => bc_capacity b < length (bc_pending b r) /\
        bc_pending b r' = drop (length (bc_pending b r) - bc_capacity b) (bc_pending b r)
    | (BcClosed, r') => bc_pending b r = [] /\ bc_closed b = true /\ r' = r
    | (BcWait, r') => bc_pending b r = [] /\ bc_closed b = false /\ r' = r
    end
}.

(** ** List implementations of the two interfaces *)

Module QueueMpsc.
Section Queue.
Context {A : Type}.

Record queue : Type := { q_items : list A; q_cap : nat; q_connected : bool }.

Definition push (c : queue) (a : A) : queue :=
  {| q_items := q_items c ++ [a]; q_cap := q_cap c; q_connected := true |}.

#[export] Instance queue_mpsc : Mpsc A queue := {|
  mpsc_channel n := if decide (n = 0) then None
                    else Some {| q_items := []; q_cap := n; q_connected := true |};
  mpsc_try_send c a :=
    if q_connected c then
      if decide (length (q_items c) < q_cap c) then Ok (push c a) else Err TrySendFull
    else Err TrySendClosed;
  mpsc_send c a :=
    if q_connected c then
      if decide (length (q_items c) < q_cap c) then Some (Ok (push c a)) else None
    else Some (Err tt);
  mpsc_recv c :=
    match q_items c with
    | [] => None
    | a :: l => Some (a, {| q_items := l; q_cap := q_cap c; q_connected := q_connected c |})
    end
|}.

#[export] Program Instance queue_mpsc_laws : MpscLaws A queue := {|
  mpsc_queue := q_items; mpsc_capacity := q_cap; mpsc_connected := q_connected
|}.
Next Obligation. intros n. simpl. by case_decide. Qed.
Next Obligation. intros c a. simpl. destruct (q_connected c); [case_decide; simpl; auto with lia | done]. Qed.
Next Obligation. intros c a. simpl. destruct (q_connected c); [case_decide; simpl; auto with lia | done]. Qed.
Next Obligation. intros c. simpl. by destruct (q_items c). Qed.

End Queue.
Arguments queue A : clear implicits.
End QueueMpsc.

Module LogBroadcast.
Section Log.
Context {A : Type}.

(** The whole log of what was sent; a receiver is a position in it. *)
Record log : Type := { l_items : list A; l_cap : nat; l_closed : bool }.

#[export] Instance log_broadcast : Broadcast A log nat := {|
  bc_channel n := {| l_items := []; l_cap := n; l_closed := false |};
  bc_subscribe b := length (l_items b);
  bc_send b a := {| l_items := l_items b ++ [a]; l_cap := l_cap b; l_closed := l_closed b |};
  bc_close b := {| l_items := l_items b; l_cap := l_cap b; l_closed := true |};
  bc_recv b r :=
    if decide (l_cap b < length (l_items b) - r) then (BcLagged, length (l_items b) - l_cap b)
    else match l_items b !! r with
         | Some a => (BcValue a, S r)
         | None => (if l_closed b then BcClosed else BcWait, r)
         end
|}.

#[export] Program Instance log_broadcast_laws : BroadcastLaws A log nat := {|
  bc_pending b r := drop r (l_items b); bc_capacity := l_cap; bc_closed := l_closed;
  bc_member b r := r <= length (l_items b)
|}.
Next Obligation. done. Qed.
Next Obligation. intros b. simpl. by rewrite drop_all. Qed.
Next Obligation.
  intros b a r Hr. simpl in *. rewrite length_app, drop_app_le by done. split; [lia | done].
Qed.
Next Obligation. done. Qed.
Next Obligation. done. Qed.
Next Obligation. done. Qed.
Next Obligation.
  intros b r Hr. simpl in *. rewrite length_drop.
  destruct (decide _) as [Hl|Hl]; simpl.
  - split; [lia|]. split; [done|]. rewrite drop_drop. f_equal. lia.
  - destruct (l_items b !! r) as [a|] eqn:E; simpl.
    + apply lookup_lt_Some in E as Hlt. split; [lia|]. split; [lia|]. by rewrite (drop_S _ _ _ E).
    + apply lookup_ge_None in E. split; [lia|].
      destruct (l_closed b); simpl; rewrite drop_ge by lia; done.
Qed.

End Log.
Arguments log A : clear implicits.
End LogBroadcast.
