(* ===== verification/ToolRegistry.v ===== *)
(** * The tool registry ([tool_registry/registry.rs], [entry.rs], [permissions.rs])

    Tools by name, each with a semaphore that counts the calls in flight.  The
    semaphores live in a heap: [add] allocates a fresh one, a guard names the one
    it was taken from, so re-adding a tool leaves old guards on the old semaphore
    as in the source.  The change events sent on the broadcast channel are
    returned. *)

From S2P Require Import Prelude Types Json.
Import Tool.

Record ToolPermissions : Type := { p_owner : string; p_crew : string; p_all : string }.
Definition permissions_default : ToolPermissions :=
  {| p_owner := "root"; p_crew := ""; p_all := "r--" |}.
Definition permissions_admin : ToolPermissions :=
  {| p_owner := "root"; p_crew := ""; p_all := "rwx" |}.
Definition parse_rwx (s : string) : bool := list_contains s ["r--"; "rw-"; "rwx"]%string.

Record ToolEntry : Type := {
  te_name : string;
  te_owner : string;
  te_state : ToolState;
  te_visibility : ToolVisibility;
  te_descriptor : json;
  capabilities_required : list string;
  te_permissions : ToolPermissions
}.

Definition entry_new (name owner : string) (state : ToolState) (vis : ToolVisibility)
    (descriptor : json) : ToolEntry :=
  {| te_name := name; te_owner := owner; te_state := state; te_visibility := vis;
     te_descriptor := descriptor; capabilities_required := []; te_permissions := permissions_default |}.
Definition with_capabilities (e : ToolEntry) (caps : list string) : ToolEntry :=
  {| te_name := te_name e; te_owner := te_owner e; te_state := te_state e;
     te_visibility := te_visibility e; te_descriptor := te_descriptor e;
     capabilities_required := caps; te_permissions := te_permissions e |}.
Definition with_state (e : ToolEntry) (s : ToolState) : ToolEntry :=
  {| te_name := te_name e; te_owner := te_owner e; te_state := s;
     te_visibility := te_visibility e; te_descriptor := te_descriptor e;
     capabilities_required := capabilities_required e; te_permissions := te_permissions e |}.

Record ToolChangedEvent : Type := { op : string; ev_tools : list string }.

Record ToolRecord : Type := { entry : ToolEntry; semaphore : nat }.
Record ToolRegistry : Type := {
  inner : gmap string ToolRecord;
  (** permits handed out, per semaphore *)
  permits_out : gmap nat nat;
  next_sem : nat
}.

Definition empty_registry : ToolRegistry := {| inner := ∅; permits_out := ∅; next_sem := 0 |}.

Definition out (r : ToolRegistry) (sem : nat) : nat := default 0 (permits_out r !! sem).

Definition set_inner (r : ToolRegistry) (m : gmap string ToolRecord) : ToolRegistry :=
  {| inner := m; permits_out := permits_out r; next_sem := next_sem r |}.

Definition add_one (r : ToolRegistry) (e : ToolEntry) : ToolRegistry :=
  {| inner := <[te_name e := {| entry := e; semaphore := next_sem r |}]> (inner r);
     permits_out := <[next_sem r := 0]> (permits_out r);
     next_sem := S (next_sem r) |}.
Definition add (r : ToolRegistry) (entries : list ToolEntry) : ToolRegistry * ToolChangedEvent :=
  (foldl add_one r entries, {| op := "added"; ev_tools := map te_name entries |}).

Definition not_found (name : string) : AvixError := ConfigParse ("tool not found: " +:+ name)%string.

Definition lookup (r : ToolRegistry) (name : string) : result AvixError ToolEntry :=
  ok_or (not_found name) (entry <$> inner r !! name).

Definition lookup_for_user (r : ToolRegistry) (name user : string) : result AvixError ToolEntry :=
  e ← lookup r name;
  match te_visibility e with
  | All => Ok e
  | User u => if decide (u = user) then Ok e
              else Err (CapabilityDenied (name +:+ " not visible to " +:+ user)%string)
  | Crew _ => Err (CapabilityDenied (name +:+ " not visible to " +:+ user)%string)
  end.

(** Acquire a permit; the guard is the semaphore it must be returned to. *)
Definition acquire (r : ToolRegistry) (name : string) : result AvixError (nat * ToolRegistry) :=
  rec ← ok_or (not_found name) (inner r !! name);
  let sem := semaphore rec in
  Ok (sem, {| inner := inner r; permits_out := <[sem := S (out r sem)]> (permits_out r);
              next_sem := next_sem r |}).
(** Dropping a [ToolCallGuard]. *)
Definition release (r : ToolRegistry) (guard : nat) : ToolRegistry :=
  {| inner := inner r; permits_out := <[guard := pred (out r guard)]> (permits_out r);
     next_sem := next_sem r |}.

Definition set_state (r : ToolRegistry) (name : string) (s : ToolState)
    : result AvixError ToolRegistry :=
  rec ← ok_or (not_found name) (inner r !! name);
  Ok (set_inner r (<[name := {| entry := with_state (entry rec) s; semaphore := semaphore rec |}]> (inner r))).

(** Phase 1 of a draining [remove]: mark every named tool unavailable. *)
Definition mark_unavailable (r : ToolRegistry) (names : list string) : ToolRegistry :=
  set_inner r (foldl (fun m n => alter (fun rec =>
    {| entry := with_state (entry rec) Unavailable; semaphore := semaphore rec |}) n m) (inner r) names).

(** Phase 2: the loop leaves when the tool's semaphore has all its permits back. *)
Definition drained (r : ToolRegistry) (name : string) : bool :=
  match inner r !! name with
  | Some rec => bool_decide (out r (semaphore rec) = 0)
  | None => true
  end.

(** Phase 3: remove the entries and report the ones that were present. *)
Fixpoint remove_names (m : gmap string ToolRecord) (names : list string)
    : gmap string ToolRecord * list string :=
  match names with
  | [] => (m, [])
  | n :: ns =>
      let '(m', removed) := remove_names (delete n m) ns in
      (m', if decide (is_Some (m !! n)) then n :: removed else removed)
  end.
Definition finish_remove (r : ToolRegistry) (names : list string) (reason : string)
    : ToolRegistry * option ToolChangedEvent :=
  let '(m, removed) := remove_names (inner r) names in
  (set_inner r m,
   match removed with
   | [] => None
   | _ => Some {| op := ("removed: " +:+ reason)%string; ev_tools := removed |}
   end).

(** [remove] when no other operation runs in between: [None] while it waits. *)
Definition remove (r : ToolRegistry) (names : list string) (reason : string) (drain : bool)
    : option (ToolRegistry * option ToolChangedEvent) :=
  if drain then
    let r1 := mark_unavailable r names in
    if forallb (drained r1) names then Some (finish_remove r1 names reason) else None
  else Some (finish_remove r names reason).

Definition tool_count (r : ToolRegistry) : nat := size (inner r).
(** The order of [HashMap::values] is unspecified; the model lists by key. *)
Definition get_all_entries (r : ToolRegistry) : list ToolEntry :=
  (fun p => entry p.2) <$> map_to_list (inner r).

Record ToolSummary : Type := {
  ts_name : string; ts_namespace : string; ts_description : string; ts_state : string
}.
Definition state_str (s : ToolState) : string :=
  match s with Available => "available" | Unavailable => "unavailable" | Degraded => "degraded" end%string.
Definition summary (e : ToolEntry) : ToolSummary :=
  {| ts_name := te_name e; ts_namespace := split_next "/" (te_name e);
     ts_description := default EmptyString (jget (te_descriptor e) "description" ≫= as_str);
     ts_state := state_str (te_state e) |}.
Definition list_all (r : ToolRegistry) : list ToolSummary := summary <$> get_all_entries r.

(** ** Facts *)

Lemma mark_lookup (names : list string) (m : gmap string ToolRecord) (n : string) :
  foldl (fun m n => alter (fun rec =>
    {| entry := with_state (entry rec) Unavailable; semaphore := semaphore rec |}) n m) m names !! n
  = if decide (n ∈ names)
    then (fun rec => {| entry := with_state (entry rec) Unavailable; semaphore := semaphore rec |}) <$> m !! n
    else m !! n.
Proof.
  revert m. induction names as [|x xs IH]; intros m; cbn.
  - by rewrite decide_False by set_solver.
  - rewrite IH. destruct (decide (n = x)) as [->|Hne].
    + rewrite lookup_alter_eq, (decide_True (P := x ∈ x :: xs)) by set_solver.
      case_decide; [|done]. destruct (m !! x) as [[e s]|]; done.
    + rewrite lookup_alter_ne by done.
      destruct (decide (n ∈ xs)); [rewrite decide_True by set_solver|rewrite decide_False by set_solver]; done.
Qed.

Lemma remove_names_spec m names :
  (forall n, (remove_names m names).1 !! n = if decide (n ∈ names) then None else m !! n) /\
  (forall n, n ∈ (remove_names m names).2 <-> n ∈ names /\ is_Some (m !! n)).
Proof.
  revert m. induction names as [|x xs IH]; intros m; cbn.
  - split; intros n; [by rewrite decide_False by set_solver | set_solver].
  - destruct (IH (delete x m)) as [IH1 IH2]. destruct (remove_names (delete x m) xs) as [m' rem].
    cbn in *. split; intros n.
    + rewrite IH1. destruct (decide (n = x)) as [->|Hne].
      * rewrite lookup_delete_eq, (decide_True (P := x ∈ x :: xs)) by set_solver. by case_decide.
      * rewrite lookup_delete_ne by done.
        destruct (decide (n ∈ xs)); [rewrite decide_True by set_solver|rewrite decide_False by set_solver]; done.
    + destruct (decide (n = x)) as [->|Hne].
      * case_decide as Hx.
        -- split; [intros _; split; [set_solver|done] | set_solver].
        -- rewrite IH2, lookup_delete_eq. split; [by intros [_ [? ?]] | by intros [_ ?]].
      * assert (is_Some (delete x m !! n) <-> is_Some (m !! n)) as Hd by by rewrite lookup_delete_ne.
        case_decide; rewrite ?elem_of_cons, IH2, Hd; set_solver.
Qed.

(** when [remove] returns, none of the named tools is registered and every
    other tool is unchanged; the event (if any) lists exactly the tools that were
    present; with [drain] it returns only if every named tool had no call in
    flight. *)
Theorem remove_correct r names reason drain r' ev :
  remove r names reason drain = Some (r', ev) ->
  (forall n, n ∈ names -> inner r' !! n = None) /\
  (forall n, n ∉ names -> inner r' !! n = inner r !! n) /\
  (forall n, (exists e, ev = Some e /\ n ∈ ev_tools e) <-> n ∈ names /\ is_Some (inner r !! n)) /\
  (drain = true -> forall n rec, n ∈ names -> inner r !! n = Some rec -> out r (semaphore rec) = 0).
Proof.
  unfold remove. intros H.
  set (r1 := if drain then mark_unavailable r names else r).
  assert ((r', ev) = finish_remove r1 names reason /\
          (drain = true -> forallb (drained r1) names = true)) as [Hfin Hdr].
  { subst r1. destruct drain; [case_match; [|done]|]; by simplify_eq. }
  assert (forall n, n ∉ names -> inner r1 !! n = inner r !! n) as Hout.
  { intros n Hn. subst r1. destruct drain; [|done]. cbn. rewrite mark_lookup. by rewrite decide_False. }
  assert (forall n, is_Some (inner r1 !! n) <-> is_Some (inner r !! n)) as Hsome.
  { intros n. subst r1. destruct drain; [|done]. cbn. rewrite mark_lookup. case_decide; [|done].
    by rewrite fmap_is_Some. }
  destruct (remove_names_spec (inner r1) names) as [Hm Hrem]. unfold finish_remove in Hfin.
  destruct (remove_names (inner r1) names) as [m removed]. cbn in Hm, Hrem.
  injection Hfin as -> ->. cbn. split; [|split; [|split]].
  - intros n Hn. rewrite Hm. by rewrite decide_True.
  - intros n Hn. rewrite Hm, decide_False by done. auto.
  - intros n. rewrite <-Hsome, <-Hrem. destruct removed; cbn; [set_solver|naive_solver].
  - intros -> n rec Hn Hrec. specialize (Hdr eq_refl). rewrite forallb_forall in Hdr.
    specialize (Hdr n ltac:(by apply list_elem_of_In)). unfold drained in Hdr. subst r1.
    cbn in Hdr. rewrite mark_lookup, decide_True, Hrec in Hdr by done. cbn in Hdr.
    by apply bool_decide_eq_true in Hdr.
Qed.

Definition sample_entry (n : string) : ToolEntry := entry_new n "svc" Available All JNull.
Definition sample_registry : ToolRegistry :=
  (add empty_registry [sample_entry "fs/read"; sample_entry "fs/write"]).1.

Lemma remove_correct_witness :
  exists r' ev, remove sample_registry ["fs/read"]%string "x" true = Some (r', ev) /\
    inner r' !! "fs/read"%string = None.
Proof.
  destruct (remove sample_registry ["fs/read"]%string "x" true) as [[r' ev]|] eqn:E.
  - exists r', ev. split; [reflexivity|].
    apply (remove_correct _ _ _ _ _ _ E). apply list_elem_of_In. left. reflexivity.
  - vm_compute in E. discriminate.
Defined.

(** A guard keeps a tool alive: while one of its permits is out, draining waits. *)
Lemma acquire_blocks_drain r name g r1 reason :
  acquire r name = Ok (g, r1) -> remove r1 [name] reason true = None.
Proof.
  unfold acquire. intros H. invert_bind. unfold remove. cbn.
  assert (drained (mark_unavailable
    {| inner := inner r; permits_out := <[semaphore x := S (out r (semaphore x))]> (permits_out r);
       next_sem := next_sem r |} [name]) name = false) as ->; [|done].
  unfold drained. cbn. rewrite lookup_alter_eq, H. cbn. unfold out. cbn.
  by rewrite lookup_insert_eq.
Qed.
