(* ===== verification/Vfs.v ===== *)
(** * The virtual filesystem ([memfs/path.rs], [vfs.rs], [context.rs], [local_provider.rs],
    [router.rs])

    Paths, the in-memory filesystem, caller permissions, the disk-backed provider
    and the router that dispatches a path to the longest matching mount.  File
    contents are byte strings.  The operating system's files are the parameter
    [Disk]; the YAML printer of [serde_yaml] used for the index file is the
    parameter [yaml_of_names].  Each operation is one critical section: the locks
    of the source are taken and dropped inside it. *)

From Stdlib Require Import Sorted.
From S2P Require Import Prelude Types Token Json ToolRegistry.

(** ** Paths *)

Module VfsPath.

Definition parse (s : string) : result AvixError string :=
  if negb (starts_with "/" s) then
    Err (ConfigParse ("VFS path must be absolute: '" +:+ s +:+ "'")%string)
  else if str_contains ".." s then
    Err (ConfigParse ("VFS path must not contain '..': '" +:+ s +:+ "'")%string)
  else Ok s.

Definition parent (p : string) : option string :=
  '(s, _) ← rsplit_once "/" p;
  Some (if decide (s = EmptyString) then "/"%string else s).

Definition file_name (p : string) : option string := snd <$> rsplit_once "/" p.

Definition is_agent_writable (p : string) : bool :=
  if starts_with "/proc/" p || starts_with "/kernel/" p || starts_with "/secrets/" p
     || starts_with "/etc/avix/" p || starts_with "/bin/" p then false
  else if starts_with "/users/" p && str_contains "/memory/" p then false
  else if starts_with "/crews/" p && str_contains "/memory/" p then false
  else true.

Lemma rsplit_once_spec c s a b : rsplit_once c s = Some (a, b) -> s = (a +:+ String c b)%string.
Proof.
  revert a b. induction s as [|d s IH]; intros a b; cbn; [done|].
  destruct (rsplit_once c s) as [[a' b']|] eqn:E.
  - intros [= <- <-]. cbn. by rewrite (IH a' b').
  - case_decide; [|done]. intros [= <- <-]. by subst.
Qed.

Lemma str_contains_prefix sub a b : str_contains sub (a +:+ b)%string = false -> str_contains sub a = false.
Proof.
  intros H. apply not_true_iff_false. intros (x & y & ->)%str_contains_spec.
  apply not_true_iff_false in H. apply H, str_contains_spec.
  exists x, (y +:+ b)%string. by rewrite !str_app_assoc.
Qed.

(** The parent of a parsed path is again a parsed path. *)
Lemma parent_parsed p q : parse p = Ok p -> parent p = Some q -> parse q = Ok q.
Proof.
  unfold parse, parent. intros Hp Hq.
  destruct (rsplit_once "/" p) as [[s n]|] eqn:E; [|done]. cbn in Hq.
  destruct (starts_with "/" p) eqn:Hs; [|done]. destruct (str_contains ".." p) eqn:Hd; [done|].
  case_decide as Hse; injection Hq as <-; [done|].
  apply rsplit_once_spec in E. subst p.
  rewrite (str_contains_prefix _ _ _ Hd).
  destruct s as [|c s]; [done|]. apply starts_with_spec in Hs as [r Hr]. cbn in Hr.
  injection Hr as -> _. rewrite (starts_with_app "/" s : starts_with "/" (String "/" s) = true). done.
Qed.

End VfsPath.

(** ** The in-memory filesystem *)

Module MemFs.

Definition enoent (p : string) : AvixError := ConfigParse ("ENOENT: " +:+ p)%string.

Definition write (fs : gmap string string) (p content : string) : gmap string string :=
  <[p := content]> fs.
Definition read (fs : gmap string string) (p : string) : result AvixError string :=
  ok_or (enoent p) (fs !! p).
Definition delete_file (fs : gmap string string) (p : string) : result AvixError (gmap string string) :=
  match fs !! p with Some _ => Ok (delete p fs) | None => Err (enoent p) end.
Definition exists_file (fs : gmap string string) (p : string) : bool := bool_decide (is_Some (fs !! p)).

(** The name a key contributes to the listing of the directory with prefix [pre]. *)
Definition entry_under (pre k : string) : option string :=
  if starts_with pre k then
    let first := split_next "/" (str_drop (String.length pre) k) in
    if decide (first = EmptyString) then None else Some first
  else None.
Definition dir_prefix (dir : string) : string := (trim_end_matches "/" dir +:+ "/")%string.
(** The names are collected in a [HashSet]. *)
Definition list_dir (fs : gmap string string) (dir : string) : result AvixError (gset string) :=
  let seen := list_to_set (omap (entry_under (dir_prefix dir)) (elements (dom fs))) in
  if decide (seen = ∅) then Err (enoent dir) else Ok seen.

Lemma list_dir_spec fs dir s :
  list_dir fs dir = Ok s ->
  forall n, n ∈ s <-> exists k c, fs !! k = Some c /\ entry_under (dir_prefix dir) k = Some n.
Proof.
  unfold list_dir. case_decide; [done|]. intros [= <-] n.
  rewrite elem_of_list_to_set, list_elem_of_omap. split.
  - intros (k & Hk & Hn). apply elem_of_elements, elem_of_dom in Hk as [c Hc]. eauto.
  - intros (k & c & Hc & Hn). exists k. split; [|done]. apply elem_of_elements, elem_of_dom. eauto.
Qed.

End MemFs.

(** ** Callers and permissions *)

Record VfsCallerContext : Type := {
  username : string; crews : list string; is_admin : bool; token : option CapabilityToken
}.
Definition from_user_info (u : string) (c : list string) (a : bool) : VfsCallerContext :=
  {| username := u; crews := c; is_admin := a; token := None |}.
Definition anonymous : VfsCallerContext :=
  {| username := "anonymous"; crews := []; is_admin := false; token := None |}.

Record VfsPermissions : Type := { vp_owner : string; vp_crew : string; vp_all : string }.
Definition vfs_permissions_default : VfsPermissions :=
  {| vp_owner := "rwx"; vp_crew := "rw-"; vp_all := "r--" |}.

(** [VfsPermissions::for_path]: every arm of the match returns the default. *)
Definition for_path (path : string) : VfsPermissions :=
  if starts_with "/tools/" path then vfs_permissions_default
  else if starts_with "/users/" path then vfs_permissions_default
  else if starts_with "/services/" path then vfs_permissions_default
  else if starts_with "/crews/" path then vfs_permissions_default
  else if starts_with "/etc/" path then vfs_permissions_default
  else vfs_permissions_default.

Definition effective_for (p : VfsPermissions) (caller : VfsCallerContext) : string :=
  if is_admin caller then "rwx"%string
  else if decide (username caller = vp_owner p) then vp_owner p
  else if negb (bool_decide (vp_crew p = EmptyString)) && list_contains (vp_crew p) (crews caller)
       then vp_crew p
  else vp_all p.

Definition can_read (p : VfsPermissions) (c : VfsCallerContext) : bool :=
  str_contains_char "r" (effective_for p c).
Definition can_write (p : VfsPermissions) (c : VfsCallerContext) : bool :=
  str_contains_char "w" (effective_for p c).
Definition can_execute (p : VfsPermissions) (c : VfsCallerContext) : bool :=
  str_contains_char "x" (effective_for p c).

Lemma for_path_default path : for_path path = vfs_permissions_default.
Proof. unfold for_path. by repeat case_match. Qed.

(** what the VFS permission check grants on any path: everybody may read;
    only an administrator, a user literally named ["rwx"], or a member of a crew
    literally named ["rw-"] may write; ownership of the path plays no role. *)
Theorem vfs_permission_outcome (path : string) (c : VfsCallerContext) :
  can_read (for_path path) c = true /\
  (can_write (for_path path) c = true <->
     is_admin c = true \/ username c = "rwx"%string \/ "rw-"%string ∈ crews c) /\
  (can_execute (for_path path) c = true <-> is_admin c = true \/ username c = "rwx"%string).
Proof.
  rewrite for_path_default. unfold can_read, can_write, can_execute, effective_for, list_contains. cbn.
  destruct (is_admin c); [naive_solver|].
  destruct (decide (username c = "rwx"%string)) as [->|Hu]; [naive_solver|].
  destruct (bool_decide ("rw-"%string ∈ crews c)) eqn:E; cbn.
  - apply bool_decide_eq_true in E. naive_solver.
  - apply bool_decide_eq_false in E. naive_solver.
Qed.

(** ** The disk *)

Class Disk (D : Type) : Type := {
  d_create_dir_all : D -> string -> result string D;
  d_write : D -> string -> string -> result string D;
  d_read : D -> string -> result string string;
  d_remove_file : D -> string -> result string D;
  d_exists : D -> string -> bool;
  d_read_dir : D -> string -> result string (list string)
}.

Module LocalProvider.
Section Local.
Context {D : Type} `{!Disk D}.

Definition resolve_path (root rel : string) : result AvixError string :=
  let rel := trim_start_matches "/" rel in
  if str_contains ".." rel then Err (Io ("path traversal rejected: '" +:+ rel +:+ "'")%string)
  else Ok (root +:+ "/" +:+ rel)%string.

Definition read (d : D) (root rel : string) : result AvixError string :=
  path ← resolve_path root rel;
  map_err (fun e => NotFound ("read " +:+ rel +:+ ": " +:+ e)%string) (d_read d path).

Definition write (d : D) (root rel content : string) : result AvixError D :=
  path ← resolve_path root rel;
  d ← match rsplit_once "/" path with
      | Some (parent, _) =>
          map_err (fun e => Io ("create_dir_all for " +:+ rel +:+ ": " +:+ e)%string)
            (d_create_dir_all d parent)
      | None => Ok d
      end;
  map_err (fun e => Io ("write " +:+ rel +:+ ": " +:+ e)%string) (d_write d path content).

Definition delete (d : D) (root rel : string) : result AvixError D :=
  path ← resolve_path root rel;
  map_err (fun e => NotFound ("delete " +:+ rel +:+ ": " +:+ e)%string) (d_remove_file d path).

Definition exists_ (d : D) (root rel : string) : bool :=
  match resolve_path root rel with Ok path => d_exists d path | Err _ => false end.

Definition list_ (d : D) (root rel_dir : string) : result AvixError (list string) :=
  path ← resolve_path root rel_dir;
  map_err (fun e => NotFound ("list " +:+ rel_dir +:+ ": " +:+ e)%string) (d_read_dir d path).

(** A resolved path stays below the provider's root: the root followed by a
    relative path without a [..] component. *)
Lemma resolve_path_confined root rel p :
  resolve_path root rel = Ok p ->
  exists r, p = (root +:+ "/" +:+ r)%string /\ str_contains ".." r = false.
Proof. unfold resolve_path. case_match; [done|]. intros [= <-]. eauto. Qed.

End Local.
End LocalProvider.

(** ** The router *)

Section Router.
Context {D : Type} `{!Disk D}.
Variable yaml_of_names : list string -> string.

Record VfsRouter : Type := {
  (** prefix and provider root, longest prefix first *)
  mounts : list (string * string);
  mem_mounts : list (string * gmap string string);
  tool_registry : option ToolRegistry;
  caller : option VfsCallerContext;
  default_fs : gmap string string;
  disk : D
}.

Definition with_mounts st m := {| mounts := m; mem_mounts := mem_mounts st;
  tool_registry := tool_registry st; caller := caller st; default_fs := default_fs st; disk := disk st |}.
Definition with_mem st m := {| mounts := mounts st; mem_mounts := m;
  tool_registry := tool_registry st; caller := caller st; default_fs := default_fs st; disk := disk st |}.
Definition with_default st m := {| mounts := mounts st; mem_mounts := mem_mounts st;
  tool_registry := tool_registry st; caller := caller st; default_fs := m; disk := disk st |}.
Definition with_disk st d := {| mounts := mounts st; mem_mounts := mem_mounts st;
  tool_registry := tool_registry st; caller := caller st; default_fs := default_fs st; disk := d |}.
Definition set_caller st c := {| mounts := mounts st; mem_mounts := mem_mounts st;
  tool_registry := tool_registry st; caller := c; default_fs := default_fs st; disk := disk st |}.
Definition set_tool_registry st r := {| mounts := mounts st; mem_mounts := mem_mounts st;
  tool_registry := Some r; caller := caller st; default_fs := default_fs st; disk := disk st |}.

Definition check_access (st : VfsRouter) (path required : string) : result AvixError unit :=
  match caller st with
  | None => Err (CapabilityDenied "no caller context")
  | Some c =>
      let perms := for_path path in
      if bool_decide (required = "r"%string) && negb (can_read perms c) then
        Err (CapabilityDenied ("no read permission on " +:+ path)%string)
      else if bool_decide (required = "w"%string) && negb (can_write perms c) then
        Err (CapabilityDenied ("no write permission on " +:+ path)%string)
      else if bool_decide (required = "x"%string) && negb (can_execute perms c) then
        Err (CapabilityDenied ("no execute permission on " +:+ path)%string)
      else Ok ()
  end.

(** [retain], [push], and the stable [sort_by] on descending prefix length. *)
Fixpoint insert_by_len {A} (x : string * A) (l : list (string * A)) : list (string * A) :=
  match l with
  | [] => [x]
  | y :: l' => if decide (String.length y.1 < String.length x.1) then x :: l
               else y :: insert_by_len x l'
  end.
Definition sort_by_len {A} (l : list (string * A)) : list (string * A) :=
  foldl (fun acc x => insert_by_len x acc) [] l.
Definition mount_in {A} (l : list (string * A)) (prefix : string) (v : A) : list (string * A) :=
  let prefix := trim_end_matches "/" prefix in
  sort_by_len (filter (fun e => e.1 ≠ prefix) l ++ [(prefix, v)]).

Definition mount (st : VfsRouter) (prefix root : string) : VfsRouter :=
  with_mounts st (mount_in (mounts st) prefix root).
Definition mount_memfs (st : VfsRouter) (prefix : string) (fs : gmap string string) : VfsRouter :=
  with_mem st (mount_in (mem_mounts st) prefix fs).

(** [path == prefix || path.starts_with(&format!("{prefix}/"))] *)
Definition under (prefix path : string) : bool :=
  bool_decide (path = prefix) || starts_with (prefix +:+ "/")%string path.

Fixpoint find_mount {A} (path : string) (l : list (string * A)) : option (string * A) :=
  match l with
  | [] => None
  | (prefix, v) :: l' => if under prefix path then Some (prefix, v) else find_mount path l'
  end.
Definition route (st : VfsRouter) (path : string) : option (string * string) :=
  '(prefix, root) ← find_mount path (mounts st);
  Some (root, trim_start_matches "/" (str_drop (String.length prefix) path)).

(** Replace the filesystem of the first mount the path falls under. *)
Fixpoint update_mount {A} (path : string) (v : A) (l : list (string * A)) : list (string * A) :=
  match l with
  | [] => []
  | (prefix, w) :: l' => if under prefix path then (prefix, v) :: l' else (prefix, w) :: update_mount path v l'
  end.

Definition denied (verb path : string) (perms : VfsPermissions) (c : VfsCallerContext) : AvixError :=
  CapabilityDenied ("permission denied: cannot " +:+ verb +:+ " " +:+ path +:+ " (effective: "
                    +:+ effective_for perms c +:+ ")")%string.
(** The permission check at the head of [write], [read] and [delete]: skipped
    when no caller is set. *)
Definition guard_access (st : VfsRouter) (path verb : string)
    (can : VfsPermissions -> VfsCallerContext -> bool) : result AvixError unit :=
  match caller st with
  | Some c => if can (for_path path) c then Ok () else Err (denied verb path (for_path path) c)
  | None => Ok ()
  end.

Definition write (st : VfsRouter) (path content : string) : result AvixError VfsRouter :=
  _ ← guard_access st path "write" can_write;
  match route st path with
  | Some (root, rel) => with_disk st <$> LocalProvider.write (disk st) root rel content
  | None =>
      match find_mount path (mem_mounts st) with
      | Some (_, fs) => Ok (with_mem st (update_mount path (MemFs.write fs path content) (mem_mounts st)))
      | None => Ok (with_default st (MemFs.write (default_fs st) path content))
      end
  end.

(** *** Lazy population of [/tools] *)

(** [str::lines]: a line ends at a newline, and a carriage return before it is dropped. *)
Definition strip_cr (s : string) : string :=
  match rsplit_once "013" s with Some (a, EmptyString) => a | _ => s end.
Fixpoint lines_go (s cur : string) : list string :=
  match s with
  | EmptyString => if decide (cur = EmptyString) then [] else [cur]
  | String c t => if decide (c = "010"%char) then strip_cr cur :: lines_go t EmptyString
                  else lines_go t (cur +:+ String c EmptyString)%string
  end.
Definition str_lines (s : string) : list string := lines_go s EmptyString.

Definition nl : string := String "010" EmptyString.

Definition desc_str (e : ToolEntry) (key dflt : string) : string :=
  default dflt (jget (te_descriptor e) key ≫= as_str).

Definition tool_yaml_state (e : ToolEntry) (c : option VfsCallerContext) : string :=
  match c with
  | Some c =>
      match token c with
      | Some t => if forallb (has_tool t) (capabilities_required e) then "available" else "unavailable"
      | None => if is_admin c then "available" else "unavailable"
      end
  | None => state_str (te_state e)
  end%string.

Definition generate_tool_yaml (e : ToolEntry) (c : option VfsCallerContext) : string :=
  let description := desc_str e "description" EmptyString in
  let state := tool_yaml_state e c in
  let caps := capabilities_required e in
  let sig := desc_str e "handler_signature" EmptyString in
  ("name: " +:+ te_name e +:+ nl +:+
   "description: " +:+ description +:+ nl +:+
   "short: " +:+ desc_str e "short" description +:+ nl +:+
   "detailed: |" +:+ nl +:+
   str_join "" (map (fun l => "  " +:+ l +:+ nl) (str_lines (desc_str e "detailed" EmptyString))) +:+
   "domain: " +:+ desc_str e "domain" EmptyString +:+ nl +:+
   "capabilities_required:" +:+ nl +:+
   str_join "" (map (fun c => "  - " +:+ c +:+ nl) caps) +:+
   "state: " +:+ state +:+ nl +:+
   "owner: " +:+ te_owner e +:+ nl +:+
   "permissions:" +:+ nl +:+
   "  owner: " +:+ p_owner (te_permissions e) +:+ nl +:+
   "  crew: " +:+ (if decide (p_crew (te_permissions e) = EmptyString) then "---"
                   else p_crew (te_permissions e)) +:+ nl +:+
   "  all: " +:+ p_all (te_permissions e) +:+ nl +:+
   (if bool_decide (state = "unavailable") && negb (bool_decide (caps = []))
    then "request_access: cap/request-tool" +:+ nl else "") +:+
   (if decide (sig = "") then "" else "handler_signature: " +:+ sig +:+ nl))%string.

(** Namespaces in order of first occurrence, with their tools ([HashMap] order
    is unspecified in the source). *)
Fixpoint group_by_ns (names : list string) : list (string * list string) :=
  match names with
  | [] => []
  | n :: ns =>
      let k := split_next "/" n in
      let rest := group_by_ns ns in
      (k, n :: default [] (assoc_get k rest)) :: filter (fun e => e.1 ≠ k) rest
  end.

Definition dashed (n : string) : string := replace_char "/" "-" n.
Definition populate_tools_memfs (fs : gmap string string) (r : ToolRegistry) : gmap string string :=
  let entries := get_all_entries r in
  let names := map te_name entries in
  let by_ns := group_by_ns names in
  let fs := foldl (fun fs '(ns, ts) =>
    <[("/tools/" +:+ ns)%string := str_join nl (map (fun n => (dashed n +:+ ".yaml")%string) ts)]> fs) fs by_ns in
  let fs := <["/tools"%string := str_join nl (map (fun e => (e.1 +:+ "/")%string) by_ns)]> fs in
  let fs := foldl (fun fs e =>
    <[("/tools/" +:+ dashed (te_name e) +:+ ".yaml")%string := generate_tool_yaml e None]> fs) fs entries in
  <["/tools/index.yaml"%string := yaml_of_names names]> fs.

(** [mem_mounts.iter().find(|(p, _)| *p == "tools")] *)
Definition tools_mount (st : VfsRouter) : option (gmap string string) :=
  snd <$> (snd <$> list_find (fun e => e.1 = "tools"%string) (mem_mounts st)).
Definition set_tools_mount (st : VfsRouter) (fs : gmap string string) : VfsRouter :=
  with_mem st (match list_find (fun e => e.1 = "tools"%string) (mem_mounts st) with
               | Some (i, (p, _)) => <[i := (p, fs)]> (mem_mounts st)
               | None => mem_mounts st
               end).

Definition populate_if_needed (st : VfsRouter) (path : string) : VfsRouter :=
  if starts_with "/tools" path then
    let found := match tools_mount st with
                 | Some fs => bool_decide (is_Some (fs !! "/tools/index.yaml"%string))
                 | None => false
                 end in
    if negb found then
      match tool_registry st, tools_mount st with
      | Some r, Some fs => set_tools_mount st (populate_tools_memfs fs r)
      | _, _ => st
      end
    else st
  else st.

Definition read (st : VfsRouter) (path : string) : VfsRouter * result AvixError string :=
  match guard_access st path "read" can_read with
  | Err e => (st, Err e)
  | Ok _ =>
      let st := populate_if_needed st path in
      (st, match route st path with
           | Some (root, rel) => LocalProvider.read (disk st) root rel
           | None =>
               match find_mount path (mem_mounts st) with
               | Some (_, fs) => MemFs.read fs path
               | None => MemFs.read (default_fs st) path
               end
           end)
  end.

Definition delete (st : VfsRouter) (path : string) : result AvixError VfsRouter :=
  _ ← guard_access st path "delete" can_write;
  match route st path with
  | Some (root, rel) => with_disk st <$> LocalProvider.delete (disk st) root rel
  | None =>
      match find_mount path (mem_mounts st) with
      | Some (_, fs) =>
          (fun fs' => with_mem st (update_mount path fs' (mem_mounts st))) <$> MemFs.delete_file fs path
      | None => with_default st <$> MemFs.delete_file (default_fs st) path
      end
  end.

(** In the loop over memory mounts, [path == prefix] alone makes a path exist. *)
Definition exists_path (st : VfsRouter) (path : string) : bool :=
  (match route st path with
   | Some (root, rel) => LocalProvider.exists_ (disk st) root rel
   | None => false
   end) ||
  existsb (fun e => bool_decide (path = e.1)
                    || starts_with (e.1 +:+ "/")%string path && MemFs.exists_file e.2 path) (mem_mounts st) ||
  MemFs.exists_file (default_fs st) path.

Definition list_path (st : VfsRouter) (dir : string) : result AvixError (gset string) :=
  match route st dir with
  | Some (root, rel) => list_to_set <$> LocalProvider.list_ (disk st) root rel
  | None =>
      match find_mount dir (mem_mounts st) with
      | Some (_, fs) => MemFs.list_dir fs dir
      | None => MemFs.list_dir (default_fs st) dir
      end
  end.

Definition ensure_dir (st : VfsRouter) (path : string) : result AvixError VfsRouter :=
  keep ← map_err (fun e => ConfigParse (avix_error_to_string e))
           (VfsPath.parse (trim_end_matches "/" path +:+ "/.keep")%string);
  if exists_path st keep then Ok st else write st keep ".keep".
End Router.
Arguments VfsRouter D : clear implicits.

(** ** Longest-prefix routing *)

Section Routing.
Context {A : Type}.
Implicit Types (l : list (string * A)) (p q : string).

Definition longer (x y : string * A) : Prop := String.length y.1 <= String.length x.1.

Lemma insert_by_len_perm x l : insert_by_len x l ≡ₚ x :: l.
Proof.
  induction l as [|y l IH]; cbn; [done|]. case_decide; [done|].
  rewrite IH. apply Permutation_swap.
Qed.

Lemma insert_by_len_sorted x l : StronglySorted longer l -> StronglySorted longer (insert_by_len x l).
Proof.
  induction 1 as [|y l Hl IH Hy]; cbn; [repeat constructor|].
  case_decide as Hlt.
  - constructor; [by constructor|]. constructor; [unfold longer; lia|].
    eapply Forall_impl; [exact Hy|]. unfold longer. intros z Hz. cbn in *. lia.
  - constructor; [done|]. rewrite insert_by_len_perm. constructor; [unfold longer; lia|done].
Qed.

Lemma sort_by_len_spec l : StronglySorted longer (sort_by_len l) /\ sort_by_len l ≡ₚ l.
Proof.
  unfold sort_by_len. induction l as [|x l [IHs IHp]] using rev_ind; [by repeat constructor|].
  rewrite foldl_snoc. split; [by apply insert_by_len_sorted|].
  rewrite insert_by_len_perm, IHp. apply Permutation_cons_append.
Qed.

Lemma find_mount_spec l path p v :
  StronglySorted longer l -> find_mount path l = Some (p, v) ->
  (p, v) ∈ l /\ under p path = true /\
  forall q w, (q, w) ∈ l -> under q path = true -> String.length q <= String.length p.
Proof.
  induction 1 as [|[x w] l Hl IH Hx]; cbn; [done|]. destruct (under x path) eqn:Hu.
  - intros [= -> ->]. split; [set_solver|]. split; [done|].
    intros q u [[= -> ->]|Hq]%elem_of_cons _; [done|].
    rewrite Forall_forall in Hx. by apply (Hx (q, u)).
  - intros (Hin & Hp & Hmax)%IH. split; [set_solver|]. split; [done|].
    intros q u [[= -> ->]|Hq]%elem_of_cons Hqu; [congruence|eauto].
Qed.

Lemma find_mount_none l path :
  find_mount path l = None <-> forall p v, (p, v) ∈ l -> under p path = false.
Proof.
  induction l as [|[x w] l IH]; cbn; [set_solver|]. destruct (under x path) eqn:Hu.
  - split; [done|]. intros H. rewrite (H x w) in Hu by set_solver. done.
  - rewrite IH. split; [|set_solver].
    intros H p v [[= -> ->]|Hin]%elem_of_cons; [done|eauto].
Qed.

(** The value most recently mounted at [p]. *)
Definition last_mount (seq : list (string * A)) (p : string) : option A :=
  foldl (fun acc '(pre, v) => if decide (trim_end_matches "/" pre = p) then Some v else acc) None seq.
Definition mount_all (seq : list (string * A)) : list (string * A) :=
  foldl (fun l '(pre, v) => mount_in l pre v) [] seq.

Lemma mount_all_elem seq p v : (p, v) ∈ mount_all seq <-> last_mount seq p = Some v.
Proof.
  unfold mount_all, last_mount. induction seq as [|[pre w] seq IH] using rev_ind; [set_solver|].
  rewrite !foldl_snoc. unfold mount_in. rewrite (proj2 (sort_by_len_spec _)).
  rewrite elem_of_app, list_elem_of_filter, list_elem_of_singleton, IH.
  case_decide as Hp; cbn; [|naive_solver]. subst. split.
  - intros [[? ?]|[= ->]]; [done|done].
  - intros [= ->]. by right.
Qed.

Lemma mount_all_sorted seq : StronglySorted longer (mount_all seq).
Proof.
  unfold mount_all. induction seq as [|[pre w] seq IH] using rev_ind; [constructor|].
  rewrite foldl_snoc. apply sort_by_len_spec.
Qed.

(** after any sequence of [mount] calls a path is routed to the provider
    most recently mounted at the longest prefix the path falls under, and to no
    provider exactly when no mounted prefix covers it. *)
Theorem routing_longest_prefix (seq : list (string * A)) (path : string) :
  match find_mount path (mount_all seq) with
  | Some (p, v) =>
      under p path = true /\ last_mount seq p = Some v /\
      forall q w, last_mount seq q = Some w -> under q path = true -> String.length q <= String.length p
  | None => forall q w, last_mount seq q = Some w -> under q path = false
  end.
Proof.
  destruct (find_mount path (mount_all seq)) as [[p v]|] eqn:E.
  - apply (find_mount_spec _ _ _ _ (mount_all_sorted seq)) in E as (Hin & Hu & Hmax).
    split; [done|]. split; [by apply mount_all_elem|].
    intros q w Hq. apply (Hmax q w). by apply mount_all_elem.
  - intros q w Hq. apply (proj1 (find_mount_none _ _) E q w). by apply mount_all_elem.
Qed.

Lemma find_mount_under l path p v : find_mount path l = Some (p, v) -> under p path = true.
Proof.
  induction l as [|[x w] l IH]; cbn; [done|]. destruct (under x path) eqn:?; [by intros [= <- <-]|done].
Qed.

(** Updating the mount of one path, seen from another path. *)
Lemma find_update_mount l p q v :
  find_mount q (update_mount p v l) =
    match find_mount q l with
    | None => None
    | Some (a, w) => Some (a, if decide (fst <$> find_mount p l = Some a) then v else w)
    end.
Proof.
  induction l as [|[x w] l IH]; cbn; [done|].
  destruct (under x p) eqn:Hp, (under x q) eqn:Hq; cbn; rewrite ?Hp, ?Hq; cbn.
  - by rewrite decide_True.
  - destruct (find_mount q l) as [[a u]|] eqn:E; [|done].
    apply find_mount_under in E. rewrite decide_False; [done|]. intros [= ->]. congruence.
  - rewrite decide_False; [done|]. intros H.
    destruct (find_mount p l) as [[a u]|] eqn:E; [|done]. injection H as ->.
    apply find_mount_under in E. congruence.
  - exact IH.
Qed.

(** Two paths routed to the same prefix are routed to the same mount. *)
Lemma find_mount_same_prefix l p q a v w :
  find_mount p l = Some (a, v) -> find_mount q l = Some (a, w) -> v = w.
Proof.
  induction l as [|[x u] l IH]; cbn; [done|].
  destruct (under x p) eqn:Hp, (under x q) eqn:Hq; intros H1 H2; simplify_eq; auto.
  - apply find_mount_under in H2. congruence.
  - apply find_mount_under in H1. congruence.
Qed.
End Routing.

(** ** Reading back what was written *)

Lemma can_read_always path c : can_read (for_path path) c = true.
Proof.
  rewrite for_path_default. unfold can_read, effective_for. cbn. by repeat case_match.
Qed.

Lemma guard_read {D} (st : VfsRouter D) path : guard_access st path "read" can_read = Ok ().
Proof. unfold guard_access. case_match; [|done]. by rewrite can_read_always. Qed.

Lemma under_absolute p path : starts_with "/" path = true -> starts_with "/" p = false ->
  p ≠ EmptyString -> under p path = false.
Proof.
  intros [r ->]%starts_with_spec Hp Hne. destruct p as [|c p]; [done|].
  assert (c ≠ "/"%char) as Hc.
  { intros ->. rewrite (starts_with_app "/" p : starts_with "/" (String "/" p) = true) in Hp. done. }
  unfold under. apply orb_false_iff. split.
  - apply bool_decide_eq_false. cbn. intros H. injection H as H _. congruence.
  - apply not_true_iff_false. intros [s Hs]%starts_with_spec. cbn in Hs.
    injection Hs as Hs _. congruence.
Qed.

Lemma find_mount_insert {A} (l : list (string * A)) i p v w path :
  l !! i = Some (p, w) -> under p path = false ->
  find_mount path (<[i := (p, v)]> l) = find_mount path l.
Proof.
  revert i. induction l as [|[x u] l IH]; intros [|i] Hl Hu; cbn in *; try done.
  - injection Hl as -> ->. by rewrite Hu.
  - case_match; [done|]. by apply IH.
Qed.

(** Population only touches a mount named [tools], which no absolute path falls under. *)
Lemma populate_find {D} yaml (st : VfsRouter D) x path :
  starts_with "/" path = true ->
  find_mount path (mem_mounts (populate_if_needed yaml st x)) = find_mount path (mem_mounts st).
Proof.
  intros Hp. unfold populate_if_needed. repeat case_match; try done.
  unfold set_tools_mount. cbn. destruct (list_find _ _) as [[i [p fs]]|] eqn:E; [|done].
  apply list_find_Some in E as (Hi & Hpre & _). cbn in Hpre. subst p.
  apply (find_mount_insert _ _ _ _ fs); [done|]. by apply under_absolute.
Qed.

Lemma populate_other {D} yaml (st : VfsRouter D) x :
  mounts (populate_if_needed yaml st x) = mounts st /\
  default_fs (populate_if_needed yaml st x) = default_fs st /\
  disk (populate_if_needed yaml st x) = disk st.
Proof. unfold populate_if_needed. by repeat case_match. Qed.

Lemma parse_absolute p : VfsPath.parse p = Ok p -> starts_with "/" p = true.
Proof. unfold VfsPath.parse. by destruct (starts_with "/" p). Qed.

(** What [read] returns for a path no disk mount covers. *)
Lemma read_mem {D} `{!Disk D} yaml (st : VfsRouter D) path :
  starts_with "/" path = true -> route st path = None ->
  (read yaml st path).2 =
    match find_mount path (mem_mounts st) with
    | Some (_, fs) => MemFs.read fs path
    | None => MemFs.read (default_fs st) path
    end.
Proof.
  intros Hp Hr. unfold read. rewrite guard_read. cbn.
  destruct (populate_other yaml st path) as (Hm & Hd & _).
  unfold route in *. rewrite Hm, Hr, populate_find, Hd by done. done.
Qed.

Lemma memfs_read_write fs p q c :
  MemFs.read (MemFs.write fs p c) q = if decide (q = p) then Ok c else MemFs.read fs q.
Proof.
  unfold MemFs.read, MemFs.write. rewrite lookup_insert.
  repeat case_decide; subst; try done.
Qed.

(** on the in-memory trees a successful [write] is read back exactly, and
    leaves what every other path reads unchanged (mounts and lazy population
    included). *)
Theorem vfs_read_after_write {D} `{!Disk D} yaml (st st' : VfsRouter D) (p c : string) :
  VfsPath.parse p = Ok p -> route st p = None -> write st p c = Ok st' ->
  (read yaml st' p).2 = Ok c /\
  forall q, VfsPath.parse q = Ok q -> q ≠ p -> route st q = None ->
    (read yaml st' q).2 = (read yaml st q).2.
Proof.
  intros Hp%parse_absolute Hr Hw. unfold write in Hw.
  apply bind_Ok_inv in Hw as (_ & _ & Hw). rewrite Hr in Hw.
  destruct (find_mount p (mem_mounts st)) as [[a fs]|] eqn:Ef; injection Hw as <-.
  - split.
    + rewrite read_mem by done. cbn. rewrite find_update_mount, Ef. cbn.
      rewrite decide_True by done. rewrite memfs_read_write. by rewrite decide_True.
    + intros q Hq%parse_absolute Hne Hrq. rewrite !read_mem by done. cbn.
      rewrite find_update_mount, Ef. cbn. destruct (find_mount q (mem_mounts st)) as [[b w]|] eqn:Eq; [|done].
      case_decide as Hab; [|done]. injection Hab as ->. rewrite memfs_read_write, decide_False by done.
      by rewrite (find_mount_same_prefix _ _ _ _ _ _ Ef Eq).
  - split.
    + rewrite read_mem by done. cbn. rewrite Ef, memfs_read_write. by rewrite decide_True.
    + intros q Hq%parse_absolute Hne Hrq. rewrite !read_mem by done. cbn.
      case_match; [done|]. rewrite memfs_read_write. by rewrite decide_False.
Qed.

(** A disk on which every operation fails, for the witnesses. *)
#[global] Instance no_disk : Disk unit := {|
  d_create_dir_all := fun _ _ => Err "EROFS"%string; d_write := fun _ _ _ => Err "EROFS"%string;
  d_read := fun _ _ => Err "ENOENT"%string; d_remove_file := fun _ _ => Err "ENOENT"%string;
  d_exists := fun _ _ => false; d_read_dir := fun _ _ => Err "ENOENT"%string |}.

Definition empty_router : VfsRouter unit :=
  {| mounts := []; mem_mounts := []; tool_registry := None; caller := None; default_fs := ∅; disk := () |}.

(** The router as the boot sequence sets it up: a filled registry and [/tools] mounted. *)
Definition booted_router : VfsRouter unit :=
  set_tool_registry (mount_memfs empty_router "/tools" ∅) sample_registry.

Lemma vfs_read_after_write_witness :
  exists st', write booted_router "/proc/7/status.yaml" "x" = Ok st' /\
    (read (fun _ => EmptyString) st' "/proc/7/status.yaml").2 = Ok "x"%string.
Proof.
  eexists. split; [reflexivity|].
  eapply (vfs_read_after_write (fun _ => EmptyString) booted_router); reflexivity.
Defined.

(** when every memory mount has an absolute prefix (as [mount_memfs] documents),
    reading never populates the [/tools] tree: the state is unchanged and a path
    under an empty [/tools] mount is not found, whatever the registry holds. *)
Theorem tools_never_populated {D} `{!Disk D} yaml (st : VfsRouter D) (path : string) :
  Forall (fun e => starts_with "/" e.1 = true) (mem_mounts st) ->
  (read yaml st path).1 = st /\
  (forall p, find_mount path (mem_mounts st) = Some (p, ∅) -> route st path = None ->
     (read yaml st path).2 = Err (MemFs.enoent path)).
Proof.
  intros Habs.
  assert (list_find (fun e => e.1 = "tools"%string) (mem_mounts st) = None) as Hnone.
  { apply list_find_None. eapply Forall_impl; [exact Habs|]. intros [p fs] Hp. cbn in *. intros ->. done. }
  assert (populate_if_needed yaml st path = st) as Hpop.
  { unfold populate_if_needed, tools_mount. rewrite Hnone. cbn. by repeat case_match. }
  unfold read. rewrite guard_read, Hpop. split; [done|].
  intros p Hf Hr. cbn. by rewrite Hr, Hf.
Qed.

Lemma tools_never_populated_witness :
  Forall (fun e => starts_with "/" e.1 = true) (mem_mounts booted_router) /\
  (read (fun _ => EmptyString) booted_router "/tools/index.yaml").2
    = Err (MemFs.enoent "/tools/index.yaml").
Proof.
  split; [constructor; [reflexivity|constructor]|].
  apply (tools_never_populated (fun _ => EmptyString) booted_router "/tools/index.yaml") with (p := "/tools"%string).
  - constructor; [reflexivity|constructor].
  - reflexivity.
  - reflexivity.
Defined.
