(* ===== verification/Process.v ===== *)
(** * The process table ([process/entry.rs], [process/table.rs])

    One entry per PID.  Every method of [ProcessTable] is one critical section on
    the table's lock, so it is a function on the map; [chrono::Utc::now()] is an
    argument. *)

From S2P Require Import Prelude Types.
Local Open Scope Z_scope.

Inductive ProcessKind : Type := Agent | Service | Kernel.
#[global] Instance ProcessKind_eq_dec : EqDecision ProcessKind.
Proof. solve_decision. Defined.

Inductive ProcessStatus : Type := Pending | Running | Paused | Waiting | Stopped | Crashed.
#[global] Instance ProcessStatus_eq_dec : EqDecision ProcessStatus.
Proof. solve_decision. Defined.

Inductive WaitingOn : Type := HumanApproval | PipeRead | PipeWrite | SignalWait.
#[global] Instance WaitingOn_eq_dec : EqDecision WaitingOn.
Proof. solve_decision. Defined.

Record ProcessEntry : Type := {
  pid : Z;
  name : string;
  kind : ProcessKind;
  status : ProcessStatus;
  parent : option Z;
  spawned_by_user : string;
  granted_tools : list string;
  token_expires_at : option Z;
  tool_chain_depth : Z;
  goal : string;
  spawned_at : Z;
  context_used : Z;
  context_limit : Z;
  last_activity_at : Z;
  waiting_on : option WaitingOn;
  denied_tools : list string;
  last_signal_received : option string;
  pending_signal_count : Z;
  tokens_consumed : Z;
  tool_calls_total : Z
}.

(** [ProcessEntry::default()]. *)
Definition entry_default (now : Z) : ProcessEntry := {|
  pid := 0; name := ""; kind := Agent; status := Pending; parent := None; spawned_by_user := "";
  granted_tools := []; token_expires_at := None; tool_chain_depth := 0; goal := "";
  spawned_at := now; context_used := 0; context_limit := 0; last_activity_at := now;
  waiting_on := None; denied_tools := []; last_signal_received := None;
  pending_signal_count := 0; tokens_consumed := 0; tool_calls_total := 0
|}.

(** *** Field updates *)

Definition upd_status (e : ProcessEntry) (s : ProcessStatus) (w : option WaitingOn) : ProcessEntry := {|
  pid := pid e; name := name e; kind := kind e; status := s; parent := parent e;
  spawned_by_user := spawned_by_user e; granted_tools := granted_tools e;
  token_expires_at := token_expires_at e; tool_chain_depth := tool_chain_depth e; goal := goal e;
  spawned_at := spawned_at e; context_used := context_used e; context_limit := context_limit e;
  last_activity_at := last_activity_at e; waiting_on := w; denied_tools := denied_tools e;
  last_signal_received := last_signal_received e; pending_signal_count := pending_signal_count e;
  tokens_consumed := tokens_consumed e; tool_calls_total := tool_calls_total e |}.
Definition upd_token (e : ProcessEntry) (tools : list string) (exp : option Z) (depth : Z) : ProcessEntry := {|
  pid := pid e; name := name e; kind := kind e; status := status e; parent := parent e;
  spawned_by_user := spawned_by_user e; granted_tools := tools;
  token_expires_at := exp; tool_chain_depth := depth; goal := goal e;
  spawned_at := spawned_at e; context_used := context_used e; context_limit := context_limit e;
  last_activity_at := last_activity_at e; waiting_on := waiting_on e; denied_tools := denied_tools e;
  last_signal_received := last_signal_received e; pending_signal_count := pending_signal_count e;
  tokens_consumed := tokens_consumed e; tool_calls_total := tool_calls_total e |}.
Definition upd_activity (e : ProcessEntry) (now tokens calls ctx : Z) : ProcessEntry := {|
  pid := pid e; name := name e; kind := kind e; status := status e; parent := parent e;
  spawned_by_user := spawned_by_user e; granted_tools := granted_tools e;
  token_expires_at := token_expires_at e; tool_chain_depth := tool_chain_depth e; goal := goal e;
  spawned_at := spawned_at e; context_used := ctx; context_limit := context_limit e;
  last_activity_at := now; waiting_on := waiting_on e; denied_tools := denied_tools e;
  last_signal_received := last_signal_received e; pending_signal_count := pending_signal_count e;
  tokens_consumed := tokens; tool_calls_total := calls |}.
Definition upd_signal (e : ProcessEntry) (last : option string) (count : Z) : ProcessEntry := {|
  pid := pid e; name := name e; kind := kind e; status := status e; parent := parent e;
  spawned_by_user := spawned_by_user e; granted_tools := granted_tools e;
  token_expires_at := token_expires_at e; tool_chain_depth := tool_chain_depth e; goal := goal e;
  spawned_at := spawned_at e; context_used := context_used e; context_limit := context_limit e;
  last_activity_at := last_activity_at e; waiting_on := waiting_on e; denied_tools := denied_tools e;
  last_signal_received := last; pending_signal_count := count;
  tokens_consumed := tokens_consumed e; tool_calls_total := tool_calls_total e |}.

(** ** The table *)

Abbreviation ProcessTable := (gmap Z ProcessEntry).

Definition insert_entry (t : ProcessTable) (e : ProcessEntry) : ProcessTable := <[pid e := e]> t.
Definition remove_entry (t : ProcessTable) (p : Z) : ProcessTable := delete p t.
Definition get (t : ProcessTable) (p : Z) : option ProcessEntry := t !! p.

(** [match guard.get_mut(&pid) { Some(e) => { .. Ok(()) } None => Err(InvalidPid) }] *)
Definition modify (t : ProcessTable) (p : Z) (f : ProcessEntry -> ProcessEntry)
    : result AvixError ProcessTable :=
  match t !! p with
  | Some e => Ok (<[p := f e]> t)
  | None => Err (InvalidPid (Pid.to_string p))
  end.

Definition set_status t p s := modify t p (fun e => upd_status e s (waiting_on e)).
Definition set_state t p s w := modify t p (fun e => upd_status e s w).
Definition set_token t p tools exp := modify t p (fun e => upd_token e tools exp (tool_chain_depth e)).
Definition increment_chain_depth t p := modify t p (fun e =>
  upd_token e (granted_tools e) (token_expires_at e) (u32_saturating_add (tool_chain_depth e) 1)).
Definition reset_chain_depth t p := modify t p (fun e =>
  upd_token e (granted_tools e) (token_expires_at e) 0).
Definition record_tokens t p tokens now := modify t p (fun e =>
  upd_activity e now (u64_saturating_add (tokens_consumed e) tokens) (tool_calls_total e) (context_used e)).
Definition increment_tool_calls_total t p now := modify t p (fun e =>
  upd_activity e now (tokens_consumed e) (u32_saturating_add (tool_calls_total e) 1) (context_used e)).
Definition update_context t p used := modify t p (fun e =>
  upd_activity e (last_activity_at e) (tokens_consumed e) (tool_calls_total e) used).
Definition record_signal t p sig := modify t p (fun e =>
  upd_signal e (Some sig) (u32_saturating_add (pending_signal_count e) 1)).
Definition resolve_pending_signal t p := modify t p (fun e =>
  upd_signal e (last_signal_received e) (saturating_sub (pending_signal_count e) 1)).
Definition touch_activity t p now := modify t p (fun e =>
  upd_activity e now (tokens_consumed e) (tool_calls_total e) (context_used e)).

Definition list_all (t : ProcessTable) : list ProcessEntry := (map_to_list t).*2.
Definition list_by_kind (t : ProcessTable) k := filter (fun e => kind e = k) (list_all t).
Definition list_by_status (t : ProcessTable) s := filter (fun e => status e = s) (list_all t).
Definition list_children (t : ProcessTable) p := filter (fun e => parent e = Some p) (list_all t).
Definition find_by_name (t : ProcessTable) n := snd <$> list_find (fun e => name e = n) (list_all t).
Definition count (t : ProcessTable) : nat := size t.

(** ** Sequences of operations *)

Inductive ProcOp : Type :=
| OInsert (e : ProcessEntry) | ORemove (p : Z)
| OSetStatus (p : Z) (s : ProcessStatus) | OSetState (p : Z) (s : ProcessStatus) (w : option WaitingOn)
| OSetToken (p : Z) (tools : list string) (exp : option Z)
| OIncrChain (p : Z) | OResetChain (p : Z)
| ORecordTokens (p tokens now : Z) | OIncrCalls (p now : Z) | OUpdateContext (p used : Z)
| ORecordSignal (p : Z) (sig : string) | OResolveSignal (p : Z) | OTouch (p now : Z).

Definition op_pid (o : ProcOp) : Z :=
  match o with
  | OInsert e => pid e
  | ORemove p | OSetStatus p _ | OSetState p _ _ | OSetToken p _ _ | OIncrChain p | OResetChain p
  | ORecordTokens p _ _ | OIncrCalls p _ | OUpdateContext p _ | ORecordSignal p _
  | OResolveSignal p | OTouch p _ => p
  end.

Definition run (t : ProcessTable) (o : ProcOp) : result AvixError ProcessTable :=
  match o with
  | OInsert e => Ok (insert_entry t e)
  | ORemove p => Ok (remove_entry t p)
  | OSetStatus p s => set_status t p s
  | OSetState p s w => set_state t p s w
  | OSetToken p tools exp => set_token t p tools exp
  | OIncrChain p => increment_chain_depth t p
  | OResetChain p => reset_chain_depth t p
  | ORecordTokens p n now => record_tokens t p n now
  | OIncrCalls p now => increment_tool_calls_total t p now
  | OUpdateContext p n => update_context t p n
  | ORecordSignal p s => record_signal t p s
  | OResolveSignal p => resolve_pending_signal t p
  | OTouch p now => touch_activity t p now
  end.

(** A failed operation leaves the table as it was. *)
Definition run_all (t : ProcessTable) (os : list ProcOp) : ProcessTable :=
  foldl (fun t o => match run t o with Ok t' => t' | Err _ => t end) t os.

(** *** Invariant: counters stay in their width, keys are the entries' PIDs. *)

Record entry_wf (e : ProcessEntry) : Prop := {
  wf_depth : is_u32 (tool_chain_depth e);
  wf_ctx : is_u64 (context_used e);
  wf_pending : is_u32 (pending_signal_count e);
  wf_tokens : is_u64 (tokens_consumed e);
  wf_calls : is_u32 (tool_calls_total e)
}.
Definition table_wf (t : ProcessTable) : Prop := map_Forall (fun p e => pid e = p /\ entry_wf e) t.

(** The arguments of an operation are themselves machine integers. *)
Definition op_wf (o : ProcOp) : Prop :=
  match o with
  | OInsert e => entry_wf e
  | ORecordTokens _ n _ | OUpdateContext _ n => is_u64 n
  | _ => True
  end.

Lemma modify_wf t p f t' :
  table_wf t -> modify t p f = Ok t' ->
  (forall e, entry_wf e -> entry_wf (f e)) -> (forall e, pid (f e) = pid e) -> table_wf t'.
Proof.
  unfold modify. intros Ht. case_match eqn:E; [|done]. intros [= <-] Hf Hp.
  destruct (Ht _ _ E) as [Hpid Hwf]. apply map_Forall_insert_2; [|done].
  rewrite Hp. auto.
Qed.

Lemma run_wf t o t' : table_wf t -> op_wf o -> run t o = Ok t' -> table_wf t'.
Proof.
  intros Ht Ho. destruct o; cbn in *; intros H;
    try (eapply modify_wf; [exact Ht|exact H| |done];
         intros e0 [? ? ? ? ?]; constructor; cbn; machine).
  - injection H as <-. by apply map_Forall_insert_2.
  - injection H as <-. by apply map_Forall_delete.
Qed.

(** An operation on one PID does not touch another. *)
Lemma run_frame t o t' q : run t o = Ok t' -> q ≠ op_pid o -> t' !! q = t !! q.
Proof.
  intros H Hq. destruct o; cbn in *;
    try (unfold set_status, set_state, set_token, increment_chain_depth, reset_chain_depth,
           record_tokens, increment_tool_calls_total, update_context, record_signal,
           resolve_pending_signal, touch_activity, modify in H;
         case_match; [|done]); injection H as <-.
  all: unfold insert_entry, remove_entry; by rewrite ?lookup_insert_ne, ?lookup_delete_ne by done.
Qed.

(** along every sequence of table operations (failing ones included) each
    entry stays filed under its own PID, every counter stays within its machine
    width (saturating, never wrapping), and operations on other PIDs leave an
    entry untouched. *)
Theorem table_run_invariant (t : ProcessTable) (os : list ProcOp) :
  table_wf t -> Forall op_wf os ->
  table_wf (run_all t os) /\
  forall q, Forall (fun o => op_pid o ≠ q) os -> run_all t os !! q = t !! q.
Proof.
  revert t. induction os as [|o os IH]; intros t Ht Hos; [done|].
  apply Forall_cons in Hos as [Ho Hos]. cbn. destruct (run t o) as [t'|e] eqn:E.
  - destruct (IH t' (run_wf _ _ _ Ht Ho E) Hos) as [Hwf Hfr]. split; [done|].
    intros q [Hq Hqs]%Forall_cons. rewrite Hfr by done. by apply (run_frame _ o).
  - destruct (IH t Ht Hos) as [Hwf Hfr]. split; [done|].
    intros q [Hq Hqs]%Forall_cons. by apply Hfr.
Qed.

Definition sample_proc (p : Z) : ProcessEntry := {|
  pid := p; name := "a"; kind := Agent; status := Running; parent := None; spawned_by_user := "u";
  granted_tools := ["fs/read"]; token_expires_at := None; tool_chain_depth := u32_max; goal := "";
  spawned_at := 0; context_used := 0; context_limit := 0; last_activity_at := 0;
  waiting_on := None; denied_tools := []; last_signal_received := None;
  pending_signal_count := 0; tokens_consumed := 0; tool_calls_total := 0
|}%string.

Lemma sample_proc_wf p : entry_wf (sample_proc p).
Proof. constructor; cbn; machine. Qed.

Lemma table_run_invariant_witness :
  table_wf (run_all ∅ [OInsert (sample_proc 1); OIncrChain 1; OResolveSignal 1; ORemove 2]) /\
  forall q, Forall (fun o => op_pid o ≠ q) [OInsert (sample_proc 1); OIncrChain 1; OResolveSignal 1; ORemove 2] ->
    run_all ∅ [OInsert (sample_proc 1); OIncrChain 1; OResolveSignal 1; ORemove 2] !! q = (∅ : ProcessTable) !! q.
Proof.
  apply (table_run_invariant ∅).
  - apply map_Forall_empty.
  - constructor; [apply sample_proc_wf|]. repeat constructor.
Defined.

(** A state change is visible: after [set_state] the entry has that status. *)
Lemma set_state_get t p s w t' :
  set_state t p s w = Ok t' -> exists e, get t' p = Some e /\ status e = s /\ waiting_on e = w.
Proof.
  unfold set_state, modify, get. case_match; [|done]. intros [= <-].
  eexists. by rewrite lookup_insert_eq.
Qed.
