(* ===== verification/Signals.v ===== *)
(** * Signals: kinds, the signal bus, the channel registry and SIGPIPE payloads

    Models [src/crates/avix-core/src/signal/]: [kind.rs], [bus.rs],
    [channels.rs] and [pipe_payload.rs]. *)

From S2P Require Import Prelude Json Channels.

Open Scope Z_scope.

(** ** [kind.rs] *)

Inductive SignalKind : Type :=
| Start | Pause | Resume | Kill | Stop | Save | Pipe | Escalate | Usr1 | Usr2.

Definition as_str (k : SignalKind) : string :=
  match k with
  | Start => "SIGSTART" | Pause => "SIGPAUSE" | Resume => "SIGRESUME" | Kill => "SIGKILL"
  | Stop => "SIGSTOP" | Save => "SIGSAVE" | Pipe => "SIGPIPE" | Escalate => "SIGESCALATE"
  | Usr1 => "SIGUSR1" | Usr2 => "SIGUSR2"
  end.

Lemma as_str_inj k k' : as_str k = as_str k' -> k = k'.
Proof. by destruct k, k'. Qed.

Record Signal : Type := { target : Z; kind : SignalKind; payload : json }.

(** ** [bus.rs]

    The sender of a process lives in the table; receivers outlive it, so the
    channels are a heap and the table holds an address into it. *)

Module SignalBus.
Section Bus.
Context {B R : Type} `{!Broadcast Signal B R}.

Definition CHANNEL_CAPACITY : nat := 64.
#[global] Arguments CHANNEL_CAPACITY : simpl never.

Record PidEntry : Type := { sender : nat; sub_count : Z }.
Record Subscription : Type := { id : Z; chan : nat; rx : R }.
Record t : Type := { table : gmap Z PidEntry; heap : gmap nat B; next_chan : nat; next_id : Z }.

Definition new : t := {| table := ∅; heap := ∅; next_chan := 0; next_id := 0 |}.

(** [table.entry(pid).or_insert_with(..)] *)
Definition entry_or_insert (b : t) (pid : Z) : PidEntry * t :=
  match table b !! pid with
  | Some e => (e, b)
  | None =>
      let e := {| sender := next_chan b; sub_count := 0 |} in
      (e, {| table := <[pid := e]> (table b);
             heap := <[next_chan b := bc_channel CHANNEL_CAPACITY]> (heap b);
             next_chan := S (next_chan b); next_id := next_id b |})
  end.

Definition with_table (b : t) m := {| table := m; heap := heap b; next_chan := next_chan b; next_id := next_id b |}.
Definition with_heap (b : t) h := {| table := table b; heap := h; next_chan := next_chan b; next_id := next_id b |}.

(** [fetch_add] on the [AtomicU64] wraps around. *)
Definition subscribe (b : t) (pid : Z) : option (Subscription * t) :=
  let sid := next_id b in
  let b := {| table := table b; heap := heap b; next_chan := next_chan b;
              next_id := (sid + 1) mod (u64_max + 1) |} in
  let '(e, b) := entry_or_insert b pid in
  let b := with_table b (<[pid := {| sender := sender e; sub_count := sub_count e + 1 |}]> (table b)) in
  ch ← heap b !! sender e;
  Some ({| id := sid; chan := sender e; rx := bc_subscribe ch |}, b).

Definition unsubscribe (b : t) (pid : Z) : t :=
  match table b !! pid with
  | None => b
  | Some e =>
      let n := saturating_sub (sub_count e) 1 in
      if decide (n = 0)
      then with_heap (with_table b (delete pid (table b))) (alter bc_close (sender e) (heap b))
      else with_table b (<[pid := {| sender := sender e; sub_count := n |}]> (table b))
  end.

Definition send (b : t) (s : Signal) : t :=
  match table b !! target s with
  | Some e => with_heap b (alter (fun ch => bc_send ch s) (sender e) (heap b))
  | None => b
  end.

Definition broadcast (b : t) (k : SignalKind) (p : json) : t :=
  with_heap b (foldl (fun h '(pid, e) =>
      alter (fun ch => bc_send ch {| target := pid; kind := k; payload := p |}) (sender e) h)
    (heap b) (map_to_list (table b))).

Definition subscriber_count (b : t) (pid : Z) : Z :=
  match table b !! pid with Some e => sub_count e | None => 0 end.

(** [Subscription::recv]: [self.inner.recv().await.ok()]; the outer [None] is a
    call that waits. *)
Definition recv (b : t) (s : Subscription) : option (option Signal * Subscription) :=
  ch ← heap b !! chan s;
  let '(r, rx') := bc_recv ch (rx s) in
  let s' := {| id := id s; chan := chan s; rx := rx' |} in
  match r with
  | BcValue a => Some (Some a, s')
  | BcLagged | BcClosed => Some (None, s')
  | BcWait => None
  end.

(** The calls other tasks make on the shared bus, in the order the lock
    serialises them. *)
Inductive BusOp : Type :=
| OSubscribe (pid : Z) | OUnsubscribe (pid : Z) | OSend (s : Signal)
| OBroadcast (k : SignalKind) (p : json).

Definition run (b : t) (o : BusOp) : t :=
  match o with
  | OSubscribe pid => match subscribe b pid with Some (_, b') => b' | None => b end
  | OUnsubscribe pid => unsubscribe b pid
  | OSend s => send b s
  | OBroadcast k p => broadcast b k p
  end.
Definition run_all (b : t) (os : list BusOp) : t := foldl run b os.

(** What the operations address to the process [pid]. *)
Definition addressed (pid : Z) (o : BusOp) : list Signal :=
  match o with
  | OSend s => if decide (target s = pid) then [s] else []
  | OBroadcast k p => [{| target := pid; kind := k; payload := p |}]
  | _ => []
  end.
Definition subscribes_to (pid : Z) (o : BusOp) : Z :=
  match o with OSubscribe q => if decide (q = pid) then 1 else 0 | _ => 0 end.

(** Receiving [n] times. *)
Fixpoint recv_n (n : nat) (b : t) (s : Subscription) : list (option Signal) :=
  match n with
  | O => []
  | S n => match recv b s with
           | Some (r, s') => r :: recv_n n b s'
           | None => []
           end
  end.

(** *** Invariant *)

Context `{!BroadcastLaws Signal B R}.

Record wf (b : t) : Prop := {
  wf_live pid e : table b !! pid = Some e ->
    (sender e < next_chan b)%nat /\ 1 <= sub_count e /\
    exists ch, heap b !! sender e = Some ch /\ bc_capacity ch = CHANNEL_CAPACITY /\ bc_closed ch = false;
  wf_inj p q e e' : table b !! p = Some e -> table b !! q = Some e' -> sender e = sender e' -> p = q
}.

Lemma wf_new : wf new.
Proof. by split. Qed.

(** Sending on the channels of a list of entries with distinct senders. *)
Lemma broadcast_heap k p l (h : gmap nat B) n ch :
  NoDup ((fun x : Z * PidEntry => sender x.2) <$> l) -> h !! n = Some ch ->
  foldl (fun h '(pid, e) =>
      alter (fun ch => bc_send ch {| target := pid; kind := k; payload := p |}) (sender e) h) h l !! n =
  match list_find (fun x : Z * PidEntry => sender x.2 = n) l with
  | Some (_, (pid, _)) => Some (bc_send ch {| target := pid; kind := k; payload := p |})
  | None => Some ch
  end.
Proof.
  revert h ch. induction l as [|[pid e] l IH]; intros h ch Hnd Hh; simpl in *; [done|].
  apply NoDup_cons in Hnd as [Hni Hnd].
  destruct (decide (sender e = n)) as [<-|Hne].
  - rewrite (IH _ _ Hnd) by (rewrite lookup_alter_eq, Hh; done).
    destruct (list_find _ l) as [[i [q e']]|] eqn:E; [|done].
    apply list_find_Some in E as (Hl & Hs & _). destruct Hni. rewrite <- Hs.
    apply list_elem_of_fmap. exists (q, e'). split; [done|]. by eapply list_elem_of_lookup_2.
  - rewrite (IH _ _ Hnd) by (rewrite lookup_alter_ne by done; done).
    by destruct (list_find _ l) as [[i [q e']]|].
Qed.

Lemma wf_senders b : wf b -> NoDup ((fun x : Z * PidEntry => sender x.2) <$> map_to_list (table b)).
Proof.
  intros Hwf. apply NoDup_fmap_2_strong; [|apply NoDup_map_to_list].
  intros [p e] [q e'] Hp%elem_of_map_to_list Hq%elem_of_map_to_list Hs. simpl in Hs.
  destruct (wf_inj _ Hwf _ _ _ _ Hp Hq Hs). congruence.
Qed.

(** A broadcast sends on the channel of each entry and on no other one. *)
Lemma broadcast_lookup b k p pid e ch :
  wf b -> table b !! pid = Some e -> heap b !! sender e = Some ch ->
  heap (broadcast b k p) !! sender e = Some (bc_send ch {| target := pid; kind := k; payload := p |}).
Proof.
  intros Hwf Ht Hh. simpl. rewrite (broadcast_heap _ _ _ _ _ _ (wf_senders _ Hwf) Hh).
  destruct (list_find _ _) as [[i [q e']]|] eqn:E.
  - apply list_find_Some in E as (Hl & Hs & _). simpl in Hs.
    apply list_elem_of_lookup_2, elem_of_map_to_list in Hl.
    by rewrite (wf_inj _ Hwf _ _ _ _ Hl Ht Hs).
  - apply list_find_None in E. rewrite Forall_forall in E.
    by destruct (E (pid, e)); [apply elem_of_map_to_list|].
Qed.

Lemma subscribe_eq b pid : wf b ->
  exists ch s b', subscribe b pid = Some (s, b') /\ rx s = bc_subscribe ch /\
    heap b' !! chan s = Some ch /\ bc_capacity ch = CHANNEL_CAPACITY /\ wf b' /\
    table b' = <[pid := {| sender := chan s; sub_count := subscriber_count b pid + 1 |}]> (table b) /\
    (forall n, (n < next_chan b)%nat -> heap b' !! n = heap b !! n) /\
    (next_chan b <= next_chan b')%nat /\
    (forall e, table b !! pid = Some e -> sender e = chan s).
Proof.
  intros Hwf. unfold subscribe, entry_or_insert, subscriber_count. simpl.
  destruct (table b !! pid) as [e|] eqn:E; simpl.
  - destruct (wf_live _ Hwf _ _ E) as (Hlt & Hc & ch & Hh & Hcap & Hcl). rewrite Hh. simpl.
    eexists ch, _, _. split; [done|]. repeat (split; [done|]). split; [|naive_solver].
    split; simpl.
    + intros q e' [[-> <-]|[Hne Hq]]%lookup_insert_Some; simpl; [naive_solver lia|].
      by apply (wf_live _ Hwf q).
    + intros p q e1 e2 [[<- <-]|[Hp H1]]%lookup_insert_Some [[<- <-]|[Hq H2]]%lookup_insert_Some;
        simpl; intros Hs; try done; (eapply (wf_inj _ Hwf); [..|exact Hs]; eassumption).
  - rewrite lookup_insert_eq. simpl.
    destruct (bc_channel_law CHANNEL_CAPACITY) as [Hcap Hcl].
    eexists _, _, _. split; [done|]. split; [done|]. simpl. split; [apply lookup_insert_eq|].
    split; [done|]. split; [|split; [by rewrite insert_insert_eq|]; split;
      [intros n Hn; apply lookup_insert_ne; lia | split; [lia | done]]].
    assert (Hfresh : forall q e', table b !! q = Some e' -> sender e' <> next_chan b).
    { intros q e' Hq Heq. destruct (wf_live _ Hwf _ _ Hq) as [? _]. lia. }
    split; simpl; rewrite insert_insert_eq.
    + intros q e' [[-> <-]|[Hne Hq]]%lookup_insert_Some; simpl.
      * split; [lia|]. split; [lia|]. eexists. rewrite lookup_insert_eq. done.
      * destruct (wf_live _ Hwf _ _ Hq) as (? & ? & ch & ? & ? & ?). split; [lia|]. split; [done|].
        exists ch. by rewrite lookup_insert_ne by (intros ?; by eapply Hfresh).
    + intros p q e1 e2 [[<- <-]|[Hp H1]]%lookup_insert_Some [[<- <-]|[Hq H2]]%lookup_insert_Some;
        simpl; intros Hs; try done; [by destruct (Hfresh _ _ H2)|by destruct (Hfresh _ _ H1)|].
      eapply (wf_inj _ Hwf); eassumption.
Qed.

(** Changing channels without touching their capacity and liveness keeps the invariant. *)
Lemma wf_with_heap b h :
  wf b ->
  (forall pid e ch, table b !! pid = Some e -> heap b !! sender e = Some ch ->
     exists ch', h !! sender e = Some ch' /\ bc_capacity ch' = bc_capacity ch /\ bc_closed ch' = bc_closed ch) ->
  wf (with_heap b h).
Proof.
  intros Hwf Hh. split; simpl; [|apply (wf_inj _ Hwf)].
  intros pid e Ht. destruct (wf_live _ Hwf _ _ Ht) as (? & ? & ch & Hch & ? & ?).
  destruct (Hh _ _ _ Ht Hch) as (ch' & ? & ? & ?). repeat split; try done.
  exists ch'. split; [done|]. split; congruence.
Qed.

Lemma wf_broadcast b k p : wf b -> wf (broadcast b k p).
Proof.
  intros Hwf. apply wf_with_heap; [done|]. intros pid e ch Ht Hh.
  eexists. split; [by apply (broadcast_lookup b k p pid)|]. apply bc_send_meta.
Qed.

Lemma wf_send b s : wf b -> wf (send b s).
Proof.
  intros Hwf. unfold send. destruct (table b !! target s) as [e|] eqn:E; [|done].
  apply wf_with_heap; [done|]. intros pid e' ch Ht Hh.
  destruct (decide (sender e = sender e')) as [Heq|Hne].
  - rewrite Heq, lookup_alter_eq, Hh. eexists. split; [done|]. apply bc_send_meta.
  - rewrite lookup_alter_ne by done. eauto.
Qed.

Lemma wf_unsubscribe b pid : wf b -> wf (unsubscribe b pid).
Proof.
  intros Hwf. unfold unsubscribe. destruct (table b !! pid) as [e|] eqn:E; [|done].
  destruct (wf_live _ Hwf _ _ E) as (? & ? & ch & ? & ? & ?).
  case_decide as Hn; split; simpl.
  - intros q e' [Hne Hq]%lookup_delete_Some.
    destruct (wf_live _ Hwf _ _ Hq) as (? & ? & ch' & ? & ? & ?).
    repeat split; try done. exists ch'. rewrite lookup_alter_ne; [done|].
    intros Hs. by destruct Hne, (wf_inj _ Hwf _ _ _ _ E Hq Hs).
  - intros p q e1 e2 [_ ?]%lookup_delete_Some [_ ?]%lookup_delete_Some ?.
    by eapply (wf_inj _ Hwf).
  - intros q e' [[<- <-]|[Hne Hq]]%lookup_insert_Some; simpl.
    + split; [done|]. split; [machine | eauto].
    + by apply (wf_live _ Hwf q).
  - intros p q e1 e2 [[<- <-]|[Hp H1']]%lookup_insert_Some [[<- <-]|[Hq H2']]%lookup_insert_Some;
      simpl; intros Hs; try done; (eapply (wf_inj _ Hwf); [..|exact Hs]; eassumption).
Qed.

Lemma wf_run b o : wf b -> wf (run b o).
Proof.
  intros Hwf. destruct o; simpl; auto using wf_send, wf_broadcast, wf_unsubscribe.
  destruct (subscribe_eq b pid Hwf) as (? & ? & ? & -> & H). tauto.
Qed.

Lemma wf_run_all b os : wf b -> wf (run_all b os).
Proof. revert b. induction os; simpl; intros b Hb; auto using wf_run. Qed.

(** *** Delivery *)

(** The subscription [s] of [pid] is live, its process has [c] subscriptions
    and [msgs] is what [s] has still to receive. *)
Record tracked (b : t) (pid : Z) (s : Subscription) (c : Z) (msgs : list Signal) : Prop := {
  tr_entry : table b !! pid = Some {| sender := chan s; sub_count := c |};
  tr_chan : exists ch, heap b !! chan s = Some ch /\ bc_member ch (rx s) /\
    bc_pending ch (rx s) = msgs /\ bc_capacity ch = CHANNEL_CAPACITY
}.

Lemma tracked_run b pid s c msgs o :
  wf b -> tracked b pid s c msgs -> o <> OUnsubscribe pid ->
  tracked (run b o) pid s (c + subscribes_to pid o) (msgs ++ addressed pid o).
Proof.
  intros Hwf [Ht (ch & Hch & Hm & Hp & Hcap)] Ho.
  destruct (wf_live _ Hwf _ _ Ht) as (Hlt & _). simpl in Hlt.
  destruct o as [q|q|sig|k p]; simpl.
  - destruct (subscribe_eq b q Hwf) as (ch' & s' & b' & -> & _ & Hh' & _ & _ & Htab & Hheap & _ & Hs).
    rewrite app_nil_r. split.
    + rewrite Htab. case_decide as Hq.
      * subst q. rewrite lookup_insert_eq. rewrite <- (Hs _ Ht). simpl.
        unfold subscriber_count. by rewrite Ht.
      * by rewrite lookup_insert_ne, Ht, Z.add_0_r.
    + exists ch. by rewrite Hheap.
  - assert (q <> pid) by congruence. rewrite app_nil_r, Z.add_0_r. unfold unsubscribe.
    destruct (table b !! q) as [e|] eqn:E; [|split; eauto].
    assert (Hne : sender e <> chan s).
    { intros Hs. by destruct (wf_inj _ Hwf _ _ _ _ E Ht Hs). }
    case_decide; split; simpl; [by rewrite lookup_delete_ne| |by rewrite lookup_insert_ne|eauto].
    exists ch. by rewrite lookup_alter_ne.
  - rewrite Z.add_0_r. unfold send. case_decide as Hq.
    + subst pid. rewrite Ht. destruct (bc_send_law ch sig _ Hm), (bc_send_meta ch sig).
      split; simpl; [done|]. exists (bc_send ch sig). rewrite lookup_alter_eq, Hch.
      split; [done|]. split; [done|]. split; congruence.
    + rewrite app_nil_r. destruct (table b !! target sig) as [e|] eqn:E; [|split; eauto].
      split; simpl; [done|]. exists ch. rewrite lookup_alter_ne; [done|].
      intros Hs. by destruct Hq, (wf_inj _ Hwf _ _ _ _ E Ht Hs).
  - rewrite Z.add_0_r. set (sg := {| target := pid; kind := k; payload := p |}).
    split; [done|]. exists (bc_send ch sg).
    destruct (bc_send_law ch sg _ Hm), (bc_send_meta ch sg).
    split; [apply (broadcast_lookup b k p pid _ ch Hwf Ht Hch)|]. split; [done|]. split; congruence.
Qed.

Lemma tracked_run_all b pid s c msgs os :
  wf b -> tracked b pid s c msgs -> Forall (fun o => o <> OUnsubscribe pid) os ->
  tracked (run_all b os) pid s (c + foldr Z.add 0 (subscribes_to pid <$> os))
    (msgs ++ (os ≫= addressed pid)).
Proof.
  revert b c msgs. induction os as [|o os IH]; simpl; intros b c msgs Hwf Htr Hos.
  - by rewrite Z.add_0_r, app_nil_r.
  - apply Forall_cons in Hos as [Ho Hos]. rewrite Z.add_assoc, app_assoc.
    apply IH; [by apply wf_run | by apply tracked_run | done].
Qed.

Lemma recv_n_pending b s ch :
  heap b !! chan s = Some ch -> bc_member ch (rx s) ->
  (length (bc_pending ch (rx s)) <= bc_capacity ch)%nat ->
  recv_n (length (bc_pending ch (rx s))) b s = Some <$> bc_pending ch (rx s).
Proof.
  remember (bc_pending ch (rx s)) as msgs eqn:Hp. revert s Hp.
  induction msgs as [|m msgs IH]; intros s Hp Hh Hm Hle; simpl; [done|].
  unfold recv. rewrite Hh. simpl. pose proof (bc_recv_law ch (rx s) Hm) as [Hm' Hr].
  destruct (bc_recv ch (rx s)) as [[a| | |] r'] eqn:E; rewrite <- Hp in Hr; simpl in *.
  - destruct Hr as [_ [= <- ->]]. simpl. f_equal. apply IH; simpl; auto with lia.
  - destruct Hr as [Hlt _]. lia.
  - by destruct Hr.
  - by destruct Hr.
Qed.

(** whatever ran on the bus before, a subscription to a process receives
    every signal sent to that process and every broadcast after it, in order and
    nothing else, as long as that subscription's process is not unsubscribed and
    at most [CHANNEL_CAPACITY] signals are pending; the process counts one more
    subscription plus the later ones, and a subscription that lagged is told so by
    a [None] that does not mean the bus is closed. *)
Theorem bus_delivery (before after : list BusOp) (pid : Z) (s : Subscription) (b : t) :
  let b0 := run_all new before in
  subscribe b0 pid = Some (s, b) ->
  Forall (fun o => o <> OUnsubscribe pid) after ->
  let expected := after ≫= addressed pid in
  let b' := run_all b after in
  subscriber_count b' pid =
    subscriber_count b0 pid + 1 + foldr Z.add 0 (subscribes_to pid <$> after) /\
  ((length expected <= CHANNEL_CAPACITY)%nat ->
     recv_n (length expected) b' s = Some <$> expected) /\
  ((CHANNEL_CAPACITY < length expected)%nat -> exists s',
     recv b' s = Some (None, s') /\
     recv_n CHANNEL_CAPACITY b' s' =
       Some <$> drop (length expected - CHANNEL_CAPACITY) expected).
Proof.
  intros b0 Hs Hos expected b'.
  assert (Hwf0 : wf b0) by apply wf_run_all, wf_new.
  destruct (subscribe_eq b0 pid Hwf0) as (ch & s1 & b1 & Heq & Hrx & Hh & Hcap & Hwf & Htab & _).
  rewrite Hs in Heq. injection Heq as <- <-.
  destruct (bc_subscribe_law ch) as [Hm Hp]. rewrite <- Hrx in Hm, Hp.
  assert (Htr : tracked b pid s (subscriber_count b0 pid + 1) []).
  { split; [by rewrite Htab, lookup_insert_eq | eauto]. }
  destruct (tracked_run_all _ _ _ _ _ after Hwf Htr Hos) as [Ht (ch' & Hh' & Hm' & Hp' & Hcap')].
  fold b' in Ht, Hh'. simpl in Hp'. fold expected in Hp'.
  split; [unfold subscriber_count at 1; by rewrite Ht|]. split; intros Hlen.
  - rewrite <- Hp'. apply recv_n_pending; [done..|]. rewrite Hp'. lia.
  - unfold recv. rewrite Hh'. simpl. pose proof (bc_recv_law ch' (rx s) Hm') as [Hm2 Hr].
    destruct (bc_recv ch' (rx s)) as [[a| | |] r'] eqn:E; rewrite Hp' in Hr; simpl in *;
      try (destruct Hr as [He _]; rewrite ?He in Hlen; simpl in Hlen; lia).
    destruct Hr as [_ Hr]. eexists. split; [done|]. rewrite Hcap' in Hr. rewrite <- Hr.
    assert (Hl : length (bc_pending ch' r') = CHANNEL_CAPACITY).
    { rewrite Hr, length_drop. lia. }
    pose proof (recv_n_pending b' {| id := id s; chan := chan s; rx := r' |} ch' Hh' Hm2) as Hn.
    simpl in Hn. rewrite Hl in Hn. apply Hn. lia.
Qed.
End Bus.
End SignalBus.

Import SignalBus LogBroadcast.

Definition usr1 (pid : Z) : Signal := {| target := pid; kind := Usr1; payload := JNull |}.

Lemma bus_delivery_witness :
  exists (s : Subscription) (b : SignalBus.t),
    subscribe (B := log Signal) (R := nat) (run_all new [OSubscribe 7; OSend (usr1 7)]) 7 = Some (s, b) /\
    recv_n 2 (run_all b [OSend (usr1 7); OSubscribe 8; OSend (usr1 8); OUnsubscribe 8; OBroadcast Save JNull]) s =
      [Some (usr1 7); Some {| target := 7; kind := Save; payload := JNull |}].
Proof.
  eexists _, _. split; [reflexivity|].
  edestruct (bus_delivery (B := log Signal) (R := nat) [OSubscribe 7; OSend (usr1 7)]
    [OSend (usr1 7); OSubscribe 8; OSend (usr1 8); OUnsubscribe 8; OBroadcast Save JNull] 7)
    as (_ & H & _); [reflexivity | repeat constructor; discriminate |].
  apply H. vm_compute. lia.
Defined.

(** ** [channels.rs]

    A registered sender is the address of its channel; the executor holds the
    receiving half. *)

Module SignalChannels.
Section Channels.
Context {C : Type} `{!Mpsc Signal C}.

Record SignalChannelRegistry : Type := { inner : gmap Z nat; heap : gmap nat C }.

Definition register (r : SignalChannelRegistry) (pid : Z) (tx : nat) : SignalChannelRegistry :=
  {| inner := <[pid := tx]> (inner r); heap := heap r |}.
Definition unregister (r : SignalChannelRegistry) (pid : Z) : SignalChannelRegistry :=
  {| inner := delete pid (inner r); heap := heap r |}.

(** [None]: the channel is full and the call waits, with the registry locked. *)
Definition send (r : SignalChannelRegistry) (pid : Z) (s : Signal)
    : option (bool * SignalChannelRegistry) :=
  match inner r !! pid with
  | None => Some (false, r)
  | Some tx =>
      match heap r !! tx with
      | None => Some (false, r)
      | Some c =>
          match mpsc_send c s with
          | Some (Ok c') => Some (true, {| inner := inner r; heap := <[tx := c']> (heap r) |})
          | Some (Err _) => Some (false, r)
          | None => None
          end
      end
  end.

Context `{!MpscLaws Signal C}.

Definition queue_of (r : SignalChannelRegistry) (tx : nat) : list Signal :=
  match heap r !! tx with Some c => mpsc_queue c | None => [] end.

(** [true] means that the signal is at the end of the queue registered for the
    process and no other channel changed; [false], that nothing changed. *)
Lemma send_outcome r pid s ok r' :
  send r pid s = Some (ok, r') ->
  inner r' = inner r /\
  if ok then exists tx, inner r !! pid = Some tx /\ queue_of r' tx = queue_of r tx ++ [s] /\
               forall tx', tx' <> tx -> heap r' !! tx' = heap r !! tx'
  else r' = r.
Proof.
  unfold send, queue_of. destruct (inner r !! pid) as [tx|]; [|naive_solver].
  destruct (heap r !! tx) as [c|] eqn:E; [|naive_solver].
  pose proof (mpsc_send_law c s) as Hs.
  destruct (mpsc_send c s) as [[c'|]|]; intros [= <- <-]; [|done].
  split; [done|]. exists tx. simpl. rewrite lookup_insert_eq, E. split; [done|].
  split; [tauto|]. intros tx' Hne. by rewrite lookup_insert_ne.
Qed.

End Channels.
Arguments SignalChannelRegistry C : clear implicits.
End SignalChannels.

(** ** [pipe_payload.rs]

    The base64 decoder comes from the base64 package: a parameter that gives the
    decoder's message when the data does not decode. *)

Module SigPipePayload.

Inductive InlineEncoding : Type := Base64.

Inductive PipeAttachment : Type :=
| Inline (content_type : string) (encoding : InlineEncoding) (data : string) (label : option string)
| VfsRef (path content_type : string) (label : option string).

Record t : Type := { text : option string; attachments : option (list PipeAttachment) }.

Section Validate.
Variable base64_decode : string -> result string string.
Open Scope string_scope.

Definition check_attachment (i : nat) (att : PipeAttachment) : result string unit :=
  let at_ := "attachment[" +:+ pretty i +:+ "]" in
  match att with
  | Inline _ Base64 data _ =>
      match base64_decode data with
      | Ok _ => Ok tt
      | Err e => Err (at_ +:+ " invalid base64: " +:+ e)
      end
  | VfsRef path _ _ =>
      if negb (starts_with "/" path) then
        Err (at_ +:+ " vfs_ref path must be absolute, got '" +:+ path +:+ "'")
      else if starts_with "/secrets/" path then
        Err (at_ +:+ " vfs_ref path '/secrets/' is forbidden")
      else Ok tt
  end.

Fixpoint check_from (i : nat) (atts : list PipeAttachment) : result string unit :=
  match atts with
  | [] => Ok tt
  | att :: atts => _ ← check_attachment i att; check_from (S i) atts
  end.

Definition validate (p : t) : result string unit :=
  if bool_decide (text p = None) && bool_decide (default [] (attachments p) = []) then
    Err "SIGPIPE payload must have 'text' or at least one attachment"
  else match attachments p with
       | Some atts => check_from 0 atts
       | None => Ok tt
       end.

(** What an attachment must satisfy. *)
Definition admissible (att : PipeAttachment) : bool :=
  match att with
  | Inline _ _ data _ => is_ok (base64_decode data)
  | VfsRef path _ _ => starts_with "/" path && negb (starts_with "/secrets/" path)
  end.

Lemma check_attachment_Ok i att : check_attachment i att = Ok tt <-> admissible att = true.
Proof.
  destruct att as [? [] data ?|path ? ?]; simpl; [by destruct (base64_decode data)|].
  destruct (starts_with "/" path), (starts_with "/secrets/" path); naive_solver.
Qed.

Lemma check_from_Ok i atts :
  check_from i atts = Ok tt <-> Forall (fun att => admissible att = true) atts.
Proof.
  revert i. induction atts as [|att atts IH]; intros i; simpl; [naive_solver|].
  rewrite Forall_cons, <- (IH (S i)), <- (check_attachment_Ok i att).
  destruct (check_attachment i att) as [[]|]; naive_solver.
Qed.

(** The first inadmissible attachment decides the error. *)
Lemma check_from_Err i atts e :
  check_from i atts = Err e -> exists j att,
    atts !! j = Some att /\ check_attachment (i + j) att = Err e /\
    Forall (fun a => admissible a = true) (take j atts).
Proof.
  revert i. induction atts as [|att atts IH]; intros i; simpl; [done|].
  destruct (check_attachment i att) as [[]|e'] eqn:E; simpl.
  - intros (j & a & ? & ? & ?)%IH. exists (S j), a. rewrite Nat.add_succ_r. split; [done|].
    split; [done|]. simpl. constructor; [|done]. by eapply check_attachment_Ok.
  - intros [= <-]. exists O, att. rewrite Nat.add_0_r. simpl. auto.
Qed.

(** a SIGPIPE payload is accepted exactly when it carries a text or an
    attachment and every attachment is admissible (inline data decodes, a VFS
    reference is absolute and not below [/secrets/]); a rejected payload names
    the first offending attachment. *)
Theorem validate_spec (p : t) :
  (validate p = Ok tt <->
     (text p <> None \/ default [] (attachments p) <> []) /\
     Forall (fun att => admissible att = true) (default [] (attachments p))) /\
  (forall e, validate p = Err e ->
     (text p = None /\ default [] (attachments p) = []) \/
     exists j att, default [] (attachments p) !! j = Some att /\ check_attachment j att = Err e /\
       admissible att = false /\ Forall (fun a => admissible a = true) (take j (default [] (attachments p)))).
Proof.
  unfold validate. destruct p as [txt [atts|]]; simpl.
  - destruct (decide (txt = None)) as [Htx|Htx], (decide (atts = [])) as [->|Hat];
      repeat first [rewrite bool_decide_true by done | rewrite bool_decide_false by done]; simpl;
      (split; [rewrite ?check_from_Ok; naive_solver|]); try naive_solver;
      intros e H; right; destruct (check_from_Err _ _ _ H) as (j & att & ? & Hc & ?);
      exists j, att; (repeat split; try done); apply not_true_iff_false;
      rewrite <- (check_attachment_Ok j); simpl in Hc; rewrite Hc; done.
  - destruct (decide (txt = None)) as [Htx|Htx]; repeat first [rewrite bool_decide_true by done | rewrite bool_decide_false by done];
      simpl; naive_solver.
Qed.

End Validate.
End SigPipePayload.
