(* ===== verification/Pipes.v ===== *)
(** * Pipes: configuration, the channel of a pipe, the registry and the manager

    Models [src/crates/avix-core/src/pipe/]: [config.rs], [channel.rs],
    [registry.rs] and [manager.rs].  The queue of a pipe is the bounded channel
    interface of [Channels]; the JSON and YAML parsers, the uuid generator and the
    clock are arguments. *)

From S2P Require Import Prelude Types Json Channels ToolRegistry Vfs Signals.

Open Scope Z_scope.

(** A call that returns, waits for another task, or panics. *)
Inductive io (A : Type) : Type := Returns (a : A) | Waits | Panics.
Arguments Returns {A} a.
Arguments Waits {A}.
Arguments Panics {A}.

(** ** [config.rs] *)

Module PipeDirection.
Inductive t : Type := Out | In | Bidirectional.
Definition parse (s : string) : t :=
  if decide (s = "in"%string) then In
  else if decide (s = "bidirectional"%string) then Bidirectional else Out.
Definition as_str (d : t) : string :=
  match d with Out => "out" | In => "in" | Bidirectional => "bidirectional" end.
Lemma direction_roundtrip d : parse (as_str d) = d.
Proof. by destruct d. Qed.
End PipeDirection.

Module BackpressurePolicy.
Inductive t : Type := Block | Drop | Error.
Definition parse (s : string) : t :=
  if decide (s = "drop"%string) then Drop
  else if decide (s = "error"%string) then Error else Block.
Definition as_str (d : t) : string :=
  match d with Block => "block" | Drop => "drop" | Error => "error" end.
Lemma policy_roundtrip d : parse (as_str d) = d.
Proof. by destruct d. Qed.
End BackpressurePolicy.

Module PipeEncoding.
Inductive t : Type := Text | Json | Yaml.
Definition parse (s : string) : t :=
  if decide (s = "json"%string) then Json
  else if decide (s = "yaml"%string) then Yaml else Text.
Definition as_str (d : t) : string :=
  match d with Text => "text" | Json => "json" | Yaml => "yaml" end.
Lemma encoding_roundtrip d : parse (as_str d) = d.
Proof. by destruct d. Qed.
End PipeEncoding.

Record PipeConfig : Type := {
  source_pid : Z;
  target_pid : Z;
  direction : PipeDirection.t;
  buffer_tokens : nat;
  backpressure : BackpressurePolicy.t;
  encoding : PipeEncoding.t
}.

Definition config_new (source target : Z) : PipeConfig := {|
  source_pid := source; target_pid := target; direction := PipeDirection.Out;
  buffer_tokens := Z.to_nat 8192; backpressure := BackpressurePolicy.Block;
  encoding := PipeEncoding.Text
|}.

Definition can_write (c : PipeConfig) (pid : Z) : bool :=
  match direction c with
  | PipeDirection.Out => pid =? source_pid c
  | PipeDirection.In => pid =? target_pid c
  | PipeDirection.Bidirectional => (pid =? source_pid c) || (pid =? target_pid c)
  end.
Definition can_read (c : PipeConfig) (pid : Z) : bool :=
  match direction c with
  | PipeDirection.Out => pid =? target_pid c
  | PipeDirection.In => pid =? source_pid c
  | PipeDirection.Bidirectional => (pid =? source_pid c) || (pid =? target_pid c)
  end.
Definition partner (c : PipeConfig) (closer : Z) : option Z :=
  if closer =? source_pid c then Some (target_pid c)
  else if closer =? target_pid c then Some (source_pid c) else None.

(** ** [channel.rs] *)

Inductive PipeError : Type := Closed (id : string) | Full (id : string).
Definition pipe_error_to_string (e : PipeError) : string :=
  match e with
  | Closed id => "SIGPIPE: pipe " +:+ id +:+ " is closed"
  | Full id => "pipe " +:+ id +:+ " is full (backpressure)"
  end%string.

Module Pipe.
Section Pipe.
Context {C : Type} `{!Mpsc string C}.

Record t : Type := { id : string; owner_pid : Z; chan : C; closed : bool }.

Definition with_chan (p : t) (c : C) : t :=
  {| id := id p; owner_pid := owner_pid p; chan := c; closed := closed p |}.

(** [None]: [mpsc::channel(0)] panics. *)
Definition new (uuid : string) (owner : Z) (capacity : nat) : option t :=
  c ← mpsc_channel capacity; Some {| id := uuid; owner_pid := owner; chan := c; closed := false |}.

Definition write (p : t) (msg : string) : result PipeError t :=
  if closed p then Err (Closed (id p))
  else match mpsc_try_send (chan p) msg with
       | Ok c => Ok (with_chan p c)
       | Err TrySendClosed => Err (Closed (id p))
       | Err TrySendFull => Err (Full (id p))
       end.

Definition send_blocking (p : t) (msg : string) : io (result PipeError t) :=
  if closed p then Returns (Err (Closed (id p)))
  else match mpsc_send (chan p) msg with
       | Some (Ok c) => Returns (Ok (with_chan p c))
       | Some (Err _) => Returns (Err (Closed (id p)))
       | None => Waits
       end.

Definition read (p : t) : option (string * t) :=
  '(m, c) ← mpsc_recv (chan p); Some (m, with_chan p c).

Definition close (p : t) : t :=
  {| id := id p; owner_pid := owner_pid p; chan := chan p; closed := true |}.
Definition is_closed (p : t) : bool := closed p.
End Pipe.
Arguments t C : clear implicits.
End Pipe.

(** ** [registry.rs] *)

Module PipeRegistry.
Section Registry.
Context {C : Type} `{!Mpsc string C}.

Notation t := (gmap string (Pipe.t C)).

Definition open (r : t) (uuid : string) (owner : Z) (capacity : nat) : option (string * t) :=
  p ← Pipe.new uuid owner capacity; Some (Pipe.id p, <[Pipe.id p := p]> r).

Definition write (r : t) (id msg : string) : result PipeError t :=
  p ← ok_or (Closed id) (r !! id);
  p' ← Pipe.write p msg;
  Ok (<[id := p']> r).

(** The outer [None]: the read waits. *)
Definition read (r : t) (id : string) : option (option string * t) :=
  match r !! id with
  | None => Some (None, r)
  | Some p => '(m, p') ← Pipe.read p; Some (Some m, <[id := p']> r)
  end.

Definition close (r : t) (id : string) : t := base.delete id r.
Definition pipe_count (r : t) : nat := size r.

(** Writing then reading a fresh pipe returns the message. *)
Lemma open_write_read `{!MpscLaws string C} r uuid owner cap id r1 msg :
  open r uuid owner cap = Some (id, r1) ->
  exists r2 r3, write r1 id msg = Ok r2 /\ read r2 id = Some (Some msg, r3).
Proof.
  unfold open, Pipe.new. pose proof (mpsc_channel_law cap) as Hc.
  destruct (mpsc_channel cap) as [c|]; [|done]. destruct Hc as (Hn & Hq & Hcap & Hcon).
  simpl. intros [= <- <-]. unfold write, read. rewrite lookup_insert_eq. simpl.
  unfold Pipe.write. simpl. pose proof (mpsc_try_send_law c msg) as Hs.
  destruct (mpsc_try_send c msg) as [c'|[]]; simpl.
  - pose proof (mpsc_recv_law c') as Hr. destruct Hs as (_ & _ & Hq' & _).
    rewrite Hq in Hq'. rewrite Hq' in Hr.
    destruct (mpsc_recv c') as [[m c2]|] eqn:E; [|done]. destruct Hr as [[= <- _] _].
    eexists _, _. split; [done|]. rewrite lookup_insert_eq. unfold Pipe.read. simpl. by rewrite E.
  - congruence.
  - rewrite Hq, Hcap in Hs. simpl in Hs. destruct Hs. lia.
Qed.
End Registry.
End PipeRegistry.

(** ** [manager.rs] *)

Inductive ReadResult : Type := Message (m : string) | RClosed | Timeout.

Module PipeManager.
Section Manager.
Context {C : Type} `{!Mpsc string C}.
Context {S : Type} `{!Mpsc Signal S}.
Context {D : Type} `{!Disk D}.
(** [serde_json::from_str] and [serde_yaml::from_str] on a value: the parser's
    message when the text does not parse. *)
Variables json_error yaml_error : string -> option string.

Record PipeRecord : Type := { pipe : Pipe.t C; config : PipeConfig }.
(** [pipes: Arc<RwLock<HashMap<String, PipeRecord>>>] *)
Notation t := (gmap string PipeRecord).

(** The manager with what its handlers are called with: the optional VFS and the
    optional registry of signal channels. *)
Record World : Type := {
  pipes : t;
  vfs : option (VfsRouter D);
  signal_channels : option (SignalChannels.SignalChannelRegistry S)
}.
Definition with_pipes (w : World) (m : t) : World :=
  {| pipes := m; vfs := vfs w; signal_channels := signal_channels w |}.

Definition validate_encoding (msg : string) (e : PipeEncoding.t) : result AvixError unit :=
  match e with
  | PipeEncoding.Json =>
      match json_error msg with
      | Some e => Err (ConfigParse ("pipe encoding=json: invalid JSON: " +:+ e)%string)
      | None => Ok tt
      end
  | PipeEncoding.Yaml =>
      match yaml_error msg with
      | Some e => Err (ConfigParse ("pipe encoding=yaml: invalid YAML: " +:+ e)%string)
      | None => Ok tt
      end
  | PipeEncoding.Text => Ok tt
  end.

(** The text of the manifest: each [\n\] of the source's literal continues the
    string after the next line's indentation, so the keys carry none. *)
Definition manifest_lines (now id : string) (c : PipeConfig) : list string :=
  ["apiVersion: avix/v1"; "kind: Pipe"; "metadata:"; "pipeId: " +:+ id; "createdAt: " +:+ now;
   "createdBy: kernel"; "spec:"; "sourcePid: " +:+ pretty (source_pid c);
   "targetPid: " +:+ pretty (target_pid c);
   "direction: " +:+ PipeDirection.as_str (direction c);
   "bufferTokens: " +:+ pretty (buffer_tokens c);
   "backpressure: " +:+ BackpressurePolicy.as_str (backpressure c);
   "encoding: " +:+ PipeEncoding.as_str (encoding c);
   "status:"; "state: open"; "tokensSent: 0"; "tokensAcknowledged: 0"; "closedAt: null";
   "closedReason: null"]%string.
Definition manifest_yaml (now id : string) (c : PipeConfig) : string :=
  foldr (fun l acc => (l +:+ nl +:+ acc)%string) EmptyString (manifest_lines now id c).

Definition write_pipe_manifest (v : VfsRouter D) (now : string) (c : PipeConfig) (id : string)
    : result AvixError (VfsRouter D) :=
  path ← map_err (fun e => ConfigParse (avix_error_to_string e))
    (VfsPath.parse ("/proc/" +:+ pretty (source_pid c) +:+ "/pipes/" +:+ id +:+ ".yaml")%string);
  Vfs.write v path (manifest_yaml now id c).

(** [uuid] names the pipe, [uuid'] is the inner pipe's own id. *)
Definition open (w : World) (uuid uuid' now : string) (c : PipeConfig)
    : io (result AvixError string) * World :=
  let pipe_id := ("pipe-" +:+ uuid)%string in
  match Pipe.new uuid' (source_pid c) (buffer_tokens c) with
  | None => (Panics, w)
  | Some p =>
      let written := match vfs w with
                     | Some v => Some <$> write_pipe_manifest v now c pipe_id
                     | None => Ok None
                     end in
      match written with
      | Err e => (Returns (Err e), w)
      | Ok v => (Returns (Ok pipe_id),
                  {| pipes := <[pipe_id := {| pipe := p; config := c |}]> (pipes w);
                     vfs := v; signal_channels := signal_channels w |})
      end
  end.

Definition pipe_not_found (id : string) : AvixError :=
  NotFound ("pipe '" +:+ id +:+ "' not found")%string.
Definition pipe_denied (pid : Z) (verb id : string) : AvixError :=
  CapabilityDenied ("pid " +:+ Pid.to_string pid +:+ " is not allowed to " +:+ verb +:+ " pipe '" +:+ id +:+ "'")%string.

(** The pipe's own operation under the policy of its configuration. *)
Definition write_policy (rec : PipeRecord) (id msg : string) : io (result AvixError (Pipe.t C)) :=
  match backpressure (config rec) with
  | BackpressurePolicy.Block =>
      match Pipe.send_blocking (pipe rec) msg with
      | Returns r => Returns (map_err (fun e =>
          Io ("pipe write failed: " +:+ pipe_error_to_string e)%string) r)
      | Waits => Waits
      | Panics => Panics
      end
  | BackpressurePolicy.Drop =>
      Returns (Ok (match Pipe.write (pipe rec) msg with Ok p => p | Err _ => pipe rec end))
  | BackpressurePolicy.Error =>
      Returns (map_err (fun e => match e with
        | Full _ => Io ("pipe '" +:+ id +:+ "' is full")%string
        | Closed _ => Io ("pipe '" +:+ id +:+ "' is closed")%string
        end) (Pipe.write (pipe rec) msg))
  end.

Definition write (w : World) (id : string) (caller : Z) (msg : string)
    : io (result AvixError unit) * World :=
  match pipes w !! id with
  | None => (Returns (Err (pipe_not_found id)), w)
  | Some rec =>
      if negb (can_write (config rec) caller) then (Returns (Err (pipe_denied caller "write to" id)), w)
      else match validate_encoding msg (encoding (config rec)) with
           | Err e => (Returns (Err e), w)
           | Ok _ =>
               match write_policy rec id msg with
               | Returns (Ok p) =>
                   (Returns (Ok tt), with_pipes w (<[id := {| pipe := p; config := config rec |}]> (pipes w)))
               | Returns (Err e) => (Returns (Err e), w)
               | Waits => (Waits, w)
               | Panics => (Panics, w)
               end
           end
  end.

(** A read that finds no message returns [Timeout] when its timer fires. *)
Definition read (w : World) (id : string) (caller : Z) : result AvixError ReadResult * World :=
  match pipes w !! id with
  | None => (Err (pipe_not_found id), w)
  | Some rec =>
      if negb (can_read (config rec) caller) then (Err (pipe_denied caller "read from" id), w)
      else if Pipe.is_closed (pipe rec) then (Ok RClosed, w)
      else match Pipe.read (pipe rec) with
           | Some (m, p) =>
               (Ok (Message m), with_pipes w (<[id := {| pipe := p; config := config rec |}]> (pipes w)))
           | None => (Ok Timeout, w)
           end
  end.

Definition sigpipe (p : Z) (id reason : string) : Signal :=
  {| target := p; kind := Signals.Pipe;
     payload := JObj [("pipeId", JStr id); ("reason", JStr reason)]%string |}.

(** The pipe is gone before the delivery to the partner, which may wait; a call that
    fetched the pipe earlier and is still waiting on it is not followed further.
    [update_pipe_manifest_closed] does nothing and returns [Ok]. *)
Definition close (w : World) (id : string) (caller : Z) (reason : string)
    : io (result AvixError unit) * World :=
  match pipes w !! id with
  | None => (Returns (Err (pipe_not_found id)), w)
  | Some rec =>
      let w := with_pipes w (base.delete id (pipes w)) in
      match signal_channels w, partner (config rec) caller with
      | Some ch, Some p =>
          match SignalChannels.send ch p (sigpipe p id reason) with
          | Some (_, ch') => (Returns (Ok tt),
              {| pipes := pipes w; vfs := vfs w; signal_channels := Some ch' |})
          | None => (Waits, w)
          end
      | _, _ => (Returns (Ok tt), w)
      end
  end.

Definition is_endpoint (pid : Z) (c : PipeConfig) : bool :=
  (source_pid c =? pid) || (target_pid c =? pid).

Fixpoint close_all (w : World) (ids : list string) (pid : Z) : io unit * World :=
  match ids with
  | [] => (Returns tt, w)
  | id :: ids =>
      match close w id pid "owner_exited" with
      | (Returns _, w') => close_all w' ids pid
      | (Waits, w') => (Waits, w')
      | (Panics, w') => (Panics, w')
      end
  end.

(** The ids are collected in the iteration order of the map. *)
Definition close_pipes_for_pid (w : World) (pid : Z) : io unit * World :=
  close_all w ((filter (fun x : string * PipeRecord => is_endpoint pid (config x.2) = true)
                  (map_to_list (pipes w))).*1) pid.

Definition pipe_count (w : World) : nat := size (pipes w).
Definition config_of (w : World) (id : string) : option PipeConfig := config <$> pipes w !! id.

(** *** Runs of the manager and their trace *)

Context `{!MpscLaws string C} `{!MpscLaws Signal S}.

Inductive PipeOp : Type :=
| POpen (uuid uuid' now : string) (c : PipeConfig)
| PWrite (id : string) (pid : Z) (msg : string)
| PRead (id : string) (pid : Z)
| PClose (id : string) (pid : Z) (reason : string)
| PExit (pid : Z).

(** What enters and what leaves the queue of a pipe. *)
Inductive Event : Type :=
| Accepted (id : string) (pid : Z) (msg : string)
| Delivered (id : string) (pid : Z) (msg : string).

Definition queue_of (w : World) (id : string) : list string :=
  match pipes w !! id with Some rec => mpsc_queue (Pipe.chan (pipe rec)) | None => [] end.

Definition step (w : World) (o : PipeOp) : World * list Event :=
  match o with
  | POpen u u' now c => ((open w u u' now c).2, [])
  | PWrite id pid msg =>
      let w' := (write w id pid msg).2 in
      (w', Accepted id pid <$> drop (length (queue_of w id)) (queue_of w' id))
  | PRead id pid =>
      let '(r, w') := read w id pid in
      (w', match r with Ok (Message m) => [Delivered id pid m] | _ => [] end)
  | PClose id pid reason => ((close w id pid reason).2, [])
  | PExit pid => ((close_pipes_for_pid w pid).2, [])
  end.

Fixpoint run (w : World) (os : list PipeOp) : World * list Event :=
  match os with
  | [] => (w, [])
  | o :: os => let '(w1, e1) := step w o in let '(w2, e2) := run w1 os in (w2, e1 ++ e2)
  end.

Definition accepted (id : string) (e : Event) : list string :=
  match e with Accepted i _ m => if decide (i = id) then [m] else [] | _ => [] end.
Definition delivered (id : string) (e : Event) : list string :=
  match e with Delivered i _ m => if decide (i = id) then [m] else [] | _ => [] end.

(** Who may cause an event on a pipe with configuration [c]. *)
Definition authorised (id : string) (c : PipeConfig) (e : Event) : Prop :=
  match e with
  | Accepted i pid m => i = id -> can_write c pid = true /\ validate_encoding m (encoding c) = Ok tt
  | Delivered i pid m => i = id -> can_read c pid = true
  end.

Definition opens (o : PipeOp) : option string :=
  match o with POpen u _ _ _ => Some ("pipe-" +:+ u)%string | _ => None end.

(** *** Invariant of the records *)

Record rec_wf (rec : PipeRecord) : Prop := {
  rw_capacity : mpsc_capacity (Pipe.chan (pipe rec)) = buffer_tokens (config rec);
  rw_connected : mpsc_connected (Pipe.chan (pipe rec)) = true;
  rw_open : Pipe.closed (pipe rec) = false;
  rw_bounded : (length (mpsc_queue (Pipe.chan (pipe rec))) <= buffer_tokens (config rec))%nat
}.
Definition wf (w : World) : Prop := map_Forall (fun _ => rec_wf) (pipes w).

Definition rec_queue (rec : PipeRecord) : list string := mpsc_queue (Pipe.chan (pipe rec)).

(** The possible effects of the pipe's own write. *)
Lemma try_write_cases rec msg : rec_wf rec ->
  match Pipe.write (pipe rec) msg with
  | Ok p => rec_wf {| pipe := p; config := config rec |} /\
            rec_queue {| pipe := p; config := config rec |} = rec_queue rec ++ [msg]
  | Err (Full i) => i = Pipe.id (pipe rec) /\ length (rec_queue rec) = buffer_tokens (config rec)
  | Err (Closed _) => False
  end.
Proof.
  intros [Hcap Hcon Hop Hb]. unfold Pipe.write, rec_queue. rewrite Hop.
  pose proof (mpsc_try_send_law (Pipe.chan (pipe rec)) msg) as Hs.
  destruct (mpsc_try_send _ _) as [c|[]]; simpl.
  - destruct Hs as (_ & Hlt & Hq & Hc & Hco). split; [|done].
    split; simpl; try congruence. rewrite Hq, length_app. simpl. lia.
  - congruence.
  - split; [done|]. lia.
Qed.

Lemma write_policy_cases rec id msg : rec_wf rec ->
  match write_policy rec id msg with
  | Returns (Ok p) =>
      rec_wf {| pipe := p; config := config rec |} /\
      (rec_queue {| pipe := p; config := config rec |} = rec_queue rec ++ [msg] \/
       p = pipe rec /\ backpressure (config rec) = BackpressurePolicy.Drop /\
       length (rec_queue rec) = buffer_tokens (config rec))
  | Returns (Err e) => e = Io ("pipe '" +:+ id +:+ "' is full")%string /\
      backpressure (config rec) = BackpressurePolicy.Error /\
      length (rec_queue rec) = buffer_tokens (config rec)
  | Waits => backpressure (config rec) = BackpressurePolicy.Block /\
      length (rec_queue rec) = buffer_tokens (config rec)
  | Panics => False
  end.
Proof.
  intros Hwf. unfold write_policy. pose proof (try_write_cases rec msg Hwf) as Ht.
  destruct (backpressure (config rec)) eqn:Ebp.
  - destruct Hwf as [Hcap Hcon Hop Hb]. unfold Pipe.send_blocking. rewrite Hop.
    pose proof (mpsc_send_law (Pipe.chan (pipe rec)) msg) as Hs. unfold rec_queue in *.
    destruct (mpsc_send _ _) as [[c|]|]; simpl; [|congruence|split; [done|lia]].
    destruct Hs as (_ & Hlt & Hq & Hc & Hco). split; [|by left].
    split; simpl; try congruence. rewrite Hq, length_app. simpl. lia.
  - destruct (Pipe.write (pipe rec) msg) as [p|[i|i]]; simpl; [naive_solver|done|].
    destruct rec; simpl in *. naive_solver.
  - destruct (Pipe.write (pipe rec) msg) as [p|[i|i]]; simpl; naive_solver.
Qed.

(** [write] changes at most the queue of its pipe, by its message, for an
    authorised caller and a well-encoded message. *)
Lemma write_effect w id pid msg : wf w ->
  (write w id pid msg).2 = w \/
  exists rec rec', pipes w !! id = Some rec /\ rec_wf rec' /\ config rec' = config rec /\
    (write w id pid msg).2 = with_pipes w (<[id := rec']> (pipes w)) /\
    (rec_queue rec' = rec_queue rec \/
     rec_queue rec' = rec_queue rec ++ [msg] /\ can_write (config rec) pid = true /\
     validate_encoding msg (encoding (config rec)) = Ok tt).
Proof.
  intros Hwf. unfold write. destruct (pipes w !! id) as [rec|] eqn:E; [|by left].
  destruct (can_write _ _) eqn:Ecw; simpl; [|by left].
  destruct (validate_encoding _ _) as [[]|] eqn:Eve; [|by left].
  pose proof (write_policy_cases rec id msg (Hwf _ _ E)) as Hc.
  destruct (write_policy rec id msg) as [[p|e]| |]; try by left.
  right. destruct Hc as [Hr Hq]. eexists rec, _. split; [done|]. split; [exact Hr|].
  split; [done|]. split; [done|]. destruct Hq as [Hq|(-> & _)]; [by right | by left].
Qed.

Lemma read_effect w id pid : wf w ->
  match read w id pid with
  | (Ok (Message m), w') => exists rec rec', pipes w !! id = Some rec /\ rec_wf rec' /\
      config rec' = config rec /\ w' = with_pipes w (<[id := rec']> (pipes w)) /\
      rec_queue rec = m :: rec_queue rec' /\ can_read (config rec) pid = true
  | (_, w') => w' = w
  end.
Proof.
  intros Hwf. unfold read. destruct (pipes w !! id) as [rec|] eqn:E; [|done].
  destruct (can_read _ _) eqn:Ecr; simpl; [|done].
  destruct (Hwf _ _ E) as [Hcap Hcon Hop Hb]. unfold Pipe.is_closed, Pipe.read. rewrite Hop.
  pose proof (mpsc_recv_law (Pipe.chan (pipe rec))) as Hr.
  destruct (mpsc_recv _) as [[m c]|]; simpl; [|done]. destruct Hr as (Hq & Hc & Hco).
  exists rec, {| pipe := Pipe.with_chan (pipe rec) c; config := config rec |}.
  split; [done|]. split; [|repeat (split; [done|]); done]. split; simpl; try congruence. rewrite Hq in Hb. simpl in Hb. lia.
Qed.

Lemma close_pipes w id pid reason :
  pipes (close w id pid reason).2 = base.delete id (pipes w).
Proof.
  unfold close. destruct (pipes w !! id) as [rec|] eqn:E; [|by rewrite delete_id].
  by repeat case_match.
Qed.

(** Closing a list of pipes removes some of them and changes no other. *)
Lemma close_all_pipes w ids pid id :
  pipes (close_all w ids pid).2 !! id = None \/
  pipes (close_all w ids pid).2 !! id = pipes w !! id.
Proof.
  revert w. induction ids as [|i ids IH]; intros w; simpl; [by right|].
  pose proof (close_pipes w i pid "owner_exited") as Hc.
  destruct (close w i pid _) as [[r| |] w'] eqn:E; simpl in *.
  1: destruct (IH w') as [?|Heq]; [by left|]; rewrite Heq, Hc.
  2,3: rewrite Hc.
  all: destruct (decide (i = id)) as [->|]; [left; apply lookup_delete_eq | right; by apply lookup_delete_ne].
Qed.

Lemma open_pipes w u u' now c id : id <> ("pipe-" +:+ u)%string ->
  pipes (open w u u' now c).2 !! id = pipes w !! id.
Proof.
  intros Hne. unfold open. destruct (Pipe.new _ _ _); [|done].
  destruct (match vfs w with Some _ => _ | None => _ end); simpl; [|done].
  by rewrite lookup_insert_ne.
Qed.

Lemma wf_step w o : wf w -> wf (step w o).1.
Proof.
  intros Hwf. destruct o as [u u' now c|id pid msg|id pid|id pid reason|pid]; simpl.
  - unfold open, Pipe.new. pose proof (mpsc_channel_law (A := string) (C := C) (buffer_tokens c)) as Hc.
    destruct (mpsc_channel _) as [ch|]; simpl; [|done]. destruct Hc as (? & Hq & ? & ?).
    destruct (match vfs w with Some _ => _ | None => _ end); simpl; [|done].
    apply map_Forall_insert_2; [|done]. split; simpl; rewrite ?Hq; simpl; auto with lia.
  - destruct (write_effect w id pid msg Hwf) as [->|(rec & rec' & _ & Hr & _ & -> & _)]; [done|].
    by apply map_Forall_insert_2.
  - pose proof (read_effect w id pid Hwf) as Hr.
    destruct (read w id pid) as [[[m| |]|e] w']; simpl; try (by subst).
    destruct Hr as (rec & rec' & _ & Hrw & _ & -> & _). by apply map_Forall_insert_2.
  - unfold wf. rewrite close_pipes. by apply map_Forall_delete.
  - intros id rec Hrec. unfold close_pipes_for_pid in Hrec.
    destruct (close_all_pipes w ((filter (fun x : string * PipeRecord => is_endpoint pid (config x.2) = true)
                  (map_to_list (pipes w))).*1) pid id) as [Heq|Heq]; rewrite Heq in Hrec; [done|].
    by apply (Hwf id).
Qed.

(** *** A pipe as a bounded FIFO queue *)

(** [id] is gone, or its queue is what the trace says. *)
Definition follows (w : World) (id : string) (c : PipeConfig) (q0 : list string) (es : list Event) : Prop :=
  pipes w !! id = None \/
  exists rec, pipes w !! id = Some rec /\ config rec = c /\
    q0 ++ (es ≫= accepted id) = (es ≫= delivered id) ++ rec_queue rec /\ Forall (authorised id c) es.

Lemma follows_same w w' id c q0 es e :
  pipes w' !! id = None \/ pipes w' !! id = pipes w !! id ->
  e ≫= accepted id = [] -> e ≫= delivered id = [] -> Forall (authorised id c) e ->
  follows w id c q0 es -> follows w' id c q0 (es ++ e).
Proof.
  intros [Hn|Heq] Ha Hd He Hf; [by left|]. destruct Hf as [Hn|(rec & Hr & Hc & Hq & Hau)].
  - left. congruence.
  - right. exists rec. rewrite !bind_app, Ha, Hd, !app_nil_r. rewrite Heq.
    repeat split; try done. by apply Forall_app.
Qed.

Lemma follows_step w o id c q0 es :
  wf w -> opens o <> Some id -> follows w id c q0 es ->
  follows (step w o).1 id c q0 (es ++ (step w o).2).
Proof.
  intros Hwf Ho Hf. destruct o as [u u' now c'|i pid msg|i pid|i pid reason|pid]; simpl in *.
  - apply (follows_same w); try done. right. apply open_pipes. intros ->. by destruct Ho.
  - unfold queue_of.
    destruct (write_effect w i pid msg Hwf) as [->|(rec & rec' & Hi & Hwf' & Hcfg & -> & Hq)].
    + rewrite drop_all. apply (follows_same w); try done. by right.
    + simpl. rewrite Hi, lookup_insert_eq. fold (rec_queue rec) (rec_queue rec').
      destruct (decide (i = id)) as [->|Hne].
      * destruct Hf as [Hn|(r & Hr & Hc & Hfq & Hau)]; [congruence|]. simplify_eq.
        right. exists rec'. simpl. rewrite lookup_insert_eq. split; [done|]. split; [done|].
        destruct Hq as [->|(-> & Hcw & Hve)].
        -- rewrite drop_all. simpl. rewrite app_nil_r. done.
        -- rewrite drop_app_length. simpl. rewrite !bind_app. simpl.
           rewrite decide_True by done. rewrite !app_nil_r, !app_assoc, Hfq. split; [done|].
           apply Forall_app. split; [done|]. apply Forall_singleton. simpl. auto.
      * destruct Hq as [->|(-> & _)]; rewrite ?drop_all, ?drop_app_length; simpl;
          (apply (follows_same w); simpl; rewrite ?decide_False by done; try done;
            first [right; by rewrite lookup_insert_ne | repeat constructor; simpl; naive_solver]).
  - pose proof (read_effect w i pid Hwf) as Hr.
    destruct (read w i pid) as [[[m| |]|e] w']; simpl in *;
      try (subst w'; apply (follows_same w); try done; by right).
    destruct Hr as (rec & rec' & Hi & Hwf' & Hcfg & -> & Hq & Hcr).
    destruct (decide (i = id)) as [->|Hne].
    + destruct Hf as [Hn|(r & Hr & Hc & Hfq & Hau)]; [congruence|]. simplify_eq.
      right. exists rec'. simpl. rewrite lookup_insert_eq. split; [done|]. split; [done|].
      rewrite !bind_app. simpl. rewrite decide_True by done. simpl.
      rewrite app_nil_r, Hfq, Hq, <- app_assoc. split; [done|].
      apply Forall_app. split; [done|]. apply Forall_singleton. simpl. auto.
    + apply (follows_same w); simpl; rewrite ?decide_False by done; try done;
        first [right; by rewrite lookup_insert_ne | repeat constructor; simpl; naive_solver].
  - apply (follows_same w); try done. rewrite close_pipes.
    destruct (decide (i = id)) as [->|]; [left; apply lookup_delete_eq | right; by apply lookup_delete_ne].
  - apply (follows_same w); try done. apply close_all_pipes.
Qed.

Lemma follows_run w os id c q0 es :
  wf w -> Forall (fun o => opens o <> Some id) os -> follows w id c q0 es ->
  wf (run w os).1 /\ follows (run w os).1 id c q0 (es ++ (run w os).2).
Proof.
  revert w es. induction os as [|o os IH]; intros w es Hwf Hos Hf; simpl.
  - by rewrite app_nil_r.
  - apply Forall_cons in Hos as [Ho Hos].
    pose proof (wf_step w o Hwf) as Hwf1. pose proof (follows_step w o id c q0 es Hwf Ho Hf) as Hf1.
    destruct (step w o) as [w1 e1]. simpl in *. specialize (IH w1 (es ++ e1) Hwf1 Hos Hf1).
    destruct (run w1 os) as [w2 e2]. simpl in *. by rewrite app_assoc.
Qed.

(** Before any pipe is opened. *)
Definition start (v : option (VfsRouter D)) (ch : option (SignalChannels.SignalChannelRegistry S)) : World :=
  {| pipes := ∅; vfs := v; signal_channels := ch |}.

Lemma pipes_wf_run w os : wf w -> wf (run w os).1.
Proof.
  revert w. induction os as [|o os IH]; intros w Hwf; simpl; [done|].
  pose proof (wf_step w o Hwf) as Hwf1. destruct (step w o) as [w1 e1]. simpl in *.
  specialize (IH w1 Hwf1). by destruct (run w1 os).
Qed.


(** *** Closing *)

Lemma write_absent w id pid msg : pipes w !! id = None ->
  write w id pid msg = (Returns (Err (pipe_not_found id)), w) /\
  read w id pid = (Err (pipe_not_found id), w).
Proof. intros H. unfold write, read. by rewrite H. Qed.

(** The partner's channel has room: the signal is queued there. *)
Lemma close_notifies w id pid reason rec p ch tx c :
  pipes w !! id = Some rec -> partner (config rec) pid = Some p -> signal_channels w = Some ch ->
  SignalChannels.inner ch !! p = Some tx -> SignalChannels.heap ch !! tx = Some c ->
  mpsc_connected c = true -> (length (mpsc_queue c) < mpsc_capacity c)%nat ->
  exists ch', close w id pid reason =
      (Returns (Ok tt), {| pipes := base.delete id (pipes w); vfs := vfs w; signal_channels := Some ch' |}) /\
    SignalChannels.queue_of ch' tx = SignalChannels.queue_of ch tx ++ [sigpipe p id reason].
Proof.
  intros Hid Hp Hch Hin Hh Hcon Hlt. unfold close. rewrite Hid. simpl. rewrite Hch, Hp.
  destruct (SignalChannels.send ch p (sigpipe p id reason)) as [[ok ch']|] eqn:E.
  - exists ch'. split; [done|]. pose proof (SignalChannels.send_outcome _ _ _ _ _ E) as [_ Ho].
    destruct ok; [destruct Ho as (tx' & ? & ? & _); congruence|]. exfalso. revert E.
    unfold SignalChannels.send. rewrite Hin, Hh. pose proof (mpsc_send_law c (sigpipe p id reason)) as Hs.
    destruct (mpsc_send c _) as [[|]|]; congruence.
  - exfalso. revert E. unfold SignalChannels.send. rewrite Hin, Hh.
    pose proof (mpsc_send_law c (sigpipe p id reason)) as Hs.
    destruct (mpsc_send c _) as [[|]|]; naive_solver lia.
Qed.

Lemma close_all_returns w ids pid w' :
  close_all w ids pid = (Returns tt, w') ->
  forall id, pipes w' !! id = if decide (id ∈ ids) then None else pipes w !! id.
Proof.
  revert w. induction ids as [|i ids IH]; intros w H id; simpl in H.
  - by simplify_eq.
  - pose proof (close_pipes w i pid "owner_exited") as Hc.
    destruct (close w i pid _) as [[r| |] w1] eqn:E; simplify_eq. simpl in Hc.
    rewrite (IH _ H id), Hc. destruct (decide (id ∈ ids)), (decide (id ∈ i :: ids)); try set_solver.
    + apply lookup_delete_None. left. set_solver.
    + apply lookup_delete_ne. set_solver.
Qed.

(** [close] removes the pipe for every caller, so later reads and writes find no
    pipe; a caller that is not an endpoint closes it just as well, and then nobody is
    signalled, while an endpoint's partner with room in its channel gets SIGPIPE.  When
    the cleanup of an exited process returns, no pipe has that process as an endpoint
    and every other pipe is as before. *)
Theorem pipe_close_and_exit (w : World) (id : string) (pid : Z) (reason : string) (rec : PipeRecord) :
  pipes w !! id = Some rec ->
  (let '(r, w') := close w id pid reason in
   pipes w' = base.delete id (pipes w) /\
   (forall caller msg, (write w' id caller msg).1 = Returns (Err (pipe_not_found id)) /\
                       (read w' id caller).1 = Err (pipe_not_found id)) /\
   (is_endpoint pid (config rec) = false ->
      r = Returns (Ok tt) /\ signal_channels w' = signal_channels w) /\
   (forall p ch tx c, partner (config rec) pid = Some p -> signal_channels w = Some ch ->
      SignalChannels.inner ch !! p = Some tx -> SignalChannels.heap ch !! tx = Some c ->
      mpsc_connected c = true -> (length (mpsc_queue c) < mpsc_capacity c)%nat ->
      r = Returns (Ok tt) /\ exists ch', signal_channels w' = Some ch' /\
        SignalChannels.queue_of ch' tx = SignalChannels.queue_of ch tx ++ [sigpipe p id reason])) /\
  (forall p w', close_pipes_for_pid w p = (Returns tt, w') -> forall i r,
     pipes w' !! i = Some r <-> pipes w !! i = Some r /\ is_endpoint p (config r) = false).
Proof.
  intros Hid. split.
  - pose proof (close_pipes w id pid reason) as Hp. pose proof (close_notifies w id pid reason rec) as Hn.
    destruct (close w id pid reason) as [r w'] eqn:E. simpl in Hp. split; [done|]. split; [|split].
    + intros caller msg. destruct (write_absent w' id caller msg) as [-> ->]; [|done].
      rewrite Hp. apply lookup_delete_eq.
    + unfold close, partner, is_endpoint in *. rewrite Hid in E. intros [H1 H2]%orb_false_iff.
      rewrite Z.eqb_sym in H1. rewrite Z.eqb_sym in H2. simpl in E. rewrite H1, H2 in E.
      destruct (signal_channels w) eqn:Ech; simplify_eq; simpl; done.
    + intros p ch tx c H1 H2 H3 H4 H5 H6.
      destruct (Hn p ch tx c) as (ch' & Heq & Hq); [done..|]. simplify_eq. simpl. eauto.
  - intros p w' Hc i r. unfold close_pipes_for_pid in Hc. rewrite (close_all_returns _ _ _ _ Hc i).
    destruct (decide (i ∈ _)) as [Hin|Hnin].
    + apply list_elem_of_fmap in Hin as [[i' r'] [-> [He Hi]%list_elem_of_filter]].
      apply elem_of_map_to_list in Hi. simpl in *. split; [done|]. intros [? ?]. congruence.
    + split; [|tauto]. intros Hi. split; [done|]. apply not_true_iff_false. intros He. apply Hnin.
      apply list_elem_of_fmap. exists (i, r). split; [done|].
      apply list_elem_of_filter. split; [done|]. by apply elem_of_map_to_list.
Qed.

End Manager.
End PipeManager.

Import PipeManager QueueMpsc.

Definition no_error (s : string) : option string := None.
Definition pipe_start : World (C := queue string) (S := queue Signal) (D := unit) := start None None.
Definition small_pipe : PipeConfig := {|
  source_pid := 1; target_pid := 2; direction := PipeDirection.Out; buffer_tokens := 1;
  backpressure := BackpressurePolicy.Drop; encoding := PipeEncoding.Text
|}.

#[local] Instance no_disk : Disk unit := {|
  d_create_dir_all d _ := Ok d; d_write d _ _ := Ok d; d_read _ _ := Err "none"%string;
  d_remove_file d _ := Ok d; d_exists _ _ := false; d_read_dir _ _ := Ok []
|}.


Definition pipe_listeners : SignalChannels.SignalChannelRegistry (queue Signal) :=
  {| SignalChannels.inner := {[2 := 0%nat]};
     SignalChannels.heap := {[0%nat := {| q_items := []; q_cap := 4; q_connected := true |}]} |}.

Lemma pipe_close_and_exit_witness :
  let w := (run no_error no_error (D := unit) (C := queue string) (start None (Some pipe_listeners))
              [POpen "a" "b" "now" small_pipe]%string).1 in
  exists ch, signal_channels (close w "pipe-a" 1 "done").2 = Some ch /\
    SignalChannels.queue_of ch 0 = [sigpipe 2 "pipe-a" "done"].
Proof.
  intros w.
  destruct (pipe_close_and_exit no_error no_error w "pipe-a" 1 "done"
    (default {| pipe := {| Pipe.id := ""; Pipe.owner_pid := 0;
                           Pipe.chan := {| q_items := []; q_cap := 1; q_connected := true |};
                           Pipe.closed := false |}; config := small_pipe |}%string
       (pipes w !! "pipe-a"%string))) as [H _]; [reflexivity|].
  destruct (close w "pipe-a" 1 "done") as [r w'].
  destruct H as (_ & _ & _ & H).
  destruct (H 2 pipe_listeners 0%nat {| q_items := []; q_cap := 4; q_connected := true |})
    as (_ & ch & H1 & H2); [reflexivity..| simpl; lia |].
  exists ch. split; [exact H1 | exact H2].
Defined.

(** The manifest of a pipe has every key in the first column: [spec] and
    [metadata] are empty and their fields are at the top level. *)
Example manifest_is_flat :
  Forall (fun l => starts_with " " l = false) (manifest_lines "now" "pipe-a" small_pipe).
Proof. repeat constructor. Qed.
