(* ===== verification/Router.v ===== *)
(** * Router: service registry, capability check, concurrency limit and dispatch

    Models [src/crates/avix-core/src/router/] ([registry.rs], [capability.rs],
    [concurrency.rs], [caller.rs], [dispatcher.rs], [ipc_server.rs]) and the
    messages of [ipc/message.rs].  A dispatched call is three steps, the checks
    ([screen]), the guards and the endpoint ([launch]) and the client's answer
    ([finish]), so that calls of several agents and changes of the registries
    interleave; the IPC client is an argument. *)

From S2P Require Import Prelude Types Json ToolRegistry Process.

Open Scope Z_scope.

(** ** [ipc/message.rs] *)

Record JsonRpcRequest : Type := { rq_jsonrpc : string; rq_id : string; method : string; params : json }.
Record JsonRpcError : Type := { code : Z; message : string; data : option json }.
Record JsonRpcResponse : Type := {
  rs_jsonrpc : string; rs_id : string; rs_result : option json; rs_error : option JsonRpcError
}.

Definition rpc_ok (id : string) (r : json) : JsonRpcResponse :=
  {| rs_jsonrpc := "2.0"; rs_id := id; rs_result := Some r; rs_error := None |}.
Definition rpc_err (id : string) (c : Z) (m : string) (d : option json) : JsonRpcResponse :=
  {| rs_jsonrpc := "2.0"; rs_id := id; rs_result := None; rs_error := Some {| code := c; message := m; data := d |} |}.

Record JsonRpcNotification : Type := { nt_jsonrpc : string; nt_method : string; nt_params : json }.
Inductive IpcMessage : Type := Request (r : JsonRpcRequest) | Notification (n : JsonRpcNotification).

Module JsonRpcErrorCode.
Inductive t : Type := Eauth | Eperm | Enoent | Ebusy | Etimeout | Eused | Eprovider | Eprovperm.
Definition code (c : t) : Z :=
  match c with
  | Eauth => -32001 | Eperm => -32002 | Enoent => -32003 | Ebusy => -32004 | Etimeout => -32005
  | Eused => -32009 | Eprovider => -32010 | Eprovperm => -32018
  end.
End JsonRpcErrorCode.

(** ** [registry.rs] *)

Module ServiceRegistry.
Record t : Type := {
  services : gmap string string;
  tools : gmap string string;
  caller_scoped : gset string
}.
Definition new : t := {| services := ∅; tools := ∅; caller_scoped := ∅ |}.
Definition register (r : t) (name endpoint : string) : t :=
  {| services := <[name := endpoint]> (services r); tools := tools r; caller_scoped := caller_scoped r |}.
Definition register_with_meta (r : t) (name endpoint : string) (scoped : bool) : t :=
  {| services := <[name := endpoint]> (services r); tools := tools r;
     caller_scoped := if scoped then {[name]} ∪ caller_scoped r else caller_scoped r |}.
Definition deregister (r : t) (name : string) : t :=
  {| services := delete name (services r); tools := tools r;
     caller_scoped := caller_scoped r ∖ {[name]} |}.
Definition is_caller_scoped (r : t) (name : string) : bool := bool_decide (name ∈ caller_scoped r).
Definition lookup (r : t) (name : string) : option string := services r !! name.
Definition register_tool (r : t) (tool service : string) : t :=
  {| services := services r; tools := <[tool := service]> (tools r); caller_scoped := caller_scoped r |}.
Definition service_for_tool (r : t) (tool : string) : option string := tools r !! tool.
Definition tool_count (r : t) : nat := size (tools r).

(** A deregistered service is neither found nor scoped, until it registers again;
    its tools stay mapped to it. *)
Lemma deregister_spec r name n :
  lookup (deregister r name) n = (if decide (n = name) then None else lookup r n) /\
  is_caller_scoped (deregister r name) name = false /\
  service_for_tool (deregister r name) n = service_for_tool r n.
Proof.
  unfold lookup, is_caller_scoped. simpl. split; [|split; [|done]].
  - case_decide as H; [subst; apply lookup_delete_eq | by apply lookup_delete_ne].
  - apply bool_decide_eq_false. set_solver.
Qed.

(** Registering again without the flag keeps an earlier [caller_scoped]. *)
Lemma register_keeps_scoped r name e1 e2 :
  is_caller_scoped (register_with_meta (register_with_meta r name e1 true) name e2 false) name = true.
Proof. apply bool_decide_eq_true. simpl. set_solver. Qed.
End ServiceRegistry.

(** ** [capability.rs] *)

Definition ALWAYS_PRESENT : list string :=
  ["cap/request-tool"; "cap/escalate"; "cap/list"; "job/watch"]%string.

Definition check_capability (tool : string) (caller : Z) (pt : gmap Z ProcessEntry) : result AvixError unit :=
  if list_contains tool ALWAYS_PRESENT then Ok tt
  else
    e ← ok_or (CapabilityDenied ("no process entry for pid " +:+ Pid.to_string caller)%string) (Process.get pt caller);
    if list_contains tool (granted_tools e) then Ok tt
    else Err (CapabilityDenied ("tool '" +:+ tool +:+ "' not granted to pid " +:+ Pid.to_string caller)%string).

(** What the capability check promises: an always-present tool or one granted to the process. *)
Definition capable (tool : string) (caller : Z) (pt : gmap Z ProcessEntry) : Prop :=
  tool ∈ ALWAYS_PRESENT \/ exists e, pt !! caller = Some e /\ tool ∈ granted_tools e.

Lemma list_contains_spec s l : list_contains s l = true <-> s ∈ l.
Proof. apply bool_decide_eq_true. Qed.

Lemma check_capability_Ok tool caller pt :
  check_capability tool caller pt = Ok tt <-> capable tool caller pt.
Proof.
  unfold check_capability, capable, Process.get. pose proof (list_contains_spec tool ALWAYS_PRESENT) as Ha.
  destruct (list_contains tool ALWAYS_PRESENT); [naive_solver|].
  destruct (pt !! caller) as [e|] eqn:E; simpl; [|naive_solver].
  pose proof (list_contains_spec tool (granted_tools e)) as Hg.
  destruct (list_contains tool (granted_tools e)); naive_solver.
Qed.

(** ** [concurrency.rs] *)

Module ConcurrencyLimiter.
(** Free permits of the semaphore and the [active] counter. *)
Record t : Type := { permits : nat; active : Z }.
Definition new (max : nat) : t := {| permits := max; active := 0 |}.
Definition try_acquire (l : t) : option t :=
  match permits l with
  | O => None
  | S n => Some {| permits := n; active := active l + 1 |}
  end.
(** Dropping the guard: the counter is decremented and the permit returned. *)
Definition release (l : t) : t := {| permits := S (permits l); active := active l - 1 |}.
Definition active_count (l : t) : Z := active l.
End ConcurrencyLimiter.

(** ** [caller.rs] *)

Record CallerInfo : Type := { ci_pid : Z; ci_user : string; ci_token : string }.
Definition caller_json (c : CallerInfo) : json :=
  JObj [("pid", JInt (ci_pid c)); ("user", JStr (ci_user c)); ("token", JStr (ci_token c))]%string.
Definition inject_into (c : CallerInfo) (p : json) : json := jobj_insert p "_caller" (caller_json c).

(** ** [dispatcher.rs] *)

Definition ENOTFOUND_METHOD : Z := -32601.
Definition EPERM : Z := -32002.
Definition EUNAVAIL : Z := -32005.
Definition ETIMEOUT : Z := -32007.
Definition EBUSY : Z := -32008.
Definition DEFAULT_MAX_CONCURRENT : nat := 20.

Record RouterDispatcher : Type := {
  service_registry : ServiceRegistry.t;
  tool_registry : ToolRegistry;
  process_table : gmap Z ProcessEntry;
  concurrency : ConcurrencyLimiter.t
}.

Definition dispatcher_new sr tr pt : RouterDispatcher := {|
  service_registry := sr; tool_registry := tr; process_table := pt;
  concurrency := ConcurrencyLimiter.new DEFAULT_MAX_CONCURRENT
|}.
Definition with_max_concurrent (d : RouterDispatcher) (n : nat) : RouterDispatcher := {|
  service_registry := service_registry d; tool_registry := tool_registry d;
  process_table := process_table d; concurrency := ConcurrencyLimiter.new n
|}.

(** A request on its way to [endpoint], with the two guards it holds. *)
Record InFlight : Type := { if_guard : nat; if_endpoint : string; if_request : JsonRpcRequest }.

Definition endpoint_for (sr : ServiceRegistry.t) (id m : string) : result JsonRpcResponse string :=
  match ServiceRegistry.service_for_tool sr m with
  | Some svc =>
      match ServiceRegistry.lookup sr svc with
      | Some ep => Ok ep
      | None => Err (rpc_err id EUNAVAIL ("endpoint for service '" +:+ svc +:+ "' not registered")%string None)
      end
  | None => Err (rpc_err id ENOTFOUND_METHOD ("no service registered for tool '" +:+ m +:+ "'")%string None)
  end.

Definition scoped_params (sr : ServiceRegistry.t) (owner : string) (c : CallerInfo) (p : json) : json :=
  if ServiceRegistry.is_caller_scoped sr owner then inject_into c p else p.

Definition hold (d : RouterDispatcher) (tr : ToolRegistry) (cl : ConcurrencyLimiter.t) : RouterDispatcher :=
  {| service_registry := service_registry d; tool_registry := tr;
     process_table := process_table d; concurrency := cl |}.

(** Steps 1 to 3 of [dispatch]: the checks, without a guard. *)
Record Screened : Type := {
  sc_owner : string; sc_request : JsonRpcRequest; sc_caller : CallerInfo
}.
Definition screen (d : RouterDispatcher) (rq : JsonRpcRequest) (c : CallerInfo) : result JsonRpcResponse Screened :=
  let id := rq_id rq in
  match ToolRegistry.lookup (tool_registry d) (method rq) with
  | Err _ => Err (rpc_err id ENOTFOUND_METHOD ("tool '" +:+ method rq +:+ "' not found")%string None)
  | Ok e =>
      if decide (te_state e = Tool.Unavailable) then Err (rpc_err id EUNAVAIL "tool is unavailable" None)
      else match check_capability (method rq) (ci_pid c) (process_table d) with
           | Err e => Err (rpc_err id EPERM (avix_error_to_string e) None)
           | Ok _ => Ok {| sc_owner := te_owner e; sc_request := rq; sc_caller := c |}
           end
  end.

(** Steps 4 to 7: the two guards, the endpoint, the caller's identity; an early
    return drops the guards it took. *)
Definition launch (d : RouterDispatcher) (s : Screened) : result JsonRpcResponse InFlight * RouterDispatcher :=
  let rq := sc_request s in
  let id := rq_id rq in
  match acquire (tool_registry d) (method rq) with
  | Err e => (Err (rpc_err id EUNAVAIL (avix_error_to_string e) None), d)
  | Ok (guard, tr) =>
      match ConcurrencyLimiter.try_acquire (concurrency d) with
      | None => (Err (rpc_err id EBUSY "dispatcher at max capacity" None),
                 hold d (release tr guard) (concurrency d))
      | Some cl =>
          match endpoint_for (service_registry d) id (method rq) with
          | Err r => (Err r, hold d (release tr guard) (ConcurrencyLimiter.release cl))
          | Ok ep =>
              (Ok {| if_guard := guard; if_endpoint := ep;
                     if_request := {| rq_jsonrpc := rq_jsonrpc rq; rq_id := id; method := method rq;
                       params := scoped_params (service_registry d) (sc_owner s) (sc_caller s) (params rq) |} |},
               hold d tr cl)
          end
      end
  end.

(** Step 8: what the client returned, with both guards dropped. *)
Definition finish (d : RouterDispatcher) (f : InFlight) (reply : result AvixError JsonRpcResponse)
    : JsonRpcResponse * RouterDispatcher :=
  (match reply with
   | Ok r => r
   | Err IpcTimeout => rpc_err (rq_id (if_request f)) ETIMEOUT "call to service timed out" None
   | Err e => rpc_err (rq_id (if_request f)) EUNAVAIL (avix_error_to_string e) None
   end,
   hold d (release (tool_registry d) (if_guard f)) (ConcurrencyLimiter.release (concurrency d))).

(** The whole handler when no other call runs in between; [call] is the IPC client. *)
Definition dispatch (call : string -> JsonRpcRequest -> result AvixError JsonRpcResponse)
    (d : RouterDispatcher) (rq : JsonRpcRequest) (pid : Z) (user token : string)
    : JsonRpcResponse * RouterDispatcher :=
  match screen d rq {| ci_pid := pid; ci_user := user; ci_token := token |} with
  | Err r => (r, d)
  | Ok s =>
      match launch d s with
      | (Err r, d') => (r, d')
      | (Ok f, d') => finish d' f (call (if_endpoint f) (if_request f))
      end
  end.

(** ** [ipc_server.rs] *)

Definition strip_caller (p : json) : json :=
  jobj_remove (jobj_remove (jobj_remove p "_caller_pid") "_caller_user") "_caller_token".

Definition handle_message (call : string -> JsonRpcRequest -> result AvixError JsonRpcResponse)
    (d : RouterDispatcher) (m : IpcMessage) : option JsonRpcResponse * RouterDispatcher :=
  match m with
  | Request rq =>
      let pid := default 0 (jget (params rq) "_caller_pid" ≫= as_u64) in
      let user := default "unknown"%string (jget (params rq) "_caller_user" ≫= as_str) in
      let token := default ""%string (jget (params rq) "_caller_token" ≫= as_str) in
      let rq := {| rq_jsonrpc := rq_jsonrpc rq; rq_id := rq_id rq; method := method rq;
                   params := strip_caller (params rq) |} in
      let '(r, d') := dispatch call d rq pid user token in (Some r, d')
  | Notification _ => (None, d)
  end.

(** ** Guards *)

Lemma acquire_out r n g r' :
  acquire r n = Ok (g, r') ->
  inner r' = inner r /\ next_sem r' = next_sem r /\ semaphore <$> inner r !! n = Some g /\
  forall s, out r' s = if decide (s = g) then S (out r g) else out r s.
Proof.
  unfold acquire. destruct (inner r !! n) as [rec|] eqn:E; simpl; [|done].
  intros [= <- <-]. repeat (split; [done|]). intros s. unfold out. simpl. case_decide as H.
  - subst. by rewrite lookup_insert_eq.
  - by rewrite lookup_insert_ne.
Qed.

Lemma release_out r g :
  inner (release r g) = inner r /\ next_sem (release r g) = next_sem r /\
  forall s, out (release r g) s = if decide (s = g) then pred (out r g) else out r s.
Proof.
  repeat (split; [done|]). intros s. unfold out, release. simpl. case_decide as H.
  - subst. by rewrite lookup_insert_eq.
  - by rewrite lookup_insert_ne.
Qed.

Lemma release_acquire r n g r' :
  acquire r n = Ok (g, r') -> forall s, out (release r' g) s = out r s.
Proof.
  intros (_ & _ & _ & Ho)%acquire_out s. destruct (release_out r' g) as (_ & _ & ->).
  rewrite !Ho. repeat case_decide; subst; simpl; congruence.
Qed.

Lemma limiter_release l l' :
  ConcurrencyLimiter.try_acquire l = Some l' -> ConcurrencyLimiter.release l' = l.
Proof.
  destruct l as [[|n] a]; [done|]. intros [= <-]. unfold ConcurrencyLimiter.release. simpl.
  f_equal. lia.
Qed.

(** ** What a dispatch does *)

(** The dispatcher's tables are the same and every permit is back. *)
Definition settled (d d' : RouterDispatcher) : Prop :=
  service_registry d' = service_registry d /\ process_table d' = process_table d /\
  concurrency d' = concurrency d /\ inner (tool_registry d') = inner (tool_registry d) /\
  forall s, out (tool_registry d') s = out (tool_registry d) s.

Definition tool_ready (d : RouterDispatcher) (m owner : string) : Prop :=
  exists rec, inner (tool_registry d) !! m = Some rec /\ te_state (entry rec) <> Tool.Unavailable /\
    te_owner (entry rec) = owner.

(** The conditions under which a call reaches the service at [ep]. *)
Definition serves (d : RouterDispatcher) (rq : JsonRpcRequest) (pid : Z) (owner ep : string) : Prop :=
  tool_ready d (method rq) owner /\ capable (method rq) pid (process_table d) /\
  ConcurrencyLimiter.permits (concurrency d) <> 0%nat /\
  exists svc, ServiceRegistry.tools (service_registry d) !! method rq = Some svc /\
    ServiceRegistry.services (service_registry d) !! svc = Some ep.

(** The response for the client's answer. *)
Definition answer (id : string) (reply : result AvixError JsonRpcResponse) : JsonRpcResponse :=
  match reply with
  | Ok r => r
  | Err IpcTimeout => rpc_err id ETIMEOUT "call to service timed out" None
  | Err e => rpc_err id EUNAVAIL (avix_error_to_string e) None
  end.

Lemma screen_cases d rq c :
  match screen d rq c with
  | Ok s => s = {| sc_owner := sc_owner s; sc_request := rq; sc_caller := c |} /\
      tool_ready d (method rq) (sc_owner s) /\ capable (method rq) (ci_pid c) (process_table d)
  | Err r => exists k m, r = rpc_err (rq_id rq) k m None /\
      ((k = ENOTFOUND_METHOD \/ k = EUNAVAIL) /\ (forall o, ~ tool_ready d (method rq) o) \/
       k = EPERM /\ (exists o, tool_ready d (method rq) o) /\
       ~ capable (method rq) (ci_pid c) (process_table d))
  end.
Proof.
  unfold screen, ToolRegistry.lookup, tool_ready.
  destruct (inner (tool_registry d) !! method rq) as [rec|] eqn:E; simpl.
  - destruct (decide (te_state (entry rec) = Tool.Unavailable)) as [Hu|Hu].
    + eexists _, _. split; [done|]. left. split; [tauto|]. intros o (r & [= <-] & ? & _). done.
    + pose proof (check_capability_Ok (method rq) (ci_pid c) (process_table d)) as Hc.
      destruct (check_capability _ _ _) as [[]|e]; simpl.
      * split; [done|]. split; [eauto | by apply Hc].
      * eexists _, _. split; [done|]. right. split; [done|]. split; [eauto|]. intros H%Hc. done.
  - eexists _, _. split; [done|]. left. split; [tauto|]. intros o (r & ? & _). done.
Qed.

Lemma endpoint_cases sr id m :
  match endpoint_for sr id m with
  | Ok ep => exists svc, ServiceRegistry.tools sr !! m = Some svc /\ ServiceRegistry.services sr !! svc = Some ep
  | Err r => (exists k e, r = rpc_err id k e None /\ (k = ENOTFOUND_METHOD \/ k = EUNAVAIL)) /\
      forall svc ep, ServiceRegistry.tools sr !! m = Some svc -> ServiceRegistry.services sr !! svc <> Some ep
  end.
Proof.
  unfold endpoint_for, ServiceRegistry.service_for_tool, ServiceRegistry.lookup.
  destruct (ServiceRegistry.tools sr !! m) as [svc|] eqn:E.
  - destruct (ServiceRegistry.services sr !! svc) as [ep|] eqn:E'; [eauto|].
    split; [eexists _, _; split; [done|]; tauto|]. intros ? ? [= <-]. congruence.
  - split; [eexists _, _; split; [done|]; tauto|]. done.
Qed.


(** ** Concurrent calls

    The steps of several dispatches, of the registries' other operations and of
    draining removals, in any interleaving.  A draining removal marks its tools, waits
    for one tool after the other to have all its permits back, then removes. *)

Module Concurrent.

Record Removal : Type := { rm_todo : list string; rm_names : list string; rm_reason : string }.

Record Sys : Type := {
  disp : RouterDispatcher;
  screened : list Screened;
  flights : list InFlight;
  removals : list Removal
}.

Definition with_tools (d : RouterDispatcher) (tr : ToolRegistry) : RouterDispatcher := hold d tr (concurrency d).

Inductive step : Sys -> Sys -> Prop :=
| step_screen d sc fs rm rq c s :
    screen d rq c = Ok s -> step (Build_Sys d sc fs rm) (Build_Sys d (s :: sc) fs rm)
| step_launch d d' sc1 s sc2 fs rm f :
    launch d s = (Ok f, d') ->
    step (Build_Sys d (sc1 ++ s :: sc2) fs rm) (Build_Sys d' (sc1 ++ sc2) (f :: fs) rm)
| step_refuse d d' sc1 s sc2 fs rm r :
    launch d s = (Err r, d') ->
    step (Build_Sys d (sc1 ++ s :: sc2) fs rm) (Build_Sys d' (sc1 ++ sc2) fs rm)
| step_finish d sc fs1 f fs2 rm reply :
    step (Build_Sys d sc (fs1 ++ f :: fs2) rm) (Build_Sys (finish d f reply).2 sc (fs1 ++ fs2) rm)
| step_add d sc fs rm e :
    step (Build_Sys d sc fs rm) (Build_Sys (with_tools d (add_one (tool_registry d) e)) sc fs rm)
| step_set_state d sc fs rm n st tr :
    ToolRegistry.set_state (tool_registry d) n st = Ok tr ->
    step (Build_Sys d sc fs rm) (Build_Sys (with_tools d tr) sc fs rm)
| step_mark d sc fs rm names reason :
    step (Build_Sys d sc fs rm)
      (Build_Sys (with_tools d (mark_unavailable (tool_registry d) names)) sc fs
         (Build_Removal names names reason :: rm))
| step_drained d sc fs rm1 n ns names reason rm2 :
    drained (tool_registry d) n = true ->
    step (Build_Sys d sc fs (rm1 ++ Build_Removal (n :: ns) names reason :: rm2))
      (Build_Sys d sc fs (rm1 ++ Build_Removal ns names reason :: rm2))
| step_remove d sc fs rm1 names reason rm2 :
    step (Build_Sys d sc fs (rm1 ++ Build_Removal [] names reason :: rm2))
      (Build_Sys (with_tools d (finish_remove (tool_registry d) names reason).1) sc fs (rm1 ++ rm2))
| step_processes d sc fs rm pt :
    step (Build_Sys d sc fs rm)
      (Build_Sys {| service_registry := service_registry d; tool_registry := tool_registry d;
                    process_table := pt; concurrency := concurrency d |} sc fs rm)
| step_services d sc fs rm sr :
    step (Build_Sys d sc fs rm)
      (Build_Sys {| service_registry := sr; tool_registry := tool_registry d;
                    process_table := process_table d; concurrency := concurrency d |} sc fs rm).

(** A dispatcher with [n] slots, empty tool registry and nothing under way. *)
Definition initial (n : nat) : Sys :=
  {| disp := with_max_concurrent (dispatcher_new ServiceRegistry.new empty_registry ∅) n;
     screened := []; flights := []; removals := [] |}.

Definition reachable (n : nat) (s : Sys) : Prop := rtc step (initial n) s.

Definition holding (sem : nat) (fs : list InFlight) : nat :=
  length (filter (fun f => if_guard f = sem) fs).

Record inv (n : nat) (s : Sys) : Prop := {
  inv_permits : (ConcurrencyLimiter.permits (concurrency (disp s)) + length (flights s))%nat = n;
  inv_active : ConcurrencyLimiter.active (concurrency (disp s)) = Z.of_nat (length (flights s));
  inv_out sem : out (tool_registry (disp s)) sem = holding sem (flights s);
  inv_fresh sem : (next_sem (tool_registry (disp s)) <= sem)%nat -> holding sem (flights s) = 0%nat;
  inv_records nm rec : inner (tool_registry (disp s)) !! nm = Some rec ->
    (semaphore rec < next_sem (tool_registry (disp s)))%nat
}.

(** Changing entries but neither semaphores nor permits. *)
Lemma inv_tools n d sc fs rm sc' rm' tr :
  inv n (Build_Sys d sc fs rm) ->
  (forall s, out tr s = out (tool_registry d) s) -> next_sem tr = next_sem (tool_registry d) ->
  (forall nm rec, inner tr !! nm = Some rec ->
     exists rec', inner (tool_registry d) !! nm = Some rec' /\ semaphore rec = semaphore rec') ->
  inv n (Build_Sys (with_tools d tr) sc' fs rm').
Proof.
  intros [Hp Ha Ho Hf Hr] Ho' Hn Hi. split; simpl in *; try done.
  - intros sem. by rewrite Ho'.
  - intros sem. rewrite Hn. apply Hf.
  - intros nm rec (rec' & H1 & ->)%Hi. rewrite Hn. eauto.
Qed.

Lemma mark_inner r names nm rec :
  inner (mark_unavailable r names) !! nm = Some rec ->
  exists rec', inner r !! nm = Some rec' /\ semaphore rec = semaphore rec'.
Proof.
  unfold mark_unavailable. simpl. generalize (inner r). induction names as [|n ns IH]; simpl; [eauto|].
  intros m (rec' & H1 & H2)%IH. apply lookup_alter_Some in H1 as [(<- & r0 & Hr & ->)|[_ ?]]; eauto.
Qed.

Lemma remove_names_inner m names nm rec :
  (remove_names m names).1 !! nm = Some rec -> m !! nm = Some rec.
Proof.
  revert m. induction names as [|n ns IH]; intros m; simpl; [done|].
  specialize (IH (delete n m)). destruct (remove_names (delete n m) ns). simpl in *.
  intros H%IH. by apply lookup_delete_Some in H as [_ ?].
Qed.

Lemma holding_cons sem f fs :
  holding sem (f :: fs) = if decide (if_guard f = sem) then S (holding sem fs) else holding sem fs.
Proof. unfold holding. rewrite filter_cons. by case_decide. Qed.
Lemma holding_middle sem fs1 f fs2 :
  holding sem (fs1 ++ f :: fs2) = holding sem (f :: fs1 ++ fs2).
Proof. unfold holding. by rewrite (Permutation_middle fs1 fs2 f). Qed.

Lemma launch_Err_settled d s r d' :
  launch d s = (Err r, d') -> settled d d' /\ next_sem (tool_registry d') = next_sem (tool_registry d).
Proof.
  unfold launch. destruct (acquire _ _) as [[g tr]|e] eqn:Ea; [|intros [= <- <-]; by repeat split].
  pose proof (acquire_out _ _ _ _ Ea) as (Hin & Hns & _). pose proof (release_acquire _ _ _ _ Ea) as Hra.
  destruct (ConcurrencyLimiter.try_acquire _) as [cl|] eqn:Ec; [|intros [= <- <-]; by repeat split].
  pose proof (limiter_release _ _ Ec) as Hl.
  destruct (endpoint_for _ _ _); intros [= <- <-]. by repeat split.
Qed.

Lemma launch_Ok_holds d s f d' :
  launch d s = (Ok f, d') ->
  ConcurrencyLimiter.try_acquire (concurrency d) = Some (concurrency d') /\
  acquire (tool_registry d) (method (sc_request s)) = Ok (if_guard f, tool_registry d').
Proof.
  unfold launch. destruct (acquire _ _) as [[g tr]|e] eqn:Ea; [|done].
  destruct (ConcurrencyLimiter.try_acquire _) as [cl|] eqn:Ec; [|done].
  by destruct (endpoint_for _ _ _); intros [= <- <-].
Qed.

Lemma inv_step n s s' : step s s' -> inv n s -> inv n s'.
Proof.
  destruct 1 as [d sc fs rm rq c s Hs|d d' sc1 s sc2 fs rm f Hl|d d' sc1 s sc2 fs rm r Hl
    |d sc fs1 f fs2 rm reply|d sc fs rm e|d sc fs rm nm st tr Hs|d sc fs rm names reason
    |d sc fs rm1 nm ns names reason rm2 Hd|d sc fs rm1 names reason rm2
    |d sc fs rm pt|d sc fs rm sr]; intros Hinv.
  - by destruct Hinv.
  - destruct Hinv as [Hp Ha Ho Hf Hr], (launch_Ok_holds _ _ _ _ Hl) as [Hc Hq]. simpl in *.
    destruct (acquire_out _ _ _ _ Hq) as (Hin & Hns & Hsem & Hout).
    apply fmap_Some in Hsem as (rec & Hrec & Hg).
    destruct (concurrency d) as [[|p] a]; [done|]. injection Hc as Hc. simpl in *.
    split; simpl; rewrite <- ?Hc; simpl; try lia.
    + intros sem. rewrite Hout, holding_cons, !Ho. repeat case_decide; congruence.
    + intros sem Hle. rewrite holding_cons. rewrite Hns in Hle. pose proof (Hr _ _ Hrec).
      rewrite decide_False by lia. by apply Hf.
    + intros nm rec'. rewrite Hin, Hns. apply Hr.
  - destruct (launch_Err_settled _ _ _ _ Hl) as [(_ & _ & Hc & Hin & Ho') Hns].
    destruct Hinv as [Hp Ha Ho Hf Hr]. simpl in *. split; simpl; rewrite ?Hc, ?Hns, ?Hin; try done.
    intros sem. by rewrite Ho'.
  - destruct Hinv as [Hp Ha Ho Hf Hr]. simpl in *. rewrite length_app in Hp, Ha. simpl in Hp, Ha.
    destruct (release_out (tool_registry d) (if_guard f)) as (_ & _ & Hout).
    split; simpl; rewrite ?length_app; try lia.
    + intros sem. rewrite Hout, !Ho, !holding_middle, !holding_cons. repeat case_decide; simpl; congruence.
    + intros sem Hle%Hf. rewrite holding_middle, holding_cons in Hle. by case_decide.
    + done.
  - destruct Hinv as [Hp Ha Ho Hf Hr]. simpl in *. split; simpl; try done.
    + intros sem. unfold out, add_one. simpl. destruct (decide (sem = next_sem (tool_registry d))) as [->|Hne].
      * rewrite lookup_insert_eq. simpl. rewrite Hf; lia.
      * rewrite lookup_insert_ne by done. apply Ho.
    + intros sem Hle. apply Hf. lia.
    + intros nm rec [[<- <-]|[_ H]]%lookup_insert_Some; simpl; [lia|]. apply Hr in H. lia.
  - eapply inv_tools; [exact Hinv|..]; unfold ToolRegistry.set_state in Hs;
      destruct (inner (tool_registry d) !! nm) as [r|] eqn:E; simplify_eq/=; try done.
    simpl. intros nm' rec [[<- <-]|[_ H]]%lookup_insert_Some; simpl; eauto.
  - eapply inv_tools; [exact Hinv|done|done|]. apply mark_inner.
  - by destruct Hinv.
  - eapply inv_tools; [exact Hinv|..]; unfold finish_remove;
      pose proof (remove_names_inner (inner (tool_registry d)) names) as Hi;
      destruct (remove_names _ _); simpl in *; try done. eauto.
  - by destruct Hinv.
  - by destruct Hinv.
Qed.

Lemma reachable_inv n s : reachable n s -> inv n s.
Proof.
  intros H. unfold reachable in H. pattern s. revert s H. apply rtc_ind_r.
  - split; simpl; try done; lia.
  - intros s1 s2 _ Hs IH. by eapply inv_step.
Qed.

(** C10: in every reachable interleaving of calls, registry changes, draining removals and
    process-table changes, the dispatcher's free slots and its calls in flight add up to its
    limit, the [active] counter is the number of calls in flight, and a tool whose
    permits are all back has no call in flight under its registration. *)
Theorem inflight_accounting (n : nat) (s : Sys) :
  reachable n s ->
  (ConcurrencyLimiter.permits (concurrency (disp s)) + length (flights s))%nat = n /\
  ConcurrencyLimiter.active_count (concurrency (disp s)) = Z.of_nat (length (flights s)) /\
  (forall sem, out (tool_registry (disp s)) sem = holding sem (flights s)) /\
  (forall nm rec, inner (tool_registry (disp s)) !! nm = Some rec ->
     drained (tool_registry (disp s)) nm = true ->
     Forall (fun f => if_guard f <> semaphore rec) (flights s)).
Proof.
  intros [Hp Ha Ho _ _]%reachable_inv. repeat (split; [done|]). intros nm rec Hrec.
  unfold drained. rewrite Hrec, Ho, bool_decide_eq_true. intros H0%length_zero_iff_nil.
  apply Forall_forall. intros f Hf Hg.
  assert (f ∈ filter (fun f => if_guard f = semaphore rec) (flights s)) as Hin
    by (by apply list_elem_of_filter).
  rewrite H0 in Hin. by apply not_elem_of_nil in Hin.
Qed.

(** A scenario: one tool, one service, one agent that was granted the tool. *)
Definition sc_entry : ToolEntry := entry_new "fs/read" "fs.svc" Tool.Available Tool.All JNull.
Definition sc_services : ServiceRegistry.t :=
  ServiceRegistry.register_tool (ServiceRegistry.register ServiceRegistry.new "fs.svc" "/run/fs.sock") "fs/read" "fs.svc".
Definition sc_processes : gmap Z ProcessEntry :=
  {[7 := upd_token (entry_default 0) ["fs/read"]%string None 0]}.
Definition sc_disp : RouterDispatcher := {|
  service_registry := sc_services; tool_registry := add_one empty_registry sc_entry;
  process_table := sc_processes; concurrency := ConcurrencyLimiter.new 2 |}.
Definition sc_rq : JsonRpcRequest := {| rq_jsonrpc := "2.0"; rq_id := "1"; method := "fs/read"; params := JObj [] |}.
Definition sc_who : CallerInfo := {| ci_pid := 7; ci_user := "alice"; ci_token := "" |}.
Definition sc_ready : Screened := {| sc_owner := "fs.svc"; sc_request := sc_rq; sc_caller := sc_who |}.
Definition sc_flight : InFlight := {| if_guard := 0; if_endpoint := "/run/fs.sock"; if_request := sc_rq |}.
Definition sc_after (d : RouterDispatcher) : RouterDispatcher := (launch d sc_ready).2.

Lemma sc_screened : reachable 2 (Build_Sys sc_disp [sc_ready] [] []).
Proof.
  unfold reachable. eapply rtc_l; [apply (step_add _ _ _ _ sc_entry)|].
  eapply rtc_l; [apply (step_services _ _ _ _ sc_services)|].
  eapply rtc_l; [apply (step_processes _ _ _ _ sc_processes)|].
  eapply rtc_l; [|apply rtc_refl]. apply (step_screen _ _ _ _ sc_rq sc_who). reflexivity.
Qed.

Lemma inflight_accounting_witness :
  let s := Build_Sys (sc_after sc_disp) [] [sc_flight] [] in
  reachable 2 s /\ ConcurrencyLimiter.active_count (concurrency (disp s)) = 1.
Proof.
  intros s. assert (Hr : reachable 2 s).
  { eapply rtc_r; [apply sc_screened|].
    apply (step_launch sc_disp (sc_after sc_disp) [] sc_ready [] [] [] sc_flight). reflexivity. }
  split; [exact Hr|]. exact (proj1 (proj2 (inflight_accounting 2 s Hr))).
Defined.

(** The guard is taken after the state was checked and [acquire] does not check it
    again: a draining removal that looks in between finds every permit free, and the
    tool is removed with the call in flight. *)
Example drain_race : exists s, reachable 2 s /\ flights s = [sc_flight] /\
  inner (tool_registry (disp s)) = ∅ /\ removals s = [].
Proof.
  eexists. split; [|split; [|split]].
  - eapply rtc_r.
    + eapply rtc_r.
      * eapply rtc_r.
        -- eapply rtc_r; [apply sc_screened | apply (step_mark _ _ _ _ ["fs/read"]%string "upgrade")].
        -- apply (step_drained _ _ _ [] "fs/read" [] ["fs/read"]%string "upgrade" []). reflexivity.
      * apply (step_launch _ (sc_after (with_tools sc_disp
            (mark_unavailable (tool_registry sc_disp) ["fs/read"]%string))) [] sc_ready [] [] _ sc_flight).
        reflexivity.
    + apply (step_remove _ _ _ [] ["fs/read"]%string "upgrade" []).
  - reflexivity.
  - reflexivity.
  - reflexivity.
Qed.

End Concurrent.

(** The dispatcher's codes and the shared table of [ipc/message.rs] disagree: the
    dispatcher's "unavailable" is the table's timeout, and its busy code is another one. *)
Example dispatcher_codes_disagree :
  EUNAVAIL = JsonRpcErrorCode.code JsonRpcErrorCode.Etimeout /\
  ETIMEOUT <> JsonRpcErrorCode.code JsonRpcErrorCode.Etimeout /\
  EBUSY <> JsonRpcErrorCode.code JsonRpcErrorCode.Ebusy.
Proof. done. Qed.
