(* ===== verification/Auth.v ===== *)
(** * Authentication: ATP tokens, credentials, sessions and the auth service

    Models [src/crates/avix-core/src/auth/] ([atp_token.rs], [validate.rs],
    [session.rs], [service.rs]) and the identities of [config/auth.rs].  The JSON
    and base64 codecs, HMAC-SHA256 and the hex decoder come from packages: they are
    the operations of [Codec], with what the code relies on in [CodecLaws].  The clock
    is an argument; instants and durations are in nanoseconds. *)

From S2P Require Import Prelude Types.

Open Scope Z_scope.

(** ** Claims *)

Record ATPTokenClaims : Type := {
  sub : string;
  uid : Z;
  role : Role.t;
  crews : list string;
  session_id : string;
  iat : Z;
  exp : Z;
  scope : list string
}.

Definition nanos (sec : Z) : Z := sec * 1000000000.

Definition claims_expired (now : Z) (c : ATPTokenClaims) : bool := exp c <? now.
Definition claims_expiring_soon (now : Z) (c : ATPTokenClaims) : bool :=
  let remaining := exp c - now in (remaining <? nanos 300) && (0 <? remaining).

Class Codec : Type := {
  claims_to_json : ATPTokenClaims -> string;
  claims_from_json : string -> result string ATPTokenClaims;
  base64url_encode : string -> string;
  base64url_decode : string -> result string string;
  (** hexadecimal HMAC-SHA256 of a message under a key, and its raw bytes *)
  hmac_hex : string -> string -> string;
  hmac_bytes : string -> string -> string;
  hex_decode : string -> option string
}.

(** serde's round trip, base64's round trip, and the URL-safe alphabet. *)
Class CodecLaws `{!Codec} : Prop := {
  json_roundtrip c : claims_from_json (claims_to_json c) = Ok c;
  base64_roundtrip s : base64url_decode (base64url_encode s) = Ok s;
  base64_no_dot s : str_contains_char "." (base64url_encode s) = false
}.

Section Auth.
Context `{!Codec}.

(** ** [ATPToken] *)

Definition sign (data secret : string) : string := hmac_hex secret data.

(** Serialising the claims cannot fail. *)
Definition token_issue (c : ATPTokenClaims) (secret : string) : string :=
  let payload := base64url_encode (claims_to_json c) in
  (payload +:+ "." +:+ sign payload secret)%string.

Definition token_validate (now : Z) (token secret : string) : result AvixError ATPTokenClaims :=
  match split_once "." token with
  | None => Err (CapabilityDenied "invalid token format")
  | Some (payload, sig) =>
      if negb (String.eqb sig (sign payload secret))
      then Err (CapabilityDenied "invalid token signature")
      else
        json ← map_err CapabilityDenied (base64url_decode payload);
        c ← map_err ConfigParse (claims_from_json json);
        if claims_expired now c then Err (CapabilityDenied "token expired") else Ok c
  end.

(** ** [ATPTokenStore] *)

Record ATPTokenStore : Type := { secret : string; revoked : gset string }.

Definition store_new (s : string) : ATPTokenStore := {| secret := s; revoked := ∅ |}.
Definition store_issue (st : ATPTokenStore) (c : ATPTokenClaims) : string := token_issue c (secret st).
Definition store_validate (now : Z) (st : ATPTokenStore) (token : string) : result AvixError ATPTokenClaims :=
  c ← token_validate now token (secret st);
  if decide (session_id c ∈ revoked st) then Err (CapabilityDenied "token revoked") else Ok c.
Definition store_revoke (st : ATPTokenStore) (sid : string) : ATPTokenStore :=
  {| secret := secret st; revoked := {[sid]} ∪ revoked st |}.
Definition store_expiring_soon (now : Z) (st : ATPTokenStore) (token : string) : result AvixError bool :=
  c ← store_validate now st token; Ok (claims_expiring_soon now c).

(** ** Credentials *)

Inductive CredentialType : Type :=
| ApiKey (key_hash : string) (header : option string)
| Password (password_hash : string).

Definition verify_api_key (key_hash presented : string) : bool :=
  match strip_prefix "hmac-sha256:" key_hash with
  | None => false
  | Some hex =>
      match hex_decode hex with
      | None => false
      | Some stored => String.eqb (hmac_bytes "config-init-secret" presented) stored
      end
  end.
(** A password of any identity is accepted unless it is empty. *)
Definition validate_credential (c : CredentialType) (presented : string) : bool :=
  match c with
  | ApiKey h _ => verify_api_key h presented
  | Password _ => negb (String.eqb presented "")
  end.

Record AuthIdentity : Type := {
  id_name : string; id_uid : Z; id_role : Role.t; credential : CredentialType
}.
Record AuthPolicy : Type := { session_ttl : string; require_tls : bool }.
Record AuthConfig : Type := {
  api_version : string; cfg_kind : string; policy : AuthPolicy; identities : list AuthIdentity
}.

Definition config_validate (c : AuthConfig) : result AvixError unit :=
  if decide (identities c = []) then Err (ConfigParse "identities must not be empty")
  else if existsb (fun i => bool_decide (id_role i = Role.Admin)) (identities c) then Ok tt
  else Err (ConfigParse "at least one identity must have role: admin").

(** ** Sessions *)

Inductive SessionState : Type := Active | Idle | SClosed.

Record SessionEntry : Type := {
  se_id : string; identity_name : string; se_uid : Z; se_role : Role.t;
  se_crews : list string; se_scope : list string; state : SessionState;
  connected_at : Z; last_activity_at : Z; idle_since : option Z;
  closed_at : option Z; closed_reason : option string; agents : list Z; ttl : Z
}.

(** [signed_duration_since(..).to_std().unwrap_or(ZERO)] *)
Definition session_expired (now : Z) (s : SessionEntry) : bool :=
  ttl s <? Z.max 0 (now - connected_at s).

Definition set_session (s : SessionEntry) st last idle cat reason : SessionEntry := {|
  se_id := se_id s; identity_name := identity_name s; se_uid := se_uid s; se_role := se_role s;
  se_crews := se_crews s; se_scope := se_scope s; state := st; connected_at := connected_at s;
  last_activity_at := last; idle_since := idle; closed_at := cat; closed_reason := reason;
  agents := agents s; ttl := ttl s
|}.
Definition mark_idle (now : Z) (s : SessionEntry) : SessionEntry :=
  set_session s Idle (last_activity_at s) (Some now) (closed_at s) (closed_reason s).
Definition mark_active (now : Z) (s : SessionEntry) : SessionEntry :=
  set_session s Active now None (closed_at s) (closed_reason s).
Definition mark_closed (now : Z) (reason : string) (s : SessionEntry) : SessionEntry :=
  set_session s SClosed (last_activity_at s) (idle_since s) (Some now) (Some reason).
Definition grace_expired (now : Z) (s : SessionEntry) : bool :=
  match idle_since s with Some t => nanos 60 <? now - t | None => false end.

(** Within sixty seconds of a disconnect the session can come back; the reconnect
    clears the window. *)
Lemma grace_window s t now :
  grace_expired now (mark_idle t s) = (nanos 60 <? now - t) /\
  grace_expired now (mark_active t (mark_idle t s)) = false.
Proof. done. Qed.

(** ** [AuthService] *)

Record AuthService : Type := { config : AuthConfig; sessions : gmap string SessionEntry; svc_ttl : Z }.

Definition service_new (c : AuthConfig) : AuthService :=
  {| config := c; sessions := ∅; svc_ttl := nanos 3600 |}.

Definition DEFAULT_SCOPE : list string := ["proc"; "signal"; "fs"; "snap"; "cron"]%string.

Definition find_identity (c : AuthConfig) (name : string) : option AuthIdentity :=
  find (fun i => String.eqb (id_name i) name) (identities c).

(** [uuid] is the new session's id. *)
Definition login (now : Z) (uuid : string) (a : AuthService) (name cred : string)
    : result AvixError (SessionEntry * AuthService) :=
  identity ← ok_or (CapabilityDenied ("unknown identity: " +:+ name)%string) (find_identity (config a) name);
  if negb (validate_credential (credential identity) cred) then Err (CapabilityDenied "invalid credential")
  else
    let e := {|
      se_id := uuid; identity_name := id_name identity; se_uid := id_uid identity; se_role := id_role identity;
      se_crews := []; se_scope := DEFAULT_SCOPE; state := Active; connected_at := now;
      last_activity_at := now; idle_since := None; closed_at := None; closed_reason := None;
      agents := []; ttl := svc_ttl a |} in
    Ok (e, {| config := config a; sessions := <[uuid := e]> (sessions a); svc_ttl := svc_ttl a |}).

Definition validate_session (now : Z) (a : AuthService) (sid : string) : result AvixError SessionEntry :=
  e ← ok_or (CapabilityDenied "invalid session") (sessions a !! sid);
  if session_expired now e then Err (CapabilityDenied "session expired") else Ok e.

Definition revoke_session (a : AuthService) (sid : string) : result AvixError AuthService :=
  _ ← ok_or (CapabilityDenied "session not found") (sessions a !! sid);
  Ok {| config := config a; sessions := delete sid (sessions a); svc_ttl := svc_ttl a |}.

Definition active_session_count (a : AuthService) : nat := size (sessions a).

Definition TOKEN_TTL : Z := nanos 28800.

Definition refresh_token (now : Z) (a : AuthService) (old : string) (st : ATPTokenStore)
    : result AvixError (string * ATPTokenClaims) :=
  c ← store_validate now st old;
  _ ← validate_session now a (session_id c);
  let c' := {| sub := sub c; uid := uid c; role := role c; crews := crews c;
               session_id := session_id c; iat := now; exp := now + TOKEN_TTL; scope := scope c |} in
  Ok (store_issue st c', c').

(** The claims the login endpoint issues for a session. *)
Definition login_claims (now : Z) (s : SessionEntry) : ATPTokenClaims := {|
  sub := identity_name s; uid := se_uid s; role := se_role s; crews := se_crews s;
  session_id := se_id s; iat := now; exp := now + TOKEN_TTL; scope := se_scope s
|}.

(** ** Properties *)

Context `{!CodecLaws}.

Lemma token_split c s :
  split_once "." (token_issue c s) =
  Some (base64url_encode (claims_to_json c), sign (base64url_encode (claims_to_json c)) s).
Proof. unfold token_issue. apply split_once_app, base64_no_dot. Qed.

Lemma validate_issued now c s :
  token_validate now (token_issue c s) s =
  if claims_expired now c then Err (CapabilityDenied "token expired") else Ok c.
Proof.
  unfold token_validate. rewrite token_split, String.eqb_refl. simpl.
  rewrite base64_roundtrip. simpl. by rewrite json_roundtrip.
Qed.

(** What an accepted token is: signed under the secret, decoding to unexpired claims. *)
Lemma token_validate_Ok now token s c :
  token_validate now token s = Ok c -> exists payload json,
    token = (payload +:+ "." +:+ hmac_hex s payload)%string /\
    base64url_decode payload = Ok json /\ claims_from_json json = Ok c /\ now <= exp c.
Proof.
  unfold token_validate. destruct (split_once "." token) as [[p sig]|] eqn:E; [|done].
  destruct (String.eqb_spec sig (sign p s)) as [->|]; simpl; [|done].
  destruct (base64url_decode p) as [json|] eqn:Ed; simpl; [|done].
  destruct (claims_from_json json) as [c'|] eqn:Ej; simpl; [|done].
  unfold claims_expired. destruct (Z.ltb_spec (exp c') now); [done|]. intros [= <-].
  apply split_once_spec in E as [-> _]. exists p, json. repeat split; try done.
Qed.

Lemma store_validate_Ok now st token c :
  store_validate now st token = Ok c <-> token_validate now token (secret st) = Ok c /\ session_id c ∉ revoked st.
Proof.
  unfold store_validate. destruct (token_validate now token (secret st)) as [c'|e]; simpl; [|naive_solver].
  case_decide; naive_solver.
Qed.

Lemma store_validate_issued now st c :
  store_validate now st (store_issue st c) = Ok c <-> now <= exp c /\ session_id c ∉ revoked st.
Proof.
  rewrite store_validate_Ok. unfold store_issue. rewrite validate_issued. unfold claims_expired.
  destruct (Z.ltb_spec (exp c) now); naive_solver lia.
Qed.

(** C32: a token the store issued is accepted, with its claims, exactly until it expires
    or its session is revoked; whatever the store accepts carries the store's signature
    over its payload and decodes to unexpired claims of a session that is not revoked;
    and revoking a session rejects all its tokens and no token of another session. *)
Theorem token_lifecycle (now : Z) (st : ATPTokenStore) (c : ATPTokenClaims) (sid : string) :
  (store_validate now st (store_issue st c) = Ok c <-> now <= exp c /\ session_id c ∉ revoked st) /\
  (forall token c', store_validate now st token = Ok c' -> exists payload json,
     token = (payload +:+ "." +:+ hmac_hex (secret st) payload)%string /\
     base64url_decode payload = Ok json /\ claims_from_json json = Ok c' /\
     now <= exp c' /\ session_id c' ∉ revoked st) /\
  (forall token c', store_validate now (store_revoke st sid) token = Ok c' <->
     store_validate now st token = Ok c' /\ session_id c' <> sid).
Proof.
  split; [apply store_validate_issued|]. split.
  - intros token c' [(p & j & ? & ? & ? & ?)%token_validate_Ok Hr]%store_validate_Ok. eauto 10.
  - intros token c'. rewrite !store_validate_Ok. simpl. set_solver.
Qed.

Lemma login_Ok now uuid a name cred e a' :
  login now uuid a name cred = Ok (e, a') ->
  (exists i, find_identity (config a) name = Some i /\ validate_credential (credential i) cred = true /\
     identity_name e = id_name i /\ se_role e = id_role i /\ se_uid e = id_uid i) /\
  se_id e = uuid /\ connected_at e = now /\ ttl e = svc_ttl a /\
  config a' = config a /\ sessions a' = <[uuid := e]> (sessions a).
Proof.
  unfold login. destruct (find_identity _ _) as [i|]; simpl; [|done].
  destruct (validate_credential _ _) eqn:E; simpl; [|done]. intros [= <- <-]. simpl.
  split; [|done]. by exists i.
Qed.

Lemma refresh_token_eq now a old st c e :
  store_validate now st old = Ok c -> sessions a !! session_id c = Some e -> session_expired now e = false ->
  refresh_token now a old st =
    let c' := {| sub := sub c; uid := uid c; role := role c; crews := crews c;
                 session_id := session_id c; iat := now; exp := now + TOKEN_TTL; scope := scope c |} in
    Ok (store_issue st c', c').
Proof.
  intros Hv Hs He. unfold refresh_token, validate_session. rewrite Hv. simpl. rewrite Hs. simpl. by rewrite He.
Qed.

(** a login gives a session with the name, uid and role of the configured identity
    whose credential was presented.  While the session lives, its token can be refreshed,
    and the new token carries the same authority for eight more hours.  Once the session is
    revoked in the service no token of it can be refreshed; the tokens already issued
    are accepted until they expire all the same. *)
Theorem session_tokens t0 uuid a name cred e a1 st :
  login t0 uuid a name cred = Ok (e, a1) -> 0 <= svc_ttl a -> uuid ∉ revoked st ->
  let tok := store_issue st (login_claims t0 e) in
  (exists i, find_identity (config a) name = Some i /\ validate_credential (credential i) cred = true /\
     identity_name e = id_name i /\ se_role e = id_role i /\ se_uid e = id_uid i) /\
  (forall now, t0 <= now -> now <= t0 + Z.min (svc_ttl a) TOKEN_TTL -> exists tok' c',
     refresh_token now a1 tok st = Ok (tok', c') /\
     sub c' = identity_name e /\ role c' = se_role e /\ uid c' = se_uid e /\ session_id c' = uuid /\
     forall now', now' <= now + TOKEN_TTL -> store_validate now' st tok' = Ok c') /\
  (forall a2, revoke_session a1 uuid = Ok a2 ->
     (forall now old c, store_validate now st old = Ok c -> session_id c = uuid ->
        refresh_token now a2 old st = Err (CapabilityDenied "invalid session")) /\
     (forall now, now <= t0 + TOKEN_TTL -> store_validate now st tok = Ok (login_claims t0 e))).
Proof.
  intros Hl Httl Hr tok. destruct (login_Ok _ _ _ _ _ _ _ Hl) as (Hi & Hid & Hc & Ht & _ & Hs).
  assert (Htok : forall now, now <= t0 + TOKEN_TTL -> store_validate now st tok = Ok (login_claims t0 e)).
  { intros now Hn. apply store_validate_issued. simpl. by rewrite Hid. }
  split; [done|]. split.
  - intros now H1 H2. eexists _, _. split.
    + apply (refresh_token_eq _ _ _ _ (login_claims t0 e) e); [apply Htok; lia| |].
      * simpl. by rewrite Hid, Hs, lookup_insert_eq.
      * unfold session_expired. rewrite Ht, Hc. apply Z.ltb_ge. lia.
    + simpl. repeat (split; [done|]). intros now' Hn. apply store_validate_issued. simpl. by rewrite Hid.
  - intros a2 Hrev. split; [|done]. intros now old c Hv <-. unfold revoke_session in Hrev.
    destruct (sessions a1 !! session_id c); simplify_eq/=.
    unfold refresh_token, validate_session. rewrite Hv. simpl. by rewrite lookup_delete_eq.
Qed.

End Auth.

(** ** A codec with the laws

    Every countable value as the bits of its code. *)

Module BitCodec.

Fixpoint bits (p : positive) : string :=
  match p with
  | xH => EmptyString
  | xO p => String "0" (bits p)
  | xI p => String "1" (bits p)
  end.
Fixpoint unbits (s : string) : positive :=
  match s with
  | EmptyString => xH
  | String c s => if decide (c = "1"%char) then xI (unbits s) else xO (unbits s)
  end.

Lemma unbits_bits p : unbits (bits p) = p.
Proof. by induction p as [p IH|p IH|]; simpl; rewrite ?IH. Qed.
Lemma bits_no_dot p : str_contains_char "." (bits p) = false.
Proof. induction p as [p IH|p IH|]; simpl; done. Qed.

Definition to_bits {A} `{Countable A} (a : A) : string := bits (encode a).
Definition of_bits {A} `{Countable A} (s : string) : result string A :=
  ok_or "malformed"%string (decode (unbits s)).

Lemma of_to_bits {A} `{Countable A} (a : A) : of_bits (to_bits a) = Ok a.
Proof. unfold of_bits, to_bits. by rewrite unbits_bits, decode_encode. Qed.

#[export] Instance Role_countable : Countable Role.t.
Proof.
  refine (inj_countable' (fun r => Role.rank r)
    (fun n => if decide (n = 0%nat) then Role.Guest else if decide (n = 1%nat) then Role.User
              else if decide (n = 2%nat) then Role.Operator else Role.Admin) _).
  by intros [].
Defined.

Definition claims_tuple (c : ATPTokenClaims) :=
  (sub c, uid c, role c, crews c, session_id c, iat c, exp c, scope c).
Definition of_tuple '(a, b, c, d, e, f, g, h) : ATPTokenClaims := {|
  sub := a; uid := b; role := c; crews := d; session_id := e; iat := f; exp := g; scope := h
|}.
#[export] Instance ATPTokenClaims_eq_dec : EqDecision ATPTokenClaims.
Proof. solve_decision. Defined.
#[export] Instance claims_countable : Countable ATPTokenClaims.
Proof. refine (inj_countable' claims_tuple of_tuple _). by intros []. Defined.

#[export] Instance bit_codec : Codec := {|
  claims_to_json := to_bits; claims_from_json := of_bits;
  base64url_encode := to_bits; base64url_decode := of_bits;
  hmac_hex k m := (k +:+ m)%string; hmac_bytes k m := (k +:+ m)%string; hex_decode s := Some s
|}.
#[export] Instance bit_codec_laws : CodecLaws.
Proof. split; intros; simpl; [apply of_to_bits | apply of_to_bits | apply bits_no_dot]. Qed.
End BitCodec.

Import BitCodec.

Definition sample_auth : AuthService := service_new {|
  api_version := "avix/v1"; cfg_kind := "AuthConfig";
  policy := {| session_ttl := "1h"; require_tls := false |};
  identities := [{| id_name := "alice"; id_uid := 1001; id_role := Role.Admin; credential := Password "" |}]
|}.
Definition sample_store : ATPTokenStore := store_new "k".
Definition sample_login : SessionEntry := {|
  se_id := "s1"; identity_name := "alice"; se_uid := 1001; se_role := Role.Admin; se_crews := [];
  se_scope := DEFAULT_SCOPE; state := Active; connected_at := 0; last_activity_at := 0;
  idle_since := None; closed_at := None; closed_reason := None; agents := []; ttl := nanos 3600
|}.

Lemma token_lifecycle_witness :
  store_validate 0 sample_store (store_issue sample_store (login_claims 0 sample_login)) =
    Ok (login_claims 0 sample_login).
Proof.
  refine (proj2 (proj1 (token_lifecycle 0 sample_store (login_claims 0 sample_login) "s1")) _).
  split; [vm_compute; discriminate | apply not_elem_of_empty].
Defined.

Lemma session_tokens_witness :
  exists a1, login 0 "s1" sample_auth "alice" "pw" = Ok (sample_login, a1) /\
    exists tok c, refresh_token (nanos 60) a1
      (store_issue sample_store (login_claims 0 sample_login)) sample_store = Ok (tok, c) /\ role c = Role.Admin.
Proof.
  exists {| config := config sample_auth; sessions := <["s1"%string := sample_login]> ∅; svc_ttl := nanos 3600 |}.
  split; [reflexivity|].
  edestruct (session_tokens 0 "s1" sample_auth "alice" "pw" sample_login
    {| config := config sample_auth; sessions := <["s1"%string := sample_login]> ∅; svc_ttl := nanos 3600 |} sample_store)
    as (_ & H & _); [reflexivity | vm_compute; discriminate | apply not_elem_of_empty |].
  destruct (H (nanos 60)) as (tok & c & H1 & _ & H2 & _); [vm_compute; discriminate..|].
  exists tok, c. split; [exact H1 | exact H2].
Defined.
