(* ===== verification/Gateway.v ===== *)
(** * Gateway: ATP frames, access control, replay guard, validation, translation

    Models [src/crates/avix-core/src/gateway/]: [atp/types.rs], [atp/error.rs],
    [atp/frame.rs], [atp/command.rs], [atp/response.rs], [acl.rs], [replay.rs],
    [validator.rs] and [translator.rs].  Parsing of JSON text and the wording of
    serde's errors are arguments. *)

From S2P Require Import Prelude Types Json Auth.

Open Scope Z_scope.

(** ** [atp/types.rs] *)

Module AtpDomain.
Inductive t : Type :=
| Auth | Proc | Signal | Fs | Snap | Cron | Users | Crews | Cap | Sys | Pipe | Session.
#[global] Instance t_eq_dec : EqDecision t.
Proof. solve_decision. Defined.

(** the serialised names *)
Definition to_str (d : t) : string :=
  match d with
  | Auth => "auth" | Proc => "proc" | Signal => "signal" | Fs => "fs" | Snap => "snap"
  | Cron => "cron" | Users => "users" | Crews => "crews" | Cap => "cap" | Sys => "sys"
  | Pipe => "pipe" | Session => "session"
  end.
(** [{:?}] *)
Definition debug (d : t) : string :=
  match d with
  | Auth => "Auth" | Proc => "Proc" | Signal => "Signal" | Fs => "Fs" | Snap => "Snap"
  | Cron => "Cron" | Users => "Users" | Crews => "Crews" | Cap => "Cap" | Sys => "Sys"
  | Pipe => "Pipe" | Session => "Session"
  end.
Definition all : list t := [Auth; Proc; Signal; Fs; Snap; Cron; Users; Crews; Cap; Sys; Pipe; Session].
Definition of_str (s : string) : option t := find (fun d => String.eqb (to_str d) s) all.

Lemma of_to_str d : of_str (to_str d) = Some d.
Proof. by destruct d. Qed.
End AtpDomain.

(** ** [atp/error.rs] *)

Inductive AtpErrorCode : Type :=
| Eauth | Eexpired | Esession | Eperm | Enotfound | Econflict | Eused | Elimit | Eparse | Einternal | Eunavail.

Record AtpError : Type := { code : AtpErrorCode; message : string; detail : option json }.
Definition error_new (c : AtpErrorCode) (m : string) : AtpError := {| code := c; message := m; detail := None |}.
Definition with_detail (e : AtpError) (d : json) : AtpError :=
  {| code := code e; message := message e; detail := Some d |}.

Inductive AtpFrameError : Type := Parse (m : string) | UnknownType (ty : string).

(** ** [atp/frame.rs] *)

Record AtpCmd : Type := {
  msg_type : string; cmd_id : string; token : string; domain : AtpDomain.t; op : string; body : json
}.
Record AtpReply : Type := {
  rp_type : string; rp_id : string; rp_ok : bool; rp_body : option json; rp_error : option AtpError
}.
Definition reply_ok (id : string) (b : json) : AtpReply :=
  {| rp_type := "reply"; rp_id := id; rp_ok := true; rp_body := Some b; rp_error := None |}.
Definition reply_err (id : string) (e : AtpError) : AtpReply :=
  {| rp_type := "reply"; rp_id := id; rp_ok := false; rp_body := None; rp_error := Some e |}.

Record AtpSubscribe : Type := {
  sub_type : string; sub_id : string; sub_token : string; events : list string; since_seq : option Z
}.
Inductive AtpFrame : Type := Cmd (c : AtpCmd) | Subscribe (s : AtpSubscribe).

(** The derived deserialisers: a required string, a string that defaults when absent,
    a list of strings, an optional [u64]. *)
Definition req_str (v : json) (k : string) : option string := jget v k ≫= as_str.
Definition opt_str (v : json) (k : string) : option string :=
  match jget v k with None => Some EmptyString | Some x => as_str x end.
Definition str_list (v : json) (k : string) : option (list string) :=
  match jget v k with Some (JArr l) => mapM as_str l | _ => None end.
Definition opt_u64 (v : json) (k : string) : option (option Z) :=
  match jget v k with
  | None | Some JNull => Some None
  | Some x => Some <$> as_u64 x
  end.

Definition cmd_of_json (v : json) : option AtpCmd :=
  ty ← req_str v "type"; id ← req_str v "id"; tok ← req_str v "token"; d ← req_str v "domain" ≫= AtpDomain.of_str;
  o ← req_str v "op";
  Some {| msg_type := ty; cmd_id := id; token := tok; domain := d; op := o; body := jindex v "body" |}.
Definition subscribe_of_json (v : json) : option AtpSubscribe :=
  ty ← req_str v "type"; id ← opt_str v "id"; tok ← opt_str v "token"; ev ← str_list v "events"; since ← opt_u64 v "since_seq";
  Some {| sub_type := ty; sub_id := id; sub_token := tok; events := ev; since_seq := since |}.

Section Frame.
(** [serde_json::from_str] on a text, and serde's message for a value it rejects. *)
Variable json_parse : string -> result string json.
Variable serde_message : json -> string.

Definition frame_parse (raw : string) : result AtpFrameError AtpFrame :=
  v ← map_err Parse (json_parse raw);
  ty ← ok_or (Parse "missing 'type' field") (as_str (jindex v "type"));
  if String.eqb ty "cmd" then Cmd <$> ok_or (Parse (serde_message v)) (cmd_of_json v)
  else if String.eqb ty "subscribe" then Subscribe <$> ok_or (Parse (serde_message v)) (subscribe_of_json v)
  else Err (UnknownType ty).
End Frame.

(** The serialised command. *)
Definition cmd_to_json (c : AtpCmd) : json :=
  JObj [("type", JStr (msg_type c)); ("id", JStr (cmd_id c)); ("token", JStr (token c));
        ("domain", JStr (AtpDomain.to_str (domain c))); ("op", JStr (op c)); ("body", body c)]%string.

Lemma frame_roundtrip parse msg raw c :
  msg_type c = "cmd"%string -> parse raw = Ok (cmd_to_json c) -> frame_parse parse msg raw = Ok (Cmd c).
Proof.
  intros Ht H. unfold frame_parse. rewrite H. destruct c as [? ? ? [] ? ?]; simpl in Ht; by subst.
Qed.

(** ** [acl.rs] *)

Definition domain_min_role (d : AtpDomain.t) (o : string) : Role.t :=
  let is_ := fun l => list_contains o l in
  match d with
  | AtpDomain.Auth => Role.Guest
  | AtpDomain.Proc => if is_ ["list"]%string then Role.Guest
                      else if is_ ["setcap"]%string then Role.Operator else Role.User
  | AtpDomain.Signal => Role.User
  | AtpDomain.Fs => if is_ ["read"; "list"; "stat"]%string then Role.Guest else Role.User
  | AtpDomain.Snap => if is_ ["delete"]%string then Role.Operator else Role.User
  | AtpDomain.Cron => Role.User
  | AtpDomain.Users => if is_ ["list"]%string then Role.Operator
                       else if is_ ["create"; "update"; "delete"]%string then Role.Admin else Role.User
  | AtpDomain.Crews => if is_ ["create"; "update"; "delete"; "join"; "leave"]%string then Role.Admin
                       else Role.Guest
  | AtpDomain.Cap => if is_ ["inspect"]%string then Role.Operator else Role.Admin
  | AtpDomain.Sys => if is_ ["status"; "logs"; "service-list"; "tool-list"]%string then Role.User
                     else if is_ ["install"; "uninstall"; "update"]%string then Role.Operator else Role.Admin
  | AtpDomain.Pipe => Role.User
  | AtpDomain.Session => Role.User
  end.

Definition check_domain_role (d : AtpDomain.t) (o : string) (caller : Role.t) : result AtpError unit :=
  if Role.ltb caller (domain_min_role d o)
  then Err (error_new Eperm ("role '" +:+ Role.to_string caller +:+ "' cannot invoke domain '"
              +:+ AtpDomain.debug d +:+ "' op '" +:+ o +:+ "'")%string)
  else Ok tt.

Definition check_ownership (who : string) (r : Role.t) (owner : string) : result AtpError unit :=
  if Role.leb Role.Operator r then Ok tt
  else if String.eqb who owner then Ok tt
  else Err (error_new Eperm ("'" +:+ who +:+ "' cannot access resources owned by '" +:+ owner +:+ "'")%string).

Definition check_fs_hard_veto (path o : string) : result AtpError unit :=
  if negb (String.eqb o "write") then Ok tt
  else if starts_with "/secrets/" path || starts_with "/proc/" path
  then Err (error_new Eperm ("writes to '" +:+ path +:+ "' are unconditionally forbidden")%string)
  else Ok tt.

Definition requires_admin_port (d : AtpDomain.t) (o : string) : bool :=
  match d with
  | AtpDomain.Cap => true
  | AtpDomain.Sys => negb (list_contains o ["status"; "logs"; "service-list"; "tool-list"]%string)
  | _ => false
  end.
Definition check_admin_port (d : AtpDomain.t) (o : string) (is_admin_port : bool) : result AtpError unit :=
  if requires_admin_port d o && negb is_admin_port
  then Err (error_new Eperm ("domain '" +:+ AtpDomain.debug d +:+ "' op '" +:+ o +:+ "' requires admin port 7701")%string)
  else Ok tt.

(** ** [replay.rs] *)

Definition check_and_register (seen : gset string) (id : string) : result AtpError (gset string) :=
  if decide (id ∈ seen) then Err (error_new Eparse ("duplicate command id '" +:+ id +:+ "'")%string)
  else Ok ({[id]} ∪ seen).

(** ** [validator.rs] *)

Record ValidatedCmd : Type := {
  vc_cmd : AtpCmd; caller_identity : string; caller_role : Role.t; caller_session_id : string
}.

Section Validator.
Context `{!Codec}.

Definition token_error (e : AvixError) : AtpError :=
  let msg := avix_error_to_string e in
  if str_contains "expired" msg then error_new Eexpired "token expired"
  else error_new Eauth ("invalid token: " +:+ msg)%string.

(** The replay guard changes only when the command is accepted. *)
Definition validate_cmd (now : Z) (c : AtpCmd) (st : ATPTokenStore) (seen : gset string)
    (bound_session : string) (is_admin_port : bool) : result AtpError (ValidatedCmd * gset string) :=
  claims ← map_err token_error (store_validate now st (token c));
  _ ← (if String.eqb (session_id claims) bound_session then Ok tt
       else Err (error_new Esession "session ID mismatch"));
  _ ← check_domain_role (domain c) (op c) (role claims);
  _ ← check_admin_port (domain c) (op c) is_admin_port;
  _ ← (if decide (domain c = AtpDomain.Fs)
       then check_fs_hard_veto (default EmptyString (as_str (jindex (body c) "path"))) (op c) else Ok tt);
  seen' ← check_and_register seen (cmd_id c);
  Ok ({| vc_cmd := c; caller_identity := sub claims; caller_role := role claims;
         caller_session_id := session_id claims |}, seen').
End Validator.

(** ** [atp/command.rs] and [translator.rs] *)

Inductive ATPCommand : Type :=
| AgentSpawn (name goal : string) | AgentKill (pid : string) | AgentList | AgentStatus (pid : string)
| FsRead (path : string) | FsWrite (path content : string) | LlmStatus | SysInfo | SysReboot (confirm : bool).

Inductive TranslationError : Type := TEperm (r : Role.t) (what : string) | UnknownCommand.
Record IpcCall : Type := { ipc_method : string; ipc_params : json }.

(** [str::parse::<u64>]: an optional plus sign and at least one digit, no overflow. *)
Definition digit (c : ascii) : option Z :=
  let n := Z.of_nat (nat_of_ascii c) in if decide (48 <= n <= 57) then Some (n - 48) else None.
Fixpoint parse_digits (acc : Z) (s : string) : option Z :=
  match s with
  | EmptyString => Some acc
  | String c s =>
      d ← digit c;
      let acc := acc * 10 + d in
      if decide (is_u64 acc) then parse_digits acc s else None
  end.
Definition parse_u64 (s : string) : option Z :=
  match s with
  | EmptyString => None
  | String c t =>
      if decide (c = "+"%char) then match t with EmptyString => None | _ => parse_digits 0 t end
      else parse_digits 0 s
  end.

Definition translate (c : ATPCommand) (r : Role.t) : result TranslationError IpcCall :=
  let call m p := Ok {| ipc_method := m; ipc_params := JObj p |} in
  match c with
  | AgentSpawn n g => call "kernel/proc/spawn" [("name", JStr n); ("goal", JStr g)]
  | AgentKill p => call "kernel/proc/kill" [("pid", JInt (default 0%Z (parse_u64 p)))]
  | AgentList => call "kernel/proc/list" []
  | AgentStatus p => call "kernel/proc/info" [("pid", JInt (default 0%Z (parse_u64 p)))]
  | FsRead p => call "kernel/fs/read" [("path", JStr p)]
  | FsWrite p x => call "kernel/fs/write" [("path", JStr p); ("content", JStr x)]
  | LlmStatus => call "llm/status" []
  | SysInfo => call "kernel/sys/info" []
  | SysReboot b => if decide (r = Role.Admin) then call "kernel/sys/reboot" [("confirm", JBool b)]
                   else Err (TEperm r "sys/reboot")
  end%string.

(** ** The gate *)

Section Gate.
Context `{!Codec}.

(** What a command must satisfy to pass, with [who] the claims of its token. *)
Record passes (now : Z) (c : AtpCmd) (st : ATPTokenStore) (seen : gset string)
    (session : string) (admin_port : bool) (who : ATPTokenClaims) : Prop := {
  ps_token : store_validate now st (token c) = Ok who;
  ps_session : session_id who = session;
  ps_role : Role.leb (domain_min_role (domain c) (op c)) (role who) = true;
  ps_port : requires_admin_port (domain c) (op c) = true -> admin_port = true;
  ps_veto : domain c = AtpDomain.Fs -> op c = "write"%string ->
    forall p, jget (body c) "path" = Some (JStr p) ->
      starts_with "/secrets/" p = false /\ starts_with "/proc/" p = false;
  ps_fresh : cmd_id c ∉ seen
}.

Lemma check_domain_role_Ok d o r :
  check_domain_role d o r = Ok tt <-> Role.leb (domain_min_role d o) r = true.
Proof.
  unfold check_domain_role. rewrite Role.ltb_leb. destruct (Role.leb _ r); naive_solver.
Qed.

(** More authority never loses access. *)
Lemma check_domain_role_mono d o r r' :
  Role.leb r r' = true -> check_domain_role d o r = Ok tt -> check_domain_role d o r' = Ok tt.
Proof. rewrite !check_domain_role_Ok. eauto using Role.leb_trans. Qed.

Lemma check_admin_port_Ok d o b :
  check_admin_port d o b = Ok tt <-> (requires_admin_port d o = true -> b = true).
Proof. unfold check_admin_port. destruct (requires_admin_port d o), b; naive_solver. Qed.

Lemma check_fs_hard_veto_Ok p o :
  check_fs_hard_veto p o = Ok tt <->
  (o = "write"%string -> starts_with "/secrets/" p = false /\ starts_with "/proc/" p = false).
Proof.
  unfold check_fs_hard_veto. destruct (String.eqb_spec o "write") as [->|]; [|naive_solver].
  destruct (starts_with "/secrets/" p), (starts_with "/proc/" p); naive_solver.
Qed.

(** The veto on the path of the body, [""] when it has none. *)
Lemma veto_body_Ok c :
  check_fs_hard_veto (default EmptyString (as_str (jindex (body c) "path"))) (op c) = Ok tt <->
  (op c = "write"%string -> forall p, jget (body c) "path" = Some (JStr p) ->
      starts_with "/secrets/" p = false /\ starts_with "/proc/" p = false).
Proof.
  rewrite check_fs_hard_veto_Ok. unfold jindex.
  destruct (jget (body c) "path") as [[]|]; simpl; try naive_solver.
Qed.

Lemma validate_cmd_Ok now c st seen session port v seen' :
  validate_cmd now c st seen session port = Ok (v, seen') <->
  exists who, passes now c st seen session port who /\ seen' = {[cmd_id c]} ∪ seen /\
    v = {| vc_cmd := c; caller_identity := sub who; caller_role := role who; caller_session_id := session_id who |}.
Proof.
  unfold validate_cmd. split.
  - destruct (store_validate now st (token c)) as [who|] eqn:Et; simpl; [|done].
    destruct (String.eqb_spec (session_id who) session) as [Hs|]; simpl; [|done].
    destruct (check_domain_role _ _ _) as [[]|] eqn:Er; simpl; [|done]. apply check_domain_role_Ok in Er.
    destruct (check_admin_port _ _ _) as [[]|] eqn:Ep; simpl; [|done].
    pose proof (proj1 (check_admin_port_Ok _ _ _) Ep) as Hport.
    destruct (if decide (domain c = AtpDomain.Fs) then _ else _) as [[]|] eqn:Ev; simpl; [|done].
    unfold check_and_register. destruct (decide (cmd_id c ∈ seen)) as [|Hf]; simpl; [done|]. intros [= <- <-].
    exists who. split; [|done]. split; try done.
    intros Hd. rewrite decide_True in Ev by done. by apply veto_body_Ok.
  - intros (who & [Ht Hs Hr Hp Hv Hf] & -> & ->). rewrite Ht. simpl. rewrite Hs, String.eqb_refl. simpl.
    rewrite (proj2 (check_domain_role_Ok _ _ _) Hr). simpl.
    rewrite (proj2 (check_admin_port_Ok _ _ _) Hp). simpl.
    assert ((if decide (domain c = AtpDomain.Fs)
             then check_fs_hard_veto (default EmptyString (as_str (jindex (body c) "path"))) (op c)
             else Ok tt) = Ok tt) as ->.
    { case_decide as Hd; [|done]. apply veto_body_Ok. auto. }
    simpl. unfold check_and_register. by rewrite decide_False.
Qed.

(** The commands of one connection, in order: accepted ones are kept. *)
Fixpoint connection (now : nat -> Z) (st : ATPTokenStore) (seen : gset string) (session : string)
    (port : bool) (i : nat) (cs : list AtpCmd) : list ValidatedCmd :=
  match cs with
  | [] => []
  | c :: cs =>
      match validate_cmd (now i) c st seen session port with
      | Ok (v, seen') => v :: connection now st seen' session port (S i) cs
      | Err _ => connection now st seen session port (S i) cs
      end
  end.


Lemma connection_ids now st seen session port i cs :
  NoDup ((fun v => cmd_id (vc_cmd v)) <$> connection now st seen session port i cs) /\
  Forall (fun v => cmd_id (vc_cmd v) ∉ seen /\ caller_session_id v = session /\
     Role.leb (domain_min_role (domain (vc_cmd v)) (op (vc_cmd v))) (caller_role v) = true)
    (connection now st seen session port i cs).
Proof.
  revert seen i. induction cs as [|c cs IH]; intros seen i; simpl; [split; constructor|].
  destruct (validate_cmd _ _ _ _ _ _) as [[v seen']|e] eqn:E; [|apply IH].
  apply validate_cmd_Ok in E as (who & [Ht Hs Hr _ _ Hf] & -> & ->).
  destruct (IH ({[cmd_id c]} ∪ seen) (S i)) as [Hnd Hall]. simpl. split.
  - apply NoDup_cons. split; [|done]. intros (v & Hv & Hin)%list_elem_of_fmap.
    rewrite Forall_forall in Hall. destruct (Hall v Hin) as [Hn _]. rewrite <- Hv in Hn. set_solver.
  - constructor; [done|]. eapply Forall_impl; [exact Hall|]. intros v'. simpl. set_solver.
Qed.

(** over a whole connection no command id is executed twice, and every executed
    command belongs to the connection's session and has at least its domain's
    minimum role, whatever the client sends. *)
Theorem connection_no_replay now st session port cs :
  let executed := connection now st ∅ session port 0 cs in
  NoDup ((fun v => cmd_id (vc_cmd v)) <$> executed) /\
  Forall (fun v => caller_session_id v = session /\
     Role.leb (domain_min_role (domain (vc_cmd v)) (op (vc_cmd v))) (caller_role v) = true) executed.
Proof.
  intros executed. destruct (connection_ids now st ∅ session port 0 cs) as [Hnd Hall].
  split; [exact Hnd|]. eapply Forall_impl; [exact Hall|]. by intros v (_ & ? & ?).
Qed.

End Gate.

(** Text that is not a number names process 0, the kernel's own id. *)
Example kill_garbage_names_kernel :
  translate (AgentKill "agent-7") Role.User =
    Ok {| ipc_method := "kernel/proc/kill"; ipc_params := JObj [("pid"%string, JInt 0)] |} /\
  Pid.is_kernel 0 = true.
Proof. done. Qed.
