(* ===== verification/EventBus.v ===== *)
(** * Event bus: scoping, filtering, the sequence counter and the replay ring

    Models [src/crates/avix-core/src/gateway/event_bus.rs] and the event frame of
    [gateway/atp/frame.rs] and kinds of [gateway/atp/types.rs].  The live channel is the
    broadcast interface of [Channels]; the clock is an argument, and so is whether the
    ring's lock is free when [publish] tries it. *)

From stdpp Require Import sorting.
From S2P Require Import Prelude Types Json Channels.

Open Scope Z_scope.

(** ** Kinds *)

Inductive AtpEventKind : Type :=
| SessionReady | SessionClosing | SessionAgentAttached | SessionAgentDetached | SessionStatusChanged
| TokenExpiring | AgentSpawned | AgentOutput | AgentStatus | AgentToolCall | AgentToolResult | AgentExit
| ProcStart | ProcOutput | ProcExit | ProcSignal | HilRequest | HilResolved | FsChanged | ToolChanged
| CronFired | SysService | SysAlert | AgentOutputChunk.
#[global] Instance AtpEventKind_eq_dec : EqDecision AtpEventKind.
Proof. solve_decision. Defined.

Definition kind_str (k : AtpEventKind) : string :=
  match k with
  | SessionReady => "session.ready" | SessionClosing => "session.closing"
  | SessionAgentAttached => "session.agent.attached" | SessionAgentDetached => "session.agent.detached"
  | SessionStatusChanged => "session.status" | TokenExpiring => "token.expiring"
  | AgentSpawned => "agent.spawned" | AgentOutput => "agent.output" | AgentStatus => "agent.status"
  | AgentToolCall => "agent.tool_call" | AgentToolResult => "agent.tool_result" | AgentExit => "agent.exit"
  | ProcStart => "proc.start" | ProcOutput => "proc.output" | ProcExit => "proc.exit"
  | ProcSignal => "proc.signal" | HilRequest => "hil.request" | HilResolved => "hil.resolved"
  | FsChanged => "fs.changed" | ToolChanged => "tool.changed" | CronFired => "cron.fired"
  | SysService => "sys.service" | SysAlert => "sys.alert" | AgentOutputChunk => "agent.output.chunk"
  end.

Lemma kind_str_inj k k' : kind_str k = kind_str k' -> k = k'.
Proof. by destruct k, k'. Qed.

(** ** Events *)

Record AtpEvent : Type := {
  msg_type : string; seq : Z; event : AtpEventKind; ev_session : string; ts : Z; ev_body : json
}.
Definition event_new (now : Z) (k : AtpEventKind) (session : string) (b : json) : AtpEvent :=
  {| msg_type := "event"; seq := 0; event := k; ev_session := session; ts := now; ev_body := b |}.

Record BusEvent : Type := {
  bseq : Z; bevent : AtpEvent; owner_session : option string; min_role : Role.t
}.

Definition event_scope (k : AtpEventKind) : Role.t * bool :=
  match k with
  | SessionReady | SessionClosing | TokenExpiring => (Role.Guest, true)
  | ToolChanged => (Role.Guest, false)
  | SysService => (Role.Admin, false)
  | SysAlert => (Role.Operator, false)
  | _ => (Role.User, true)
  end.

(** ** [EventFilter] *)

Record EventFilter : Type := { f_session : string; f_role : Role.t; subscribed : list string }.
Definition filter_new (s : string) (r : Role.t) : EventFilter :=
  {| f_session := s; f_role := r; subscribed := [] |}.
Definition set_subscriptions (f : EventFilter) (l : list string) : EventFilter :=
  {| f_session := f_session f; f_role := f_role f; subscribed := l |}.
Definition WILDCARD : string := "*".

Definition should_receive (f : EventFilter) (ev : BusEvent) : bool :=
  if Role.ltb (f_role f) (min_role ev) then false
  else if match owner_session ev with
          | Some o => negb (String.eqb o (f_session f)) && Role.ltb (f_role f) Role.Operator
          | None => false
          end then false
  else if decide (subscribed f = []) then false
  else if list_contains WILDCARD (subscribed f) then true
  else list_contains (kind_str (event (bevent ev))) (subscribed f).

(** ** [AtpEventBus] *)

Definition BUS_CAPACITY : nat := 1024.
Definition RING_CAPACITY : nat := Z.to_nat 512.
#[global] Arguments RING_CAPACITY : simpl never.

Section Bus.
Context {B R : Type} `{!Broadcast BusEvent B R}.

Record AtpEventBus : Type := { tx : B; seq_counter : Z; ring : list BusEvent }.
Definition bus_new : AtpEventBus := {| tx := bc_channel BUS_CAPACITY; seq_counter := 0; ring := [] |}.

(** [fetch_add] on the counter; the number given out is the event's. *)
Definition take_seq (b : AtpEventBus) : Z * AtpEventBus :=
  (seq_counter b,
   {| tx := tx b; seq_counter := (seq_counter b + 1) mod (u64_max + 1); ring := ring b |}).

Definition stamp (n : Z) (e : AtpEvent) (owner : option string) (r : Role.t) : BusEvent :=
  {| bseq := n; bevent := {| msg_type := msg_type e; seq := n; event := event e; ev_session := ev_session e;
                              ts := ts e; ev_body := ev_body e |};
     owner_session := owner; min_role := r |}.

Definition ring_push (l : list BusEvent) (e : BusEvent) : list BusEvent :=
  (if decide (RING_CAPACITY <= length l)%nat then tail l else l) ++ [e].

(** The rest of [publish]: the ring unless the event is a chunk or the lock is taken,
    then the broadcast. *)
Definition deliver (b : AtpEventBus) (free : bool) (e : BusEvent) : AtpEventBus :=
  {| tx := bc_send (tx b) e; seq_counter := seq_counter b;
     ring := if bool_decide (event (bevent e) <> AgentOutputChunk) && free
             then ring_push (ring b) e else ring b |}.

Definition publish (b : AtpEventBus) (free : bool) (e : AtpEvent) (owner : option string) (r : Role.t)
    : AtpEventBus :=
  let '(n, b) := take_seq b in deliver b free (stamp n e owner r).

Definition replay_since (b : AtpEventBus) (since : Z) : list BusEvent :=
  filter (fun e => since < bseq e) (ring b).

(** ** The publish helpers *)

(** [event_scope], [AtpEvent::new] and [publish] with the owner the scope asks for. *)
Definition emit (b : AtpEventBus) (free : bool) (now : Z) (k : AtpEventKind) (session : string) (body : json)
    : AtpEventBus :=
  let '(r, scoped) := event_scope k in
  publish b free (event_new now k session body) (if scoped then Some session else None) r.
(** The helpers for system-wide events name no session. *)
Definition emit_system (b : AtpEventBus) (free : bool) (now : Z) (k : AtpEventKind) (body : json) : AtpEventBus :=
  publish b free (event_new now k EmptyString body) None (event_scope k).1.

Definition pid_str (p : Z) : json := JStr (pretty p).

Definition agent_output b free now s p text :=
  emit b free now AgentOutput s (JObj [("pid", pid_str p); ("text", JStr text)]%string).
Definition agent_spawned b free now s p name goal agent_session :=
  emit b free now AgentSpawned s (JObj [("pid", pid_str p); ("name", JStr name); ("goal", JStr goal);
    ("sessionId", JStr agent_session)]%string).
Definition agent_output_chunk b free now s session p turn delta n (fin : bool) :=
  emit b free now AgentOutputChunk s (JObj [("pid", pid_str p); ("session_id", JStr session);
    ("turn_id", JStr turn); ("text_delta", JStr delta); ("seq", JInt n); ("is_final", JBool fin)]%string).
Definition agent_exit b free now s p code :=
  emit b free now AgentExit s (JObj [("pid", pid_str p); ("exitCode", JInt code)]%string).
Definition agent_status b free now s p st :=
  emit b free now AgentStatus s (JObj [("pid", pid_str p); ("status", JStr st)]%string).
Definition tool_changed b free now tool change :=
  emit_system b free now ToolChanged (JObj [("tool", JStr tool); ("change", JStr change)]%string).
Definition sys_service b free now svc st :=
  emit_system b free now SysService (JObj [("service", JStr svc); ("status", JStr st)]%string).
Definition sys_alert b free now msg :=
  emit_system b free now SysAlert (JObj [("message", JStr msg)]%string).
Definition fs_changed b free now s path :=
  emit b free now FsChanged s (JObj [("path", JStr path)]%string).
Definition hil_request b free now s id k :=
  emit b free now HilRequest s (JObj [("hilId", JStr id); ("kind", JStr k)]%string).
Definition hil_resolved b free now s id outcome :=
  emit b free now HilResolved s (JObj [("hilId", JStr id); ("outcome", JStr outcome)]%string).
Definition agent_tool_call b free now s p call tool (args : json) :=
  emit b free now AgentToolCall s (JObj [("pid", pid_str p); ("callId", JStr call); ("tool", JStr tool);
    ("args", args)]%string).
Definition agent_tool_result b free now s p call tool result :=
  emit b free now AgentToolResult s (JObj [("pid", pid_str p); ("callId", JStr call); ("tool", JStr tool);
    ("result", JStr result)]%string).

(** ** The replay ring *)

(** One call of [publish]. *)
Record Pub : Type := { p_free : bool; p_event : AtpEvent; p_owner : option string; p_role : Role.t }.
Definition publish_all (b : AtpEventBus) (ps : list Pub) : AtpEventBus :=
  foldl (fun b p => publish b (p_free p) (p_event p) (p_owner p) (p_role p)) b ps.

(** The events a run of publishes leaves for replay, numbered from [n]. *)
Fixpoint retained (n : Z) (ps : list Pub) : list BusEvent :=
  match ps with
  | [] => []
  | p :: ps =>
      (if bool_decide (event (p_event p) <> AgentOutputChunk) && p_free p
       then [stamp n (p_event p) (p_owner p) (p_role p)] else []) ++ retained (n + 1) ps
  end.

Definition last_n {A} (n : nat) (l : list A) : list A := drop (length l - n) l.

Lemma tail_drop {A} n (l : list A) : tail (drop n l) = drop (S n) l.
Proof. revert n. induction l as [|x l IH]; intros [|n]; simpl; auto. Qed.

Lemma last_n_push {A} n (l : list A) x : (0 < n)%nat ->
  (if decide (n <= length (last_n n l))%nat then tail (last_n n l) else last_n n l) ++ [x] = last_n n (l ++ [x]).
Proof.
  intros Hn. unfold last_n. rewrite length_drop, length_app. simpl. case_decide as Hd.
  - rewrite tail_drop, drop_app_le by lia. do 2 f_equal. lia.
  - rewrite drop_app_le by lia. do 2 f_equal. lia.
Qed.

Lemma publish_all_ring b ps :
  0 <= seq_counter b -> seq_counter b + Z.of_nat (length ps) <= u64_max ->
  forall old, ring b = last_n RING_CAPACITY old ->
  ring (publish_all b ps) = last_n RING_CAPACITY (old ++ retained (seq_counter b) ps) /\
  seq_counter (publish_all b ps) = seq_counter b + Z.of_nat (length ps).
Proof.
  revert b. induction ps as [|p ps IH]; intros b H0 Hle old Hring.
  - cbn [publish_all foldl retained length]. rewrite app_nil_r. split; [done|lia].
  - cbn [publish_all foldl retained length] in *. set (b1 := publish b _ _ _ _).
    assert (Hs : seq_counter b1 = seq_counter b + 1).
    { unfold b1, publish, deliver, take_seq. cbn [seq_counter]. rewrite Z.mod_small; machine. }
    fold (publish_all b1 ps).
    specialize (IH b1). rewrite Hs in IH.
    destruct (IH ltac:(lia) ltac:(lia) (old ++ (if bool_decide (event (p_event p) <> AgentOutputChunk) && p_free p
       then [stamp (seq_counter b) (p_event p) (p_owner p) (p_role p)] else []))) as [IH1 IH2].
    { unfold b1, publish, deliver, take_seq. cbn [ring bevent event stamp].
      destruct (bool_decide _ && p_free p); [|by rewrite app_nil_r].
      unfold ring_push. rewrite Hring. apply last_n_push. unfold RING_CAPACITY. lia. }
    rewrite app_assoc. split; [exact IH1 | lia].
Qed.

Lemma retained_bounds n ps : Forall (fun e => n <= bseq e) (retained n ps).
Proof.
  revert n. induction ps as [|p ps IH]; intros n; simpl; [constructor|]. apply Forall_app. split.
  - destruct (_ && _); [|constructor]. constructor; [simpl; lia | constructor].
  - eapply Forall_impl; [apply IH|]. simpl. lia.
Qed.

Definition before (a b : BusEvent) : Prop := bseq a < bseq b.

Lemma retained_sorted n ps : StronglySorted before (retained n ps).
Proof.
  revert n. induction ps as [|p ps IH]; intros n; simpl; [constructor|].
  destruct (_ && _); simpl; [|apply IH]. constructor; [apply IH|].
  eapply Forall_impl; [apply (retained_bounds (n + 1) ps)|]. unfold before. simpl. lia.
Qed.

Definition after (since : Z) (e : BusEvent) : Prop := since < bseq e.
#[local] Instance after_dec since e : Decision (after since e) := Z_lt_dec _ _.

Lemma filter_all {A} (P : A -> Prop) `{!forall x, Decision (P x)} l : Forall P l -> filter P l = l.
Proof. induction 1 as [|x l Hx Hl IH]; [done|]. rewrite filter_cons_True by done. by rewrite IH. Qed.
Lemma filter_none {A} (P : A -> Prop) `{!forall x, Decision (P x)} l :
  Forall (fun x => ~ P x) l -> filter P l = [].
Proof. induction 1 as [|x l Hx Hl IH]; [done|]. by rewrite filter_cons_False. Qed.
Lemma filter_sorted {A} (R' : A -> A -> Prop) (P : A -> Prop) `{!forall x, Decision (P x)} l :
  StronglySorted R' l -> StronglySorted R' (filter P l).
Proof.
  induction 1 as [|x l Hl IH Hx]; [constructor|]. destruct (decide (P x)).
  - rewrite filter_cons_True by done. constructor; [done|].
    rewrite Forall_forall in *. intros y [_ Hy]%list_elem_of_filter. by apply Hx.
  - by rewrite filter_cons_False.
Qed.

(** What comes after [since] in an ascending list sits in its last [c] elements when
    there is room for it. *)
Lemma filter_last_n c l since :
  StronglySorted before l -> (length (filter (after since) l) <= c)%nat ->
  filter (after since) (last_n c l) = filter (after since) l.
Proof.
  intros Hs Hlen. unfold last_n. set (k := (length l - c)%nat).
  destruct (decide (k = 0%nat)) as [->|Hk]; [done|].
  assert (Hd : length (drop k l) = c) by (rewrite length_drop; lia).
  rewrite <- (take_drop k l) in Hs, Hlen. rewrite <- (take_drop k l) at 2. rewrite filter_app in *.
  rewrite (filter_none _ (take k l)); [done|]. apply Forall_forall. intros x Hx Hax.
  assert (Hall : Forall (after since) (drop k l)).
  { apply Forall_forall. intros y Hy. unfold after in *.
    pose proof (StronglySorted_app_1_elem_of _ _ _ x y Hs Hx Hy) as Hb. unfold before in Hb. lia. }
  rewrite (filter_all _ _ Hall), length_app, Hd in Hlen.
  assert (Hf : x ∈ filter (after since) (take k l)) by (by apply list_elem_of_filter).
  destruct (filter (after since) (take k l)); [by apply not_elem_of_nil in Hf | simpl in Hlen; lia].
Qed.

(** after any run of publishes that does not exhaust the counter, a replay
    gives, in ascending order of sequence number, the retained events after the cursor among
    the last [RING_CAPACITY] (not the chunks, nor those published while the ring was
    locked); it gives all of them when no more than that came after the cursor; and
    it never gives the first event of the bus, numbered 0. *)
Theorem replay_complete (ps : list Pub) (since : Z) :
  Z.of_nat (length ps) <= u64_max -> is_u64 since ->
  let b := publish_all bus_new ps in
  let kept := retained 0 ps in
  replay_since b since = filter (after since) (last_n RING_CAPACITY kept) /\
  StronglySorted before (replay_since b since) /\
  ((length (filter (after since) kept) <= RING_CAPACITY)%nat ->
     replay_since b since = filter (after since) kept) /\
  Forall (fun e => bseq e <> 0) (replay_since b since).
Proof.
  intros Hlen Hs b kept.
  destruct (publish_all_ring bus_new ps) with (old := @nil BusEvent) as [Hr _]; [simpl; lia|done|done|].
  simpl in Hr. fold b in Hr. fold kept in Hr.
  assert (Heq : replay_since b since = filter (after since) (last_n RING_CAPACITY kept)).
  { unfold replay_since. by rewrite Hr. }
  assert (Hsort : StronglySorted before (last_n RING_CAPACITY kept)).
  { pose proof (retained_sorted 0 ps) as H. fold kept in H. unfold last_n.
    rewrite <- (take_drop (length kept - RING_CAPACITY) kept) in H.
    apply StronglySorted_app in H. tauto. }
  split; [done|]. rewrite Heq. split; [by apply filter_sorted|]. split.
  - intros Hc. apply filter_last_n; [apply retained_sorted | done].
  - apply Forall_forall. intros e [Ha _]%list_elem_of_filter. unfold after in Ha. machine.
Qed.

(** ** Who receives an event *)

(** The event a helper puts on the bus. *)
Definition emitted (n now : Z) (k : AtpEventKind) (session : string) (body : json) : BusEvent :=
  stamp n (event_new now k session body) (if (event_scope k).2 then Some session else None) (event_scope k).1.

Lemma emit_tx b free now k session body :
  tx (emit b free now k session body) = bc_send (tx b) (emitted (seq_counter b) now k session body).
Proof. unfold emit, emitted. by destruct (event_scope k). Qed.

(** a connection is sent an event of a helper exactly when its role reaches the kind's
    minimum, the event is not owned by another session unless the connection is an operator's, and
    the connection subscribed to the kind or to everything; in particular a plain user never
    receives an owned event of another session. *)
Theorem event_confidentiality (f : EventFilter) n now k session body :
  let '(need, owned) := event_scope k in
  (should_receive f (emitted n now k session body) = true <->
     Role.leb need (f_role f) = true /\
     (owned = true -> session = f_session f \/ Role.leb Role.Operator (f_role f) = true) /\
     (WILDCARD ∈ subscribed f \/ kind_str k ∈ subscribed f)) /\
  (owned = true -> session <> f_session f -> Role.ltb (f_role f) Role.Operator = true ->
     should_receive f (emitted n now k session body) = false).
Proof.
  destruct (event_scope k) as [need owned] eqn:Ek.
  assert (Hiff : should_receive f (emitted n now k session body) = true <->
     Role.leb need (f_role f) = true /\
     (owned = true -> session = f_session f \/ Role.leb Role.Operator (f_role f) = true) /\
     (WILDCARD ∈ subscribed f \/ kind_str k ∈ subscribed f)).
  { unfold should_receive, emitted. rewrite Ek. cbn [min_role owner_session stamp bevent event event_new fst snd].
    rewrite !Role.ltb_leb. destruct (Role.leb need (f_role f)); simpl; [|naive_solver].
    assert (Hsub : (if decide (subscribed f = []) then false
       else if list_contains WILDCARD (subscribed f) then true
            else list_contains (kind_str k) (subscribed f)) = true <->
       WILDCARD ∈ subscribed f \/ kind_str k ∈ subscribed f).
    { unfold list_contains. case_decide as He; [rewrite He; set_solver|].
      destruct (decide (WILDCARD ∈ subscribed f)) as [Hw|Hw].
      - rewrite bool_decide_true by done. tauto.
      - rewrite bool_decide_false by done. rewrite bool_decide_eq_true. tauto. }
    destruct owned; simpl; [|naive_solver].
    destruct (String.eqb_spec session (f_session f)); simpl; [naive_solver|].
    destruct (Role.leb Role.Operator (f_role f)); simpl; naive_solver. }
  split; [exact Hiff|]. intros Ho Hne Hlt. apply not_true_iff_false. rewrite Hiff.
  rewrite Role.ltb_leb in Hlt. intros (_ & [?|Hop]%(fun H => H Ho) & _); [done|]. by rewrite Hop in Hlt.
Qed.

End Bus.

Import LogBroadcast.

Definition alert : Pub :=
  {| p_free := true; p_event := event_new 0 SysAlert EmptyString JNull; p_owner := None; p_role := Role.Operator |}.

Lemma replay_complete_witness :
  bseq <$> replay_since (publish_all (bus_new (B := log BusEvent) (R := nat)) [alert; alert; alert]) 0 = [1; 2].
Proof.
  destruct (replay_complete (B := log BusEvent) (R := nat) [alert; alert; alert] 0) as (H & _);
    [vm_compute; discriminate | vm_compute; split; discriminate |].
  rewrite H. reflexivity.
Defined.

(** Two publishers that take their numbers in one order and reach the ring in the
    other: the replay is not in the order of the sequence numbers. *)
Example publish_race :
  let '(n1, b) := take_seq (bus_new (B := log BusEvent) (R := nat)) in
  let '(n2, b) := take_seq b in
  let '(n3, b) := take_seq b in
  let ev n := stamp n (event_new 0 SysAlert EmptyString JNull) None Role.Operator in
  bseq <$> replay_since (deliver (deliver (deliver b true (ev n1)) true (ev n3)) true (ev n2)) 0 = [2; 1].
Proof. reflexivity. Qed.
