(* ===== verification/Hil.v ===== *)
(** * Human in the loop: approval tokens and the HIL manager

    Models [src/crates/avix-core/src/kernel/] [hil.rs], [approval_token.rs] and
    [hil_manager.rs], on the models of the event bus, the signal bus and the in-memory
    filesystem.  [resolve] and the timeout task are sequences of the steps between
    their locks, so that they interleave; the YAML serialiser, the JSON rendering of an
    instant and the clock are arguments. *)

From S2P Require Import Prelude Types Json Channels ToolRegistry Vfs Signals EventBus.

Open Scope Z_scope.

(** ** [hil.rs] *)

Inductive HilType : Type := ToolCallApproval | CapabilityUpgrade | Escalation.
Inductive HilState : Type := Pending | Approved | Denied | Timeout.
Inductive HilUrgency : Type := Low | Normal | High.
Record HilOption : Type := { opt_id : string; opt_label : string }.

Record HilRequest : Type := {
  api_version : string; hr_kind : string; hil_id : string; hr_pid : Z; agent_name : string;
  hil_type : HilType; tool : option string; args : option json; reason : option string;
  context : option string; options : option (list HilOption); urgency : HilUrgency;
  approval_token : string; created_at : Z; expires_at : Z; state : HilState; atp_session_id : string
}.

Definition hil_type_str (t : HilType) : string :=
  match t with
  | ToolCallApproval => "tool_call_approval" | CapabilityUpgrade => "capability_upgrade"
  | Escalation => "escalation"
  end.
Definition urgency_str (u : HilUrgency) : string :=
  match u with Low => "low" | Normal => "normal" | High => "high" end.

Definition vfs_path (r : HilRequest) : string :=
  ("/proc/" +:+ Pid.to_string (hr_pid r) +:+ "/hil-queue/" +:+ hil_id r +:+ ".yaml")%string.

Definition with_hil_state (r : HilRequest) (s : HilState) : HilRequest := {|
  api_version := api_version r; hr_kind := hr_kind r; hil_id := hil_id r; hr_pid := hr_pid r;
  agent_name := agent_name r; hil_type := hil_type r; tool := tool r; args := args r; reason := reason r;
  context := context r; options := options r; urgency := urgency r; approval_token := approval_token r;
  created_at := created_at r; expires_at := expires_at r; state := s; atp_session_id := atp_session_id r
|}.

(** ** [approval_token.rs]: the used flag of each token *)

Module ApprovalTokenStore.
Notation t := (gmap string bool).
Definition create (s : t) (uuid : string) : t := <[uuid := false]> s.
Definition register (s : t) (token : string) : t :=
  match s !! token with Some _ => s | None => <[token := false]> s end.
(** The compare-and-exchange of the flag. *)
Definition consume (s : t) (token : string) : result AvixError t :=
  match s !! token with
  | None => Err (CapabilityDenied "token not found")
  | Some true => Err (CapabilityDenied "EUSED: token already used")
  | Some false => Ok (<[token := true]> s)
  end.
End ApprovalTokenStore.

(** ** [hil_manager.rs] *)

Section Manager.
Context {B R : Type} `{!Broadcast BusEvent B R}.
Context {B' R' : Type} `{!Broadcast Signal B' R'}.
(** [serde_yaml::to_string] on a request; [Err] carries its message. *)
Variable to_yaml : HilRequest -> result string string.
(** the JSON value of an instant *)
Variable instant_json : Z -> json.

Record HilManager : Type := {
  pending : gmap string HilRequest;
  approval_store : gmap string bool;
  event_bus : AtpEventBus (B := B);
  hvfs : gmap string string;
  signal_bus : SignalBus.t (B := B')
}.

Definition set_pending (m : HilManager) p : HilManager :=
  {| pending := p; approval_store := approval_store m; event_bus := event_bus m; hvfs := hvfs m; signal_bus := signal_bus m |}.
Definition set_tokens (m : HilManager) t : HilManager :=
  {| pending := pending m; approval_store := t; event_bus := event_bus m; hvfs := hvfs m; signal_bus := signal_bus m |}.
Definition set_bus (m : HilManager) b : HilManager :=
  {| pending := pending m; approval_store := approval_store m; event_bus := b; hvfs := hvfs m; signal_bus := signal_bus m |}.
Definition set_vfs (m : HilManager) v : HilManager :=
  {| pending := pending m; approval_store := approval_store m; event_bus := event_bus m; hvfs := v; signal_bus := signal_bus m |}.
Definition set_signals (m : HilManager) s : HilManager :=
  {| pending := pending m; approval_store := approval_store m; event_bus := event_bus m; hvfs := hvfs m; signal_bus := s |}.

Definition prompt (r : HilRequest) : string :=
  match tool r, reason r with
  | Some t, Some w => "Agent requests capability: " +:+ t +:+ ". Reason: " +:+ w
  | Some t, None => "Agent requests capability: " +:+ t
  | None, Some w => w
  | None, None => "Agent requires human approval"
  end%string.

(** [(expires_at - now).num_seconds().max(0) as u32] *)
Definition timeout_left (now : Z) (r : HilRequest) : Z :=
  Z.max 0 (Z.quot (expires_at r - now) 1000000000) mod (u32_max + 1).

Definition request_body (now : Z) (r : HilRequest) : json := JObj [
  ("hil_id", JStr (hil_id r)); ("pid", JInt (hr_pid r)); ("session_id", JStr (atp_session_id r));
  ("approval_token", JStr (approval_token r)); ("hil_type", JStr (hil_type_str (hil_type r)));
  ("tool", jopt JStr (tool r)); ("reason", jopt JStr (reason r)); ("prompt", JStr (prompt r));
  ("timeout_secs", JInt (timeout_left now r)); ("urgency", JStr (urgency_str (urgency r)))]%string.

(** The event is owned by the agent's name. *)
Definition request_event (now : Z) (r : HilRequest) : AtpEvent :=
  event_new now EventBus.HilRequest (agent_name r) (request_body now r).

(** [open], up to the spawned timer. *)
Definition open (now : Z) (free : bool) (m : HilManager) (r : HilRequest) : result AvixError HilManager :=
  yaml ← map_err (fun e => ConfigParse ("yaml serialise: " +:+ e)%string) (to_yaml r);
  path ← VfsPath.parse (vfs_path r);
  let m := set_vfs m (MemFs.write (hvfs m) path yaml) in
  let m := set_pending m (<[hil_id r := r]> (pending m)) in
  let m := set_tokens m (ApprovalTokenStore.register (approval_store m) (approval_token r)) in
  Ok (set_bus m (publish (event_bus m) free (request_event now r) (Some (agent_name r)) Role.User)).

(** Rewriting the request's file; a failure is ignored. *)
Definition write_state (m : HilManager) (r : HilRequest) : HilManager :=
  let yaml := match to_yaml r with Ok y => y | Err _ => EmptyString end in
  match VfsPath.parse (vfs_path r) with
  | Ok p => set_vfs m (MemFs.write (hvfs m) p yaml)
  | Err _ => m
  end.

Record Target : Type := { tg_owner : string; tg_pid : Z; tg_session : string }.

Definition resolved_event (now : Z) (id outcome by_ : string) (t : Target) : AtpEvent :=
  event_new now EventBus.HilResolved (tg_owner t) (JObj [
    ("hil_id", JStr id); ("pid", JInt (tg_pid t)); ("session_id", JStr (tg_session t));
    ("outcome", JStr outcome); ("resolved_by", JStr by_); ("resolved_at", instant_json now)]%string).
Definition push_resolved (now : Z) (free : bool) (m : HilManager) (id outcome by_ : string) (t : Target) : HilManager :=
  set_bus m (publish (event_bus m) free (resolved_event now id outcome by_ t) (Some (tg_owner t)) Role.User).

(** *** [resolve], step by step *)

Definition resolve_consume (m : HilManager) (token : string) : result AvixError HilManager :=
  set_tokens m <$> ApprovalTokenStore.consume (approval_store m) token.
(** Under the read lock of [pending]. *)
Definition resolve_update (m : HilManager) (id decision : string) : HilManager * Target :=
  match pending m !! id with
  | Some r =>
      let s := if String.eqb decision "approved" then Approved else Denied in
      (write_state m (with_hil_state r s),
       {| tg_owner := agent_name r; tg_pid := hr_pid r; tg_session := atp_session_id r |})
  | None => (m, {| tg_owner := EmptyString; tg_pid := 0; tg_session := EmptyString |})
  end.
Definition resolve_remove (m : HilManager) (id : string) : HilManager :=
  set_pending m (base.delete id (pending m)).

Definition resolve (now : Z) (free : bool) (m : HilManager) (id token decision by_ : string)
    : result AvixError HilManager :=
  m ← resolve_consume m token;
  let '(m, t) := resolve_update m id decision in
  Ok (push_resolved now free (resolve_remove m id) id decision by_ t).

(** *** [timeout_hil], step by step *)

(** Under the write lock of [pending]; [None]: already resolved. *)
Definition timeout_take (m : HilManager) (id : string) : option (HilManager * HilRequest) :=
  match pending m !! id with
  | Some r => Some (set_pending (write_state m (with_hil_state r Timeout)) (base.delete id (pending m)), r)
  | None => None
  end.
Definition timeout_signal (p : Z) : Signal :=
  {| target := p; kind := Signals.Resume; payload := JObj [("decision", JStr "timeout")]%string |}.
Definition timeout_send (m : HilManager) (p : Z) : HilManager :=
  set_signals m (SignalBus.send (signal_bus m) (timeout_signal p)).

Definition timeout_hil (now : Z) (free : bool) (m : HilManager) (id : string) (p : Z) : HilManager :=
  match timeout_take m id with
  | None => m
  | Some (m, r) =>
      push_resolved now free (timeout_send m p) id "timeout" "kernel"
        {| tg_owner := agent_name r; tg_pid := p; tg_session := atp_session_id r |}
  end.

(** *** One call at a time *)

Definition yaml_or_empty (r : HilRequest) : string :=
  match to_yaml r with Ok y => y | Err _ => EmptyString end.

Lemma write_state_eq m r : VfsPath.parse (vfs_path r) = Ok (vfs_path r) ->
  write_state m r = set_vfs m (<[vfs_path r := yaml_or_empty r]> (hvfs m)).
Proof. intros H. unfold write_state. by rewrite H. Qed.

Definition target_of (r : HilRequest) : Target :=
  {| tg_owner := agent_name r; tg_pid := hr_pid r; tg_session := atp_session_id r |}.
Definition no_target : Target := {| tg_owner := EmptyString; tg_pid := 0; tg_session := EmptyString |}.

(** The event a resolution puts on the bus of [m]. *)
Definition announced (m : HilManager) (now : Z) (id outcome by_ : string) (t : Target) : BusEvent :=
  stamp (seq_counter (event_bus m)) (resolved_event now id outcome by_ t) (Some (tg_owner t)) Role.User.

Lemma consume_Ok m token m' :
  resolve_consume m token = Ok m' <->
  approval_store m !! token = Some false /\ m' = set_tokens m (<[token := true]> (approval_store m)).
Proof.
  unfold resolve_consume, ApprovalTokenStore.consume.
  destruct (approval_store m !! token) as [[]|]; simpl; naive_solver.
Qed.

(** [resolve] needs an unused token, whichever request it was made for, and no pending request. *)
Lemma resolve_needs_token now free m id token decision by_ :
  (exists m', resolve now free m id token decision by_ = Ok m') <-> approval_store m !! token = Some false.
Proof.
  unfold resolve. split.
  - intros [m' H]. destruct (resolve_consume m token) as [m1|] eqn:E; [|done].
    apply consume_Ok in E. tauto.
  - intros H. assert (resolve_consume m token = Ok (set_tokens m (<[token := true]> (approval_store m)))) as ->
      by (by apply consume_Ok). simpl.
    destruct (resolve_update _ id decision) as [m1 t]. eauto.
Qed.

(** with a pending request whose token is unused, [resolve] records the decision in the
    request's file, retires the request and its token and announces the outcome once; the token
    is then refused for every request and the request's own timer does nothing.  If the timer
    comes first, the file says [Timeout] and the agent is sent SIGRESUME, but the token stays
    usable: a later [resolve] still succeeds, and announces the decision for process 0 and
    no owner. *)
Theorem hil_resolution now free m r decision by_ :
  pending m !! hil_id r = Some r -> approval_store m !! approval_token r = Some false ->
  VfsPath.parse (vfs_path r) = Ok (vfs_path r) ->
  let s := if String.eqb decision "approved" then Approved else Denied in
  (exists m1, resolve now free m (hil_id r) (approval_token r) decision by_ = Ok m1 /\
     pending m1 = base.delete (hil_id r) (pending m) /\
     hvfs m1 !! vfs_path r = Some (yaml_or_empty (with_hil_state r s)) /\
     tx (event_bus m1) = bc_send (tx (event_bus m)) (announced m now (hil_id r) decision by_ (target_of r)) /\
     (forall now' free' id' d' b', resolve now' free' m1 id' (approval_token r) d' b' =
        Err (CapabilityDenied "EUSED: token already used")) /\
     (forall now' free' p, timeout_hil now' free' m1 (hil_id r) p = m1)) /\
  (let m2 := timeout_hil now free m (hil_id r) (hr_pid r) in
   pending m2 = base.delete (hil_id r) (pending m) /\
   hvfs m2 !! vfs_path r = Some (yaml_or_empty (with_hil_state r Timeout)) /\
   signal_bus m2 = SignalBus.send (signal_bus m) (timeout_signal (hr_pid r)) /\
   tx (event_bus m2) = bc_send (tx (event_bus m)) (announced m now (hil_id r) "timeout" "kernel" (target_of r)) /\
   forall now' free', exists m3,
     resolve now' free' m2 (hil_id r) (approval_token r) decision by_ = Ok m3 /\
     tx (event_bus m3) = bc_send (tx (event_bus m2)) (announced m2 now' (hil_id r) decision by_ no_target)).
Proof.
  intros Hp Ht Hv s.
  assert (Hv' : forall s', VfsPath.parse (vfs_path (with_hil_state r s')) = Ok (vfs_path (with_hil_state r s')))
    by (intros []; exact Hv). split.
  - unfold resolve, resolve_consume, ApprovalTokenStore.consume. rewrite Ht. simpl.
    unfold resolve_update. cbn [pending set_tokens]. rewrite Hp. fold s. rewrite (write_state_eq _ _ (Hv' s)).
    eexists. split; [done|]. split; [done|]. split; [apply lookup_insert_eq|]. split; [done|]. split.
    + intros. simpl. by rewrite lookup_insert_eq.
    + intros. unfold timeout_hil, timeout_take. simpl. by rewrite lookup_delete_eq.
  - assert (Htk : timeout_take m (hil_id r) =
      Some (set_pending (write_state m (with_hil_state r Timeout)) (base.delete (hil_id r) (pending m)), r))
      by (unfold timeout_take; by rewrite Hp).
    intros m2. subst m2. unfold timeout_hil. rewrite Htk, (write_state_eq _ _ (Hv' Timeout)).
    split; [done|]. split; [apply lookup_insert_eq|]. split; [done|]. split; [done|].
    intros now' free'. unfold resolve, resolve_consume, ApprovalTokenStore.consume. simpl. rewrite Ht. simpl.
    unfold resolve_update. simpl. rewrite lookup_delete_eq. eexists. split; [done|]. done.
Qed.

(** A request's event is owned by the agent's name, not by the session that must answer it: a
    connection below operator, even the one of the request's session, is not sent it
    unless its session is called like the agent. *)
Lemma hil_request_hidden now n (f : EventFilter) r :
  f_session f = atp_session_id r -> atp_session_id r <> agent_name r ->
  Role.ltb (f_role f) Role.Operator = true ->
  should_receive f (stamp n (request_event now r) (Some (agent_name r)) Role.User) = false.
Proof.
  intros Hs Hne Hr. unfold should_receive. cbn [min_role owner_session stamp].
  destruct (Role.ltb (f_role f) Role.User); [done|].
  destruct (String.eqb_spec (agent_name r) (f_session f)); [congruence|]. by rewrite Hr.
Qed.

(** *** Resolutions and timers in any interleaving *)

Inductive Task : Type :=
| Consumed (id token decision by_ : string)
| Updated (id token decision by_ : string) (t : Target)
| Removed (id token decision by_ : string) (t : Target)
| Timer (id : string) (p : Z)
| Taken (id : string) (p : Z) (r : HilRequest)
| Signalled (id : string) (p : Z) (r : HilRequest).

(** [finished]: the tokens of the resolutions that announced their outcome. *)
Record Sys : Type := { mgr : HilManager; tasks : list Task; finished : list string }.

Inductive step : Sys -> Sys -> Prop :=
| s_open now free m m' ts fin r :
    open now free m r = Ok m' -> step (Build_Sys m ts fin) (Build_Sys m' (Timer (hil_id r) (hr_pid r) :: ts) fin)
| s_create m ts fin uuid :
    approval_store m !! uuid = None ->
    step (Build_Sys m ts fin) (Build_Sys (set_tokens m (ApprovalTokenStore.create (approval_store m) uuid)) ts fin)
| s_consume m m' ts fin id token d b :
    resolve_consume m token = Ok m' -> step (Build_Sys m ts fin) (Build_Sys m' (Consumed id token d b :: ts) fin)
| s_update m ts1 ts2 fin id token d b :
    step (Build_Sys m (ts1 ++ Consumed id token d b :: ts2) fin)
      (Build_Sys (resolve_update m id d).1 (ts1 ++ Updated id token d b (resolve_update m id d).2 :: ts2) fin)
| s_remove m ts1 ts2 fin id token d b t :
    step (Build_Sys m (ts1 ++ Updated id token d b t :: ts2) fin)
      (Build_Sys (resolve_remove m id) (ts1 ++ Removed id token d b t :: ts2) fin)
| s_announce now free m ts1 ts2 fin id token d b t :
    step (Build_Sys m (ts1 ++ Removed id token d b t :: ts2) fin)
      (Build_Sys (push_resolved now free m id d b t) (ts1 ++ ts2) (token :: fin))
| s_timeout m m' ts1 ts2 fin id p r :
    timeout_take m id = Some (m', r) ->
    step (Build_Sys m (ts1 ++ Timer id p :: ts2) fin) (Build_Sys m' (ts1 ++ Taken id p r :: ts2) fin)
| s_late m ts1 ts2 fin id p :
    timeout_take m id = None ->
    step (Build_Sys m (ts1 ++ Timer id p :: ts2) fin) (Build_Sys m (ts1 ++ ts2) fin)
| s_signal m ts1 ts2 fin id p r :
    step (Build_Sys m (ts1 ++ Taken id p r :: ts2) fin)
      (Build_Sys (timeout_send m p) (ts1 ++ Signalled id p r :: ts2) fin)
| s_timed_out now free m ts1 ts2 fin id p r :
    step (Build_Sys m (ts1 ++ Signalled id p r :: ts2) fin)
      (Build_Sys (push_resolved now free m id "timeout" "kernel"
         {| tg_owner := agent_name r; tg_pid := p; tg_session := atp_session_id r |}) (ts1 ++ ts2) fin).

Definition manager_new : HilManager :=
  {| pending := ∅; approval_store := ∅; event_bus := bus_new; hvfs := ∅; signal_bus := SignalBus.new |}.
Definition reachable (s : Sys) : Prop := rtc step (Build_Sys manager_new [] []) s.

Definition task_token (t : Task) : list string :=
  match t with Consumed _ k _ _ | Updated _ k _ _ _ | Removed _ k _ _ _ => [k] | _ => [] end.
(** The resolutions that passed the token check, under way or finished. *)
Definition resolutions (s : Sys) (token : string) : nat :=
  length (filter (fun k => k = token) ((tasks s ≫= task_token) ++ finished s)).

Lemma resolutions_perm s s' :
  (tasks s' ≫= task_token) ++ finished s' ≡ₚ (tasks s ≫= task_token) ++ finished s ->
  forall token, resolutions s' token = resolutions s token.
Proof. intros H token. unfold resolutions. by rewrite H. Qed.

Lemma write_state_tokens m r : approval_store (write_state m r) = approval_store m.
Proof. unfold write_state. by destruct (VfsPath.parse _). Qed.

Definition used (m : HilManager) (token : string) : bool := bool_decide (approval_store m !! token = Some true).
Definition inv (s : Sys) : Prop := forall token, resolutions s token = if used (mgr s) token then 1%nat else 0%nat.

Lemma inv_same s s' :
  inv s -> (tasks s' ≫= task_token) ++ finished s' ≡ₚ (tasks s ≫= task_token) ++ finished s ->
  (forall token, approval_store (mgr s') !! token = Some true <-> approval_store (mgr s) !! token = Some true) ->
  inv s'.
Proof.
  intros Hi Hp Hu token. rewrite (resolutions_perm _ _ Hp), Hi. unfold used.
  by rewrite (bool_decide_ext _ _ (Hu token)).
Qed.

Lemma hil_inv_step s s' : step s s' -> inv s -> inv s'.
Proof.
  destruct 1 as [now free m m' ts fin r Ho|m ts fin uuid Hu|m m' ts fin id token d b Hc|m ts1 ts2 fin id token d b
    |m ts1 ts2 fin id token d b t|now free m ts1 ts2 fin id token d b t|m m' ts1 ts2 fin id p r Ht
    |m ts1 ts2 fin id p Ht|m ts1 ts2 fin id p r|now free m ts1 ts2 fin id p r]; intros Hinv.
  - apply (inv_same _ _ Hinv); [done|]. intros token. unfold open in Ho.
    destruct (to_yaml r); simpl in Ho; [|done]. destruct (VfsPath.parse _); simpl in Ho; [|done].
    injection Ho as <-. simpl. unfold ApprovalTokenStore.register.
    destruct (approval_store m !! approval_token r) eqn:E; [done|]. rewrite lookup_insert_Some. naive_solver.
  - apply (inv_same _ _ Hinv); [done|]. intros token. simpl. unfold ApprovalTokenStore.create.
    rewrite lookup_insert_Some. naive_solver.
  - apply consume_Ok in Hc as [Hf ->]. intros k. specialize (Hinv k). unfold resolutions, used in *.
    simpl in *. rewrite filter_cons. destruct (decide (token = k)) as [->|Hne]; simpl.
    + etransitivity; [apply f_equal, Hinv|]. rewrite bool_decide_false by congruence.
      rewrite bool_decide_true by apply lookup_insert_eq. done.
    + etransitivity; [apply Hinv|]. by rewrite lookup_insert_ne.
  - apply (inv_same _ _ Hinv); simpl; [by rewrite !bind_app|]. intros k. unfold resolve_update.
    destruct (pending m !! id); simpl; by rewrite ?write_state_tokens.
  - apply (inv_same _ _ Hinv); simpl; [by rewrite !bind_app|]. done.
  - apply (inv_same _ _ Hinv); simpl; [|done]. rewrite !bind_app. simpl.
    rewrite <- !app_assoc. simpl. apply Permutation_app_head. symmetry. apply Permutation_middle.
  - apply (inv_same _ _ Hinv); simpl; [by rewrite !bind_app|]. unfold timeout_take in Ht.
    destruct (pending m !! id); simplify_eq. simpl. by rewrite write_state_tokens.
  - apply (inv_same _ _ Hinv); simpl; [by rewrite !bind_app|]. done.
  - apply (inv_same _ _ Hinv); simpl; [by rewrite !bind_app|]. done.
  - apply (inv_same _ _ Hinv); simpl; [by rewrite !bind_app|]. done.
Qed.

Lemma hil_reachable_inv s : reachable s -> inv s.
Proof.
  intros H. unfold reachable in H. pattern s. revert s H. apply rtc_ind_r; [by intros token|].
  intros s1 s2 _ Hs IH. by eapply hil_inv_step.
Qed.

(** C23: in every interleaving of openings, resolutions and timers an approval token
    lets at most one resolution through, and exactly one once it is marked used; a used
    token admits no further one. *)
Theorem approval_single_use (s : Sys) (token : string) :
  reachable s ->
  (resolutions s token <= 1)%nat /\
  (resolutions s token = 1%nat <-> approval_store (mgr s) !! token = Some true) /\
  (resolutions s token = 1%nat -> forall m', resolve_consume (mgr s) token <> Ok m').
Proof.
  intros Hi%hil_reachable_inv. specialize (Hi token). unfold used in Hi.
  destruct (decide (approval_store (mgr s) !! token = Some true)) as [Hu|Hu].
  - rewrite bool_decide_true in Hi by done. rewrite Hi. split; [lia|]. split; [done|].
    intros _ m' [Hf _]%consume_Ok. congruence.
  - rewrite bool_decide_false in Hi by done. rewrite Hi. split; [lia|]. naive_solver.
Qed.

End Manager.

Import LogBroadcast.

(** A request and a serialiser that shows its state, for concrete runs. *)
Definition sample_hil : HilRequest := {|
  api_version := "avix/v1"; hr_kind := "HilRequest"; hil_id := "h1"; hr_pid := 57; agent_name := "researcher";
  hil_type := ToolCallApproval; tool := Some "send_email"%string; args := None; reason := None; context := None;
  options := None; urgency := Normal; approval_token := "tok"; created_at := 0; expires_at := 600000000000;
  state := Pending; atp_session_id := "s1"
|}.
Definition state_yaml (r : HilRequest) : result string string :=
  Ok (match state r with
      | Pending => "pending" | Approved => "approved" | Denied => "denied" | Timeout => "timeout"
      end)%string.
Definition no_instant (_ : Z) : json := JNull.
Definition hil_mgr : HilManager (B := log BusEvent) (B' := log Signal) :=
  match open state_yaml 0 true manager_new sample_hil with Ok m => m | Err _ => manager_new end.
Definition hil_start : Sys := Build_Sys hil_mgr [Timer "h1" 57] [].

Lemma hil_start_reachable : reachable state_yaml no_instant hil_start.
Proof. eapply rtc_l; [|apply rtc_refl]. by apply (s_open _ _ 0 true _ hil_mgr [] [] sample_hil). Qed.

Lemma approval_single_use_witness :
  exists m', resolve_consume hil_mgr "tok" = Ok m' /\
    approval_store m' !! "tok"%string = Some true /\ forall m'', resolve_consume m' "tok" <> Ok m''.
Proof.
  exists (set_tokens hil_mgr (<["tok"%string := true]> (approval_store hil_mgr))).
  split; [reflexivity|].
  assert (Hr : reachable state_yaml no_instant
    (Build_Sys (set_tokens hil_mgr (<["tok"%string := true]> (approval_store hil_mgr)))
       [Consumed "h1" "tok" "approved" "alice"; Timer "h1" 57] [])).
  { eapply rtc_r; [apply hil_start_reachable|]. by apply s_consume. }
  destruct (approval_single_use state_yaml no_instant _ "tok" Hr) as (_ & [H1 _] & H2).
  split; [exact (H1 eq_refl) | exact (H2 eq_refl)].
Defined.

Lemma hil_resolution_witness :
  exists m1, resolve state_yaml no_instant 1 true hil_mgr "h1" "tok" "approved" "alice" = Ok m1 /\
    hvfs m1 !! vfs_path sample_hil = Some "approved"%string.
Proof.
  destruct (hil_resolution state_yaml no_instant 1 true hil_mgr sample_hil "approved" "alice")
    as [(m1 & H1 & _ & H2 & _) _]; [reflexivity..|].
  exists m1. split; [exact H1 | exact H2].
Defined.

(** The timer may fire between the update and the removal of a resolution: the human
    approved, the file says timeout, and both outcomes are announced. *)
Example resolve_timeout_race : exists s, reachable state_yaml no_instant s /\
  tasks s = [] /\ finished s = ["tok"]%string /\
  hvfs (mgr s) !! vfs_path sample_hil = Some "timeout"%string /\
  (fun e => jget (ev_body (bevent e)) "outcome") <$> ring (event_bus (mgr s)) =
    [None; Some (JStr "approved"); Some (JStr "timeout")].
Proof.
  eexists. split; [|split; [|split; [|split]]].
  - unfold reachable. etransitivity; [apply hil_start_reachable|]. unfold hil_start.
    eapply rtc_l; [eapply (s_consume _ _ _ _ _ _ "h1" "tok" "approved" "alice"); reflexivity|].
    eapply rtc_l; [eapply (s_update _ _ _ [] _ _ "h1" "tok")|].
    eapply rtc_l; [eapply (s_timeout _ _ _ _ [_] [] _ "h1" 57); reflexivity|].
    eapply rtc_l; [eapply (s_remove _ _ _ [] _ _ "h1" "tok")|].
    eapply rtc_l; [eapply (s_announce _ _ 2 true _ [] _ _ "h1" "tok")|].
    eapply rtc_l; [eapply (s_signal _ _ _ [] [])|].
    eapply rtc_l; [eapply (s_timed_out _ _ 3 true _ [] [])|]. apply rtc_refl.
  - reflexivity.
  - reflexivity.
  - vm_compute. reflexivity.
  - vm_compute. reflexivity.
Qed.
