(* ===== verification/Resources.v ===== *)
(** * Resource requests and capability resolution

    Models [src/crates/avix-core/src/kernel/] [resource_request.rs] (the kernel's handler of
    the resources an agent asks for at run time) and [capability_resolver.rs] (the tools a
    manifest's capability groups stand for).  The clock, the uuids of new pipes, HMAC and
    whether the build checks integer overflow are arguments. *)

From stdpp Require Import sorting.
From S2P Require Import Prelude Types Token Json ToolRegistry Process Router.

Open Scope Z_scope.

(** ** [resource_request.rs] *)

Inductive Urgency : Type := Low | Normal | High.
Inductive Direction : Type := In | Out | Bidirectional.

Inductive ResourceItem : Type :=
| ContextTokens (amount : Z) (reason : string)
| AskTool (name : string) (urgency : Urgency) (reason : string)
| AskPipe (target_pid : Z) (direction : Direction) (buffer_tokens : Z) (reason : string)
| TokenRenewal (reason : string).

Record ResourceRequest : Type := {
  agent_pid : Z; request_id : string; rq_timestamp : Z; capability_token_signature : string;
  requests : list ResourceItem
}.

Inductive ResourceGrant : Type :=
| GContextTokens (granted : bool) (amount new_total : Z) (expires : option Z) (reason : option string)
| GTool (granted : bool) (name : string) (new_token : option CapabilityToken) (reason suggestion : option string)
| GPipe (granted : bool) (target_pid : Z) (pipe_id : option string) (direction : Direction) (buffer_tokens : Z)
    (reason : option string)
| GTokenRenewal (granted : bool) (new_token : option CapabilityToken) (expires : option Z) (reason : option string).

Record ResourceResponse : Type := { rp_request_id : string; responded_at : Z; grants : list ResourceGrant }.

Record KernelResourceHandler : Type := { hmac_key : string; renewal_ttl_secs : Z }.
Definition handler_new (key : string) : KernelResourceHandler := {| hmac_key := key; renewal_ttl_secs := 3600 |}.

Section Handler.
Variable hmac_hex : string -> string -> string.
(** whether arithmetic overflow panics (a debug build) or wraps (a release build) *)
Variable overflow_checks : bool.

(** [64_000 + amount] on [u32]; [None] is the panic. *)
Definition new_total (amount : Z) : option Z :=
  if overflow_checks then u32_checked_add 64000 amount else Some (u32_wrapping_add 64000 amount).

Definition dispatch_item (now : Z) (uuid : string) (h : KernelResourceHandler) (item : ResourceItem)
    (token : CapabilityToken) : option ResourceGrant :=
  match item with
  | ContextTokens amount _ => total ← new_total amount; Some (GContextTokens true amount total None None)
  | AskTool name _ _ => Some (GTool false name None (Some "HIL approval required"%string) None)
  | AskPipe target dir buf _ =>
      Some (GPipe true target (Some ("pipe-" +:+ uuid)%string) dir buf None)
  | TokenRenewal _ =>
      let t := mint hmac_hex now (Token.granted_tools token) (issued_to token) (renewal_ttl_secs h) (hmac_key h) in
      Some (GTokenRenewal true (Some t) (Some (expires_at t)) None)
  end.

(** The items in order; [uuids i] is the one drawn for the [i]th. *)
Fixpoint dispatch_items (now : Z) (uuids : nat -> string) (i : nat) (h : KernelResourceHandler)
    (items : list ResourceItem) (token : CapabilityToken) : option (list ResourceGrant) :=
  match items with
  | [] => Some []
  | item :: items =>
      g ← dispatch_item now (uuids i) h item token;
      gs ← dispatch_items now uuids (S i) h items token;
      Some (g :: gs)
  end.

(** [None]: the handler panicked. *)
Definition handle (now : Z) (uuids : nat -> string) (h : KernelResourceHandler) (rq : ResourceRequest)
    (token : CapabilityToken) : option (result AvixError ResourceResponse) :=
  if negb (verify_signature hmac_hex token (hmac_key h))
  then Some (Err (CapabilityDenied "capability token signature is invalid"))
  else if negb (String.eqb (capability_token_signature rq) (signature token))
  then Some (Err (CapabilityDenied "request token signature does not match current token"))
  else
    gs ← dispatch_items now uuids 0 h (requests rq) token;
    Some (Ok {| rp_request_id := request_id rq; responded_at := now; grants := gs |}).

(** *** Properties *)

(** The grant answers the item. *)
Definition answers (item : ResourceItem) (g : ResourceGrant) : Prop :=
  match item, g with
  | ContextTokens a _, GContextTokens true a' _ _ _ => a = a'
  | AskTool n _ _, GTool false n' _ _ _ => n = n'
  | AskPipe t d b _, GPipe true t' _ d' b' _ => t = t' /\ d = d' /\ b = b'
  | TokenRenewal _, GTokenRenewal true _ _ _ => True
  | _, _ => False
  end.

Definition grant_token (g : ResourceGrant) : option CapabilityToken :=
  match g with GTool _ _ t _ _ => t | GTokenRenewal _ t _ _ => t | _ => None end.

Definition overflows (item : ResourceItem) : bool :=
  match item with ContextTokens a _ => u32_max - 64000 <? a | _ => false end.
Definition item_wf (item : ResourceItem) : Prop :=
  match item with ContextTokens a _ => is_u32 a | _ => True end.

(** The renewed token: same tools and holder, signed, valid for the handler's period. *)
Definition renews (now : Z) (h : KernelResourceHandler) (token t : CapabilityToken) : Prop :=
  Token.granted_tools t = Token.granted_tools token /\ issued_to t = issued_to token /\
  expires_at t = now + seconds (renewal_ttl_secs h) /\ verify_signature hmac_hex t (hmac_key h) = true.

Lemma dispatch_item_Some now uuid h item token g :
  dispatch_item now uuid h item token = Some g ->
  answers item g /\ forall t, grant_token g = Some t -> renews now h token t.
Proof.
  destruct item; simpl.
  - destruct (new_total amount); simpl; [|done]. intros [= <-]. done.
  - intros [= <-]. done.
  - intros [= <-]. done.
  - intros [= <-]. split; [done|]. intros t [= <-]. repeat split. apply mint_verifies.
Qed.

Lemma dispatch_item_None now uuid h item token :
  item_wf item ->
  dispatch_item now uuid h item token = None <-> overflow_checks = true /\ overflows item = true.
Proof.
  intros Hwf. destruct item; simpl in *; try (split; [done | by intros [_ ?]]).
  unfold new_total, u32_checked_add. destruct overflow_checks; simpl; [|naive_solver].
  destruct (Z.ltb_spec (u32_max - 64000) amount); case_decide; simpl; split; intros; try done; machine.
Qed.

Lemma dispatch_items_Some now uuids i h items token gs :
  dispatch_items now uuids i h items token = Some gs ->
  Forall2 answers items gs /\
  Forall (fun g => forall t, grant_token g = Some t -> renews now h token t) gs.
Proof.
  revert i gs. induction items as [|item items IH]; intros i gs; simpl; [intros [= <-]; by repeat constructor|].
  destruct (dispatch_item _ _ _ item _) as [g|] eqn:E; simpl; [|done].
  destruct (dispatch_items _ _ _ _ items _) as [gs'|] eqn:E'; simpl; [|done]. intros [= <-].
  apply dispatch_item_Some in E as [? ?]. apply IH in E' as [? ?]. by split; constructor.
Qed.

Lemma dispatch_items_None now uuids i h items token :
  Forall item_wf items ->
  dispatch_items now uuids i h items token = None <-> overflow_checks = true /\ Exists (fun x => overflows x = true) items.
Proof.
  intros Hwf. revert i. induction Hwf as [|item items Hi Hwf IH]; intros i; simpl.
  - rewrite Exists_nil. naive_solver.
  - pose proof (dispatch_item_None now (uuids i) h item token Hi) as Hd. rewrite Exists_cons.
    destruct (dispatch_item _ _ _ item _) as [g|]; simpl; [|naive_solver].
    specialize (IH (S i)). destruct (dispatch_items _ _ _ _ items _); simpl; naive_solver.
Qed.

(** the handler serves a request only for a token that carries the kernel's signature and
    that the request names; then it answers every item in order, and grants no
    authority: tools are never granted, and a renewed token has the same tools and
    holder.  The only request that does not get an answer is, in a build with overflow
    checks, one that asks for more than [u32::MAX - 64000] context tokens.  The expiry
    of the presented token plays no part. *)
Theorem handle_no_escalation now uuids h rq token :
  Forall item_wf (requests rq) ->
  let accepted := verify_signature hmac_hex token (hmac_key h) = true /\
                  capability_token_signature rq = signature token in
  (handle now uuids h rq token = None <->
     accepted /\ overflow_checks = true /\ Exists (fun x => overflows x = true) (requests rq)) /\
  (forall rp, handle now uuids h rq token = Some (Ok rp) ->
     accepted /\ rp_request_id rp = request_id rq /\ Forall2 answers (requests rq) (grants rp) /\
     Forall (fun g => forall t, grant_token g = Some t -> renews now h token t) (grants rp)) /\
  (forall e, handle now uuids h rq token = Some (Err e) <->
     ~ accepted /\ e = CapabilityDenied (if verify_signature hmac_hex token (hmac_key h)
       then "request token signature does not match current token"
       else "capability token signature is invalid")).
Proof.
  intros Hwf accepted. unfold handle.
  destruct (verify_signature hmac_hex token (hmac_key h)) eqn:Ev; simpl.
  2:{ split; [|split]; [subst accepted; naive_solver | done | intros e; subst accepted; naive_solver]. }
  destruct (String.eqb_spec (capability_token_signature rq) (signature token)) as [Hs|Hs]; simpl.
  2:{ split; [|split]; [subst accepted; naive_solver | done | intros e; subst accepted; naive_solver]. }
  assert (Ha : accepted) by done.
  pose proof (dispatch_items_None now uuids 0 h (requests rq) token Hwf) as Hn.
  destruct (dispatch_items now uuids 0 h (requests rq) token) as [gs|] eqn:E; simpl.
  - apply dispatch_items_Some in E as [H1 H2]. split; [naive_solver|]. split.
    + intros rp [= <-]. simpl. auto.
    + intros e. naive_solver.
  - split; [naive_solver|]. split; [done|]. naive_solver.
Qed.
End Handler.

(** ** [capability_resolver.rs] *)

Module CapabilityResolver.

Record Syscall : Type := {
  sy_name : string; sy_description : string; sy_short : string; sy_detailed : string; sy_domain : string;
  sy_input_schema : json; sy_output_schema : json; sy_capabilities : list string; sy_handler : string
}.

(** [cap.split_once(':').unwrap_or((cap, "*"))] *)
Definition group (cap : string) : string * string := default (cap, "*"%string) (split_once ":" cap).

Definition syscall_matches (cap : string) (s : Syscall) : bool :=
  let '(ns, flt) := group cap in
  if String.eqb ns "kernel" then String.eqb flt "*" || String.eqb (sy_domain s) flt
  else String.eqb (sy_domain s) ns &&
       (String.eqb flt "*" || starts_with ("kernel/" +:+ ns +:+ "/" +:+ flt)%string (sy_name s)).

Definition tool_matches (cap : string) (name : string) : bool :=
  let '(ns, flt) := group cap in
  starts_with (if String.eqb flt "*" then ns +:+ "/" else ns +:+ "/" +:+ flt)%string name.

(** The set [granted] after one more capability group. *)
Definition grant_group (syscalls : list Syscall) (tools : list string) (acc : gset string) (cap : string) : gset string :=
  acc ∪ list_to_set (sy_name <$> filter (fun s => syscall_matches cap s = true) syscalls)
      ∪ list_to_set (filter (fun n => tool_matches cap n = true) tools).

(** A [BTreeSet] is read in ascending order. *)
Definition resolve (r : ToolRegistry) (syscalls : list Syscall) (caps : list string) : list string :=
  let tools := te_name <$> get_all_entries r in
  str_sort (elements (foldl (grant_group syscalls tools) ∅ caps ∪ list_to_set ALWAYS_PRESENT)).

Lemma grant_groups syscalls tools acc caps x :
  x ∈ foldl (grant_group syscalls tools) acc caps <->
  x ∈ acc \/ exists cap, cap ∈ caps /\
    ((exists s, s ∈ syscalls /\ sy_name s = x /\ syscall_matches cap s = true) \/
     (x ∈ tools /\ tool_matches cap x = true)).
Proof.
  revert acc. induction caps as [|cap caps IH]; intros acc; simpl; [set_solver|].
  rewrite IH. unfold grant_group. rewrite !elem_of_union, !elem_of_list_to_set, list_elem_of_fmap.
  setoid_rewrite list_elem_of_filter. split.
  - intros [[[H|(s & -> & Hm & Hs)]|[Hm Hx]]|(c & Hc & H)]; [by left|..]; right.
    + exists cap. split; [by left|]. left. by exists s.
    + exists cap. split; [by left|]. by right.
    + exists c. split; [by right | done].
  - intros [H|(c & [->|Hc]%elem_of_cons & H)]; [by do 3 left| |right; by exists c].
    left. destruct H as [(s & Hs & <- & Hm)|[Hx Hm]]; [left; right; by exists s | by right].
Qed.

Lemma resolve_elem r syscalls caps x :
  x ∈ resolve r syscalls caps <->
  x ∈ ALWAYS_PRESENT \/ exists cap, cap ∈ caps /\
    ((exists s, s ∈ syscalls /\ sy_name s = x /\ syscall_matches cap s = true) \/
     (x ∈ te_name <$> get_all_entries r /\ tool_matches cap x = true)).
Proof.
  unfold resolve. rewrite str_sort_perm, elem_of_elements, elem_of_union, grant_groups, elem_of_list_to_set.
  set_solver.
Qed.

(** the tools of a manifest are, without repetition, exactly the always-present ones
    and the registered tools and syscalls that one of its capability groups matches; they do
    not depend on the order of the groups, and more groups never grant less. *)
Theorem resolver_exact r syscalls caps :
  NoDup (resolve r syscalls caps) /\
  (forall x, x ∈ resolve r syscalls caps <->
     x ∈ ALWAYS_PRESENT \/ exists cap, cap ∈ caps /\
       ((exists s, s ∈ syscalls /\ sy_name s = x /\ syscall_matches cap s = true) \/
        (x ∈ te_name <$> get_all_entries r /\ tool_matches cap x = true))) /\
  (forall caps', caps ≡ₚ caps' -> resolve r syscalls caps = resolve r syscalls caps') /\
  (forall caps', caps ⊆ caps' -> resolve r syscalls caps ⊆ resolve r syscalls caps').
Proof.
  split; [|split; [|split]].
  - unfold resolve. rewrite str_sort_perm. apply NoDup_elements.
  - intros x. apply resolve_elem.
  - intros caps' Hp. unfold resolve. f_equal.
    assert (foldl (grant_group syscalls (te_name <$> get_all_entries r)) ∅ caps =
            foldl (grant_group syscalls (te_name <$> get_all_entries r)) ∅ caps') as ->; [|done].
    apply leibniz_equiv. intros x. rewrite !grant_groups. by setoid_rewrite Hp.
  - intros caps' Hs x. rewrite !resolve_elem. set_solver.
Qed.

End CapabilityResolver.

Definition renewal_request (sig : string) : ResourceRequest := {|
  agent_pid := 7; request_id := "r"; rq_timestamp := 0; capability_token_signature := sig;
  requests := [TokenRenewal ""; AskTool "fs/write" Normal ""; ContextTokens 1000 ""]
|}.

(** A token that expired long ago is renewed. *)
Lemma handle_no_escalation_witness :
  let h := handler_new "k" in
  let t := mint toy_mac 0 ["fs/read"]%string None 1 "k" in
  let now := seconds 1000 in
  is_expired now t = true /\
  exists rp, handle toy_mac true now (fun _ => "u"%string) h (renewal_request (signature t)) t = Some (Ok rp) /\
    Forall2 answers (requests (renewal_request (signature t))) (grants rp).
Proof.
  intros h t now. split; [reflexivity|].
  destruct (handle_no_escalation toy_mac true now (fun _ => "u"%string) h (renewal_request (signature t)) t)
    as (_ & H & _).
  { repeat constructor; vm_compute; discriminate. }
  destruct (handle toy_mac true now (fun _ => "u"%string) h (renewal_request (signature t)) t) as [[rp|e]|] eqn:E;
    [|vm_compute in E; discriminate..].
  exists rp. split; [reflexivity|]. apply (H rp eq_refl).
Defined.
