(* ===== verification/Jobs.v ===== *)
(** * Jobs: long-running tool calls, their state machine and [job/watch]

    Models [src/crates/avix-core/src/jobs/] ([job.rs], [event.rs], [registry.rs],
    [start_job.rs], [watch_handler.rs]).  The registry sits behind one lock, so each of its
    operations is one step; [handle_job_watch] takes the lock twice and then waits on
    the broadcast channel, so its parts ([subscribe], [watch_check], [watch_poll]) interleave with the
    operations of other tasks.  The clock and the uuid are arguments; the channel
    is the broadcast interface of [Channels]. *)

From S2P Require Import Prelude Types Json Channels.

Open Scope Z_scope.

(** ** [job.rs] and [event.rs] *)

Module JobState.
Inductive t : Type := Pending | Running | Paused | Done | Failed | Cancelled.
#[global] Instance eq_dec : EqDecision t.
Proof. solve_decision. Defined.
Definition is_terminal (s : t) : bool :=
  match s with Done | Failed | Cancelled => true | _ => false end.
(** The derived [Debug] and the [snake_case] serialisation. *)
Definition debug (s : t) : string :=
  match s with
  | Pending => "Pending" | Running => "Running" | Paused => "Paused"
  | Done => "Done" | Failed => "Failed" | Cancelled => "Cancelled"
  end.
Definition wire (s : t) : string :=
  match s with
  | Pending => "pending" | Running => "running" | Paused => "paused"
  | Done => "done" | Failed => "failed" | Cancelled => "cancelled"
  end.
End JobState.

Record JobError : Type := { code : Z; message : string }.

Record Job : Type := {
  id : string; tool : string; owner_pid : Z; state : JobState.t;
  created_at : Z; updated_at : Z; job_result : option json; job_error : option JobError
}.

Inductive LogStream : Type := Stdout | Stderr.

Inductive JobEvent : Type :=
| StatusChange (job_id : string) (old_state new_state : JobState.t)
| Progress (job_id : string) (percent : option Z) (stage detail : option string)
| Log (job_id : string) (stream : LogStream) (line : string)
| Complete (job_id : string) (result : json)
| Fail (job_id : string) (error : JobError).

Definition event_job_id (e : JobEvent) : string :=
  match e with
  | StatusChange j _ _ | Progress j _ _ _ | Log j _ _ | Complete j _ | Fail j _ => j
  end.

Definition stream_str (s : LogStream) : string :=
  match s with Stdout => "stdout" | Stderr => "stderr" end.
Definition error_json (e : JobError) : json :=
  JObj [("code", JInt (code e)); ("message", JStr (message e))]%string.
(** A field with [skip_serializing_if = "Option::is_none"]. *)
Definition opt_field {A} (k : string) (f : A -> json) (o : option A) : list (string * json) :=
  match o with Some a => [(k, f a)] | None => [] end.

Definition event_to_json (e : JobEvent) : json :=
  match e with
  | StatusChange j o n =>
      JObj [("type", JStr "status_change"); ("job_id", JStr j);
            ("old_state", JStr (JobState.wire o)); ("new_state", JStr (JobState.wire n))]
  | Progress j p s d =>
      JObj ([("type", JStr "progress"); ("job_id", JStr j)] ++
            opt_field "percent" JInt p ++ opt_field "stage" JStr s ++ opt_field "detail" JStr d)
  | Log j s l =>
      JObj [("type", JStr "log"); ("job_id", JStr j); ("stream", JStr (stream_str s)); ("line", JStr l)]
  | Complete j r => JObj [("type", JStr "complete"); ("job_id", JStr j); ("result", r)]
  | Fail j e => JObj [("type", JStr "fail"); ("job_id", JStr j); ("error", error_json e)]
  end%string.

Definition EVENT_CAPACITY : nat := 256.

Section Registry.
Context {B R : Type} `{!Broadcast JobEvent B R}.

(** ** [registry.rs] *)

Record JobRegistry : Type := { jobs : gmap string Job; events : B }.

Definition new : JobRegistry * R :=
  let tx := bc_channel EVENT_CAPACITY in
  ({| jobs := ∅; events := tx |}, bc_subscribe tx).

Definition emit (r : JobRegistry) (e : JobEvent) : JobRegistry :=
  {| jobs := jobs r; events := bc_send (events r) e |}.
Definition put (r : JobRegistry) (job_id : string) (j : Job) : JobRegistry :=
  {| jobs := <[job_id := j]> (jobs r); events := events r |}.

Definition get (r : JobRegistry) (job_id : string) : result AvixError Job :=
  ok_or (NotFound ("job '" +:+ job_id +:+ "' not found")) (jobs r !! job_id).
Definition subscribe (r : JobRegistry) : R := bc_subscribe (events r).
Definition job_count (r : JobRegistry) : nat := size (jobs r).

Definition create (r : JobRegistry) (tl : string) (owner : Z) (uuid : string) (now : Z)
    : string * JobRegistry :=
  let i := ("job-" +:+ uuid)%string in
  (i, put r i {| id := i; tool := tl; owner_pid := owner; state := JobState.Pending;
                 created_at := now; updated_at := now; job_result := None; job_error := None |}).

(** The record after an assignment to [state] and [updated_at]. *)
Definition with_state (j : Job) (s : JobState.t) (now : Z) : Job :=
  {| id := id j; tool := tool j; owner_pid := owner_pid j; state := s;
     created_at := created_at j; updated_at := now; job_result := job_result j; job_error := job_error j |}.
Definition with_result (j : Job) (v : json) : Job :=
  {| id := id j; tool := tool j; owner_pid := owner_pid j; state := state j;
     created_at := created_at j; updated_at := updated_at j; job_result := Some v; job_error := job_error j |}.
Definition with_error (j : Job) (e : JobError) : Job :=
  {| id := id j; tool := tool j; owner_pid := owner_pid j; state := state j;
     created_at := created_at j; updated_at := updated_at j; job_result := job_result j; job_error := Some e |}.

Definition start (r : JobRegistry) (job_id : string) (now : Z) : result AvixError unit * JobRegistry :=
  match get r job_id with
  | Err e => (Err e, r)
  | Ok job =>
      if decide (state job <> JobState.Pending) then
        (Err (ConfigParse ("cannot start job '" +:+ job_id +:+ "': state is " +:+ JobState.debug (state job))), r)
      else
        let r := put r job_id (with_state job JobState.Running now) in
        (Ok tt, emit r (StatusChange job_id (state job) JobState.Running))
  end.

Definition progress (r : JobRegistry) (job_id : string) (percent : option Z) (stage detail : option string)
    (now : Z) : result AvixError unit * JobRegistry :=
  match get r job_id with
  | Err e => (Err e, r)
  | Ok job =>
      if decide (state job <> JobState.Running) then
        (Err (ConfigParse ("cannot emit progress for job '" +:+ job_id +:+ "': not running")), r)
      else
        let r := put r job_id (with_state job (state job) now) in
        (Ok tt, emit r (Progress job_id percent stage detail))
  end.

Definition log (r : JobRegistry) (job_id : string) (stream : LogStream) (line : string) (now : Z)
    : result AvixError unit * JobRegistry :=
  match get r job_id with
  | Err e => (Err e, r)
  | Ok job =>
      if decide (state job <> JobState.Running) then
        (Err (ConfigParse ("cannot emit log for job '" +:+ job_id +:+ "': not running")), r)
      else
        let r := put r job_id (with_state job (state job) now) in
        (Ok tt, emit r (Log job_id stream line))
  end.

Definition complete (r : JobRegistry) (job_id : string) (v : json) (now : Z)
    : result AvixError unit * JobRegistry :=
  match get r job_id with
  | Err e => (Err e, r)
  | Ok job =>
      if JobState.is_terminal (state job) then
        (Err (ConfigParse ("cannot complete job '" +:+ job_id +:+ "': already in terminal state " +:+
                           JobState.debug (state job))), r)
      else
        let r := put r job_id (with_result (with_state job JobState.Done now) v) in
        let r := emit r (StatusChange job_id (state job) JobState.Done) in
        (Ok tt, emit r (Complete job_id v))
  end.

Definition fail (r : JobRegistry) (job_id : string) (err : JobError) (now : Z)
    : result AvixError unit * JobRegistry :=
  match get r job_id with
  | Err e => (Err e, r)
  | Ok job =>
      if JobState.is_terminal (state job) then
        (Err (ConfigParse ("cannot fail job '" +:+ job_id +:+ "': already in terminal state " +:+
                           JobState.debug (state job))), r)
      else
        let r := put r job_id (with_error (with_state job JobState.Failed now) err) in
        let r := emit r (StatusChange job_id (state job) JobState.Failed) in
        (Ok tt, emit r (Fail job_id err))
  end.

Definition cancel (r : JobRegistry) (job_id : string) (now : Z) : result AvixError unit * JobRegistry :=
  match get r job_id with
  | Err e => (Err e, r)
  | Ok job =>
      if JobState.is_terminal (state job) then
        (Err (ConfigParse ("cannot cancel job '" +:+ job_id +:+ "': already in terminal state " +:+
                           JobState.debug (state job))), r)
      else
        let r := put r job_id (with_state job JobState.Cancelled now) in
        (Ok tt, emit r (StatusChange job_id (state job) JobState.Cancelled))
  end.

(** ** [start_job.rs]

    The part under the write lock; [None] is the panic of [expect].  The spawned work is a later
    sequence of operations on the registry. *)
Definition start_job (r : JobRegistry) (tl : string) (owner : Z) (uuid : string) (now now' : Z)
    : option (string * JobRegistry) :=
  let '(i, r) := create r tl owner uuid now in
  match start r i now' with
  | (Ok _, r) => Some (i, r)
  | (Err _, _) => None
  end.

(** ** The operations of all tasks, in the order the lock serialises them *)

Inductive JobOp : Type :=
| OStartJob (tl : string) (owner : Z) (uuid : string) (now now' : Z)
| OCreate (tl : string) (owner : Z) (uuid : string) (now : Z)
| OStart (job_id : string) (now : Z)
| OProgress (job_id : string) (percent : option Z) (stage detail : option string) (now : Z)
| OLog (job_id : string) (stream : LogStream) (line : string) (now : Z)
| OComplete (job_id : string) (v : json) (now : Z)
| OFail (job_id : string) (err : JobError) (now : Z)
| OCancel (job_id : string) (now : Z).

Definition step (r : JobRegistry) (o : JobOp) : JobRegistry :=
  match o with
  | OStartJob tl p u t t' => match start_job r tl p u t t' with Some (_, r') => r' | None => r end
  | OCreate tl p u t => (create r tl p u t).2
  | OStart j t => (start r j t).2
  | OProgress j p s d t => (progress r j p s d t).2
  | OLog j s l t => (log r j s l t).2
  | OComplete j v t => (complete r j v t).2
  | OFail j e t => (fail r j e t).2
  | OCancel j t => (cancel r j t).2
  end.
Definition run (r : JobRegistry) (os : list JobOp) : JobRegistry := foldl step r os.

(** A uuid is fresh when no job carries it. *)
Definition fresh (r : JobRegistry) (o : JobOp) : bool :=
  match o with
  | OCreate _ _ u _ | OStartJob _ _ u _ _ => bool_decide (jobs r !! ("job-" +:+ u)%string = None)
  | _ => true
  end.
Fixpoint fresh_run (r : JobRegistry) (os : list JobOp) : bool :=
  match os with [] => true | o :: os' => fresh r o && fresh_run (step r o) os' end.

(** ** [watch_handler.rs] *)

Definition status_json (s : string) : json := JObj [("status", JStr s)]%string.
Definition event_answer (e : json) : json := JObj [("event", e)]%string.

(** The block under the second read lock: [Some] is an early return. *)
Definition watch_check (r : JobRegistry) (job_id : string) : option json :=
  match get r job_id with
  | Err _ => Some (status_json "not_found")
  | Ok job =>
      match state job with
      | JobState.Done =>
          Some (event_answer (JObj [("type", JStr "complete"); ("job_id", JStr job_id);
                                    ("result", default JNull (job_result job))]%string))
      | JobState.Failed =>
          match job_error job with
          | Some err =>
              Some (event_answer (JObj [("type", JStr "fail"); ("job_id", JStr job_id);
                                        ("error", error_json err)]%string))
          | None => None
          end
      | JobState.Cancelled =>
          Some (event_answer (JObj [("type", JStr "status_change"); ("job_id", JStr job_id);
                                    ("old_state", JStr "running"); ("new_state", JStr "cancelled")]%string))
      | _ => None
      end
  end.

Inductive Watcher : Type := Waiting (rx : R) | Answered (v : json).

(** One turn of the loop: [expired] says that the deadline has passed at its top,
    [elapsed] that it passes while [recv] waits. *)
Definition watch_poll (b : B) (rx : R) (job_id : string) (expired elapsed : bool) : Watcher :=
  if expired then Answered (status_json "timeout")
  else
    match bc_recv b rx with
    | (BcValue e, rx') =>
        if decide (event_job_id e = job_id) then Answered (event_answer (event_to_json e))
        else Waiting rx'
    | (BcLagged, _) | (BcClosed, _) => Answered (status_json "timeout")
    | (BcWait, rx') => if elapsed then Answered (status_json "timeout") else Waiting rx'
    end.

(** The watcher among the other tasks. *)
Inductive WatchTurn : Type := TaskOp (o : JobOp) | Poll (expired elapsed : bool).

Definition watch_turn (job_id : string) (s : JobRegistry * Watcher) (t : WatchTurn) : JobRegistry * Watcher :=
  match t with
  | TaskOp o => (step s.1 o, s.2)
  | Poll x l =>
      (s.1, match s.2 with Waiting rx => watch_poll (events s.1) rx job_id x l | w => w end)
  end.

(** [handle_job_watch]: subscribe, let others run ([before]), check, then poll while others run. *)
Definition handle_job_watch (r : JobRegistry) (job_id : string) (before : list JobOp) (turns : list WatchTurn)
    : JobRegistry * Watcher :=
  let rx := subscribe r in
  let r := run r before in
  match watch_check r job_id with
  | Some v => foldl (watch_turn job_id) (r, Answered v) turns
  | None => foldl (watch_turn job_id) (r, Waiting rx) turns
  end.

Definition turn_ops (ts : list WatchTurn) : list JobOp :=
  omap (fun t => match t with TaskOp o => Some o | Poll _ _ => None end) ts.

End Registry.
Arguments JobRegistry B : clear implicits.
Arguments Watcher R : clear implicits.

(** ** Specification: what an observer of the events knows *)

Record JobView : Type := { v_state : JobState.t; v_result : option json; v_error : option JobError }.
Definition initial_view : JobView := {| v_state := JobState.Pending; v_result := None; v_error := None |}.
Definition view_of (j : Job) : JobView :=
  {| v_state := state j; v_result := job_result j; v_error := job_error j |}.

(** The transitions: a pending job starts, and a job that is not finished finishes. *)
Definition allowed (o n : JobState.t) : bool :=
  match o, n with
  | JobState.Pending, JobState.Running => true
  | (JobState.Pending | JobState.Running | JobState.Paused),
    (JobState.Done | JobState.Failed | JobState.Cancelled) => true
  | _, _ => false
  end.

(** One event of job [i]; [None] when it is not a legal continuation. *)
Definition observe (i : string) (v : JobView) (e : JobEvent) : option JobView :=
  if decide (event_job_id e = i) then
    match e with
    | StatusChange _ o n =>
        if decide (v_state v = o /\ allowed o n = true)
        then Some {| v_state := n; v_result := v_result v; v_error := v_error v |} else None
    | Progress _ _ _ _ | Log _ _ _ => if decide (v_state v = JobState.Running) then Some v else None
    | Complete _ x =>
        match v_state v, v_result v with
        | JobState.Done, None => Some {| v_state := JobState.Done; v_result := Some x; v_error := v_error v |}
        | _, _ => None
        end
    | Fail _ x =>
        match v_state v, v_error v with
        | JobState.Failed, None => Some {| v_state := JobState.Failed; v_result := v_result v; v_error := Some x |}
        | _, _ => None
        end
    end
  else Some v.
Fixpoint observes (i : string) (v : JobView) (es : list JobEvent) : option JobView :=
  match es with [] => Some v | e :: es' => v' ← observe i v e; observes i v' es' end.

Lemma observes_app i v es es' : observes i v (es ++ es') = v' ← observes i v es; observes i v' es'.
Proof.
  revert v. induction es as [|e es IH]; intros v; [done|]. simpl.
  destruct (observe i v e) as [v'|]; [apply IH | done].
Qed.

Lemma observes_other i v es : Forall (fun e => event_job_id e <> i) es -> observes i v es = Some v.
Proof.
  induction 1 as [|e es He _ IH]; [done|]. simpl. unfold observe. by rewrite decide_False.
Qed.

Definition job_ok (i : string) (j : Job) : Prop :=
  id j = i /\ state j <> JobState.Paused /\
  (state j = JobState.Done <-> is_Some (job_result j)) /\
  (state j = JobState.Failed <-> is_Some (job_error j)).

(** The fields no operation writes. *)
Definition same_identity (j j' : Job) : Prop :=
  id j' = id j /\ tool j' = tool j /\ owner_pid j' = owner_pid j /\ created_at j' = created_at j.

Section Proofs.
Context {B R : Type} `{!Broadcast JobEvent B R}.
Implicit Types r : JobRegistry B.

Definition reg_ok r : Prop := map_Forall job_ok (jobs r).
Definition view r (i : string) : JobView := from_option view_of initial_view (jobs r !! i).

(** [r'] follows from [r] by legal changes that emitted [es]. *)
Definition advances r (es : list JobEvent) r' : Prop :=
  events r' = foldl bc_send (events r) es /\
  reg_ok r' /\
  (forall i, observes i (view r i) es = Some (view r' i)) /\
  (forall i j, jobs r !! i = Some j ->
    exists j', jobs r' !! i = Some j' /\ same_identity j j' /\
               (JobState.is_terminal (state j) = true -> j' = j)).

Lemma advances_refl r : reg_ok r -> advances r [] r.
Proof. intros H. split_and!; [done..|]. intros i j Hj. by exists j. Qed.

Lemma advances_trans r es r1 es' r2 : advances r es r1 -> advances r1 es' r2 -> advances r (es ++ es') r2.
Proof.
  intros (E1 & _ & O1 & J1) (E2 & K2 & O2 & J2). split_and!.
  - by rewrite foldl_app, <-E1.
  - done.
  - intros i. rewrite observes_app, O1. apply O2.
  - intros i j Hj. destruct (J1 i j Hj) as (j1 & H1 & S1 & T1).
    destruct (J2 i j1 H1) as (j2 & H2 & S2 & T2). exists j2.
    split; [done|split; [unfold same_identity in *; intuition congruence|]].
    intros Ht. specialize (T1 Ht). subst. auto.
Qed.

(** A write to one job whose events match the change is legal. *)
Lemma advances_put r i j' es :
  reg_ok r -> job_ok i j' -> Forall (fun e => event_job_id e = i) es ->
  observes i (view r i) es = Some (view_of j') ->
  (forall j, jobs r !! i = Some j -> same_identity j j' /\ JobState.is_terminal (state j) = false) ->
  advances r es {| jobs := <[i := j']> (jobs r); events := foldl bc_send (events r) es |}.
Proof.
  intros Hr Hj' Hes Ho Hs. split_and!; [done| by apply map_Forall_insert_2| |].
  - intros k. unfold view. simpl. destruct (decide (k = i)) as [->|Hk].
    + by rewrite lookup_insert_eq.
    + rewrite lookup_insert_ne by done. apply observes_other.
      eapply Forall_impl; [exact Hes|]. naive_solver.
  - intros k j Hj. simpl. destruct (decide (k = i)) as [->|Hk].
    + exists j'. rewrite lookup_insert_eq. destruct (Hs j Hj) as [? Ht].
      split_and!; [done..|]. by rewrite Ht.
    + exists j. by rewrite lookup_insert_ne.
Qed.

(** Case analysis of an operation: the failing guards leave the registry alone; where it goes
    through, [es] is what it emits. *)
Ltac job_op :=
  unfold get, ok_or;
  match goal with Hr : reg_ok ?r |- context [jobs ?r !! ?i] =>
    let j := fresh "j" in let Ej := fresh "Ej" in
    destruct (jobs r !! i) as [j|] eqn:Ej;
    [pose proof (Hr _ _ Ej) | exists []; by apply advances_refl]
  end; cbn [fst snd];
  match goal with
  | |- context [decide (~ ?P)] =>
      let Hd := fresh "Hd" in
      destruct (decide (~ P)) as [|Hd]; [exists []; by apply advances_refl | apply dec_stable in Hd]
  | |- context [JobState.is_terminal ?s] =>
      destruct (JobState.is_terminal s) eqn:?; [exists []; by apply advances_refl|]
  end; cbn [fst snd].

Lemma advances_update r i j j' es :
  reg_ok r -> jobs r !! i = Some j -> JobState.is_terminal (state j) = false ->
  same_identity j j' -> job_ok i j' -> Forall (fun e => event_job_id e = i) es ->
  observes i (view_of j) es = Some (view_of j') ->
  advances r es {| jobs := <[i := j']> (jobs r); events := foldl bc_send (events r) es |}.
Proof.
  intros Hr Ej Ht Hs Hj' Hes Ho. apply advances_put; [done..| |].
  - unfold view. by rewrite Ej.
  - rewrite Ej. by intros ? [= <-].
Qed.

Ltac job_write es :=
  lazymatch goal with Ej : jobs _ !! _ = Some ?j, Hj : job_ok _ ?j |- _ =>
    exists es; unfold emit, put; cbn [jobs events]; apply (advances_update _ _ j _ es); try done;
    destruct j as [? ? ? [] ? ? [?|] [?|]]; unfold job_ok in *; simpl in *;
    unfold observe; simpl; repeat (rewrite decide_True by done; simpl); try naive_solver
  end.

Lemma start_advances r i t : reg_ok r -> exists es, advances r es (start r i t).2.
Proof.
  intros Hr. unfold start. job_op. job_write [StatusChange i (state j) JobState.Running].
Qed.
Lemma progress_advances r i p s d t : reg_ok r -> exists es, advances r es (progress r i p s d t).2.
Proof. intros Hr. unfold progress. job_op. job_write [Progress i p s d]. Qed.
Lemma log_advances r i s l t : reg_ok r -> exists es, advances r es (log r i s l t).2.
Proof. intros Hr. unfold log. job_op. job_write [Log i s l]. Qed.
Lemma complete_advances r i v t : reg_ok r -> exists es, advances r es (complete r i v t).2.
Proof.
  intros Hr. unfold complete. job_op. job_write [StatusChange i (state j) JobState.Done; Complete i v].
Qed.
Lemma fail_advances r i e t : reg_ok r -> exists es, advances r es (fail r i e t).2.
Proof.
  intros Hr. unfold fail. job_op. job_write [StatusChange i (state j) JobState.Failed; Fail i e].
Qed.
Lemma cancel_advances r i t : reg_ok r -> exists es, advances r es (cancel r i t).2.
Proof. intros Hr. unfold cancel. job_op. job_write [StatusChange i (state j) JobState.Cancelled]. Qed.

Lemma create_advances r tl p u t :
  reg_ok r -> jobs r !! ("job-" +:+ u)%string = None -> advances r [] (create r tl p u t).2.
Proof.
  intros Hr Hf. apply (advances_put r _ _ []); [done| |done| |by rewrite Hf].
  - unfold job_ok. simpl. repeat split; naive_solver.
  - unfold view. by rewrite Hf.
Qed.

(** The [expect] of [start_job] holds: the job just created is pending. *)
Lemma start_job_total r tl p u t t' :
  exists r', start_job r tl p u t t' = Some ("job-" +:+ u, r')%string /\
             r' = (start (create r tl p u t).2 ("job-" +:+ u)%string t').2.
Proof.
  unfold start_job. simpl. unfold start, get. simpl. rewrite lookup_insert_eq. simpl.
  by eexists.
Qed.

Lemma step_advances r o : reg_ok r -> Jobs.fresh r o = true -> exists es, advances r es (step r o).
Proof.
  intros Hr. destruct o as [tl p u t t'|tl p u t| | | | | |]; simpl; intros Hf.
  - apply bool_decide_eq_true in Hf. destruct (start_job_total r tl p u t t') as (r' & -> & ->).
    pose proof (create_advances r tl p u t Hr Hf) as Hc.
    destruct (start_advances (create r tl p u t).2 ("job-" +:+ u)%string t') as [es Hs]; [apply Hc|].
    exists es. by apply (advances_trans _ [] _ _ _ Hc).
  - apply bool_decide_eq_true in Hf. exists []. by apply create_advances.
  - by apply start_advances.
  - by apply progress_advances.
  - by apply log_advances.
  - by apply complete_advances.
  - by apply fail_advances.
  - by apply cancel_advances.
Qed.

Lemma run_advances os r : reg_ok r -> fresh_run r os = true -> exists es, advances r es (run r os).
Proof.
  revert r. induction os as [|o os IH]; intros r Hr Hf; simpl in *; [exists []; by apply advances_refl|].
  apply andb_true_iff in Hf as [Ho Hf]. destruct (step_advances r o Hr Ho) as [es He].
  destruct (IH (step r o)) as [es' He']; [apply He | done |].
  exists (es ++ es'). by eapply advances_trans.
Qed.

Lemma fresh_run_app r os os' : fresh_run r (os ++ os') = fresh_run r os && fresh_run (run r os) os'.
Proof. revert r. induction os as [|o os IH]; intros r; simpl; [done|]. by rewrite IH, andb_assoc. Qed.

Lemma run_app r os os' : run r (os ++ os') = run (run r os) os'.
Proof. apply foldl_app. Qed.

Lemma new_ok : reg_ok (new (R := R)).1.
Proof. apply map_Forall_empty. Qed.

Context `{!BroadcastLaws JobEvent B R}.

Lemma sends_law (b : B) es rx : bc_member b rx ->
  bc_member (foldl bc_send b es) rx /\ bc_pending (foldl bc_send b es) rx = bc_pending b rx ++ es.
Proof.
  revert b. induction es as [|e es IH]; intros b Hb; simpl; [by rewrite app_nil_r|].
  destruct (bc_send_law b e rx Hb) as [Hm Hp]. destruct (IH _ Hm) as [Hm' Hp'].
  split; [done|]. by rewrite Hp', Hp, <-app_assoc.
Qed.

Lemma sends_meta (b : B) es :
  bc_capacity (foldl bc_send b es) = bc_capacity b /\ bc_closed (foldl bc_send b es) = bc_closed b.
Proof.
  revert b. induction es as [|e es IH]; intros b; simpl; [done|].
  destruct (IH (bc_send b e)) as [-> ->]. apply bc_send_meta.
Qed.

(** over any run of the job operations with fresh ids, the events delivered to a receiver
    that subscribed at the start form, for every job, a legal history (it starts pending, runs
    once, reports progress only while running, and finishes at most once with its one
    result or error), and folding them gives the job's current state, result and error;
    every stored job is consistent, and a finished job never changes again. *)
Theorem job_lifecycle os os' :
  let '(r0, rx) := new (B := B) (R := R) in
  fresh_run r0 (os ++ os') = true ->
  let r := run r0 os in let r' := run r0 (os ++ os') in
  (forall i, observes i initial_view (bc_pending (events r') rx) = Some (view r' i)) /\
  (forall i j, jobs r' !! i = Some j ->
    id j = i /\ state j <> JobState.Paused /\
    (state j = JobState.Done <-> is_Some (job_result j)) /\
    (state j = JobState.Failed <-> is_Some (job_error j))) /\
  (forall i j, jobs r !! i = Some j ->
    exists j', jobs r' !! i = Some j' /\ same_identity j j' /\
               (JobState.is_terminal (state j) = true -> j' = j)).
Proof.
  destruct (new (B := B) (R := R)) as [r0 rx] eqn:E. intros Hf.
  pose proof new_ok as H0. rewrite E in H0. simpl in H0. injection E as <- <-.
  destruct (run_advances _ _ H0 Hf) as (es & He & Hok & Ho & _).
  rewrite fresh_run_app in Hf. apply andb_true_iff in Hf as [Hf1 Hf2].
  destruct (run_advances _ _ H0 Hf1) as (es1 & _ & Hok1 & _).
  destruct (run_advances _ _ Hok1 Hf2) as (es2 & _ & _ & _ & Hj).
  split_and!; [|exact Hok|by rewrite run_app].
  intros i. rewrite He. simpl. destruct (bc_subscribe_law (bc_channel (A := JobEvent) EVENT_CAPACITY)) as [Hm Hp].
  destruct (sends_law _ es _ Hm) as [_ ->]. rewrite Hp. simpl.
  specialize (Ho i). unfold view in Ho at 1. simpl in Ho. by rewrite lookup_empty in Ho.
Qed.

(** *** [job/watch] *)

(** The watcher waits, and has skipped only events of other jobs since it subscribed to [r]. *)
Definition still_waiting r (i : string) (r' : JobRegistry B) (rx : R) (past : list JobEvent) : Prop :=
  bc_member (events r') rx /\ Forall (fun e => event_job_id e <> i) past /\
  advances r (past ++ bc_pending (events r') rx) r'.

Definition patient (t : WatchTurn) : Prop :=
  match t with Poll x l => x = false /\ l = false | TaskOp _ => True end.

(** The answer is an event of job [i]. *)
Definition event_of (i : string) (v : json) : Prop :=
  exists e, event_job_id e = i /\ v = event_answer (event_to_json e).

Definition watch_inv r (i : string) (s : JobRegistry B * Watcher R) : Prop :=
  match s.2 with
  | Answered v => event_of i v /\ reg_ok s.1
  | Waiting rx => exists past, still_waiting r i s.1 rx past
  end.

Lemma watch_inv_ok r i s : watch_inv r i s -> reg_ok s.1.
Proof. unfold watch_inv. destruct s as [r' [rx|v]]; simpl; [intros (past & _ & _ & H); apply H | by intros [_ ?]]. Qed.

Lemma watch_inv_op r i s o :
  watch_inv r i s -> Jobs.fresh s.1 o = true -> watch_inv r i (watch_turn i s (TaskOp o)).
Proof.
  intros Hi Hf. pose proof (watch_inv_ok _ _ _ Hi) as Hok.
  destruct (step_advances s.1 o Hok Hf) as [es He].
  destruct s as [r' [rx|v]]; unfold watch_inv in *; simpl in *.
  - destruct Hi as (past & Hm & Hp & Ha). exists past. pose proof He as (Hev & _).
    destruct (sends_law (events r') es rx Hm) as [Hm' Hp'].
    split; [by rewrite Hev|]. split; [done|].
    rewrite Hev, Hp', app_assoc. by apply (advances_trans _ _ r').
  - split; [apply Hi | apply He].
Qed.

(** A poll that does not time out takes the next event, unless the receiver has lagged. *)
Lemma watch_inv_poll r i s :
  watch_inv r i s -> bc_closed (events r) = false ->
  (forall rx, s.2 = Waiting rx -> length (bc_pending (events s.1) rx) <= bc_capacity (events r))%nat ->
  watch_inv r i (watch_turn i s (Poll false false)) /\
  forall rx e es, s.2 = Waiting rx -> bc_pending (events s.1) rx = e :: es ->
    match (watch_turn i s (Poll false false)).2 with
    | Answered _ => True
    | Waiting rx' => event_job_id e <> i /\ bc_pending (events s.1) rx' = es
    end.
Proof.
  intros Hi Hc Hcap. destruct s as [r' [rx|v]]; unfold watch_inv in *; simpl in *; [|by split].
  destruct Hi as (past & Hm & Hp & Ha). specialize (Hcap rx eq_refl).
  pose proof Ha as (Hev & Hok & _).
  destruct (sends_meta (events r) (past ++ bc_pending (events r') rx)) as [Ecap Ecl].
  rewrite <-Hev in Ecap, Ecl.
  pose proof (bc_recv_law (events r') rx Hm) as [Hm' Hr]. unfold watch_poll.
  destruct (bc_recv (events r') rx) as [[e| | |] rx'] eqn:Er; simpl in *.
  - destruct Hr as [_ Hpe]. case_decide as Hd.
    + split; [split; [by exists e | done] | done].
    + split; [|intros ? ? ? [= <-] Hx; rewrite Hpe in Hx; by injection Hx as <- <-]. exists (past ++ [e]). split; [done|]. split.
      * apply Forall_app. by rewrite Forall_singleton.
      * rewrite <-app_assoc. simpl. by rewrite <-Hpe.
  - lia.
  - destruct Hr as (_ & Hcl & _). congruence.
  - destruct Hr as (Hpe & _ & ->). split; [by exists past|]. intros ? ? ? [= <-]. congruence.
Qed.

(** Polling consumes: [n] polls reach the event of job [i] among [n] pending ones. *)
Lemma polls_deliver r i n s :
  watch_inv r i s -> bc_closed (events r) = false ->
  (forall rx, s.2 = Waiting rx ->
     length (bc_pending (events s.1) rx) <= bc_capacity (events r) /\
     length (bc_pending (events s.1) rx) <= n /\
     Exists (fun e => event_job_id e = i) (bc_pending (events s.1) rx))%nat ->
  exists v, foldl (watch_turn i) s (replicate n (Poll false false)) = (s.1, Answered v) /\ event_of i v.
Proof.
  revert s. induction n as [|n IH]; intros s Hi Hc Hw.
  - destruct s as [r' [rx|v]]; [|exists v; split; [done | apply Hi]]. exfalso.
    destruct (Hw rx eq_refl) as (_ & Hl & He). destruct (bc_pending _ rx); simpl in *; [by inversion He | lia].
  - simpl. destruct (watch_inv_poll r i s Hi Hc) as [Hi' Hn]; [naive_solver|].
    set (s' := watch_turn i s (Poll false false)) in *.
    assert (s'.1 = s.1) as E1 by done. rewrite <-E1. apply IH; [done..|].
    intros rx' Es'. destruct s as [r' [rx|v]]; [|done]. destruct (Hw rx eq_refl) as (Hcap & Hl & He).
    simpl in *. destruct (bc_pending (events r') rx) as [|e es] eqn:Ep; [by inversion He|].
    specialize (Hn rx e es eq_refl Ep). rewrite Es' in Hn. destruct Hn as [Hne ->]. simpl in *.
    split_and!; [lia..|]. by inversion He; subst.
Qed.

Lemma watch_check_spec r i j : reg_ok r -> jobs r !! i = Some j ->
  match watch_check r i with
  | Some v => event_of i v /\ JobState.is_terminal (state j) = true
  | None => JobState.is_terminal (state j) = false
  end.
Proof.
  intros Hr Hj. destruct (Hr i j Hj) as (_ & _ & Hd & Hf).
  unfold watch_check, get. rewrite Hj. simpl.
  destruct (state j); simpl; try done.
  - split; [|done]. by exists (Complete i (default JNull (job_result j))).
  - destruct (job_error j) as [e|]; [|by destruct (proj1 Hf eq_refl)].
    split; [|done]. by exists (Fail i e).
  - split; [|done]. by exists (StatusChange i JobState.Running JobState.Cancelled).
Qed.

Lemma turns_run i ts s : (foldl (watch_turn i) s ts).1 = run s.1 (turn_ops ts).
Proof.
  revert s. induction ts as [|[o|x l] ts IH]; intros s; simpl; [done|..]; by rewrite IH.
Qed.

(** Turns that do not time out keep the watcher waiting or give it an event of its job. *)
Lemma turns_inv r i ts s :
  watch_inv r i s -> Forall patient ts -> fresh_run s.1 (turn_ops ts) = true ->
  bc_closed (events r) = false ->
  (forall es, advances r es (run s.1 (turn_ops ts)) -> length es <= bc_capacity (events r))%nat ->
  watch_inv r i (foldl (watch_turn i) s ts).
Proof.
  revert s. induction ts as [|t ts IH]; intros s Hi Hp Hf Hc Hcap; [done|].
  inversion_clear Hp as [|? ? Ht Hp']. destruct t as [o|x l]; simpl in *.
  - apply andb_true_iff in Hf as [Ho Hf]. apply IH; [by apply watch_inv_op | done..].
  - destruct Ht as [-> ->]. apply IH; [|done..].
    apply watch_inv_poll; [done..|]. intros rx Es. unfold watch_inv in Hi. rewrite Es in Hi.
    destruct Hi as (past & _ & _ & Ha).
    destruct (run_advances (turn_ops ts) s.1) as [es He]; [apply Ha | done |].
    specialize (Hcap _ (advances_trans _ _ _ _ _ Ha He)). rewrite !length_app in Hcap. lia.
Qed.

Lemma answered_stays i r v ts : (foldl (watch_turn (B := B) (R := R) i) (r, Answered v) ts).2 = Answered v.
Proof. revert r. induction ts as [|[] ts IH]; intros r; simpl; [done|apply IH..]. Qed.

(** Everything emitted since the subscription is what the subscription has pending. *)
Lemma advances_pending r es r' : advances r es r' -> bc_pending (events r') (subscribe r) = es.
Proof.
  intros [-> _]. destruct (bc_subscribe_law (events r)) as [Hm Hp].
  destruct (sends_law _ es _ Hm) as [_ H]. unfold subscribe. by rewrite H, Hp.
Qed.

Lemma watch_inv_start r i es r1 : advances r es r1 -> watch_inv r i (r1, Waiting (subscribe r)).
Proof.
  intros H. exists []. split_and!; [|done|]; simpl; [|by rewrite (advances_pending _ _ _ H)].
  destruct H as [-> _]. apply sends_law, bc_subscribe_law.
Qed.

(** A job that finishes while a watcher waits has an event that the watcher has not passed. *)
Lemma finish_pending r i r1 es1 r' rx past j j' :
  advances r es1 r1 -> jobs r1 !! i = Some j -> JobState.is_terminal (state j) = false ->
  still_waiting r i r' rx past -> jobs r' !! i = Some j' -> JobState.is_terminal (state j') = true ->
  Exists (fun e => event_job_id e = i) (bc_pending (events r') rx).
Proof.
  intros (_ & _ & _ & H1) Hj Hn (_ & Hp & _ & _ & Ho & _) Hj' Ht.
  destruct (Exists_dec (fun e => event_job_id e = i) (bc_pending (events r') rx)) as [|Hne]; [done|].
  exfalso. apply not_Exists_Forall in Hne; [|apply _].
  specialize (Ho i). rewrite observes_other in Ho by (by apply Forall_app).
  injection Ho as Hv. unfold view in Hv. rewrite Hj' in Hv. simpl in Hv.
  destruct (jobs r !! i) as [j0|] eqn:E0; simpl in Hv.
  - destruct (H1 i j0 E0) as (j1 & E1 & _ & Habs). rewrite Hj in E1. injection E1 as <-.
    injection Hv as Hs _ _. rewrite Habs in Hn by congruence. congruence.
  - injection Hv as Hs _ _. by rewrite <-Hs in Ht.
Qed.

End Proofs.

(** The registry on the list channel. *)
Import Channels.LogBroadcast.
Definition demo_ops : list JobOp :=
  [OStartJob "llm/generate-image" 7 "a" 10 11; OProgress "job-a" (Some 50) None None 12;
   OComplete "job-a" JNull 13; OCancel "job-a" 14]%string.

Lemma job_lifecycle_witness :
  observes "job-a" initial_view
    (bc_pending (events (run (R := nat) (new (B := LogBroadcast.log JobEvent) (R := nat)).1 demo_ops)) 0%nat) =
  Some {| v_state := JobState.Done; v_result := Some JNull; v_error := None |}.
Proof.
  pose proof (job_lifecycle (B := LogBroadcast.log JobEvent) (R := nat) demo_ops []) as H.
  specialize (H eq_refl). destruct H as (H & _). exact (H "job-a"%string).
Defined.

Definition demo_start : JobRegistry (LogBroadcast.log JobEvent) :=
  run (R := nat) (new (R := nat)).1 [OStartJob "llm/generate-image" 7 "a" 10 11]%string.
Definition demo_turns : list WatchTurn :=
  [Poll false false; TaskOp (OStartJob "exec/run" 8 "b" 12 12); Poll false false;
   TaskOp (OFail "job-a" {| code := -1; message := "no quota" |} 13)]%string.


(** After a cancellation before it started, a watcher is told that the job was running. *)
Example cancelled_pending_reported_running :
  let r := run (R := nat) (new (B := LogBroadcast.log JobEvent) (R := nat)).1
             [OCreate "exec/run" 7 "a" 1; OCancel "job-a" 2]%string in
  bc_pending (events r) 0%nat = [StatusChange "job-a" JobState.Pending JobState.Cancelled] /\
  watch_check r "job-a" =
    Some (event_answer (event_to_json (StatusChange "job-a" JobState.Running JobState.Cancelled))).
Proof. by vm_compute. Qed.
