(* ===== verification/Ipc.v ===== *)
(** * IPC: frames, one call per connection, and the executor's tool calls

    Models [src/crates/avix-core/src/ipc/] ([frame.rs], [client.rs], the connection
    handlers of [server.rs], the wire form of [message.rs]) and the two users of a raw socket
    in the executor ([executor/ipc_dispatch.rs], [executor/syscall_dispatch.rs]).  The text of JSON
    values (serde_json) and the socket (tokio) are interfaces with laws; how
    the structs map to JSON values, by serde's derive, is written out. *)

From stdpp Require Import countable.
From S2P Require Import Prelude Floats Types Json Router.

Open Scope Z_scope.

(** ** JSON values up to the order of keys *)

Inductive jeq : json -> json -> Prop :=
| jeq_null : jeq JNull JNull
| jeq_bool b : jeq (JBool b) (JBool b)
| jeq_int z : jeq (JInt z) (JInt z)
| jeq_float x : jeq (JFloat x) (JFloat x)
| jeq_str s : jeq (JStr s) (JStr s)
| jeq_arr l l' : Forall2 jeq l l' -> jeq (JArr l) (JArr l')
| jeq_obj l l' : (forall k, option_Forall2 jeq (assoc_get k l) (assoc_get k l')) -> jeq (JObj l) (JObj l').

(** The values serde_json writes and reads back unchanged: integers of 64 bits, no floats (their
    text is not exact), distinct keys, at most [d] levels of nesting. *)
Fixpoint wire_ok (d : nat) (j : json) : bool :=
  match j with
  | JNull | JBool _ | JStr _ => true
  | JInt z => bool_decide (- 2 ^ 63 <= z <= u64_max)
  | JFloat _ => false
  | JArr l => match d with O => false | S d' => forallb (wire_ok d') l end
  | JObj l => match d with
              | O => false
              | S d' => bool_decide (NoDup l.*1) && forallb (fun x => wire_ok d' x.2) l
              end
  end.
(** serde_json refuses the 128th level. *)
Definition MAX_DEPTH : nat := 127.

(** The text of a value: [serde_json::to_vec] and [serde_json::from_slice]. *)
Class JsonText : Type := {
  to_text : json -> result string (list Z);
  of_text : list Z -> result string json
}.
Class JsonTextLaws `{!JsonText} : Prop := {
  text_roundtrip j : wire_ok MAX_DEPTH j = true ->
    exists bs j', to_text j = Ok bs /\ of_text bs = Ok j' /\ jeq j' j
}.

(** ** Serialised types: what [derive(Serialize, Deserialize)] makes of a type *)

Class Wire (T : Type) : Type := { to_json : T -> json; of_json : json -> option T }.

(** Which messages can be sent (their integers have the declared width), and what reaches the receiver. *)
Class WireLaws (T : Type) `{!Wire T} : Type := {
  sendable : T -> Prop;
  arrives : T -> T -> Prop;
  of_json_law x j : sendable x -> jeq j (to_json x) -> exists y, of_json j = Some y /\ arrives x y
}.

#[export] Instance json_wire : Wire json := {| to_json j := j; of_json := Some |}.

(** A field with [skip_serializing_if = "Option::is_none"], and reading an [Option]: a missing
    field and [null] are both [None]. *)
Definition skip_none {A} (k : string) (f : A -> json) (o : option A) : list (string * json) :=
  match o with Some a => [(k, f a)] | None => [] end.
Definition opt_of {A} (f : json -> option A) (o : option json) : option (option A) :=
  match o with
  | None | Some JNull => Some None
  | Some j => a ← f j; Some (Some a)
  end.
Definition i32_of (j : json) : option Z :=
  match j with JInt z => if decide (- 2 ^ 31 <= z < 2 ^ 31) then Some z else None | _ => None end.

(** The fields of a struct by name, or by position in an array. *)
Definition field (j : json) (k : string) (n : nat) : option json :=
  match j with JObj l => assoc_get k l | JArr l => l !! n | _ => None end.
Definition struct_shape (lo hi : nat) (j : json) : option unit :=
  match j with
  | JObj _ => Some tt
  | JArr l => if decide (lo <= length l <= hi)%nat then Some tt else None
  | _ => None
  end.

Definition request_of_json (j : json) : option JsonRpcRequest :=
  _ ← struct_shape 4 4 j;
  v ← field j "jsonrpc" 0 ≫= as_str;
  i ← field j "id" 1 ≫= as_str;
  m ← field j "method" 2 ≫= as_str;
  p ← field j "params" 3;
  Some {| rq_jsonrpc := v; rq_id := i; method := m; params := p |}.
#[export] Instance request_wire : Wire JsonRpcRequest := {|
  to_json r := JObj [("jsonrpc", JStr (rq_jsonrpc r)); ("id", JStr (rq_id r));
                     ("method", JStr (method r)); ("params", params r)]%string;
  of_json := request_of_json
|}.

Definition notification_new (m : string) (p : json) : JsonRpcNotification :=
  {| nt_jsonrpc := "2.0"; nt_method := m; nt_params := p |}.
Definition notification_of_json (j : json) : option JsonRpcNotification :=
  _ ← struct_shape 2 3 j;
  v ← field j "jsonrpc" 0 ≫= as_str;
  m ← field j "method" 1 ≫= as_str;
  Some {| nt_jsonrpc := v; nt_method := m; nt_params := default JNull (field j "params" 2) |}.
#[export] Instance notification_wire : Wire JsonRpcNotification := {|
  to_json n := JObj [("jsonrpc", JStr (nt_jsonrpc n)); ("method", JStr (nt_method n));
                     ("params", nt_params n)]%string;
  of_json := notification_of_json
|}.

Definition error_of_json (j : json) : option JsonRpcError :=
  _ ← struct_shape 3 3 j;
  c ← field j "code" 0 ≫= i32_of;
  m ← field j "message" 1 ≫= as_str;
  d ← opt_of Some (field j "data" 2);
  Some {| code := c; message := m; data := d |}.
Definition error_to_json (e : JsonRpcError) : json :=
  JObj ([("code", JInt (code e)); ("message", JStr (message e))]%string ++ skip_none "data" id (data e)).
Definition response_of_json (j : json) : option JsonRpcResponse :=
  _ ← struct_shape 4 4 j;
  v ← field j "jsonrpc" 0 ≫= as_str;
  i ← field j "id" 1 ≫= as_str;
  r ← opt_of Some (field j "result" 2);
  e ← opt_of error_of_json (field j "error" 3);
  Some {| rs_jsonrpc := v; rs_id := i; rs_result := r; rs_error := e |}.
#[export] Instance response_wire : Wire JsonRpcResponse := {|
  to_json r := JObj ([("jsonrpc", JStr (rs_jsonrpc r)); ("id", JStr (rs_id r))]%string ++
                     skip_none "result" id (rs_result r) ++ skip_none "error" error_to_json (rs_error r));
  of_json := response_of_json
|}.

(** [IpcMessage::from_value] *)
Definition message_of_json (j : json) : option IpcMessage :=
  match jget j "id" with
  | Some _ => r ← request_of_json j; Some (Request r)
  | None => n ← notification_of_json j; Some (Notification n)
  end.

(** ** Byte streams ([AsyncRead], [AsyncWrite])

    [unread] is what the peer sends before it closes, [written] what this side has
    sent; the laws describe a connection that is not reset. *)

Class ByteStream (C : Type) : Type := {
  read_exact : C -> nat -> result string (list Z) * C;
  write_all : C -> list Z -> result string unit * C
}.
Class ByteStreamLaws (C : Type) `{!ByteStream C} : Type := {
  unread : C -> list Z;
  written : C -> list Z;
  read_exact_law c n :
    match read_exact c n with
    | (Ok bs, c') => length bs = n /\ unread c = bs ++ unread c' /\ written c' = written c
    | (Err _, c') => (length (unread c) < n)%nat /\ written c' = written c
    end;
  write_all_law c bs :
    match write_all c bs with
    | (Ok _, c') => written c' = written c ++ bs /\ unread c' = unread c
    | (Err _, c') => unread c' = unread c
    end
}.

(** ** [frame.rs] *)

Definition MAX_FRAME_BYTES : Z := 16 * 1024 * 1024.

(** [u32::to_le_bytes] and [u32::from_le_bytes]; [as u32] keeps the low 32 bits. *)
Definition as_u32 (n : Z) : Z := n mod (u32_max + 1).
Definition to_le_bytes (n : Z) : list Z :=
  [n mod 256; n / 256 mod 256; n / 65536 mod 256; n / 16777216 mod 256].
Definition from_le_bytes (bs : list Z) : Z := foldr (fun b acc => b + 256 * acc) 0 bs.

Section Frames.
Context `{!JsonText}.

Definition to_vec {T} `{!Wire T} (m : T) : result string (list Z) := to_text (to_json m).
Definition from_slice {T} `{!Wire T} (bs : list Z) : result string T :=
  j ← of_text bs; ok_or "invalid type" (of_json j).

Definition encode {T} `{!Wire T} (m : T) : result AvixError (list Z) :=
  body ← map_err ConfigParse (to_vec m);
  if decide (MAX_FRAME_BYTES < Z.of_nat (length body))
  then Err (ConfigParse "message exceeds 16 MB limit")
  else Ok (to_le_bytes (as_u32 (Z.of_nat (length body))) ++ body).

Definition decode {T} `{!Wire T} (bytes : list Z) : result AvixError T :=
  if decide (length bytes < 4)%nat then Err (ConfigParse "frame too short")
  else map_err ConfigParse (from_slice (drop 4 bytes)).

Context {C : Type} `{!ByteStream C}.

Definition read_from {T} `{!Wire T} (c : C) : result AvixError T * C :=
  match read_exact c 4 with
  | (Err e, c) => (Err (ConfigParse e), c)
  | (Ok len_buf, c) =>
      let len := from_le_bytes len_buf in
      if decide (MAX_FRAME_BYTES < len) then (Err (ConfigParse "frame too large"), c)
      else
        match read_exact c (Z.to_nat len) with
        | (Err e, c) => (Err (ConfigParse e), c)
        | (Ok body, c) => (map_err ConfigParse (from_slice body), c)
        end
  end.

Definition write_to {T} `{!Wire T} (c : C) (m : T) : result AvixError unit * C :=
  match encode m with
  | Err e => (Err e, c)
  | Ok bytes => let '(r, c) := write_all c bytes in (map_err ConfigParse r, c)
  end.

(** ** [server.rs]: one connection

    The handler runs on a state of its own; [handle_connection_bidir] hands it the connection. *)

Definition handle_connection {St} (handler : St -> IpcMessage -> option JsonRpcResponse * St) (st : St) (c : C)
    : St * C :=
  match read_from (T := json) c with
  | (Err _, c) => (st, c)
  | (Ok raw, c) =>
      match message_of_json raw with
      | None => (st, c)
      | Some msg =>
          let '(resp, st) := handler st msg in
          match resp with
          | Some response => (st, (write_to c response).2)
          | None => (st, c)
          end
      end
  end.

Definition handle_connection_bidir {St} (handler : St -> IpcMessage -> C -> St * C) (st : St) (c : C) : St * C :=
  match read_from (T := json) c with
  | (Err _, c) => (st, c)
  | (Ok raw, c) =>
      match message_of_json raw with
      | None => (st, c)
      | Some msg => handler st msg c
      end
  end.

(** ** [client.rs]

    [connect] opens the socket; [elapsed] says that the timeout passes before the answer. *)

Record IpcClient : Type := { target : string; timeout : Z }.
Definition DEFAULT_TIMEOUT : Z := 5000.
Definition client_new (t : string) : IpcClient := {| target := t; timeout := DEFAULT_TIMEOUT |}.
Definition with_timeout (cl : IpcClient) (d : Z) : IpcClient := {| target := target cl; timeout := d |}.

Definition connect_error (t e : string) : AvixError :=
  Io ("IpcClient connect to " +:+ t +:+ ": " +:+ e).

Definition call (connect : string -> result string C) (cl : IpcClient) (rq : JsonRpcRequest) (elapsed : bool)
    : result AvixError JsonRpcResponse :=
  if elapsed then Err IpcTimeout
  else
    conn ← map_err (connect_error (target cl)) (connect (target cl));
    let '(r, conn) := write_to conn rq in
    _ ← r;
    (read_from conn).1.

Definition notify (connect : string -> result string C) (cl : IpcClient) (n : JsonRpcNotification)
    : result AvixError unit :=
  conn ← map_err (connect_error (target cl)) (connect (target cl));
  (write_to conn n).1.

(** ** The executor's calls ([ipc_dispatch.rs], [syscall_dispatch.rs])

    [env_var] is [std::env::var]; [None] is the panic of an indexed assignment. *)

Record AvixToolCall : Type := { call_id : string; name : string; args : json }.

(** [v[key] = x]: [null] becomes an object, anything but an object panics. *)
Definition index_assign (v : json) (key : string) (x : json) : option json :=
  match v with
  | JNull => Some (JObj [(key, x)])
  | JObj _ => Some (jobj_insert v key x)
  | _ => None
  end.

(** [str::to_uppercase] on the ASCII letters of an endpoint name. *)
Definition ascii_upper (c : ascii) : ascii :=
  let n := nat_of_ascii c in if decide (97 <= n <= 122)%nat then ascii_of_nat (n - 32) else c.
Fixpoint to_uppercase (s : string) : string :=
  match s with EmptyString => EmptyString | String c t => String (ascii_upper c) (to_uppercase t) end.

(** [dir.join(file)] *)
Fixpoint ends_with_slash (s : string) : bool :=
  match s with
  | EmptyString => false
  | String c EmptyString => bool_decide (c = "/"%char)
  | String _ t => ends_with_slash t
  end.
Definition path_join (dir file : string) : string :=
  if starts_with "/" file then file
  else if bool_decide (dir = EmptyString) || ends_with_slash dir then (dir +:+ file)%string
  else (dir +:+ "/" +:+ file)%string.

Definition caller_object (agent_pid : Z) (session_id : string) : json :=
  JObj [("pid", JInt agent_pid); ("session_id", JStr session_id)]%string.

(** The socket and the request of a Cat1 tool call. *)
Definition cat1_request (env_var : string -> option string) (cl : AvixToolCall) (descriptor : json)
    (agent_pid : Z) (session_id runtime_dir : string) (caller_scoped : bool) (uuid : string)
    : option (result AvixError (string * JsonRpcRequest)) :=
  match jget descriptor "ipc" with
  | None | Some JNull => Some (Err (ConfigParse ("tool '" +:+ name cl +:+ "' has no IPC binding")))
  | Some ipc =>
      match as_str (jindex ipc "endpoint"), as_str (jindex ipc "method") with
      | None, _ => Some (Err (ConfigParse "IPC binding missing endpoint"))
      | Some _, None => Some (Err (ConfigParse "IPC binding missing method"))
      | Some endpoint, Some m =>
          let env_key := ("AVIX_" +:+ replace_char "." "_" (replace_char "-" "_" (to_uppercase endpoint)) +:+ "_SOCK")%string in
          let socket_path := match env_var env_key with
                             | Some path => path
                             | None => path_join runtime_dir (endpoint +:+ ".sock")
                             end in
          p ← (if caller_scoped then index_assign (args cl) "_caller" (caller_object agent_pid session_id)
               else Some (args cl));
          Some (Ok (socket_path, {| rq_jsonrpc := "2.0"; rq_id := uuid; method := m; params := p |}))
      end
  end.

Definition dispatch_cat1_tool (env_var : string -> option string) (connect : string -> result string C)
    (cl : AvixToolCall) (descriptor : json) (agent_pid : Z) (session_id runtime_dir : string)
    (caller_scoped : bool) (uuid : string) : option (result AvixError json) :=
  req ← cat1_request env_var cl descriptor agent_pid session_id runtime_dir caller_scoped uuid;
  Some (
    '(socket_path, rpc_req) ← req;
    stream ← map_err (fun e => Io ("IPC connect to '" +:+ socket_path +:+ "' failed: " +:+ e)) (connect socket_path);
    let '(w, stream) := write_to stream rpc_req in
    _ ← map_err (fun e => Io ("IPC write to '" +:+ socket_path +:+ "' failed: " +:+ avix_error_to_string e)) w;
    response ← map_err (fun e => Io ("IPC read from '" +:+ socket_path +:+ "' failed: " +:+ avix_error_to_string e))
                 (read_from (T := JsonRpcResponse) stream).1;
    match rs_error response with
    | Some err => Err (Io ("tool '" +:+ name cl +:+ "' RPC error " +:+ pretty (code err) +:+ ": " +:+ message err))
    | None => ok_or (ConfigParse ("tool '" +:+ name cl +:+ "' IPC response had no result")) (rs_result response)
    end).

Definition syscall_request (env_var : string -> option string) (cl : AvixToolCall) (agent_pid : Z)
    (session_id runtime_dir uuid : string) : option (string * JsonRpcRequest) :=
  let socket_path := match env_var "AVIX_KERNEL_SOCK"%string with
                     | Some path => path
                     | None => path_join runtime_dir "kernel.sock"
                     end in
  p ← index_assign (args cl) "_caller" (caller_object agent_pid session_id);
  Some (socket_path, {| rq_jsonrpc := "2.0"; rq_id := uuid; method := name cl; params := p |}).

Definition dispatch_kernel_syscall (env_var : string -> option string) (connect : string -> result string C)
    (cl : AvixToolCall) (agent_pid : Z) (session_id runtime_dir uuid : string) : option (result AvixError json) :=
  '(socket_path, rpc_req) ← syscall_request env_var cl agent_pid session_id runtime_dir uuid;
  Some (
    stream ← map_err (fun e => Io ("kernel IPC connect to '" +:+ socket_path +:+ "' failed: " +:+ e)) (connect socket_path);
    let '(w, stream) := write_to stream rpc_req in
    _ ← map_err (fun e => Io ("kernel IPC write failed: " +:+ avix_error_to_string e)) w;
    response ← map_err (fun e => Io ("kernel IPC read failed: " +:+ avix_error_to_string e))
                 (read_from (T := JsonRpcResponse) stream).1;
    match rs_error response with
    | Some err => Err (Io ("kernel syscall '" +:+ name cl +:+ "' error " +:+ pretty (code err) +:+ ": " +:+ message err))
    | None => ok_or (ConfigParse ("kernel syscall '" +:+ name cl +:+ "' returned no result")) (rs_result response)
    end).

End Frames.

(** ** The wire laws of the message types *)

(** Reading a key of an object that arrived. *)
Lemma jeq_obj_inv j l : jeq j (JObj l) ->
  exists l', j = JObj l' /\ forall k, option_Forall2 jeq (assoc_get k l') (assoc_get k l).
Proof. inversion 1; subst. by eexists. Qed.

Lemma opt_rel_Some (o : option json) v : option_Forall2 jeq o (Some v) -> exists v', o = Some v' /\ jeq v' v.
Proof. inversion 1; subst. eauto. Qed.
Lemma opt_rel_str (o : option json) s : option_Forall2 jeq o (Some (JStr s)) -> o = Some (JStr s).
Proof. intros (v & -> & Hv)%opt_rel_Some. by inversion Hv. Qed.
Lemma opt_rel_int (o : option json) z : option_Forall2 jeq o (Some (JInt z)) -> o = Some (JInt z).
Proof. intros (v & -> & Hv)%opt_rel_Some. by inversion Hv. Qed.
Lemma opt_rel_None (o : option json) : option_Forall2 jeq o None -> o = None.
Proof. by inversion 1. Qed.

(** An optional value: [null] arrives as an absent one. *)
Definition drop_null (o : option json) : option json :=
  match o with Some JNull => None | _ => o end.
Definition opt_arrives (o o' : option json) : Prop := option_Forall2 jeq o' (drop_null o).

Lemma opt_of_value o o' : option_Forall2 jeq o' o -> exists y, opt_of Some o' = Some y /\ opt_arrives o y.
Proof.
  unfold opt_arrives. destruct 1 as [v' v Hv|]; simpl; [|exists None; split; [done|constructor]].
  destruct Hv; simpl; eexists; (split; [reflexivity|]); constructor; by constructor.
Qed.

Definition error_arrives (e e' : JsonRpcError) : Prop :=
  code e' = code e /\ message e' = message e /\ opt_arrives (data e) (data e').

Lemma assoc_get_skip_none {A} k k' (f : A -> json) o l :
  assoc_get k (skip_none k' f o ++ l) =
  if decide (k = k') then match o with Some a => Some (f a) | None => assoc_get k l end else assoc_get k l.
Proof. destruct o; simpl; by case_decide. Qed.

Lemma error_law e j : - 2 ^ 31 <= code e < 2 ^ 31 -> jeq j (error_to_json e) ->
  exists e', error_of_json j = Some e' /\ error_arrives e e'.
Proof.
  intros Hc (l & -> & Hl)%jeq_obj_inv. unfold error_of_json. simpl.
  rewrite (opt_rel_int _ _ (Hl "code"%string)). simpl. rewrite decide_True by done. simpl.
  rewrite (opt_rel_str _ _ (Hl "message"%string)). simpl.
  destruct (opt_of_value (data e) (assoc_get "data" l)) as (y & -> & Hy).
  { specialize (Hl "data"%string). simpl in Hl. by destruct (data e). }
  simpl. by eexists.
Qed.

#[export] Program Instance json_wire_laws : WireLaws json := {|
  sendable _ := True; arrives x y := jeq y x
|}.
Next Obligation. intros x j _ Hj. by exists j. Qed.

#[export] Program Instance request_wire_laws : WireLaws JsonRpcRequest := {|
  sendable _ := True;
  arrives x y := rq_jsonrpc y = rq_jsonrpc x /\ rq_id y = rq_id x /\ method y = method x /\
                 jeq (params y) (params x)
|}.
Next Obligation.
  intros x j _ (l & -> & Hl)%jeq_obj_inv. simpl. unfold request_of_json. simpl.
  rewrite (opt_rel_str _ _ (Hl "jsonrpc"%string)). simpl.
  rewrite (opt_rel_str _ _ (Hl "id"%string)). simpl.
  rewrite (opt_rel_str _ _ (Hl "method"%string)). simpl.
  destruct (opt_rel_Some _ _ (Hl "params"%string)) as (p & -> & Hp). simpl. by eexists.
Qed.

#[export] Program Instance notification_wire_laws : WireLaws JsonRpcNotification := {|
  sendable _ := True;
  arrives x y := nt_jsonrpc y = nt_jsonrpc x /\ nt_method y = nt_method x /\ jeq (nt_params y) (nt_params x)
|}.
Next Obligation.
  intros x j _ (l & -> & Hl)%jeq_obj_inv. simpl. unfold notification_of_json. simpl.
  rewrite (opt_rel_str _ _ (Hl "jsonrpc"%string)). simpl.
  rewrite (opt_rel_str _ _ (Hl "method"%string)). simpl.
  destruct (opt_rel_Some _ _ (Hl "params"%string)) as (p & -> & Hp). simpl. by eexists.
Qed.

Definition response_sendable (x : JsonRpcResponse) : Prop :=
  match rs_error x with Some e => - 2 ^ 31 <= code e < 2 ^ 31 | None => True end.
Definition response_arrives (x y : JsonRpcResponse) : Prop :=
  rs_jsonrpc y = rs_jsonrpc x /\ rs_id y = rs_id x /\ opt_arrives (rs_result x) (rs_result y) /\
  match rs_error x, rs_error y with
  | Some e, Some e' => error_arrives e e'
  | None, None => True
  | _, _ => False
  end.

#[export] Program Instance response_wire_laws : WireLaws JsonRpcResponse := {|
  sendable := response_sendable; arrives := response_arrives
|}.
Next Obligation.
  intros x j Hs (l & -> & Hl)%jeq_obj_inv. simpl. unfold response_of_json. simpl.
  rewrite (opt_rel_str _ _ (Hl "jsonrpc"%string)). simpl.
  rewrite (opt_rel_str _ _ (Hl "id"%string)). simpl.
  destruct (opt_of_value (rs_result x) (assoc_get "result" l)) as (r & -> & Hr).
  { specialize (Hl "result"%string). simpl in Hl. by destruct (rs_result x), (rs_error x). }
  simpl. specialize (Hl "error"%string). cbn [assoc_get app decide] in Hl.
  rewrite assoc_get_skip_none in Hl. simpl in Hl. unfold response_sendable in Hs.
  destruct (rs_error x) as [e|] eqn:Ee; simpl in Hl.
  - apply opt_rel_Some in Hl as (v & -> & Hv). destruct (error_law e v Hs Hv) as (e' & He' & Ha).
    assert (opt_of error_of_json (Some v) = Some (Some e')) as ->.
    { unfold error_to_json in Hv. apply jeq_obj_inv in Hv as (l' & -> & _). simpl. by rewrite He'. }
    simpl. eexists. split; [done|]. unfold response_arrives. simpl. by rewrite Ee.
  - apply opt_rel_None in Hl as ->. simpl. eexists. split; [done|]. unfold response_arrives. simpl. by rewrite Ee.
Qed.

(** ** Frames on a stream *)

Lemma le_roundtrip n : 0 <= n <= u32_max -> from_le_bytes (to_le_bytes n) = n.
Proof.
  intros H. unfold from_le_bytes, to_le_bytes, u32_max in *. cbn [foldr].
  pose proof (Z.div_mod n 256). pose proof (Z.div_mod (n / 256) 256). pose proof (Z.div_mod (n / 65536) 256).
  rewrite !Z.div_div in * by lia. change (256 * 256) with 65536 in *. change (65536 * 256) with 16777216 in *.
  assert (0 <= n / 16777216 < 256) by (split; [apply Z.div_pos | apply Z.div_lt_upper_bound]; lia).
  rewrite (Z.mod_small (n / 16777216)) by lia. lia.
Qed.

Section Streams.
Context {HT : JsonText} {HL : JsonTextLaws} {C : Type} `{!ByteStream C} `{!ByteStreamLaws C}.

Section Messages.
Context {T : Type} `{!Wire T} `{!WireLaws T}.
Implicit Types (m : T) (c : C).

(** A message whose text serde_json reads back. *)
Definition msg_ok m : Prop := sendable m /\ wire_ok MAX_DEPTH (to_json m) = true.

Lemma encode_Ok m f : encode m = Ok f ->
  exists body, to_vec m = Ok body /\ Z.of_nat (length body) <= MAX_FRAME_BYTES /\
               f = to_le_bytes (Z.of_nat (length body)) ++ body.
Proof.
  unfold encode. intros (body & Hb & Hf)%bind_Ok_inv. apply map_err_Ok in Hb.
  case_decide; [done|]. injection Hf as <-. exists body. split_and!; [done|lia|].
  unfold as_u32. rewrite (Z.mod_small (Z.of_nat (length body))); [reflexivity|].
  unfold MAX_FRAME_BYTES, u32_max in *. lia.
Qed.

Lemma from_slice_to_vec m body : msg_ok m -> to_vec m = Ok body ->
  exists m', from_slice body = Ok m' /\ arrives m m'.
Proof.
  intros [Hs Hw] Hb. destruct (text_roundtrip _ Hw) as (bs & j & Ht & Hj & He).
  unfold to_vec in Hb. rewrite Ht in Hb. injection Hb as <-.
  destruct (of_json_law m j Hs He) as (m' & Hm & Ha). exists m'. split; [|done].
  unfold from_slice. rewrite Hj. simpl. by rewrite Hm.
Qed.

(** [read_from] on any input: a stream that ends before the header or the announced body is an
    error, an announced length above 16 MB is refused after the four header bytes and before
    the body is read, and otherwise exactly one frame is consumed and decoded. *)
Theorem read_from_outcome c :
  let '(r, c') := read_from (T := T) c in
  let n := from_le_bytes (take 4 (unread c)) in
  written c' = written c /\
  if decide (length (unread c) < 4)%nat then exists e, r = Err (ConfigParse e)
  else if decide (MAX_FRAME_BYTES < n) then
    r = Err (ConfigParse "frame too large") /\ unread c' = drop 4 (unread c)
  else if decide (length (unread c) < 4 + Z.to_nat n)%nat then exists e, r = Err (ConfigParse e)
  else r = map_err ConfigParse (from_slice (take (Z.to_nat n) (drop 4 (unread c)))) /\
       unread c' = drop (4 + Z.to_nat n) (unread c).
Proof.
  unfold read_from. pose proof (read_exact_law c 4) as H1.
  destruct (read_exact c 4) as [[hd|e] c1]; destruct H1 as (Hl & H1); cbv beta iota zeta.
  2: { split; [done|]. rewrite decide_True by done. by exists e. }
  destruct H1 as [Hu Hw]. rewrite Hu, !length_app, Hl.
  destruct (decide (4 + length (unread c1) < 4)%nat) as [|_]; [lia|].
  rewrite <-Hl, take_app_length, drop_app_length. rewrite Hl.
  case_decide as Hm; [done|]. set (n := Z.to_nat (from_le_bytes hd)) in *.
  pose proof (read_exact_law c1 n) as H2.
  destruct (read_exact c1 n) as [[body|e] c2]; destruct H2 as (Hl2 & H2); cbv beta iota.
  - destruct H2 as [Hu2 Hw2]. split; [congruence|]. rewrite Hu2, length_app, decide_False by lia.
    rewrite <-Hl2, take_app_length. split; [done|].
    rewrite <-drop_drop. rewrite (drop_app_length' hd) by done. by rewrite drop_app_length.
  - split; [congruence|]. rewrite decide_True by lia. by exists e.
Qed.

Lemma read_frame c m f rest : msg_ok m -> encode m = Ok f -> unread c = f ++ rest ->
  exists m' c', read_from c = (Ok m', c') /\ arrives m m' /\ unread c' = rest /\ written c' = written c.
Proof.
  intros Hm (body & Hb & Hl & ->)%encode_Ok Hu. destruct (from_slice_to_vec m body Hm Hb) as (m' & Hs & Ha).
  pose proof (read_exact_law c 4) as H1. unfold read_from.
  destruct (read_exact c 4) as [[hd|e] c1]; destruct H1 as (Hl1 & H1).
  2: { rewrite Hu, !length_app in Hl1. simpl in Hl1. lia. }
  destruct H1 as [Hu1 Hw1]. rewrite Hu, <-app_assoc in Hu1. apply app_inj_1 in Hu1 as [<- Hu1]; [|by rewrite Hl1].
  rewrite le_roundtrip by (unfold MAX_FRAME_BYTES, u32_max in *; lia).
  rewrite decide_False by lia. rewrite Nat2Z.id.
  pose proof (read_exact_law c1 (length body)) as H2.
  destruct (read_exact c1 (length body)) as [[bd|e] c2]; destruct H2 as (Hl2 & H2).
  2: { rewrite <-Hu1, length_app in Hl2. lia. }
  destruct H2 as [Hu2 Hw2]. rewrite <-Hu1 in Hu2. apply app_inj_1 in Hu2 as [<- Hu2]; [|done].
  exists m', c2. rewrite Hs. split_and!; [done|done|done|congruence].
Qed.

(** Frames one after the other, as on a connection that streams. *)
Fixpoint write_frames c (ms : list T) : result AvixError unit * C :=
  match ms with
  | [] => (Ok tt, c)
  | m :: ms' => match write_to c m with (Ok _, c) => write_frames c ms' | (Err e, c) => (Err e, c) end
  end.
Fixpoint read_frames (n : nat) c : result AvixError (list T) * C :=
  match n with
  | O => (Ok [], c)
  | S n' =>
      match read_from c with
      | (Err e, c) => (Err e, c)
      | (Ok m, c) => match read_frames n' c with
                     | (Ok ms, c) => (Ok (m :: ms), c)
                     | (Err e, c) => (Err e, c)
                     end
      end
  end.

Lemma write_to_Ok c m c' : write_to c m = (Ok tt, c') ->
  exists f, encode m = Ok f /\ written c' = written c ++ f /\ unread c' = unread c.
Proof.
  unfold write_to. destruct (encode m) as [f|]; [|done]. pose proof (write_all_law c f) as Hw.
  destruct (write_all c f) as [[[]|] c1]; [|done]. intros [= <-]. by exists f.
Qed.

Lemma write_frames_Ok c ms c' : write_frames c ms = (Ok tt, c') ->
  exists fs, Forall2 (fun m f => encode m = Ok f) ms fs /\ written c' = written c ++ concat fs.
Proof.
  revert c. induction ms as [|m ms IH]; intros c H; simpl in H.
  - injection H as <-. exists []. split; [constructor|]. by rewrite app_nil_r.
  - destruct (write_to c m) as [[[]|] c1] eqn:E; [|done].
    apply write_to_Ok in E as (f & Hf & Hw & _). destruct (IH c1 H) as (fs & Hfs & Hw').
    exists (f :: fs). split; [by constructor|]. by rewrite Hw', Hw, <-app_assoc.
Qed.

(** framing is self-delimiting.  Messages written one after the other to a stream are read back
    one by one, in order and up to the order of keys, and what follows them is left
    unread; a frame is at most 16 MB and four bytes, and [decode] inverts [encode]. *)
Theorem frame_stream c ms c' d rest :
  Forall msg_ok ms -> write_frames c ms = (Ok tt, c') ->
  unread d = drop (length (written c)) (written c') ++ rest ->
  (exists ms' d', read_frames (length ms) d = (Ok ms', d') /\ Forall2 arrives ms ms' /\ unread d' = rest) /\
  (forall m, m ∈ ms -> exists f m', encode m = Ok f /\ Z.of_nat (length f) <= MAX_FRAME_BYTES + 4 /\
                                    decode f = Ok m' /\ arrives m m').
Proof.
  intros Hok (fs & Hfs & Hw)%write_frames_Ok Hu. rewrite Hw, drop_app_length in Hu. clear Hw. split.
  - revert d Hu. induction Hfs as [|m f ms fs Hf _ IH]; intros d Hu; [by exists [], d|].
    inversion_clear Hok as [|? ? Hm Hms]. simpl in Hu. rewrite <-app_assoc in Hu.
    destruct (read_frame d m f _ Hm Hf Hu) as (m' & d1 & Hr & Ha & Hu1 & _).
    destruct (IH Hms d1 Hu1) as (ms' & d2 & Hr2 & Ha2 & Hu2).
    exists (m' :: ms'), d2. simpl. rewrite Hr, Hr2. split_and!; [done|by constructor|done].
  - intros m Hin. apply list_elem_of_lookup in Hin as [i Hi].
    destruct (Forall2_lookup_l _ _ _ _ _ Hfs Hi) as (f & _ & Hf).
    pose proof (Forall_lookup_1 _ _ _ _ Hok Hi) as Hm. exists f.
    apply encode_Ok in Hf as Hb. destruct Hb as (body & Hb & Hl & ->).
    destruct (from_slice_to_vec m body Hm Hb) as (m' & Hs & Ha). exists m'.
    split_and!; [done| rewrite length_app; simpl; lia| |done].
    unfold decode. rewrite decide_False by (rewrite length_app; simpl; lia).
    change (drop 4 _) with body. by rewrite Hs.
Qed.

End Messages.

(** ** One call: client, connection and server *)

Section Connected.
Context {St : Type}.
Variable handler : St -> IpcMessage -> option JsonRpcResponse * St.
Variable st : St.
Variables conn srv : C.
(** The two ends of a fresh connection on which writes go through: the client receives what
    the server writes. *)
Hypothesis Hup : forall (c : C) bs, exists c', write_all c bs = (Ok tt, c').
Hypothesis Hsrv : written srv = [].
Hypothesis Hback : unread conn = written (handle_connection handler st srv).2.

(** What the exchange of one request amounts to, for a client that has sent [rq]. *)
Definition exchange (rq : JsonRpcRequest) : result AvixError JsonRpcResponse :=
  let '(r, conn) := write_to conn rq in
  _ ← r;
  (read_from conn).1.

Lemma write_to_up {T} `{!Wire T} (c : C) (m : T) f : encode m = Ok f ->
  exists c', write_to c m = (Ok tt, c') /\ written c' = written c ++ f /\ unread c' = unread c.
Proof.
  intros Hf. unfold write_to. rewrite Hf. destruct (Hup c f) as [c' Hc].
  pose proof (write_all_law c f) as Hw. rewrite Hc in Hw |- *. by exists c'.
Qed.

Lemma read_empty {T} `{!Wire T} (c : C) : unread c = [] -> exists e, (read_from (T := T) c).1 = Err e.
Proof.
  intros Hu. unfold read_from. pose proof (read_exact_law c 4) as Hl.
  destruct (read_exact c 4) as [[hd|e] c1]; destruct Hl as [Hl Hr]; [|by exists (ConfigParse e)].
  destruct Hr as [Hr _]. rewrite Hu in Hr. destruct hd; [done | done].
Qed.

Lemma message_of_request rq j : jeq j (to_json rq) ->
  exists rq', message_of_json j = Some (Request rq') /\ arrives rq rq'.
Proof.
  intros Hj. destruct (of_json_law rq j) as (rq' & Hr & Ha); [done..|]. exists rq'. split; [|done].
  simpl in Hr. unfold message_of_json. apply jeq_obj_inv in Hj as (l & -> & Hl). simpl.
  rewrite (opt_rel_str _ _ (Hl "id"%string)). by rewrite Hr.
Qed.

(** The server answers the request it was sent. *)
Lemma serve_request rq f : msg_ok rq -> encode rq = Ok f -> unread srv = f ->
  exists rq' c, arrives rq rq' /\ written c = [] /\
    handle_connection handler st srv =
    match handler st (Request rq') with
    | (Some resp, st') => (st', (write_to c resp).2)
    | (None, st') => (st', c)
    end.
Proof.
  intros [Hs Hw] Hf Hu.
  assert (msg_ok (to_json rq)) as Hok by done.
  destruct (read_frame srv (to_json rq) f [] Hok Hf) as (raw & c & Hr & Ha & _ & Hwc); [by rewrite app_nil_r|].
  destruct (message_of_request rq raw Ha) as (rq' & Hm & Harr). exists rq', c.
  split; [done|]. split; [by rewrite Hwc|]. unfold handle_connection. rewrite Hr, Hm.
  by destruct (handler st (Request rq')) as [[resp|] st'].
Qed.

Lemma exchange_outcome rq f : msg_ok rq -> encode rq = Ok f -> unread srv = f ->
  exists rq', arrives rq rq' /\
    (handle_connection handler st srv).1 = (handler st (Request rq')).2 /\
    match (handler st (Request rq')).1 with
    | Some resp =>
        match encode resp with
        | Ok _ => msg_ok resp -> exists resp', exchange rq = Ok resp' /\ arrives resp resp'
        | Err _ => exists e, exchange rq = Err e
        end
    | None => exists e, exchange rq = Err e
    end.
Proof.
  intros Hok Hf Hu. destruct (serve_request rq f Hok Hf Hu) as (rq' & c & Ha & Hwc & Hs).
  destruct (write_to_up conn rq f Hf) as (conn' & Hwr & _ & Hun). exists rq'. split; [done|].
  unfold exchange. rewrite Hwr. cbn [mbind result_bind]. rewrite Hback in Hun.
  destruct (handler st (Request rq')) as [[resp|] st'] eqn:Eh; rewrite Hs in Hun |- *; cbn [fst snd] in *;
    (split; [done|]).
  - destruct (encode resp) as [f'|e] eqn:Ef.
    + intros Hr. destruct (write_to_up c resp f' Ef) as (c' & Hwr' & Hw' & _).
      rewrite Hwr' in Hun. simpl in Hun. rewrite Hw', Hwc in Hun.
      destruct (read_frame conn' resp f' [] Hr Ef) as (resp' & c2 & -> & Harr & _); [by rewrite app_nil_r|].
      by exists resp'.
    + apply read_empty. unfold write_to in Hun. rewrite Ef in Hun. simpl in Hun. congruence.
  - apply read_empty. congruence.
Qed.

(** What a caller makes of the response that arrived. *)
Lemma answer_outcome (resp resp' : JsonRpcResponse) (err_of : Z -> string -> AvixError) (none : AvixError) :
  arrives resp resp' ->
  let out := match rs_error resp' with
             | Some err => Err (err_of (code err) (message err))
             | None => ok_or none (rs_result resp')
             end in
  match rs_error resp, drop_null (rs_result resp) with
  | Some err, _ => out = Err (err_of (code err) (message err))
  | None, Some v => exists v', out = Ok v' /\ jeq v' v
  | None, None => out = Err none
  end.
Proof.
  intros (_ & _ & Hres & Herr). simpl.
  destruct (rs_error resp) as [err|], (rs_error resp') as [err'|]; try done.
  - by destruct Herr as (-> & -> & _).
  - unfold opt_arrives in Hres. destruct (drop_null (rs_result resp)) as [v|].
    + apply opt_rel_Some in Hres as (v' & -> & Hv). by exists v'.
    + by apply opt_rel_None in Hres as ->.
Qed.

(** C35: a call is the handler.  For a request the client can frame, sent over a fresh connection to a server
    that runs [handle_connection], the server's handler is applied once to the request that
    was sent, and [IpcClient::call] returns its answer (up to the order of keys and with a [null] result
    absent); if the handler does not answer, or its answer cannot be framed, the call fails. *)
Theorem call_is_handler connect cl rq f :
  connect (target cl) = Ok conn -> msg_ok rq -> encode rq = Ok f -> unread srv = f ->
  exists rq', arrives rq rq' /\
    (handle_connection handler st srv).1 = (handler st (Request rq')).2 /\
    match (handler st (Request rq')).1 with
    | Some resp =>
        match encode resp with
        | Ok _ => msg_ok resp -> exists resp', call connect cl rq false = Ok resp' /\ arrives resp resp'
        | Err _ => exists e, call connect cl rq false = Err e
        end
    | None => exists e, call connect cl rq false = Err e
    end.
Proof.
  intros Hc. assert (call connect cl rq false = exchange rq) as ->; [|apply exchange_outcome].
  unfold call. by rewrite Hc.
Qed.

(** the outcome of a tool call.  When the service answers, [dispatch_cat1_tool] returns the result value
    if there is one that is not [null], the service's error if it sent one, and
    fails with "IPC response had no result" for a successful call whose result is [null]. *)
Theorem tool_call_outcome env_var connect cl descriptor pid sid dir scoped uuid path rq f resp :
  cat1_request env_var cl descriptor pid sid dir scoped uuid = Some (Ok (path, rq)) ->
  connect path = Ok conn -> msg_ok rq -> encode rq = Ok f -> unread srv = f ->
  (forall rq', arrives rq rq' -> (handler st (Request rq')).1 = Some resp) ->
  msg_ok resp -> is_ok (encode resp) = true ->
  exists out, dispatch_cat1_tool env_var connect cl descriptor pid sid dir scoped uuid = Some out /\
    match rs_error resp, drop_null (rs_result resp) with
    | Some err, _ => out = Err (Io ("tool '" +:+ name cl +:+ "' RPC error " +:+ pretty (code err) +:+ ": " +:+ message err))
    | None, Some v => exists v', out = Ok v' /\ jeq v' v
    | None, None => out = Err (ConfigParse ("tool '" +:+ name cl +:+ "' IPC response had no result"))
    end.
Proof.
  intros Hrq Hc Hok Hf Hu Hh Hr He. destruct (exchange_outcome rq f Hok Hf Hu) as (rq' & Ha & _ & Hx).
  rewrite (Hh rq' Ha) in Hx. destruct (encode resp) as [f'|]; [|done].
  destruct (Hx Hr) as (resp' & Hx' & Harr).
  unfold dispatch_cat1_tool. rewrite Hrq. cbn [mbind option_bind result_bind]. rewrite Hc. cbn [map_err mbind result_bind].
  unfold exchange in Hx'. destruct (write_to conn rq) as [[[]|] c1]; [|done]. cbn [map_err mbind result_bind] in *.
  rewrite Hx'. cbn [map_err mbind result_bind]. eexists. split; [done|].
  exact (answer_outcome _ _ (fun c m => Io ("tool '" +:+ name cl +:+ "' RPC error " +:+ pretty c +:+ ": " +:+ m)) _ Harr).
Qed.

(** the outcome of a kernel syscall.  Arguments that are neither an object nor [null] make
    [dispatch_kernel_syscall] panic before it connects; otherwise the kernel receives the arguments
    with [_caller] set to the calling agent, and its answer decides the outcome as for a tool call. *)
Theorem syscall_outcome env_var connect cl pid sid dir uuid :
  match syscall_request env_var cl pid sid dir uuid with
  | None =>
      dispatch_kernel_syscall env_var connect cl pid sid dir uuid = None /\
      (forall l, args cl <> JObj l) /\ args cl <> JNull
  | Some (path, rq) =>
      method rq = name cl /\
      (forall k, jget (params rq) k =
         if decide (k = "_caller"%string) then Some (caller_object pid sid) else jget (args cl) k) /\
      forall f resp, connect path = Ok conn -> msg_ok rq -> encode rq = Ok f -> unread srv = f ->
        (forall rq', arrives rq rq' -> (handler st (Request rq')).1 = Some resp) ->
        msg_ok resp -> is_ok (encode resp) = true ->
        exists out, dispatch_kernel_syscall env_var connect cl pid sid dir uuid = Some out /\
          match rs_error resp, drop_null (rs_result resp) with
          | Some err, _ => out = Err (Io ("kernel syscall '" +:+ name cl +:+ "' error " +:+ pretty (code err) +:+ ": " +:+ message err))
          | None, Some v => exists v', out = Ok v' /\ jeq v' v
          | None, None => out = Err (ConfigParse ("kernel syscall '" +:+ name cl +:+ "' returned no result"))
          end
  end.
Proof.
  unfold dispatch_kernel_syscall.
  destruct (syscall_request env_var cl pid sid dir uuid) as [[path rq]|] eqn:Hrq;
    unfold syscall_request in Hrq; destruct (index_assign (args cl) "_caller" (caller_object pid sid)) as [p|] eqn:Ep;
    try done.
  2: { split; [done|]. by destruct (args cl). }
  injection Hrq as <- <-. cbn [mbind option_bind]. split; [done|]. split.
  { intros k. cbn [params]. unfold index_assign in Ep. destruct (args cl); try done; injection Ep as <-;
      [by simpl; case_decide | apply jget_insert]. }
  intros f resp Hc Hok Hf Hu Hh Hr He.
  destruct (exchange_outcome _ f Hok Hf Hu) as (rq' & Ha & _ & Hx).
  rewrite (Hh rq' Ha) in Hx. destruct (encode resp) as [f'|]; [|done].
  destruct (Hx Hr) as (resp' & Hx' & Harr). rewrite Hc. cbn [map_err mbind result_bind].
  unfold exchange in Hx'. destruct (write_to conn _) as [[[]|] c1]; [|done]. cbn [map_err mbind result_bind] in *.
  rewrite Hx'. cbn [map_err mbind result_bind]. eexists. split; [done|].
  exact (answer_outcome _ _ (fun c m => Io ("kernel syscall '" +:+ name cl +:+ "' error " +:+ pretty c +:+ ": " +:+ m)) _ Harr).
Qed.

End Connected.
End Streams.

(** ** Concrete interfaces: values as trees coded in bits, a connection end as two byte lists *)

Module Demo.

Definition leaf : Type := option bool + (Z + string).

Fixpoint json_tree (j : json) : gen_tree leaf :=
  match j with
  | JNull | JFloat _ => GenLeaf (inl None)
  | JBool b => GenLeaf (inl (Some b))
  | JInt z => GenLeaf (inr (inl z))
  | JStr s => GenLeaf (inr (inr s))
  | JArr l => GenNode 0 (map json_tree l)
  | JObj l => GenNode 1 (map (fun x => match x with (k, v) => GenNode 2 [GenLeaf (inr (inr k)); json_tree v] end) l)
  end.
Fixpoint tree_json (t : gen_tree leaf) : json :=
  match t with
  | GenLeaf (inl None) => JNull
  | GenLeaf (inl (Some b)) => JBool b
  | GenLeaf (inr (inl z)) => JInt z
  | GenLeaf (inr (inr s)) => JStr s
  | GenNode 0 ts => JArr (map tree_json ts)
  | GenNode _ ts =>
      JObj (map (fun t => match t with
                          | GenNode _ [GenLeaf (inr (inr k)); v] => (k, tree_json v)
                          | _ => (EmptyString, JNull)
                          end) ts)
  end.

Lemma tree_roundtrip d j : wire_ok d j = true -> tree_json (json_tree j) = j.
Proof.
  revert j. induction d as [|d IH]; intros [| | | | |l|l]; simpl; try done; intros H.
  - f_equal. rewrite map_map. apply Is_true_true_2, forallb_True in H.
    induction H as [|x l Hx _ IHl]; simpl; [done|]. f_equal; [by apply IH, Is_true_true_1 | exact IHl].
  - apply andb_true_iff in H as [_ H]. apply Is_true_true_2, forallb_True in H.
    f_equal. rewrite map_map. induction H as [|[k v] l Hx _ IHl]; simpl; [done|].
    f_equal; [by rewrite IH by (by apply Is_true_true_1) | exact IHl].
Qed.

Lemma wire_ok_jeq d j : wire_ok d j = true -> jeq j j.
Proof.
  revert j. induction d as [|d IH]; intros [| | | | |l|l]; simpl; try done; intros H; try by constructor.
  - constructor. apply Is_true_true_2, forallb_True in H.
    induction H as [|x l Hx _ IHl]; constructor; [by apply IH, Is_true_true_1 | exact IHl].
  - apply andb_true_iff in H as [_ H]. apply Is_true_true_2, forallb_True in H.
    constructor. intros k. induction H as [|[k' v] l Hx _ IHl]; simpl; [constructor|].
    case_decide; [constructor; by apply IH, Is_true_true_1 | exact IHl].
Qed.

Fixpoint pos_bits (p : positive) : list Z :=
  match p with xH => [] | xO q => 0 :: pos_bits q | xI q => 1 :: pos_bits q end.
Fixpoint bits_pos (l : list Z) : positive :=
  match l with [] => xH | b :: l' => if decide (b = 0) then xO (bits_pos l') else xI (bits_pos l') end.
Lemma bits_roundtrip p : bits_pos (pos_bits p) = p.
Proof. induction p as [p IH|p IH|]; simpl; by rewrite ?IH. Qed.

#[export] Instance text : JsonText := {|
  to_text j := Ok (pos_bits (countable.encode (json_tree j)));
  of_text bs := ok_or "malformed" (tree_json <$> countable.decode (bits_pos bs))
|}.
#[export] Instance text_laws : JsonTextLaws.
Proof.
  constructor. intros j Hj. eexists _, j. split; [done|]. simpl. rewrite bits_roundtrip, decode_encode. simpl.
  rewrite (tree_roundtrip _ _ Hj). split; [done | by eapply wire_ok_jeq].
Qed.

Record pipe_end : Type := { inbox : list Z; outbox : list Z }.
#[export] Instance stream : ByteStream pipe_end := {|
  read_exact c n :=
    if decide (length (inbox c) < n)%nat then (Err "early eof", c)
    else (Ok (take n (inbox c)), {| inbox := drop n (inbox c); outbox := outbox c |});
  write_all c bs := (Ok tt, {| inbox := inbox c; outbox := outbox c ++ bs |})
|}.
#[export] Program Instance stream_laws : ByteStreamLaws pipe_end := {| unread := inbox; written := outbox |}.
Next Obligation.
  intros c n. simpl. case_decide as H; simpl; [done|]. rewrite length_take, take_drop. split; [lia | done].
Qed.
Next Obligation. done. Qed.

End Demo.

Import Demo.

Definition demo_msgs : list json := [JStr "a"; JObj [("k", JInt 5)]]%string.
Definition demo_end : pipe_end := {| inbox := []; outbox := [7] |}.
Definition demo_sent : pipe_end := (write_frames demo_end demo_msgs).2.
Definition demo_reader : pipe_end := {| inbox := drop 1 (outbox demo_sent) ++ [9; 9]; outbox := [] |}.

Lemma frame_stream_witness :
  exists ms' d', read_frames (T := json) 2 demo_reader = (Ok ms', d') /\
    Forall2 (fun x y => jeq y x) demo_msgs ms' /\ inbox d' = [9; 9].
Proof.
  refine (proj1 (frame_stream (T := json) demo_end demo_msgs demo_sent demo_reader [9; 9] _ _ _)).
  - repeat constructor.
  - vm_compute. reflexivity.
  - reflexivity.
Defined.

Lemma read_from_outcome_witness :
  (read_from (T := json) {| inbox := [255; 255; 255; 255; 1]; outbox := [] |}).1 = Err (ConfigParse "frame too large").
Proof.
  pose proof (read_from_outcome (T := json) {| inbox := [255; 255; 255; 255; 1]; outbox := [] |}) as H.
  destruct (read_from _) as [r c'] eqn:E. destruct H as (_ & H & _). exact H.
Defined.

(** A server that counts its calls and answers [pong], and the connection to it. *)
Definition ping : JsonRpcRequest := {| rq_jsonrpc := "2.0"; rq_id := "1"; method := "svc/ping"; params := JObj [] |}.
Definition pong (n : nat) (m : IpcMessage) : option JsonRpcResponse * nat :=
  match m with Request r => (Some (rpc_ok (rq_id r) (JStr "pong")), S n) | Notification _ => (None, n) end.
Definition frame_of (rq : JsonRpcRequest) : list Z := match encode rq with Ok f => f | Err _ => [] end.
Definition server_end (f : list Z) : pipe_end := {| inbox := f; outbox := [] |}.
Definition client_end (h : nat -> IpcMessage -> option JsonRpcResponse * nat) (f : list Z) : pipe_end :=
  {| inbox := outbox (handle_connection h 0%nat (server_end f)).2; outbox := [] |}.

Lemma pong_encodes : is_ok (encode (rpc_ok "1" (JStr "pong"))) = true.
Proof. vm_compute. reflexivity. Qed.

Lemma call_is_handler_witness :
  (handle_connection pong 0%nat (server_end (frame_of ping))).1 = 1%nat /\
  exists resp, call (fun _ => Ok (client_end pong (frame_of ping))) (client_new "/run/svc.sock") ping false = Ok resp /\
               rs_id resp = "1"%string /\ opt_arrives (Some (JStr "pong")) (rs_result resp).
Proof.
  destruct (call_is_handler pong 0%nat (client_end pong (frame_of ping)) (server_end (frame_of ping))
    ltac:(intros; by eexists) eq_refl eq_refl (fun _ => Ok (client_end pong (frame_of ping)))
    (client_new "/run/svc.sock") ping (frame_of ping) eq_refl ltac:(by split)
    ltac:(vm_compute; reflexivity) eq_refl) as (rq' & (_ & Hid & _) & Hst & Hm).
  split; [exact Hst|]. change (rq_id ping) with "1"%string in Hid. cbn [pong fst] in Hm. rewrite Hid in Hm.
  pose proof pong_encodes as Hp. destruct (encode (rpc_ok "1" (JStr "pong"))) as [f|]; [|done].
  destruct Hm as (resp & Hc & _ & Hi & Hr & _); [by split|].
  exists resp. split; [exact Hc | split; [exact Hi | exact Hr]].
Defined.

(** A tool that answers [null]. *)
Definition null_call : AvixToolCall := {| call_id := "c"; name := "fs/flush"; args := JObj [] |}.
Definition null_descriptor : json := JObj [("ipc", JObj [("endpoint", JStr "fs-svc"); ("method", JStr "flush")])]%string.
Definition null_request : JsonRpcRequest :=
  {| rq_jsonrpc := "2.0"; rq_id := "u"; method := "flush"; params := JObj [] |}.
Definition null_server (n : nat) (m : IpcMessage) : option JsonRpcResponse * nat := (Some (rpc_ok "u" JNull), S n).
Definition null_connect (p : string) : result string pipe_end :=
  if String.eqb p "/run/avix/fs-svc.sock" then Ok (client_end null_server (frame_of null_request))
  else Err "no such file"%string.

Lemma tool_call_outcome_witness :
  dispatch_cat1_tool (fun _ => None) null_connect
    null_call null_descriptor 7 "s" "/run/avix" false "u" =
  Some (Err (ConfigParse "tool 'fs/flush' IPC response had no result")).
Proof.
  destruct (tool_call_outcome null_server 0%nat (client_end null_server (frame_of null_request))
    (server_end (frame_of null_request)) ltac:(intros; by eexists) eq_refl eq_refl (fun _ => None) null_connect
    null_call null_descriptor 7 "s" "/run/avix" false "u" "/run/avix/fs-svc.sock" null_request
    (frame_of null_request) (rpc_ok "u" JNull) eq_refl eq_refl ltac:(by split)
    ltac:(vm_compute; reflexivity) eq_refl ltac:(done) ltac:(by split) ltac:(vm_compute; reflexivity))
    as (out & Hd & Ho).
  etransitivity; [exact Hd|]. exact (f_equal Some Ho).
Defined.

(** A kernel that answers every request with 5, and a call to it. *)
Definition sys_call : AvixToolCall := {| call_id := "c"; name := "kernel/proc/count"; args := JNull |}.
Definition sys_request : JsonRpcRequest :=
  {| rq_jsonrpc := "2.0"; rq_id := "u"; method := "kernel/proc/count";
     params := JObj [("_caller", caller_object 7 "s")]%string |}.
Definition sys_server (n : nat) (m : IpcMessage) : option JsonRpcResponse * nat := (Some (rpc_ok "u" (JInt 5)), S n).
Definition sys_connect (p : string) : result string pipe_end :=
  if String.eqb p "/run/avix/kernel.sock" then Ok (client_end sys_server (frame_of sys_request))
  else Err "no such file"%string.

Lemma syscall_outcome_witness :
  exists out, dispatch_kernel_syscall (fun _ => None) sys_connect sys_call 7 "s" "/run/avix" "u" = Some out /\
    exists v, out = Ok v /\ jeq v (JInt 5).
Proof.
  pose proof (syscall_outcome sys_server 0%nat (client_end sys_server (frame_of sys_request))
    (server_end (frame_of sys_request)) ltac:(intros; by eexists) eq_refl eq_refl (fun _ => None)
    sys_connect sys_call 7 "s"%string "/run/avix"%string "u"%string) as (_ & _ & H).
  exact (H (frame_of sys_request) (rpc_ok "u" (JInt 5)) eq_refl ltac:(by split)
    ltac:(vm_compute; reflexivity) eq_refl ltac:(done) ltac:(by split) ltac:(vm_compute; reflexivity)).
Defined.

(** Arguments that are an array panic. *)
Example syscall_panics :
  dispatch_kernel_syscall (fun _ => None) sys_connect
    {| call_id := "c"; name := "kernel/proc/count"; args := JArr [] |} 7 "s" "/run/avix" "u" = None.
Proof. reflexivity. Qed.
