(* ===== verification/Services.v ===== *)
(** * Services: tokens, registration, tools and the watchdog

    Models [service/] ([token.rs], [yaml.rs], [lifecycle.rs], [process.rs], [watchdog.rs],
    [ipc_server.rs]), the entries the scanner makes of tool descriptors
    ([tool_registry/scanner.rs], [descriptor.rs]) and the start of the installed services
    in [bootstrap/mod.rs].  The service manager hands a token to each service it starts; the
    service presents it on the service socket to register its endpoint and to add or remove tools;
    the watchdog restarts the processes that exited.  Outside the model: child processes (an
    opaque handle, whether it still runs, and the outcome of spawning are arguments), fresh
    uuids, the clock, the files the scanner and [discover_installed] read, and serde's derived
    deserialisers.  [tool_events] is the history of the registry's change events.  [None] is a
    request that waits (a draining removal) or a panic on overflow, as stated at each definition. *)

From S2P Require Import Prelude Types Json Channels ToolRegistry Router Gateway Ipc.
Local Open Scope Z_scope.

(** ** [token.rs] and [yaml.rs] *)

Record ServiceToken : Type := { token_str : string; service_name : string; st_pid : Z }.

Inductive ServiceSource : Type := System | Community | UserSource.
Inductive RestartPolicy : Type := OnFailure | Always | Never.
#[global] Instance RestartPolicy_eq_dec : EqDecision RestartPolicy.
Proof. solve_decision. Defined.
Inductive RunAs : Type := RunService | RunUser.

Inductive HostAccess : Type := Network | Filesystem (p : string) | Socket (p : string) | EnvVar (v : string).
Definition host_access_to_str (h : HostAccess) : string :=
  match h with
  | Network => "network"
  | Filesystem p => "filesystem:" +:+ p
  | Socket p => "socket:" +:+ p
  | EnvVar v => "env:" +:+ v
  end%string.
Definition host_access_of_str (s : string) : result string HostAccess :=
  if String.eqb s "network" then Ok Network
  else match strip_prefix "filesystem:" s with Some p => Ok (Filesystem p) | None =>
       match strip_prefix "socket:" s with Some p => Ok (Socket p) | None =>
       match strip_prefix "env:" s with Some v => Ok (EnvVar v) | None =>
         Err ("unknown host_access value: " +:+ s)%string end end end.

Record UnitSection : Type := { description : string; author : string; requires : list string; after : list string }.
Record ServiceSection : Type := {
  binary : string; language : string; restart : RestartPolicy; restart_delay : string;
  max_concurrent : Z; queue_max : Z; queue_timeout : string; run_as : RunAs
}.
Record CapabilitiesSection : Type := {
  required : list string; cap_scope : option string; host_access : list HostAccess; caller_scoped : bool
}.
Record ToolsSection : Type := { namespace : string; provides : list string }.
Record JobsSection : Type := { max_active : Z; job_timeout : string; persist : bool }.
Record ServiceUnit : Type := {
  u_name : string; version : string; source : ServiceSource; signature : option string;
  unit_section : UnitSection; service : ServiceSection; capabilities : CapabilitiesSection;
  tools : ToolsSection; jobs : JobsSection
}.

(** The parts of the manifest file that [from_manifest] reads. *)
Record ServiceManifest : Type := {
  m_name : string; m_version : string; m_description : string; m_author : string;
  m_signature : option string; m_requires : list string; m_after : list string;
  m_service : ServiceSection; m_capabilities : CapabilitiesSection; m_tools : ToolsSection; m_jobs : JobsSection
}.
Definition from_manifest (m : ServiceManifest) : ServiceUnit := {|
  u_name := m_name m; version := m_version m; source := System; signature := m_signature m;
  unit_section := {| description := m_description m; author := m_author m; requires := m_requires m;
                     after := m_after m |};
  service := m_service m; capabilities := m_capabilities m; tools := m_tools m; jobs := m_jobs m
|}.

Definition strip_suffix_char (c : ascii) (s : string) : option string :=
  match rsplit_once c s with Some (a, EmptyString) => Some a | _ => None end.

(** Seconds.  [None]: [mins * 60] overflows [u64], a panic when overflow is checked. *)
Definition parse_duration (s : string) : option (result AvixError Z) :=
  let bad := Err (ConfigParse ("invalid duration: " +:+ s)%string) in
  match strip_suffix_char "s" s with
  | Some n => Some (ok_or (ConfigParse ("invalid duration: " +:+ s)%string) (parse_u64 n))
  | None =>
      match strip_suffix_char "m" s with
      | Some n =>
          match parse_u64 n with
          | None => Some bad
          | Some mins => if decide (is_u64 (mins * 60)) then Some (Ok (mins * 60)) else None
          end
      | None => Some (Err (ConfigParse ("unsupported duration format: " +:+ s)%string))
      end
  end.

(** ** Tool descriptors *)

Inductive ToolVisibilitySpec : Type := SpecAll | SpecUser (u : string) | SpecCrew (c : string).
Definition visibility_from_spec (v : ToolVisibilitySpec) : Tool.ToolVisibility :=
  match v with SpecAll => Tool.All | SpecUser u => Tool.User u | SpecCrew c => Tool.Crew c end.

(** The fields of a descriptor that its registry entry depends on; [td_value] is the whole of it. *)
Record ToolDescriptor : Type := {
  td_name : string; td_owner : option string; td_permissions : option ToolPermissions; td_state : string;
  td_capabilities : list string; td_visibility : ToolVisibilitySpec; td_value : json
}.
Definition with_permissions (e : ToolEntry) (p : ToolPermissions) : ToolEntry := {|
  te_name := te_name e; te_owner := te_owner e; te_state := te_state e; te_visibility := te_visibility e;
  te_descriptor := te_descriptor e; capabilities_required := capabilities_required e; te_permissions := p |}.
Definition descriptor_permissions (d : ToolDescriptor) : ToolPermissions :=
  match td_permissions d with
  | Some p => p
  | None =>
      match td_owner d with
      | Some o => {| p_owner := o; p_crew := p_crew permissions_default; p_all := p_all permissions_default |}
      | None => permissions_default
      end
  end.
Definition descriptor_state (s : string) : Tool.ToolState :=
  if String.eqb s "available" then Tool.Available
  else if String.eqb s "degraded" then Tool.Degraded else Tool.Unavailable.
Definition descriptor_entry (svc : string) (d : ToolDescriptor) : option ToolEntry :=
  match ToolName.parse (td_name d) with
  | Err _ => None
  | Ok name =>
      Some (with_permissions
        (with_capabilities
           (entry_new name svc (descriptor_state (td_state d)) (visibility_from_spec (td_visibility d)) (td_value d))
           (td_capabilities d))
        (descriptor_permissions d))
  end.
(** [files] is what [scan] reads from the service's directory. *)
Definition scan_as_entries (svc : string) (files : result AvixError (list ToolDescriptor))
    : result AvixError (list ToolEntry) :=
  match files with Ok l => Ok (omap (descriptor_entry svc) l) | Err e => Err e end.

(** ** [lifecycle.rs] *)

Record ServiceEvent : Type := { se_service : string; se_status : string }.
Record ServiceSpawnRequest : Type := {
  rq_name : string; rq_binary : string; rq_caller_scoped : bool; rq_max_concurrent : Z
}.
Definition from_unit (u : ServiceUnit) : ServiceSpawnRequest := {|
  rq_name := u_name u; rq_binary := binary (service u); rq_caller_scoped := caller_scoped (capabilities u);
  rq_max_concurrent := max_concurrent (service u) |}.

Record IpcRegisterRequest : Type := {
  reg_token : string; reg_name : string; reg_endpoint : string; reg_tools : list string
}.
Record IpcToolSpec : Type := { ts_name : string; ts_descriptor : json; ts_visibility : ToolVisibilitySpec }.
Record IpcToolAddParams : Type := { ta_token : string; ta_tools : list IpcToolSpec }.
Record IpcToolRemoveParams : Type := { tr_token : string; tr_tools : list string; tr_reason : string; tr_drain : bool }.

Record ServiceRecord : Type := {
  sr_token : ServiceToken; endpoint : option string; registered_at : option Z; sr_caller_scoped : bool
}.
Record ServiceSummary : Type := {
  ss_name : string; ss_pid : Z; ss_status : string; ss_registered_at : option Z
}.

Section Manager.
Context {B R : Type} `{!Broadcast ServiceEvent B R}.

Record ServiceManager : Type := {
  services : gmap string ServiceRecord;
  token_to_svc : gmap string string;
  pid_counter : Z;
  tool_registry : option ToolRegistry;
  runtime_dir : string;
  events : B;
  tool_events : list ToolChangedEvent
}.
Implicit Types m : ServiceManager.

Definition with_services m s t n : ServiceManager := {|
  services := s; token_to_svc := t; pid_counter := n; tool_registry := tool_registry m;
  runtime_dir := runtime_dir m; events := events m; tool_events := tool_events m |}.
Definition with_registry m r (ev : option ToolChangedEvent) : ServiceManager := {|
  services := services m; token_to_svc := token_to_svc m; pid_counter := pid_counter m; tool_registry := Some r;
  runtime_dir := runtime_dir m; events := events m;
  tool_events := tool_events m ++ match ev with Some e => [e] | None => [] end |}.
Definition send_event m (name status : string) : ServiceManager := {|
  services := services m; token_to_svc := token_to_svc m; pid_counter := pid_counter m;
  tool_registry := tool_registry m; runtime_dir := runtime_dir m;
  events := bc_send (events m) {| se_service := name; se_status := status |}; tool_events := tool_events m |}.

Definition manager_new (dir : string) (r : option ToolRegistry) : ServiceManager := {|
  services := ∅; token_to_svc := ∅; pid_counter := 10; tool_registry := r; runtime_dir := dir;
  events := bc_channel 64%nat; tool_events := [] |}.

(** [uuid] is the text of the new uuid; the counter is a wrapping [AtomicU32]. *)
Definition spawn_and_get_token (uuid : string) m (req : ServiceSpawnRequest) : ServiceToken * ServiceManager :=
  let token := {| token_str := ("svc-token-" +:+ uuid)%string; service_name := rq_name req; st_pid := pid_counter m |} in
  let record := {| sr_token := token; endpoint := None; registered_at := None;
                   sr_caller_scoped := rq_caller_scoped req |} in
  (token, send_event (with_services m (<[rq_name req := record]> (services m))
                        (<[token_str token := rq_name req]> (token_to_svc m))
                        (u32_wrapping_add (pid_counter m) 1)) (rq_name req) "starting").

Definition is_caller_scoped m (name : string) : bool :=
  match services m !! name with Some r => sr_caller_scoped r | None => false end.

Definition validate_token m (token : string) : result AvixError string :=
  ok_or (CapabilityDenied "invalid service token") (token_to_svc m !! token).

Definition set_endpoint (now : Z) (ep : string) (r : ServiceRecord) : ServiceRecord := {|
  sr_token := sr_token r; endpoint := Some ep; registered_at := Some now; sr_caller_scoped := sr_caller_scoped r |}.

Definition add_tools m (entries : list ToolEntry) : ServiceManager :=
  match tool_registry m with
  | Some r => let '(r', ev) := ToolRegistry.add r entries in with_registry m r' (Some ev)
  | None => m
  end.

(** The endpoint is recorded before the descriptors are scanned: a scan that fails leaves it. *)
Definition handle_ipc_register (now : Z) (scan : string -> result AvixError (list ToolDescriptor)) m
    (req : IpcRegisterRequest) : result AvixError Z * ServiceManager :=
  match validate_token m (reg_token req) with
  | Err e => (Err e, m)
  | Ok svc =>
      if negb (String.eqb svc (reg_name req)) then (Err (CapabilityDenied "token/name mismatch"), m)
      else match services m !! svc with
      | None => (Err (ConfigParse "service not found"), m)
      | Some rec =>
          let m := with_services m (<[svc := set_endpoint now (reg_endpoint req) rec]> (services m))
                     (token_to_svc m) (pid_counter m) in
          match scan_as_entries svc (scan svc) with
          | Err e => (Err e, m)
          | Ok entries => (Ok (st_pid (sr_token rec)), send_event (add_tools m entries) svc "running")
          end
      end
  end.

Definition service_env m (name : string) : result AvixError (gmap string string) :=
  r ← ok_or (ConfigParse ("service not found: " +:+ name)%string) (services m !! name);
  Ok (list_to_map [
    ("AVIX_KERNEL_SOCK", runtime_dir m +:+ "/kernel.sock");
    ("AVIX_ROUTER_SOCK", runtime_dir m +:+ "/router.sock");
    ("AVIX_SVC_SOCK", runtime_dir m +:+ "/services/" +:+ name +:+ "-" +:+ pretty (st_pid (sr_token r)) +:+ ".sock");
    ("AVIX_SVC_TOKEN", token_str (sr_token r))]%string).

(** The old token is not withdrawn. *)
Definition respawn_token (uuid : string) m (name : string) : ServiceToken * ServiceManager :=
  spawn_and_get_token uuid (send_event m name "restarting")
    {| rq_name := name; rq_binary := EmptyString; rq_caller_scoped := is_caller_scoped m name;
       rq_max_concurrent := 20 |}.

Definition spec_capabilities (d : json) : list string :=
  match jget d "capabilities_required" with Some (JArr l) => omap as_str l | _ => [] end.
Definition spec_entry (svc : string) (s : IpcToolSpec) : option ToolEntry :=
  match ToolName.parse (ts_name s) with
  | Err _ => None
  | Ok name => Some (with_capabilities
      (entry_new name svc Tool.Available (visibility_from_spec (ts_visibility s)) (ts_descriptor s))
      (spec_capabilities (ts_descriptor s)))
  end.
Definition handle_tool_add m (p : IpcToolAddParams) : result AvixError unit * ServiceManager :=
  match validate_token m (ta_token p) with
  | Err e => (Err e, m)
  | Ok svc => (Ok (), add_tools m (omap (spec_entry svc) (ta_tools p)))
  end.

(** [None]: the removal waits for calls in flight.  The owner passed to the registry is not used by it. *)
Definition handle_tool_remove m (p : IpcToolRemoveParams) : option (result AvixError unit * ServiceManager) :=
  match validate_token m (tr_token p) with
  | Err e => Some (Err e, m)
  | Ok svc =>
      match tool_registry m with
      | None => Some (Ok (), m)
      | Some r => '(r', ev) ← ToolRegistry.remove r (tr_tools p) (tr_reason p) (tr_drain p);
                  Some (Ok (), with_registry m r' ev)
      end
  end.

(** The order of [HashMap::iter] is unspecified; the model lists by key. *)
Definition summary (e : string * ServiceRecord) : ServiceSummary := {|
  ss_name := e.1; ss_pid := st_pid (sr_token e.2);
  ss_status := match endpoint e.2 with Some _ => "running" | None => "starting" end;
  ss_registered_at := registered_at e.2 |}.
Definition list_running m : list ServiceSummary := summary <$> map_to_list (services m).

(** ** [process.rs] and [watchdog.rs] *)

Context {Child : Type}.

Record ServiceProcess : Type := { pr_name : string; pr_pid : Z; child : Child; socket_path : string }.
Definition socket_path_for (run_dir name : string) (pid : Z) : string :=
  path_join run_dir (name +:+ "-" +:+ pretty pid +:+ ".sock").
Definition build_env (token : ServiceToken) (kernel_sock router_sock svc_sock : string) : list (string * string) :=
  [("AVIX_KERNEL_SOCK", kernel_sock); ("AVIX_ROUTER_SOCK", router_sock); ("AVIX_SVC_SOCK", svc_sock);
   ("AVIX_SVC_TOKEN", token_str token)]%string.

(** Where the runtime's sockets are, and what the operating system does with a command and its environment. *)
Record Os : Type := {
  kernel_sock : string; router_sock : string; run_dir : string;
  exec : string -> list (string * string) -> result string Child
}.
Definition process_spawn (os : Os) (u : ServiceUnit) (token : ServiceToken) : result AvixError ServiceProcess :=
  let path := socket_path_for (run_dir os) (u_name u) (st_pid token) in
  c ← map_err (fun e => ConfigParse ("failed to spawn " +:+ binary (service u) +:+ ": " +:+ e)%string)
        (exec os (binary (service u)) (build_env token (kernel_sock os) (router_sock os) path));
  Ok {| pr_name := u_name u; pr_pid := st_pid token; child := c; socket_path := path |}.

Record WatchdogEntry : Type := { unit_ : ServiceUnit; process : ServiceProcess; restart_count : Z }.
Definition watchdog_register (es : gmap string WatchdogEntry) (u : ServiceUnit) (p : ServiceProcess)
    : gmap string WatchdogEntry := <[u_name u := {| unit_ := u; process := p; restart_count := 0 |}]> es.
Definition watchdog_restart_count (es : gmap string WatchdogEntry) (name : string) : Z :=
  match es !! name with Some e => restart_count e | None => 0 end.

Definition should_restart (p : RestartPolicy) : bool :=
  match p with Always => true | OnFailure => true | Never => false end.

(** One service of a pass: [running] tells whether a child still runs, [uuid] is fresh.  [None]: the delay overflows. *)
Definition check_one (os : Os) (running : Child -> bool) (uuid : string)
    (st : gmap string WatchdogEntry * ServiceManager) (name : string) : option (gmap string WatchdogEntry * ServiceManager) :=
  let '(es, m) := st in
  match es !! name with
  | None => Some st
  | Some e =>
      if running (child (process e)) then Some st
      else if negb (should_restart (restart (service (unit_ e)))) then Some st
      else
        _ ← parse_duration (restart_delay (service (unit_ e)));
        let '(token, m) := respawn_token uuid m (u_name (unit_ e)) in
        Some (match process_spawn os (unit_ e) token with
              | Ok p => (<[name := {| unit_ := unit_ e; process := p;
                                      restart_count := u32_wrapping_add (restart_count e) 1 |}]> es, m)
              | Err _ => (es, m)
              end)
  end.
(** A pass over the names taken at its start; [order] is their order, each with the uuid it draws. *)
Definition check_and_restart (os : Os) (running : Child -> bool) (order : list (string * string))
    (st : gmap string WatchdogEntry * ServiceManager) : option (gmap string WatchdogEntry * ServiceManager) :=
  foldl (fun o x => st ← o; check_one os running x.2 st x.1) (Some st) order.

(** Phase 3 of the boot, for the units [discover_installed] found. *)
Definition start_one (os : Os) (st : gmap string WatchdogEntry * ServiceManager) (x : ServiceUnit * string)
    : gmap string WatchdogEntry * ServiceManager :=
  let '(token, m) := spawn_and_get_token x.2 st.2 (from_unit x.1) in
  (match process_spawn os x.1 token with Ok p => watchdog_register st.1 x.1 p | Err _ => st.1 end, m).
Definition start_installed (os : Os) (units : list (ServiceUnit * string)) m : gmap string WatchdogEntry * ServiceManager :=
  foldl (start_one os) (∅, m) units.

(** ** [ipc_server.rs] *)

(** serde's derived deserialisers and the files of the services. *)
Record ServiceHost : Type := {
  tool_add_of_value : json -> result string IpcToolAddParams;
  tool_remove_of_value : json -> result string IpcToolRemoveParams;
  descriptors : string -> result AvixError (list ToolDescriptor)
}.
Definition strings_of (v : json) : list string := match v with JArr l => omap as_str l | _ => [] end.

Definition on_result {A} (id : string) (r : result AvixError A) (ok : A -> json) : JsonRpcResponse :=
  match r with Ok a => rpc_ok id (ok a) | Err e => rpc_err id (-32001) (avix_error_to_string e) None end.

Definition ipc_register (h : ServiceHost) (now : Z) (id : string) (params : json) m : JsonRpcResponse * ServiceManager :=
  match as_str (jindex params "_token") with
  | None => (rpc_err id (-32602) "missing _token" None, m)
  | Some token =>
      match as_str (jindex params "name") with
      | None => (rpc_err id (-32602) "missing name" None, m)
      | Some name =>
          let '(r, m) := handle_ipc_register now (descriptors h) m
            {| reg_token := token; reg_name := name;
               reg_endpoint := default EmptyString (as_str (jindex params "endpoint"));
               reg_tools := strings_of (jindex params "tools") |} in
          (on_result id r (fun pid => JObj [("registered", JBool true); ("pid", JInt pid)]%string), m)
      end
  end.
Definition ipc_tool_add (h : ServiceHost) (id : string) (params : json) m : JsonRpcResponse * ServiceManager :=
  match tool_add_of_value h params with
  | Err e => (rpc_err id (-32602) ("invalid params: " +:+ e)%string None, m)
  | Ok p => let '(r, m) := handle_tool_add m p in
            (on_result id r (fun _ => JObj [("added", JBool true)]%string), m)
  end.
Definition ipc_tool_remove (h : ServiceHost) (id : string) (params : json) m : option (JsonRpcResponse * ServiceManager) :=
  match tool_remove_of_value h params with
  | Err e => Some (rpc_err id (-32602) ("invalid params: " +:+ e)%string None, m)
  | Ok p => '(r, m) ← handle_tool_remove m p;
            Some (on_result id r (fun _ => JObj [("removed", JBool true)]%string), m)
  end.
Definition dispatch_request (h : ServiceHost) (now : Z) (id method : string) (params : json) m
    : option (JsonRpcResponse * ServiceManager) :=
  if String.eqb method "ipc.register" then Some (ipc_register h now id params m)
  else if String.eqb method "ipc.tool-add" then Some (ipc_tool_add h id params m)
  else if String.eqb method "ipc.tool-remove" then ipc_tool_remove h id params m
  else Some (rpc_err id (-32601) ("unknown service IPC method: " +:+ method)%string None, m).
Definition handle_message (h : ServiceHost) (now : Z) (msg : IpcMessage) m : option (option JsonRpcResponse * ServiceManager) :=
  match msg with
  | Request r => '(x, m) ← dispatch_request h now (rq_id r) (method r) (params r) m; Some (Some x, m)
  | Notification _ => Some (None, m)
  end.

(** ** Invariant *)

(** Every service's token names it and is known, known tokens belong to services, pids are below the counter and
    distinct, a service has an endpoint exactly when it has registered, and every tool is owned by a service. *)
Record inv m : Prop := {
  iv_token n r : services m !! n = Some r ->
    service_name (sr_token r) = n /\ token_to_svc m !! token_str (sr_token r) = Some n;
  iv_known t n : token_to_svc m !! t = Some n -> is_Some (services m !! n);
  iv_pid n r : services m !! n = Some r -> 10 <= st_pid (sr_token r) < pid_counter m;
  iv_distinct n1 n2 r1 r2 : services m !! n1 = Some r1 -> services m !! n2 = Some r2 ->
    st_pid (sr_token r1) = st_pid (sr_token r2) -> n1 = n2;
  iv_endpoint n r : services m !! n = Some r -> is_Some (endpoint r) <-> is_Some (registered_at r);
  iv_counter : 10 <= pid_counter m <= u32_max;
  iv_owner r t x : tool_registry m = Some r -> inner r !! t = Some x -> is_Some (services m !! te_owner (entry x))
}.

(** A uuid that no token carries yet, and a pid counter that does not wrap. *)
Definition fresh_token m (uuid : string) : Prop := token_to_svc m !! ("svc-token-" +:+ uuid)%string = None.

Lemma wrap_small n : 0 <= n < u32_max -> u32_wrapping_add n 1 = n + 1.
Proof. intros H. unfold u32_wrapping_add. apply Z.mod_small. machine. Qed.

Lemma spawn_fields uuid m req t m' : spawn_and_get_token uuid m req = (t, m') -> pid_counter m < u32_max -> 0 <= pid_counter m ->
  token_str t = ("svc-token-" +:+ uuid)%string /\ service_name t = rq_name req /\ st_pid t = pid_counter m /\
  services m' = <[rq_name req := {| sr_token := t; endpoint := None; registered_at := None;
                                    sr_caller_scoped := rq_caller_scoped req |}]> (services m) /\
  token_to_svc m' = <[token_str t := rq_name req]> (token_to_svc m) /\ pid_counter m' = pid_counter m + 1 /\
  tool_registry m' = tool_registry m.
Proof.
  unfold spawn_and_get_token. intros [= <- <-] H1 H0. cbn. rewrite wrap_small by lia. by split_and!.
Qed.

Lemma spawn_inv uuid m req : inv m -> fresh_token m uuid -> pid_counter m < u32_max ->
  inv (spawn_and_get_token uuid m req).2.
Proof.
  intros [T K P Di En Cn Ow] F W. destruct (spawn_and_get_token uuid m req) as [t m'] eqn:E.
  apply spawn_fields in E as (Et & Es & Ep & S & M & N & Rg); [|lia..]. cbn.
  constructor; rewrite ?S, ?M, ?N, ?Rg.
  - intros n r [[<- <-]|[Hn Hr]]%lookup_insert_Some; cbn; [by rewrite lookup_insert_eq|].
    destruct (T n r Hr) as [? Hk]. split; [done|]. rewrite lookup_insert_ne; [done|].
    intros Eq. rewrite <-Eq, Et in Hk. unfold fresh_token in F. congruence.
  - intros x n [[<- <-]|[Hn Hk]]%lookup_insert_Some; [by rewrite lookup_insert_eq|].
    rewrite lookup_insert_is_Some. destruct (decide (rq_name req = n)); [by left|]. right. eauto.
  - intros n r [[<- <-]|[Hn Hr]]%lookup_insert_Some; cbn; [lia|]. specialize (P n r Hr). lia.
  - intros n1 n2 r1 r2 [[<- <-]|[? H1]]%lookup_insert_Some [[<- <-]|[? H2]]%lookup_insert_Some; cbn; try done.
    + specialize (P _ _ H2). lia.
    + specialize (P _ _ H1). lia.
    + by apply Di.
  - intros n r [[<- <-]|[Hn Hr]]%lookup_insert_Some; cbn; [|eauto]. split; by intros [].
  - lia.
  - intros r x y Hr Hx. destruct (Ow r x y Hr Hx) as [z Hz]. rewrite lookup_insert_is_Some.
    destruct (decide (rq_name req = te_owner (entry y))); [by left|]. right. eauto.
Qed.

Lemma respawn_spawn uuid m name : respawn_token uuid m name =
  spawn_and_get_token uuid (send_event m name "restarting")
    {| rq_name := name; rq_binary := EmptyString; rq_caller_scoped := is_caller_scoped m name; rq_max_concurrent := 20 |}.
Proof. done. Qed.

(** *** Adding tools *)

Lemma add_lookup (es : list ToolEntry) : forall r t x, inner (foldl add_one r es) !! t = Some x ->
  inner r !! t = Some x \/ entry x ∈ es /\ te_name (entry x) = t.
Proof.
  induction es as [|e es IH]; intros r t x; cbn; [by left|]. intros [H|[H ?]]%IH; [|right; split; [by right|done]].
  unfold add_one in H. cbn in H.
  apply lookup_insert_Some in H as [[<- <-]|[_ H]]; [right; split; [by left|done] | by left].
Qed.

Definition owned_by (svc : string) (es : list ToolEntry) : Prop := forall e, e ∈ es -> te_owner e = svc.

Lemma descriptors_owned svc files es : scan_as_entries svc files = Ok es -> owned_by svc es.
Proof.
  unfold scan_as_entries. destruct files as [l|]; [|done]. intros [= <-] e (d & _ & Hd)%list_elem_of_omap.
  unfold descriptor_entry in Hd. destruct (ToolName.parse _); [|done]. by injection Hd as <-.
Qed.
Lemma specs_owned svc (l : list IpcToolSpec) : owned_by svc (omap (spec_entry svc) l).
Proof.
  intros e (d & _ & Hd)%list_elem_of_omap. unfold spec_entry in Hd. destruct (ToolName.parse _); [|done].
  by injection Hd as <-.
Qed.

(** What one authorised change of the tools may do: a tool of the new registry was there before or is owned by [svc]. *)
Definition tools_by (svc : string) m m' : Prop :=
  match tool_registry m, tool_registry m' with
  | Some r, Some r' => forall t x, inner r' !! t = Some x -> inner r !! t = Some x \/ te_owner (entry x) = svc
  | None, None => True
  | _, _ => False
  end.
Lemma add_tools_by svc m es : owned_by svc es -> tools_by svc m (add_tools m es).
Proof.
  intros O. unfold tools_by, add_tools. destruct (tool_registry m) as [r|] eqn:E; [|by rewrite E]. cbn.
  intros t x [H|[H _]]%add_lookup; [by left | right; by apply O].
Qed.
Lemma add_tools_same m es : services (add_tools m es) = services m /\
  token_to_svc (add_tools m es) = token_to_svc m /\ pid_counter (add_tools m es) = pid_counter m.
Proof. unfold add_tools. by destruct (tool_registry m). Qed.

(** A removal leaves the other tools as they were. *)
Lemma remove_inner r names reason drain r' ev : ToolRegistry.remove r names reason drain = Some (r', ev) ->
  forall n, inner r' !! n = if decide (n ∈ names) then None else inner r !! n.
Proof.
  unfold ToolRegistry.remove. intros E n.
  assert (exists mr : gmap string ToolRecord, (r', ev) = finish_remove (set_inner r mr) names reason /\
    (n ∉ names -> mr !! n = inner r !! n)) as (mr & Ef & Hm).
  { destruct drain.
    - case_match; [|done]. injection E as Ef. eexists. split; [exact (eq_sym Ef)|]. intros Hn. rewrite mark_lookup. by rewrite decide_False.
    - injection E as Ef. exists (inner r). split; [|done]. rewrite <-Ef. by destruct r. }
  unfold finish_remove in Ef. cbn in Ef. destruct (remove_names_spec mr names) as [Hl _].
  destruct (remove_names mr names) as [m' removed]. injection Ef as -> _. cbn in *. rewrite Hl. case_decide; auto.
Qed.

(** ** Requests *)

(** What a request in the name of [svc] may change. *)
Record by_service (svc : string) m m' : Prop := {
  bs_others n : n <> svc -> services m' !! n = services m !! n;
  bs_own : services m' !! svc = services m !! svc \/
    exists r now ep, services m !! svc = Some r /\ services m' !! svc = Some (set_endpoint now ep r);
  bs_tokens : token_to_svc m' = token_to_svc m;
  bs_counter : pid_counter m' = pid_counter m;
  bs_tools : tools_by svc m m'
}.

Lemma tools_by_refl svc m : tools_by svc m m.
Proof. unfold tools_by. destruct (tool_registry m); [|done]. by left. Qed.
Lemma by_service_refl svc m : by_service svc m m.
Proof. constructor; try done; [by left | apply tools_by_refl]. Qed.

Lemma register_by now scan m req r m' : handle_ipc_register now scan m req = (r, m') ->
  m' = m \/ exists svc, token_to_svc m !! reg_token req = Some svc /\ svc = reg_name req /\ by_service svc m m'.
Proof.
  unfold handle_ipc_register, validate_token. destruct (token_to_svc m !! reg_token req) as [svc|] eqn:Et; cbn; [|by intros [= _ <-]; left].
  destruct (String.eqb_spec svc (reg_name req)) as [Hn|]; cbn; [|by intros [= _ <-]; left].
  destruct (services m !! svc) as [rec|] eqn:Es; [|by intros [= _ <-]; left]. intros E. right. exists svc.
  split; [done|]. split; [done|].
  assert (forall es, owned_by svc es -> by_service svc m (send_event (add_tools (with_services m
    (<[svc := set_endpoint now (reg_endpoint req) rec]> (services m)) (token_to_svc m) (pid_counter m)) es) svc "running")) as Hok.
  { intros es O. constructor; cbn; unfold add_tools; cbn; (destruct (tool_registry m) as [reg|] eqn:Er); cbn; try done;
      try (intros n Hn'; by rewrite lookup_insert_ne by done);
      try (right; exists rec, now, (reg_endpoint req); by rewrite lookup_insert_eq).
    - unfold tools_by. cbn. rewrite Er. intros t x [H|[H _]]%add_lookup; [by left | right; by apply O].
    - unfold tools_by. cbn. by rewrite Er. }
  destruct (scan_as_entries svc (scan svc)) as [es|] eqn:Ec; injection E as _ <-; [by eapply Hok, descriptors_owned|].
  constructor; cbn; try done.
  - intros n Hn'. by rewrite lookup_insert_ne.
  - right. exists rec, now, (reg_endpoint req). by rewrite lookup_insert_eq.
  - apply (tools_by_refl svc m).
Qed.

Lemma tool_add_by m p r m' : handle_tool_add m p = (r, m') ->
  m' = m \/ exists svc, token_to_svc m !! ta_token p = Some svc /\ by_service svc m m'.
Proof.
  unfold handle_tool_add, validate_token. destruct (token_to_svc m !! ta_token p) as [svc|]; cbn; [|by intros [= _ <-]; left].
  intros [= _ <-]. right. exists svc. split; [done|]. destruct (add_tools_same m (omap (spec_entry svc) (ta_tools p))) as (A & B0 & C).
  constructor; [by rewrite A | left; by rewrite A | done | done | apply add_tools_by, specs_owned].
Qed.

Lemma tool_remove_by m p r m' : handle_tool_remove m p = Some (r, m') ->
  m' = m \/ exists svc, token_to_svc m !! tr_token p = Some svc /\ by_service svc m m'.
Proof.
  unfold handle_tool_remove, validate_token. destruct (token_to_svc m !! tr_token p) as [svc|]; cbn; [|by intros [= _ <-]; left].
  destruct (tool_registry m) as [reg|] eqn:Er; [|by intros [= _ <-]; left].
  destruct (ToolRegistry.remove _ _ _ _) as [[reg' ev]|] eqn:E; cbn; [|done]. intros [= _ <-]. right. exists svc. split; [done|].
  constructor; cbn; try done; [by left|]. unfold tools_by. rewrite Er. cbn. intros t x Hx. left.
  rewrite (remove_inner _ _ _ _ _ _ E) in Hx. by case_decide.
Qed.

Lemma by_service_inv svc m m' : inv m -> is_Some (services m !! svc) -> by_service svc m m' -> inv m'.
Proof.
  intros [T K P Di En Cn Ow] Hs [Oth Own Tk Ct Tl].
  assert (forall n r', services m' !! n = Some r' -> exists r, services m !! n = Some r /\ sr_token r' = sr_token r /\
    (is_Some (endpoint r') <-> is_Some (registered_at r'))) as Back.
  { intros n r' Hr. destruct (decide (n = svc)) as [->|Hn]; [|rewrite Oth in Hr by done; exists r'; eauto].
    destruct Own as [E|(r & now & ep & H1 & H2)]; [rewrite E in Hr; exists r'; eauto|].
    rewrite H2 in Hr. injection Hr as <-. exists r. cbn. by split_and!. }
  assert (forall n, is_Some (services m !! n) -> is_Some (services m' !! n)) as Fwd.
  { intros n Hn. destruct (decide (n = svc)) as [->|Hne]; [|by rewrite Oth].
    destruct Own as [->|(r & now & ep & _ & ->)]; [done | by eexists]. }
  constructor; rewrite ?Tk, ?Ct; try done.
  - intros n r' (r & Hr & -> & _)%Back. eauto.
  - eauto.
  - intros n r' (r & Hr & -> & _)%Back. eauto.
  - intros n1 n2 r1 r2 (x & Hx & -> & _)%Back (y & Hy & -> & _)%Back. eauto.
  - intros n r' (r & _ & _ & H)%Back. done.
  - intros r' t x Hr Hx. unfold tools_by in Tl. rewrite Hr in Tl. destruct (tool_registry m) as [r|] eqn:Er; [|done].
    destruct (Tl t x Hx) as [H| ->]; [|by apply Fwd]. apply Fwd. by eapply Ow.
Qed.

(** The token a request presents. *)
Definition presented (h : ServiceHost) (method : string) (params : json) : option string :=
  if String.eqb method "ipc.register" then as_str (jindex params "_token")
  else if String.eqb method "ipc.tool-add" then
    match tool_add_of_value h params with Ok p => Some (ta_token p) | Err _ => None end
  else if String.eqb method "ipc.tool-remove" then
    match tool_remove_of_value h params with Ok p => Some (tr_token p) | Err _ => None end
  else None.

Lemma dispatch_by h now id meth params m x m' : dispatch_request h now id meth params m = Some (x, m') ->
  m' = m \/ exists tok svc, presented h meth params = Some tok /\ token_to_svc m !! tok = Some svc /\ by_service svc m m'.
Proof.
  unfold dispatch_request, presented, ipc_register, ipc_tool_add, ipc_tool_remove. intros E. destruct (String.eqb meth _).
  { destruct (as_str (jindex params "_token")) as [tok|]; [|injection E as _ <-; by left].
    destruct (as_str (jindex params "name")) as [nm|]; [|injection E as _ <-; by left].
    destruct (handle_ipc_register _ _ _ _) as [r m1] eqn:Er. injection E as _ <-. apply register_by in Er as [->|(svc & Ht & _ & Hb)]; [by left|].
    right. by exists tok, svc. }
  destruct (String.eqb meth _).
  { destruct (tool_add_of_value h params) as [p|]; [|injection E as _ <-; by left].
    destruct (handle_tool_add m p) as [r m1] eqn:Er. injection E as _ <-. apply tool_add_by in Er as [->|(svc & Ht & Hb)]; [by left|].
    right. by exists (ta_token p), svc. }
  destruct (String.eqb meth _); [|injection E as _ <-; by left].
  destruct (tool_remove_of_value h params) as [p|]; [|injection E as _ <-; by left].
  destruct (handle_tool_remove m p) as [[r m1]|] eqn:Er; cbn in E; [|done]. injection E as _ <-.
  apply tool_remove_by in Er as [->|(svc & Ht & Hb)]; [by left|]. right. by exists (tr_token p), svc.
Qed.

(** ** The watchdog *)

Implicit Types es : gmap string WatchdogEntry.

Lemma restarted_unless_never p : should_restart p = negb (bool_decide (p = Never)).
Proof. by destruct p. Qed.

(** The services whose process is gone and whose policy asks for a restart. *)
Definition due (running : Child -> bool) (e : WatchdogEntry) : bool :=
  negb (running (child (process e))) && negb (bool_decide (restart (service (unit_ e)) = Never)).

(** What a pass that found [m] does about the service [name], whose entry was [e]. *)
Definition checked (os : Os) (running : Child -> bool) m m' (name : string) (e : WatchdogEntry) (o : option WatchdogEntry) : Prop :=
  if due running e then
    exists token, service_name token = name /\ token_to_svc m' !! token_str token = Some name /\
      pid_counter m <= st_pid token /\
      services m' !! name = Some {| sr_token := token; endpoint := None; registered_at := None;
                                    sr_caller_scoped := is_caller_scoped m name |} /\
      o = Some (match process_spawn os (unit_ e) token with
                | Ok p => {| unit_ := unit_ e; process := p; restart_count := u32_wrapping_add (restart_count e) 1 |}
                | Err _ => e
                end)
  else o = Some e /\ services m' !! name = services m !! name.

Lemma check_one_spec os running uuid es m name e :
  inv m -> fresh_token m uuid -> pid_counter m < u32_max -> es !! name = Some e -> u_name (unit_ e) = name ->
  parse_duration (restart_delay (service (unit_ e))) <> None ->
  exists es' m', check_one os running uuid (es, m) name = Some (es', m') /\ inv m' /\
    checked os running m m' name e (es' !! name) /\
    (forall n, n <> name -> es' !! n = es !! n /\ services m' !! n = services m !! n) /\
    pid_counter m <= pid_counter m' <= pid_counter m + 1 /\
    (forall t n, token_to_svc m !! t = Some n -> token_to_svc m' !! t = Some n) /\
    (forall t, token_to_svc m !! t = None -> t <> ("svc-token-" +:+ uuid)%string -> token_to_svc m' !! t = None).
Proof.
  intros I F W He Hn Hd. unfold check_one, checked, due. rewrite He. pose proof (iv_counter m I) as Cn.
  destruct (running _); cbn [negb andb].
  { exists es, m. rewrite He. split_and!; try done; lia. }
  rewrite <-restarted_unless_never. destruct (should_restart _); cbn [negb].
  2:{ exists es, m. rewrite He. split_and!; try done; lia. }
  destruct (parse_duration _) as [d|]; [|done]. cbn [mbind option_bind]. rewrite respawn_spawn, Hn.
  assert (inv (send_event m name "restarting")) as I0 by (by destruct I).
  pose proof (spawn_inv uuid _ {| rq_name := name; rq_binary := EmptyString; rq_caller_scoped := is_caller_scoped m name;
    rq_max_concurrent := 20 |} I0 F W) as I'.
  destruct (spawn_and_get_token _ _ _) as [token m'] eqn:E. apply spawn_fields in E as (Et & Es & Ep & Sv & Tk & Pc & _); [|cbn; lia..].
  assert (token_to_svc m !! token_str token = None) as Ft by (rewrite Et; exact F).
  cbn -[String.append] in *. exists (match process_spawn os (unit_ e) token with
    | Ok p => <[name := {| unit_ := unit_ e; process := p; restart_count := u32_wrapping_add (restart_count e) 1 |}]> es
    | Err _ => es end), m'.
  split; [by destruct (process_spawn _ _ _)|]. split; [done|]. split; [exists token; split_and!|split_and!].
  - done.
  - by rewrite Tk, lookup_insert_eq.
  - lia.
  - by rewrite Sv, lookup_insert_eq.
  - destruct (process_spawn _ _ _); [by rewrite lookup_insert_eq | done].
  - intros n Hne. rewrite Sv, lookup_insert_ne by done. split; [|done]. destruct (process_spawn _ _ _); [by rewrite lookup_insert_ne | done].
  - lia.
  - lia.
  - intros t n Ht. rewrite Tk, lookup_insert_ne; [done|]. intros <-. congruence.
  - intros t Ht Hne. rewrite Tk, lookup_insert_ne; [done|]. congruence.
Qed.

(** ** Theorems *)

(** What can happen to the services and the watchdog's entries, one event at a time. *)
Inductive step (h : ServiceHost) (os : Os) (running : Child -> bool) :
    gmap string WatchdogEntry * ServiceManager -> gmap string WatchdogEntry * ServiceManager -> Prop :=
| step_request now msg es m x m' : handle_message h now msg m = Some (x, m') -> step h os running (es, m) (es, m')
| step_start u uuid es m : fresh_token m uuid -> pid_counter m < u32_max ->
    step h os running (es, m) (start_one os (es, m) (u, uuid))
| step_watch uuid name es m st : fresh_token m uuid -> pid_counter m < u32_max ->
    check_one os running uuid (es, m) name = Some st -> step h os running (es, m) st.

(** The pid of a process the watchdog holds was issued by the manager. *)
Definition entries_ok es m : Prop := forall n e, es !! n = Some e -> u_name (unit_ e) = n /\ 10 <= pr_pid (process e) < pid_counter m.

Lemma process_spawn_pid os u t p : process_spawn os u t = Ok p -> pr_pid p = st_pid t.
Proof. unfold process_spawn. destruct (exec _ _ _); cbn; [|done]. by intros [= <-]. Qed.

Lemma request_books h now msg es m x m' : handle_message h now msg m = Some (x, m') -> inv m -> entries_ok es m ->
  inv m' /\ entries_ok es m'.
Proof.
  intros Eh I E. destruct msg; cbn in Eh; [|by injection Eh as <- <-].
  destruct (dispatch_request _ _ _ _ _ _) as [[y m2]|] eqn:Ed; cbn in Eh; [|done]. injection Eh as _ <-.
  apply dispatch_by in Ed as [->|(tok & svc & _ & Ht & Hb)]; [done|]. split.
  - eapply by_service_inv; [done| |done]. by eapply iv_known.
  - intros n e He. rewrite (bs_counter _ _ _ Hb). by apply E.
Qed.

(** Starting and restarting both give a fresh token and may put a process with its pid into the entries. *)
Lemma spawned_books uuid es m req t m' o : inv m -> entries_ok es m -> fresh_token m uuid -> pid_counter m < u32_max ->
  spawn_and_get_token uuid m req = (t, m') ->
  (forall e : WatchdogEntry, o = Some e -> u_name (unit_ e) = rq_name req /\ pr_pid (process e) = st_pid t) ->
  inv m' /\ entries_ok (match o with Some e => <[rq_name req := e]> es | None => es end) m'.
Proof.
  intros I E F W Hs Ho. pose proof (iv_counter m I) as Cn. pose proof (spawn_inv uuid m req I F W) as I'. rewrite Hs in I'.
  split; [done|]. apply spawn_fields in Hs as (_ & _ & Ep & _ & _ & Pc & _); [|lia..]. intros n e He. rewrite Pc.
  destruct o as [e0|]; [|destruct (E n e He); split; [done|lia]].
  apply lookup_insert_Some in He as [[<- <-]|[_ He]]; [|destruct (E n e He); split; [done|lia]]. destruct (Ho e0 eq_refl) as [-> ->]. split; [done|lia].
Qed.

Lemma start_books os u uuid es m : inv m -> entries_ok es m -> fresh_token m uuid -> pid_counter m < u32_max ->
  inv (start_one os (es, m) (u, uuid)).2 /\ entries_ok (start_one os (es, m) (u, uuid)).1 (start_one os (es, m) (u, uuid)).2.
Proof.
  intros I E F W. unfold start_one. cbn [fst snd]. destruct (spawn_and_get_token uuid m (from_unit u)) as [t m'] eqn:Hs. cbn [fst snd].
  pose proof (spawned_books uuid es m (from_unit u) t m') as Hb.
  destruct (process_spawn os u t) as [p|] eqn:Ep; [|by apply (Hb None)].
  apply (Hb (Some {| unit_ := u; process := p; restart_count := 0 |})); try done.
  intros e [= <-]. split; [done|]. by apply process_spawn_pid in Ep.
Qed.

Lemma watch_books os running uuid name es m st : inv m -> entries_ok es m -> fresh_token m uuid -> pid_counter m < u32_max ->
  check_one os running uuid (es, m) name = Some st -> inv st.2 /\ entries_ok st.1 st.2.
Proof.
  intros I E F W Ec. unfold check_one in Ec. destruct (es !! name) as [e|] eqn:Hen; [|by injection Ec as <-].
  destruct (running _); [by injection Ec as <-|]. destruct (should_restart _); [|by injection Ec as <-]. cbn [negb] in Ec.
  destruct (parse_duration _); [|done]. cbn [mbind option_bind] in Ec. rewrite respawn_spawn in Ec.
  destruct (E _ _ Hen) as [Hu Hpid].
  set (req := {| rq_name := u_name (unit_ e); rq_binary := EmptyString; rq_caller_scoped := is_caller_scoped m (u_name (unit_ e));
    rq_max_concurrent := 20 |}) in Ec.
  set (m0 := send_event m (u_name (unit_ e)) "restarting") in Ec.
  assert (inv m0) as I0 by (by destruct I). assert (entries_ok es m0) as E0 by done. assert (fresh_token m0 uuid) as F0 by done.
  destruct (spawn_and_get_token uuid m0 req) as [t m'] eqn:Hs.
  pose proof (spawned_books uuid es m0 req t m') as Hb. destruct (process_spawn _ _ _) as [p|] eqn:Ep; injection Ec as <-; cbn [fst snd];
    [|by apply (Hb None)].
  rewrite <-Hu at 1.
  apply (Hb (Some {| unit_ := unit_ e; process := p; restart_count := u32_wrapping_add (restart_count e) 1 |})); try done.
  intros e' [= <-]. split; [done|]. by apply process_spawn_pid in Ep.
Qed.

Lemma step_books h os running st st' : step h os running st st' -> inv st.2 /\ entries_ok st.1 st.2 ->
  inv st'.2 /\ entries_ok st'.1 st'.2.
Proof. destruct 1; intros [I E]; eauto using request_books, start_books, watch_books. Qed.

(** In every run of requests, starts and watchdog checks the books agree: each service's token names that
    service and is recognised, every recognised token belongs to a service, pids are never shared, a service
    has an endpoint exactly when it registered, every registered tool is owned by a known service, and
    the watchdog's processes carry pids the manager issued. *)
Theorem service_books h os running es m st :
  inv m -> entries_ok es m -> rtc (step h os running) (es, m) st -> inv st.2 /\ entries_ok st.1 st.2.
Proof.
  intros I E Hr. assert (inv (es, m).2 /\ entries_ok (es, m).1 (es, m).2) as H0 by done.
  induction Hr as [|st0 st1 st2 S _ IH]; [done|]. by apply IH, (step_books _ _ _ _ _ S).
Qed.


(** *** A whole pass *)

Lemma checked_mono os running m0 m m' m'' name e o : checked os running m m' name e o ->
  pid_counter m0 <= pid_counter m -> services m !! name = services m0 !! name -> services m'' !! name = services m' !! name ->
  (forall t n, token_to_svc m' !! t = Some n -> token_to_svc m'' !! t = Some n) -> checked os running m0 m'' name e o.
Proof.
  intros H Hc H0 H1 Ht. unfold checked in *. destruct (due running e).
  - destruct H as (tok & A & B0 & C & D & E). exists tok. rewrite H1, D. unfold is_caller_scoped. rewrite H0. split_and!; auto. lia.
  - destruct H as [-> D]. by rewrite H1, D, H0.
Qed.

Lemma token_uuid_inj a b : ("svc-token-" +:+ a)%string = ("svc-token-" +:+ b)%string -> a = b.
Proof. cbn. by intros [= ->]. Qed.

(** A pass of the watchdog ends, and afterwards every service it was given is as it should be: one whose process
    still runs or whose policy is never is untouched; any other has a fresh token, a pid not issued before the
    pass and must register again, and its process is the new one with one more restart counted, unless the
    spawn failed; what was not in the pass is untouched, and no token is withdrawn. *)
Theorem watchdog_pass os running order : forall es m,
  inv m -> NoDup order.*1 -> NoDup order.*2 -> Forall (fun x => fresh_token m x.2) order ->
  pid_counter m + Z.of_nat (length order) <= u32_max ->
  Forall (fun x => exists e, es !! x.1 = Some e /\ u_name (unit_ e) = x.1 /\
            parse_duration (restart_delay (service (unit_ e))) <> None) order ->
  exists es' m', check_and_restart os running order (es, m) = Some (es', m') /\ inv m' /\
    Forall (fun x => forall e, es !! x.1 = Some e -> checked os running m m' x.1 e (es' !! x.1)) order /\
    (forall n, n ∉ order.*1 -> es' !! n = es !! n /\ services m' !! n = services m !! n) /\
    (forall t n, token_to_svc m !! t = Some n -> token_to_svc m' !! t = Some n).
Proof.
  induction order as [|[name uuid] order IH]; intros es m I N1 N2 F W D; [by exists es, m|].
  cbn [fmap list_fmap fst snd] in N1, N2. apply NoDup_cons in N1 as [Hn N1]. apply NoDup_cons in N2 as [Hu N2].
  inversion F as [|? ? Fx F']; subst. inversion D as [|? ? (e & He & Hnm & Hd) D']; subst. cbn [fst snd length] in *.
  destruct (check_one_spec os running uuid es m name e I Fx ltac:(lia) He Hnm Hd)
    as (es1 & m1 & E1 & I1 & C1 & O1 & P1 & T1 & Fr1).
  destruct (IH es1 m1 I1 N1 N2) as (es2 & m2 & E2 & I2 & C2 & O2 & T2).
  - rewrite Forall_forall in F' |- *. intros x Hx. apply Fr1; [by apply F'|]. intros Eq%token_uuid_inj. subst uuid.
    apply Hu. by apply list_elem_of_fmap_2.
  - lia.
  - rewrite Forall_forall in D' |- *. intros x Hx. destruct (D' x Hx) as (e' & He' & ?). exists e'.
    destruct (O1 x.1) as [-> _]; [|done]. intros Eq. apply Hn. rewrite <-Eq. by apply list_elem_of_fmap_2.
  - exists es2, m2. unfold check_and_restart in *. cbn [foldl mbind option_bind fst snd]. rewrite E1. split; [done|]. split; [done|].
    split; [constructor|].
    + cbn. intros e' He'. rewrite He in He'. injection He' as <-. destruct (O2 name Hn) as [-> Hs].
      eapply checked_mono; [exact C1|lia|done|done|done].
    + rewrite Forall_forall in C2 |- *. intros x Hx e' He'.
      destruct (O1 x.1) as [Ee Es]; [intros Eq; apply Hn; rewrite <-Eq; by apply list_elem_of_fmap_2|].
      rewrite <-Ee in He'. eapply checked_mono; [by apply C2|lia|done|done|done].
    + split; [|eauto]. intros n Hnn. cbn [fmap list_fmap fst] in Hnn. apply not_elem_of_cons in Hnn as [Hne Hnn].
      destruct (O2 n Hnn) as [-> ->]. by apply O1.
Qed.

(** The token of before a restart is still accepted: whoever holds it can act for the service. *)
Lemma old_token_survives uuid m name r : inv m -> fresh_token m uuid -> services m !! name = Some r ->
  validate_token (respawn_token uuid m name).2 (token_str (sr_token r)) = Ok name.
Proof.
  intros I F Hr. destruct (iv_token m I name r Hr) as [_ Ht]. unfold validate_token. cbn -[String.append].
  rewrite lookup_insert_ne; [by rewrite Ht|]. intros Eq. unfold fresh_token in F. congruence.
Qed.

(** Any service may remove the tools of any other. *)
Lemma removes_foreign_tools m tok svc reg names reason :
  token_to_svc m !! tok = Some svc -> tool_registry m = Some reg ->
  exists m' reg', handle_tool_remove m {| tr_token := tok; tr_tools := names; tr_reason := reason; tr_drain := false |}
    = Some (Ok (), m') /\ tool_registry m' = Some reg' /\ forall n, n ∈ names -> inner reg' !! n = None.
Proof.
  intros Ht Hr. unfold handle_tool_remove, validate_token. cbn -[ToolRegistry.remove]. rewrite Ht. cbn -[ToolRegistry.remove]. rewrite Hr.
  destruct (ToolRegistry.remove reg names reason false) as [[reg' ev]|] eqn:E; [|by unfold ToolRegistry.remove in E].
  eexists _, reg'.
  split; [done|]. split; [done|]. intros n Hn. rewrite (remove_inner _ _ _ _ _ _ E). by rewrite decide_True.
Qed.

End Manager.

(** The text form of a host access is read back, whatever the path or the variable. *)
Lemma host_access_roundtrip a : host_access_of_str (host_access_to_str a) = Ok a.
Proof.
  destruct a as [|p|p|v]; cbn; try done; unfold strip_prefix, starts_with; cbn; by destruct p || destruct v.
Qed.

(** ** One service *)

Module Toy.
Import LogBroadcast.

Definition toy_unit : ServiceUnit := {|
  u_name := "git"; version := "1.0"; source := System; signature := None;
  unit_section := {| description := ""; author := ""; requires := []; after := [] |};
  service := {| binary := "/bin/git-svc"; language := "any"; restart := OnFailure; restart_delay := "5s";
                max_concurrent := 20; queue_max := 100; queue_timeout := "5s"; run_as := RunService |};
  capabilities := {| required := []; cap_scope := None; host_access := [Network]; caller_scoped := true |};
  tools := {| namespace := "git"; provides := ["git/log"] |};
  jobs := {| max_active := 3; job_timeout := "3600s"; persist := false |} |}%string.
Definition manager := ServiceManager (B := log ServiceEvent).
Definition m0 : manager := manager_new "/run/avix" (Some empty_registry).
(** every child is a number; only the second still runs *)
Definition toy_os : Os (Child := nat) := {|
  kernel_sock := "/run/avix/kernel.sock"; router_sock := "/run/avix/router.sock"; run_dir := "/run/avix";
  exec _ _ := Ok 1%nat |}%string.
Definition toy_running (c : nat) : bool := bool_decide (c = 2%nat).
Definition toy_host : ServiceHost := {|
  tool_add_of_value _ := Err "bad"%string;
  tool_remove_of_value _ := Err "bad"%string;
  descriptors _ := Ok [{| td_name := "git/log"; td_owner := None; td_permissions := None; td_state := "available";
                          td_capabilities := []; td_visibility := SpecAll; td_value := JNull |}]%string |}.
Definition started : gmap string (WatchdogEntry (Child := nat)) * manager := start_one toy_os (∅, m0) (toy_unit, "a"%string).

Lemma m0_inv : inv m0.
Proof. constructor; try done. by intros r t x [= <-]. Qed.
Lemma started_ok : inv started.2 /\ entries_ok started.1 started.2.
Proof. apply start_books; [apply m0_inv | done | done | done]. Qed.

Lemma service_books_witness : inv started.2 /\ entries_ok started.1 started.2.
Proof.
  apply (service_books toy_host toy_os toy_running ∅ m0); [apply m0_inv | done |].
  apply rtc_once. unfold started. by apply step_start.
Defined.

Definition register_git : IpcMessage := Request {|
  rq_jsonrpc := "2.0"; rq_id := "1"; method := "ipc.register";
  params := JObj [("_token", JStr "svc-token-a"); ("name", JStr "git"); ("endpoint", JStr "/run/git.sock")] |}%string.
(** The registration is accepted and adds the tool of the descriptor. *)
Example register_git_runs :
  (fun o => (o.1, ss_status <$> list_running o.2, fmap (fun r => bool_decide (is_Some (inner r !! "git/log"%string))) (tool_registry o.2)))
    <$> handle_message toy_host 7 register_git started.2
  = Some (Some (rpc_ok "1" (JObj [("registered", JBool true); ("pid", JInt 10)])), ["running"], Some true)%string.
Proof. vm_compute. reflexivity. Qed.

Lemma watchdog_pass_witness : exists es' m', check_and_restart toy_os toy_running [("git", "b")]%string started = Some (es', m') /\
  watchdog_restart_count es' "git" = 1.
Proof.
  destruct (watchdog_pass toy_os toy_running [("git", "b")]%string started.1 started.2) as (es' & m' & E & _ & C & _).
  - apply started_ok.
  - apply NoDup_singleton.
  - apply NoDup_singleton.
  - apply Forall_singleton. vm_compute. reflexivity.
  - vm_compute. discriminate.
  - apply Forall_singleton. eexists. split; [vm_compute; reflexivity|]. split; [reflexivity | vm_compute; discriminate].
  - exists es', m'. split; [exact E|]. inversion C as [|x l Hc _]; subst. cbn [fst] in Hc.
    destruct (started.1 !! "git"%string) as [e|] eqn:Ee; [|vm_compute in Ee; discriminate].
    assert (due toy_running e = true /\ restart_count e = 0) as [Hd Hz] by (vm_compute in Ee; injection Ee as <-; split; reflexivity).
    specialize (Hc e eq_refl). unfold checked in Hc. rewrite Hd in Hc. destruct Hc as (tok & _ & _ & _ & _ & Ho).
    unfold watchdog_restart_count. rewrite Ho. cbn. rewrite Hz. reflexivity.
Defined.

End Toy.
