(* ===== verification/Text.v ===== *)
(** * UTF-8 text

    What the sources use of [str] beyond bytes: [String::from_utf8] with its error,
    [String::from_utf8_lossy], [str::is_char_boundary] (the condition under which a byte slice
    does not panic), [trim().is_empty()] and [split_whitespace]. *)

From S2P Require Import Prelude.

Definition byte_val (c : ascii) : N := Ascii.N_of_ascii c.
Definition byte_in (lo hi : N) (c : ascii) : bool := (lo <=? byte_val c)%N && (byte_val c <=? hi)%N.
Definition is_cont (c : ascii) : bool := byte_in 0x80 0xBF c.

(** The sequence at the head of the input: a character of [n] bytes, [n] bytes that begin no
    character, or a character cut off by the end. *)
Inductive Utf8Step : Type := Char (n : nat) | Bad (n : nat) | Truncated.

(** [k] continuation bytes, [n] bytes read before. *)
Fixpoint conts (k n : nat) (s : string) : Utf8Step :=
  match k, s with
  | O, _ => Char n
  | S _, EmptyString => Truncated
  | S k', String c t => if is_cont c then conts k' (S n) t else Bad n
  end.
(** A second byte in a range, then [k] continuation bytes. *)
Definition second (lo hi : N) (k : nat) (s : string) : Utf8Step :=
  match s with
  | EmptyString => Truncated
  | String c t => if byte_in lo hi c then conts k 2 t else Bad 1
  end.
Definition utf8_step (c : ascii) (t : string) : Utf8Step :=
  if byte_in 0 0x7F c then Char 1
  else if byte_in 0xC2 0xDF c then conts 1 1 t
  else if byte_in 0xE0 0xE0 c then second 0xA0 0xBF 1 t
  else if byte_in 0xE1 0xEC c then second 0x80 0xBF 1 t
  else if byte_in 0xED 0xED c then second 0x80 0x9F 1 t
  else if byte_in 0xEE 0xEF c then second 0x80 0xBF 1 t
  else if byte_in 0xF0 0xF0 c then second 0x90 0xBF 2 t
  else if byte_in 0xF1 0xF3 c then second 0x80 0xBF 2 t
  else if byte_in 0xF4 0xF4 c then second 0x80 0x8F 2 t
  else Bad 1.

(** The first error: where, and how many bytes ([None]: the input ends too early). *)
Fixpoint utf8_error (pos skip : nat) (s : string) : option (nat * option nat) :=
  match s with
  | EmptyString => None
  | String c t =>
      match skip with
      | S k => utf8_error (S pos) k t
      | O => match utf8_step c t with
             | Char n => utf8_error (S pos) (n - 1) t
             | Bad n => Some (pos, Some n)
             | Truncated => Some (pos, None)
             end
      end
  end.
Definition is_utf8 (s : string) : bool := bool_decide (utf8_error 0 0 s = None).

(** [String::from_utf8], with the text of its error. *)
Definition from_utf8 (s : string) : result string string :=
  match utf8_error 0 0 s with
  | None => Ok s
  | Some (i, Some n) =>
      Err ("invalid utf-8 sequence of " +:+ pretty n +:+ " bytes from index " +:+ pretty i)%string
  | Some (i, None) => Err ("incomplete utf-8 byte sequence from index " +:+ pretty i)%string
  end.

(** [s.is_char_boundary(n)]: slicing at any other index panics. *)
Definition is_char_boundary (s : string) (n : nat) : bool :=
  match str_drop n s with
  | EmptyString => bool_decide (n <= String.length s)
  | String c _ => negb (is_cont c)
  end.
(** [&s[..n]]: [None] where it panics. *)
Fixpoint str_take (n : nat) (s : string) : string :=
  match n, s with
  | S k, String c t => String c (str_take k t)
  | _, _ => EmptyString
  end.
Definition slice_to (s : string) (n : nat) : option string :=
  if (n <=? String.length s) && is_char_boundary s n then Some (str_take n s) else None.

(** [&s[..s.len().min(n)]]: the first [n] bytes of a text, or all of it. *)
Definition preview (n : nat) (s : string) : option string := slice_to s (String.length s `min` n)%nat.

(** [s.trim().is_empty()]: every character is Unicode white space. *)
Fixpoint is_blank (s : string) : bool :=
  match s with
  | EmptyString => true
  | String c t =>
      if byte_in 9 13 c || byte_in 32 32 c then is_blank t
      else match t with
           | EmptyString => false
           | String d u =>
               if byte_in 0xC2 0xC2 c && (byte_in 0x85 0x85 d || byte_in 0xA0 0xA0 d) then is_blank u
               else match u with
                    | EmptyString => false
                    | String e v =>
                        if (byte_in 0xE1 0xE1 c && byte_in 0x9A 0x9A d && byte_in 0x80 0x80 e)
                           || (byte_in 0xE2 0xE2 c && byte_in 0x80 0x80 d &&
                               (byte_in 0x80 0x8A e || byte_in 0xA8 0xA9 e || byte_in 0xAF 0xAF e))
                           || (byte_in 0xE2 0xE2 c && byte_in 0x81 0x81 d && byte_in 0x9F 0x9F e)
                           || (byte_in 0xE3 0xE3 c && byte_in 0x80 0x80 d && byte_in 0x80 0x80 e)
                        then is_blank v else false
                    end
           end
  end.

(** [String::from_utf8_lossy]: every sequence that is no character becomes U+FFFD.  [keep] bytes of a character
    and [drop] bytes of a bad sequence are still to be passed. *)
Definition replacement : string := String "239" (String "191" (String "189" EmptyString)).
Fixpoint lossy (keep drop : nat) (s : string) : string :=
  match s with
  | EmptyString => EmptyString
  | String c t =>
      match keep, drop with
      | S k, _ => String c (lossy k 0 t)
      | O, S d => lossy 0 d t
      | O, O => match utf8_step c t with
                | Char n => String c (lossy (n - 1) 0 t)
                | Bad n => (replacement +:+ lossy 0 (n - 1) t)%string
                | Truncated => replacement
                end
      end
  end.
Definition from_utf8_lossy (s : string) : string := lossy 0 0 s.

(** The bytes of the white space character at the head, 0 for another character. *)
Definition white_len (s : string) : nat :=
  match s with
  | EmptyString => 0
  | String c t =>
      if byte_in 9 13 c || byte_in 32 32 c then 1
      else if is_blank (str_take 2 s) then 2
      else if is_blank (str_take 3 s) then 3
      else 0
  end.
(** [s.trim()] *)
Fixpoint trim_end (s : string) : string :=
  match s with EmptyString => EmptyString | String c t => if is_blank s then EmptyString else String c (trim_end t) end.
Fixpoint trim_start_from (skip : nat) (s : string) : string :=
  match s with
  | EmptyString => EmptyString
  | String c t => match skip with S k => trim_start_from k t | O => match white_len s with O => s | S k => trim_start_from k t end end
  end.
Definition trim (s : string) : string := trim_end (trim_start_from 0 s).

Fixpoint words (skip : nat) (cur : string) (s : string) : list string :=
  let emit := if String.eqb cur EmptyString then [] else [cur] in
  match s with
  | EmptyString => emit
  | String c t =>
      match skip with
      | S k => words k cur t
      | O => match white_len s with
             | O => words 0 (cur +:+ String c EmptyString)%string t
             | S k => emit ++ words k EmptyString t
             end
      end
  end.
(** [s.split_whitespace()] *)
Definition split_whitespace (s : string) : list string := words 0 EmptyString s.

(** [s.replace(pat, by)] for a pattern that is not empty. *)
Fixpoint replace_from (skip : nat) (pat by_ s : string) : string :=
  match s with
  | EmptyString => EmptyString
  | String c t =>
      match skip with
      | S k => replace_from k pat by_ t
      | O => if starts_with pat s then (by_ +:+ replace_from (String.length pat - 1) pat by_ t)%string
             else String c (replace_from 0 pat by_ t)
      end
  end.
Definition str_replace (pat by_ s : string) : string := replace_from 0 pat by_ s.

(** ** Facts *)

Lemma conts_app k n s u m : conts k n s = Char m -> conts k n (s +:+ u) = Char m /\ m <= n + String.length s.
Proof.
  revert n s. induction k as [|k IH]; intros n s H; cbn in *.
  - destruct s, u; cbn; (split; [done|]); injection H as <-; cbn; lia.
  - destruct s as [|c s]; [done|]. cbn. case_match; [|done].
    destruct (IH _ _ H) as [-> Hm]. split; [done|]. cbn. lia.
Qed.

Lemma second_app lo hi k s u m : second lo hi k s = Char m -> second lo hi k (s +:+ u) = Char m /\ m <= 1 + String.length s.
Proof.
  destruct s as [|c s]; cbn; [done|]. case_match; [|done]. intros H'.
  destruct (conts_app k 2 s u m H') as [-> ?]. split; [done|]. lia.
Qed.

Lemma utf8_step_app c s u m :
  utf8_step c s = Char m -> utf8_step c (s +:+ u) = Char m /\ m <= 1 + String.length s.
Proof.
  unfold utf8_step. repeat (case_match; [try apply (conts_app 1 1); try apply second_app|]); [|done..].
  intros [= <-]. split; [done|]. lia.
Qed.

Lemma utf8_error_app a b : forall pos skip, skip <= String.length a -> utf8_error pos skip a = None ->
  utf8_error pos skip (a +:+ b) = utf8_error (pos + String.length a) 0 b.
Proof.
  induction a as [|c a IH]; intros pos skip Hs H; cbn in *.
  - replace skip with 0 by lia. by rewrite Nat.add_0_r.
  - destruct skip as [|k].
    + destruct (utf8_step c a) as [n|n|] eqn:E; [|done..].
      destruct (utf8_step_app _ _ b _ E) as [-> Hn]. rewrite IH; [f_equal; lia | lia | done].
    + rewrite IH; [f_equal; lia | lia | done].
Qed.

Lemma utf8_error_shift s : forall p q skip, utf8_error p skip s = None -> utf8_error q skip s = None.
Proof.
  induction s as [|c s IH]; intros p q skip; cbn; [done|]. repeat case_match; try done; apply IH.
Qed.

(** Appending keeps text well formed. *)
Lemma is_utf8_app a b : is_utf8 a = true -> is_utf8 b = true -> is_utf8 (a +:+ b) = true.
Proof.
  unfold is_utf8. intros Ha%bool_decide_eq_true Hb%bool_decide_eq_true. apply bool_decide_eq_true.
  rewrite utf8_error_app by (done || lia). by eapply utf8_error_shift.
Qed.

Lemma from_utf8_ok s : is_utf8 s = true -> from_utf8 s = Ok s.
Proof. unfold is_utf8, from_utf8. intros H%bool_decide_eq_true. by rewrite H. Qed.

(** Valid text is kept as it is. *)
Lemma lossy_app a b : forall pos skip, skip <= String.length a -> utf8_error pos skip a = None ->
  lossy skip 0 (a +:+ b) = (a +:+ lossy 0 0 b)%string.
Proof.
  induction a as [|c a IH]; intros pos skip Hs H; cbn in *; [by replace skip with 0 by lia|].
  destruct skip as [|k]; [|f_equal; eapply IH; [lia|done]].
  destruct (utf8_step c a) as [n|n|] eqn:E; [|done..].
  destruct (utf8_step_app _ _ b _ E) as [-> Hn]. f_equal. eapply IH; [lia|done].
Qed.
Lemma from_utf8_lossy_app a b : is_utf8 a = true -> from_utf8_lossy (a +:+ b) = (a +:+ from_utf8_lossy b)%string.
Proof. intros H%bool_decide_eq_true. eapply lossy_app; [lia|done]. Qed.
Lemma from_utf8_lossy_valid s : is_utf8 s = true -> from_utf8_lossy s = s.
Proof. intros H. rewrite <-(str_app_nil_r s) at 1. by rewrite from_utf8_lossy_app, str_app_nil_r. Qed.

Example lossy_split : from_utf8_lossy (String "a" (String "195" EmptyString)) = (String "a" EmptyString +:+ replacement)%string
  /\ split_whitespace "0  3 * * 1"%string = ["0"; "3"; "*"; "*"; "1"]%string.
Proof. split; vm_compute; reflexivity. Qed.

(** Text without the pattern is unchanged. *)
Lemma str_replace_absent pat by_ s : str_contains pat s = false -> str_replace pat by_ s = s.
Proof.
  unfold str_replace. induction s as [|c s IH]; [done|]. cbn [str_contains replace_from].
  intros [-> H]%orb_false_elim. by rewrite IH.
Qed.
