(* ===== verification/Cron.v ===== *)
(** * The cron service

    Models [cron_svc/]: the crontab and its validation ([schema.rs], [loader.rs]), the scheduler
    ([scheduler.rs]), the tick loop and the execution of one job with its retries ([runner.rs]).

    The cron crate is the class [Schedule] with its laws: the next occurrence is the least one after an
    instant.  YAML text, the clock and fresh uuids are arguments; the kernel that runs the agents is the
    class [AgentSpawner], whose [wait_for_exit] answers [None] when the timeout elapses first. *)

From S2P Require Import Prelude Types Text Vfs Json.
Local Open Scope Z_scope.

(** ** The cron crate *)

Class Schedule : Type := {
  schedule : Type;
  from_str : string -> result string schedule;
  next_after : schedule -> Z -> option Z;
}.
Class ScheduleLaws `{!Schedule} : Type := {
  occurs : schedule -> Z -> Prop;
  next_some s t u : next_after s t = Some u -> t < u /\ occurs s u /\ forall v, t < v -> occurs s v -> u <= v;
  next_none s t : next_after s t = None -> forall v, t < v -> ~ occurs s v;
}.

(** ** The crontab *)

Inductive OnFailure : Type := Ignore | Alert | Retry.
#[global] Instance OnFailure_eq_dec : EqDecision OnFailure.
Proof. solve_decision. Defined.
Record RetryPolicy : Type := { max_attempts : Z; backoff_sec : Z }.
Definition retry_policy_default : RetryPolicy := {| max_attempts := 3; backoff_sec := 60 |}.

Record CrontabJob : Type := {
  cj_id : string; cj_schedule : string; cj_user : string; agent_template : string; cj_goal : string;
  args : gmap string json; cj_timeout : Z; on_failure : OnFailure; retry_policy : RetryPolicy;
  timezone : option string;
}.
Record CrontabSpec : Type := { cs_timezone : string; cs_jobs : list CrontabJob }.
Record CrontabFile : Type := {
  api_version : string; cf_kind : string; last_updated : Z; cf_spec : CrontabSpec;
}.
Definition crontab_empty (now : Z) : CrontabFile := {|
  api_version := "avix/v1"; cf_kind := "Crontab"; last_updated := now; cf_spec := {| cs_timezone := "UTC"; cs_jobs := [] |};
|}.

Inductive CrontabError : Type :=
| CtNotFound (path : string)
| CtParseError (e : string)
| CtInvalidExpression (expr job_id reason : string)
| CtDuplicateJobId (id : string)
| CtVfs (path reason : string).
Definition CRONTAB_PATH : string := "/etc/avix/crontab.yaml".

Definition normalise_expression (expr : string) : string :=
  if Nat.eqb (length (split_whitespace expr)) 5 then ("0 " +:+ expr)%string else expr.

(** ** The scheduler's data *)

Inductive MissedRunPolicy : Type := Skip | FireOnce.
Record CronJob : Type := {
  id_ : string; name_ : string; expression : string; missed_run_policy : MissedRunPolicy;
  last_run : option Z; enabled : bool;
}.
Inductive CronError : Type := InvalidExpression (expr : string) | CronNotFound (id : string).
Definition cron_error_to_string (e : CronError) : string :=
  match e with
  | InvalidExpression x => "invalid cron expression: " +:+ x
  | CronNotFound x => "job not found: " +:+ x
  end%string.
Definition CronScheduler : Type := gmap string CronJob.

Section Cron.
Context `{!Schedule}.

Definition validate_schedule (job : CrontabJob) : result CrontabError () :=
  match from_str (normalise_expression (cj_schedule job)) with
  | Ok _ => Ok ()
  | Err e => Err (CtInvalidExpression (cj_schedule job) (cj_id job) e)
  end.
Fixpoint validate_jobs (seen : gset string) (jobs : list CrontabJob) : result CrontabError () :=
  match jobs with
  | [] => Ok ()
  | job :: jobs =>
      if decide (cj_id job ∈ seen) then Err (CtDuplicateJobId (cj_id job))
      else _ ← validate_schedule job; validate_jobs ({[cj_id job]} ∪ seen) jobs
  end.
Definition validate (file : CrontabFile) : result CrontabError () := validate_jobs ∅ (cs_jobs (cf_spec file)).

(** [load]; [load_with_defaults] is the same. *)
Definition load {D} `{!Disk D} (yaml_of_names : list string -> string) (yaml : string -> result string CrontabFile) (vfs : VfsRouter D)
    : VfsRouter D * result CrontabError CrontabFile :=
  match VfsPath.parse CRONTAB_PATH with
  | Err e => (vfs, Err (CtVfs CRONTAB_PATH (avix_error_to_string e)))
  | Ok path =>
      let '(vfs, bytes) := Vfs.read yaml_of_names vfs path in
      (vfs, bytes ← map_err (fun _ => CtNotFound CRONTAB_PATH) bytes;
            file ← map_err CtParseError (yaml (from_utf8_lossy bytes));
            _ ← validate file; Ok file)
  end.

(** ** The scheduler *)

Definition next_run_after (j : CronJob) (after : Z) : option Z :=
  match from_str (expression j) with Ok s => next_after s after | Err _ => None end.

Definition add_job (uuid : string) (jobs : CronScheduler) (name expr : string) (missed : MissedRunPolicy)
    : result CronError (string * CronScheduler) :=
  match from_str expr with
  | Err _ => Err (InvalidExpression expr)
  | Ok _ => Ok (uuid, <[uuid := {| id_ := uuid; name_ := name; expression := expr; missed_run_policy := missed;
                                   last_run := None; enabled := true |}]> jobs)
  end.
Definition remove_job (jobs : CronScheduler) (id : string) : result CronError CronScheduler :=
  match jobs !! id with Some _ => Ok (base.delete id jobs) | None => Err (CronNotFound id) end.
Definition update_last_run (jobs : CronScheduler) (id : string) (when : Z) : CronScheduler :=
  alter (fun j => {| id_ := id_ j; name_ := name_ j; expression := expression j;
                     missed_run_policy := missed_run_policy j; last_run := Some when; enabled := enabled j |}) id jobs.

Context `{!HashOrder}.

Definition list_jobs (jobs : CronScheduler) : list CronJob := (hash_iter _ jobs).*2.
Definition due_jobs (jobs : CronScheduler) (since now : Z) : list string :=
  omap (fun j => if enabled j then
                   next ← next_run_after j since; if decide (next <= now) then Some (id_ j) else None
                 else None) (list_jobs jobs).

(** ** The runner *)

Record CronRunner : Type := { scheduler : CronScheduler; runner_jobs : gmap string CrontabJob; tick_interval_sec : Z }.

Fixpoint register_jobs (uuid : nat -> string) (n : nat) (jobs : list CrontabJob) (s : CronScheduler) (m : gmap string CrontabJob)
    : result string (CronScheduler * gmap string CrontabJob) :=
  match jobs with
  | [] => Ok (s, m)
  | job :: jobs =>
      '(_, s) ← map_err (fun e => "job '" +:+ cj_id job +:+ "': " +:+ cron_error_to_string e)%string
                  (add_job (uuid n) s (cj_id job) (normalise_expression (cj_schedule job)) Skip);
      register_jobs uuid (S n) jobs s (<[cj_id job := job]> m)
  end.
Definition from_crontab (uuid : nat -> string) (file : CrontabFile) : result string CronRunner :=
  '(s, m) ← register_jobs uuid 0 (cs_jobs (cf_spec file)) ∅ ∅;
  Ok {| scheduler := s; runner_jobs := m; tick_interval_sec := 30 |}.

(** The body of the loop: [tick_time] is read before the due jobs are computed with a reading [now] of their own.
    The jobs that are launched are returned. *)
Definition dispatch_due (tick_time : Z) (st : CronScheduler * list CrontabJob) (jobs : gmap string CrontabJob) (id : string) :=
  (update_last_run st.1 id tick_time, match jobs !! id with Some job => st.2 ++ [job] | None => st.2 end).
Definition tick (r : CronRunner) (last_tick tick_time now : Z) : CronRunner * list CrontabJob :=
  let '(s, launched) := foldl (fun st id => dispatch_due tick_time st (runner_jobs r) id) (scheduler r, [])
                          (due_jobs (scheduler r) last_tick now) in
  ({| scheduler := s; runner_jobs := runner_jobs r; tick_interval_sec := tick_interval_sec r |}, launched).
Fixpoint run (r : CronRunner) (last_tick : Z) (readings : list (Z * Z)) : CronRunner * list (list CrontabJob) :=
  match readings with
  | [] => (r, [])
  | (tick_time, now) :: readings =>
      let '(r, launched) := tick r last_tick tick_time now in
      let '(r, rest) := run r tick_time readings in (r, launched :: rest)
  end.

(** ** Running a job *)

Inductive AgentExitStatus : Type := Success | Failure (reason : string).
Record SpawnRequest : Type := { sq_user : string; sq_agent_template : string; sq_goal : string; sq_timeout_sec : Z }.

Class AgentSpawner (W : Type) : Type := {
  spawn : W -> SpawnRequest -> result string string * W;
  wait_for_exit : W -> string -> Z -> option AgentExitStatus * W;
  stop : W -> string -> W;
}.
(** What a job does, in order. *)
Inductive Act : Type :=
| ASpawn (r : SpawnRequest) | AWait (handle : string) (timeout : Z) | AStop (handle : string)
| AAlert (job_id reason : string) | ASleep (secs : Z).

(** [to_string] of a JSON value that is no string is an argument. *)
Definition render_goal (json_text : json -> string) (goal : string) (args : gmap string json) : string :=
  foldl (fun result kv =>
    let value := match kv.2 with JStr s => s | other => json_text other end in
    str_replace ("{" +:+ kv.1 +:+ "}")%string value result) goal (hash_iter _ args).

Context {W : Type} `{!AgentSpawner W}.

Definition execute_once (job : CrontabJob) (req : SpawnRequest) (w : W) : AgentExitStatus * list Act * W :=
  match spawn w req with
  | (Err e, w) => (Failure ("spawn error: " +:+ e)%string, [ASpawn req], w)
  | (Ok h, w) =>
      match wait_for_exit w h (cj_timeout job) with
      | (Some status, w) => (status, [ASpawn req; AWait h (cj_timeout job)], w)
      | (None, w) => (Failure ("timeout after " +:+ pretty (cj_timeout job) +:+ "s")%string,
                      [ASpawn req; AWait h (cj_timeout job); AStop h], stop w h)
      end
  end.

Definition attempts_of (job : CrontabJob) : Z :=
  if decide (on_failure job = Retry) then Z.max (max_attempts (retry_policy job)) 1 else 1.
Definition request_of (json_text : json -> string) (job : CrontabJob) : SpawnRequest := {|
  sq_user := cj_user job; sq_agent_template := agent_template job;
  sq_goal := render_goal json_text (cj_goal job) (args job); sq_timeout_sec := cj_timeout job |}.

(** The loop of [run_job] with [attempt] attempts made; [None] when the fuel is used up. *)
Fixpoint job_loop (fuel : nat) (json_text : json -> string) (job : CrontabJob) (attempt : Z) (w : W) : option (list Act * W) :=
  match fuel with
  | O => None
  | S fuel =>
      let attempt := attempt + 1 in
      let '(status, acts, w) := execute_once job (request_of json_text job) w in
      match status with
      | Success => Some (acts, w)
      | Failure reason =>
          match on_failure job with
          | Ignore => Some (acts, w)
          | Alert => Some (acts ++ [AAlert (cj_id job) reason], w)
          | Retry =>
              if decide (attempts_of job <= attempt) then
                Some (acts ++ [AAlert (cj_id job) ("exhausted " +:+ pretty (attempts_of job) +:+ " attempts; last error: " +:+ reason)%string], w)
              else
                '(rest, w) ← job_loop fuel json_text job attempt w;
                Some (acts ++ ASleep (backoff_sec (retry_policy job)) :: rest, w)
          end
      end
  end.
Definition run_job (json_text : json -> string) (job : CrontabJob) (w : W) : option (list Act * W) :=
  job_loop (Z.to_nat (attempts_of job)) json_text job 0 w.

End Cron.

(** ** A job runs as its policy says *)

Section Jobs.
Context `{!HashOrder} {W : Type} `{!AgentSpawner W} (json_text : json -> string).
Implicit Types (job : CrontabJob) (w : W).

(** Attempts made one after the other, with what each did. *)
Inductive outcomes job : W -> list (AgentExitStatus * list Act) -> W -> Prop :=
| outcomes_nil w : outcomes job w [] w
| outcomes_cons w st acts w1 rs w2 :
    execute_once job (request_of json_text job) w = (st, acts, w1) -> outcomes job w1 rs w2 ->
    outcomes job w ((st, acts) :: rs) w2.

(** The acts of attempts with a pause before each further one. *)
Fixpoint trace_of (backoff : Z) (rs : list (AgentExitStatus * list Act)) : list Act :=
  match rs with
  | [] => []
  | [r] => r.2
  | r :: rs => r.2 ++ ASleep backoff :: trace_of backoff rs
  end.
Definition final_alert job (st : AgentExitStatus) : list Act :=
  match st, on_failure job with
  | Success, _ | _, Ignore => []
  | Failure reason, Alert => [AAlert (cj_id job) reason]
  | Failure reason, Retry =>
      [AAlert (cj_id job) ("exhausted " +:+ pretty (attempts_of job) +:+ " attempts; last error: " +:+ reason)%string]
  end.

Lemma attempts_of_pos job : 1 <= attempts_of job.
Proof. unfold attempts_of. case_decide; lia. Qed.
Lemma trace_of_cons b r rs : rs <> [] -> trace_of b (r :: rs) = r.2 ++ ASleep b :: trace_of b rs.
Proof. by destruct rs. Qed.

Lemma job_loop_spec job : forall fuel attempt w, 0 <= attempt < attempts_of job -> fuel = Z.to_nat (attempts_of job - attempt) ->
  exists rs st acts w', let all := rs ++ [(st, acts)] in
    job_loop fuel json_text job attempt w = Some (trace_of (backoff_sec (retry_policy job)) all ++ final_alert job st, w') /\
    outcomes job w all w' /\ Forall (fun r => r.1 <> Success) rs /\ attempt + Z.of_nat (length all) <= attempts_of job /\
    (st <> Success -> on_failure job = Retry -> attempt + Z.of_nat (length all) = attempts_of job).
Proof.
  induction fuel as [|fuel IH]; intros attempt w Ha Hf; [lia|]. cbn [job_loop].
  destruct (execute_once _ _ w) as [[st acts] w1] eqn:E.
  assert (forall l, l = acts ++ final_alert job st -> (st <> Success -> on_failure job = Retry -> attempts_of job <= attempt + 1) ->
    exists rs st' acts' w', let all := rs ++ [(st', acts')] in
    Some (l, w1) = Some (trace_of (backoff_sec (retry_policy job)) all ++ final_alert job st', w') /\
    outcomes job w all w' /\ Forall (fun r => r.1 <> Success) rs /\ attempt + Z.of_nat (length all) <= attempts_of job /\
    (st' <> Success -> on_failure job = Retry -> attempt + Z.of_nat (length all) = attempts_of job)) as Last.
  { intros l -> Hl. exists [], st, acts, w1. cbn. split_and!; [done| |constructor|lia|intros A B; specialize (Hl A B); lia].
    econstructor; [done|constructor]. }
  destruct st as [|reason]; [apply Last; [by rewrite app_nil_r|done]|].
  destruct (on_failure job) eqn:Eo.
  - apply Last; [unfold final_alert; by rewrite Eo, app_nil_r|done].
  - apply Last; [unfold final_alert; by rewrite Eo|done].
  - case_decide as Hd; [apply Last; [unfold final_alert; by rewrite Eo|lia]|]. clear Last.
    destruct (IH (attempt + 1) w1) as (rs & st & acts2 & w' & Er & O & F & L & D); [lia..|].
    exists ((Failure reason, acts) :: rs), st, acts2, w'. rewrite Er. cbn [mbind option_bind app].
    rewrite trace_of_cons by (by destruct rs). split_and!.
    + by rewrite <-app_assoc.
    + by econstructor.
    + by constructor.
    + cbn [length] in *. lia.
    + intros A B. specialize (D A B). cbn [length] in *. lia.
Qed.

End Jobs.

(** ** Ticks *)

Section Ticks.
Context `{!Schedule, !ScheduleLaws, !HashOrder, !HashOrderLaws}.
Implicit Types (s : CronScheduler) (r : CronRunner) (u t : Z).

Definition keyed s : Prop := forall k j, s !! k = Some j -> id_ j = k.

(** A job without what the ticks write. *)
Definition timeless (j : CronJob) : CronJob := {|
  id_ := id_ j; name_ := name_ j; expression := expression j; missed_run_policy := missed_run_policy j;
  last_run := None; enabled := enabled j |}.

Lemma elem_of_list_jobs s j : j ∈ list_jobs s <-> exists k, s !! k = Some j.
Proof.
  unfold list_jobs. rewrite list_elem_of_fmap. split.
  - intros ([k j'] & -> & Hk). exists k. by rewrite hash_iter_perm, elem_of_map_to_list in Hk.
  - intros [k Hk]. exists (k, j). by rewrite hash_iter_perm, elem_of_map_to_list.
Qed.

Lemma next_run_in_window (sch : schedule) since now :
  (exists u, next_after sch since = Some u /\ u <= now) <-> exists u, since < u <= now /\ occurs sch u.
Proof.
  split.
  - intros (u & E & Hu). apply next_some in E as (Hl & Ho & _). exists u. lia || split; [lia|done].
  - intros (u & Hu & Ho). destruct (next_after sch since) as [v|] eqn:E.
    + exists v. apply next_some in E as (_ & _ & Hm). specialize (Hm u). split; [done|]. specialize (Hm ltac:(lia) Ho). lia.
    + by destruct (next_none _ _ E u ltac:(lia)).
Qed.

Lemma elem_of_due_jobs s k since now : keyed s ->
  k ∈ due_jobs s since now <->
  exists j sch, s !! k = Some j /\ enabled j = true /\ from_str (expression j) = Ok sch /\
    exists u, since < u <= now /\ occurs sch u.
Proof.
  intros K. unfold due_jobs. rewrite list_elem_of_omap. split.
  - intros (j & [k' Hj]%elem_of_list_jobs & Hd). destruct (enabled j) eqn:Ee; [|done]. unfold next_run_after in Hd.
    destruct (from_str (expression j)) as [sch|] eqn:Es; [|done]. destruct (next_after sch since) as [v|] eqn:En; [|done].
    cbn in Hd. case_decide; [|done]. injection Hd as <-. pose proof (K _ _ Hj) as ->. exists j, sch. split_and!; try done.
    apply next_run_in_window. by exists v.
  - intros (j & sch & Hj & Ee & Es & Hw). exists j. split; [apply elem_of_list_jobs; by exists k|]. rewrite Ee. unfold next_run_after.
    rewrite Es. apply next_run_in_window in Hw as (v & -> & Hv). cbn. rewrite decide_True by done. by rewrite (K _ _ Hj).
Qed.

(** Ticks touch only the time of the last run. *)
Lemma update_timeless s id t : timeless <$> update_last_run s id t = timeless <$> s.
Proof.
  apply map_eq. intros k. rewrite !lookup_fmap. unfold update_last_run, CronScheduler in *. rewrite lookup_alter. case_decide; subst; by destruct (s !! k).
Qed.
Lemma dispatch_timeless t jobs ids : forall st,
  timeless <$> (foldl (fun st id => dispatch_due t st jobs id) st ids).1 = timeless <$> st.1.
Proof. induction ids as [|id ids IH]; intros st; [done|]. cbn [foldl]. rewrite IH. cbn. apply update_timeless. Qed.
Lemma tick_timeless r l t n : timeless <$> scheduler (tick r l t n).1 = timeless <$> scheduler r /\ runner_jobs (tick r l t n).1 = runner_jobs r.
Proof.
  unfold tick. pose proof (dispatch_timeless t (runner_jobs r) (due_jobs (scheduler r) l n) (scheduler r, [])) as Hf.
  by destruct (foldl _ _ _).
Qed.
Lemma run_timeless : forall readings r l, timeless <$> scheduler (run r l readings).1 = timeless <$> scheduler r /\
  runner_jobs (run r l readings).1 = runner_jobs r.
Proof.
  induction readings as [|[t n] readings IH]; intros r l; [done|]. cbn [run].
  destruct (tick_timeless r l t n) as [A B]. destruct (tick r l t n) as [r1 la]. specialize (IH r1 t).
  destruct (run r1 t readings) as [r2 re]. cbn in *. destruct IH as [-> ->]. done.
Qed.
Lemma timeless_lookup s s' k : timeless <$> s = timeless <$> s' -> timeless <$> s !! k = timeless <$> s' !! k.
Proof. unfold CronScheduler. intros E. by rewrite <-!lookup_fmap, E. Qed.
Lemma timeless_keyed s s' : timeless <$> s = timeless <$> s' -> keyed s -> keyed s'.
Proof.
  intros E K k j Hj. apply (timeless_lookup _ _ k) in E. rewrite Hj in E. destruct (s !! k) as [j'|] eqn:E'; [|done].
  cbn in E. injection E as <-. by rewrite (K _ _ E').
Qed.

(** The windows the ticks look at. *)
Fixpoint windows (last : Z) (readings : list (Z * Z)) : list (Z * Z) :=
  match readings with [] => [] | (t, n) :: readings => (last, n) :: windows t readings end.
(** The clock does not go back, and the due jobs are computed after the tick's time is read. *)
Fixpoint clock_ok (last : Z) (readings : list (Z * Z)) : Prop :=
  match readings with [] => True | (t, n) :: readings => last <= t <= n /\ clock_ok t readings end.
Fixpoint final_tick (last : Z) (readings : list (Z * Z)) : Z :=
  match readings with [] => last | (t, _) :: readings => final_tick t readings end.

Lemma window_cover u : forall readings last, clock_ok last readings -> last < u <= final_tick last readings ->
  exists i w, windows last readings !! i = Some w /\ w.1 < u <= w.2.
Proof.
  induction readings as [|[t n] readings IH]; intros last C Hu; [cbn in Hu; lia|].
  destruct C as [Ct C]. destruct (decide (u <= t)) as [Hd|Hd]; [exists 0%nat, (last, n); cbn; split; [done|lia]|].
  destruct (IH t C) as (i & w & Hi & Hw); [cbn in Hu; lia|by exists (S i), w].
Qed.
Lemma window_start : forall readings last i w, clock_ok last readings -> windows last readings !! i = Some w -> last <= w.1.
Proof.
  induction readings as [|[t n] readings IH]; intros last i w; [done|]. intros [Ct C]. destruct i as [|i]; cbn; [intros [= <-]; cbn; lia|].
  intros Hi. specialize (IH t i w C Hi). lia.
Qed.
Lemma window_unique u : forall readings last i w j v, clock_ok last readings -> Forall (fun x => x.1 = x.2) readings ->
  windows last readings !! i = Some w -> windows last readings !! j = Some v ->
  w.1 < u <= w.2 -> v.1 < u <= v.2 -> i = j.
Proof.
  induction readings as [|[t n] readings IH]; intros last i w j v; [done|]. intros [Ct C] [Et F]%Forall_cons. cbn in Et. subst n.
  destruct i as [|i], j as [|j]; cbn.
  - done.
  - intros [= <-] Hj Hw Hv. apply window_start in Hj; [cbn in *; lia|done].
  - intros Hi [= <-] Hw Hv. apply window_start in Hi; [cbn in *; lia|done].
  - intros Hi Hj Hw Hv. f_equal. by eapply IH.
Qed.

(** No occurrence of an enabled job is lost: each one up to the last tick makes the job due at a tick, in exactly one
    when the due jobs are computed at the tick's own time; and a job is due only at ticks whose window holds an
    occurrence. *)
Theorem due_windows r last readings k j sch :
  keyed (scheduler r) -> clock_ok last readings ->
  scheduler r !! k = Some j -> enabled j = true -> from_str (expression j) = Ok sch ->
  let due i w := k ∈ due_jobs (scheduler (run r last (take i readings)).1) w.1 w.2 in
  (forall i w, windows last readings !! i = Some w -> due i w <-> exists u, w.1 < u <= w.2 /\ occurs sch u) /\
  (forall u, last < u <= final_tick last readings -> occurs sch u ->
     exists i w, windows last readings !! i = Some w /\ w.1 < u <= w.2 /\ due i w /\
       (Forall (fun x => x.1 = x.2) readings ->
          forall i' w', windows last readings !! i' = Some w' -> w'.1 < u <= w'.2 -> i' = i)).
Proof.
  intros K C Hj He Hs due.
  assert (forall i w, windows last readings !! i = Some w -> due i w <-> exists u, w.1 < u <= w.2 /\ occurs sch u) as D.
  { intros i w Hw. unfold due. destruct (run_timeless (take i readings) r last) as [E _]. symmetry in E.
    rewrite elem_of_due_jobs by (by eapply timeless_keyed). apply (timeless_lookup _ _ k) in E. rewrite Hj in E.
    destruct (scheduler (run r last (take i readings)).1 !! k) as [j'|]; [|done]. cbn in E. injection E as _ _ Ex _ En.
    split; [intros (j2 & sch2 & [= ->] & _ & Hs2 & Hu); rewrite <-Ex, Hs in Hs2; by injection Hs2 as <-|].
    intros Hu. exists j', sch. rewrite <-Ex, <-En. done. }
  split; [exact D|]. intros u Hu Ho. destruct (window_cover u readings last C Hu) as (i & w & Hi & Hw). exists i, w.
  split; [done|]. split; [done|]. split; [apply D; [done|]; by exists u|]. intros F i' w' Hi' Hw'. by eapply window_unique.
Qed.
End Ticks.

(** ** The runner of a loaded crontab *)

Section Runner.
Context `{!Schedule, !HashOrder, !HashOrderLaws}.

Lemma validate_jobs_ok : forall jobs seen, validate_jobs seen jobs = Ok () ->
  NoDup (cj_id <$> jobs) /\ (forall j, j ∈ jobs -> cj_id j ∉ seen) /\
  Forall (fun j => is_ok (from_str (normalise_expression (cj_schedule j))) = true) jobs.
Proof.
  induction jobs as [|j jobs IH]; intros seen; [intros _; split; [constructor|split; [set_solver|constructor]]|].
  cbn [validate_jobs]. case_decide as Hd; [done|]. unfold validate_schedule.
  destruct (from_str _) as [x|] eqn:E; [|done]. cbn [mbind result_bind]. intros (N & D & F)%IH. split_and!.
  - cbn. constructor; [|done]. rewrite list_elem_of_fmap. intros (j' & E' & Hj). specialize (D j' Hj). set_solver.
  - intros j' [->|Hj]%elem_of_cons; [done|]. specialize (D j' Hj). set_solver.
  - constructor; [by rewrite E|done].
Qed.

(** The entry of a job in the scheduler. *)
Definition entry_of (uuid : string) (job : CrontabJob) : CronJob := {|
  id_ := uuid; name_ := cj_id job; expression := normalise_expression (cj_schedule job); missed_run_policy := Skip;
  last_run := None; enabled := true |}.

Lemma register_ok uuid : forall jobs n s m,
  Forall (fun j => is_ok (from_str (normalise_expression (cj_schedule j))) = true) jobs ->
  register_jobs uuid n jobs s m =
  Ok (foldl (fun s p => <[uuid p.1 := entry_of (uuid p.1) p.2]> s) s (zip (seq n (length jobs)) jobs),
      foldl (fun m j => <[cj_id j := j]> m) m jobs).
Proof.
  induction jobs as [|j jobs IH]; intros n s m; [done|]. intros [Hj F]%Forall_cons. cbn [register_jobs]. unfold add_job.
  destruct (from_str _); [|done]. cbn [map_err mbind result_bind]. rewrite IH by done. done.
Qed.

Lemma jobs_of_ids : forall jobs m k, is_Some (foldl (fun m j => <[cj_id j := j]> m) m jobs !! k) ->
  is_Some ((m : gmap string CrontabJob) !! k) \/ k ∈ cj_id <$> jobs.
Proof.
  induction jobs as [|j jobs IH]; intros m k Hk; [by left|]. cbn [foldl] in Hk. apply IH in Hk as [Hk|Hk]; [|right; by right].
  destruct (decide (cj_id j = k)) as [<-|Hne]; [right; left|]. rewrite lookup_insert_ne in Hk by done. by left.
Qed.

Lemma entries_at uuid : (forall i j, uuid i = uuid j -> i = j) -> forall jobs n s k,
  foldl (fun s p => <[uuid p.1 := entry_of (uuid p.1) p.2]> s) s (zip (seq n (length jobs)) jobs) !! k =
  match list_find (fun i => uuid i = k) (seq n (length jobs)) with
  | Some (i, _) => entry_of k <$> jobs !! i
  | None => (s : gmap string CronJob) !! k
  end.
Proof.
  intros Inj. induction jobs as [|j jobs IH]; intros n s k; [done|]. cbn [length seq zip zip_with foldl fst snd list_find].
  rewrite IH. destruct (decide (uuid n = k)) as [<-|Hne].
  - destruct (list_find _ _) as [[i x]|] eqn:E; [|by rewrite lookup_insert_eq].
    apply list_find_Some in E as (Hi & Hx & _). apply Inj in Hx as ->. apply lookup_seq in Hi. lia.
  - destruct (list_find _ _) as [[i x]|] eqn:E; cbn; [done|]. by rewrite lookup_insert_ne.
Qed.

Lemma dispatch_nothing t (jobs : gmap string CrontabJob) ids : forall st, (forall id, id ∈ ids -> jobs !! id = None) ->
  (foldl (fun st id => dispatch_due t st jobs id) st ids).2 = st.2.
Proof.
  induction ids as [|id ids IH]; intros st Hn; [done|]. cbn [foldl]. rewrite IH by (intros; apply Hn; by right).
  cbn. by rewrite (Hn id) by left.
Qed.

Definition strangers (s : CronScheduler) (m : gmap string CrontabJob) : Prop :=
  forall k j, s !! k = Some j -> m !! id_ j = None.

Lemma due_scheduled s since now k : k ∈ due_jobs s since now -> exists k' j, s !! k' = Some j /\ id_ j = k.
Proof.
  unfold due_jobs. rewrite list_elem_of_omap. intros (j & [k' Hj]%elem_of_list_jobs & Hd). exists k', j. split; [done|].
  destruct (enabled j), (next_run_after j since); cbn in Hd; try done. case_decide; [by injection Hd|done].
Qed.

Lemma run_nothing : forall readings r l, strangers (scheduler r) (runner_jobs r) -> Forall (eq []) (run r l readings).2.
Proof.
  induction readings as [|[t n] readings IH]; intros r l S; [constructor|]. cbn [run].
  destruct (tick_timeless r l t n) as [A B0].
  assert ((tick r l t n).2 = []) as N.
  { unfold tick. pose proof (dispatch_nothing t (runner_jobs r) (due_jobs (scheduler r) l n) (scheduler r, [])) as Hd.
    destruct (foldl _ _ _). apply Hd. intros id (k' & j & Hj & <-)%due_scheduled. by eapply S. }
  destruct (tick r l t n) as [r1 la]. cbn in A, B0, N. subst la.
  assert (Forall (eq []) (run r1 t readings).2) as F.
  { apply IH. rewrite B0. intros k j Hj. apply (timeless_lookup _ _ k) in A. rewrite Hj in A.
    destruct (scheduler r !! k) as [j'|] eqn:E; [|done]. cbn in A. injection A as -> _ _ _ _. by eapply S. }
  destruct (run r1 t readings) as [r2 re]. by constructor.
Qed.

(** A crontab that loads has distinct ids and valid schedules, and always gives a runner, which schedules every one of
    its jobs under a fresh uuid.  But the runner looks the due uuids up among the crontab's ids: as long as no uuid is
    such an id, no tick ever launches a job. *)
Theorem loaded_crontab_never_runs {D} `{!Disk D} names yaml (vfs vfs' : VfsRouter D) file uuid :
  load names yaml vfs = (vfs', Ok file) ->
  (forall i j, uuid i = uuid j -> i = j) -> (forall i, uuid i ∉ cj_id <$> cs_jobs (cf_spec file)) ->
  NoDup (cj_id <$> cs_jobs (cf_spec file)) /\
  exists r, from_crontab uuid file = Ok r /\
    (forall i job, cs_jobs (cf_spec file) !! i = Some job -> scheduler r !! uuid i = Some (entry_of (uuid i) job)) /\
    (forall k, is_Some (scheduler r !! k) -> exists i, k = uuid i) /\
    forall last readings, Forall (eq []) (run r last readings).2.
Proof.
  intros L Inj Fresh. assert (validate file = Ok ()) as V.
  { unfold load in L. destruct (VfsPath.parse _); [|done]. destruct (Vfs.read _ _ _) as [v b]. injection L as _ L. invert_bind.
    match goal with E : validate _ = Ok ?x |- _ => destruct x; done end. }
  apply validate_jobs_ok in V as (N & _ & F). split; [done|]. unfold from_crontab. rewrite register_ok by done.
  cbn [mbind result_bind]. set (jobs := cs_jobs (cf_spec file)) in *. eexists. split; [done|]. cbn [scheduler runner_jobs].
  assert (forall k j, foldl (fun s p => <[uuid p.1 := entry_of (uuid p.1) p.2]> s) (∅ : gmap string CronJob) (zip (seq 0 (length jobs)) jobs) !! k = Some j ->
    id_ j = k /\ exists i, k = uuid i) as Keys.
  { intros k j. rewrite entries_at by done. destruct (list_find _ _) as [[i x]|] eqn:E; [|by rewrite lookup_empty].
    apply list_find_Some in E as (_ & Hx & _). intros (job & _ & ->)%fmap_Some. split; [done|]. by exists x. }
  split_and!.
  - intros i job Hi. rewrite entries_at by done. destruct (list_find _ _) as [[k x]|] eqn:E.
    + apply list_find_Some in E as (Hx & Hu & _). apply Inj in Hu as ->. apply lookup_seq in Hx as [-> _]. cbn in Hi |- *. by rewrite Hi.
    + apply list_find_None in E. rewrite Forall_forall in E. destruct (E i); [|done].
      apply elem_of_seq. apply lookup_lt_Some in Hi. lia.
  - intros k [j Hj]. by apply (Keys k j).
  - intros last readings. apply run_nothing. cbn. intros k j Hj. destruct (Keys k j Hj) as [-> [i ->]].
    destruct (foldl _ ∅ jobs !! uuid i) eqn:E; [|done]. destruct (jobs_of_ids jobs ∅ (uuid i)) as [[? X]|X]; [by eexists| |].
    + by rewrite lookup_empty in X.
    + by destruct (Fresh i).
Qed.
End Runner.

(** ** A crontab with one job, every minute *)

Module Toy.
#[export] Instance list_order : HashOrder := fun _ m => map_to_list m.
#[export] Instance list_order_laws : HashOrderLaws.
Proof. intros A m. reflexivity. Qed.

(** Schedules are periods in seconds. *)
#[export] Instance every : Schedule := {|
  schedule := Z;
  from_str := fun s => if String.eqb s "0 * * * * *" then Ok 60 else Err "Invalid expression"%string;
  next_after := fun p t => if decide (0 < p) then Some ((t / p + 1) * p) else None |}.
#[export, refine] Instance every_laws : ScheduleLaws := {|
  occurs := fun (p : schedule) u => 0 < (p : Z) /\ exists k, u = k * (p : Z) |}.
Proof.
  - cbn. intros p t u. case_decide; [|done]. intros [= <-]. pose proof (Z.mod_pos_bound t p ltac:(lia)).
    pose proof (Z.div_mod t p ltac:(lia)). split_and!; [nia|done|by eexists|]. intros v Hv (_ & k & ->).
    assert (t / p < k) by (apply Z.div_lt_upper_bound; lia). nia.
  - cbn. intros p t. case_decide; [done|]. intros _ v _ []. done.
Defined.

Definition ingest : CrontabJob := {|
  cj_id := "ingest"; cj_schedule := "* * * * *"; cj_user := "svc"; agent_template := "pipeline"; cj_goal := "Ingest {n} rows";
  args := {["n"%string := JInt 7]}; cj_timeout := 1800; on_failure := Retry;
  retry_policy := {| max_attempts := 3; backoff_sec := 60 |}; timezone := None |}.
Definition crontab : CrontabFile := {|
  api_version := "avix/v1"; cf_kind := "Crontab"; last_updated := 0; cf_spec := {| cs_timezone := "UTC"; cs_jobs := [ingest] |} |}.
Definition uuids (n : nat) : string := ("uuid-" +:+ pretty n)%string.
Definition runner : CronRunner := {|
  scheduler := {[uuids 0 := entry_of (uuids 0) ingest]}; runner_jobs := {["ingest"%string := ingest]}; tick_interval_sec := 30 |}.
Definition on_disk : VfsRouter unit := {|
  mounts := []; mem_mounts := []; tool_registry := None; caller := None;
  default_fs := {["/etc/avix/crontab.yaml" := "crontab"]}%string; disk := () |}.

(** Two failed attempts, then success. *)
#[export] Instance flaky : AgentSpawner nat := {|
  spawn := fun n _ => (Ok ("run-" +:+ pretty n)%string, n);
  wait_for_exit := fun n _ _ => match n with O => (Some Success, O) | 1%nat => (None, O) | S m => (Some (Failure "boom"%string), m) end;
  stop := fun n _ => n |}.
Example flaky_run : (fun r => r.1) <$> run_job (fun _ => "7"%string) ingest 2%nat =
  let q := {| sq_user := "svc"; sq_agent_template := "pipeline"; sq_goal := "Ingest 7 rows"; sq_timeout_sec := 1800 |}%string in
  Some [ASpawn q; AWait "run-2" 1800; ASleep 60; ASpawn q; AWait "run-1" 1800; AStop "run-1"; ASleep 60; ASpawn q; AWait "run-0" 1800]%string.
Proof. vm_compute. reflexivity. Qed.

Lemma due_windows_witness : exists i w, windows 10 [(40, 41); (70, 70)] !! i = Some w /\ w.1 < 60 <= w.2 /\
  uuids 0 ∈ due_jobs (scheduler (run runner 10 (take i [(40, 41); (70, 70)])).1) w.1 w.2.
Proof.
  assert (keyed (scheduler runner)) as K.
  { intros k j. change (scheduler runner) with ({[uuids 0 := entry_of (uuids 0) ingest]} : gmap string CronJob).
    intros [<- <-]%lookup_singleton_Some. reflexivity. }
  destruct (due_windows runner 10 [(40, 41); (70, 70)] (uuids 0) (entry_of (uuids 0) ingest) (60 : @schedule every) K) as [_ D].
  - cbn. lia.
  - vm_compute. reflexivity.
  - reflexivity.
  - vm_compute. reflexivity.
  - destruct (D 60) as (i & w & Hi & Hw & Hd & _).
    + cbn. lia.
    + cbn. split; [lia|]. exists 1. lia.
    + exists i, w. split; [exact Hi|]. split; [exact Hw | exact Hd].
Defined.

Lemma uuids_inj i j : uuids i = uuids j -> i = j.
Proof. unfold uuids. intros E%str_app_inj_l. by apply pretty_nat_inj. Qed.

(** The job is due at the second tick, and not launched. *)
Lemma loaded_crontab_never_runs_witness : exists r, from_crontab uuids crontab = Ok r /\
  due_jobs (scheduler r) 40 70 = [uuids 0] /\ Forall (eq []) (run r 10 [(40, 41); (70, 70)]).2.
Proof.
  assert ((load (fun _ => EmptyString) (fun _ => Ok crontab) on_disk).2 = Ok crontab) as L by (vm_compute; reflexivity).
  destruct (load (fun _ => EmptyString) (fun _ => Ok crontab) on_disk) as [v' f] eqn:E. cbn in L. subst f.
  destruct (loaded_crontab_never_runs _ _ _ _ _ uuids E uuids_inj) as (_ & r & Er & _ & _ & N).
  - intros i Hi%list_elem_of_In. cbn in Hi. destruct Hi as [Hi|[]]. discriminate Hi.
  - exists r. split; [exact Er|]. split; [|apply N]. assert (Ok r = from_crontab uuids crontab) as Er' by (rewrite Er; reflexivity).
    vm_compute in Er'. injection Er' as ->. vm_compute. reflexivity.
Defined.
End Toy.
