(* ===== verification/Store.v ===== *)
(** * The record stores: redb tables of JSON documents

    [session/persistence.rs], [session/store.rs], [invocation/store.rs] and
    [history/store.rs] keep one JSON document per key in a redb table, with the same
    sequence of calls around every operation.  redb is an interface: its transactions, each
    call fallible, with laws that say a committed transaction is the new content, a failed one
    changes nothing and a reader sees the committed rows in the order of their keys.  serde's
    codec of a record type is another.  The file ends with the facts the stores share: what
    reading, writing and listing do to the records a table holds. *)

From S2P Require Import Prelude Types.

(** ** Rows in key order *)

Definition sorted_rows {A} (m : gmap string A) : list (string * A) :=
  omap (fun k => pair k <$> m !! k) (str_sort (map_to_list m).*1).
Definition sorted_values {A} (m : gmap string A) : list A := (sorted_rows m).*2.

Lemma sorted_rows_perm {A} (m : gmap string A) : sorted_rows m ≡ₚ map_to_list m.
Proof.
  unfold sorted_rows. rewrite str_sort_perm.
  enough (forall l, (forall x, x ∈ l -> m !! x.1 = Some x.2) ->
            omap (fun k => pair k <$> m !! k) l.*1 = l) as ->; [done| |].
  - intros [k v]. apply elem_of_map_to_list.
  - intros l Hl. induction l as [|[k v] l IH]; [done|]. cbn.
    assert (m !! k = Some v) as -> by (apply (Hl (k, v)); set_solver).
    cbn. f_equal. apply IH. set_solver.
Qed.

Lemma elem_of_sorted_values {A} (m : gmap string A) x :
  x ∈ sorted_values m <-> exists k, m !! k = Some x.
Proof.
  unfold sorted_values. rewrite sorted_rows_perm, list_elem_of_fmap. split.
  - intros ([k v] & -> & H). exists k. by apply elem_of_map_to_list in H.
  - intros [k H]. exists (k, x). by rewrite elem_of_map_to_list.
Qed.

(** ** redb *)

Class Redb (Db : Type) : Type := {
  WriteTxn : Type;
  ReadTxn : Type;
  ReadTable : Type;
  begin_write : Db -> result string WriteTxn;
  (** opening a table for writing creates it *)
  open_table : WriteTxn -> string -> result string WriteTxn;
  table_insert : WriteTxn -> string -> string -> string -> result string WriteTxn;
  table_remove : WriteTxn -> string -> string -> result string WriteTxn;
  commit : Db -> WriteTxn -> result string unit * Db;
  begin_read : Db -> result string ReadTxn;
  open_read : ReadTxn -> string -> result string ReadTable;
  table_get : ReadTable -> string -> result string (option string);
  table_iter : ReadTable -> result string (list (result string (string * string)))
}.

Notation tables_t := (gmap string (gmap string string)).
Definition table_of (n : string) (m : tables_t) : gmap string string := default ∅ (m !! n).

(** What a transaction and a reader see, and [up]: the file can be read and written. *)
Class RedbLaws (Db : Type) `{!Redb Db} : Type := {
  tables : Db -> tables_t;
  wview : WriteTxn -> tables_t;
  rview : ReadTxn -> tables_t;
  rows : ReadTable -> gmap string string;
  begin_write_view d t : begin_write d = Ok t -> wview t = tables d;
  open_table_view t n t' : open_table t n = Ok t' -> wview t' = <[n := table_of n (wview t)]> (wview t);
  insert_view t n k v t' : table_insert t n k v = Ok t' ->
    wview t' = <[n := <[k := v]> (table_of n (wview t))]> (wview t);
  remove_view t n k t' : table_remove t n k = Ok t' ->
    wview t' = <[n := delete k (table_of n (wview t))]> (wview t);
  commit_ok d t d' : commit d t = (Ok (), d') -> tables d' = wview t;
  commit_err d t e d' : commit d t = (Err e, d') -> tables d' = tables d;
  begin_read_view d r : begin_read d = Ok r -> rview r = tables d;
  open_read_view r n tb : open_read r n = Ok tb -> rview r !! n = Some (rows tb);
  get_view tb k o : table_get tb k = Ok o -> o = rows tb !! k;
  iter_view tb l : table_iter tb = Ok (map Ok l) -> l = sorted_rows (rows tb);
  up : Db -> Prop;
  up_open d n : up d -> exists t t' d',
    begin_write d = Ok t /\ open_table t n = Ok t' /\ commit d t' = (Ok (), d') /\ up d';
  up_insert d n k v : up d -> exists t t1 t2 d',
    begin_write d = Ok t /\ open_table t n = Ok t1 /\ table_insert t1 n k v = Ok t2 /\
    commit d t2 = (Ok (), d') /\ up d';
  up_remove d n k : up d -> exists t t1 t2 d',
    begin_write d = Ok t /\ open_table t n = Ok t1 /\ table_remove t1 n k = Ok t2 /\
    commit d t2 = (Ok (), d') /\ up d';
  up_read d n : up d -> is_Some (tables d !! n) -> exists r tb,
    begin_read d = Ok r /\ open_read r n = Ok tb /\ (forall k, exists o, table_get tb k = Ok o) /\
    exists l, table_iter tb = Ok (map Ok l)
}.

(** ** The calls around every operation *)

(** [.map_err(|e| AvixError::ConfigParse(e.to_string()))?] *)
Definition cfg {A} (r : result string A) : result AvixError A := map_err ConfigParse r.

Section Txn.
Context {Db : Type} `{!Redb Db}.

(** Commit the transaction that was prepared, unless a call before failed: a dropped transaction is
    aborted. *)
Definition finish (d : Db) (t : result AvixError WriteTxn) : result AvixError unit * Db :=
  match t with
  | Err e => (Err e, d)
  | Ok t => let '(r, d') := commit d t in (cfg r, d')
  end.

Definition db_open (d : Db) (table : string) : result AvixError unit * Db :=
  finish d (t ← cfg (begin_write d); cfg (open_table t table)).
Definition db_insert (d : Db) (table key json : string) : result AvixError unit * Db :=
  finish d (t ← cfg (begin_write d); t ← cfg (open_table t table); cfg (table_insert t table key json)).
Definition db_remove (d : Db) (table key : string) : result AvixError unit * Db :=
  finish d (t ← cfg (begin_write d); t ← cfg (open_table t table); cfg (table_remove t table key)).
Definition db_get (d : Db) (table key : string) : result AvixError (option string) :=
  r ← cfg (begin_read d); tb ← cfg (open_read r table); cfg (table_get tb key).

End Txn.

(** ** Records: [serde_json::to_string] and [serde_json::from_str] of a type *)

Class Serde (T : Type) : Type := {
  to_string : T -> result string string;
  from_str : string -> result string T
}.
(** Some values do not survive the text (a float inside a [serde_json::Value], say); [fits] are the ones
    that do. *)
Class SerdeLaws (T : Type) `{!Serde T} : Type := {
  fits : T -> Prop;
  from_to_string x : fits x -> exists s, to_string x = Ok s /\ from_str s = Ok x
}.
(** Records of strings, integers, times and enums always do. *)
Class SerdeTotal (T : Type) `{!Serde T, !SerdeLaws T} : Prop := fits_all (x : T) : fits x.

Definition decode {T} `{!Serde T} (s : string) : option T :=
  match from_str s with Ok x => Some x | Err _ => None end.

Section Records.
Context {Db : Type} `{!Redb Db} {T : Type} `{!Serde T}.

Definition put_record (d : Db) (table key : string) (x : T) : result AvixError unit * Db :=
  match cfg (to_string x) with
  | Err e => (Err e, d)
  | Ok j => db_insert d table key j
  end.
Definition get_record (d : Db) (table key : string) : result AvixError (option T) :=
  o ← db_get d table key;
  match o with
  | Some v => x ← cfg (from_str v); Ok (Some x)
  | None => Ok None
  end.
(** [for item in table.iter()? { let (_, v) = item?; records.push(from_str(v)?) }] *)
Definition read_item (item : result string (string * string)) : result AvixError T :=
  kv ← cfg item; cfg (from_str kv.2).
Definition list_records (d : Db) (table : string) : result AvixError (list T) :=
  r ← cfg (begin_read d); tb ← cfg (open_read r table); items ← cfg (table_iter tb); mapM read_item items.

End Records.

(** ** What the operations do to the rows *)

Section Rows.
Context {Db : Type} `{!Redb Db, !RedbLaws Db}.

Lemma db_insert_outcome (d d' : Db) n k v r :
  db_insert d n k v = (r, d') ->
  (r = Ok () /\ tables d' = <[n := <[k := v]> (table_of n (tables d))]> (tables d)) \/
  (is_ok r = false /\ tables d' = tables d).
Proof.
  unfold db_insert, finish, cfg.
  destruct (begin_write d) as [t|e] eqn:E1; cbn; [|intros [= <- <-]; by right].
  destruct (open_table t n) as [t1|e] eqn:E2; cbn; [|intros [= <- <-]; by right].
  destruct (table_insert t1 n k v) as [t2|e] eqn:E3; cbn; [|intros [= <- <-]; by right].
  destruct (commit d t2) as [[[]|e] d2] eqn:E4; cbn; intros [= <- <-]; [left|right].
  - split; [done|]. rewrite (commit_ok _ _ _ E4), (insert_view _ _ _ _ _ E3),
      (open_table_view _ _ _ E2), (begin_write_view _ _ E1).
    unfold table_of. by rewrite lookup_insert_eq, insert_insert_eq.
  - split; [done|]. by apply commit_err in E4.
Qed.

Lemma db_insert_up (d : Db) n k v : up d -> exists d', db_insert d n k v = (Ok (), d') /\ up d' /\
  tables d' = <[n := <[k := v]> (table_of n (tables d))]> (tables d).
Proof.
  intros H. destruct (up_insert d n k v H) as (t & t1 & t2 & d' & E1 & E2 & E3 & E4 & U).
  assert (db_insert d n k v = (Ok (), d')) as E.
  { unfold db_insert, finish. rewrite E1. cbn. rewrite E2. cbn. rewrite E3. cbn. by rewrite E4. }
  exists d'. split; [done|split; [done|]].
  destruct (db_insert_outcome _ _ _ _ _ _ E) as [[_ ->]|[? _]]; done.
Qed.

Lemma db_remove_up (d : Db) n k : up d -> exists d', db_remove d n k = (Ok (), d') /\ up d' /\
  tables d' = <[n := delete k (table_of n (tables d))]> (tables d).
Proof.
  intros H. destruct (up_remove d n k H) as (t & t1 & t2 & d' & E1 & E2 & E3 & E4 & U).
  exists d'. split; [|split; [done|]].
  { unfold db_remove, finish. rewrite E1. cbn. rewrite E2. cbn. rewrite E3. cbn. by rewrite E4. }
  rewrite (commit_ok _ _ _ E4), (remove_view _ _ _ _ E3), (open_table_view _ _ _ E2), (begin_write_view _ _ E1).
  unfold table_of. by rewrite lookup_insert_eq, insert_insert_eq.
Qed.

Lemma db_open_up (d : Db) n : up d -> exists d', db_open d n = (Ok (), d') /\ up d' /\
  tables d' = <[n := table_of n (tables d)]> (tables d).
Proof.
  intros H. destruct (up_open d n H) as (t & t1 & d' & E1 & E2 & E3 & U).
  exists d'. split; [|split; [done|]].
  { unfold db_open, finish. rewrite E1. cbn. rewrite E2. cbn. by rewrite E3. }
  by rewrite (commit_ok _ _ _ E3), (open_table_view _ _ _ E2), (begin_write_view _ _ E1).
Qed.

Lemma db_get_up (d : Db) n k : up d -> is_Some (tables d !! n) -> db_get d n k = Ok (table_of n (tables d) !! k).
Proof.
  intros H Hn. destruct (up_read d n H Hn) as (r & tb & E1 & E2 & E3 & _).
  destruct (E3 k) as [o Eo]. unfold db_get. rewrite E1. cbn. rewrite E2. cbn. rewrite Eo. cbn.
  apply open_read_view in E2. rewrite (begin_read_view _ _ E1) in E2.
  unfold table_of. rewrite E2. cbn. by rewrite (get_view _ _ _ Eo).
Qed.

End Rows.

(** ** The records a table holds *)

Section Contents.
Context {Db : Type} `{!Redb Db, !RedbLaws Db} (T : Type) `{!Serde T, !SerdeLaws T}.

Definition records (d : Db) (n : string) : gmap string T := omap decode (table_of n (tables d)).

(** The file is up, the table exists and every row is a document of the type. *)
Record clean (d : Db) (n : string) : Prop := {
  clean_up : up d;
  clean_table : is_Some (tables d !! n);
  clean_rows : map_Forall (fun _ s => is_Some (decode (T := T) s)) (table_of n (tables d))
}.

Lemma lookup_records d n k :
  clean d n ->
  match table_of n (tables d) !! k with
  | Some s => exists x, from_str s = Ok x /\ records d n !! k = Some x
  | None => records d n !! k = None
  end.
Proof.
  intros [_ _ Hr]. unfold records. rewrite lookup_omap.
  destruct (_ !! k) as [s|] eqn:E; [|done]. cbn.
  destruct (Hr k s E) as [x Hx]. unfold decode in *. destruct (from_str s) as [y|]; [|done]. by exists y.
Qed.

Lemma get_record_clean d n k : clean d n -> get_record d n k = Ok (records d n !! k).
Proof.
  intros H. unfold get_record. rewrite db_get_up by (apply H). cbn.
  pose proof (lookup_records d n k H) as L. destruct (_ !! k) as [s|].
  - destruct L as (x & E & ->). by rewrite E.
  - by rewrite L.
Qed.

Lemma put_record_clean d n k (x : T) :
  clean d n -> fits x -> exists d', put_record d n k x = (Ok (), d') /\ clean d' n /\
    records d' n = <[k := x]> (records d n).
Proof.
  intros [U Hn Hr] Hx. destruct (from_to_string x Hx) as (s & E & D).
  destruct (db_insert_up d n k s U) as (d' & Ei & U' & Et).
  exists d'. unfold put_record. rewrite E. split; [exact Ei|].
  assert (table_of n (tables d') = <[k := s]> (table_of n (tables d))) as Eo.
  { unfold table_of at 1. by rewrite Et, lookup_insert_eq. }
  split; [constructor|].
  - done.
  - rewrite Et, lookup_insert_eq. by eexists.
  - rewrite Eo. apply map_Forall_insert_2; [|done]. unfold decode. rewrite D. by eexists.
  - unfold records. rewrite Eo. apply omap_insert_Some. unfold decode. by rewrite D.
Qed.

Lemma db_remove_clean d n k :
  clean d n -> exists d', db_remove d n k = (Ok (), d') /\ clean d' n /\
    records d' n = delete k (records d n).
Proof.
  intros [U Hn Hr]. destruct (db_remove_up d n k U) as (d' & Ei & U' & Et).
  exists d'. split; [done|].
  assert (table_of n (tables d') = delete k (table_of n (tables d))) as Eo.
  { unfold table_of at 1. by rewrite Et, lookup_insert_eq. }
  split; [constructor|].
  - done.
  - rewrite Et, lookup_insert_eq. by eexists.
  - rewrite Eo. by apply map_Forall_delete.
  - unfold records. rewrite Eo. apply omap_delete.
Qed.

(** Opening the store on an existing or an empty file leaves its records. *)
Lemma db_open_clean d n :
  up d -> map_Forall (fun _ s => is_Some (decode (T := T) s)) (table_of n (tables d)) ->
  exists d', db_open d n = (Ok (), d') /\ clean d' n /\ records d' n = records d n.
Proof.
  intros U Hr. destruct (db_open_up d n U) as (d' & Ei & U' & Et). exists d'. split; [done|].
  assert (table_of n (tables d') = table_of n (tables d)) as Eo.
  { unfold table_of at 1. by rewrite Et, lookup_insert_eq. }
  split; [constructor|].
  - done.
  - rewrite Et, lookup_insert_eq. by eexists.
  - by rewrite Eo.
  - unfold records. by rewrite Eo.
Qed.

Lemma read_item_decode k s (x : T) : decode s = Some x -> read_item (Ok (k, s)) = Ok x.
Proof. unfold decode, read_item, cfg. cbn. destruct (from_str s); naive_solver. Qed.

Lemma mapM_cons_ok {A B} (f : A -> result AvixError B) x y l k :
  f x = Ok y -> mapM f l = Ok k -> mapM f (x :: l) = Ok (y :: k).
Proof.
  intros E1 E2. change (mapM f (x :: l)) with (y ← f x; k ← mapM f l; Ok (y :: k)).
  rewrite E1. cbn [mbind result_bind]. by rewrite E2.
Qed.

Lemma mapM_decode (raw : gmap string string) (ks : list string) :
  map_Forall (fun _ s => is_Some (decode (T := T) s)) raw ->
  mapM read_item (map Ok (omap (fun k => pair k <$> raw !! k) ks)) =
    Ok (omap (fun k => pair k <$> (omap decode raw : gmap string T) !! k) ks).*2.
Proof.
  intros Hr. induction ks as [|k ks IH]; [done|]. cbn [omap list_omap]. rewrite lookup_omap.
  destruct (raw !! k) as [s|] eqn:E; cbn [fmap option_fmap option_map mbind option_bind]; [|exact IH].
  destruct (Hr k s E) as [x Hx]. rewrite Hx. cbn [fmap option_fmap option_map list_fmap].
  by apply mapM_cons_ok; [apply read_item_decode|].
Qed.

Lemma records_keys d n : clean d n ->
  (map_to_list (records d n)).*1 ≡ₚ (map_to_list (table_of n (tables d))).*1.
Proof.
  intros H. apply NoDup_Permutation; [apply NoDup_fst_map_to_list..|]. intros k.
  rewrite !list_elem_of_fmap. pose proof (lookup_records d n k H) as L. split.
  - intros ([k' x] & -> & Hx). apply elem_of_map_to_list in Hx. cbn in *. rewrite Hx in L.
    destruct (_ !! k') as [s|] eqn:E; [|done]. exists (k', s). by rewrite elem_of_map_to_list.
  - intros ([k' s] & -> & Hs). apply elem_of_map_to_list in Hs. cbn in *. rewrite Hs in L.
    destruct L as (x & _ & Hx). exists (k', x). by rewrite elem_of_map_to_list.
Qed.

Lemma list_records_clean d n : clean d n -> list_records d n = Ok (sorted_values (records d n)).
Proof.
  intros H. destruct (up_read d n (clean_up _ _ H) (clean_table _ _ H)) as (r & tb & E1 & E2 & _ & l & E3).
  unfold list_records. rewrite E1. cbn. rewrite E2. cbn. rewrite E3. cbn [cfg map_err mbind result_bind].
  apply open_read_view in E2. rewrite (begin_read_view _ _ E1) in E2.
  assert (rows tb = table_of n (tables d)) as Er by (unfold table_of; by rewrite E2).
  rewrite (iter_view _ _ E3), Er. unfold sorted_values, sorted_rows at 2.
  rewrite (records_keys d n H). apply mapM_decode, H.
Qed.

End Contents.
#[global] Hint Resolve clean_up clean_table clean_rows : avix.

(** ** Concrete instances: a database in memory, and a codec for countable types *)

Module Mem.

#[export] Instance mem_redb : Redb tables_t := {|
  WriteTxn := tables_t; ReadTxn := tables_t; ReadTable := gmap string string;
  begin_write d := Ok d;
  open_table t n := Ok (<[n := table_of n t]> t);
  table_insert t n k v := Ok (<[n := <[k := v]> (table_of n t)]> t);
  table_remove t n k := Ok (<[n := delete k (table_of n t)]> t);
  commit _ t := (Ok (), t);
  begin_read d := Ok d;
  open_read r n := ok_or "table does not exist"%string (r !! n);
  table_get tb k := Ok (tb !! k);
  table_iter tb := Ok (map Ok (sorted_rows tb))
|}.

#[export] Program Instance mem_redb_laws : RedbLaws tables_t := {|
  tables d := d; wview t := t; rview r := r; rows tb := tb; up _ := True |}.
Solve Obligations with (cbn; naive_solver).
Next Obligation. cbn. intros r n tb H. by apply ok_or_Ok in H. Qed.
Next Obligation.
  cbn. intros tb l [= H]. revert H. generalize (sorted_rows tb) as k.
  induction l as [|x l IH]; intros [|y k]; try done. cbn. intros [= -> H]. f_equal. by apply IH.
Qed.
Next Obligation. cbn. intros d n _ [tb E]. exists d, tb. rewrite E. naive_solver. Qed.

(** A document is the binary code of the value. *)
Fixpoint pos_text (p : positive) : string :=
  match p with xH => "" | xO q => String "0" (pos_text q) | xI q => String "1" (pos_text q) end.
Fixpoint text_pos (s : string) : positive :=
  match s with
  | "" => xH
  | String c s' => if decide (c = "0"%char) then xO (text_pos s') else xI (text_pos s')
  end%string.
Lemma text_pos_text p : text_pos (pos_text p) = p.
Proof. induction p as [p IH|p IH|]; cbn; by rewrite ?IH. Qed.

Section Coded.
Context {T : Type} `{Countable T}.
Definition coded_serde : Serde T := {|
  to_string x := Ok (pos_text (countable.encode x));
  from_str s := ok_or "malformed"%string (countable.decode (text_pos s))
|}.
Program Definition coded_laws : @SerdeLaws T coded_serde := {| fits _ := True |}.
Next Obligation.
  cbn. intros x _. eexists. split; [done|]. by rewrite text_pos_text, countable.decode_encode.
Qed.
End Coded.

Lemma mem_clean (T : Type) `{!Serde T, !SerdeLaws T} (n : string) :
  clean T ({[n := ∅]} : tables_t) n /\ records T ({[n := ∅]} : tables_t) n = ∅.
Proof.
  assert (table_of n ({[n := ∅]} : tables_t) = ∅) as E.
  { unfold table_of. by rewrite lookup_singleton_eq. }
  split; [constructor; [done| |]|].
  - cbn. rewrite lookup_singleton_eq. by eexists.
  - cbn. rewrite E. apply map_Forall_empty.
  - unfold records. cbn. rewrite E. apply omap_empty.
Qed.

End Mem.
