(* ===== verification/Memory.v ===== *)
(** * The memory service

    Models [memory_svc/]: the records ([schema.rs]), their files ([store.rs], [vfs_layout.rs]), the ranking
    ([search.rs]), the service and its tools ([service.rs], [tools/*.rs]), grants ([sharing.rs]) and the sweeps
    ([gc.rs], [sharing.rs]); and of [executor/memory.rs] the memory context of a new agent.

    The service works on the VFS, so an operation is a state-passing function with an error and a panic
    ([MemM]).  YAML is the class [Serde] of each document; the clock, fresh uuids, chrono's texts of an
    instant, Unicode's tables and the logarithm are arguments; a directory is listed in some order. *)

From Stdlib Require Import SpecFloat.
From S2P Require Import Prelude Floats Types Token Text Vfs Json Store.
Local Open Scope Z_scope.

(** ** Data *)

Inductive MemoryRecordType : Type := Episodic | Semantic.
Inductive MemoryOutcome : Type := OutSuccess | OutPartial | OutFailure.
Inductive MemoryConfidence : Type := High | Medium | Low.
Inductive MemoryGrantScope : Type := ScSession | ScPermanent.
#[global] Instance MemoryGrantScope_eq_dec : EqDecision MemoryGrantScope.
Proof. solve_decision. Defined.

Record MemoryRecordIndex : Type := { vector_model : option string; vector_updated_at : option Z; fulltext_updated_at : option Z }.
Definition index_default : MemoryRecordIndex := {| vector_model := None; vector_updated_at := None; fulltext_updated_at := None |}.
Record MemoryRecordMetadata : Type := {
  mr_id : string; record_type : MemoryRecordType; mr_agent_name : string; mr_agent_pid : Z; mr_owner : string;
  mr_created_at : Z; mr_updated_at : Z; mr_session_id : string; mr_tags : list string; mr_pinned : bool }.
Record MemoryRecordSpec : Type := {
  mr_content : string; outcome : option MemoryOutcome; related_goal : option string; tools_used : list string;
  mr_key : option string; confidence : option MemoryConfidence; ttl_days : option Z; mr_index : MemoryRecordIndex }.
Record MemoryRecord : Type := { mr_api_version : string; mr_kind : string; mr_metadata : MemoryRecordMetadata; mr_spec : MemoryRecordSpec }.
Definition record_new (m : MemoryRecordMetadata) (s : MemoryRecordSpec) : MemoryRecord :=
  {| mr_api_version := "avix/v1"; mr_kind := "MemoryRecord"; mr_metadata := m; mr_spec := s |}.

Record UserPreferenceStructured : Type := {
  output_format : option string; preferred_length : option string; cite_sources : option string;
  tone_preference : option string; pref_timezone : option string; primary_language : option string;
  expertise_areas : list string; proactive_updates : option bool }.
Record PreferenceCorrection : Type := { corrected_at : Z; correction_context : string; correction : string }.
Record UserPreferenceModelMetadata : Type := { up_agent_name : string; up_owner : string; up_updated_at : Z }.
Record UserPreferenceModelSpec : Type := {
  up_summary : string; structured : UserPreferenceStructured; corrections : list PreferenceCorrection }.
Record UserPreferenceModel : Type := {
  up_api_version : string; up_kind : string; up_metadata : UserPreferenceModelMetadata; up_spec : UserPreferenceModelSpec }.
Definition model_new (m : UserPreferenceModelMetadata) (s : UserPreferenceModelSpec) : UserPreferenceModel :=
  {| up_api_version := "avix/v1"; up_kind := "UserPreferenceModel"; up_metadata := m; up_spec := s |}.
Definition structured_default : UserPreferenceStructured := {|
  output_format := None; preferred_length := None; cite_sources := None; tone_preference := None; pref_timezone := None;
  primary_language := None; expertise_areas := []; proactive_updates := None |}.

Record MemoryGrantParty : Type := { gp_agent_name : string; gp_owner : string }.
Record MemoryGrantMetadata : Type := { gr_id : string; granted_at : Z; granted_by : string; gr_hil_id : string }.
Record MemoryGrantSpec : Type := {
  grantor : MemoryGrantParty; grantee : MemoryGrantParty; gr_records : list string; gr_scope : MemoryGrantScope;
  gr_session_id : string; gr_expires_at : option Z }.
Record MemoryGrant : Type := { gr_api_version : string; gr_kind : string; gr_metadata : MemoryGrantMetadata; gr_spec : MemoryGrantSpec }.
Definition grant_new (m : MemoryGrantMetadata) (s : MemoryGrantSpec) : MemoryGrant :=
  {| gr_api_version := "avix/v1"; gr_kind := "MemoryGrant"; gr_metadata := m; gr_spec := s |}.

Record MemorySvcStatus : Type := {
  healthy : bool; total_episodic_records : Z; total_semantic_records : Z; active_session_grants : Z; ss_updated_at : Z }.
Record CallerContext : Type := {
  ca_pid : Z; ca_agent_name : string; ca_owner : string; ca_session_id : string; ca_granted_tools : list string }.

(** *** Paths *)

Definition memory_base (owner agent : string) : string := ("/users/" +:+ owner +:+ "/memory/" +:+ agent)%string.
Definition episodic_dir (owner agent : string) : string := (memory_base owner agent +:+ "/episodic")%string.
Definition semantic_dir (owner agent : string) : string := (memory_base owner agent +:+ "/semantic")%string.
Definition vfs_path_semantic (owner agent key : string) : string := (semantic_dir owner agent +:+ "/" +:+ key +:+ ".yaml")%string.
Definition preference_path (owner agent : string) : string := (memory_base owner agent +:+ "/preferences/user-model.yaml")%string.
Definition grant_path (owner agent id : string) : string := (memory_base owner agent +:+ "/grants/" +:+ id +:+ ".yaml")%string.
Definition memory_svc_status_path : string := "/proc/services/memory/status.yaml".
Definition memory_agent_stats_path (agent : string) : string := ("/proc/services/memory/agents/" +:+ agent +:+ "/stats.yaml")%string.
Definition agent_grants_dir (agent : string) : string := ("/proc/services/memory/agents/" +:+ agent +:+ "/grants")%string.
Definition memory_agent_grants_path (agent id : string) : string := (agent_grants_dir agent +:+ "/" +:+ id +:+ ".yaml")%string.
(** The first eight of the 32 hexadecimal digits of a uuid. *)
Definition new_memory_id (uuid : string) : string := ("mem-" +:+ str_take 8 uuid)%string.

Definition ends_with (suffix s : string) : bool := bool_decide (str_drop (String.length s - String.length suffix) s = suffix).
(** [list_records] and the sweeps look at the YAML files only. *)
Definition is_yaml (entry : string) : bool := ends_with ".yaml" entry.

(** *** Documents as JSON *)

Definition record_type_str (t : MemoryRecordType) : string := match t with Episodic => "episodic" | Semantic => "semantic" end.
Definition outcome_of (s : string) : option MemoryOutcome :=
  if String.eqb s "success" then Some OutSuccess else if String.eqb s "partial" then Some OutPartial
  else if String.eqb s "failure" then Some OutFailure else None.
Definition confidence_str (c : MemoryConfidence) : string := match c with High => "high" | Medium => "medium" | Low => "low" end.
Definition confidence_of (s : string) : option MemoryConfidence :=
  if String.eqb s "high" then Some High else if String.eqb s "medium" then Some Medium
  else if String.eqb s "low" then Some Low else None.

(** ** Ranking *)

(** Unicode's tables beyond ASCII, for one character and for a text. *)
Class UnicodeText : Type := { alnum_wide : string -> bool; lower_wide : string -> string }.

Definition is_ascii (c : ascii) : bool := byte_in 0 0x7F c.
Definition ascii_alnum (c : ascii) : bool := byte_in 48 57 c || byte_in 65 90 c || byte_in 97 122 c.
Definition ascii_lower (c : ascii) : ascii := if byte_in 65 90 c then Ascii.ascii_of_N (byte_val c + 32) else c.
Fixpoint all_ascii (s : string) : bool := match s with EmptyString => true | String c t => is_ascii c && all_ascii t end.
Fixpoint lower_ascii (s : string) : string := match s with EmptyString => EmptyString | String c t => String (ascii_lower c) (lower_ascii t) end.

Definition STOP_WORDS : list string :=
  ["a"; "an"; "the"; "is"; "in"; "on"; "at"; "of"; "to"; "and"; "or"; "but"; "it"; "its"; "be"; "was"; "were"; "are";
   "this"; "that"; "with"; "for"; "as"; "by"; "from"; "have"; "has"; "had"; "not"; "do"; "did"; "so"; "if"; "up"; "out";
   "no"; "we"; "he"; "she"; "they"; "i"; "my"; "me"; "you"; "your"; "our"; "their"]%string.
Definition f64_1_2 : f64 := S754_finite false 5404319552844595 (-52).
Definition f64_0_75 : f64 := S754_finite false 6755399441055744 (-53).
Definition f64_0_5 : f64 := S754_finite false 4503599627370496 (-53).
Definition fadd (a b : f64) : f64 := SFadd 53 1024 a b.
Definition fsub (a b : f64) : f64 := SFsub 53 1024 a b.
Definition fmul (a b : f64) : f64 := SFmul 53 1024 a b.
Definition fdiv (a b : f64) : f64 := SFdiv 53 1024 a b.
Definition one : f64 := f64_of_int 1.

Section Search.
Context `{!UnicodeText} (ln : f64 -> f64).

Definition to_lowercase (s : string) : string := if all_ascii s then lower_ascii s else lower_wide s.
(** The bytes of the character at the head when it is not alphanumeric, 0 otherwise. *)
Definition separator_len (s : string) : nat :=
  match s with
  | EmptyString => 0
  | String c t =>
      if is_ascii c then if ascii_alnum c then 0 else 1
      else match utf8_step c t with Char n => if alnum_wide (str_take n s) then 0 else n | _ => 1 end
  end.
Definition char_len (s : string) : nat :=
  match s with EmptyString => 0 | String c t => match utf8_step c t with Char n => n | _ => 1 end end.
(** [text.split(|c| !c.is_alphanumeric())]; [skip] bytes belong to a separator, [keep] to a character of [cur]. *)
Fixpoint split_alnum (skip keep : nat) (cur s : string) : list string :=
  match s with
  | EmptyString => [cur]
  | String c t =>
      match skip, keep with
      | S k, _ => split_alnum k 0 cur t
      | O, S k => split_alnum 0 k (cur +:+ String c EmptyString)%string t
      | O, O => match separator_len s with
                | O => split_alnum 0 (char_len s - 1) (cur +:+ String c EmptyString)%string t
                | S k => cur :: split_alnum k 0 EmptyString t
                end
      end
  end.
Definition kept (t : string) : bool := negb (String.eqb t EmptyString) && negb (list_contains t STOP_WORDS).
Definition tokenize (text : string) : list string :=
  base.filter (fun t => kept t = true) (to_lowercase <$> split_alnum 0 0 EmptyString text).

Definition count_of (n : nat) : f64 := f64_of_int (Z.of_nat n).
Definition occurrences (t : string) (doc : list string) : nat := length (base.filter (eq t) doc).
Definition idf (docs : list (list string)) (term : string) : f64 :=
  let n := count_of (length docs) in
  let df := count_of (length (base.filter (fun d => term ∈ d) docs)) in
  ln (fadd (fdiv (fadd (fsub n df) f64_0_5) (fadd df f64_0_5)) one).
Definition term_score (docs : list (list string)) (avgdl : f64) (doc : list string) (term : string) : f64 :=
  let tf := count_of (occurrences term doc) in
  fdiv (fmul (idf docs term) (fmul tf (fadd f64_1_2 one)))
    (fadd tf (fmul f64_1_2 (fadd (fsub one f64_0_75) (fdiv (fmul f64_0_75 (count_of (length doc))) (f64_max avgdl one))))).
Definition doc_score (docs : list (list string)) (avgdl : f64) (query : list string) (doc : list string) : f64 :=
  foldl (fun acc t => fadd acc (term_score docs avgdl doc t)) (S754_zero true) query.

(** [sort_by] with the score descending: stable, and NaN compares equal to everything. *)
Fixpoint insert_desc {A} (x : f64 * A) (l : list (f64 * A)) : list (f64 * A) :=
  match l with
  | [] => [x]
  | y :: l' => if f64_lt y.1 x.1 then x :: l else y :: insert_desc x l'
  end.
Definition sort_desc {A} (l : list (f64 * A)) : list (f64 * A) := foldl (fun acc x => insert_desc x acc) [] l.

Definition bm25_rank (records : list MemoryRecord) (query : string) (limit : nat) : list MemoryRecord :=
  let terms := tokenize query in
  if bool_decide (records = []) || is_blank query || bool_decide (terms = []) then []
  else
    let docs := (fun r => tokenize (mr_content (mr_spec r))) <$> records in
    let avgdl := fdiv (count_of (sum_list (length <$> docs))) (count_of (length docs)) in
    let scored := sort_desc (zip (doc_score docs avgdl terms <$> docs) records) in
    take limit (base.filter (fun x => f64_lt (S754_zero false) x.1 = true) scored).*2.
End Search.

(** ** The service's monad: the VFS is threaded, an operation fails or panics ([None]) *)

Definition MemM (D A : Type) : Type := VfsRouter D -> VfsRouter D * option (result AvixError A).
Definition mem_ret {D A} (a : A) : MemM D A := fun v => (v, Some (Ok a)).
Definition mem_bind {D A B} (m : MemM D A) (f : A -> MemM D B) : MemM D B := fun v =>
  match m v with
  | (v, Some (Ok a)) => f a v
  | (v, Some (Err e)) => (v, Some (Err e))
  | (v, None) => (v, None)
  end.
#[global] Instance MemM_bind {D} : MBind (MemM D) := fun A B f m => mem_bind m f.
Definition mem_lift {D A} (r : result AvixError A) : MemM D A := fun v => (v, Some r).
Definition mem_opt {D A} (o : option A) : MemM D A := fun v => (v, Ok <$> o).
(** The result as a value: [match], [if let Ok], [unwrap_or_default]. *)
Definition mem_try {D A} (m : MemM D A) : MemM D (result AvixError A) := fun v =>
  let '(v, r) := m v in (v, Ok <$> r).

Lemma mem_bind_run {D A B} (m : MemM D A) (f : A -> MemM D B) v v' a : m v = (v', Some (Ok a)) -> (m ≫= f) v = f a v'.
Proof. unfold mbind, MemM_bind, mem_bind. by intros ->. Qed.
Lemma mem_bind_assoc {D A B C} (m : MemM D A) (k : A -> MemM D B) (g : B -> MemM D C) v :
  ((m ≫= k) ≫= g) v = (m ≫= (fun a => k a ≫= g)) v.
Proof. unfold mbind, MemM_bind, mem_bind. by destruct (m v) as [v1 [[a|e]|]]. Qed.


Section Service.
Context {D : Type} `{!Disk D, !HashOrder}.
Context `{!Serde MemoryRecord, !Serde UserPreferenceModel, !Serde MemoryGrant, !Serde MemorySvcStatus, !UnicodeText}.
Context (yaml_of_names : list string -> string).
(** chrono's formats: ["%Y-%m-%dT%H:%M:%SZ"], ["%Y-%m-%d"] and RFC 3339; [f64::ln]. *)
Context (stamp day rfc3339 : Z -> string) (ln : f64 -> f64).
Notation M := (MemM D).

Definition vpath (s : string) : M string := mem_lift (map_err (fun e => ConfigParse (avix_error_to_string e)) (VfsPath.parse s)).
Definition vread (p : string) : M string := fun v => let '(v, r) := Vfs.read yaml_of_names v p in (v, Some r).
Definition on_vfs (f : VfsRouter D -> result AvixError (VfsRouter D)) : M () := fun v =>
  match f v with Ok v' => (v', Some (Ok ())) | Err e => (v, Some (Err e)) end.
Definition vwrite (p c : string) : M () := on_vfs (fun v => Vfs.write v p c).
Definition vdelete (p : string) : M () := on_vfs (fun v => Vfs.delete v p).
Definition vexists (p : string) : M bool := fun v => (v, Some (Ok (Vfs.exists_path v p))).
(** [vfs.list(..).await.unwrap_or_default()] *)
Definition vlist (p : string) : M (list string) := fun v =>
  (v, Some (Ok (match Vfs.list_path v p with Ok s => dir_iter s | Err _ => [] end))).

(** *** Documents in the VFS *)

Definition from_yaml {T} `{!Serde T} (bytes : string) : M T :=
  yaml ← mem_lift (map_err ConfigParse (from_utf8 bytes)); mem_lift (map_err ConfigParse (from_str yaml)).
Definition to_yaml {T} `{!Serde T} (x : T) : M string := mem_lift (map_err ConfigParse (to_string x)).
Definition read_or (what path p : string) : M string :=
  r ← mem_try (vread p); mem_lift (map_err (fun _ => NotFound (what +:+ " not found: " +:+ path)%string) r).

Definition write_record (path : string) (r : MemoryRecord) : M () := yaml ← to_yaml r; p ← vpath path; vwrite p yaml.
Definition read_record (path : string) : M MemoryRecord := p ← vpath path; bytes ← read_or "memory record" path p; from_yaml bytes.
Definition delete_record (path : string) : M () := p ← vpath path; vdelete p.
(** The loop of [list_records]. *)
Fixpoint read_entries (dir : string) (entries : list string) : M (list MemoryRecord) :=
  match entries with
  | [] => mem_ret []
  | e :: es =>
      if is_yaml e && negb (String.eqb e ".keep") then
        r ← mem_try (read_record (trim_end_matches "/" dir +:+ "/" +:+ e)%string);
        rs ← read_entries dir es;
        mem_ret (match r with Ok r => r :: rs | Err _ => rs end)
      else read_entries dir es
  end.
Definition list_records (dir : string) : M (list MemoryRecord) := p ← vpath dir; es ← vlist p; read_entries dir es.
Definition read_preference_model (path : string) : M UserPreferenceModel :=
  p ← vpath path; bytes ← read_or "preference model" path p; from_yaml bytes.
Definition write_preference_model (path : string) (m : UserPreferenceModel) : M () := yaml ← to_yaml m; p ← vpath path; vwrite p yaml.
Definition vfs_path_episodic (owner agent : string) (created_at : Z) (id : string) : string :=
  (episodic_dir owner agent +:+ "/" +:+ stamp created_at +:+ "-" +:+ id +:+ ".yaml")%string.

(** *** Directories *)

Definition ensure (path : string) : M () := p ← vpath path; on_vfs (fun v => Vfs.ensure_dir v p).
Fixpoint ensure_all (base : string) (subdirs : list string) : M () :=
  match subdirs with [] => mem_ret () | d :: ds => _ ← ensure (base +:+ "/" +:+ d)%string; ensure_all base ds end.
Definition init_user_memory_tree (owner agent : string) : M () :=
  _ ← ensure_all (memory_base owner agent) ["episodic"; "semantic"; "preferences"; "grants"]%string;
  ensure_all (memory_base owner agent) ["episodic/index"; "semantic/index"]%string.
Definition init_crew_memory_tree (crew : string) : M () :=
  ensure_all ("/crews/" +:+ crew +:+ "/memory/shared")%string ["episodic"; "semantic"; "episodic/index"; "semantic/index"]%string.

(** *** Finding a record *)

(** The path built from the metadata of the first record of the list with the id, where it has one. *)
Fixpoint path_in (owner agent id : string) (rs : list MemoryRecord) : option string :=
  match rs with
  | [] => None
  | r :: rs =>
      if String.eqb (mr_id (mr_metadata r)) id then
        match record_type (mr_metadata r), mr_key (mr_spec r) with
        | Episodic, _ => Some (vfs_path_episodic owner agent (mr_created_at (mr_metadata r)) id)
        | Semantic, Some key => Some (vfs_path_semantic owner agent key)
        | Semantic, None => path_in owner agent id rs
        end
      else path_in owner agent id rs
  end.
Fixpoint find_in_dirs (owner agent id : string) (dirs : list string) : M (option string) :=
  match dirs with
  | [] => mem_ret None
  | d :: ds =>
      rs ← mem_try (list_records d);
      match match rs with Ok rs => path_in owner agent id rs | Err _ => None end with
      | Some p => mem_ret (Some p)
      | None => find_in_dirs owner agent id ds
      end
  end.
Definition find_record_by_id (owner agent id : string) : M (option string) :=
  find_in_dirs owner agent id [episodic_dir owner agent; semantic_dir owner agent].

(** *** Tools *)

Definition jarray (j : json) : option (list json) := match j with JArr l => Some l | _ => None end.
Definition jstrings (j : json) : option (list string) := l ← jarray j; Some (omap (M := list) as_str l).
Definition need {A} (what : string) (o : option A) : M A := mem_lift (ok_or (ConfigParse ("missing " +:+ what)%string) o).
(** [scope] other than ["own"] is refused. *)
Definition own_scope (params : json) : M () :=
  if String.eqb (default "own"%string (as_str (jindex params "scope"))) "own" then mem_ret ()
  else mem_lift (Err (ConfigParse "crew scope not yet implemented")).
Definition caller_metadata (c : CallerContext) (t : MemoryRecordType) (id : string) (now : Z) (tags : list string) (pinned : bool) : MemoryRecordMetadata := {|
  mr_id := id; record_type := t; mr_agent_name := ca_agent_name c; mr_agent_pid := ca_pid c; mr_owner := ca_owner c;
  mr_created_at := now; mr_updated_at := now; mr_session_id := ca_session_id c; mr_tags := tags; mr_pinned := pinned |}.
Definition pinned_of (params : json) : bool := default false (as_bool (jindex params "pinned")).

Definition log_event (now : Z) (uuid : string) (params : json) (c : CallerContext) : M json :=
  summary ← need "summary" (as_str (jindex params "summary"));
  let outcome := as_str (jindex params "outcome") ≫= outcome_of in
  let tags := default [] (jstrings (jindex params "tags")) in
  _ ← own_scope params;
  let id := new_memory_id uuid in
  let spec := {| mr_content := summary; outcome := outcome; related_goal := as_str (jindex params "relatedGoal"); tools_used := [];
                 mr_key := None; confidence := None; ttl_days := None; mr_index := index_default |} in
  _ ← write_record (vfs_path_episodic (ca_owner c) (ca_agent_name c) now id)
        (record_new (caller_metadata c Episodic id now tags (pinned_of params)) spec);
  mem_ret (JObj [("id", JStr id); ("stored", JBool true); ("indexed", JBool false)]%string).

Definition fact_record (now : Z) (uuid : string) (params : json) (c : CallerContext) (key summary : string) : MemoryRecord :=
  record_new (caller_metadata c Semantic (new_memory_id uuid) now [] (pinned_of params))
    {| mr_content := summary; outcome := None; related_goal := None; tools_used := []; mr_key := Some key;
       confidence := as_str (jindex params "confidence") ≫= confidence_of; ttl_days := None; mr_index := index_default |}.
Definition store_fact (now : Z) (uuid : string) (params : json) (c : CallerContext) : M json :=
  key ← need "key" (as_str (jindex params "key"));
  summary ← need "summary" (as_str (jindex params "summary"));
  _ ← own_scope params;
  let path := vfs_path_semantic (ca_owner c) (ca_agent_name c) key in
  p ← vpath path;
  replaced ← vexists p;
  _ ← write_record path (fact_record now uuid params c key summary);
  mem_ret (JObj [("id", JStr (new_memory_id uuid)); ("key", JStr key); ("stored", JBool true); ("replaced", JBool replaced)]%string).

Definition fact_json (r : MemoryRecord) : json :=
  JObj [("found", JBool true);
        ("record", JObj [("id", JStr (mr_id (mr_metadata r))); ("key", jopt JStr (mr_key (mr_spec r))); ("summary", JStr (mr_content (mr_spec r)));
                         ("confidence", jopt (fun c => JStr (confidence_str c)) (confidence (mr_spec r)));
                         ("updatedAt", JStr (rfc3339 (mr_updated_at (mr_metadata r)))); ("pinned", JBool (mr_pinned (mr_metadata r)))])]%string.
Definition not_found_json : json := JObj [("found", JBool false)]%string.
Definition get_fact (params : json) (c : CallerContext) : M json :=
  key ← need "key" (as_str (jindex params "key"));
  r ← mem_try (read_record (vfs_path_semantic (ca_owner c) (ca_agent_name c) key));
  mem_ret (match r with Ok r => fact_json r | Err _ => not_found_json end).

(** serde omits the fields that are [None] or empty. *)
Definition field_opt (k : string) (o : option json) : list (string * json) := match o with Some j => [(k, j)] | None => [] end.
Definition structured_json (s : UserPreferenceStructured) : json :=
  JObj (field_opt "outputFormat" (JStr <$> output_format s) ++ field_opt "preferredLength" (JStr <$> preferred_length s)
        ++ field_opt "citeSources" (JStr <$> cite_sources s) ++ field_opt "tonePreference" (JStr <$> tone_preference s)
        ++ field_opt "timezone" (JStr <$> pref_timezone s) ++ field_opt "primaryLanguage" (JStr <$> primary_language s)
        ++ field_opt "expertiseAreas" (match expertise_areas s with [] => None | l => Some (jstrs l) end)
        ++ field_opt "proactiveUpdates" (JBool <$> proactive_updates s)).
Definition model_json (m : UserPreferenceModel) : json :=
  JObj [("apiVersion", JStr (up_api_version m)); ("kind", JStr (up_kind m));
        ("metadata", JObj [("agentName", JStr (up_agent_name (up_metadata m))); ("owner", JStr (up_owner (up_metadata m)));
                           ("updatedAt", JStr (rfc3339 (up_updated_at (up_metadata m))))]);
        ("spec", JObj [("summary", JStr (up_summary (up_spec m))); ("structured", structured_json (structured (up_spec m)));
                       ("corrections", JArr ((fun k => JObj [("at", JStr (rfc3339 (corrected_at k))); ("context", JStr (correction_context k));
                                                             ("correction", JStr (correction k))]) <$> corrections (up_spec m)))])]%string.
Definition get_preferences (c : CallerContext) : M json :=
  r ← mem_try (read_preference_model (preference_path (ca_owner c) (ca_agent_name c)));
  mem_ret (match r with
           | Ok m => JObj [("found", JBool true); ("model", model_json m)]%string
           | Err _ => not_found_json
           end).

(** The fields the object gives replace the stored ones. *)
Definition or_else {A} (new old : option A) : option A := match new with Some _ => new | None => old end.
Definition merge_structured (obj : json) (s : UserPreferenceStructured) : UserPreferenceStructured := {|
  output_format := or_else (as_str (jindex obj "outputFormat")) (output_format s);
  preferred_length := or_else (as_str (jindex obj "preferredLength")) (preferred_length s);
  cite_sources := cite_sources s;
  tone_preference := or_else (as_str (jindex obj "tonePreference")) (tone_preference s);
  pref_timezone := or_else (as_str (jindex obj "timezone")) (pref_timezone s);
  primary_language := or_else (as_str (jindex obj "primaryLanguage")) (primary_language s);
  expertise_areas := expertise_areas s;
  proactive_updates := or_else (as_bool (jindex obj "proactiveUpdates")) (proactive_updates s) |}.
Definition merge_preferences (params : json) (now : Z) (m : UserPreferenceModel) : UserPreferenceModel := {|
  up_api_version := up_api_version m; up_kind := up_kind m;
  up_metadata := {| up_agent_name := up_agent_name (up_metadata m); up_owner := up_owner (up_metadata m); up_updated_at := now |};
  up_spec := {| up_summary := default (up_summary (up_spec m)) (as_str (jindex params "summary"));
                structured := match jindex params "structured" with
                              | JObj _ as obj => merge_structured obj (structured (up_spec m))
                              | _ => structured (up_spec m)
                              end;
                corrections := corrections (up_spec m) |} |}.
Definition fresh_model (c : CallerContext) (now : Z) : UserPreferenceModel :=
  model_new {| up_agent_name := ca_agent_name c; up_owner := ca_owner c; up_updated_at := now |}
    {| up_summary := ""; structured := structured_default; corrections := [] |}.
Definition update_preference (now : Z) (params : json) (c : CallerContext) : M json :=
  let path := preference_path (ca_owner c) (ca_agent_name c) in
  r ← mem_try (read_preference_model path);
  _ ← write_preference_model path (merge_preferences params now (match r with Ok m => m | Err _ => fresh_model c now end));
  mem_ret (JObj [("updated", JBool true)]%string).

Fixpoint forget_ids (c : CallerContext) (ids : list string) : M (list string * list string) :=
  match ids with
  | [] => mem_ret ([], [])
  | id :: ids =>
      o ← find_record_by_id (ca_owner c) (ca_agent_name c) id;
      match o with
      | Some path => _ ← delete_record path; '(del, nf) ← forget_ids c ids; mem_ret (id :: del, nf)
      | None => '(del, nf) ← forget_ids c ids; mem_ret (del, id :: nf)
      end
  end.
Definition forget (params : json) (c : CallerContext) : M json :=
  ids ← need "ids array" (jstrings (jindex params "ids"));
  '(del, nf) ← forget_ids c ids;
  mem_ret (JObj [("deleted", jstrs del); ("notFound", jstrs nf)]%string).

Definition share_request (params : json) (c : CallerContext) : M json :=
  mem_lift (Err
    (if negb (list_contains "memory/share-request" (ca_granted_tools c)) then
       CapabilityDenied "memory:share not granted — agent manifest must set sharing.canRequest: true"
     else if negb (String.eqb (default (ca_owner c) (as_str (jindex params "targetOwner"))) (ca_owner c)) then
       CapabilityDenied "cross-user memory sharing is not supported in v1 (crossUserEnabled: false)"
     else NotFound "memory/share-request HIL flow not yet wired (memory-gap-G)")).

Definition record_to_json (r : MemoryRecord) (scope : string) : option json :=
  summary ← preview 200 (mr_content (mr_spec r));
  Some (JObj [("id", JStr (mr_id (mr_metadata r))); ("type", JStr (record_type_str (record_type (mr_metadata r)))); ("scope", JStr scope);
              ("summary", JStr summary); ("tags", jstrs (mr_tags (mr_metadata r)));
              ("createdAt", JStr (rfc3339 (mr_created_at (mr_metadata r)))); ("pinned", JBool (mr_pinned (mr_metadata r)))])%string.

Definition load_grant (path : string) : M MemoryGrant := p ← vpath path; bytes ← read_or "grant" path p; from_yaml bytes.
(** The records a grant shows, by id; those that cannot be found or read are left out. *)
Fixpoint granted_records (owner agent : string) (ids : list string) : M (list MemoryRecord) :=
  match ids with
  | [] => mem_ret []
  | id :: ids =>
      o ← find_record_by_id owner agent id;
      r ← match o with Some path => mem_try (read_record path) | None => mem_ret (Err (NotFound "")) end;
      rs ← granted_records owner agent ids;
      mem_ret (match r with Ok r => r :: rs | Err _ => rs end)
  end.
Fixpoint read_grants (dir : string) (entries : list string) : M (list json) :=
  match entries with
  | [] => mem_ret []
  | e :: es =>
      if is_yaml e then
        g ← mem_try (load_grant (dir +:+ "/" +:+ e)%string);
        match g with
        | Ok g =>
            rs ← granted_records (gp_owner (grantor (gr_spec g))) (gp_agent_name (grantor (gr_spec g))) (gr_records (gr_spec g));
            js ← mem_opt (mapM (fun r => record_to_json r ("grant:" +:+ gr_id (gr_metadata g))%string) rs);
            js' ← read_grants dir es;
            mem_ret (js ++ js')
        | Err _ => read_grants dir es
        end
      else read_grants dir es
  end.
Definition retrieve (default_limit : Z) (params : json) (c : CallerContext) : M json :=
  query ← need "query" (as_str (jindex params "query"));
  let limit := Z.to_nat (Z.min (default default_limit (as_u64 (jindex params "limit"))) 20) in
  let types := default ["episodic"; "semantic"]%string (jstrings (jindex params "types")) in
  let scopes := default [] (jstrings (jindex params "scopes")) in
  ep ← (if list_contains "episodic" types then list_records (episodic_dir (ca_owner c) (ca_agent_name c)) else mem_ret []);
  se ← (if list_contains "semantic" types then list_records (semantic_dir (ca_owner c) (ca_agent_name c)) else mem_ret []);
  let own := ep ++ se in
  js ← mem_opt (mapM (fun r => record_to_json r "own") (bm25_rank ln own query limit));
  gs ← (if list_contains "grants" scopes then
          dir ← vpath (agent_grants_dir (ca_agent_name c)); es ← vlist dir; read_grants (agent_grants_dir (ca_agent_name c)) es
        else mem_ret []);
  mem_ret (JObj [("records", JArr (js ++ gs)); ("totalCandidates", JInt (Z.of_nat (length own)));
                 ("returned", JInt (Z.of_nat (length (js ++ gs))))]%string).

(** *** The service *)

Definition memory_start (now : Z) : M () :=
  yaml ← to_yaml {| healthy := true; total_episodic_records := 0; total_semantic_records := 0; active_session_grants := 0; ss_updated_at := now |};
  p ← vpath memory_svc_status_path; vwrite p yaml.
Definition dispatch (default_limit now : Z) (uuid tool_name : string) (params : json) (c : CallerContext) : M json :=
  if String.eqb tool_name "memory/retrieve" then retrieve default_limit params c
  else if String.eqb tool_name "memory/log-event" then log_event now uuid params c
  else if String.eqb tool_name "memory/store-fact" then store_fact now uuid params c
  else if String.eqb tool_name "memory/get-fact" then get_fact params c
  else if String.eqb tool_name "memory/update-preference" then update_preference now params c
  else if String.eqb tool_name "memory/get-preferences" then get_preferences c
  else if String.eqb tool_name "memory/forget" then forget params c
  else if String.eqb tool_name "memory/share-request" then share_request params c
  else mem_lift (Err (NotFound ("unknown memory tool: " +:+ tool_name))).
Definition has_capability (c : CallerContext) (cap : string) : bool :=
  let any l := existsb (fun t => list_contains t l) (ca_granted_tools c) in
  if String.eqb cap "memory:read" then any ["memory/retrieve"; "memory/get-fact"; "memory/get-preferences"]%string
  else if String.eqb cap "memory:write" then any ["memory/log-event"; "memory/store-fact"; "memory/update-preference"]%string
  else if String.eqb cap "memory:share" then list_contains "memory/share-request" (ca_granted_tools c)
  else false.
Definition check_write_namespace (c : CallerContext) (target : string) : result AvixError () :=
  if String.eqb (ca_agent_name c) target then Ok ()
  else Err (CapabilityDenied ("agent '" +:+ ca_agent_name c +:+ "' may not write to '" +:+ target +:+ "' memory namespace")).

(** *** Grants *)

Definition share_approved (now : Z) (uuid hil_id target : string) (ids : list string) (scope : MemoryGrantScope)
    (owner session approving grantor_agent : string) : M () :=
  let id := ("grant-" +:+ new_memory_id uuid)%string in
  let grant := grant_new {| gr_id := id; granted_at := now; granted_by := approving; gr_hil_id := hil_id |}
    {| grantor := {| gp_agent_name := grantor_agent; gp_owner := owner |}; grantee := {| gp_agent_name := target; gp_owner := owner |};
       gr_records := ids; gr_scope := scope; gr_session_id := session; gr_expires_at := None |} in
  yaml ← to_yaml grant;
  p ← vpath (match scope with ScSession => memory_agent_grants_path target id | ScPermanent => grant_path owner grantor_agent id end);
  vwrite p yaml.

(** *** Sweeps: every YAML file of a directory, those that do not read or parse are passed over *)

(** One file: [Some n] when it was deleted ([n] bytes). The delete itself may fail unnoticed. *)
Definition sweep_file {T} `{!Serde T} (expired : T -> bool) (path : string) : M (option nat) :=
  p ← mem_try (vpath path);
  match p with
  | Err _ => mem_ret None
  | Ok p =>
      bytes ← mem_try (vread p);
      match bytes with
      | Err _ => mem_ret None
      | Ok bytes =>
          x ← mem_try (from_yaml (T := T) bytes);
          match x with
          | Ok x => if expired x then _ ← mem_try (vdelete p); mem_ret (Some (String.length bytes)) else mem_ret None
          | Err _ => mem_ret None
          end
      end
  end.
Fixpoint sweep_files {T} `{!Serde T} (expired : T -> bool) (dir : string) (entries : list string) : M (list nat) :=
  match entries with
  | [] => mem_ret []
  | e :: es =>
      if is_yaml e then
        o ← sweep_file (T := T) expired (dir +:+ "/" +:+ e)%string;
        ns ← sweep_files (T := T) expired dir es;
        mem_ret (option_list o ++ ns)
      else sweep_files (T := T) expired dir es
  end.
Fixpoint sweep_dirs {T} `{!Serde T} (expired : T -> bool) (dirs : list string) : M (list nat) :=
  match dirs with
  | [] => mem_ret []
  | d :: ds =>
      p ← mem_try (vpath d);
      ns ← match p with Ok p => es ← vlist p; sweep_files (T := T) expired d es | Err _ => mem_ret [] end;
      ns' ← sweep_dirs (T := T) expired ds;
      mem_ret (ns ++ ns')
  end.

Definition DAY_NS : Z := 86400 * 1000000000.
Definition old_record (cutoff : Z) (r : MemoryRecord) : bool :=
  negb (mr_pinned (mr_metadata r)) && bool_decide (mr_created_at (mr_metadata r) < cutoff).
Record GcReport : Type := { records_deleted : Z; bytes_freed : Z }.
(** chrono's earliest instant, the start of the year -262143; subtracting beyond it panics. *)
Definition MIN_UTC : Z := -96465293 * DAY_NS.
Definition gc_episodic_records (now : Z) (agents : list (string * string)) (retention_days : Z) : M GcReport :=
  cutoff ← mem_opt (let t := now - retention_days * DAY_NS in if decide (MIN_UTC <= t) then Some t else None);
  ns ← sweep_dirs (old_record cutoff) ((fun a => episodic_dir a.1 a.2) <$> agents);
  mem_ret {| records_deleted := Z.of_nat (length ns); bytes_freed := Z.of_nat (sum_list ns) |}.
Definition expired_grant (now : Z) (g : MemoryGrant) : bool :=
  match gr_expires_at (gr_spec g) with Some t => bool_decide (t < now) | None => false end.
Definition prune_expired_grants (now : Z) (agents : list string) : M Z :=
  ns ← sweep_dirs (expired_grant now) (agent_grants_dir <$> agents); mem_ret (Z.of_nat (length ns)).
Definition session_grant (session : string) (g : MemoryGrant) : bool :=
  bool_decide (gr_scope (gr_spec g) = ScSession) && String.eqb (gr_session_id (gr_spec g)) session.
Definition cleanup_session_grants (agent session : string) : M () :=
  dir ← vpath (agent_grants_dir agent); es ← vlist dir;
  _ ← sweep_files (session_grant session) (agent_grants_dir agent) es;
  mem_ret ().

(** *** The memory context of a new agent ([executor/memory.rs]) *)

(** [sort_by] on the creation time, latest first, stable. *)
Fixpoint insert_recent (r : MemoryRecord) (l : list MemoryRecord) : list MemoryRecord :=
  match l with
  | [] => [r]
  | x :: l' => if decide (mr_created_at (mr_metadata x) < mr_created_at (mr_metadata r)) then r :: l else x :: insert_recent r l'
  end.
Definition sort_recent (l : list MemoryRecord) : list MemoryRecord := foldl (fun acc r => insert_recent r acc) [] l.
Definition preference_part (bytes : string) : list string :=
  match from_str (T := UserPreferenceModel) (from_utf8_lossy bytes) with
  | Err _ => []
  | Ok m =>
      if String.eqb (up_summary (up_spec m)) "" then []
      else [("User preferences:" +:+ nl +:+ "  " +:+ up_summary (up_spec m)
             +:+ match corrections (up_spec m) with
                 | [] => ""
                 | cs => nl +:+ nl +:+ "  Corrections to avoid repeating:"
                         +:+ str_join "" ((fun k => nl +:+ "    • " +:+ String "034" EmptyString +:+ correction k +:+ String "034" EmptyString
                                                    +:+ " (" +:+ day (corrected_at k) +:+ ")") <$> cs)
                 end)%string]
  end.
Definition history_line (r : MemoryRecord) : option string :=
  p ← preview 120 (mr_content (mr_spec r)); Some (nl +:+ "  • " +:+ day (mr_created_at (mr_metadata r)) +:+ " " +:+ p)%string.
Definition history_part (records : list MemoryRecord) : option (list string) :=
  let recent := take 5 (sort_recent records) in
  if bool_decide (recent = []) then Some []
  else ls ← mapM history_line recent;
       Some [("Recent session history (last " +:+ pretty (Z.of_nat (length recent)) +:+ "):" +:+ str_join "" ls)%string].
Definition pinned_line (r : MemoryRecord) : option string :=
  p ← preview 120 (mr_content (mr_spec r)); Some (nl +:+ "  • " +:+ default (mr_id (mr_metadata r)) (mr_key (mr_spec r)) +:+ ": " +:+ p)%string.
Definition pinned_part (records : list MemoryRecord) : option (list string) :=
  let pinned := base.filter (fun r => mr_pinned (mr_metadata r) = true) records in
  if bool_decide (pinned = []) then Some []
  else ls ← mapM pinned_line pinned; Some [("Pinned facts:" +:+ str_join "" ls)%string].
(** [None] as result: no context; a path that does not parse gives none either. *)
Definition memory_context_block (spawned_by agent : string) : M (option string) :=
  match VfsPath.parse (preference_path spawned_by agent) with
  | Err _ => mem_ret None
  | Ok p =>
      bytes ← mem_try (vread p);
      let prefs := match bytes with Ok b => preference_part b | Err _ => [] end in
      ep ← mem_try (list_records (episodic_dir spawned_by agent));
      hist ← mem_opt (match ep with Ok l => history_part l | Err _ => Some [] end);
      se ← mem_try (list_records (semantic_dir spawned_by agent));
      pins ← mem_opt (match se with Ok l => pinned_part l | Err _ => Some [] end);
      mem_ret (match prefs ++ hist ++ pins with
               | [] => None
               | parts => Some ("[MEMORY CONTEXT — " +:+ agent +:+ " — injected by memory.svc]" +:+ nl +:+ nl +:+ str_join (nl +:+ nl) parts)%string
               end)
  end.
End Service.

(** ** What the service needs from the VFS *)

(** The paths the service works on. *)
Definition service_path (p : string) : bool := starts_with "/users/" p || starts_with "/proc/services/memory/" p.

(** The files below these paths as a map, for the routers [serves] describes: reading, writing and deleting act on
    the map, listing shows the files directly below a directory, and what other paths read does not change. *)
Class VfsView (D : Type) `{!Disk D} (yaml_of_names : list string -> string) : Type := {
  serves : VfsRouter D -> Prop;
  files : VfsRouter D -> gmap string string;
  view_read v p : serves v -> service_path p = true ->
    exists r, Vfs.read yaml_of_names v p = (v, r) /\ forall c, r = Ok c <-> files v !! p = Some c;
  view_write v p c : serves v -> service_path p = true ->
    exists v', Vfs.write v p c = Ok v' /\ serves v' /\ files v' = <[p := c]> (files v) /\
      forall q, service_path q = false -> (Vfs.read yaml_of_names v' q).2 = (Vfs.read yaml_of_names v q).2;
  view_delete v p : serves v -> service_path p = true ->
    if decide (is_Some (files v !! p)) then
      exists v', Vfs.delete v p = Ok v' /\ serves v' /\ files v' = base.delete p (files v) /\
        forall q, service_path q = false -> (Vfs.read yaml_of_names v' q).2 = (Vfs.read yaml_of_names v q).2
    else exists e, Vfs.delete v p = Err e;
  view_exists v p : serves v -> service_path p = true -> Vfs.exists_path v p = bool_decide (is_Some (files v !! p));
  view_list v d e : serves v -> service_path d = true -> trim_end_matches "/" d = d ->
    let listed := match Vfs.list_path v d with Ok s => s | Err _ => ∅ end in
    (is_Some (files v !! (d +:+ "/" +:+ e)%string) -> str_contains_char "/" e = false -> e <> EmptyString -> e ∈ listed) /\
    (e ∈ listed -> str_contains_char "/" e = false /\ e <> EmptyString)
}.

(** A router that keeps them in its own in-memory filesystem, as no mount covers them, and lets its caller write. *)
Section DefaultView.
Context {D : Type} `{!Disk D} (yaml_of_names : list string -> string).

Definition default_serves (v : VfsRouter D) : Prop :=
  (forall p verb, guard_access v p verb can_write = Ok ()) /\
  Forall (fun e => starts_with "/" e.1 = true) (mem_mounts v) /\
  forall p, service_path p = true -> route v p = None /\ find_mount p (mem_mounts v) = None.

Lemma service_absolute p : service_path p = true -> starts_with "/" p = true.
Proof.
  unfold service_path. rewrite orb_true_iff. intros [[r ->]%starts_with_spec|[r ->]%starts_with_spec].
  - apply (starts_with_app "/" ("users/" +:+ r)).
  - apply (starts_with_app "/" ("proc/services/memory/" +:+ r)).
Qed.
Lemma service_not_tools p : service_path p = true -> starts_with "/tools" p = false.
Proof.
  unfold service_path. rewrite orb_true_iff.
  intros [[r ->]%starts_with_spec|[r ->]%starts_with_spec]; apply not_true_iff_false; intros [s Hs]%starts_with_spec; done.
Qed.

Definition default_files (v : VfsRouter D) : gmap string string := base.filter (fun kc => service_path kc.1 = true) (default_fs v).
Lemma default_files_lookup v p : service_path p = true -> default_files v !! p = default_fs v !! p.
Proof.
  intros S. unfold default_files. destruct (default_fs v !! p) as [c|] eqn:E.
  - by apply map_lookup_filter_Some.
  - apply map_lookup_filter_None. by left.
Qed.
Lemma default_unserved v q m : service_path q = false -> (forall p, service_path p = false -> m !! p = default_fs v !! p) ->
  (Vfs.read yaml_of_names (with_default v m) q).2 = (Vfs.read yaml_of_names v q).2.
Proof.
  intros S Hm. unfold Vfs.read. rewrite !guard_read. cbn [fst snd].
  assert (populate_if_needed yaml_of_names (with_default v m) q = with_default (populate_if_needed yaml_of_names v q) m) as ->.
  { unfold populate_if_needed, tools_mount. cbn. by repeat case_match. }
  destruct (populate_other yaml_of_names v q) as (_ & Hd & _).
  change (route (with_default (populate_if_needed yaml_of_names v q) m) q) with (route (populate_if_needed yaml_of_names v q) q).
  cbn. repeat case_match; try done. unfold MemFs.read. by rewrite Hm, Hd.
Qed.
Lemma default_serves_with v m : default_serves v -> default_serves (with_default v m).
Proof. done. Qed.

Lemma split_next_slash s : str_contains_char "/" (split_next "/" s) = false.
Proof. induction s as [|c s IH]; cbn; [done|]. case_decide; cbn; [done|]. by rewrite bool_decide_eq_false_2. Qed.
Lemma split_next_plain s : str_contains_char "/" s = false -> split_next "/" s = s.
Proof.
  induction s as [|c s IH]; cbn; [done|]. intros [H1%bool_decide_eq_false H2]%orb_false_iff.
  rewrite decide_False by done. by rewrite IH.
Qed.

#[local] Ltac served S := destruct S as (Guard & Abs & Free).
#[local] Ltac unrouted Free p S := let R := fresh "R" in let F := fresh "F" in destruct (Free p S) as [R F].

Lemma default_read v p : default_serves v -> service_path p = true ->
  exists r, Vfs.read yaml_of_names v p = (v, r) /\ forall c, r = Ok c <-> default_files v !! p = Some c.
Proof.
  intros V S. served V. unrouted Free p S. unfold Vfs.read. rewrite guard_read.
  assert (populate_if_needed yaml_of_names v p = v) as -> by (unfold populate_if_needed; by rewrite service_not_tools).
  rewrite R, F. eexists. split; [done|]. intros c. rewrite default_files_lookup by done. apply ok_or_Ok.
Qed.
Lemma default_write v p c : default_serves v -> service_path p = true ->
  exists v', Vfs.write v p c = Ok v' /\ default_serves v' /\ default_files v' = <[p := c]> (default_files v) /\
    forall q, service_path q = false -> (Vfs.read yaml_of_names v' q).2 = (Vfs.read yaml_of_names v q).2.
Proof.
  intros V S. pose proof V as V'. served V'. unrouted Free p S. unfold Vfs.write. rewrite Guard. cbn. rewrite R, F.
  eexists. split; [done|]. split; [by apply default_serves_with|]. split.
  - unfold default_files, MemFs.write. cbn. by rewrite map_filter_insert_True.
  - intros q Q. apply default_unserved; [done|]. intros p' P'. apply lookup_insert_ne. congruence.
Qed.
Lemma default_delete v p : default_serves v -> service_path p = true ->
  if decide (is_Some (default_files v !! p)) then
    exists v', Vfs.delete v p = Ok v' /\ default_serves v' /\ default_files v' = base.delete p (default_files v) /\
      forall q, service_path q = false -> (Vfs.read yaml_of_names v' q).2 = (Vfs.read yaml_of_names v q).2
  else exists e, Vfs.delete v p = Err e.
Proof.
  intros V S. pose proof V as V'. served V'. unrouted Free p S. unfold Vfs.delete. rewrite Guard. cbn. rewrite R, F.
  unfold MemFs.delete_file. rewrite default_files_lookup by done. destruct (default_fs v !! p); cbn; [|by eexists].
  eexists. split; [done|]. split; [by apply default_serves_with|]. split.
  - unfold default_files. cbn. by rewrite map_filter_delete.
  - intros q Q. apply default_unserved; [done|]. intros p' P'. apply lookup_delete_ne. congruence.
Qed.
Lemma default_exists v p : default_serves v -> service_path p = true -> Vfs.exists_path v p = bool_decide (is_Some (default_files v !! p)).
Proof.
  intros V S. served V. unrouted Free p S. unfold Vfs.exists_path. rewrite R, default_files_lookup by done. cbn [orb].
  match goal with |- existsb ?f ?l || _ = _ => assert (existsb f l = false) as -> end; [|done].
  apply not_true_iff_false. intros ([q m] & Hin%list_elem_of_In & H)%existsb_exists.
  apply (find_mount_none (mem_mounts v) p) with (p := q) (v := m) in F; [|done]. unfold under in F.
  apply orb_false_iff in F as [F1 F2]. cbn [fst snd] in H. by rewrite F1, F2 in H.
Qed.
Lemma default_list v d e : default_serves v -> service_path d = true -> trim_end_matches "/" d = d ->
  let listed := match Vfs.list_path v d with Ok s => s | Err _ => ∅ end in
  (is_Some (default_files v !! (d +:+ "/" +:+ e)%string) -> str_contains_char "/" e = false -> e <> EmptyString -> e ∈ listed) /\
  (e ∈ listed -> str_contains_char "/" e = false /\ e <> EmptyString).
Proof.
  intros V S T. served V. unrouted Free d S. unfold Vfs.list_path. rewrite R, F. cbn zeta.
  assert (forall s, MemFs.list_dir (default_fs v) d = Ok s -> forall n, n ∈ s <->
    exists k c, default_fs v !! k = Some c /\ MemFs.entry_under (d +:+ "/") k = Some n) as Spec.
  { intros s Hs n. rewrite (MemFs.list_dir_spec _ _ _ Hs). unfold MemFs.dir_prefix. by rewrite T. }
  assert (forall k n, MemFs.entry_under (d +:+ "/") k = Some n -> str_contains_char "/" n = false /\ n <> EmptyString) as Plain.
  { unfold MemFs.entry_under. intros k n. case_match; [|done]. cbn zeta. case_decide; [done|]. intros [= <-].
    split; [apply split_next_slash|done]. }
  split.
  - intros [c Hc] Hs He. apply map_lookup_filter_Some in Hc as [Hc _].
    assert (MemFs.entry_under (d +:+ "/") (d +:+ "/" +:+ e) = Some e) as U.
    { unfold MemFs.entry_under. rewrite <- (str_app_assoc d "/" e), starts_with_app, str_drop_app, split_next_plain by done. by rewrite decide_False. }
    destruct (MemFs.list_dir (default_fs v) d) as [s|] eqn:L; [apply (Spec s eq_refl); eauto|].
    unfold MemFs.list_dir in L. case_decide as Hno; [|done]. exfalso.
    assert (e ∈ (∅ : gset string)) as Hin; [|set_solver]. rewrite <- Hno. unfold MemFs.dir_prefix. rewrite T.
    apply elem_of_list_to_set, list_elem_of_omap. exists (d +:+ "/" +:+ e)%string. split; [|done].
    apply elem_of_elements, elem_of_dom. eauto.
  - destruct (MemFs.list_dir (default_fs v) d) as [s|] eqn:L; [|set_solver]. intros (k & c & _ & Hk)%(Spec s eq_refl). eauto.
Qed.
#[export] Instance default_view : VfsView D yaml_of_names := {|
  serves := default_serves; files := default_files; view_read := default_read; view_write := default_write;
  view_delete := default_delete; view_exists := default_exists; view_list := default_list |}.
End DefaultView.

(** ** Every tool stays in its caller's tree *)

Section Confinement.
Context {D : Type} `{!Disk D, !HashOrder}.
Context `{!Serde MemoryRecord, !Serde UserPreferenceModel, !Serde MemoryGrant, !Serde MemorySvcStatus, !UnicodeText}.
Context (yaml_of_names : list string -> string) `{!VfsView D yaml_of_names}.
Context (stamp day rfc3339 : Z -> string) (ln : f64 -> f64).
Notation M := (MemM D).
Implicit Types (v : VfsRouter D) (P : string -> Prop).

Definition unchanged_outside P v v' : Prop :=
  serves v' /\ (forall q, ~ P q -> files v' !! q = files v !! q) /\
  forall q, service_path q = false -> (Vfs.read yaml_of_names v' q).2 = (Vfs.read yaml_of_names v q).2.
Definition confined {A} P (m : M A) : Prop := forall v, serves v -> unchanged_outside P v (m v).1.
Definition returns {A} (Q : A -> Prop) (m : M A) : Prop := forall v v' a, m v = (v', Some (Ok a)) -> Q a.

Lemma unchanged_refl P v : serves v -> unchanged_outside P v v.
Proof. done. Qed.
Lemma unchanged_trans P v1 v2 v3 : unchanged_outside P v1 v2 -> unchanged_outside P v2 v3 -> unchanged_outside P v1 v3.
Proof. intros (_ & F1 & R1) (S & F2 & R2). split; [done|]. split; intros q Hq; [rewrite F2, F1|rewrite R2, R1]; done. Qed.

Lemma confined_stay {A} P (r : VfsRouter D -> option (result AvixError A)) : confined P (fun v => (v, r v)).
Proof. intros v S. by apply unchanged_refl. Qed.
Lemma confined_bind_post {A B} P Q (m : M A) (f : A -> M B) :
  confined P m -> returns Q m -> (forall a, Q a -> confined P (f a)) -> confined P (m ≫= f).
Proof.
  intros Hm HQ Hf v S. specialize (Hm v S). unfold mbind, MemM_bind, mem_bind. destruct (m v) as [v1 [[a|e]|]] eqn:E; cbn in *; [|done..].
  eapply unchanged_trans; [exact Hm|]. apply Hf; [by eapply HQ|]. apply Hm.
Qed.
Lemma confined_bind {A B} P (m : M A) (f : A -> M B) : confined P m -> (forall a, confined P (f a)) -> confined P (m ≫= f).
Proof. intros Hm Hf. by apply (confined_bind_post P (fun _ => True)). Qed.
Lemma confined_try {A} P (m : M A) : confined P m -> confined P (mem_try m).
Proof. intros Hm v S. specialize (Hm v S). unfold mem_try. by destruct (m v). Qed.
Lemma parse_same s p : VfsPath.parse s = Ok p -> p = s.
Proof. unfold VfsPath.parse. repeat case_match; by intros [=]. Qed.
Lemma confined_at {A} P s (f : string -> M A) : confined P (f s) -> confined P (vpath s ≫= f).
Proof.
  intros Hf. apply (confined_bind_post P (eq s)); [apply confined_stay| |by intros a <-].
  intros v v' p. unfold vpath, mem_lift. intros [= _ E]. apply map_err_Ok in E. symmetry. by apply parse_same.
Qed.

Lemma confined_vread P p : service_path p = true -> confined P (vread yaml_of_names p).
Proof. intros Hp v S. unfold vread. destruct (view_read v p S Hp) as (r & -> & _). by apply unchanged_refl. Qed.
Lemma confined_vwrite P p c : service_path p = true -> P p -> confined P (vwrite p c).
Proof.
  intros Hp HP v S. unfold vwrite, on_vfs. destruct (view_write v p c S Hp) as (v' & -> & S' & F & R).
  split; [done|]. split; [|done]. intros q Hq. cbn. rewrite F, lookup_insert_ne; [done|]. by intros ->.
Qed.
Lemma confined_vdelete P p : service_path p = true -> P p -> confined P (vdelete p).
Proof.
  intros Hp HP v S. unfold vdelete, on_vfs. pose proof (view_delete v p S Hp) as Hd. case_decide.
  - destruct Hd as (v' & -> & S' & F & R). split; [done|]. split; [|done]. intros q Hq. cbn. rewrite F, lookup_delete_ne; [done|]. by intros ->.
  - destruct Hd as [e ->]. by apply unchanged_refl.
Qed.

Definition own_tree (owner agent q : string) : Prop := starts_with (memory_base owner agent +:+ "/") q = true.
Lemma own_under owner agent r : own_tree owner agent (memory_base owner agent +:+ "/" +:+ r).
Proof. unfold own_tree. rewrite <- str_app_assoc. apply starts_with_app. Qed.
Lemma own_service owner agent q : own_tree owner agent q -> service_path q = true.
Proof.
  intros [r ->]%starts_with_spec. unfold service_path, memory_base. rewrite !str_app_assoc.
  by rewrite (starts_with_app "/users/").
Qed.
Lemma own_episodic owner agent t id : own_tree owner agent (vfs_path_episodic stamp owner agent t id).
Proof. unfold vfs_path_episodic, episodic_dir. rewrite !str_app_assoc. apply (own_under _ _ ("episodic" +:+ _)). Qed.
Lemma own_semantic owner agent key : own_tree owner agent (vfs_path_semantic owner agent key).
Proof. unfold vfs_path_semantic, semantic_dir. rewrite !str_app_assoc. apply (own_under _ _ ("semantic" +:+ _)). Qed.
Lemma own_preference owner agent : own_tree owner agent (preference_path owner agent).
Proof. apply (own_under _ _ "preferences/user-model.yaml"). Qed.
Lemma grants_service a r : service_path (agent_grants_dir a +:+ r) = true.
Proof.
  unfold service_path, agent_grants_dir. rewrite orb_true_iff. right. apply starts_with_spec.
  exists ("agents/" +:+ a +:+ "/grants" +:+ r)%string. by rewrite !str_app_assoc.
Qed.

Ltac confine := repeat first
  [ assumption | match goal with |- forall _, confined _ _ => intros ? end | apply confined_stay | apply confined_at | apply confined_try
  | apply confined_vread | apply confined_vwrite | apply confined_vdelete
  | apply confined_bind; [|intros ?] | case_match | progress cbn beta ].

Lemma confined_read_record P path : service_path path = true -> confined P (read_record yaml_of_names path).
Proof. intros Hp. unfold read_record, read_or, from_yaml. confine. Qed.
Lemma confined_list_records P dir : trim_end_matches "/" dir = dir -> (forall e, service_path (dir +:+ "/" +:+ e) = true) ->
  confined P (list_records yaml_of_names dir).
Proof.
  intros T Hd. unfold list_records. apply confined_at. apply confined_bind; [apply confined_stay|]. intros es.
  induction es as [|e es IH]; cbn [read_entries]; [apply confined_stay|]. rewrite T. case_match; [|done].
  apply confined_bind; [by apply confined_try, confined_read_record|]. confine.
Qed.

#[local] Opaque list_records.

Lemma trim_end_app c a b : b <> EmptyString -> trim_end_matches c b = b -> trim_end_matches c (a +:+ b) = (a +:+ b)%string.
Proof. intros Hb Ht. induction a as [|d a IH]; cbn; [done|]. rewrite IH. by destruct a, b. Qed.
Lemma dir_entry_service owner agent sub e : service_path ((memory_base owner agent +:+ sub) +:+ "/" +:+ e) = true.
Proof. unfold service_path, memory_base. rewrite !str_app_assoc. by rewrite (starts_with_app "/users/"). Qed.
Lemma confined_own_records P owner agent sub : sub = "/episodic"%string \/ sub = "/semantic"%string ->
  confined P (list_records yaml_of_names (memory_base owner agent +:+ sub)).
Proof.
  intros Hs. apply confined_list_records; [|intros e; apply dir_entry_service]. apply trim_end_app; destruct Hs as [-> | ->]; done.
Qed.
Lemma confined_find P owner agent id : confined P (find_record_by_id yaml_of_names stamp owner agent id).
Proof.
  unfold find_record_by_id, find_in_dirs, episodic_dir, semantic_dir.
  confine; apply confined_own_records; auto.
Qed.
(** Where a record is found is a path of the tree it was looked for in. *)
Lemma path_in_own owner agent id rs p : path_in stamp owner agent id rs = Some p -> own_tree owner agent p.
Proof.
  induction rs as [|r rs IH]; cbn; [done|]. repeat case_match; try done; intros [= <-]; [apply own_episodic|apply own_semantic].
Qed.
Lemma returns_bind {A B} (Q : B -> Prop) (m : M A) (f : A -> M B) : (forall a, returns Q (f a)) -> returns Q (m ≫= f).
Proof.
  intros Hf v v' b. unfold mbind, MemM_bind, mem_bind. destruct (m v) as [v1 [[a|e]|]]; [|done..]. apply Hf.
Qed.
Lemma find_own owner agent id : returns (fun o => forall p, o = Some p -> own_tree owner agent p) (find_record_by_id yaml_of_names stamp owner agent id).
Proof.
  unfold find_record_by_id. generalize [episodic_dir owner agent; semantic_dir owner agent]. intros ds.
  induction ds as [|d ds IH]; cbn [find_in_dirs]; [by intros v v' o [= <- <-]|].
  apply returns_bind. intros [rs|e]; [|done]. destruct (path_in stamp owner agent id rs) eqn:E; [|done].
  intros v v' o [= <- <-] p [= <-]. by apply path_in_own in E.
Qed.
#[local] Opaque find_record_by_id.
Lemma confined_granted P owner agent ids : confined P (granted_records yaml_of_names stamp owner agent ids).
Proof.
  induction ids as [|id ids IH]; cbn [granted_records]; [apply confined_stay|].
  eapply confined_bind_post; [apply confined_find|apply find_own|]. cbn. intros o Ho. apply confined_bind; [|confine].
  destruct o as [p|]; [|apply confined_stay]. apply confined_try, confined_read_record, own_service with owner agent. auto.
Qed.
Lemma confined_grants P agent es : confined P (read_grants yaml_of_names stamp rfc3339 (agent_grants_dir agent) es).
Proof.
  induction es as [|e es IH]; cbn [read_grants]; [apply confined_stay|]. case_match; [|done].
  apply confined_bind; [apply confined_try; unfold load_grant, read_or, from_yaml; confine; apply grants_service|].
  intros [g|]; [|done]. apply confined_bind; [apply confined_granted|]. confine.
Qed.
Lemma confined_forget c ids : confined (own_tree (ca_owner c) (ca_agent_name c)) (forget_ids yaml_of_names stamp c ids).
Proof.
  induction ids as [|id ids IH]; cbn [forget_ids]; [apply confined_stay|].
  eapply confined_bind_post; [apply confined_find|apply find_own|]. cbn. intros [p|] Hp.
  - specialize (Hp p eq_refl). apply confined_bind; [|confine]. unfold delete_record. confine. by eapply own_service.
  - confine.
Qed.
Lemma confined_dispatch dl now uuid tool params c :
  confined (own_tree (ca_owner c) (ca_agent_name c)) (dispatch yaml_of_names stamp rfc3339 ln dl now uuid tool params c).
Proof.
  pose proof (own_semantic (ca_owner c) (ca_agent_name c)) as Sem. pose proof (own_episodic (ca_owner c) (ca_agent_name c)) as Epi.
  pose proof (own_preference (ca_owner c) (ca_agent_name c)) as Pref.
  unfold dispatch. repeat case_match;
    unfold retrieve, log_event, store_fact, get_fact, update_preference, get_preferences, forget, share_request, need, own_scope,
      write_record, read_preference_model, write_preference_model, read_or, from_yaml, to_yaml, episodic_dir, semantic_dir, vlist, vexists;
    confine; eauto using confined_own_records, confined_grants, confined_forget, confined_read_record, own_service.
Qed.
End Confinement.

(** ** Reading documents *)

(** YAML text is a [String]. *)
Class SerdeUtf8 (T : Type) `{!Serde T} : Prop := serde_utf8 (x : T) s : to_string x = Ok s -> is_utf8 s = true.

Section Documents.
Context {D : Type} `{!Disk D, !HashOrder}.
Context (yaml_of_names : list string -> string) `{!VfsView D yaml_of_names}.
Implicit Types v : VfsRouter D.

(** The document a path holds: its text is UTF-8 and parses. *)
Definition parses {T} `{!Serde T} (bytes : string) : option T := if is_utf8 bytes then decode bytes else None.
Definition doc_at (T : Type) `{!Serde T} v (path : string) : option T :=
  if is_ok (VfsPath.parse path) then files v !! path ≫= parses else None.

Lemma from_yaml_run {T} `{!Serde T} bytes v : exists r, from_yaml (D := D) (T := T) bytes v = (v, Some r) /\ forall x, r = Ok x <-> parses bytes = Some x.
Proof.
  unfold from_yaml, mbind, MemM_bind, mem_bind, mem_lift, parses, is_utf8, from_utf8, decode.
  destruct (utf8_error 0 0 bytes) as [[i [n|]]|]; cbn; [eexists; split; [done|by split; [|done]]..|].
  destruct (from_str bytes) as [x|e]; eexists; (split; [done|]); intros y; split; by intros [= ->].
Qed.
Lemma vread_run v p : serves v -> service_path p = true ->
  exists r, vread (D := D) yaml_of_names p v = (v, Some r) /\ forall c, r = Ok c <-> files v !! p = Some c.
Proof. intros S P. destruct (view_read v p S P) as (r & E & Hr). exists r. split; [|done]. unfold vread. by rewrite E. Qed.
Lemma vpath_run {A} s (f : string -> MemM D A) v : is_ok (VfsPath.parse s) = true -> (vpath s ≫= f) v = f s v.
Proof.
  unfold vpath, mbind, MemM_bind, mem_bind, mem_lift. destruct (VfsPath.parse s) as [p|] eqn:E; [|done]. intros _. cbn. by rewrite (parse_same _ _ E).
Qed.
Lemma vpath_bad {A} s (f : string -> MemM D A) v : is_ok (VfsPath.parse s) = false -> exists e, (vpath s ≫= f) v = (v, Some (Err e)).
Proof. unfold vpath, mbind, MemM_bind, mem_bind, mem_lift. destruct (VfsPath.parse s); [done|]. cbn. eauto. Qed.

(** [read_record], [read_preference_model] and [load_grant]. *)
Lemma read_doc_run {T} `{!Serde T} what path v : serves v -> service_path path = true ->
  exists r, (p ← vpath path; bytes ← read_or yaml_of_names what path p; from_yaml (T := T) bytes) v = (v, Some r) /\
    forall x, r = Ok x <-> doc_at T v path = Some x.
Proof.
  intros S P. unfold doc_at. destruct (is_ok (VfsPath.parse path)) eqn:E.
  2: { destruct (vpath_bad path (fun p => bytes ← read_or yaml_of_names what path p; from_yaml (T := T) bytes) v E) as [e ->].
       eexists. split; [done|]. by split. }
  rewrite vpath_run by done. destruct (vread_run v path S P) as (r & Er & Hr).
  unfold read_or, mem_try, mem_lift, mbind, MemM_bind, mem_bind. rewrite Er. cbn. destruct r as [c|e]; cbn.
  - rewrite (proj1 (Hr c) eq_refl). cbn. apply from_yaml_run.
  - eexists. split; [done|]. intros x. split; [done|]. destruct (files v !! path) as [c|] ; [|done]. by pose proof (proj2 (Hr c) eq_refl).
Qed.
End Documents.

(** ** What the tools do to the records *)

Section Tools.
Context {D : Type} `{!Disk D, !HashOrder}.
Context `{!Serde MemoryRecord, !Serde UserPreferenceModel, !Serde MemoryGrant, !Serde MemorySvcStatus, !UnicodeText}.
Context (yaml_of_names : list string -> string) `{!VfsView D yaml_of_names}.
Context (stamp day rfc3339 : Z -> string) (ln : f64 -> f64).
Implicit Types (v : VfsRouter D) (c : CallerContext).
Notation tool := (dispatch (D := D) yaml_of_names stamp rfc3339 ln).


Lemma get_fact_run params key c v : serves v -> as_str (jindex params "key") = Some key ->
  get_fact yaml_of_names rfc3339 params c v =
    (v, Some (Ok (match doc_at yaml_of_names MemoryRecord v (vfs_path_semantic (ca_owner c) (ca_agent_name c) key) with
                  | Some r => fact_json rfc3339 r
                  | None => not_found_json
                  end))).
Proof.
  intros S K. unfold get_fact, need. rewrite K. set (path := vfs_path_semantic _ _ _).
  destruct (read_doc_run (T := MemoryRecord) yaml_of_names "memory record" path v S) as (r & E & Hr).
  { eapply own_service, own_semantic. }
  unfold read_record. unfold mbind at 1, MemM_bind at 1, mem_bind at 1, mem_lift at 1, ok_or.
  unfold mem_try, mbind at 1, MemM_bind at 1, mem_bind at 1. unfold path in *. rewrite E.
  replace (doc_at yaml_of_names MemoryRecord v (vfs_path_semantic (ca_owner c) (ca_agent_name c) key))
    with (match r with Ok x => Some x | Err _ => None end); [by destruct r|].
  destruct r as [x|e]; [symmetry; by apply Hr|]. destruct (doc_at _ _ _ _) as [x|]; [|done]. by pose proof (proj2 (Hr x) eq_refl).
Qed.

Context `{!SerdeLaws MemoryRecord, !SerdeUtf8 MemoryRecord}.

(** A record that is written to a path the VFS accepts is the document there afterwards. *)
Lemma write_record_run path r v : serves v -> service_path path = true -> is_ok (VfsPath.parse path) = true -> fits r ->
  exists v', write_record (D := D) path r v = (v', Some (Ok ())) /\ serves v' /\ doc_at yaml_of_names MemoryRecord v' path = Some r /\
    forall q, q <> path -> files v' !! q = files v !! q.
Proof.
  intros S P Ok_ Fit. destruct (from_to_string r Fit) as (s & Es & Ds). unfold write_record, to_yaml.
  rewrite Es. unfold mbind at 1, MemM_bind at 1, mem_bind at 1, mem_lift at 1. cbn [map_err]. rewrite vpath_run by done.
  destruct (view_write v path s S P) as (v' & E & S' & F & _). exists v'. unfold vwrite, on_vfs. rewrite E.
  split; [done|]. split; [done|]. split.
  - unfold doc_at. rewrite Ok_, F, lookup_insert_eq. cbn. unfold parses, decode. by rewrite (serde_utf8 r s Es), Ds.
  - intros q Hq. by rewrite F, lookup_insert_ne.
Qed.

End Tools.

(** ** What the sweeps delete *)

Section Sweeps.
Context {D : Type} `{!Disk D, !HashOrder, !HashOrderLaws}.
Context (yaml_of_names : list string -> string) `{!VfsView D yaml_of_names}.
Implicit Types v : VfsRouter D.

Lemma service_below d r : service_path d = true -> service_path (d +:+ r) = true.
Proof.
  unfold service_path. rewrite !orb_true_iff. intros [[s ->]%starts_with_spec|[s ->]%starts_with_spec]; [left|right];
    apply starts_with_spec; exists (s +:+ r)%string; by rewrite str_app_assoc.
Qed.
Lemma parse_below d r : service_path d = true -> is_ok (VfsPath.parse (d +:+ r)) = true -> is_ok (VfsPath.parse d) = true.
Proof.
  intros S%service_absolute. unfold VfsPath.parse. rewrite S. destruct (starts_with "/" (d +:+ r)); [|done]. cbn [negb].
  destruct (str_contains ".." (d +:+ r)) eqn:E; [done|]. by rewrite (VfsPath.str_contains_prefix _ _ _ E).
Qed.

Context {T : Type} `{!Serde T} (expired : T -> bool).
Implicit Types (l : list string) (q : string).

Definition dies v q : Prop := exists x, doc_at yaml_of_names T v q = Some x /\ expired x = true.
Definition size_of v q : nat := String.length (default EmptyString (files v !! q)).
(** [v'] is [v] without the files [l]. *)
Definition removed l v v' : Prop :=
  serves v' /\ (forall q, files v' !! q = if decide (q ∈ l) then None else files v !! q) /\
  forall q, service_path q = false -> (Vfs.read yaml_of_names v' q).2 = (Vfs.read yaml_of_names v q).2.

#[export] Instance dies_dec v q : Decision (dies v q).
Proof.
  destruct (doc_at yaml_of_names T v q) as [x|] eqn:E; [destruct (expired x) eqn:X|].
  - left. by exists x.
  - right. intros (y & Hy & Hx). congruence.
  - right. intros (y & Hy & _). congruence.
Defined.
Lemma removed_nil v : serves v -> removed [] v v.
Proof. intros S. split; [done|]. split; [|done]. intros q. by rewrite decide_False by apply not_elem_of_nil. Qed.
Lemma removed_app l1 l2 v1 v2 v3 : removed l1 v1 v2 -> removed l2 v2 v3 -> removed (l1 ++ l2) v1 v3.
Proof.
  intros (_ & F1 & R1) (S & F2 & R2). split; [done|]. split; [|intros q Hq; by rewrite R2, R1].
  intros q. rewrite F2, F1. repeat case_decide; set_solver.
Qed.
Lemma dies_removed l v v' q : removed l v v' -> dies v' q <-> dies v q /\ q ∉ l.
Proof.
  intros (_ & F & _). unfold dies, doc_at. rewrite F. destruct (is_ok (VfsPath.parse q)); [|naive_solver].
  case_decide; naive_solver.
Qed.
Lemma size_removed l v v' q : removed l v v' -> q ∉ l -> size_of v' q = size_of v q.
Proof. intros (_ & F & _) Hq. unfold size_of. by rewrite F, decide_False. Qed.

Lemma sweep_file_run v q : serves v -> service_path q = true ->
  exists v', removed (if decide (dies v q) then [q] else []) v v' /\
    sweep_file yaml_of_names expired q v = (v', Some (Ok (if decide (dies v q) then Some (size_of v q) else None))).
Proof.
  intros S P. unfold sweep_file, mem_try. unfold mbind at 1, MemM_bind at 1, mem_bind at 1, vpath, mem_lift at 1.
  destruct (VfsPath.parse q) as [p|e] eqn:E; cbn [map_err fmap option_fmap option_map].
  2: { assert (~ dies v q) as N by (intros (x & Hx & _); unfold doc_at in Hx; by rewrite E in Hx).
       rewrite !decide_False by done. exists v. split; [by apply removed_nil|done]. }
  apply parse_same in E as Ep. subst p. unfold mbind at 1, MemM_bind at 1, mem_bind at 1.
  destruct (vread_run yaml_of_names v q S P) as (r & -> & Hr). cbn [fmap option_fmap option_map].
  destruct r as [bytes|e].
  2: { assert (~ dies v q) as N.
       { intros (x & Hx & _). unfold doc_at in Hx. rewrite E in Hx. cbn in Hx. destruct (files v !! q) as [b|]; [|done].
         by pose proof (proj2 (Hr b) eq_refl). }
       rewrite !decide_False by done. exists v. split; [by apply removed_nil|done]. }
  pose proof (proj1 (Hr bytes) eq_refl) as Fq. unfold mbind at 1, MemM_bind at 1, mem_bind at 1.
  destruct (from_yaml_run (T := T) bytes v) as (r & -> & Hx). cbn [fmap option_fmap option_map].
  assert (forall x, doc_at yaml_of_names T v q = Some x <-> r = Ok x) as Doc.
  { intros x. unfold doc_at. rewrite E, Fq. cbn. symmetry. apply Hx. }
  destruct r as [x|e].
  2: { assert (~ dies v q) as N by (intros (x & ?%Doc & _); done).
       rewrite !decide_False by done. exists v. split; [by apply removed_nil|done]. }
  destruct (expired x) eqn:X.
  - assert (dies v q) as Y by (exists x; split; [by apply Doc|done]). rewrite !decide_True by done.
    pose proof (view_delete v q S P) as Del. rewrite decide_True in Del by (by rewrite Fq).
    destruct Del as (v' & Ed & S' & F' & R'). exists v'. split.
    + split; [done|]. split; [|done]. intros q'. rewrite F', lookup_delete. repeat case_decide; set_solver.
    + unfold mbind, MemM_bind, mem_bind, vdelete, on_vfs. rewrite Ed. unfold size_of. by rewrite Fq.
  - assert (~ dies v q) as N by (intros (y & [= <-]%Doc & ?); congruence).
    rewrite !decide_False by done. exists v. split; [by apply removed_nil|done].
Qed.

Lemma filter_ext_in {A} (P Q : A -> Prop) `{!forall x, Decision (P x), !forall x, Decision (Q x)} (l : list A) :
  (forall x, x ∈ l -> P x <-> Q x) -> base.filter P l = base.filter Q l.
Proof.
  induction l as [|x l IH]; intros Hx; [done|]. rewrite !filter_cons, IH by set_solver.
  destruct (Hx x ltac:(set_solver)). repeat case_decide; naive_solver.
Qed.
Definition entry_path (d e : string) : string := (d +:+ "/" +:+ e)%string.
#[export] Instance entry_path_inj d : Inj (=) (=) (entry_path d).
Proof. intros e e' E. unfold entry_path in E. apply str_app_inj_l in E. by injection E. Qed.
(** The files of a directory the sweep deletes, among its entries. *)
Definition victims v d (es : list string) : list string :=
  entry_path d <$> base.filter (fun e => is_yaml e = true /\ dies v (entry_path d e)) es.

Lemma sweep_files_run d es : forall v, serves v -> service_path d = true -> NoDup es ->
  exists v', removed (victims v d es) v v' /\
    sweep_files yaml_of_names expired d es v = (v', Some (Ok (size_of v <$> victims v d es))).
Proof.
  induction es as [|e es IH]; intros v S P Nd; cbn [sweep_files].
  { exists v. split; [by apply removed_nil|done]. }
  apply NoDup_cons in Nd as [He Nd]. unfold victims. rewrite filter_cons. destruct (is_yaml e) eqn:Y.
  2: { rewrite decide_False by naive_solver. by apply IH. }
  destruct (sweep_file_run v (entry_path d e) S (service_below _ _ P)) as (v1 & R1 & E1).
  destruct (IH v1 (proj1 R1) P Nd) as (v2 & R2 & E2).
  assert (victims v1 d es = victims v d es) as Same.
  { unfold victims. f_equal. apply filter_ext_in. intros e' He'. rewrite (dies_removed _ _ _ _ R1).
    assert (entry_path d e' ∉ (if decide (dies v (entry_path d e)) then [entry_path d e] else [])) as N; [|naive_solver].
    case_decide; [|by apply not_elem_of_nil]. intros ->%list_elem_of_singleton%(inj _). done. }
  exists v2. unfold mbind at 1, MemM_bind at 1, mem_bind at 1. unfold entry_path in E1 at 1. rewrite E1.
  unfold mbind, MemM_bind, mem_bind. rewrite E2. rewrite Same in R2 |- *.
  assert (size_of v1 <$> victims v d es = size_of v <$> victims v d es) as ->.
  { apply list_fmap_ext. intros i q Hq%list_elem_of_lookup_2. apply (size_removed _ _ _ _ R1).
    intros Hin. case_decide; [|by apply not_elem_of_nil in Hin]. apply list_elem_of_singleton in Hin as ->.
    unfold victims in Hq. apply list_elem_of_fmap in Hq as (e' & ->%(inj _) & [_ ?]%list_elem_of_filter). done. }
  pose proof (removed_app _ _ _ _ _ R1 R2) as R. destruct (decide (dies v (entry_path d e))) as [H1|H1].
  - rewrite decide_True by done. cbn. split; [exact R|done].
  - rewrite decide_False by naive_solver. cbn. split; [exact R|done].
Qed.

(** What a sweep of some directories deletes: the files directly in them that end in [.yaml] and hold an expired
    document. *)
Definition doomed v (dirs : list string) q : Prop :=
  exists d e, d ∈ dirs /\ q = entry_path d e /\ str_contains_char "/" e = false /\ is_yaml e = true /\ dies v q.
Definition sweepable (d : string) : Prop := service_path d = true /\ trim_end_matches "/" d = d.

Lemma victims_listed v d es : serves v -> sweepable d -> vlist d v = (v, Some (Ok es)) ->
  NoDup es /\ NoDup (victims v d es) /\ forall q, q ∈ victims v d es <-> doomed v [d] q.
Proof.
  intros S [P T0] L. unfold vlist in L. injection L as L.
  set (listed := match Vfs.list_path v d with Ok s => s | Err _ => ∅ end).
  assert (NoDup es /\ forall e, e ∈ es <-> e ∈ listed) as [Nd Hes].
  { subst es listed. destruct (Vfs.list_path v d); [apply dir_iter_spec|]. split; [apply NoDup_nil_2|set_solver]. }
  split; [done|]. split; [by apply NoDup_fmap_2, NoDup_filter; [apply _|]|]. intros q. unfold victims, doomed.
  rewrite list_elem_of_fmap. split.
  - intros (e & -> & [[Y Dq] He]%list_elem_of_filter). exists d, e. apply Hes in He. apply (view_list v d e S P T0) in He as [Hs _].
    split; [set_solver|]. done.
  - intros (d' & e & ->%list_elem_of_singleton & -> & Hs & Y & Dq). exists e. split; [done|]. apply list_elem_of_filter. split; [done|].
    apply Hes, (view_list v d e S P T0); [|done|by intros ->].
    destruct Dq as (x & Hx & _). unfold doc_at, entry_path in Hx. destruct (is_ok _); [|done]. destruct (files v !! _); [by eexists|done].
Qed.

Lemma sweep_dirs_run dirs : forall v, serves v -> Forall sweepable dirs ->
  exists l v', NoDup l /\ (forall q, q ∈ l <-> doomed v dirs q) /\ removed l v v' /\
    sweep_dirs yaml_of_names expired dirs v = (v', Some (Ok (size_of v <$> l))).
Proof.
  induction dirs as [|d dirs IH]; intros v S F; cbn [sweep_dirs].
  { exists [], v. split; [apply NoDup_nil_2|]. split; [|by split; [apply removed_nil|]]. intros q. split; [set_solver|].
    by intros (? & ? & ?%not_elem_of_nil & _). }
  apply Forall_cons in F as [Sd F]. pose proof Sd as [P T0].
  assert (exists l1 v1, NoDup l1 /\ (forall q, q ∈ l1 <-> doomed v [d] q) /\ removed l1 v v1 /\
    (p ← mem_try (vpath d); match p with Ok p => es ← vlist p; sweep_files yaml_of_names expired d es | Err _ => mem_ret [] end) v
      = (v1, Some (Ok (size_of v <$> l1)))) as (l1 & v1 & N1 & H1 & R1 & E1).
  { unfold mem_try, vpath, mem_lift. unfold mbind at 1, MemM_bind at 1, mem_bind at 1. destruct (VfsPath.parse d) as [p|e] eqn:Ep; cbn [map_err fmap option_fmap option_map].
    - apply parse_same in Ep as ->. destruct (vlist d v) as [v0 o] eqn:L. unfold vlist in L. injection L as <- <-.
      set (es := match Vfs.list_path v d with Ok s => dir_iter s | Err _ => [] end).
      destruct (victims_listed v d es S Sd) as (Nd & Nv & Hv); [done|].
      destruct (sweep_files_run d es v S P Nd) as (v1 & R1 & E1). exists (victims v d es), v1.
      split; [done|]. split; [done|]. split; [done|]. unfold mbind, MemM_bind, mem_bind, vlist. fold es. exact E1.
    - exists [], v. split; [apply NoDup_nil_2|]. split; [|by split; [apply removed_nil|]]. intros q. split; [set_solver|].
      intros (d' & e' & ->%list_elem_of_singleton & -> & _ & _ & x & Hx & _). exfalso. unfold doc_at in Hx.
      destruct (is_ok (VfsPath.parse (entry_path d e'))) eqn:O; [|done]. apply parse_below in O; [|done]. by rewrite Ep in O. }
  destruct (IH v1 (proj1 R1) F) as (l2 & v2 & N2 & H2 & R2 & E2).
  assert (forall q, q ∈ l2 <-> doomed v dirs q /\ q ∉ l1) as H2'.
  { intros q. rewrite H2. unfold doomed. setoid_rewrite (dies_removed _ _ _ _ R1). naive_solver. }
  exists (l1 ++ l2), v2. split; [|split; [|split; [by eapply removed_app|]]].
  - apply NoDup_app. split; [done|]. split; [|done]. intros q Hq1 Hq2%H2'. by apply Hq2.
  - intros q. rewrite elem_of_app, H1, H2'. unfold doomed. destruct (decide (q ∈ l1)) as [Hq|Hq].
    + apply H1 in Hq as Hd. unfold doomed in Hd. split; [|naive_solver]. intros _. destruct Hd as (d' & e & ->%list_elem_of_singleton & Hd).
      exists d, e. split; [set_solver|done].
    + rewrite H1 in Hq. unfold doomed in Hq. split; [intros [Hd|[(d' & e & Hin & Hr) _]]; [by destruct Hq|exists d', e; split; [set_solver|done]]|].
      intros (d' & e & [->|Hd]%elem_of_cons & Hr); [exfalso; apply Hq; exists d, e; split; [set_solver|done]|].
      right. split; [exists d', e; done|]. rewrite H1. exact Hq.
  - rewrite <- (mem_bind_assoc (mem_try (vpath d))), (mem_bind_run _ _ _ _ _ E1), (mem_bind_run _ _ _ _ _ E2), fmap_app. 
    replace (size_of v1 <$> l2) with (size_of v <$> l2); [done|].
    apply list_fmap_ext. intros i q Hq%list_elem_of_lookup_2. symmetry. apply (size_removed _ _ _ _ R1), H2', Hq.
Qed.
End Sweeps.

Lemma episodic_sweepable owner agent : sweepable (episodic_dir owner agent).
Proof.
  split; [|by apply trim_end_app]. unfold episodic_dir, memory_base, service_path. rewrite !str_app_assoc. by rewrite (starts_with_app "/users/").
Qed.
Lemma grants_sweepable agent : sweepable (agent_grants_dir agent).
Proof.
  split; [|unfold agent_grants_dir; rewrite <- str_app_assoc; by apply trim_end_app].
  pose proof (grants_service agent EmptyString) as P. by rewrite str_app_nil_r in P.
Qed.

Section Garbage.
Context {D : Type} `{!Disk D, !HashOrder, !HashOrderLaws, !Serde MemoryRecord, !Serde MemoryGrant}.
Context (yaml_of_names : list string -> string) `{!VfsView D yaml_of_names}.
Implicit Types v : VfsRouter D.
Notation record_at := (doc_at yaml_of_names MemoryRecord).
Notation grant_at := (doc_at yaml_of_names MemoryGrant).

(** a collection ends, whatever the files hold, and deletes exactly the files directly in the episodic directories of
    the given agents that end in .yaml and hold a record older than the retention time that is not pinned; it
    reports their number and their bytes; no pinned, semantic, newer or unreadable file goes, nor any file of
    another agent. *)
Theorem gc_exact now agents days v : serves v -> MIN_UTC <= now - days * DAY_NS ->
  exists l v', NoDup l /\
    (forall q, q ∈ l <-> exists owner agent e r, (owner, agent) ∈ agents /\ q = (episodic_dir owner agent +:+ "/" +:+ e)%string /\
       str_contains_char "/" e = false /\ is_yaml e = true /\ record_at v q = Some r /\
       mr_pinned (mr_metadata r) = false /\ mr_created_at (mr_metadata r) < now - days * DAY_NS) /\
    gc_episodic_records yaml_of_names now agents days v =
      (v', Some (Ok {| records_deleted := Z.of_nat (length l); bytes_freed := Z.of_nat (sum_list (size_of yaml_of_names v <$> l)) |})) /\
    serves v' /\ (forall q, files v' !! q = if decide (q ∈ l) then None else files v !! q) /\
    forall q, service_path q = false -> (Vfs.read yaml_of_names v' q).2 = (Vfs.read yaml_of_names v q).2.
Proof.
  intros S Hmin. destruct (sweep_dirs_run yaml_of_names (old_record (now - days * DAY_NS)) ((fun a => episodic_dir a.1 a.2) <$> agents) v S)
    as (l & v' & Nd & Hl & (S' & F & R) & E).
  { apply Forall_fmap, Forall_true. intros [owner agent]. apply episodic_sweepable. }
  exists l, v'. split; [done|]. split; [|split; [|done]].
  - intros q. rewrite Hl. unfold doomed, dies, old_record. split.
    + intros (d & e & ([owner agent] & -> & Ha)%list_elem_of_fmap & -> & Hs & Y & r & Hr & [P%negb_true_iff T%bool_decide_eq_true]%andb_true_iff).
      exists owner, agent, e, r. done.
    + intros (owner & agent & e & r & Ha & -> & Hs & Y & Hr & P & T). exists (episodic_dir owner agent), e.
      split; [apply list_elem_of_fmap; by exists (owner, agent)|]. do 3 (split; [done|]). exists r. split; [done|].
      by rewrite P, bool_decide_eq_true_2.
  - unfold gc_episodic_records, mem_opt. unfold mbind at 1, MemM_bind at 1, mem_bind at 1. rewrite decide_True by done. cbn [fmap option_fmap option_map].
    rewrite (mem_bind_run _ _ _ _ _ E). unfold mem_ret. by rewrite length_fmap.
Qed.

(** when a session closes, exactly its session grants in the agent's directory go: afterwards no file there grants
    anything for this session, and permanent grants, those of other sessions and those of other agents stay. *)
Theorem session_grants_end agent session v : serves v -> is_ok (VfsPath.parse (agent_grants_dir agent)) = true ->
  exists v', cleanup_session_grants yaml_of_names agent session v = (v', Some (Ok ())) /\ serves v' /\
    (forall q, files v' !! q = None \/ files v' !! q = files v !! q) /\
    (forall q, (files v' !! q <> files v !! q) <-> exists e g, q = (agent_grants_dir agent +:+ "/" +:+ e)%string /\
       str_contains_char "/" e = false /\ is_yaml e = true /\ grant_at v q = Some g /\ gr_scope (gr_spec g) = ScSession /\ gr_session_id (gr_spec g) = session).
Proof.
  intros S P. destruct (grants_sweepable agent) as [Sp Tr]. unfold cleanup_session_grants. rewrite vpath_run by done.
  destruct (vlist (D := D) (agent_grants_dir agent) v) as [v0 o] eqn:L. unfold vlist in L. injection L as <- <-.
  set (es := match Vfs.list_path v (agent_grants_dir agent) with Ok s => dir_iter s | Err _ => [] end).
  destruct (victims_listed yaml_of_names (session_grant session) v (agent_grants_dir agent) es S) as (Nd & Nv & Hv); [by split|done|].
  destruct (sweep_files_run yaml_of_names (session_grant session) (agent_grants_dir agent) es v S Sp Nd) as (v' & (S' & F & _) & E).
  exists v'. split; [|split; [done|]].
  { unfold mbind at 1, MemM_bind at 1, mem_bind at 1, vlist. fold es. by rewrite (mem_bind_run _ _ _ _ _ E). }
  split; [intros q; rewrite F; case_decide; auto|]. intros q. rewrite F. transitivity (q ∈ victims yaml_of_names (session_grant session) v (agent_grants_dir agent) es).
  - case_decide as Hq; [|by split; [intros []|]]. split; [done|]. intros _. apply Hv in Hq as (d & e & _ & _ & _ & _ & x & Hx & _). unfold doc_at in Hx.
    destruct (is_ok (VfsPath.parse q)); [|done]. by destruct (files v !! q).
  - rewrite Hv. unfold doomed, dies, session_grant. split.
    + intros (d & e & ->%list_elem_of_singleton & -> & Hs & Y & g & Hg & [Sc%bool_decide_eq_true Se%String.eqb_eq]%andb_true_iff). by exists e, g.
    + intros (e & g & -> & Hs & Y & Hg & Sc & Se). exists (agent_grants_dir agent), e. split; [set_solver|]. do 3 (split; [done|]).
      exists g. split; [done|]. by rewrite Sc, Se, String.eqb_refl.
Qed.
End Garbage.

(** ** Witnesses *)

Module Toy.
#[local] Instance order : HashOrder := fun A m => map_to_list m.
#[local] Instance order_laws : HashOrderLaws.
Proof. by intros A m. Qed.
#[local] Instance ascii_only : UnicodeText := {| alnum_wide _ := false; lower_wide s := s |}.
Definition names_text (l : list string) : string := str_join "," l.
Definition time_text (t : Z) : string := pretty t.
Definition no_ln (x : f64) : f64 := x.
Definition alice : CallerContext := {| ca_pid := 7; ca_agent_name := "researcher"; ca_owner := "alice"; ca_session_id := "s1"; ca_granted_tools := [] |}.
Definition fact_params : json := JObj [("key", JStr "deadline"); ("summary", JStr "April 30"); ("pinned", JBool true)]%string.
Definition fact : MemoryRecord := fact_record 5 "0123456789abcdef" fact_params alice "deadline" "April 30".
Definition event (id : string) (created : Z) : MemoryRecord :=
  record_new (caller_metadata alice Episodic id created [] false)
    {| mr_content := "done"; outcome := Some OutSuccess; related_goal := None; tools_used := []; mr_key := None; confidence := None;
       ttl_days := None; mr_index := index_default |}.
Definition known : list MemoryRecord := [fact; event "old" 0; event "new" (50 * DAY_NS)].
(** Documents whose text is their id. *)
#[local] Instance record_text : Serde MemoryRecord := {|
  to_string r := if is_utf8 (mr_id (mr_metadata r)) then Ok (mr_id (mr_metadata r)) else Err "not text"%string;
  from_str s := match list_find (fun r => mr_id (mr_metadata r) = s) known with Some (_, r) => Ok r | None => Err "unknown"%string end |}.
#[local] Program Instance record_laws : SerdeLaws MemoryRecord := {|
  fits r := exists s, to_string r = Ok s /\ from_str s = Ok r |}.
Next Obligation. done. Qed.
#[local] Instance record_utf8 : SerdeUtf8 MemoryRecord.
Proof. intros r s. cbn. repeat case_match; by intros [= <-]. Qed.
Definition share : MemoryGrant := grant_new {| gr_id := "grant-1"; granted_at := 1; granted_by := "alice"; gr_hil_id := "h" |}
  {| grantor := {| gp_agent_name := "writer"; gp_owner := "alice" |}; grantee := {| gp_agent_name := "researcher"; gp_owner := "alice" |};
     gr_records := ["old"]; gr_scope := ScSession; gr_session_id := "s1"; gr_expires_at := None |}%string.
#[local] Instance grant_text : Serde MemoryGrant := {|
  to_string g := Ok "grant"%string; from_str s := if String.eqb s "grant" then Ok share else Err "unknown"%string |}.
#[local] Instance model_text : Serde UserPreferenceModel := {| to_string _ := Err "none"%string; from_str _ := Err "none"%string |}.
#[local] Instance status_text : Serde MemorySvcStatus := {| to_string _ := Err "none"%string; from_str _ := Err "none"%string |}.

Definition grant_file : string := memory_agent_grants_path "researcher" "grant-1".
Definition old_file : string := (episodic_dir "alice" "researcher" +:+ "/1970-01-01T00:00:00Z-old.yaml")%string.
Definition new_file : string := (episodic_dir "alice" "researcher" +:+ "/1970-02-20T00:00:00Z-new.yaml")%string.
Definition router : VfsRouter unit := with_default empty_router (<[grant_file := "grant"]> (<[old_file := "old"]> {[new_file := "new"]}))%string.
Lemma router_serves : serves (VfsView := default_view names_text) router.
Proof. split; [done|]. split; [constructor|]. done. Qed.

Lemma gc_exact_witness : exists l v',
  gc_episodic_records names_text (60 * DAY_NS) [("alice", "researcher")]%string 30 router =
    (v', Some (Ok {| records_deleted := Z.of_nat (length l); bytes_freed := Z.of_nat (sum_list (size_of names_text router <$> l)) |})) /\
  old_file ∈ l /\ new_file ∉ l.
Proof.
  destruct (gc_exact names_text (60 * DAY_NS) [("alice", "researcher")]%string 30 router router_serves) as (l & v' & _ & Hl & E & _); [by vm_compute|].
  exists l, v'. split; [exact E|]. split.
  - apply Hl. exists "alice"%string, "researcher"%string, "1970-01-01T00:00:00Z-old.yaml"%string, (event "old" 0). split; [apply list_elem_of_here|].
    do 3 (split; [reflexivity|]). split; [vm_compute; reflexivity|]. split; [reflexivity|vm_compute; reflexivity].
  - intros (o & a & e & r & [= -> ->]%list_elem_of_singleton & _ & _ & _ & Hr & _ & Hc)%Hl. revert Hc.
    assert (Some r = Some (event "new" (50 * DAY_NS))) as [= ->] by (rewrite <- Hr; vm_compute; reflexivity). vm_compute. discriminate.
Defined.
Lemma session_grants_end_witness : exists v', cleanup_session_grants names_text "researcher" "s1" router = (v', Some (Ok ())) /\
  files (VfsView := default_view names_text) v' !! grant_file <> files (VfsView := default_view names_text) router !! grant_file.
Proof.
  destruct (session_grants_end names_text "researcher" "s1" router router_serves) as (v' & E & _ & _ & G); [reflexivity|].
  exists v'. split; [exact E|]. apply G. exists "grant-1.yaml"%string, share.
  do 3 (split; [reflexivity|]). split; [vm_compute; reflexivity|]. by split.
Defined.
End Toy.
