(* ===== verification/Sessions.v ===== *)
(** * Session records and their store

    Models [session/record.rs] and [session/persistence.rs]: what a session remembers of the agents
    that work in it, the operations on a record, and the redb table the records live in.  The class
    [SessionStoreI] is what the rest of the kernel relies on; the redb store is an instance of it.
    The clock, in nanoseconds, is the argument [now]. *)

From S2P Require Import Prelude Types Store.
Local Open Scope Z_scope.

(** ** Uuids: 128-bit numbers, with the text form of the uuid crate *)

Class UuidText : Type := { uuid_str : Z -> string; parse_str : string -> result string Z }.
Class UuidLaws `{!UuidText} : Prop := { parse_uuid_str u : parse_str (uuid_str u) = Ok u }.
#[global] Instance uuid_str_inj `{!UuidText, !UuidLaws} : Inj (=) (=) uuid_str.
Proof.
  intros u v E. pose proof (parse_uuid_str u) as Hu. rewrite E, parse_uuid_str in Hu. congruence.
Qed.

(** ** Records *)

Record PidInvocationMeta : Type := {
  pm_pid : Z; pm_invocation_id : string; pm_agent_name : string; pm_agent_version : string; pm_spawned_at : Z
}.

Module SessionStatus.
Inductive t : Type := Running | Idle | Paused | Completed | Failed | Archived.
#[global] Instance eq_dec : EqDecision t.
Proof. solve_decision. Defined.
(** The [Debug] form. *)
Definition debug (s : t) : string :=
  match s with
  | Running => "Running" | Idle => "Idle" | Paused => "Paused"
  | Completed => "Completed" | Failed => "Failed" | Archived => "Archived"
  end.
End SessionStatus.

Record SessionRecord : Type := {
  id : Z;
  parent_id : option Z;
  project_id : option string;
  title : string;
  goal : string;
  username : string;
  spawned_at : Z;
  last_updated : Z;
  status : SessionStatus.t;
  summary : option string;
  tokens_total : Z;
  origin_agent : string;
  primary_agent : string;
  participants : list string;
  owner_pid : Z;
  pids : list Z;
  invocation_pids : list PidInvocationMeta
}.

Definition session_new (now : Z) (id : Z) (username origin_agent title goal : string) (owner_pid : Z) : SessionRecord := {|
  id := id; parent_id := None; project_id := None; title := title; goal := goal; username := username;
  spawned_at := now; last_updated := now; status := SessionStatus.Running; summary := None; tokens_total := 0;
  origin_agent := origin_agent; primary_agent := origin_agent; participants := []; owner_pid := owner_pid;
  pids := [owner_pid]; invocation_pids := [] |}.

(** The fields the operations assign, [last_updated] with them. *)
Definition touch (r : SessionRecord) (now : Z) (st : SessionStatus.t) (tok : Z) (prim : string)
    (parts : list string) (ps : list Z) (metas : list PidInvocationMeta) : SessionRecord := {|
  id := id r; parent_id := parent_id r; project_id := project_id r; title := title r; goal := goal r;
  username := username r; spawned_at := spawned_at r; last_updated := now; status := st;
  summary := summary r; tokens_total := tok; origin_agent := origin_agent r; primary_agent := prim;
  participants := parts; owner_pid := owner_pid r; pids := ps; invocation_pids := metas |}.

Definition with_status (r : SessionRecord) (now : Z) (s : SessionStatus.t) : SessionRecord :=
  touch r now s (tokens_total r) (primary_agent r) (participants r) (pids r) (invocation_pids r).
Definition mark_idle (now : Z) (r : SessionRecord) : SessionRecord := with_status r now SessionStatus.Idle.
Definition mark_running (now : Z) (r : SessionRecord) : SessionRecord := with_status r now SessionStatus.Running.
Definition mark_completed (now : Z) (r : SessionRecord) : SessionRecord := with_status r now SessionStatus.Completed.
Definition mark_failed (now : Z) (r : SessionRecord) : SessionRecord := with_status r now SessionStatus.Failed.
Definition mark_paused (now : Z) (r : SessionRecord) : SessionRecord := with_status r now SessionStatus.Paused.

Definition add_invocation_pid (now : Z) (meta : PidInvocationMeta) (r : SessionRecord) : SessionRecord :=
  let metas := if existsb (fun m => bool_decide (pm_pid m = pm_pid meta)) (invocation_pids r)
               then invocation_pids r else invocation_pids r ++ [meta] in
  touch r now (status r) (tokens_total r) (primary_agent r) (participants r) (pids r) metas.

Definition add_pid (now : Z) (pid : Z) (r : SessionRecord) : SessionRecord :=
  let ps := if bool_decide (pid ∈ pids r) then pids r else pids r ++ [pid] in
  touch r now (status r) (tokens_total r) (primary_agent r) (participants r) ps (invocation_pids r).

Definition remove_pid (now : Z) (pid : Z) (r : SessionRecord) : SessionRecord :=
  touch r now (status r) (tokens_total r) (primary_agent r) (participants r)
    (filter (fun p => p <> pid) (pids r)) (invocation_pids r).

(** [session.pids.clear()]: the time stamp stays. *)
Definition clear_pids (r : SessionRecord) : SessionRecord :=
  touch r (last_updated r) (status r) (tokens_total r) (primary_agent r) (participants r) [] (invocation_pids r).

Definition add_participant (now : Z) (agent_name : string) (make_primary : bool) (r : SessionRecord) : SessionRecord :=
  let parts := if list_contains agent_name (participants r) then participants r
               else participants r ++ [agent_name] in
  touch r now (status r) (tokens_total r) (if make_primary then agent_name else primary_agent r) parts
    (pids r) (invocation_pids r).

Definition set_primary (now : Z) (agent_name : string) (r : SessionRecord) : SessionRecord :=
  if list_contains agent_name (participants r) || bool_decide (agent_name = origin_agent r)
  then touch r now (status r) (tokens_total r) agent_name (participants r) (pids r) (invocation_pids r)
  else r.

(** [self.tokens_total += tokens]: [None] where the addition overflows. *)
Definition add_tokens (now : Z) (tokens : Z) (r : SessionRecord) : option SessionRecord :=
  total ← u64_checked_add (tokens_total r) tokens;
  Some (touch r now (status r) total (primary_agent r) (participants r) (pids r) (invocation_pids r)).

(** ** Sequences of operations on a record *)

Inductive SessionOp : Type :=
| SMark (now : Z) (s : SessionStatus.t)
| SAddInvocation (now : Z) (m : PidInvocationMeta)
| SAddPid (now pid : Z)
| SRemovePid (now pid : Z)
| SClearPids
| SAddParticipant (now : Z) (name : string) (prim : bool)
| SSetPrimary (now : Z) (name : string)
| SAddTokens (now n : Z).

Definition apply_op (r : SessionRecord) (o : SessionOp) : option SessionRecord :=
  match o with
  | SMark now SessionStatus.Running => Some (mark_running now r)
  | SMark now SessionStatus.Idle => Some (mark_idle now r)
  | SMark now SessionStatus.Paused => Some (mark_paused now r)
  | SMark now SessionStatus.Completed => Some (mark_completed now r)
  | SMark now SessionStatus.Failed => Some (mark_failed now r)
  | SMark _ SessionStatus.Archived => Some r
  | SAddInvocation now m => Some (add_invocation_pid now m r)
  | SAddPid now p => Some (add_pid now p r)
  | SRemovePid now p => Some (remove_pid now p r)
  | SClearPids => Some (clear_pids r)
  | SAddParticipant now n p => Some (add_participant now n p r)
  | SSetPrimary now n => Some (set_primary now n r)
  | SAddTokens now n => add_tokens now n r
  end.
Definition apply_ops (r : SessionRecord) (os : list SessionOp) : option SessionRecord :=
  foldl (fun o op => r ← o; apply_op r op) (Some r) os.

(** Active pids, participants and the pids with metadata are duplicate free, the primary agent takes part,
    and the token count is a [u64]. *)
Record session_wf (r : SessionRecord) : Prop := {
  wf_pids : NoDup (pids r);
  wf_participants : NoDup (participants r);
  wf_metas : NoDup (pm_pid <$> invocation_pids r);
  wf_primary : primary_agent r ∈ origin_agent r :: participants r;
  wf_tokens : is_u64 (tokens_total r)
}.

(** What no operation changes. *)
Definition same_identity (r r' : SessionRecord) : Prop :=
  id r' = id r /\ owner_pid r' = owner_pid r /\ origin_agent r' = origin_agent r /\
  username r' = username r /\ goal r' = goal r /\ spawned_at r' = spawned_at r.

(** ** The store *)

(** What the kernel relies on: the records of a store by the text of their id. *)
Class SessionStoreI (S : Type) : Type := {
  ss_create : S -> SessionRecord -> result AvixError unit * S;
  ss_get : S -> Z -> result AvixError (option SessionRecord);
  ss_update : S -> SessionRecord -> result AvixError unit * S;
  ss_delete : S -> Z -> result AvixError unit * S;
  ss_list_for_user : S -> string -> result AvixError (list SessionRecord);
  ss_list_all : S -> result AvixError (list SessionRecord)
}.
Class SessionStoreLaws (S : Type) `{!SessionStoreI S, !UuidText} : Type := {
  sessions : S -> gmap string SessionRecord;
  ss_up : S -> Prop;
  ss_create_up s r : ss_up s -> exists s', ss_create s r = (Ok (), s') /\ ss_up s' /\ sessions s' = <[uuid_str (id r) := r]> (sessions s);
  ss_get_up s u : ss_up s -> ss_get s u = Ok (sessions s !! uuid_str u);
  ss_update_up s r : ss_up s -> exists s', ss_update s r = (Ok (), s') /\ ss_up s' /\ sessions s' = <[uuid_str (id r) := r]> (sessions s);
  ss_delete_up s u : ss_up s -> exists s', ss_delete s u = (Ok (), s') /\ ss_up s' /\ sessions s' = delete (uuid_str u) (sessions s);
  ss_list_for_user_up s n : ss_up s ->
    ss_list_for_user s n = Ok (filter (fun r => username r = n) (sorted_values (sessions s)));
  ss_list_all_up s : ss_up s -> ss_list_all s = Ok (sorted_values (sessions s))
}.

Module SessionStore.
Section Store.
Context {Db : Type} `{!Redb Db, !UuidText, !Serde SessionRecord}.

Definition TABLE : string := "sessions".

Definition open (d : Db) : result AvixError unit * Db := db_open d TABLE.
Definition create (d : Db) (r : SessionRecord) : result AvixError unit * Db :=
  put_record d TABLE (uuid_str (id r)) r.
Definition get (d : Db) (u : Z) : result AvixError (option SessionRecord) := get_record d TABLE (uuid_str u).
Definition update (d : Db) (r : SessionRecord) : result AvixError unit * Db :=
  put_record d TABLE (uuid_str (id r)) r.
Definition delete (d : Db) (u : Z) : result AvixError unit * Db := db_remove d TABLE (uuid_str u).
Definition list_all (d : Db) : result AvixError (list SessionRecord) := list_records d TABLE.
(** The records whose user is [n]; a row that cannot be read fails the whole call. *)
Definition list_for_user (d : Db) (n : string) : result AvixError (list SessionRecord) :=
  l ← list_records d TABLE; Ok (filter (fun r => username r = n) l).

End Store.
End SessionStore.

#[export] Instance redb_sessions {Db} `{!Redb Db, !UuidText, !Serde SessionRecord} : SessionStoreI Db := {|
  ss_create := SessionStore.create; ss_get := SessionStore.get; ss_update := SessionStore.update;
  ss_delete := SessionStore.delete; ss_list_for_user := SessionStore.list_for_user;
  ss_list_all := SessionStore.list_all |}.

(** The redb store keeps the promise, on a clean table. *)
#[export] Program Instance redb_sessions_laws {Db} `{!Redb Db, !RedbLaws Db, !UuidText, !Serde SessionRecord,
    !SerdeLaws SessionRecord, !SerdeTotal SessionRecord} : SessionStoreLaws Db := {|
  sessions d := records SessionRecord d SessionStore.TABLE;
  ss_up d := clean SessionRecord d SessionStore.TABLE |}.
Next Obligation. intros. eapply put_record_clean; [done | apply fits_all]. Qed.
Next Obligation. intros. by apply get_record_clean. Qed.
Next Obligation. intros. eapply put_record_clean; [done | apply fits_all]. Qed.
Next Obligation. intros. by apply db_remove_clean. Qed.
Next Obligation.
  intros. cbn. unfold SessionStore.list_for_user. by rewrite list_records_clean.
Qed.
Next Obligation. intros. by apply list_records_clean. Qed.

(** ** Theorems *)

Lemma session_new_wf now i u o t g p : session_wf (session_new now i u o t g p).
Proof.
  constructor; cbn; [apply NoDup_singleton | constructor | constructor | set_solver | machine].
Qed.

Lemma NoDup_snoc_new {A} (x : A) l : NoDup l -> x ∉ l -> NoDup (l ++ [x]).
Proof.
  intros Hl Hx. apply NoDup_app. split; [done|]. split; [set_solver | apply NoDup_singleton].
Qed.

Ltac unchanged := split; [try (constructor; cbn; done) | split; [by repeat split | done]].

(** Every operation preserves well-formedness and the identity, and the metadata only grows. *)
Lemma apply_op_wf r o r' :
  session_wf r -> apply_op r o = Some r' ->
  session_wf r' /\ same_identity r r' /\ invocation_pids r `prefix_of` invocation_pids r'.
Proof.
  intros Hr E. pose proof Hr as [Hp Ha Hm Hpr Ht]. destruct o as [now s|now m|now p|now p| |now n b|now n|now n]; cbn in E.
  - destruct s; injection E as <-; unchanged; done.
  - injection E as <-. split; [|split; [by repeat split|]].
    + constructor; cbn; try done. destruct (existsb _ _) eqn:Ex; [done|].
      rewrite fmap_app. apply NoDup_snoc_new; [done|]. rewrite list_elem_of_fmap. intros (m' & Em & Hin).
      apply not_true_iff_false in Ex. apply Ex, existsb_exists. exists m'. split; [by apply list_elem_of_In|].
      by apply bool_decide_eq_true.
    + cbn. case_match; [done | by apply prefix_app_r].
  - injection E as <-. unchanged. constructor; cbn; try done.
    case_bool_decide; [done | by apply NoDup_snoc_new].
  - injection E as <-. unchanged. constructor; cbn; try done. by apply NoDup_filter.
  - injection E as <-. unchanged. constructor; cbn; try done. constructor.
  - injection E as <-. unchanged. unfold add_participant, list_contains.
    constructor; cbn; try done; case_bool_decide; try done; [by apply NoDup_snoc_new | |]; destruct b; set_solver.
  - injection E as <-. unfold set_primary, list_contains. case_match; [|by unchanged].
    unchanged. constructor; cbn; try done.
    apply orb_true_iff in H as [H|H]; apply bool_decide_eq_true in H; set_solver.
  - unfold add_tokens, u64_checked_add in E. case_decide; [|done]. injection E as <-.
    by unchanged.
Qed.

Lemma apply_ops_None os : foldl (fun o op => r ← o; apply_op r op) None os = None.
Proof. induction os; [done|]. exact IHos. Qed.

Lemma apply_ops_wf os : forall r r', session_wf r -> apply_ops r os = Some r' ->
  session_wf r' /\ same_identity r r' /\ invocation_pids r `prefix_of` invocation_pids r'.
Proof.
  unfold apply_ops. induction os as [|o os IH]; intros r r' Hr E; cbn in E.
  { injection E as <-. by unchanged. }
  destruct (apply_op r o) as [r1|] eqn:E1; [|by rewrite apply_ops_None in E].
  destruct (apply_op_wf _ _ _ Hr E1) as (H1 & (? & ? & ? & ? & ? & ?) & P1).
  destruct (IH _ _ H1 E) as (Hw2 & (? & ? & ? & ? & ? & ?) & P2).
  split; [done|]. split; [repeat split; congruence | by etrans].
Qed.

(** C37: Whatever happens to a session record after its creation, its active pids, its participants and the
    pids with metadata are free of duplicates, the primary agent is the origin or a participant, the
    token count is a [u64], the identity is the one of the creation and metadata is never lost. *)
Theorem session_record_invariant now i u o t g p os r :
  apply_ops (session_new now i u o t g p) os = Some r ->
  session_wf r /\ same_identity (session_new now i u o t g p) r /\
  forall os1 os2 r1, os = os1 ++ os2 -> apply_ops (session_new now i u o t g p) os1 = Some r1 ->
    invocation_pids r1 `prefix_of` invocation_pids r.
Proof.
  intros E. destruct (apply_ops_wf _ _ _ (session_new_wf now i u o t g p) E) as (Hw & Hi & _).
  split; [done|]. split; [done|]. intros os1 os2 r1 -> E1.
  unfold apply_ops in E. rewrite foldl_app in E. unfold apply_ops in E1. rewrite E1 in E.
  destruct (apply_ops_wf _ _ _ (session_new_wf now i u o t g p) E1) as (H1 & _).
  by destruct (apply_ops_wf os2 r1 r H1 E) as (_ & _ & ?).
Qed.

Definition sample_ops : list SessionOp :=
  [SAddParticipant 1 "writer" true; SAddPid 2 43; SAddPid 3 43; SMark 4 SessionStatus.Paused;
   SAddTokens 5 100; SRemovePid 6 42].
Lemma session_record_invariant_witness :
  exists r, apply_ops (session_new 0 7 "alice" "researcher" "t" "g" 42) sample_ops = Some r /\
    session_wf r /\ pids r = [43] /\ primary_agent r = "writer"%string.
Proof.
  destruct (apply_ops (session_new 0 7 "alice" "researcher" "t" "g" 42) sample_ops) as [r|] eqn:E;
    [|vm_compute in E; discriminate].
  exists r. split; [done|]. split; [by apply (session_record_invariant _ _ _ _ _ _ _ _ _ E)|].
  vm_compute in E. injection E as <-. by split.
Defined.

(** ** A text form of uuids, for the witnesses: binary *)

Module ToyUuid.

#[export] Instance binary_uuid : UuidText := {|
  uuid_str u := match u with
                | Z0 => ""%string
                | Zpos p => String "+" (Mem.pos_text p)
                | Zneg p => String "-" (Mem.pos_text p)
                end;
  parse_str s := match s with
                 | EmptyString => Ok 0
                 | String c t => Ok (if decide (c = "+"%char) then Zpos (Mem.text_pos t) else Zneg (Mem.text_pos t))
                 end |}.
#[export] Instance binary_uuid_laws : UuidLaws.
Proof. constructor. intros [|p|p]; cbn; by rewrite ?Mem.text_pos_text. Qed.

End ToyUuid.
