(* ===== verification/Invocations.v ===== *)
(** * Invocation records, their store and their conversations

    Models [invocation/record.rs], [conversation.rs] and [store.rs]: one record per agent execution in a
    redb table, and its conversation as one JSON document per line in a file of the user's tree.  The class
    [InvocationStoreI] is what the kernel relies on; the redb store is an instance of it. *)

From S2P Require Import Prelude Types Json Text Vfs Store.
Local Open Scope Z_scope.

Module InvocationStatus.
Inductive t : Type := Running | Idle | Paused | Completed | Failed | Killed.
#[global] Instance eq_dec : EqDecision t.
Proof. solve_decision. Defined.
(** [matches!(s, Running | Idle | Paused)] *)
Definition is_live (s : t) : bool :=
  match s with Running | Idle | Paused => true | Completed | Failed | Killed => false end.
End InvocationStatus.

Record InvocationRecord : Type := {
  id : string;
  agent_name : string;
  agent_version : string;
  username : string;
  pid : Z;
  goal : string;
  session_id : string;
  spawned_at : Z;
  ended_at : option Z;
  status : InvocationStatus.t;
  tokens_consumed : Z;
  tool_calls_total : Z;
  exit_reason : option string
}.

Definition invocation_new (now : Z) (id agent_name username : string) (pid : Z) (goal session_id : string)
    : InvocationRecord := {|
  id := id; agent_name := agent_name; agent_version := ""; username := username; pid := pid; goal := goal;
  session_id := session_id; spawned_at := now; ended_at := None; status := InvocationStatus.Running;
  tokens_consumed := 0; tool_calls_total := 0; exit_reason := None |}.

(** The fields the store assigns. *)
Definition with_fields (r : InvocationRecord) (g : string) (e : option Z) (s : InvocationStatus.t) (tok calls : Z)
    (why : option string) : InvocationRecord := {|
  id := id r; agent_name := agent_name r; agent_version := agent_version r; username := username r;
  pid := pid r; goal := g; session_id := session_id r; spawned_at := spawned_at r; ended_at := e; status := s;
  tokens_consumed := tok; tool_calls_total := calls; exit_reason := why |}.
Definition set_final (s : InvocationStatus.t) (ended tok calls : Z) (why : option string) (r : InvocationRecord) :=
  with_fields r (goal r) (Some ended) s tok calls why.
Definition set_status (s : InvocationStatus.t) (r : InvocationRecord) :=
  with_fields r (goal r) (ended_at r) s (tokens_consumed r) (tool_calls_total r) (exit_reason r).
Definition set_goal (g : string) (r : InvocationRecord) :=
  with_fields r g (ended_at r) (status r) (tokens_consumed r) (tool_calls_total r) (exit_reason r).
Definition set_usage (tok calls : Z) (r : InvocationRecord) :=
  with_fields r (goal r) (ended_at r) (status r) tok calls (exit_reason r).

(** ** Conversations *)

Module Role.
Inductive t : Type := User | Assistant | Tool | System | HilRequest | HilResponse.
#[global] Instance eq_dec : EqDecision t.
Proof. solve_decision. Defined.
End Role.
Record ToolCallEntry : Type := { tc_id : string; tc_name : string; tc_args : json; tc_result : option json }.
Record FileDiffEntry : Type := { fd_path : string; fd_diff : option string; fd_content : option string }.
Record ConversationEntry : Type := {
  role : Role.t; content : string; tool_calls : list ToolCallEntry; files_changed : list FileDiffEntry;
  thought : option string
}.
Definition from_role_content (r : Role.t) (c : string) : ConversationEntry :=
  {| role := r; content := c; tool_calls := []; files_changed := []; thought := None |}.

(** ** The interface *)

Class InvocationStoreI (S : Type) : Type := {
  is_create : S -> InvocationRecord -> result AvixError unit * S;
  is_finalize : S -> string -> InvocationStatus.t -> Z -> Z -> Z -> option string -> result AvixError unit * S;
  is_update_status : S -> string -> InvocationStatus.t -> result AvixError unit * S;
  is_update_goal : S -> string -> string -> result AvixError unit * S;
  is_persist_interim : S -> string -> list ConversationEntry -> Z -> Z -> result AvixError unit * S;
  is_write_conversation : S -> Z -> string -> string -> list ConversationEntry -> result AvixError unit * S;
  is_get : S -> string -> result AvixError (option InvocationRecord);
  is_list_for_user : S -> string -> result AvixError (list InvocationRecord);
  is_list_for_agent : S -> string -> string -> result AvixError (list InvocationRecord);
  is_list_for_session : S -> string -> result AvixError (list InvocationRecord);
  is_read_conversation : S -> string -> Z -> string -> result AvixError (list ConversationEntry);
  is_list_all : S -> result AvixError (list InvocationRecord)
}.
(** Writing changes the record of one id, and only if there is one. *)
Class InvocationStoreLaws (S : Type) `{!InvocationStoreI S} : Type := {
  invocations : S -> gmap string InvocationRecord;
  is_up : S -> Prop;
  is_create_up s r : is_up s -> exists s', is_create s r = (Ok (), s') /\ is_up s' /\
    invocations s' = <[id r := r]> (invocations s);
  is_finalize_up s i st t tok calls why : is_up s -> exists s',
    is_finalize s i st t tok calls why = (Ok (), s') /\ is_up s' /\
    invocations s' = alter (set_final st t tok calls why) i (invocations s);
  is_update_status_up s i st : is_up s -> exists s', is_update_status s i st = (Ok (), s') /\ is_up s' /\
    invocations s' = alter (set_status st) i (invocations s);
  is_update_goal_up s i g : is_up s -> exists s', is_update_goal s i g = (Ok (), s') /\ is_up s' /\
    invocations s' = alter (set_goal g) i (invocations s);
  is_persist_interim_up s i tok calls : is_up s -> exists s',
    is_persist_interim s i [] tok calls = (Ok (), s') /\ is_up s' /\
    invocations s' = alter (set_usage tok calls) i (invocations s);
  (** the usage reaches the record even where the conversation file cannot be written *)
  is_persist_interim_usage s i es tok calls : is_up s -> is_up (is_persist_interim s i es tok calls).2 /\
    invocations (is_persist_interim s i es tok calls).2 = alter (set_usage tok calls) i (invocations s);
  is_write_conversation_up s p sid u es : is_up s -> is_up (is_write_conversation s p sid u es).2 /\
    invocations (is_write_conversation s p sid u es).2 = invocations s;
  is_get_up s i : is_up s -> is_get s i = Ok (invocations s !! i);
  is_list_all_up s : is_up s -> is_list_all s = Ok (sorted_values (invocations s))
}.

(** ** The redb store *)

Module InvocationStore.
Section Store.
Context {Db : Type} `{!Redb Db, !Serde InvocationRecord, !Serde ConversationEntry} {D : Type} `{!Disk D}.

Definition TABLE : string := "invocations".

(** [local] is the root of the provider below which conversations are written, if there is one. *)
Record t : Type := { db : Db; local : option string; disk : D }.
Definition with_db (s : t) (d : Db) : t := {| db := d; local := local s; disk := disk s |}.
Definition with_disk (s : t) (d : D) : t := {| db := db s; local := local s; disk := d |}.
Definition with_local (s : t) (root : string) : t := {| db := db s; local := Some root; disk := disk s |}.

Definition open (d : Db) (fs : D) : result AvixError t :=
  match db_open d TABLE with
  | (Ok _, d') => Ok {| db := d'; local := None; disk := fs |}
  | (Err e, _) => Err e
  end.

Definition create (s : t) (r : InvocationRecord) : result AvixError unit * t :=
  let '(x, d) := put_record (db s) TABLE (id r) r in (x, with_db s d).

Definition get (s : t) (i : string) : result AvixError (option InvocationRecord) := get_record (db s) TABLE i.

(** Read the record, change it, write it back under the same key; a missing id is not an error. *)
Definition modify (s : t) (i : string) (f : InvocationRecord -> InvocationRecord) : result AvixError unit * t :=
  match get s i with
  | Err e => (Err e, s)
  | Ok None => (Ok (), s)
  | Ok (Some r) => let '(x, d) := put_record (db s) TABLE i (f r) in (x, with_db s d)
  end.
Definition finalize (s : t) (i : string) (st : InvocationStatus.t) (ended tok calls : Z) (why : option string) :=
  modify s i (set_final st ended tok calls why).
Definition update_status (s : t) (i : string) (st : InvocationStatus.t) := modify s i (set_status st).
Definition update_goal (s : t) (i : string) (g : string) := modify s i (set_goal g).

Definition conversation_path (session_id : string) (pid : Z) (username : string) : string :=
  (username +:+ "/.sessions/" +:+ session_id +:+ "/" +:+ pretty pid +:+ ".jsonl")%string.

(** The lines of the file, one document each, every line ended. *)
Fixpoint conversation_text (es : list ConversationEntry) : result AvixError string :=
  match es with
  | [] => Ok ""%string
  | e :: es' => l ← cfg (to_string e); r ← conversation_text es'; Ok (l +:+ nl +:+ r)%string
  end.

Definition write_conversation_structured (s : t) (pid : Z) (session_id username : string)
    (entries : list ConversationEntry) : result AvixError unit * t :=
  match local s with
  | None => (Ok (), s)
  | Some root =>
      match conversation_text entries with
      | Err e => (Err e, s)
      | Ok text =>
          match LocalProvider.write (disk s) root (conversation_path session_id pid username) text with
          | Ok d => (Ok (), with_disk s d)
          | Err e => (Err (Io (avix_error_to_string e)), s)
          end
      end
  end.

(** The record first, then the file unless there is nothing to write.  The two source functions
    [persist_interim] and [persist_interim_structured] have the same body. *)
Definition persist_interim (s : t) (i : string) (entries : list ConversationEntry) (tok calls : Z)
    : result AvixError unit * t :=
  match get s i with
  | Err e => (Err e, s)
  | Ok None => (Ok (), s)
  | Ok (Some r) =>
      let r := set_usage tok calls r in
      match put_record (db s) TABLE i r with
      | (Err e, d) => (Err e, with_db s d)
      | (Ok _, d) =>
          let s := with_db s d in
          match entries with
          | [] => (Ok (), s)
          | _ => write_conversation_structured s (pid r) (session_id r) (username r) entries
          end
      end
  end.
Definition persist_interim_structured := persist_interim.

Definition list_all (s : t) : result AvixError (list InvocationRecord) := list_records (db s) TABLE.
Definition list_for_user (s : t) (u : string) : result AvixError (list InvocationRecord) :=
  l ← list_all s; Ok (filter (fun r => username r = u) l).
Definition list_for_agent (s : t) (u a : string) : result AvixError (list InvocationRecord) :=
  l ← list_all s; Ok (filter (fun r => username r = u /\ agent_name r = a) l).
Definition list_for_session (s : t) (sid : string) : result AvixError (list InvocationRecord) :=
  l ← list_all s; Ok (filter (fun r => session_id r = sid) l).

(** Blank lines and lines that are no document are skipped. *)
Definition read_line (line : string) : option ConversationEntry :=
  if is_blank line then None else decode line.
Definition read_conversation (s : t) (session_id : string) (pid : Z) (username : string)
    : result AvixError (list ConversationEntry) :=
  match local s with
  | None => Ok []
  | Some root =>
      match LocalProvider.read (disk s) root (conversation_path session_id pid username) with
      | Err _ => Ok []
      | Ok bytes => text ← cfg (from_utf8 bytes); Ok (omap read_line (str_lines text))
      end
  end.

End Store.
Arguments t : clear implicits.
End InvocationStore.

#[export] Instance redb_invocations {Db D} `{!Redb Db, !Serde InvocationRecord, !Serde ConversationEntry, !Disk D}
    : InvocationStoreI (InvocationStore.t Db D) := {|
  is_create := InvocationStore.create; is_finalize := InvocationStore.finalize;
  is_update_status := InvocationStore.update_status; is_update_goal := InvocationStore.update_goal;
  is_persist_interim := InvocationStore.persist_interim;
  is_write_conversation := InvocationStore.write_conversation_structured;
  is_get := InvocationStore.get; is_list_for_user := InvocationStore.list_for_user;
  is_list_for_agent := InvocationStore.list_for_agent; is_list_for_session := InvocationStore.list_for_session;
  is_read_conversation := InvocationStore.read_conversation; is_list_all := InvocationStore.list_all |}.

(** ** The store keeps the promise *)

Section Laws.
Context {Db D : Type} `{!Redb Db, !RedbLaws Db, !Disk D}.
Context `{!Serde InvocationRecord, !SerdeLaws InvocationRecord, !SerdeTotal InvocationRecord}.
Context `{!Serde ConversationEntry}.
Import InvocationStore.

Definition store_records (s : t Db D) : gmap string InvocationRecord := records InvocationRecord (db s) TABLE.
Definition store_up (s : t Db D) : Prop := clean InvocationRecord (db s) TABLE.

Lemma get_up (s : t Db D) i : store_up s -> get s i = Ok (store_records s !! i).
Proof. apply get_record_clean. Qed.

Lemma put_up (s : t Db D) i r : store_up s -> exists d, put_record (db s) TABLE i r = (Ok (), d) /\
  store_up (with_db s d) /\ store_records (with_db s d) = <[i := r]> (store_records s).
Proof. intros H. apply (put_record_clean InvocationRecord); [done | apply fits_all]. Qed.

Lemma alter_lookup (m : gmap string InvocationRecord) i f :
  alter f i m = match m !! i with Some r => <[i := f r]> m | None => m end.
Proof.
  destruct (m !! i) as [r|] eqn:E; [|by apply alter_id; intros ? Hx; congruence].
  apply map_eq. intros j. destruct (decide (j = i)) as [->|Hj].
  - by rewrite lookup_alter_eq, E, lookup_insert_eq.
  - by rewrite lookup_alter_ne, lookup_insert_ne by done.
Qed.

Lemma modify_up (s : t Db D) i f : store_up s -> exists s', modify s i f = (Ok (), s') /\ store_up s' /\
  store_records s' = alter f i (store_records s).
Proof.
  intros H. unfold modify. rewrite get_up, alter_lookup by done. destruct (store_records s !! i) as [r|].
  - destruct (put_up s i (f r) H) as (d & -> & Hd). by exists (with_db s d).
  - by exists s.
Qed.

Lemma persist_interim_up (s : t Db D) i tok calls : store_up s -> exists s',
  persist_interim s i [] tok calls = (Ok (), s') /\ store_up s' /\
  store_records s' = alter (set_usage tok calls) i (store_records s).
Proof.
  intros H. unfold persist_interim. rewrite get_up, alter_lookup by done.
  destruct (store_records s !! i) as [r|].
  - destruct (put_up s i (set_usage tok calls r) H) as (d & -> & Hd). by exists (with_db s d).
  - by exists s.
Qed.

Lemma write_conversation_up (s : t Db D) p sid u es : store_up s ->
  store_up (write_conversation_structured s p sid u es).2 /\
  store_records (write_conversation_structured s p sid u es).2 = store_records s.
Proof.
  intros H. unfold write_conversation_structured. destruct (local s); [|done].
  destruct (conversation_text es); [|done]. by destruct (LocalProvider.write _ _ _ _).
Qed.
Lemma persist_interim_usage (s : t Db D) i es tok calls : store_up s ->
  store_up (persist_interim s i es tok calls).2 /\
  store_records (persist_interim s i es tok calls).2 = alter (set_usage tok calls) i (store_records s).
Proof.
  intros H. unfold persist_interim. rewrite get_up, alter_lookup by done.
  destruct (store_records s !! i) as [r|]; [|done].
  destruct (put_up s i (set_usage tok calls r) H) as (d & -> & Hd & Hr). destruct es as [|e es]; [done|].
  rewrite <- Hr. by apply write_conversation_up.
Qed.

#[export] Program Instance redb_invocations_laws : InvocationStoreLaws (t Db D) := {|
  invocations := store_records; is_up := store_up |}.
Next Obligation.
  intros s r H. cbn. unfold create. destruct (put_up s (id r) r H) as (d & -> & Hd). by exists (with_db s d).
Qed.
Next Obligation. intros. by apply modify_up. Qed.
Next Obligation. intros. by apply modify_up. Qed.
Next Obligation. intros. by apply modify_up. Qed.
Next Obligation. intros. by apply persist_interim_up. Qed.
Next Obligation. intros. by apply persist_interim_usage. Qed.
Next Obligation. intros. by apply write_conversation_up. Qed.
Next Obligation. intros. by apply get_up. Qed.
Next Obligation. intros. by apply list_records_clean. Qed.

End Laws.

(** ** Conversations survive the file *)

(** A file reads back what was written last, other files are as before; [d_up]: writing works. *)
Class DiskLaws (D : Type) `{!Disk D} : Type := {
  d_up : D -> Prop;
  d_create_up d p : d_up d -> exists d', d_create_dir_all d p = Ok d' /\ d_up d';
  d_write_up d p c : d_up d -> exists d', d_write d p c = Ok d' /\ d_up d';
  d_read_created d p d' q : d_create_dir_all d p = Ok d' -> d_read d' q = d_read d q;
  d_read_written d p c d' q : d_write d p c = Ok d' -> d_read d' q = if decide (q = p) then Ok c else d_read d q
}.
(** serde_json's compact form is UTF-8 on one line and not blank. *)
Class JsonLine (T : Type) `{!Serde T, !SerdeLaws T} : Prop :=
  json_line (x : T) s : fits x -> to_string x = Ok s ->
    is_utf8 s = true /\ str_contains_char "010" s = false /\ is_blank s = false /\ strip_cr s = s.

Lemma lines_go_app l s cur : str_contains_char "010" l = false ->
  lines_go (l +:+ String "010" s) cur = strip_cr (cur +:+ l)%string :: lines_go s EmptyString.
Proof.
  revert cur. induction l as [|c l IH]; intros cur H; cbn in *.
  - by rewrite str_app_nil_r.
  - apply orb_false_iff in H as [Hc H]. apply bool_decide_eq_false in Hc.
    rewrite decide_False by congruence. rewrite IH by done. by rewrite str_app_assoc.
Qed.

Section Conversation.
Context {Db D : Type} `{!Redb Db, !Disk D, !DiskLaws D}.
Context `{!Serde ConversationEntry, !SerdeLaws ConversationEntry, !JsonLine ConversationEntry}.
Import InvocationStore.

Lemma conversation_text_lines es : Forall fits es -> exists text,
  conversation_text es = Ok text /\ is_utf8 text = true /\ omap read_line (str_lines text) = es.
Proof.
  induction 1 as [|e es He _ (text & Et & Hu & Hl)]; [by exists ""%string|]. cbn.
  destruct (from_to_string e He) as (s & Es & Ds). destruct (json_line e s He Es) as (Us & Ns & Bs & Cs).
  rewrite Es. cbn. rewrite Et. cbn. eexists. split; [done|]. split.
  - apply is_utf8_app; [done|]. by apply (is_utf8_app nl text).
  - unfold str_lines. change (nl +:+ text)%string with (String "010" text). rewrite lines_go_app by done.
    cbn [String.append]. rewrite Cs. cbn [omap list_omap].
    unfold read_line at 1, decode. rewrite Bs, Ds. f_equal. exact Hl.
Qed.

Lemma local_write_up (fs : D) root rel text : d_up fs -> str_contains ".." (trim_start_matches "/" rel) = false ->
  exists fs', LocalProvider.write fs root rel text = Ok fs' /\ d_up fs' /\
    LocalProvider.read fs' root rel = Ok text /\
    forall rel', trim_start_matches "/" rel' <> trim_start_matches "/" rel ->
      LocalProvider.read fs' root rel' = LocalProvider.read fs root rel'.
Proof.
  intros U Hd. unfold LocalProvider.write, LocalProvider.read, LocalProvider.resolve_path. rewrite Hd.
  cbn [mbind result_bind]. set (path := (root +:+ "/" +:+ trim_start_matches "/" rel)%string).
  assert (exists fs1, match rsplit_once "/" path with
      | Some (parent, _) => map_err (fun e => Io ("create_dir_all for " +:+ rel +:+ ": " +:+ e)%string)
                              (d_create_dir_all fs parent)
      | None => Ok fs end = Ok fs1 /\ d_up fs1 /\ forall q, d_read fs1 q = d_read fs q) as (fs1 & E1 & U1 & R1).
  { destruct (rsplit_once "/" path) as [[parent ?]|]; [|by exists fs].
    destruct (d_create_up fs parent U) as (fs1 & E & U1). exists fs1. rewrite E. split; [done|].
    split; [done|]. intros q. by eapply d_read_created. }
  rewrite E1. cbn [mbind result_bind]. destruct (d_write_up fs1 path text U1) as (fs2 & E2 & U2).
  exists fs2. rewrite E2. split; [done|]. split; [done|]. split.
  - rewrite (d_read_written _ _ _ _ path E2). by rewrite decide_True.
  - intros rel' Hne. cbn zeta. destruct (str_contains ".." (trim_start_matches "/" rel')); cbn [mbind result_bind]; [done|].
    rewrite (d_read_written _ _ _ _ _ E2), decide_False, R1; [done|].
    intros Hp. apply Hne. unfold path in Hp. apply str_app_inj_l in Hp. by injection Hp.
Qed.

(** A conversation that was written is read back entry by entry, and writing it leaves what every other
    conversation file reads as it was. *)
Theorem conversation_roundtrip (s : t Db D) root p sid user es :
  local s = Some root -> d_up (disk s) -> Forall fits es ->
  str_contains ".." (trim_start_matches "/" (conversation_path sid p user)) = false ->
  exists s', write_conversation_structured s p sid user es = (Ok (), s') /\ d_up (disk s') /\ db s' = db s /\
    read_conversation s' sid p user = Ok es /\
    forall sid' p' user', trim_start_matches "/" (conversation_path sid' p' user') <>
        trim_start_matches "/" (conversation_path sid p user) ->
      read_conversation s' sid' p' user' = read_conversation s sid' p' user'.
Proof.
  intros Hl U Hes Hd. destruct (conversation_text_lines es Hes) as (text & Et & Hu & Hlines).
  destruct (local_write_up (disk s) root _ text U Hd) as (fs & Ew & Uf & Er & Ho).
  exists (with_disk s fs). unfold write_conversation_structured, read_conversation. cbn [local with_disk disk db].
  rewrite Hl, Et, Ew, Er. split; [done|]. split; [done|]. split; [done|]. split.
  - rewrite from_utf8_ok by done. cbn. by rewrite Hlines.
  - intros sid' p' user' Hne. by rewrite (Ho _ Hne).
Qed.

End Conversation.

(** ** A disk in memory and a codec of plain entries, for the witness *)

Module Toy.

#[export] Instance mem_disk : Disk (gmap string string) := {|
  d_create_dir_all d _ := Ok d; d_write d p c := Ok (<[p := c]> d);
  d_read d p := ok_or "ENOENT"%string (d !! p); d_remove_file d p := Ok (base.delete p d);
  d_exists d p := bool_decide (is_Some (d !! p)); d_read_dir _ _ := Ok [] |}.
#[export] Program Instance mem_disk_laws : DiskLaws (gmap string string) := {| d_up _ := True |}.
Solve Obligations with (cbn; naive_solver).
Next Obligation.
  cbn. intros d p c d' q [= <-]. destruct (decide (q = p)) as [->|].
  - by rewrite lookup_insert_eq.
  - by rewrite lookup_insert_ne.
Qed.

Definition role_code (r : Role.t) : nat :=
  match r with
  | Role.User => 0 | Role.Assistant => 1 | Role.Tool => 2 | Role.System => 3 | Role.HilRequest => 4
  | Role.HilResponse => 5
  end.
Definition code_role (n : nat) : Role.t :=
  match n with
  | 0 => Role.User | 1 => Role.Assistant | 2 => Role.Tool | 3 => Role.System | 4 => Role.HilRequest
  | _ => Role.HilResponse
  end%nat.
Definition plain (e : ConversationEntry) : Prop := e = from_role_content (role e) (content e).

#[export] Instance entry_serde : Serde ConversationEntry := {|
  to_string e := Ok (String "{" (Mem.pos_text (countable.encode (role_code (role e), content e))));
  from_str s := match s with
                | String _ t => ok_or "malformed"%string
                    ((fun x => from_role_content (code_role x.1) x.2) <$> countable.decode (Mem.text_pos t))
                | EmptyString => Err "malformed"%string
                end
|}.
#[export] Program Instance entry_laws : SerdeLaws ConversationEntry := {| fits := plain |}.
Next Obligation.
  intros e He. eexists. split; [reflexivity|]. cbn [from_str entry_serde].
  rewrite Mem.text_pos_text, countable.decode_encode. cbn [fmap option_fmap option_map ok_or fst snd]. f_equal. unfold plain in He. rewrite He at 3. f_equal. by destruct (role e).
Qed.

Lemma pos_text_plain p : utf8_error 0 0 (Mem.pos_text p) = None /\
  str_contains_char "010" (Mem.pos_text p) = false /\ rsplit_once "013" (Mem.pos_text p) = None.
Proof.
  induction p as [p (H1 & H2 & H3)|p (H1 & H2 & H3)|]; [..|done];
    cbn [Mem.pos_text str_contains_char rsplit_once]; rewrite H2, H3;
    (split; [|done]); cbn; by apply (utf8_error_shift _ 0).
Qed.

#[export] Instance entry_line : JsonLine ConversationEntry.
Proof.
  intros e s _ [= <-]. destruct (pos_text_plain (countable.encode (role_code (role e), content e))) as (H1 & H2 & H3).
  split; [|split; [exact H2|split; [|]]].
  - unfold is_utf8. apply bool_decide_eq_true. cbn. by eapply utf8_error_shift.
  - by destruct (Mem.pos_text _) as [|c [|d t]].
  - unfold strip_cr. cbn [rsplit_once]. by rewrite H3.
Qed.

Definition store : InvocationStore.t tables_t (gmap string string) :=
  {| InvocationStore.db := ∅; InvocationStore.local := Some "/data/users"%string; InvocationStore.disk := ∅ |}.
Definition two_turns : list ConversationEntry :=
  [from_role_content Role.User "hello"; from_role_content Role.Assistant "hi"].

Lemma conversation_roundtrip_witness :
  exists s', InvocationStore.write_conversation_structured store 42 "s1" "alice" two_turns = (Ok (), s') /\
    InvocationStore.read_conversation s' "s1" 42 "alice" = Ok two_turns.
Proof.
  destruct (conversation_roundtrip store "/data/users" 42 "s1" "alice" two_turns) as (s' & Hw & _ & _ & Hr & _).
  - reflexivity.
  - exact I.
  - repeat constructor.
  - vm_compute. reflexivity.
  - exists s'. split; [exact Hw | exact Hr].
Defined.

End Toy.
