(* ===== verification/History.v ===== *)
(** * Message history

    Models [history/record.rs] and [history/store.rs]: messages of a session and the typed parts of a
    message, each in a redb table, listed in the order of their numbers; and the manager around the store,
    [kernel/proc/history.rs].  Uuids are numbers with the text form of the uuid crate. *)

From S2P Require Import Prelude Types Json Store Sessions.
From Stdlib Require Import Sorted.
Local Open Scope Z_scope.

(** ** [sort_by_key]: a stable sort *)

Section SortByKey.
Context {A : Type} (key : A -> Z).

Fixpoint insert_by_key (x : A) (l : list A) : list A :=
  match l with
  | [] => [x]
  | y :: l' => if key x <=? key y then x :: l else y :: insert_by_key x l'
  end.
Definition sort_by_key (l : list A) : list A := foldr insert_by_key [] l.

Lemma insert_by_key_perm x l : insert_by_key x l ≡ₚ x :: l.
Proof. induction l as [|y l IH]; cbn; [done|]. case_match; [done|]. rewrite IH. apply Permutation_swap. Qed.

Lemma sort_by_key_perm l : sort_by_key l ≡ₚ l.
Proof. induction l as [|x l IH]; cbn; [done|]. by rewrite insert_by_key_perm, IH. Qed.

Lemma insert_by_key_sorted x l :
  StronglySorted (fun a b => key a <= key b) l -> StronglySorted (fun a b => key a <= key b) (insert_by_key x l).
Proof.
  induction 1 as [|y l Hs IH Hf]; cbn; [repeat constructor|].
  destruct (Z.leb_spec (key x) (key y)).
  - constructor; [by constructor|]. constructor; [done|]. eapply List.Forall_impl; [|exact Hf]. cbn. lia.
  - constructor; [done|]. rewrite insert_by_key_perm. constructor; [lia | done].
Qed.

Lemma sort_by_key_sorted l : StronglySorted (fun a b => key a <= key b) (sort_by_key l).
Proof. induction l as [|x l IH]; cbn; [constructor | by apply insert_by_key_sorted]. Qed.

Lemma insert_by_key_stable k x l :
  filter (fun y => key y = k) (insert_by_key x l) = filter (fun y => key y = k) (x :: l).
Proof.
  induction l as [|y l IH]; [done|]. cbn [insert_by_key]. destruct (Z.leb_spec (key x) (key y)); [done|].
  rewrite !filter_cons, IH, filter_cons. repeat case_decide; done || lia.
Qed.

(** Equal keys keep their order. *)
Lemma sort_by_key_stable k l : filter (fun y => key y = k) (sort_by_key l) = filter (fun y => key y = k) l.
Proof.
  induction l as [|x l IH]; [done|]. cbn [sort_by_key foldr]. fold (sort_by_key l).
  rewrite insert_by_key_stable, !filter_cons, IH. done.
Qed.
End SortByKey.

(** ** Records *)

Module HRole.
Inductive t : Type := User | Assistant | Tool | System.
End HRole.
Module PartType.
Inductive t : Type := Text | ToolCall | FileDiff | CodeBlock | Thought | Image | Embedding | Summary.
#[global] Instance eq_dec : EqDecision t.
Proof. solve_decision. Defined.
End PartType.

Record MessageRecord : Type := {
  m_id : Z; m_session_id : Z; sequence : Z; m_role : HRole.t; timestamp : Z; m_content : string; tokens : option Z
}.
Record PartRecord : Type := {
  p_id : Z; message_id : Z; part_index : Z; part_type : PartType.t; data : json
}.

(** The constructors of typed parts; [u] is the fresh uuid. *)
Definition part_text (u message_id index : Z) (content : string) : PartRecord :=
  {| p_id := u; message_id := message_id; part_index := index; part_type := PartType.Text;
     data := JObj [("content", JStr content)]%string |}.
Definition part_tool_call (u message_id index : Z) (call_id tool_name : string) (args : json) (result : option json)
    : PartRecord :=
  {| p_id := u; message_id := message_id; part_index := index; part_type := PartType.ToolCall;
     data := JObj [("call_id", JStr call_id); ("tool_name", JStr tool_name); ("args", args);
                   ("result", default JNull result)]%string |}.
Definition part_file_diff (u message_id index : Z) (path : string) (diff content : option string) : PartRecord :=
  {| p_id := u; message_id := message_id; part_index := index; part_type := PartType.FileDiff;
     data := JObj [("path", JStr path); ("diff", jopt JStr diff); ("content", jopt JStr content)]%string |}.
Definition part_thought (u message_id index : Z) (reasoning : string) : PartRecord :=
  {| p_id := u; message_id := message_id; part_index := index; part_type := PartType.Thought;
     data := JObj [("reasoning", JStr reasoning)]%string |}.

(** ** The store *)

Module HistoryStore.
Section Store.
Context {Db : Type} `{!Redb Db, !UuidText, !Serde MessageRecord, !Serde PartRecord}.

Definition MESSAGE_TABLE : string := "messages".
Definition PART_TABLE : string := "parts".

(** Both tables are created in one transaction. *)
Definition open (d : Db) : result AvixError unit * Db :=
  finish d (t ← cfg (begin_write d); t ← cfg (open_table t MESSAGE_TABLE); cfg (open_table t PART_TABLE)).

Definition create_message (d : Db) (m : MessageRecord) : result AvixError unit * Db :=
  put_record d MESSAGE_TABLE (uuid_str (m_id m)) m.
Definition get_message (d : Db) (u : Z) : result AvixError (option MessageRecord) :=
  get_record d MESSAGE_TABLE (uuid_str u).
Definition list_messages (d : Db) (session : Z) : result AvixError (list MessageRecord) :=
  l ← list_records d MESSAGE_TABLE; Ok (sort_by_key sequence (filter (fun m => m_session_id m = session) l)).

Definition create_part (d : Db) (p : PartRecord) : result AvixError unit * Db :=
  put_record d PART_TABLE (uuid_str (p_id p)) p.
Definition get_part (d : Db) (u : Z) : result AvixError (option PartRecord) := get_record d PART_TABLE (uuid_str u).
Definition list_parts (d : Db) (msg : Z) : result AvixError (list PartRecord) :=
  l ← list_records d PART_TABLE; Ok (sort_by_key part_index (filter (fun p => message_id p = msg) l)).

Fixpoint parts_of (d : Db) (t : PartType.t) (ms : list MessageRecord) : result AvixError (list PartRecord) :=
  match ms with
  | [] => Ok []
  | m :: ms' => ps ← list_parts d (m_id m); rest ← parts_of d t ms';
                Ok (filter (fun p => part_type p = t) ps ++ rest)
  end.
Definition get_session_parts_by_type (d : Db) (session : Z) (t : PartType.t) : result AvixError (list PartRecord) :=
  ms ← list_messages d session; parts_of d t ms.
Definition get_session_tool_calls (d : Db) (session : Z) := get_session_parts_by_type d session PartType.ToolCall.
Definition get_session_file_diffs (d : Db) (session : Z) := get_session_parts_by_type d session PartType.FileDiff.

End Store.
End HistoryStore.

(** ** The manager: a store that may be absent *)

Module HistoryManager.
Section Manager.
Context {Db : Type} `{!Redb Db, !UuidText, !Serde MessageRecord, !Serde PartRecord}.

Definition not_configured : AvixError := NotFound "history store not configured".
Definition on_store {A} (s : option Db) (f : Db -> result AvixError A * Db) : result AvixError A * option Db :=
  match s with Some d => let '(r, d') := f d in (r, Some d') | None => (Err not_configured, None) end.
Definition create_message (s : option Db) (m : MessageRecord) := on_store s (fun d => HistoryStore.create_message d m).
Definition create_part (s : option Db) (p : PartRecord) := on_store s (fun d => HistoryStore.create_part d p).
Definition get_message (s : option Db) (u : Z) : result AvixError (option MessageRecord) :=
  match s with Some d => HistoryStore.get_message d u | None => Ok None end.
Definition list_messages (s : option Db) (u : Z) : result AvixError (list MessageRecord) :=
  match s with Some d => HistoryStore.list_messages d u | None => Ok [] end.
Definition get_part (s : option Db) (u : Z) : result AvixError (option PartRecord) :=
  match s with Some d => HistoryStore.get_part d u | None => Ok None end.
Definition list_parts (s : option Db) (u : Z) : result AvixError (list PartRecord) :=
  match s with Some d => HistoryStore.list_parts d u | None => Ok [] end.

End Manager.
End HistoryManager.

(** ** Listing *)

Section Listing.
Context {Db : Type} `{!Redb Db, !RedbLaws Db, !UuidText, !UuidLaws}.
Context `{!Serde MessageRecord, !Serde PartRecord, !SerdeLaws MessageRecord, !SerdeLaws PartRecord}.
Import HistoryStore.

Lemma list_parts_clean (d : Db) msg : clean PartRecord d PART_TABLE ->
  list_parts d msg = Ok (sort_by_key part_index
    (filter (fun p => message_id p = msg) (sorted_values (records PartRecord d PART_TABLE)))).
Proof. intros Hd. unfold list_parts. by rewrite list_records_clean. Qed.

Lemma parts_of_clean (d : Db) t ms : clean PartRecord d PART_TABLE ->
  parts_of d t ms = Ok (m ← ms; filter (fun p => part_type p = t) (sort_by_key part_index
    (filter (fun p => message_id p = m_id m) (sorted_values (records PartRecord d PART_TABLE))))).
Proof.
  intros Hd. induction ms as [|m ms IH]; [done|]. cbn. rewrite list_parts_clean by done. cbn. by rewrite IH.
Qed.

(** The parts of one type in a session come message by message in the order of the messages, within a
    message by index; the tool calls and the file diffs are two instances. *)
Theorem session_parts_in_order (d : Db) session t :
  clean MessageRecord d MESSAGE_TABLE -> clean PartRecord d PART_TABLE ->
  exists ms, list_messages d session = Ok ms /\
    get_session_parts_by_type d session t = Ok (m ← ms;
      filter (fun p => part_type p = t) (sort_by_key part_index
        (filter (fun p => message_id p = m_id m) (sorted_values (records PartRecord d PART_TABLE))))).
Proof.
  intros Hm Hp. unfold get_session_parts_by_type, list_messages. rewrite list_records_clean by done.
  eexists. split; [done|]. cbn [mbind result_bind]. by rewrite parts_of_clean.
Qed.

(** After a message is stored, the history of its session is its old history with the message in
    place of the one with the same id, ordered by sequence number; the messages of other sessions are
    listed as before. *)
Theorem history_in_order (d : Db) (m : MessageRecord) :
  clean MessageRecord d MESSAGE_TABLE -> fits m ->
  (forall m', records MessageRecord d MESSAGE_TABLE !! uuid_str (m_id m) = Some m' ->
     m_session_id m' = m_session_id m) ->
  exists d', create_message d m = (Ok (), d') /\ clean MessageRecord d' MESSAGE_TABLE /\
    get_message d' (m_id m) = Ok (Some m) /\
    (exists l, list_messages d' (m_session_id m) = Ok l /\ m ∈ l /\
       StronglySorted (fun a b => sequence a <= sequence b) l /\
       (forall x, x ∈ l <-> m_session_id x = m_session_id m /\
          exists k, records MessageRecord d' MESSAGE_TABLE !! k = Some x)) /\
    (forall s, s <> m_session_id m -> exists l l',
       list_messages d s = Ok l /\ list_messages d' s = Ok l' /\ forall x, x ∈ l <-> x ∈ l').
Proof.
  intros Hc Hf Hsame.
  destruct (put_record_clean MessageRecord d MESSAGE_TABLE (uuid_str (m_id m)) m Hc Hf) as (d' & E & Hc' & Er).
  assert (forall d s, clean MessageRecord d MESSAGE_TABLE -> list_messages d s = Ok (sort_by_key sequence
    (filter (fun m => m_session_id m = s) (sorted_values (records MessageRecord d MESSAGE_TABLE))))) as Hl.
  { intros d0 s Hd. unfold list_messages. by rewrite list_records_clean. }
  assert (forall (d0 : Db) s x, x ∈ sort_by_key sequence
      (filter (fun m => m_session_id m = s) (sorted_values (records MessageRecord d0 MESSAGE_TABLE))) <->
    m_session_id x = s /\ exists k, records MessageRecord d0 MESSAGE_TABLE !! k = Some x) as Hin.
  { intros d0 s x. by rewrite sort_by_key_perm, list_elem_of_filter, elem_of_sorted_values. }
  exists d'. split; [done|]. split; [done|]. split; [|split].
  - unfold get_message. rewrite get_record_clean, Er by done. by rewrite lookup_insert_eq.
  - rewrite Hl by done. eexists. split; [done|]. split; [|split; [apply sort_by_key_sorted | apply Hin]].
    apply Hin. split; [done|]. exists (uuid_str (m_id m)). by rewrite Er, lookup_insert_eq.
  - intros s Hs. rewrite !Hl by done. eexists _, _. split; [done|]. split; [done|]. intros x. rewrite !Hin, Er.
    split; intros [Hx [k Hk]]; (split; [done|]); exists k.
    + rewrite lookup_insert_ne; [done|]. intros <-. apply Hs. rewrite <-Hx. by apply Hsame.
    + apply lookup_insert_Some in Hk as [[_ <-]|[_ ?]]; congruence.
Qed.

End Listing.

(** ** A codec of messages, for the witness *)

Module Toy.
Import Mem ToyUuid.

#[local] Instance hrole_eq : EqDecision HRole.t.
Proof. solve_decision. Defined.
#[local] Instance message_eq : EqDecision MessageRecord.
Proof. solve_decision. Defined.
Definition role_code (r : HRole.t) : nat :=
  match r with HRole.User => 0 | HRole.Assistant => 1 | HRole.Tool => 2 | HRole.System => 3 end.
Definition code_role (n : nat) : HRole.t :=
  match n with 0 => HRole.User | 1 => HRole.Assistant | 2 => HRole.Tool | _ => HRole.System end%nat.
#[local] Program Instance message_countable : Countable MessageRecord :=
  inj_countable'
    (fun m => (m_id m, m_session_id m, sequence m, role_code (m_role m), (timestamp m, m_content m, tokens m)))
    (fun '(a, b, c, r, (t, x, k)) => {| m_id := a; m_session_id := b; sequence := c; m_role := code_role r;
                                        timestamp := t; m_content := x; tokens := k |}) _.
Next Obligation. intros [a b c [] t x k]; done. Qed.

#[local] Existing Instance Mem.coded_serde.
#[local] Existing Instance Mem.coded_laws.

Definition hello : MessageRecord :=
  {| m_id := 1; m_session_id := 7; sequence := 0; m_role := HRole.User; timestamp := 5; m_content := "hello";
     tokens := None |}.

Lemma history_in_order_witness :
  exists d', HistoryStore.create_message ({["messages"%string := ∅]} : tables_t) hello = (Ok (), d') /\
    HistoryStore.get_message d' 1 = Ok (Some hello).
Proof.
  destruct (history_in_order ({["messages"%string := ∅]} : tables_t) hello) as (d' & Hc & _ & Hg & _).
  - apply (Mem.mem_clean MessageRecord "messages").
  - exact I.
  - intros m' H. change HistoryStore.MESSAGE_TABLE with "messages"%string in H.
    rewrite (proj2 (Mem.mem_clean MessageRecord "messages")), lookup_empty in H. discriminate.
  - exists d'. split; [exact Hc | exact Hg].
Defined.

End Toy.
