(* ===== verification/Proc.v ===== *)
(** * Kernel process handlers

    Models [kernel/proc/] ([agent.rs], [signals.rs], [mod.rs], [session.rs], [invocation.rs],
    [types.rs]) and the crash recovery of [kernel/boot.rs]: spawning an agent, aborting it, pausing and
    resuming with the cascade to the other agents of its session, restoring the agents of the last run,
    and the queries around them.  [AgentManager], [SignalHandler] and [ProcHandler] share their maps and
    stores through [Arc]; the record [Proc] is that shared state.  The session and invocation stores are
    the interfaces of [Sessions] and [Invocations], the signal channels the ones of [Signals].
    Not under the sources: the clock ([clk n] is the [n]-th reading inside an operation), fresh uuids and
    the random part of a pid, HMAC.  The agent manifests ([agent_manifest/]) enter as the function that
    gives a manifest's requested capabilities.  [launched] is the history of the executor factory's
    launches and [aborted] the tasks whose handle was aborted. *)

From S2P Require Import Prelude Types Token Json Channels ToolRegistry Process Signals Router Resources Store Sessions Invocations.
Local Open Scope Z_scope.

Record SpawnParams : Type := {
  sp_pid : Z; sp_agent_name : string; sp_goal : string; sp_spawned_by : string; sp_token : CapabilityToken;
  sp_session_id : string; sp_atp_session_id : string; sp_system_prompt : option string;
  sp_selected_model : string; sp_denied_tools : list string; sp_context_limit : Z; sp_runtime_dir : string;
  sp_invocation_id : string; sp_restore_from_pid : option Z
}.

(** What an operation draws from outside: clock readings, the pid's clock and salt, two uuids. *)
Record Fresh : Type := { clk : nat -> Z; pid_ms : Z; pid_rnd : Z; session_uuid : Z; invocation_uuid : Z }.

Record ActiveAgent : Type := { aa_pid : Z; aa_name : string; aa_status : string; aa_goal : string }.
Record ToolListResponse : Type := { tl_total : nat; tl_available : nat; tl_unavailable : nat; tl_tools : list ToolSummary }.

Section Proc.
Context {SS IS C : Type} `{!SessionStoreI SS, !InvocationStoreI IS, !Mpsc Signal C, !UuidText}.
Variable hmac : string -> string -> string.
Variable syscalls : list CapabilityResolver.Syscall.

Record ProcConfig : Type := {
  master_key : string;
  runtime_dir : string;
  has_factory : bool;
  (** the requested capabilities of an agent's manifest, by agent name and user *)
  manifest_scanner : option (string -> string -> option (list string))
}.

Record Proc : Type := {
  process_table : ProcessTable;
  active_invocations : gmap Z string;
  active_sessions : gmap Z string;
  invocation_store : option IS;
  session_store : option SS;
  tool_registry : option ToolRegistry;
  (** executor tasks by pid: positions in [launched] *)
  task_handles : gmap Z nat;
  channels : SignalChannels.SignalChannelRegistry C;
  launched : list SpawnParams;
  aborted : list nat
}.

Definition with_table p t := {| process_table := t; active_invocations := active_invocations p;
  active_sessions := active_sessions p; invocation_store := invocation_store p; session_store := session_store p;
  tool_registry := tool_registry p; task_handles := task_handles p; channels := channels p;
  launched := launched p; aborted := aborted p |}.
Definition with_active p i s := {| process_table := process_table p; active_invocations := i;
  active_sessions := s; invocation_store := invocation_store p; session_store := session_store p;
  tool_registry := tool_registry p; task_handles := task_handles p; channels := channels p;
  launched := launched p; aborted := aborted p |}.
Definition with_stores p i s := {| process_table := process_table p; active_invocations := active_invocations p;
  active_sessions := active_sessions p; invocation_store := i; session_store := s;
  tool_registry := tool_registry p; task_handles := task_handles p; channels := channels p;
  launched := launched p; aborted := aborted p |}.
Definition with_tasks p h l a := {| process_table := process_table p; active_invocations := active_invocations p;
  active_sessions := active_sessions p; invocation_store := invocation_store p; session_store := session_store p;
  tool_registry := tool_registry p; task_handles := h; channels := channels p; launched := l; aborted := a |}.
Definition with_channels p c := {| process_table := process_table p; active_invocations := active_invocations p;
  active_sessions := active_sessions p; invocation_store := invocation_store p; session_store := session_store p;
  tool_registry := tool_registry p; task_handles := task_handles p; channels := c;
  launched := launched p; aborted := aborted p |}.

(** ** Steps the operations share *)

(** [if let Ok(Some(mut session)) = store.get(&u) { f; store.update(&session) }], errors logged and dropped. *)
Definition sess_modify_uuid (p : Proc) (u : Z) (f : SessionRecord -> SessionRecord) : Proc :=
  match session_store p with
  | None => p
  | Some s =>
      match ss_get s u with
      | Ok (Some r) => with_stores p (invocation_store p) (Some (ss_update s (f r)).2)
      | _ => p
      end
  end.
(** The same behind [if let Ok(uuid) = Uuid::parse_str(..)]. *)
Definition sess_modify (p : Proc) (sid : string) (f : SessionRecord -> SessionRecord) : Proc :=
  match session_store p, parse_str sid with
  | Some _, Ok u => sess_modify_uuid p u f
  | _, _ => p
  end.
(** The same with [Uuid::parse_str(..)?]. *)
Definition sess_modify_checked (p : Proc) (sid : string) (f : SessionRecord -> SessionRecord)
    : result AvixError Proc :=
  match session_store p with
  | None => Ok p
  | Some _ => u ← map_err InvalidInput (parse_str sid); Ok (sess_modify_uuid p u f)
  end.
(** [if let Some(store) = &self.invocation_store { store.op(..) }], errors dropped. *)
Definition inv_do (p : Proc) (op : IS -> result AvixError unit * IS) : Proc :=
  match invocation_store p with
  | None => p
  | Some s => with_stores p (Some (op s).2) (session_store p)
  end.
(** [let _ = self.process_table.set_status(..)] *)
Definition try_status (p : Proc) (pid : Z) (s : ProcessStatus) : Proc :=
  match Process.set_status (process_table p) pid s with Ok t => with_table p t | Err _ => p end.
Definition launch (p : Proc) (pid : Z) (params : SpawnParams) : Proc :=
  with_tasks p (<[pid := length (launched p)]> (task_handles p)) (launched p ++ [params]) (aborted p).

(** ** Spawning *)

Definition resolve_session_from_id (now : Z) (fresh : Z) (p : Proc) (name goal session_id caller : string)
    (owner : Z) : result AvixError (string * Proc) :=
  if bool_decide (session_id = ""%string) then
    match session_store p with
    | Some s => let r := session_new now fresh caller name name goal owner in
                Ok (uuid_str fresh, with_stores p (invocation_store p) (Some (ss_create s r).2))
    | None => Ok (uuid_str fresh, p)
    end
  else p ← sess_modify_checked p session_id (add_participant now name true); Ok (session_id, p).

(** The session a new agent works in: its parent's, or the one asked for. *)
Definition effective_session (fr : Fresh) (p : Proc) (name goal session_id caller : string) (parent : option Z)
    (pid : Z) : result AvixError (string * Proc) :=
  match parent with
  | Some ppid =>
      match active_sessions p !! ppid with
      | Some sid => p ← sess_modify_checked p sid (add_participant (clk fr 0) name true); Ok (sid, p)
      | None => resolve_session_from_id (clk fr 0) (session_uuid fr) p name goal session_id caller pid
      end
  | None => resolve_session_from_id (clk fr 0) (session_uuid fr) p name goal session_id caller pid
  end.

Definition resolve_granted_tools (cf : ProcConfig) (p : Proc) (agent caller : string) : list string :=
  let caps := match manifest_scanner cf with
              | Some get => default [] (get agent caller)
              | None => []
              end in
  match tool_registry p with
  | Some reg => CapabilityResolver.resolve reg syscalls caps
  | None => ALWAYS_PRESENT
  end.

Definition agent_entry (now act pid : Z) (name : string) (st : ProcessStatus) (parent : option Z) (user goal : string)
    : ProcessEntry := {|
  Process.pid := pid; Process.name := name; Process.kind := Agent; Process.status := st; Process.parent := parent;
  Process.spawned_by_user := user; Process.granted_tools := []; Process.token_expires_at := None;
  Process.tool_chain_depth := 0; Process.goal := goal; Process.spawned_at := now; Process.context_used := 0;
  Process.context_limit := 0; Process.last_activity_at := act; Process.waiting_on := None;
  Process.denied_tools := []; Process.last_signal_received := None; Process.pending_signal_count := 0;
  Process.tokens_consumed := 0; Process.tool_calls_total := 0 |}.

Definition spawn_params (cf : ProcConfig) (now pid : Z) (name goal user sid atp : string) (tools : list string)
    (inv : string) (restore : option Z) : SpawnParams := {|
  sp_pid := pid; sp_agent_name := name; sp_goal := goal; sp_spawned_by := user;
  sp_token := Token.mint hmac now tools
    (Some {| it_pid := pid; Token.agent_name := name; spawned_by := user |}) 3600 (master_key cf);
  sp_session_id := sid; sp_atp_session_id := atp; sp_system_prompt := None; sp_selected_model := "";
  sp_denied_tools := []; sp_context_limit := 0; sp_runtime_dir := runtime_dir cf; sp_invocation_id := inv;
  sp_restore_from_pid := restore |}.

(** The record an invocation leaves on its session. *)
Definition spawn_meta (fr : Fresh) (pid : Z) (name : string) : PidInvocationMeta :=
  {| pm_pid := pid; pm_invocation_id := uuid_str (invocation_uuid fr); pm_agent_name := name; pm_agent_version := "";
     pm_spawned_at := clk fr 4 |}.

(** The first half of [spawn], once the session is known: process entry, session, invocation record. *)
Definition spawn_records (fr : Fresh) (p : Proc) (pid : Z) (name goal sid caller : string) (parent : option Z) : Proc :=
  let p := with_table p (insert_entry (process_table p)
             (agent_entry (clk fr 1) (clk fr 7) pid name Pending parent caller goal)) in
  let p := sess_modify p sid (Sessions.add_pid (clk fr 2) pid) in
  let p := with_active p (active_invocations p) (<[pid := sid]> (active_sessions p)) in
  let inv := uuid_str (invocation_uuid fr) in
  let p := inv_do p (fun s => is_create s (invocation_new (clk fr 3) inv name caller pid goal sid)) in
  let p := sess_modify p sid (add_invocation_pid (clk fr 5) (spawn_meta fr pid name)) in
  with_active p (<[pid := inv]> (active_invocations p)) (active_sessions p).

Definition agent_spawn (cf : ProcConfig) (fr : Fresh) (p : Proc) (name goal session_id atp caller : string)
    (parent : option Z) : result AvixError (Z * Proc) :=
  let pid := Pid.generate (pid_ms fr) (pid_rnd fr) in
  '(sid, p) ← effective_session fr p name goal session_id caller parent pid;
  let p := spawn_records fr p pid name goal sid caller parent in
  let tools := resolve_granted_tools cf p name caller in
  let p := if has_factory cf
           then launch p pid (spawn_params cf (clk fr 6) pid name goal caller sid atp tools
                                (uuid_str (invocation_uuid fr)) None)
           else p in
  t ← Process.set_status (process_table p) pid Running;
  Ok (pid, with_table p t).

(** ** Ending an agent *)

(** [AgentManager::finalize_invocation]: the record of the pid's invocation, if there is one. *)
Definition agent_finalize_invocation (now : Z) (p : Proc) (pid : Z) (st : InvocationStatus.t)
    (why : option string) : Proc :=
  match active_invocations p !! pid with
  | None => p
  | Some inv =>
      let p := with_active p (delete pid (active_invocations p)) (active_sessions p) in
      let '(tok, calls) := match Process.get (process_table p) pid with
                           | Some e => (Process.tokens_consumed e, Process.tool_calls_total e)
                           | None => (0, 0)
                           end in
      inv_do p (fun s => is_finalize s inv st now tok calls why)
  end.

(** Drop the task of the pid, if it has one. *)
Definition abort_task (p : Proc) (pid : Z) : Proc :=
  match task_handles p !! pid with
  | Some h => with_tasks p (delete pid (task_handles p)) (launched p) (aborted p ++ [h])
  | None => p
  end.

Definition agent_abort (now : Z) (p : Proc) (pid : Z) : Proc :=
  let p := abort_task p pid in
  let p := try_status p pid Stopped in
  agent_finalize_invocation now p pid InvocationStatus.Killed (Some "killed"%string).

Definition finalize_session_for_pid (now : Z) (p : Proc) (pid : Z) (st : InvocationStatus.t) : Proc :=
  match active_sessions p !! pid with
  | None => p
  | Some sid =>
      let p := with_active p (active_invocations p) (delete pid (active_sessions p)) in
      sess_modify p sid (fun s =>
        let s := Sessions.remove_pid now pid s in
        if bool_decide (pid = owner_pid s) then
          match st with
          | InvocationStatus.Completed => mark_completed now s
          | InvocationStatus.Failed | InvocationStatus.Killed => mark_failed now s
          | _ => s
          end
        else s)
  end.

(** [ProcHandler::finalize_invocation] *)
Definition finalize_invocation (now : Z) (p : Proc) (pid : Z) (st : InvocationStatus.t) (why : option string) : Proc :=
  finalize_session_for_pid now (agent_finalize_invocation now p pid st why) pid st.

(** [ProcHandler::abort_agent]: the manager's abort, then its own.  The handler's own map of tasks is never
    filled. *)
Definition abort_agent (now : Z) (p : Proc) (pid : Z) : Proc :=
  let p := agent_abort now p pid in
  let p := try_status p pid Stopped in
  finalize_invocation now p pid InvocationStatus.Killed (Some "killed"%string).

(** ** Signals.  [None]: a channel is full and the operation waits. *)

Definition deliver_to (p : Proc) (pid : Z) (k : SignalKind) (v : json) : option (bool * Proc) :=
  '(ok, c) ← SignalChannels.send (channels p) pid {| target := pid; Signals.kind := k; payload := v |};
  Some (ok, with_channels p c).

(** The sends run concurrently, each on its own channel; the call returns when all have. *)
Definition broadcast_to (p : Proc) (pids : list Z) (k : SignalKind) (v : json) : option Proc :=
  foldl (fun o pid => p ← o; '(_, p) ← deliver_to p pid k v; Some p) (Some p) pids.

(** The status of the process and of its active invocation, errors dropped. *)
Definition set_both (p : Proc) (pid : Z) (ps : ProcessStatus) (st : InvocationStatus.t) : Proc :=
  let p := try_status p pid ps in
  match active_invocations p !! pid with
  | Some inv => inv_do p (fun s => is_update_status s inv st)
  | None => p
  end.
Definition others (pid : Z) (s : SessionRecord) : list Z := filter (fun q => q <> pid) (pids s).

(** The other agents of the session: signalled together, then marked one by one, then the session. *)
Definition follow_session (now : Z) (p : Proc) (pid : Z) (ps : ProcessStatus) (st : InvocationStatus.t)
    (k : SignalKind) (mark : Z -> SessionRecord -> SessionRecord) (s : SessionRecord) : option Proc :=
  let siblings := others pid s in
  p ← match siblings with [] => Some p | _ => broadcast_to p siblings k JNull end;
  let p := foldl (fun p q => set_both p q ps st) p siblings in
  Some (match session_store p with
        | Some ss => with_stores p (invocation_store p) (Some (ss_update ss (mark now s)).2)
        | None => p
        end).

(** [pause_agent] and [resume_agent] differ in the statuses, the signal and the condition under which the
    other agents of the session follow. *)
Definition cascade (now : Z) (p : Proc) (pid : Z) (ps : ProcessStatus) (st : InvocationStatus.t) (k : SignalKind)
    (mark : Z -> SessionRecord -> SessionRecord) (follow : SessionRecord -> bool) : option Proc :=
  let p := set_both p pid ps st in
  '(_, p) ← deliver_to p pid k JNull;
  match active_sessions p !! pid, session_store p with
  | Some sid, Some ss =>
      match parse_str sid with
      | Err _ => Some p
      | Ok u =>
          match ss_get ss u with
          | Ok (Some s) => if follow s then follow_session now p pid ps st k mark s else Some p
          | _ => Some p
          end
      end
  | _, _ => Some p
  end.

Definition pause_agent (now : Z) (p : Proc) (pid : Z) : option Proc :=
  cascade now p pid Paused InvocationStatus.Paused Pause mark_paused (fun s => bool_decide (pid = owner_pid s)).
Definition resume_agent (now : Z) (p : Proc) (pid : Z) : option Proc :=
  cascade now p pid Running InvocationStatus.Running Resume mark_running
    (fun s => bool_decide (Sessions.status s = SessionStatus.Paused)).

Definition signal_kind (signal : string) : result AvixError SignalKind :=
  if String.eqb signal "SIGSTART" then Ok Start
  else if String.eqb signal "SIGKILL" then Ok Kill
  else if String.eqb signal "SIGSTOP" then Ok Stop
  else if String.eqb signal "SIGSAVE" then Ok Save
  else if String.eqb signal "SIGPIPE" then Ok Pipe
  else if String.eqb signal "SIGESCALATE" then Ok Escalate
  else Err (ConfigParse ("unknown signal: " +:+ signal)%string).

Definition send_signal (now : Z) (p : Proc) (pid : Z) (signal : string) (v : json)
    : option (result AvixError unit * Proc) :=
  if String.eqb signal "SIGPAUSE" then p ← pause_agent now p pid; Some (Ok (), p)
  else if String.eqb signal "SIGRESUME" then p ← resume_agent now p pid; Some (Ok (), p)
  else match signal_kind signal with
       | Err e => Some (Err e, p)
       | Ok k =>
           '(ok, p) ← deliver_to p pid k v;
           Some (if (ok : bool) then Ok () else Err (NotFound ("no signal channel for pid " +:+ pretty pid)%string), p)
       end.

(** ** Restart *)

(** Phase 2.5: the sessions that had live invocations lose their stale pids and become idle. *)
Definition affected_sessions (invs : list InvocationRecord) : gset string :=
  list_to_set (session_id <$> filter (fun r => InvocationStatus.is_live (Invocations.status r) = true) invs).
Definition repair (now : Z) (s : SessionRecord) : SessionRecord :=
  let s := clear_pids s in
  match Sessions.status s with
  | SessionStatus.Running | SessionStatus.Paused => mark_idle now s
  | _ => s
  end.
Definition repair_session (now : Z) (ss : SS) (sid : string) : SS :=
  match parse_str sid with
  | Err _ => ss
  | Ok u => match ss_get ss u with Ok (Some s) => (ss_update ss (repair now s)).2 | _ => ss end
  end.
(** [order] is the iteration order of the set of sessions. *)
Definition phase3_crash_recovery (now : Z) (order : gset string -> list string) (ist : IS) (ss : SS)
    : result AvixError unit * SS :=
  match is_list_all ist with
  | Err e => (Err e, ss)
  | Ok invs => (Ok (), foldl (repair_session now) ss (order (affected_sessions invs)))
  end.

Definition restore_from_invocation (cf : ProcConfig) (now : nat -> Z) (p : Proc) (inv : InvocationRecord)
    : option Z * Proc :=
  if has_factory cf then
    let pid := Invocations.pid inv in
    let user := Invocations.username inv in let name := Invocations.agent_name inv in
    let tools := resolve_granted_tools cf p name user in
    let params := spawn_params cf (now 0%nat) pid name (Invocations.goal inv) user (session_id inv) "" tools
                    (Invocations.id inv) (Some pid) in
    let p := with_table p (insert_entry (process_table p)
               (agent_entry (now 1%nat) (now 3%nat) pid name Waiting None user (Invocations.goal inv))) in
    let p := sess_modify p (session_id inv) (add_pid (now 2%nat) pid) in
    let p := with_active p (<[pid := Invocations.id inv]> (active_invocations p))
               (<[pid := session_id inv]> (active_sessions p)) in
    (Some pid, launch p pid params)
  else (None, p).

Definition restore_step (cf : ProcConfig) (now : nat -> Z) (p : Proc) (inv : InvocationRecord) : Proc :=
  if InvocationStatus.is_live (Invocations.status inv) then (restore_from_invocation cf now p inv).2 else p.
Definition restore_interrupted_agents (cf : ProcConfig) (now : nat -> Z) (p : Proc) (ist : IS) : Proc :=
  match is_list_all ist with
  | Err _ => p
  | Ok invs => foldl (restore_step cf now) p invs
  end.

(** ** Queries and sessions *)

Definition status_str (s : ProcessStatus) : string :=
  match s with
  | Running => "running" | Paused => "paused" | Waiting => "waiting" | Stopped => "stopped"
  | Crashed => "crashed" | Pending => "pending"
  end.
Definition proc_list (p : Proc) : list ActiveAgent :=
  (fun e => {| aa_pid := Process.pid e; aa_name := Process.name e; aa_status := status_str (Process.status e);
               aa_goal := Process.goal e |}) <$> list_by_kind (process_table p) Agent.

Definition list_tools (p : Proc) : ToolListResponse :=
  match tool_registry p with
  | Some r =>
      let tools := ToolRegistry.list_all r in
      {| tl_total := length tools;
         tl_available := length (filter (fun t => ts_state t = "available"%string) tools);
         tl_unavailable := length (filter (fun t => ts_state t <> "available"%string) tools); tl_tools := tools |}
  | None => {| tl_total := 0; tl_available := 0; tl_unavailable := 0; tl_tools := [] |}
  end.

Definition inv_not_configured : AvixError := NotFound "invocation store not configured".
Definition sess_not_configured : AvixError := NotFound "session store not configured".

(** [live]: all of them; otherwise the finished ones. *)
Definition list_invocations (p : Proc) (user : string) (agent : option string) (live : bool)
    : result AvixError (list InvocationRecord) :=
  match invocation_store p with
  | None => Ok []
  | Some s =>
      l ← match agent with Some a => is_list_for_agent s user a | None => is_list_for_user s user end;
      Ok (if live then l else filter (fun r => InvocationStatus.is_live (Invocations.status r) = false) l)
  end.
Definition get_invocation (p : Proc) (i : string) : result AvixError (option InvocationRecord) :=
  match invocation_store p with Some s => is_get s i | None => Ok None end.
Definition list_invocations_for_session (p : Proc) (sid : string)
    : result AvixError (list InvocationRecord) :=
  match invocation_store p with Some s => is_list_for_session s sid | None => Ok [] end.
Definition read_invocation_conversation (p : Proc) (i : string)
    : result AvixError (list ConversationEntry) :=
  match invocation_store p with
  | None => Ok []
  | Some s =>
      o ← is_get s i;
      match o with
      | None => Ok []
      | Some r => is_read_conversation s (session_id r) (Invocations.pid r) (Invocations.username r)
      end
  end.
Definition inv_not_found (i : string) : AvixError := NotFound ("invocation " +:+ i +:+ " not found")%string.
Definition snapshot_invocation (p : Proc) (i : string) : result AvixError InvocationRecord * Proc :=
  match invocation_store p with
  | None => (Err inv_not_configured, p)
  | Some s =>
      match (o ← is_get s i; ok_or (inv_not_found i) o) with
      | Err e => (Err e, p)
      | Ok r =>
          if InvocationStatus.is_live (Invocations.status r) then
            let '(x, s') := is_persist_interim s i [] (Invocations.tokens_consumed r) (Invocations.tool_calls_total r) in
            let p := with_stores p (Some s') (session_store p) in
            (match x with Err e => Err e | Ok _ => o ← is_get s' i; ok_or (inv_not_found i) o end, p)
          else (Err (InvalidInput "cannot snapshot a finalized invocation"), p)
      end
  end.

Definition create_session (now fresh : Z) (p : Proc) (user origin title goal : string) (owner : Z)
    : result AvixError SessionRecord * Proc :=
  match session_store p with
  | None => (Err sess_not_configured, p)
  | Some s =>
      let r := session_new now fresh user origin title goal owner in
      let '(x, s') := ss_create s r in
      (_ ← x; Ok r, with_stores p (invocation_store p) (Some s'))
  end.
Definition list_sessions (p : Proc) (user : string) : result AvixError (list SessionRecord) :=
  match session_store p with Some s => ss_list_for_user s user | None => Ok [] end.
Definition get_session (p : Proc) (u : Z) : result AvixError (option SessionRecord) :=
  match session_store p with Some s => ss_get s u | None => Ok None end.
Definition delete_session (p : Proc) (u : Z) : result AvixError unit * Proc :=
  match session_store p with
  | None => (Err sess_not_configured, p)
  | Some s => let '(x, s') := ss_delete s u in (x, with_stores p (invocation_store p) (Some s'))
  end.

(** [resume_session] up to the spawn: the agent, the goal and the user it is spawned with. *)
Definition resume_request (p : Proc) (u : Z) (input : option string)
    : result AvixError (string * string * string) :=
  match session_store p with
  | None => Err sess_not_configured
  | Some s =>
      o ← ss_get s u;
      r ← ok_or (NotFound ("session " +:+ uuid_str u +:+ " not found")%string) o;
      match Sessions.status r with
      | SessionStatus.Idle | SessionStatus.Running | SessionStatus.Paused =>
          Ok (primary_agent r, default (Sessions.goal r) input, Sessions.username r)
      | st => Err (InvalidInput ("session " +:+ uuid_str u +:+ " is not Idle, Running, or Paused (status: "
                                 +:+ SessionStatus.debug st +:+ ")")%string)
      end
  end.

(** ** What the stores hold *)

Context `{!SessionStoreLaws SS, !InvocationStoreLaws IS}.

Definition sv (p : Proc) : gmap string SessionRecord :=
  match session_store p with Some s => sessions s | None => ∅ end.
Definition iv (p : Proc) : gmap string InvocationRecord :=
  match invocation_store p with Some s => invocations s | None => ∅ end.

(** The stores work and hold every record under its own id. *)
Record good (p : Proc) : Prop := {
  good_ss s : session_store p = Some s -> ss_up s;
  good_is s : invocation_store p = Some s -> is_up s;
  good_skey k r : sv p !! k = Some r -> k = uuid_str (Sessions.id r);
  good_ikey k r : iv p !! k = Some r -> k = Invocations.id r
}.

(** Only the contents of the stores changed. *)
Definition only_stores (p p' : Proc) : Prop :=
  p' = with_stores p (invocation_store p') (session_store p') /\
  (session_store p = None <-> session_store p' = None) /\
  (invocation_store p = None <-> invocation_store p' = None).

Lemma only_stores_refl p : only_stores p p.
Proof. by destruct p. Qed.

Lemma only_stores_trans p q r : only_stores p q -> only_stores q r -> only_stores p r.
Proof.
  intros (E1 & A1 & B1) (E2 & A2 & B2). split; [|by rewrite A1, B1]. rewrite E2 at 1. rewrite E1 at 1. done.
Qed.

Lemma good_same p q : good p -> session_store q = session_store p -> invocation_store q = invocation_store p -> good q.
Proof.
  intros [A B K L] E1 E2. constructor; unfold sv, iv in *; rewrite ?E1, ?E2; eauto.
Qed.

Definition keeps_id (f : SessionRecord -> SessionRecord) : Prop := forall r, Sessions.id (f r) = Sessions.id r.

Lemma sess_modify_uuid_spec p u f : good p -> keeps_id f ->
  let p' := sess_modify_uuid p u f in
  good p' /\ only_stores p p' /\ iv p' = iv p /\ sv p' = alter f (uuid_str u) (sv p).
Proof.
  intros G Hf p'. unfold p', sess_modify_uuid, sv. destruct (session_store p) as [s|] eqn:E.
  2: { split; [done|]. split; [apply only_stores_refl|]. split; [done|]. rewrite E. by rewrite alter_empty. }
  rewrite (ss_get_up s u) by (by eapply good_ss). destruct (sessions s !! uuid_str u) as [r|] eqn:Er.
  - destruct (ss_update_up s (f r)) as (s' & -> & U & V); [by eapply good_ss|]. cbn.
    assert (sessions s' = alter f (uuid_str u) (sessions s)) as V'.
    { rewrite V, Hf. assert (uuid_str u = uuid_str (Sessions.id r)) as <-.
      { apply (good_skey p G). unfold sv. by rewrite E. }
      apply map_eq. intros k. destruct (decide (k = uuid_str u)) as [->|Hk].
      - by rewrite lookup_insert_eq, lookup_alter_eq, Er.
      - by rewrite lookup_insert_ne, lookup_alter_ne by done. }
    split; [|split; [|split; [done | exact V']]].
    + constructor; cbn; [naive_solver | apply (good_is p G) | | apply (good_ikey p G)].
      intros k r' Hk. unfold sv in *. cbn in Hk. rewrite V' in Hk.
      apply lookup_alter_Some in Hk as [(<- & r0 & H0 & ->)|(Hne & H0)].
      * rewrite Hf. apply (good_skey p G). unfold sv. by rewrite E.
      * apply (good_skey p G). unfold sv. by rewrite E.
    + split; [done|]. cbn. by rewrite E.
  - split; [done|]. split; [apply only_stores_refl|]. split; [done|]. rewrite E.
    symmetry. apply alter_id. intros x Hx. congruence.
Qed.

Lemma sess_modify_spec p sid f : good p -> keeps_id f ->
  let p' := sess_modify p sid f in
  good p' /\ only_stores p p' /\ iv p' = iv p /\
  sv p' = match parse_str sid with Ok u => alter f (uuid_str u) (sv p) | Err _ => sv p end.
Proof.
  intros G Hf p'. unfold p', sess_modify.
  destruct (session_store p) as [s|] eqn:E; destruct (parse_str sid) as [u|] eqn:Eu;
    [by apply sess_modify_uuid_spec|..]; (split; [done|]; split; [apply only_stores_refl|]; split; [done|]); [done| |done].
  unfold sv. rewrite E. by rewrite alter_empty.
Qed.

Lemma inv_do_spec p op (g : gmap string InvocationRecord -> gmap string InvocationRecord) :
  good p ->
  (forall s, is_up s -> exists s', op s = (Ok (), s') /\ is_up s' /\ invocations s' = g (invocations s)) ->
  (forall k r, g (iv p) !! k = Some r -> k = Invocations.id r) ->
  let p' := inv_do p op in
  good p' /\ only_stores p p' /\ sv p' = sv p /\
  iv p' = match invocation_store p with Some _ => g (iv p) | None => iv p end.
Proof.
  intros G Hop Hg p'. unfold p', inv_do. destruct (invocation_store p) as [s|] eqn:E.
  2: { split; [done|]. split; [apply only_stores_refl | done]. }
  destruct (Hop s) as (s' & -> & U & V); [by eapply good_is|]. cbn.
  assert (iv p = invocations s) as Ei by (unfold iv; by rewrite E). rewrite Ei in *.
  split; [|split; [|split; [done | exact V]]].
  - constructor; cbn; [apply (good_ss p G) | naive_solver | apply (good_skey p G)|].
    intros k r Hk. unfold iv in Hk. cbn in Hk. rewrite V in Hk. by apply Hg.
  - split; [done|]. cbn. by rewrite E.
Qed.

Lemma alter_keyed (p : Proc) (f : InvocationRecord -> InvocationRecord) i k r :
  good p -> (forall x, Invocations.id (f x) = Invocations.id x) ->
  alter f i (iv p) !! k = Some r -> k = Invocations.id r.
Proof.
  intros G Hf [(<- & r0 & H0 & ->)|(Hne & H0)]%lookup_alter_Some; [rewrite Hf|]; by apply (good_ikey p G).
Qed.

(** Changing one invocation in place. *)
Lemma inv_alter_spec p op i f :
  good p -> (forall x, Invocations.id (f x) = Invocations.id x) ->
  (forall s, is_up s -> exists s', op s = (Ok (), s') /\ is_up s' /\ invocations s' = alter f i (invocations s)) ->
  let p' := inv_do p op in
  good p' /\ only_stores p p' /\ sv p' = sv p /\ iv p' = alter f i (iv p).
Proof.
  intros G Hf Hop p'.
  destruct (inv_do_spec p op (alter f i) G Hop) as (G' & O & S & V);
    [intros k r; by apply alter_keyed|].
  split; [done|]. split; [done|]. split; [done|]. unfold p'. rewrite V.
  destruct (invocation_store p) eqn:E; [done|]. unfold iv. rewrite E. by rewrite alter_empty.
Qed.

(** ** Spawning, exactly *)

(** Which session the new agent works in, and the sessions once it takes part in it. *)
Definition joined (fr : Fresh) (p : Proc) (name sid : string) : result AvixError (string * gmap string SessionRecord) :=
  u ← map_err InvalidInput (parse_str sid);
  Ok (sid, alter (add_participant (clk fr 0) name true) (uuid_str u) (sv p)).
Definition session_for (fr : Fresh) (p : Proc) (name goal session_id caller : string) (parent : option Z) (pid : Z)
    : result AvixError (string * gmap string SessionRecord) :=
  match parent ≫= (fun q => active_sessions p !! q) with
  | Some sid => joined fr p name sid
  | None =>
      if bool_decide (session_id = ""%string)
      then Ok (uuid_str (session_uuid fr), <[uuid_str (session_uuid fr) :=
                 session_new (clk fr 0) (session_uuid fr) caller name name goal pid]> (sv p))
      else joined fr p name session_id
  end.

Lemma joined_spec fr p ss name sid : good p -> session_store p = Some ss ->
  match joined fr p name sid with
  | Err e => sess_modify_checked p sid (add_participant (clk fr 0) name true) = Err e
  | Ok (sid', m) => sid' = sid /\ exists p',
      sess_modify_checked p sid (add_participant (clk fr 0) name true) = Ok p' /\
      good p' /\ only_stores p p' /\ iv p' = iv p /\ sv p' = m
  end.
Proof.
  intros G E. unfold joined, sess_modify_checked. rewrite E.
  destruct (parse_str sid) as [u|e]; cbn; [|done]. split; [done|].
  destruct (sess_modify_uuid_spec p u (add_participant (clk fr 0) name true) G) as (G' & O & I & S); [done|]. eauto 10.
Qed.

Lemma effective_session_spec fr p ss name goal session_id caller parent pid :
  good p -> session_store p = Some ss ->
  match session_for fr p name goal session_id caller parent pid with
  | Err e => effective_session fr p name goal session_id caller parent pid = Err e
  | Ok (sid, m) => exists p', effective_session fr p name goal session_id caller parent pid = Ok (sid, p') /\
      good p' /\ only_stores p p' /\ iv p' = iv p /\ sv p' = m
  end.
Proof.
  intros G E. unfold session_for, effective_session, resolve_session_from_id.
  assert (forall sid, match joined fr p name sid with
    | Err e => (p ← sess_modify_checked p sid (add_participant (clk fr 0) name true); Ok (sid, p)) = Err e
    | Ok (sid', m) => exists p', (p ← sess_modify_checked p sid (add_participant (clk fr 0) name true); Ok (sid, p))
        = Ok (sid', p') /\ good p' /\ only_stores p p' /\ iv p' = iv p /\ sv p' = m end) as J.
  { intros sid. pose proof (joined_spec fr p ss name sid G E) as J. destruct (joined fr p name sid) as [[sid' m]|e].
    - destruct J as (-> & p' & -> & R). by exists p'.
    - by rewrite J. }
  assert (exists p', Ok (uuid_str (session_uuid fr), with_stores p (invocation_store p)
      (Some (ss_create ss (session_new (clk fr 0) (session_uuid fr) caller name name goal pid)).2)) =
      Ok (E := AvixError) (uuid_str (session_uuid fr), p') /\ good p' /\ only_stores p p' /\ iv p' = iv p /\
      sv p' = <[uuid_str (session_uuid fr) :=
                 session_new (clk fr 0) (session_uuid fr) caller name name goal pid]> (sv p)) as N.
  { destruct (ss_create_up ss (session_new (clk fr 0) (session_uuid fr) caller name name goal pid))
      as (s' & -> & U & V); [by eapply good_ss|]. eexists. split; [done|]. cbn in V.
    assert (sv p = sessions ss) as Es by (unfold sv; by rewrite E). rewrite Es, <-V.
    split; [|split; [|split; done]].
    - constructor; cbn; [naive_solver | apply (good_is p G) | | apply (good_ikey p G)].
      intros k r Hk. unfold sv in Hk. cbn in Hk. rewrite V in Hk.
      apply lookup_insert_Some in Hk as [[<- <-]|[_ Hk]]; [done|]. apply (good_skey p G). by rewrite Es.
    - split; [done|]. cbn. by rewrite E. }
  rewrite E. destruct parent as [ppid|]; cbn; [destruct (active_sessions p !! ppid) as [sid|]; [apply J|]|];
    case_bool_decide; (exact N || apply J).
Qed.

Lemma set_status_inserted (t : ProcessTable) e s :
  Process.set_status (insert_entry t e) (Process.pid e) s =
    Ok (<[Process.pid e := upd_status e s (waiting_on e)]> t).
Proof.
  unfold Process.set_status, Process.modify, insert_entry. rewrite lookup_insert_eq. by rewrite insert_insert_eq.
Qed.

Lemma alter_alter {A} (f g : A -> A) (k : string) (m : gmap string A) :
  alter f k (alter g k m) = alter (fun x => f (g x)) k m.
Proof.
  apply map_eq. intros j. destruct (decide (j = k)) as [->|].
  - rewrite !lookup_alter_eq. by destruct (m !! k).
  - by rewrite !lookup_alter_ne.
Qed.

Lemma spawn_records_spec fr p ist pid name goal sid caller parent :
  good p -> invocation_store p = Some ist ->
  let p' := spawn_records fr p pid name goal sid caller parent in
  let inv := uuid_str (invocation_uuid fr) in
  good p' /\
  process_table p' = insert_entry (process_table p)
    (agent_entry (clk fr 1) (clk fr 7) pid name Pending parent caller goal) /\
  active_sessions p' = <[pid := sid]> (active_sessions p) /\
  active_invocations p' = <[pid := inv]> (active_invocations p) /\
  iv p' = <[inv := invocation_new (clk fr 3) inv name caller pid goal sid]> (iv p) /\
  sv p' = match parse_str sid with
          | Ok u => alter (fun r => add_invocation_pid (clk fr 5) (spawn_meta fr pid name)
                                      (Sessions.add_pid (clk fr 2) pid r)) (uuid_str u) (sv p)
          | Err _ => sv p
          end /\
  tool_registry p' = tool_registry p /\ channels p' = channels p /\ aborted p' = aborted p /\
  launched p' = launched p /\ task_handles p' = task_handles p /\
  (session_store p = None <-> session_store p' = None) /\ (invocation_store p = None <-> invocation_store p' = None).
Proof.
  intros G Ei p' inv. unfold p', spawn_records. fold inv.
  set (p1 := with_table p _). assert (good p1) as G1 by (by eapply (good_same p)).
  destruct (sess_modify_spec p1 sid (Sessions.add_pid (clk fr 2) pid) G1) as (G2 & (F2 & M2 & I2) & V2 & S2); [done|].
  set (p2 := sess_modify p1 sid _) in *. set (p3 := with_active p2 _ _).
  assert (good p3) as G3 by (by eapply (good_same p2)).
  destruct (inv_do_spec p3 (fun s => is_create s (invocation_new (clk fr 3) inv name caller pid goal sid))
    (fun m => <[inv := invocation_new (clk fr 3) inv name caller pid goal sid]> m) G3) as (G4 & (F4 & M4 & I4) & S4 & V4).
  { intros s U. apply (is_create_up s (invocation_new (clk fr 3) inv name caller pid goal sid) U). }
  { intros k r [[<- <-]|[_ Hk]]%lookup_insert_Some; [done|]. by apply (good_ikey p3 G3). }
  set (p4 := inv_do p3 _) in *.
  destruct (sess_modify_spec p4 sid (add_invocation_pid (clk fr 5) (spawn_meta fr pid name)) G4)
    as (G5 & (F5 & M5 & I5) & V5 & S5); [done|].
  set (p5 := sess_modify p4 sid _) in *.
  split; [by eapply (good_same p5)|].
  assert (invocation_store p3 <> None) as N3 by (cbn; rewrite <-I2; cbn; by rewrite Ei).
  unfold iv, sv. cbn. fold (iv p5) (sv p5). rewrite V5, S5, S4, V4.
  change (sv p3) with (sv p2). rewrite S2. change (iv p3) with (iv p2). rewrite V2.
  cbn in M2, I2, M4, I4. rewrite <-M5, <-I5, <-M4, <-I4, <-M2, <-I2.
  split_and!; try (rewrite F5; cbn; rewrite F4; cbn; by rewrite F2); try done.
  - by destruct (invocation_store p3).
  - destruct (parse_str sid) as [u|]; [|done]. by rewrite alter_alter.
Qed.

(** The state after a spawn of [pid] in session [sid], with the sessions [m] once the agent takes part. *)
Record spawned (cf : ProcConfig) (fr : Fresh) (p : Proc) (pid : Z) (name goal sid atp caller : string)
    (parent : option Z) (m : gmap string SessionRecord) (p' : Proc) : Prop := {
  sp_process : process_table p' =
    <[pid := agent_entry (clk fr 1) (clk fr 7) pid name Running parent caller goal]> (process_table p);
  sp_active_session : active_sessions p' = <[pid := sid]> (active_sessions p);
  sp_active_invocation : active_invocations p' = <[pid := uuid_str (invocation_uuid fr)]> (active_invocations p);
  sp_invocation : iv p' = <[uuid_str (invocation_uuid fr) :=
    invocation_new (clk fr 3) (uuid_str (invocation_uuid fr)) name caller pid goal sid]> (iv p);
  sp_session : sv p' = match parse_str sid with
    | Ok u => alter (fun r => add_invocation_pid (clk fr 5) (spawn_meta fr pid name)
                                (Sessions.add_pid (clk fr 2) pid r)) (uuid_str u) m
    | Err _ => m
    end;
  sp_launched : launched p' = launched p ++
    (if has_factory cf then [spawn_params cf (clk fr 6) pid name goal caller sid atp
       (resolve_granted_tools cf p name caller) (uuid_str (invocation_uuid fr)) None] else []);
  sp_tasks : task_handles p' =
    if has_factory cf then <[pid := length (launched p)]> (task_handles p) else task_handles p;
  sp_rest : tool_registry p' = tool_registry p /\ channels p' = channels p /\ aborted p' = aborted p;
  sp_stores : session_store p' <> None /\ invocation_store p' <> None
}.

Lemma agent_spawn_spec cf fr p ss ist name goal session_id atp caller parent :
  good p -> session_store p = Some ss -> invocation_store p = Some ist ->
  let pid := Pid.generate (pid_ms fr) (pid_rnd fr) in
  match session_for fr p name goal session_id caller parent pid with
  | Err e => agent_spawn cf fr p name goal session_id atp caller parent = Err e
  | Ok (sid, m) =>
      exists p', agent_spawn cf fr p name goal session_id atp caller parent = Ok (pid, p') /\ good p' /\
        spawned cf fr p pid name goal sid atp caller parent m p'
  end.
Proof.
  intros G Es Ei pid. pose proof (effective_session_spec fr p ss name goal session_id caller parent pid G Es) as H0.
  unfold agent_spawn. fold pid.
  destruct (session_for fr p name goal session_id caller parent pid) as [[sid m]|e]; [|by rewrite H0].
  destruct H0 as (p0 & -> & G0 & (F0 & M0 & I0) & V0 & S0). cbn [mbind result_bind].
  destruct (invocation_store p0) as [ist0|] eqn:Ei0; [|by rewrite (proj2 I0) in Ei].
  destruct (spawn_records_spec fr p0 ist0 pid name goal sid caller parent G0 Ei0)
    as (G1 & T1 & A1 & B1 & V1 & S1 & R1 & X1 & Y1 & L1 & H1 & M1 & N1).
  set (p1 := spawn_records _ _ _ _ _ _ _ _) in *. clearbody p1.
  assert (resolve_granted_tools cf p1 name caller = resolve_granted_tools cf p name caller) as ->.
  { unfold resolve_granted_tools. by rewrite R1, F0. }
  set (params := spawn_params _ _ _ _ _ _ _ _ _ _ _).
  set (p2 := if has_factory cf then launch p1 pid params else p1).
  assert (process_table p2 = process_table p1) as -> by (unfold p2; by destruct (has_factory cf)).
  rewrite T1, (set_status_inserted _ (agent_entry (clk fr 1) (clk fr 7) pid name Pending parent caller goal)).
  cbn [mbind result_bind]. eexists. split; [done|].
  assert (session_store p2 = session_store p1 /\ invocation_store p2 = invocation_store p1) as [Es2 Ei2]
    by (unfold p2; by destruct (has_factory cf)).
  split; [by eapply (good_same p1)|].
  split; cbn; unfold iv, sv; cbn; rewrite ?Es2, ?Ei2; fold (iv p1) (sv p1) (iv p); rewrite ?V1, ?S1, ?V0, ?S0;
    rewrite <-?M1, <-?N1, <-?M0, ?Ei0, ?Es; try done; unfold p2; try (destruct (has_factory cf); cbn; rewrite ?A1, ?B1, ?R1, ?X1, ?Y1, ?L1, ?H1; by rewrite F0, ?app_nil_r).
Qed.

(** ** Pausing and resuming *)

Context `{!MpscLaws Signal C}.

(** The process is registered at channel [tx] and its executor still listens. *)
Definition listens (r : SignalChannels.SignalChannelRegistry C) (pid : Z) (tx : nat) : bool :=
  bool_decide (SignalChannels.inner r !! pid = Some tx) &&
  match SignalChannels.heap r !! tx with Some c => mpsc_connected c | None => false end.

Lemma send_queue r pid s ok r' :
  SignalChannels.send r pid s = Some (ok, r') ->
  SignalChannels.inner r' = SignalChannels.inner r /\
  (forall tx, SignalChannels.queue_of r' tx =
     SignalChannels.queue_of r tx ++ (if listens r pid tx then [s] else [])) /\
  (forall q tx, listens r' q tx = listens r q tx).
Proof.
  unfold SignalChannels.send, listens, SignalChannels.queue_of.
  destruct (SignalChannels.inner r !! pid) as [t|] eqn:Ei.
  2: { intros [= <- <-]. split; [done|]. split; [|done]. intros tx. by rewrite app_nil_r. }
  destruct (SignalChannels.heap r !! t) as [c|] eqn:Eh.
  2: { intros [= <- <-]. split; [done|]. split; [|done]. intros tx. case_bool_decide as Hd; cbn; [|by rewrite app_nil_r].
       injection Hd as <-. by rewrite Eh. }
  pose proof (mpsc_send_law c s) as L. destruct (mpsc_send c s) as [[c'|]|]; [..|done]; intros [= <- <-]; cbn.
  - split; [done|]. destruct L as (Lc & _ & Lq & _ & Lc'). split; [intros tx|intros q tx].
    + destruct (decide (tx = t)) as [->|Hn].
      * rewrite lookup_insert_eq, Eh, bool_decide_true by done. by rewrite Lc.
      * rewrite lookup_insert_ne by done. rewrite bool_decide_false by congruence. cbn. by rewrite app_nil_r.
    + destruct (decide (tx = t)) as [->|Hn]; [by rewrite lookup_insert_eq, Eh, Lc, Lc' | by rewrite lookup_insert_ne].
  - split; [done|]. split; [|done]. intros tx. case_bool_decide as Hd; cbn; [|by rewrite app_nil_r].
    injection Hd as <-. by rewrite Eh, L, app_nil_r.
Qed.

Definition signal_to (k : SignalKind) (q : Z) : Signal := {| target := q; Signals.kind := k; payload := JNull |}.

(** Every listening member gets the signal, once, behind what its channel holds. *)
Definition signalled (k : SignalKind) (qs : list Z) (r r' : SignalChannels.SignalChannelRegistry C) : Prop :=
  SignalChannels.inner r' = SignalChannels.inner r /\
  (forall tx, SignalChannels.queue_of r' tx =
     SignalChannels.queue_of r tx ++ (signal_to k <$> filter (fun q => listens r q tx = true) qs)) /\
  (forall q tx, listens r' q tx = listens r q tx).

Lemma signalled_app k qs1 qs2 r1 r2 r3 :
  signalled k qs1 r1 r2 -> signalled k qs2 r2 r3 -> signalled k (qs1 ++ qs2) r1 r3.
Proof.
  intros (I1 & Q1 & L1) (I2 & Q2 & L2). split; [congruence|]. split; [|intros; by rewrite L2].
  intros tx. rewrite Q2, Q1, filter_app, fmap_app, app_assoc. f_equal. f_equal.
  apply list_filter_iff. intros q. by rewrite L1.
Qed.

Lemma deliver_signalled p q k ok p' :
  deliver_to p q k JNull = Some (ok, p') ->
  p' = with_channels p (channels p') /\ signalled k [q] (channels p) (channels p').
Proof.
  unfold deliver_to. destruct (SignalChannels.send _ _ _) as [[b c]|] eqn:E; [|done]. cbn. intros [= <- <-].
  split; [done|]. apply send_queue in E as (I & Q & L). split; [done|]. split; [|done]. intros tx.
  cbn [channels with_channels]. rewrite Q, filter_cons, filter_nil. by destruct (listens _ q tx).
Qed.

Lemma broadcast_None qs k : foldl (fun o pid => p ← o; '(_, p) ← deliver_to p pid k JNull; Some p) None qs = None.
Proof. by induction qs. Qed.

Lemma broadcast_signalled qs : forall p k p', broadcast_to p qs k JNull = Some p' ->
  p' = with_channels p (channels p') /\ signalled k qs (channels p) (channels p').
Proof.
  unfold broadcast_to. induction qs as [|q qs IH]; intros p k p' Hb; cbn in Hb.
  - injection Hb as <-. split; [by destruct p|]. split; [done|]. split; [|done]. intros tx. by rewrite app_nil_r.
  - destruct (deliver_to p q k JNull) as [[ok p1]|] eqn:E; cbn in Hb; [|by rewrite broadcast_None in Hb].
    destruct (deliver_signalled _ _ _ _ _ E) as [E1 S1]. destruct (IH _ _ _ Hb) as [E2 S2].
    split; [rewrite E2, E1; done|]. by apply (signalled_app k [q] qs _ (channels p1)).
Qed.

(** Statuses of processes and invocations. *)
Lemma try_status_table p q s :
  try_status p q s = with_table p (alter (fun e => upd_status e s (waiting_on e)) q (process_table p)).
Proof.
  unfold try_status, Process.set_status, Process.modify. destruct (process_table p !! q) as [e|] eqn:E; cbn.
  - f_equal. apply map_eq. intros j. destruct (decide (j = q)) as [->|].
    + by rewrite lookup_insert_eq, lookup_alter_eq, E.
    + by rewrite lookup_insert_ne, lookup_alter_ne.
  - rewrite alter_id; [by destruct p|]. intros x Hx. congruence.
Qed.

Definition inv_of (p : Proc) (q : Z) : option string := active_invocations p !! q.

(** Nothing but process statuses, invocation records and channels changed. *)
Record frame (p p' : Proc) : Prop := {
  fr_sessions : session_store p' = session_store p;
  fr_active_i : active_invocations p' = active_invocations p;
  fr_active_s : active_sessions p' = active_sessions p;
  fr_tasks : task_handles p' = task_handles p /\ launched p' = launched p /\ aborted p' = aborted p;
  fr_registry : tool_registry p' = tool_registry p;
  fr_store : invocation_store p = None <-> invocation_store p' = None
}.
Lemma frame_refl p : frame p p.
Proof. by constructor. Qed.
Lemma frame_trans p q r : frame p q -> frame q r -> frame p r.
Proof. intros [] []. constructor; naive_solver congruence. Qed.

Definition set_ps (s : ProcessStatus) (e : ProcessEntry) : ProcessEntry := upd_status e s (waiting_on e).

Lemma set_both_spec p q s st : good p ->
  let p' := set_both p q s st in
  good p' /\ frame p p' /\ channels p' = channels p /\
  process_table p' = alter (set_ps s) q (process_table p) /\
  iv p' = match inv_of p q with Some i => alter (set_status st) i (iv p) | None => iv p end.
Proof.
  intros G p'. unfold p', set_both, inv_of. rewrite try_status_table. set (p1 := with_table p _).
  assert (good p1) as G1 by (by eapply (good_same p)). change (active_invocations p1) with (active_invocations p).
  destruct (active_invocations p !! q) as [i|]; [|by split_and!].
  destruct (inv_alter_spec p1 (fun t => is_update_status t i st) i (set_status st) G1) as (G2 & (F2 & I2 & N2) & S2 & V2);
    [done | intros t U; by apply is_update_status_up|].
  split; [done|]. rewrite V2. set (p2 := inv_do p1 _) in *. assert (session_store p2 = session_store p1) as Es.
  { unfold p2, inv_do. by destruct (invocation_store p1). }
  clearbody p2. split_and!; [constructor|..]; try done; try (by rewrite F2).
Qed.

Lemma foldl_alter_lookup {K A} `{Countable K} (f : A -> A) (ks : list K) : (forall x, f (f x) = f x) ->
  forall (m : gmap K A) j, foldl (fun m k => alter f k m) m ks !! j = if decide (j ∈ ks) then f <$> m !! j else m !! j.
Proof.
  intros Hf. induction ks as [|k ks IH]; intros m j; cbn; [done|]. rewrite IH. clear IH.
  destruct (decide (j = k)) as [->|Hj].
  - rewrite lookup_alter_eq. destruct (m !! k); repeat case_decide; cbn; rewrite ?Hf; set_solver.
  - rewrite lookup_alter_ne by done. repeat case_decide; set_solver.
Qed.

Lemma set_all_spec qs s st : forall p, good p ->
  let p' := foldl (fun p q => set_both p q s st) p qs in
  good p' /\ frame p p' /\ channels p' = channels p /\
  process_table p' = foldl (fun m q => alter (set_ps s) q m) (process_table p) qs /\
  iv p' = foldl (fun m i => alter (set_status st) i m) (iv p) (omap (inv_of p) qs).
Proof.
  induction qs as [|q qs IH]; intros p G; cbn; [by split_and!|].
  destruct (set_both_spec p q s st G) as (G1 & F1 & C1 & T1 & V1).
  destruct (IH _ G1) as (G2 & F2 & C2 & T2 & V2). split; [done|]. split; [by eapply frame_trans|].
  split; [congruence|]. split; [by rewrite T2, T1|]. rewrite V2, V1.
  assert (inv_of (set_both p q s st) = inv_of p) as -> by (unfold inv_of; by rewrite (fr_active_i _ _ F1)).
  by destruct (inv_of p q).
Qed.

(** The session of a process, and who follows it. *)
Definition session_of (p : Proc) (pid : Z) : option SessionRecord :=
  sid ← active_sessions p !! pid;
  match parse_str sid with Ok u => sv p !! uuid_str u | Err _ => None end.
Definition followers (p : Proc) (pid : Z) (follow : SessionRecord -> bool) : list Z :=
  match session_of p pid with Some s => if follow s then others pid s else [] | None => [] end.

(** The processes and invocations of [qs] have a new status and their executors one more signal. *)
Record moved (p : Proc) (qs : list Z) (ps : ProcessStatus) (st : InvocationStatus.t) (k : SignalKind) (p' : Proc)
    : Prop := {
  mv_process : process_table p' = foldl (fun m q => alter (set_ps ps) q m) (process_table p) qs;
  mv_invocation : iv p' = foldl (fun m i => alter (set_status st) i m) (iv p) (omap (inv_of p) qs);
  mv_signals : signalled k qs (channels p) (channels p');
  mv_frame : active_invocations p' = active_invocations p /\ active_sessions p' = active_sessions p /\
    task_handles p' = task_handles p /\ launched p' = launched p /\ aborted p' = aborted p /\
    tool_registry p' = tool_registry p;
  mv_stores : (session_store p = None <-> session_store p' = None) /\
    (invocation_store p = None <-> invocation_store p' = None)
}.

Lemma moved_trans p qs qs' ps st k p1 p2 :
  moved p qs ps st k p1 -> moved p1 qs' ps st k p2 -> moved p (qs ++ qs') ps st k p2.
Proof.
  intros [T1 V1 S1 F1 N1] [T2 V2 S2 F2 N2].
  assert (inv_of p1 = inv_of p) as Hi by (unfold inv_of; by rewrite (proj1 F1)).
  constructor.
  - by rewrite T2, T1, foldl_app.
  - rewrite V2, V1, Hi. by rewrite omap_app, foldl_app.
  - by eapply signalled_app.
  - destruct F1 as (? & ? & ? & ? & ? & ?), F2 as (? & ? & ? & ? & ? & ?). split_and!; congruence.
  - destruct N1 as [-> ->]. exact N2.
Qed.

(** What a cascade over [qs] leaves: their processes and invocations have the new status, the session the
    new mark, each listening executor one more signal; all else is as before. *)
Record cascaded (p : Proc) (qs : list Z) (ps : ProcessStatus) (st : InvocationStatus.t) (k : SignalKind)
    (marked : option SessionRecord) (p' : Proc) : Prop := {
  cc_process q : process_table p' !! q =
    if decide (q ∈ qs) then set_ps ps <$> process_table p !! q else process_table p !! q;
  cc_invocation i : iv p' !! i =
    if decide (i ∈ omap (inv_of p) qs) then set_status st <$> iv p !! i else iv p !! i;
  cc_session : sv p' = match marked with Some s => <[uuid_str (Sessions.id s) := s]> (sv p) | None => sv p end;
  cc_signals : signalled k qs (channels p) (channels p');
  cc_active : active_invocations p' = active_invocations p /\ active_sessions p' = active_sessions p;
  cc_rest : task_handles p' = task_handles p /\ launched p' = launched p /\ aborted p' = aborted p /\
    tool_registry p' = tool_registry p;
  cc_stores : (session_store p = None <-> session_store p' = None) /\
    (invocation_store p = None <-> invocation_store p' = None)
}.

Lemma set_ps_idem s e : set_ps s (set_ps s e) = set_ps s e.
Proof. done. Qed.
Lemma set_status_idem st r : set_status st (set_status st r) = set_status st r.
Proof. done. Qed.

Lemma frame_channels p c : frame p (with_channels p c).
Proof. by constructor. Qed.

Lemma moved_cascaded p qs ps st k marked p' :
  moved p qs ps st k p' ->
  sv p' = match marked with Some s => <[uuid_str (Sessions.id s) := s]> (sv p) | None => sv p end ->
  cascaded p qs ps st k marked p'.
Proof.
  intros [T V S (? & ? & ? & ? & ? & ?) N] Hs. constructor; try done.
  - intros j. rewrite T. apply (foldl_alter_lookup _ qs (set_ps_idem ps)).
  - intros i. rewrite V. apply (foldl_alter_lookup _ _ (set_status_idem st)).
Qed.

(** Storing the marked session of a process. *)
Lemma mark_session_spec p ss (s s' : SessionRecord) : good p -> session_store p = Some ss ->
  sv p !! uuid_str (Sessions.id s) = Some s -> Sessions.id s' = Sessions.id s ->
  let p' := with_stores p (invocation_store p) (Some (ss_update ss s').2) in
  good p' /\ sv p' = <[uuid_str (Sessions.id s') := s']> (sv p) /\ iv p' = iv p.
Proof.
  intros G E Hs Hi p'. destruct (ss_update_up ss s') as (s1 & E1 & U & V); [by eapply good_ss|].
  assert (sv p = sessions ss) as Es by (unfold sv; by rewrite E). unfold p'. rewrite E1. cbn [snd].
  split; [|split; [|done]]; [|change (sessions s1 = <[uuid_str (Sessions.id s') := s']> (sv p)); by rewrite Es].
  constructor; cbn; [naive_solver | apply (good_is p G) | | apply (good_ikey p G)].
  intros k r Hk. unfold sv in Hk. cbn in Hk. rewrite V in Hk.
  apply lookup_insert_Some in Hk as [[<- <-]|[_ Hk]]; [done|]. apply (good_skey p G). by rewrite Es.
Qed.

Lemma session_of_store p ss sid u pid : good p -> session_store p = Some ss ->
  active_sessions p !! pid = Some sid -> parse_str sid = Ok u -> ss_get ss u = Ok (session_of p pid).
Proof.
  intros G E Ha Hu. unfold session_of. rewrite Ha. cbn. rewrite Hu, (ss_get_up ss u) by (by eapply good_ss).
  unfold sv. by rewrite E.
Qed.

Lemma self_moved p pid ps st k ok p' : good p ->
  deliver_to (set_both p pid ps st) pid k JNull = Some (ok, p') ->
  good p' /\ moved p [pid] ps st k p' /\ session_store p' = session_store p.
Proof.
  intros G Ed. destruct (set_both_spec p pid ps st G) as (G1 & F1 & C1 & T1 & V1).
  destruct (deliver_signalled _ _ _ _ _ Ed) as [E2 S2]. rewrite C1 in S2.
  set (p1 := set_both p pid ps st) in *. clearbody p1.
  split; [rewrite E2; by eapply (good_same p1)|]. split; [|rewrite E2; apply F1]. destruct F1 as [A B D (X & Y & W) H' I].
  constructor; [by rewrite E2| |done|rewrite E2; by split_and!|by rewrite E2; cbn; rewrite A].
  rewrite E2. change (iv (with_channels p1 (channels p'))) with (iv p1). rewrite V1. cbn. by destruct (inv_of p pid).
Qed.

Lemma follow_moved now p pid ps st k mark s ss p' :
  good p -> session_store p = Some ss -> sv p !! uuid_str (Sessions.id s) = Some s ->
  Sessions.id (mark now s) = Sessions.id s ->
  follow_session now p pid ps st k mark s = Some p' ->
  good p' /\ moved p (others pid s) ps st k p' /\
  sv p' = <[uuid_str (Sessions.id (mark now s)) := mark now s]> (sv p).
Proof.
  intros G E Hs Hm Ef. unfold follow_session in Ef.
  assert (exists p1, match others pid s with [] => Some p | _ => broadcast_to p (others pid s) k JNull end = Some p1 /\
    p1 = with_channels p (channels p1) /\ signalled k (others pid s) (channels p) (channels p1)) as (p1 & E1 & F1 & S1).
  { destruct (others pid s) as [|q qs].
    - exists p. split; [done|]. split; [by destruct p|]. split; [done|]. split; [|done]. intros tx. by rewrite app_nil_r.
    - destruct (broadcast_to p (q :: qs) k JNull) as [p1|] eqn:Eb; [|done]. exists p1. split; [done|].
      by apply broadcast_signalled. }
  rewrite E1 in Ef. cbn [mbind option_bind] in Ef. injection Ef as <-.
  assert (good p1) as G1 by (rewrite F1; by eapply (good_same p)).
  destruct (set_all_spec (others pid s) ps st p1 G1) as (G2 & F2 & C2 & T2 & V2).
  set (p2 := foldl _ p1 _) in *. clearbody p2.
  assert (session_store p2 = Some ss) as E2 by (rewrite (fr_sessions _ _ F2), F1; done).
  assert (sv p2 = sv p) as Es by (unfold sv; by rewrite E2, E).
  rewrite E2. destruct (mark_session_spec p2 ss s (mark now s) G2 E2) as (G3 & S3 & V3); [by rewrite Es | done|].
  split; [done|]. split; [|by rewrite S3, Es]. destruct F2 as [_ A B (X & Y & W) R I].
  constructor; cbn; [|by rewrite V3, V2, F1|by rewrite C2|split_and!; congruence || by rewrite ?A, ?B, ?X, ?Y, ?W, ?R, F1|
    split; [by rewrite E | by rewrite <-I, F1]].
  by rewrite T2, F1.
Qed.

Lemma cascade_spec now p pid ps st k mark follow p' :
  good p -> (forall s, Sessions.id (mark now s) = Sessions.id s) ->
  cascade now p pid ps st k mark follow = Some p' ->
  good p' /\ cascaded p (pid :: followers p pid follow) ps st k
    (s ← session_of p pid; if follow s then Some (mark now s) else None) p'.
Proof.
  intros G Hm E. unfold cascade in E.
  destruct (deliver_to (set_both p pid ps st) pid k JNull) as [[ok p1]|] eqn:Ed; [|done]. cbn in E.
  destruct (self_moved _ _ _ _ _ _ _ G Ed) as (G1 & M1 & Es1). clear Ed.
  assert (active_sessions p1 = active_sessions p) as Ea1 by (apply M1). assert (sv p1 = sv p) as Ev1 by (unfold sv; by rewrite Es1).
  assert (session_of p1 pid = session_of p pid) as Eo by (unfold session_of; by rewrite Ea1, Ev1).
  unfold followers. rewrite Ea1, Es1 in E.
  assert (match session_of p pid with Some s => follow s = false | None => True end -> p' = p1 ->
    good p' /\ cascaded p (pid :: match session_of p pid with Some s => if follow s then others pid s else [] | None => [] end)
      ps st k (s ← session_of p pid; if follow s then Some (mark now s) else None) p') as Alone.
  { intros Hf ->. split; [done|]. apply moved_cascaded; destruct (session_of p pid); cbn; by rewrite ?Hf. }
  destruct (active_sessions p !! pid) as [sid|] eqn:Ea.
  2: { injection E as <-. apply Alone; [|done]. unfold session_of. by rewrite Ea. }
  destruct (session_store p) as [ss|] eqn:Es.
  2: { injection E as <-. apply Alone; [|done]. unfold session_of, sv. rewrite Ea, Es. cbn.
       by destruct (parse_str sid); rewrite ?lookup_empty. }
  destruct (parse_str sid) as [u|] eqn:Eu.
  2: { injection E as <-. apply Alone; [|done]. unfold session_of. rewrite Ea. cbn. by rewrite Eu. }
  rewrite (session_of_store p ss sid u pid G Es Ea Eu) in E.
  destruct (session_of p pid) as [s|] eqn:Eo'; cbn in E, Alone |- *; [|injection E as <-; by apply Alone].
  destruct (follow s) eqn:Ef; [|injection E as <-; by apply Alone]. clear Alone.
  assert (sv p1 !! uuid_str (Sessions.id s) = Some s) as Hs.
  { rewrite Ev1. unfold session_of in Eo'. rewrite Ea in Eo'. cbn in Eo'. rewrite Eu in Eo'.
    by rewrite <-(good_skey p G _ _ Eo'). }
  destruct (follow_moved now p1 pid ps st k mark s ss p' G1 Es1 Hs (Hm s) E) as (G2 & M2 & S2).
  split; [done|]. apply moved_cascaded; [by eapply (moved_trans p [pid])|]. by rewrite S2, Ev1.
Qed.

(** ** Aborting *)

Definition usage_of (p : Proc) (pid : Z) : Z * Z :=
  match Process.get (process_table p) pid with
  | Some e => (Process.tokens_consumed e, Process.tool_calls_total e)
  | None => (0, 0)
  end.

Lemma agent_finalize_spec now p pid st why : good p ->
  let p' := agent_finalize_invocation now p pid st why in
  good p' /\ active_invocations p' = delete pid (active_invocations p) /\ active_sessions p' = active_sessions p /\
  process_table p' = process_table p /\ sv p' = sv p /\ session_store p' = session_store p /\
  task_handles p' = task_handles p /\ launched p' = launched p /\ aborted p' = aborted p /\ channels p' = channels p /\
  (invocation_store p = None <-> invocation_store p' = None) /\
  iv p' = match inv_of p pid with
          | Some i => alter (set_final st now (usage_of p pid).1 (usage_of p pid).2 why) i (iv p)
          | None => iv p
          end.
Proof.
  intros G p'. unfold p', agent_finalize_invocation, inv_of.
  destruct (active_invocations p !! pid) as [i|] eqn:E.
  2: { split_and!; try done. by rewrite delete_id. }
  set (p1 := with_active p _ _). change (process_table p1) with (process_table p). fold (usage_of p pid).
  destruct (usage_of p pid) as [tok calls]. cbn [fst snd].
  assert (good p1) as G1 by (by eapply (good_same p)).
  destruct (inv_alter_spec p1 (fun s => is_finalize s i st now tok calls why) i (set_final st now tok calls why) G1)
    as (G2 & (F2 & _ & N2) & S2 & V2); [done | intros s U; by apply is_finalize_up|].
  assert (session_store (inv_do p1 (fun s => is_finalize s i st now tok calls why)) = session_store p1) as Es.
  { unfold inv_do. by destruct (invocation_store p1). }
  set (p2 := inv_do p1 _) in *. clearbody p2. split; [done|]. rewrite V2, S2, Es, <-N2, F2. by split_and!.
Qed.

Definition end_session (now pid : Z) (st : InvocationStatus.t) (s : SessionRecord) : SessionRecord :=
  let s := Sessions.remove_pid now pid s in
  if bool_decide (pid = owner_pid s) then
    match st with
    | InvocationStatus.Completed => mark_completed now s
    | InvocationStatus.Failed | InvocationStatus.Killed => mark_failed now s
    | _ => s
    end
  else s.

Definition session_ended (p : Proc) (now pid : Z) (st : InvocationStatus.t) : gmap string SessionRecord :=
  match active_sessions p !! pid with
  | Some sid => match parse_str sid with
                | Ok u => alter (end_session now pid st) (uuid_str u) (sv p)
                | Err _ => sv p
                end
  | None => sv p
  end.

Lemma finalize_session_spec now p pid st : good p ->
  let p' := finalize_session_for_pid now p pid st in
  good p' /\ active_sessions p' = delete pid (active_sessions p) /\ active_invocations p' = active_invocations p /\
  process_table p' = process_table p /\ iv p' = iv p /\
  task_handles p' = task_handles p /\ launched p' = launched p /\ aborted p' = aborted p /\ channels p' = channels p /\
  (session_store p = None <-> session_store p' = None) /\ (invocation_store p = None <-> invocation_store p' = None) /\
  sv p' = session_ended p now pid st.
Proof.
  intros G p'. unfold p', finalize_session_for_pid, session_ended.
  destruct (active_sessions p !! pid) as [sid|] eqn:E.
  2: { split_and!; try done. by rewrite delete_id. }
  set (p1 := with_active p _ _). assert (good p1) as G1 by (by eapply (good_same p)).
  destruct (sess_modify_spec p1 sid (end_session now pid st) G1) as (G2 & (F2 & N2 & O2) & V2 & S2).
  { intros r. unfold end_session. by destruct (bool_decide _), st. }
  fold (end_session now pid st).
  set (p2 := sess_modify p1 sid _) in *. clearbody p2. split; [done|]. rewrite V2, S2, <-N2, <-O2, F2. by split_and!.
Qed.

(** The state after an agent was killed. *)
Record killed (now : Z) (p : Proc) (pid : Z) (p' : Proc) : Prop := {
  kl_process : process_table p' = alter (set_ps Stopped) pid (process_table p);
  kl_active_i : active_invocations p' = delete pid (active_invocations p);
  kl_active_s : active_sessions p' = delete pid (active_sessions p);
  kl_task : task_handles p' = delete pid (task_handles p) /\ launched p' = launched p /\
    aborted p' = aborted p ++ match task_handles p !! pid with Some h => [h] | None => [] end /\ channels p' = channels p;
  kl_invocation : iv p' = match inv_of p pid with
    | Some i => alter (set_final InvocationStatus.Killed now (usage_of p pid).1 (usage_of p pid).2 (Some "killed"%string)) i (iv p)
    | None => iv p
    end;
  kl_session : sv p' = session_ended p now pid InvocationStatus.Killed;
  kl_stores : (session_store p = None <-> session_store p' = None) /\
    (invocation_store p = None <-> invocation_store p' = None)
}.

Lemma abort_agent_spec now p pid : good p -> good (abort_agent now p pid) /\ killed now p pid (abort_agent now p pid).
Proof.
  intros G. unfold abort_agent, agent_abort.
  set (p1 := abort_task p pid).
  assert (good p1 /\ p1 = with_tasks p (delete pid (task_handles p)) (launched p)
    (aborted p ++ match task_handles p !! pid with Some h => [h] | None => [] end)) as [G1 E1].
  { unfold p1, abort_task. destruct (task_handles p !! pid) eqn:E; [split; [by eapply (good_same p) | done]|].
    split; [done|]. rewrite delete_id, app_nil_r by done. by destruct p. }
  clearbody p1. rewrite (try_status_table p1). set (p2 := with_table p1 _).
  assert (good p2) as G2 by (by eapply (good_same p1)).
  destruct (agent_finalize_spec now p2 pid InvocationStatus.Killed (Some "killed"%string) G2)
    as (G3 & A3 & B3 & T3 & S3 & E3 & H3 & L3 & X3 & C3 & N3 & V3).
  set (p3 := agent_finalize_invocation _ _ _ _ _) in *. clearbody p3.
  rewrite (try_status_table p3). set (p4 := with_table p3 _). assert (good p4) as G4 by (by eapply (good_same p3)).
  unfold finalize_invocation. assert (agent_finalize_invocation now p4 pid InvocationStatus.Killed (Some "killed"%string) = p4) as ->.
  { unfold agent_finalize_invocation. change (active_invocations p4) with (active_invocations p3).
    by rewrite A3, lookup_delete_eq. }
  destruct (finalize_session_spec now p4 pid InvocationStatus.Killed G4) as (G5 & A5 & B5 & T5 & V5 & H5 & L5 & X5 & C5 & M5 & N5 & S5).
  split; [done|]. set (p5 := finalize_session_for_pid _ _ _ _) in *. clearbody p5.
  assert (usage_of p2 pid = usage_of p pid) as Eu.
  { unfold usage_of, p2, Process.get. rewrite E1. cbn. rewrite lookup_alter_eq. by destruct (process_table p !! pid). }
  constructor.
  - rewrite T5. cbn. rewrite T3. cbn. rewrite E1. cbn. apply map_eq. intros q.
    destruct (decide (q = pid)) as [->|]; [rewrite !lookup_alter_eq | by rewrite !lookup_alter_ne].
    by destruct (process_table p !! pid).
  - rewrite B5. cbn. rewrite A3. cbn. by rewrite E1.
  - rewrite A5. cbn. rewrite B3. cbn. by rewrite E1.
  - rewrite H5, L5, X5, C5. cbn. rewrite H3, L3, X3, C3. cbn. by rewrite E1.
  - rewrite V5. change (iv p4) with (iv p3). rewrite V3, Eu.
    assert (iv p2 = iv p /\ inv_of p2 pid = inv_of p pid) as [-> ->] by (unfold p2; by rewrite E1). done.
  - rewrite S5. unfold session_ended. change (sv p4) with (sv p3). change (active_sessions p4) with (active_sessions p3).
    rewrite S3, B3. unfold p2. by rewrite E1.
  - rewrite <-M5, <-N5. cbn. rewrite E3, <-N3. cbn. by rewrite E1.
Qed.

(** ** A cascade returns when the channels have room *)

Definition room (n : nat) (r : SignalChannels.SignalChannelRegistry C) : Prop :=
  forall tx c, SignalChannels.heap r !! tx = Some c -> (length (mpsc_queue c) + n <= mpsc_capacity c)%nat.

Lemma deliver_room n p q k : room (S n) (channels p) ->
  exists ok p', deliver_to p q k JNull = Some (ok, p') /\ room n (channels p').
Proof.
  intros R. assert (room n (channels p)) as R' by (intros tx c Hc; specialize (R tx c Hc); lia).
  unfold deliver_to, SignalChannels.send.
  destruct (SignalChannels.inner (channels p) !! q) as [tx|]; [|by eexists _, _].
  destruct (SignalChannels.heap (channels p) !! tx) as [c|] eqn:Eh; [|by eexists _, _].
  match goal with |- context [mpsc_send c ?s] => pose proof (mpsc_send_law c s) as L; destruct (mpsc_send c s) as [[c'|]|] end.
  - eexists _, _. split; [done|]. intros tx' c0 Hc. cbn in Hc.
    apply lookup_insert_Some in Hc as [[<- <-]|[_ H0]]; [|by apply (R' tx')].
    destruct L as (_ & _ & -> & -> & _). rewrite length_app. cbn. specialize (R tx c Eh). lia.
  - by eexists _, _.
  - destruct L as [_ L]. specialize (R tx c Eh). lia.
Qed.

Lemma broadcast_room qs k : forall n p, room (length qs + n) (channels p) ->
  exists p', broadcast_to p qs k JNull = Some p' /\ room n (channels p').
Proof.
  unfold broadcast_to. induction qs as [|q qs IH]; intros n p R; [by exists p|]. cbn.
  destruct (deliver_room (length qs + n) p q k R) as (ok & p1 & -> & R1). cbn. by apply IH.
Qed.

Lemma cascade_returns now p pid ps st k mark follow : good p ->
  room (S (length (followers p pid follow))) (channels p) ->
  exists p', cascade now p pid ps st k mark follow = Some p'.
Proof.
  intros G R. unfold cascade. destruct (set_both_spec p pid ps st G) as (G1 & F1 & C1 & _).
  destruct (deliver_room (length (followers p pid follow)) (set_both p pid ps st) pid k) as (ok & p1 & Ed & R1);
    [by rewrite C1|]. rewrite Ed. cbn. destruct (self_moved _ _ _ _ _ _ _ G Ed) as (G2 & M2 & Es).
  assert (active_sessions p1 = active_sessions p) as -> by (apply M2). rewrite Es.
  destruct (active_sessions p !! pid) as [sid|] eqn:Ea; [|by eexists].
  destruct (session_store p) as [ss|] eqn:Ess; [|by eexists]. destruct (parse_str sid) as [u|] eqn:Eu; [|by eexists].
  rewrite (session_of_store p ss sid u pid G Ess Ea Eu). unfold followers in R1.
  destruct (session_of p pid) as [s|]; [|by eexists]. destruct (follow s); [|by eexists].
  unfold follow_session. destruct (others pid s) as [|q qs]; [by eexists|].
  destruct (broadcast_room (q :: qs) k 0 p1) as (p2 & -> & _); [by rewrite Nat.add_0_r|]. by eexists.
Qed.

(** ** Theorems *)


(** Pausing an agent pauses its process, its invocation and its executor, and when it owns its session
    the other active agents of the session and the session too; resuming does the opposite, for the whole
    session when that is paused.  Both return whenever the signal channels have room, and
    touch nothing else. *)
Theorem pause_resume_cascade now p pid :
  good p ->
  let owner s := bool_decide (pid = owner_pid s) in
  let paused s := bool_decide (Sessions.status s = SessionStatus.Paused) in
  (room (S (length (followers p pid owner))) (channels p) -> exists p', pause_agent now p pid = Some p') /\
  (room (S (length (followers p pid paused))) (channels p) -> exists p', resume_agent now p pid = Some p') /\
  (forall p', pause_agent now p pid = Some p' -> good p' /\
     cascaded p (pid :: followers p pid owner) Paused InvocationStatus.Paused Pause
       (s ← session_of p pid; if owner s then Some (mark_paused now s) else None) p') /\
  (forall p', resume_agent now p pid = Some p' -> good p' /\
     cascaded p (pid :: followers p pid paused) Running InvocationStatus.Running Resume
       (s ← session_of p pid; if paused s then Some (mark_running now s) else None) p').
Proof.
  intros G owner paused. split_and!.
  - intros R. by apply cascade_returns.
  - intros R. by apply cascade_returns.
  - intros p' E. by apply cascade_spec in E.
  - intros p' E. by apply cascade_spec in E.
Qed.

End Proc.

(** ** Concrete stores, for the witnesses *)

Module Toy.
Import Mem ToyUuid Invocations.Toy QueueMpsc.

#[local] Instance meta_eq : EqDecision PidInvocationMeta.
Proof. solve_decision. Defined.
#[local] Program Instance meta_countable : Countable PidInvocationMeta :=
  inj_countable'
    (fun m => (pm_pid m, pm_invocation_id m, pm_agent_name m, pm_agent_version m, pm_spawned_at m))
    (fun '(a, b, c, d, e) => {| pm_pid := a; pm_invocation_id := b; pm_agent_name := c; pm_agent_version := d;
                                pm_spawned_at := e |}) _.
Next Obligation. by intros []. Qed.

Definition sstatus_code (s : SessionStatus.t) : nat :=
  match s with
  | SessionStatus.Running => 0 | SessionStatus.Idle => 1 | SessionStatus.Paused => 2
  | SessionStatus.Completed => 3 | SessionStatus.Failed => 4 | SessionStatus.Archived => 5
  end.
Definition code_sstatus (n : nat) : SessionStatus.t :=
  match n with
  | 0 => SessionStatus.Running | 1 => SessionStatus.Idle | 2 => SessionStatus.Paused
  | 3 => SessionStatus.Completed | 4 => SessionStatus.Failed | _ => SessionStatus.Archived
  end%nat.
#[local] Instance session_eq : EqDecision SessionRecord.
Proof. solve_decision. Defined.
#[local] Program Instance session_countable : Countable SessionRecord :=
  inj_countable'
    (fun r => (Sessions.id r, parent_id r, project_id r, title r, Sessions.goal r, Sessions.username r,
               (Sessions.spawned_at r, last_updated r, sstatus_code (Sessions.status r), summary r, tokens_total r),
               (origin_agent r, primary_agent r, participants r, owner_pid r, pids r, invocation_pids r)))
    (fun '(a, b, c, d, e, f, (g, h, i, j, k), (l, m, n, o, p, q)) =>
       {| Sessions.id := a; parent_id := b; project_id := c; title := d; Sessions.goal := e; Sessions.username := f;
          Sessions.spawned_at := g; last_updated := h; Sessions.status := code_sstatus i; summary := j;
          tokens_total := k; origin_agent := l; primary_agent := m; participants := n; owner_pid := o; pids := p;
          invocation_pids := q |}) _.
Next Obligation. intros [? ? ? ? ? ? ? ? [] ? ? ? ? ? ? ? ?]; done. Qed.

Definition istatus_code (s : InvocationStatus.t) : nat :=
  match s with
  | InvocationStatus.Running => 0 | InvocationStatus.Idle => 1 | InvocationStatus.Paused => 2
  | InvocationStatus.Completed => 3 | InvocationStatus.Failed => 4 | InvocationStatus.Killed => 5
  end.
Definition code_istatus (n : nat) : InvocationStatus.t :=
  match n with
  | 0 => InvocationStatus.Running | 1 => InvocationStatus.Idle | 2 => InvocationStatus.Paused
  | 3 => InvocationStatus.Completed | 4 => InvocationStatus.Failed | _ => InvocationStatus.Killed
  end%nat.
#[local] Instance invocation_eq : EqDecision InvocationRecord.
Proof. solve_decision. Defined.
#[local] Program Instance invocation_countable : Countable InvocationRecord :=
  inj_countable'
    (fun r => (Invocations.id r, Invocations.agent_name r, agent_version r, Invocations.username r, Invocations.pid r,
               Invocations.goal r,
               (session_id r, Invocations.spawned_at r, ended_at r, istatus_code (Invocations.status r),
                Invocations.tokens_consumed r, Invocations.tool_calls_total r, exit_reason r)))
    (fun '(a, b, c, d, e, f, (g, h, i, j, k, l, m)) =>
       {| Invocations.id := a; Invocations.agent_name := b; agent_version := c; Invocations.username := d;
          Invocations.pid := e; Invocations.goal := f; session_id := g; Invocations.spawned_at := h; ended_at := i;
          Invocations.status := code_istatus j; Invocations.tokens_consumed := k; Invocations.tool_calls_total := l;
          exit_reason := m |}) _.
Next Obligation. intros [? ? ? ? ? ? ? ? ? [] ? ? ?]; done. Qed.

#[export] Instance session_serde : Serde SessionRecord := coded_serde.
#[export] Instance session_serde_laws : SerdeLaws SessionRecord := coded_laws.
#[export] Instance session_serde_total : SerdeTotal SessionRecord.
Proof. done. Qed.
#[export] Instance invocation_serde : Serde InvocationRecord := coded_serde.
#[export] Instance invocation_serde_laws : SerdeLaws InvocationRecord := coded_laws.
#[export] Instance invocation_serde_total : SerdeTotal InvocationRecord.
Proof. done. Qed.

Abbreviation proc := (Proc (SS := tables_t) (IS := InvocationStore.t tables_t (gmap string string)) (C := QueueMpsc.queue Signal)).

(** A kernel with two empty stores and no agents. *)
Definition empty_proc : proc := {|
  process_table := ∅; active_invocations := ∅; active_sessions := ∅;
  invocation_store := Some {| InvocationStore.db := {["invocations"%string := ∅]}; InvocationStore.local := None;
                              InvocationStore.disk := ∅ |};
  session_store := Some {["sessions"%string := ∅]};
  tool_registry := None; task_handles := ∅;
  channels := {| SignalChannels.inner := ∅; SignalChannels.heap := ∅ |}; launched := []; aborted := [] |}.
Definition sample_fresh : Fresh :=
  {| clk n := Z.of_nat n; pid_ms := 1735689600001; pid_rnd := 5; session_uuid := 77; invocation_uuid := 78 |}.
Definition sample_config : ProcConfig :=
  {| master_key := "k"; runtime_dir := "/run/avix"; has_factory := true; manifest_scanner := None |}.

Lemma empty_proc_good : good empty_proc.
Proof.
  destruct (mem_clean SessionRecord "sessions") as [Cs Es]. destruct (mem_clean InvocationRecord "invocations") as [Ci Ei].
  constructor; cbn.
  - intros s [= <-]. exact Cs.
  - intros s [= <-]. exact Ci.
  - intros k r. change (records SessionRecord ({["sessions"%string := ∅]} : tables_t) "sessions" !! k = Some r -> k = uuid_str (Sessions.id r)).
    by rewrite Es, lookup_empty.
  - intros k r. change (records InvocationRecord ({["invocations"%string := ∅]} : tables_t) "invocations" !! k = Some r -> k = Invocations.id r).
    by rewrite Ei, lookup_empty.
Qed.


Definition busy_proc : proc :=
  with_table empty_proc {[42 := agent_entry 0 0 42 "researcher" Running None "alice" "study"]}.
Lemma busy_proc_good : good busy_proc.
Proof. by apply (good_same empty_proc _ empty_proc_good). Qed.

Lemma pause_resume_cascade_witness :
  exists p', pause_agent 9 busy_proc 42 = Some p' /\ Process.status <$> process_table p' !! 42 = Some Paused.
Proof.
  destruct (pause_resume_cascade 9 busy_proc 42 busy_proc_good) as (Hr & _ & Hp & _).
  destruct Hr as [p' E]; [intros tx c H; discriminate H|].
  exists p'. split; [exact E|]. destruct (Hp p' E) as [_ C]. rewrite (cc_process _ _ _ _ _ _ _ C). reflexivity.
Defined.

End Toy.
