(* ===== verification/Recovery.v ===== *)
(** * Restart: repairing sessions and restoring agents

    What the two restart phases of the kernel do together ([kernel/boot.rs], phase 2.5, and
    [ProcHandler::restore_interrupted_agents], phase 3.5, both defined in [Proc]): the sessions with live
    invocations lose the pids of the dead executors and get exactly the restored ones. *)

From S2P Require Import Prelude Types Token Json Channels ToolRegistry Process Signals Router Resources Store Sessions Invocations Proc.
Local Open Scope Z_scope.

Section Recovery.
Context {SS IS C : Type} `{!SessionStoreI SS, !InvocationStoreI IS, !Mpsc Signal C, !UuidText, !UuidLaws}.
Context `{!SessionStoreLaws SS, !InvocationStoreLaws IS}.
Variable hmac : string -> string -> string.
Variable syscalls : list CapabilityResolver.Syscall.
Implicit Types p : Proc (SS := SS) (IS := IS) (C := C).

(** The key of the session an invocation belongs to. *)
Definition session_key (r : InvocationRecord) : option string :=
  match parse_str (session_id r) with Ok u => Some (uuid_str u) | Err _ => None end.
Definition live (r : InvocationRecord) : Prop := InvocationStatus.is_live (Invocations.status r) = true.
#[global] Instance live_dec r : Decision (live r).
Proof. unfold live. apply _. Defined.

(** ** Phase 2.5 *)

Lemma repair_id now s : Sessions.id (repair now s) = Sessions.id s.
Proof. unfold repair. cbn. by destruct (Sessions.status s). Qed.
Lemma repair_idem now s : repair now (repair now s) = repair now s.
Proof. destruct s as [? ? ? ? ? ? ? ? [] ? ? ? ? ? ? ? ?]; reflexivity. Qed.

Definition keyed (m : gmap string SessionRecord) : Prop := forall k r, m !! k = Some r -> k = uuid_str (Sessions.id r).

Lemma repair_session_spec now (ss : SS) sid : ss_up ss -> keyed (sessions ss) ->
  let ss' := repair_session now ss sid in
  ss_up ss' /\ sessions ss' = match parse_str sid with
                              | Ok u => alter (repair now) (uuid_str u) (sessions ss)
                              | Err _ => sessions ss
                              end.
Proof.
  intros U K ss'. unfold ss', repair_session. destruct (parse_str sid) as [u|]; [|done].
  rewrite (ss_get_up ss u U). destruct (sessions ss !! uuid_str u) as [r|] eqn:E.
  - destruct (ss_update_up ss (repair now r) U) as (s' & -> & U' & V). split; [done|]. cbn. rewrite V, repair_id.
    rewrite <-(K _ _ E). apply map_eq. intros j. destruct (decide (j = uuid_str u)) as [->|].
    + by rewrite lookup_insert_eq, lookup_alter_eq, E.
    + by rewrite lookup_insert_ne, lookup_alter_ne.
  - split; [done|]. symmetry. apply alter_id. intros x Hx. congruence.
Qed.

Lemma alter_sess_keyed (f : SessionRecord -> SessionRecord) k m :
  (forall s, Sessions.id (f s) = Sessions.id s) -> keyed m -> keyed (alter f k m).
Proof.
  intros Hf K j r [(<- & r0 & Hr0 & ->)|(Hne & Hr0)]%lookup_alter_Some; [rewrite Hf|]; by apply K.
Qed.

Definition sid_key (sid : string) : option string :=
  match parse_str sid with Ok u => Some (uuid_str u) | Err _ => None end.

Lemma repair_sessions_spec now sids : forall (ss : SS), ss_up ss -> keyed (sessions ss) ->
  let ss' := foldl (repair_session now) ss sids in
  ss_up ss' /\ sessions ss' = foldl (fun m k => alter (repair now) k m) (sessions ss) (omap sid_key sids).
Proof.
  induction sids as [|sid sids IH]; intros ss U K; cbn; [done|].
  destruct (repair_session_spec now ss sid U K) as [U1 V1].
  assert (keyed (sessions (repair_session now ss sid))) as K1.
  { rewrite V1. destruct (parse_str sid); [|done]. apply alter_sess_keyed; [apply repair_id | done]. }
  destruct (IH _ U1 K1) as [U2 V2]. split; [done|]. rewrite V2, V1. unfold sid_key at 2.
  by destruct (parse_str sid).
Qed.

Lemma crash_recovery_spec now order ist (ss : SS) :
  (forall X : gset string, order X ≡ₚ elements X) -> is_up ist -> ss_up ss -> keyed (sessions ss) ->
  exists ss', phase3_crash_recovery now order ist ss = (Ok (), ss') /\ ss_up ss' /\
    forall k, sessions ss' !! k =
      if decide (k ∈ omap session_key (filter live (sorted_values (invocations ist))))
      then repair now <$> sessions ss !! k else sessions ss !! k.
Proof.
  intros Ho Ui Us K. unfold phase3_crash_recovery. rewrite (is_list_all_up ist Ui).
  set (invs := sorted_values (invocations ist)).
  destruct (repair_sessions_spec now (order (affected_sessions invs)) ss Us K) as [U V].
  eexists. split; [done|]. split; [done|]. intros k. rewrite V.
  rewrite (foldl_alter_lookup _ _ (repair_idem now)).
  assert (k ∈ omap sid_key (order (affected_sessions invs)) <-> k ∈ omap session_key (filter live invs)) as Hk.
  { rewrite !list_elem_of_omap. setoid_rewrite Ho. unfold affected_sessions. setoid_rewrite elem_of_elements.
    setoid_rewrite elem_of_list_to_set. setoid_rewrite list_elem_of_fmap. split.
    - intros (sid & (r & -> & Hr) & Hs). exists r. by rewrite <-Hs.
    - intros (r & Hr & Hs). exists (session_id r). split; [by exists r | by rewrite <-Hs]. }
  by repeat case_decide; tauto.
Qed.

(** ** Phase 3.5 *)

Definition restored_entry (now : nat -> Z) (r : InvocationRecord) : ProcessEntry :=
  agent_entry (now 1%nat) (now 3%nat) (Invocations.pid r) (Invocations.agent_name r) Waiting None
    (Invocations.username r) (Invocations.goal r).
Definition restored_params (cf : ProcConfig) (now : nat -> Z) p (r : InvocationRecord) : SpawnParams :=
  spawn_params hmac cf (now 0%nat) (Invocations.pid r) (Invocations.agent_name r) (Invocations.goal r)
    (Invocations.username r) (session_id r) ""
    (resolve_granted_tools syscalls cf p (Invocations.agent_name r) (Invocations.username r)) (Invocations.id r)
    (Some (Invocations.pid r)).
Definition rejoin (now : nat -> Z) (m : gmap string SessionRecord) (r : InvocationRecord) : gmap string SessionRecord :=
  match session_key r with Some k => alter (Sessions.add_pid (now 2%nat) (Invocations.pid r)) k m | None => m end.

(** The state after restoring the invocations [rs]. *)
Record restored (cf : ProcConfig) (now : nat -> Z) p (rs : list InvocationRecord) p' : Prop := {
  rs_table : process_table p' = foldl (fun m r => <[Invocations.pid r := restored_entry now r]> m) (process_table p) rs;
  rs_active_i : active_invocations p' = foldl (fun m r => <[Invocations.pid r := Invocations.id r]> m) (active_invocations p) rs;
  rs_active_s : active_sessions p' = foldl (fun m r => <[Invocations.pid r := session_id r]> m) (active_sessions p) rs;
  rs_launched : launched p' = launched p ++ map (restored_params cf now p) rs;
  rs_iv : iv p' = iv p;
  rs_sv : sv p' = foldl (rejoin now) (sv p) rs;
  rs_registry : tool_registry p' = tool_registry p
}.

Lemma restore_one cf now p r : good p -> has_factory cf = true ->
  let p' := (restore_from_invocation hmac syscalls cf now p r).2 in
  good p' /\ restored cf now p [r] p'.
Proof.
  intros G Hf p'. unfold p', restore_from_invocation. rewrite Hf. cbn [snd].
  set (p1 := with_table p _). assert (good p1) as G1 by (by eapply (good_same p)).
  destruct (sess_modify_spec p1 (session_id r) (Sessions.add_pid (now 2%nat) (Invocations.pid r)) G1)
    as (G2 & (F2 & _ & _) & V2 & S2); [done|].
  set (p2 := sess_modify p1 _ _) in *. clearbody p2. split; [by eapply (good_same p2)|].
  constructor; cbn -[iv sv]; try (by rewrite F2); try exact V2.
  change (sv p2 = rejoin now (sv p) r). rewrite S2. unfold rejoin, session_key. by destruct (parse_str (session_id r)).
Qed.

Lemma restored_trans cf now p rs rs' p1 p2 :
  restored cf now p rs p1 -> restored cf now p1 rs' p2 -> restored cf now p (rs ++ rs') p2.
Proof.
  intros [A1 B1 C1 D1 E1 F1 H1] [A2 B2 C2 D2 E2 F2 H2].
  assert (forall r, restored_params cf now p1 r = restored_params cf now p r) as Hp.
  { intros r. unfold restored_params, resolve_granted_tools. by rewrite H1. }
  constructor; rewrite ?foldl_app; try congruence.
  rewrite D2, D1, map_app, <-app_assoc. f_equal. f_equal. by apply map_ext.
Qed.

Lemma restore_all cf now l : forall p, good p -> has_factory cf = true ->
  let p' := foldl (restore_step hmac syscalls cf now) p l in
  good p' /\ restored cf now p (filter live l) p'.
Proof.
  induction l as [|r l IH]; intros p G Hf; cbn [foldl]; [split; [done|]; constructor; cbn; by rewrite ?app_nil_r|].
  rewrite filter_cons. destruct (decide (live r)) as [L|L].
  - assert (restore_step hmac syscalls cf now p r = (restore_from_invocation hmac syscalls cf now p r).2) as ->
      by (unfold restore_step; by rewrite L).
    destruct (restore_one cf now p r G Hf) as [G1 R1]. destruct (IH _ G1 Hf) as [G2 R2].
    split; [done|]. by eapply (restored_trans cf now p [r]).
  - assert (restore_step hmac syscalls cf now p r = p) as -> by
      (unfold restore_step, live in *; by destruct (InvocationStatus.is_live _)).
    by apply IH.
Qed.

(** ** Both phases *)

(** Re-adding pids one by one to the sessions. *)
Lemma rejoin_lookup now rs : forall m k,
  NoDup (Invocations.pid <$> rs) ->
  (forall s r, m !! k = Some s -> r ∈ rs -> Invocations.pid r ∉ pids s) ->
  match m !! k with
  | None => foldl (rejoin now) m rs !! k = None
  | Some s => exists s', foldl (rejoin now) m rs !! k = Some s' /\
      pids s' = pids s ++ (Invocations.pid <$> filter (fun r => session_key r = Some k) rs) /\
      Sessions.status s' = Sessions.status s /\ owner_pid s' = owner_pid s /\ Sessions.id s' = Sessions.id s /\
      participants s' = participants s /\ primary_agent s' = primary_agent s /\ Sessions.username s' = Sessions.username s
  end.
Proof.
  induction rs as [|r rs IH]; intros m k Hn Hf; cbn [foldl].
  { destruct (m !! k); [|done]. eexists. split; [done|]. cbn. by rewrite app_nil_r. }
  apply NoDup_cons in Hn as [Hr Hn]. specialize (IH (rejoin now m r) k Hn). rewrite filter_cons.
  unfold rejoin in *. destruct (session_key r) as [j|] eqn:Ej.
  2: { rewrite decide_False by done. apply IH. intros s r' Hs Hr'. eapply Hf; [done | by right]. }
  destruct (decide (j = k)) as [->|Hjk].
  2: { rewrite lookup_alter_ne in IH by done. rewrite decide_False by congruence. apply IH.
       intros s r' Hs Hr'. eapply Hf; [done | by right]. }
  rewrite decide_True by done. rewrite lookup_alter_eq in IH.
  destruct (m !! k) as [s|] eqn:Em; cbn [fmap option_fmap option_map] in IH; [|by apply IH].
  assert (pids (Sessions.add_pid (now 2%nat) (Invocations.pid r) s) = pids s ++ [Invocations.pid r]) as Ep.
  { cbn. rewrite bool_decide_eq_false_2; [done|]. eapply Hf; [done | by left]. }
  destruct IH as (s' & E & P & Q).
  { intros s0 r' Hs Hr'. injection Hs as <-. rewrite Ep. rewrite not_elem_of_app. split.
    - eapply Hf; [done | by right].
    - rewrite list_elem_of_singleton. intros Heq. apply Hr. rewrite <-Heq. by apply list_elem_of_fmap_2. }
  exists s'. split; [done|]. split; [|done]. rewrite P, Ep, <-app_assoc. done.
Qed.

Lemma rejoin_other now rs : forall m k, k ∉ omap session_key rs -> foldl (rejoin now) m rs !! k = m !! k.
Proof.
  induction rs as [|r rs IH]; intros m k Hk; [done|]. cbn [foldl]. unfold rejoin at 2.
  cbn [omap list_omap] in Hk. destruct (session_key r) as [j|]; [|by apply IH].
  apply not_elem_of_cons in Hk as [Hj Hk]. rewrite IH by done. by rewrite lookup_alter_ne.
Qed.

Lemma foldl_insert_pid {A} (f : InvocationRecord -> A) rs : forall (m : gmap Z A),
  NoDup (Invocations.pid <$> rs) ->
  forall r, r ∈ rs -> foldl (fun m r => <[Invocations.pid r := f r]> m) m rs !! Invocations.pid r = Some (f r).
Proof.
  induction rs as [|r0 rs IH]; intros m Hn r Hr; [by apply not_elem_of_nil in Hr|].
  cbn [fmap list_fmap] in Hn. apply NoDup_cons in Hn as [H1 Hn]. cbn [foldl].
  apply elem_of_cons in Hr as [->|Hr]; [|by apply IH].
  assert (forall rs' (m' : gmap Z A), Invocations.pid r0 ∉ Invocations.pid <$> rs' ->
    foldl (fun m r => <[Invocations.pid r := f r]> m) m' rs' !! Invocations.pid r0 = m' !! Invocations.pid r0) as Hout.
  { clear. induction rs' as [|r1 rs' IH]; intros m' Hn; [done|]. cbn [fmap list_fmap] in Hn.
    apply not_elem_of_cons in Hn as [? Hn]. cbn. rewrite IH by done. by rewrite lookup_insert_ne. }
  rewrite Hout by done. by rewrite lookup_insert_eq.
Qed.


End Recovery.

(** ** A kernel with one agent, restarted *)

Module Restarted.
Import Mem ToyUuid Invocations.Toy QueueMpsc Proc.Toy.

Lemma sorted_values_singleton {A} (k : string) (x : A) : sorted_values {[k := x]} = [x].
Proof.
  unfold sorted_values. pose proof (sorted_rows_perm ({[k := x]} : gmap string A)) as P.
  rewrite map_to_list_singleton in P. apply Permutation_singleton_r in P. by rewrite P.
Qed.

(** The kernel after one spawn. *)
Lemma one_agent : exists (p : proc) ss ist r,
  good p /\ session_store p = Some ss /\ invocation_store p = Some ist /\ sorted_values (iv p) = [r] /\ live r.
Proof.
  pose proof (agent_spawn_spec toy_mac [] sample_config sample_fresh empty_proc {["sessions"%string := ∅]}
    {| InvocationStore.db := {["invocations"%string := ∅]}; InvocationStore.local := None; InvocationStore.disk := ∅ |}
    "researcher" "study" "" "" "alice" None empty_proc_good eq_refl eq_refl) as (p & _ & G & S).
  pose proof (sp_invocation _ _ _ _ _ _ _ _ _ _ _ _ _ _ S) as Hi.
  pose proof (sp_session _ _ _ _ _ _ _ _ _ _ _ _ _ _ S) as Hs.
  assert (iv empty_proc = ∅) as Ei0 by apply (mem_clean InvocationRecord "invocations").
  rewrite Ei0, insert_empty in Hi.
  destruct (session_store p) as [ss|] eqn:Es.
  2: { exfalso. unfold sv in Hs at 1. rewrite Es in Hs. apply (f_equal (fun m => m !! uuid_str 77)) in Hs.
       cbn [sample_fresh session_uuid] in Hs. rewrite parse_uuid_str in Hs.
       rewrite lookup_empty, lookup_alter_eq, lookup_insert_eq in Hs. discriminate. }
  destruct (invocation_store p) as [ist|] eqn:Ei.
  2: { exfalso. unfold iv in Hi. rewrite Ei in Hi. symmetry in Hi. by apply map_non_empty_singleton in Hi. }
  eexists p, ss, ist, _. split; [done|]. split; [done|]. split; [done|].
  rewrite Hi, sorted_values_singleton. split; [done|]. reflexivity.
Qed.


End Restarted.
