(* ===== verification/Lifecycle.v ===== *)
(** * The lifecycle of agents in the kernel

    The process handlers of [Proc] as steps, one operation at a time, and what every sequence of them
    keeps: the kernel's maps list exactly the live invocations, each active agent has a process that is
    not stopped, a task and a place among its session's pids, and what has ended stays ended. *)

From S2P Require Import Prelude Types Token Json Channels ToolRegistry Process Signals Router Resources Store Sessions Invocations Proc.
Local Open Scope Z_scope.

Section Lifecycle.
Context {SS IS C : Type} `{!SessionStoreI SS, !InvocationStoreI IS, !Mpsc Signal C, !UuidText, !UuidLaws}.
Context `{!SessionStoreLaws SS, !InvocationStoreLaws IS, !MpscLaws Signal C}.
Variable hmac : string -> string -> string.
Variable syscalls : list CapabilityResolver.Syscall.
Variable cf : ProcConfig.
Abbreviation proc := (Proc (SS := SS) (IS := IS) (C := C)).
Implicit Types p : proc.

Definition live_status (r : InvocationRecord) : bool := InvocationStatus.is_live (Invocations.status r).
Definition over (s : SessionStatus.t) : bool :=
  match s with SessionStatus.Completed | SessionStatus.Failed => true | _ => false end.

(** The pid and the uuids an operation draws were never used. *)
Record unused (fr : Fresh) p : Prop := {
  un_pid : process_table p !! Pid.generate (pid_ms fr) (pid_rnd fr) = None;
  un_invocation : iv p !! uuid_str (invocation_uuid fr) = None;
  un_session : sv p !! uuid_str (session_uuid fr) = None;
  un_active q sid : active_sessions p !! q = Some sid -> parse_str sid <> Ok (session_uuid fr)
}.

Inductive step : proc -> proc -> Prop :=
| step_spawn fr p name goal sid atp caller parent pid p' : unused fr p ->
    agent_spawn hmac syscalls cf fr p name goal sid atp caller parent = Ok (pid, p') -> step p p'
| step_abort now p pid : step p (abort_agent now p pid)
| step_pause now p pid p' : pause_agent now p pid = Some p' -> step p p'
| step_resume now p pid p' : resume_agent now p pid = Some p' -> step p p'
| step_deliver p pid k v ok p' : deliver_to p pid k v = Some (ok, p') -> step p p'
| step_snapshot p i r p' : snapshot_invocation p i = (r, p') -> step p p'
| step_create_session now fr p user origin title goal owner r p' : unused fr p ->
    create_session now (session_uuid fr) p user origin title goal owner = (r, p') -> step p p'
| step_delete_session p u r p' : delete_session p u = (r, p') -> step p p'.

(** The session, if it is stored, that [pid] is active in. *)
Definition in_session p (pid : Z) (k : string) : Prop :=
  exists sid u, active_sessions p !! pid = Some sid /\ parse_str sid = Ok u /\ k = uuid_str u.

Record invariant p : Prop := {
  li_good : good p;
  li_ss : session_store p <> None;
  li_is : invocation_store p <> None;
  (** the map of active invocations is the index of the live records *)
  li_index pid i : active_invocations p !! pid = Some i <->
    exists r, iv p !! i = Some r /\ Invocations.pid r = pid /\ live_status r = true;
  li_both pid : is_Some (active_invocations p !! pid) <-> is_Some (active_sessions p !! pid);
  li_tasks pid : has_factory cf = true -> is_Some (task_handles p !! pid) <-> is_Some (active_invocations p !! pid);
  li_process pid : is_Some (active_invocations p !! pid) ->
    exists e, process_table p !! pid = Some e /\ Process.status e <> Stopped;
  li_session pid k s : in_session p pid k -> sv p !! k = Some s -> pid ∈ pids s;
  li_owner pid k s : in_session p pid k -> sv p !! k = Some s -> pid = owner_pid s -> over (Sessions.status s) = false;
  li_over k s : sv p !! k = Some s -> over (Sessions.status s) = true -> is_Some (process_table p !! owner_pid s)
}.

(** What has ended stays: a finished invocation's record never changes, and a session that is over stays so as
    long as it is stored. *)
Definition ended_stays p p' : Prop :=
  (forall i r, iv p !! i = Some r -> live_status r = false -> iv p' !! i = Some r) /\
  (forall k s s', sv p !! k = Some s -> sv p' !! k = Some s' -> over (Sessions.status s) = true ->
     Sessions.status s' = Sessions.status s).

(** *** Facts about stores *)

Lemma iv_key p i r : invariant p -> iv p !! i = Some r -> i = Invocations.id r.
Proof. intros [G]. apply (good_ikey p G). Qed.

Lemma alter_Some_inv {A} (f : A -> A) (k j : string) (m : gmap string A) y :
  alter f k m !! j = Some y -> exists x, m !! j = Some x /\ y = if decide (j = k) then f x else x.
Proof.
  intros [(<- & x & Hx & ->)|(Hne & Hx)]%lookup_alter_Some; eexists; (split; [done|]);
    by rewrite ?decide_True, ?decide_False by congruence.
Qed.

(** *** Pausing and resuming *)

Lemma cascade_keeps p qs ps st k marked p' :
  invariant p -> good p' -> cascaded p qs ps st k marked p' -> ps <> Stopped -> InvocationStatus.is_live st = true ->
  (session_store p' <> None /\ invocation_store p' <> None) ->
  (forall s', marked = Some s' -> exists s, sv p !! uuid_str (Sessions.id s') = Some s /\ pids s' = pids s /\
     owner_pid s' = owner_pid s /\ over (Sessions.status s) = false /\ over (Sessions.status s') = false) ->
  invariant p' /\ ended_stays p p'.
Proof.
  intros I G' [T V S _ [Ai As] (Hh & _)] Hps Hst [Hss His] Hm. pose proof I as [G _ _ Ix Bo Ta Pr Se Ow Ov].
  assert (forall i r', iv p' !! i = Some r' -> exists r, iv p !! i = Some r /\ Invocations.pid r' = Invocations.pid r /\
    live_status r' = live_status r /\ (live_status r = false -> r' = r)) as Vb.
  { intros i r' Hr. rewrite V in Hr. case_decide as Hi; [|by exists r'].
    apply list_elem_of_omap in Hi as (q & _ & Hq). apply Ix in Hq as (r & Hir & Hp & Hl).
    rewrite Hir in Hr. injection Hr as <-. exists r. split; [done|]. split; [done|]. split; [|congruence].
    unfold live_status in *. cbn. by rewrite Hst, Hl. }
  assert (forall i r, iv p !! i = Some r -> is_Some (iv p' !! i)) as Vf.
  { intros i r Hr. rewrite V, Hr. case_decide; by eexists. }
  assert (forall k s', sv p' !! k = Some s' -> exists s, sv p !! k = Some s /\ pids s' = pids s /\
    owner_pid s' = owner_pid s /\ over (Sessions.status s') = over (Sessions.status s) /\
    (over (Sessions.status s) = true -> Sessions.status s' = Sessions.status s)) as Sb.
  { intros j s' Hs. rewrite S in Hs. destruct marked as [sm|]; [|by exists s'].
    destruct (Hm sm eq_refl) as (s & E & P & O & A & B).
    apply lookup_insert_Some in Hs as [[<- <-]|[Hne Hs]]; [|by exists s']. exists s. rewrite A, B. by split_and!. }
  assert (forall q j, in_session p' q j <-> in_session p q j) as Hin by (intros; unfold in_session; by rewrite As).
  split; [|split].
  - constructor; try done.
    + intros q i. rewrite Ai, Ix. split.
      * intros (r & Hr & Hp & Hl). destruct (Vf _ _ Hr) as [r' Hr']. destruct (Vb _ _ Hr') as (r0 & E0 & Ep & El & _).
        exists r'. rewrite Hr in E0. injection E0 as <-. split; [done|]. by rewrite Ep, El.
      * intros (r' & Hr & Hp & Hl). destruct (Vb _ _ Hr) as (r & E & Ep & El & _). exists r. by rewrite <-Ep, <-El.
    + intros q. rewrite Ai, As. apply Bo.
    + intros q. rewrite Ai, Hh. apply Ta.
    + intros q Hq. rewrite Ai in Hq. destruct (Pr q Hq) as (e & He & Hs). rewrite T, He.
      case_decide; eexists; (split; [done|]); done.
    + intros q j s' Hq Hs. destruct (Sb _ _ Hs) as (s & E & -> & _). apply Hin in Hq. by eapply Se.
    + intros q j s' Hq Hs Hw. destruct (Sb _ _ Hs) as (s & E & _ & O & -> & _). apply Hin in Hq. eapply Ow; [done..|]. by rewrite <-O.
    + intros j s' Hs Ho. destruct (Sb _ _ Hs) as (s & E & _ & O & Eo & _). rewrite O, T. rewrite Eo in Ho.
      destruct (Ov _ _ E Ho) as [e ->]. case_decide; by eexists.
  - intros i r Hr Hl. destruct (Vf _ _ Hr) as [r' Hr']. destruct (Vb _ _ Hr') as (r0 & E0 & _ & _ & Hs).
    rewrite Hr in E0. injection E0 as <-. rewrite Hr'. by rewrite (Hs Hl).
  - intros j s s' Hs Hs' Ho. destruct (Sb _ _ Hs') as (s0 & E & _ & _ & _ & Hst'). rewrite Hs in E. injection E as <-. by apply Hst'.
Qed.

Lemma session_of_in p pid s : session_of p pid = Some s ->
  exists k, in_session p pid k /\ sv p !! k = Some s.
Proof.
  unfold session_of, in_session. destruct (active_sessions p !! pid) as [sid|] eqn:Ea; [|done]. cbn.
  destruct (parse_str sid) as [u|] eqn:Eu; [|done]. intros E. exists (uuid_str u). split; [|done]. by exists sid, u.
Qed.

Lemma pause_keeps now p pid p' : invariant p -> pause_agent now p pid = Some p' -> invariant p' /\ ended_stays p p'.
Proof.
  intros I E. apply cascade_spec in E as [G' Cc]; [|apply I|done].
  eapply cascade_keeps; [done|done|exact Cc|done|done|..].
  - destruct (cc_stores _ _ _ _ _ _ _ Cc) as [Ns Ni]. rewrite <-Ns, <-Ni. split; apply I.
  - intros s' Hs. destruct (session_of p pid) as [s|] eqn:Es; [|done]. cbn in Hs. case_bool_decide as Hw; [|done].
    injection Hs as <-. destruct (session_of_in _ _ _ Es) as (k & Hk & Hs). exists s.
    cbn. rewrite <-(good_skey p (li_good _ I) _ _ Hs). split_and!; try done. by eapply (li_owner p I pid).
Qed.

Lemma resume_keeps now p pid p' : invariant p -> resume_agent now p pid = Some p' -> invariant p' /\ ended_stays p p'.
Proof.
  intros I E. apply cascade_spec in E as [G' Cc]; [|apply I|done].
  eapply cascade_keeps; [done|done|exact Cc|done|done|..].
  - destruct (cc_stores _ _ _ _ _ _ _ Cc) as [Ns Ni]. rewrite <-Ns, <-Ni. split; apply I.
  - intros s' Hs. destruct (session_of p pid) as [s|] eqn:Es; [|done]. cbn in Hs. case_bool_decide as Hw; [|done].
    injection Hs as <-. destruct (session_of_in _ _ _ Es) as (k & Hk & Hs). exists s.
    cbn. rewrite <-(good_skey p (li_good _ I) _ _ Hs), Hw. by split_and!.
Qed.

(** *** Aborting *)

Lemma session_ended_inv p now pid st k s' : session_ended p now pid st !! k = Some s' ->
  exists s, sv p !! k = Some s /\ (s' = s \/ (in_session p pid k /\ s' = end_session now pid st s)).
Proof.
  unfold session_ended. intros Hs. destruct (active_sessions p !! pid) as [sid|] eqn:Ea; [|by eauto].
  destruct (parse_str sid) as [u|] eqn:Eu; [|by eauto]. apply alter_Some_inv in Hs as (s & Hs & ->).
  exists s. split; [done|]. case_decide as Hk; [|by left]. right. split; [|done]. by exists sid, u.
Qed.

Lemma end_session_fields now pid st s : let s' := end_session now pid st s in
  owner_pid s' = owner_pid s /\ (forall q, q ∈ pids s -> q <> pid -> q ∈ pids s') /\
  (Sessions.status s' = Sessions.status s \/ pid = owner_pid s).
Proof.
  cbn. unfold end_session. case_bool_decide as Hw; cbn in Hw.
  - split; [by destruct st|]. split; [|by right]. intros q Hq Hne.
    assert (pids (Sessions.remove_pid now pid s) = filter (fun x => x <> pid) (pids s)) as E by done.
    destruct st; cbn; apply list_elem_of_filter; done.
  - split; [done|]. split; [|by left]. intros q Hq Hne. cbn. by apply list_elem_of_filter.
Qed.

Lemma killed_records now p pid p' : invariant p -> killed now p pid p' ->
  (forall i r', iv p' !! i = Some r' -> exists r, iv p !! i = Some r /\ Invocations.pid r' = Invocations.pid r /\
     ((r' = r /\ (live_status r = true -> Invocations.pid r <> pid)) \/
      (active_invocations p !! pid = Some i /\ live_status r' = false))) /\
  (forall i r, iv p !! i = Some r -> (live_status r = true -> Invocations.pid r <> pid) -> iv p' !! i = Some r).
Proof.
  intros I K. pose proof (kl_invocation _ _ _ _ K) as V. unfold inv_of in V.
  assert (forall i r, iv p !! i = Some r -> active_invocations p !! pid <> Some i ->
    live_status r = true -> Invocations.pid r <> pid) as Hne.
  { intros i r Hr Hn Hl Hp. apply Hn. apply (li_index p I). by exists r. }
  assert (forall i r, iv p !! i = Some r -> (live_status r = true -> Invocations.pid r <> pid) ->
    active_invocations p !! pid <> Some i) as Hne'.
  { intros i r Hr Hn Hi. apply (li_index p I) in Hi as (r0 & E & Hp & Hl). rewrite Hr in E. injection E as <-. by apply Hn. }
  split.
  - intros i r' Hr. rewrite V in Hr. destruct (active_invocations p !! pid) as [j|] eqn:Ej.
    + apply alter_Some_inv in Hr as (r & Hr & ->). exists r. split; [done|]. case_decide as Hj; [by subst; auto|].
      split; [done|]. left. split; [done|]. apply (Hne i); [done|congruence].
    + exists r'. split; [done|]. split; [done|]. left. split; [done|]. by apply (Hne i).
  - intros i r Hr Hn. pose proof (Hne' i r Hr Hn) as Hj. rewrite V.
    destruct (active_invocations p !! pid) as [j|]; [|done]. rewrite lookup_alter_ne; [done|congruence].
Qed.

Lemma abort_keeps now p pid : invariant p ->
  invariant (abort_agent now p pid) /\ ended_stays p (abort_agent now p pid).
Proof.
  intros I. destruct (abort_agent_spec now p pid (li_good p I)) as [G' K]. set (p' := abort_agent now p pid) in *. clearbody p'.
  destruct (killed_records now p pid p' I K) as [Vb Vf]. pose proof (kl_session _ _ _ _ K) as S.
  destruct (kl_task _ _ _ _ K) as (Hh & _). pose proof (kl_process _ _ _ _ K) as T.
  pose proof (kl_active_i _ _ _ _ K) as Ai. pose proof (kl_active_s _ _ _ _ K) as As.
  pose proof I as [G Hss His Ix Bo Ta Pr Se Ow Ov].
  assert (forall q, is_Some (process_table p !! q) -> is_Some (process_table p' !! q)) as Tf.
  { intros q [e He]. rewrite T. destruct (decide (q = pid)) as [->|]; [rewrite lookup_alter_eq, He | rewrite lookup_alter_ne, He by done]; by eexists. }
  assert (forall q j, in_session p' q j <-> q <> pid /\ in_session p q j) as Hin.
  { intros q j. unfold in_session. rewrite As. split.
    - intros (sid & u & Hq & Hr). apply lookup_delete_Some in Hq as [Hne Hq]. split; [done|]. by exists sid, u.
    - intros (Hne & sid & u & Hq & Hr). exists sid, u. by rewrite lookup_delete_ne. }
  assert (forall j s', sv p' !! j = Some s' -> exists s, sv p !! j = Some s /\ owner_pid s' = owner_pid s /\
    (forall q, q ∈ pids s -> q <> pid -> q ∈ pids s') /\
    (Sessions.status s' = Sessions.status s \/ (in_session p pid j /\ pid = owner_pid s))) as Sb.
  { intros j s' Hs. rewrite S in Hs. apply session_ended_inv in Hs as (s & Hs & [->|[Hk ->]]); [by eauto 10|].
    destruct (end_session_fields now pid InvocationStatus.Killed s) as (O & P & [Q|Q]); eauto 10. }
  split; [|split].
  - constructor; try done.
    + by rewrite <-(proj1 (kl_stores _ _ _ _ K)).
    + by rewrite <-(proj2 (kl_stores _ _ _ _ K)).
    + intros q i. rewrite Ai, lookup_delete_Some, Ix. split.
      * intros (Hne & r & Hr & <- & Hl). exists r. split; [|done]. apply Vf; [done|]. congruence.
      * intros (r' & Hr & Hp & Hl). destruct (Vb _ _ Hr) as (r & E & Ep & [[-> Hn]|[_ Hd]]); [|congruence].
        split; [specialize (Hn Hl); congruence|]. by exists r.
    + intros q. rewrite Ai, As, !lookup_delete_is_Some. by rewrite Bo.
    + intros q Hf. rewrite Ai, Hh, !lookup_delete_is_Some. by rewrite Ta.
    + intros q Hq. rewrite Ai in Hq. apply lookup_delete_is_Some in Hq as [Hne Hq].
      rewrite T, lookup_alter_ne by done. by apply Pr.
    + intros q j s' [Hne Hq]%Hin Hs. destruct (Sb _ _ Hs) as (s & E & _ & P & _). apply P; [by eapply Se | done].
    + intros q j s' [Hne Hq]%Hin Hs Hw. destruct (Sb _ _ Hs) as (s & E & O & _ & [->|[_ Hx]]); [|congruence].
      eapply Ow; [done..|]. by rewrite <-O.
    + intros j s' Hs Ho. destruct (Sb _ _ Hs) as (s & E & O & _ & [Es|[Hk Hx]]); rewrite O.
      * apply Tf. apply (Ov j); [done|]. by rewrite <-Es.
      * apply Tf. rewrite <-Hx. destruct Hk as (sid & u & Hk & _). destruct (Pr pid) as (e & He & _); [|by eexists].
        apply Bo. by eexists.
  - intros i r Hr Hl. apply Vf; [done|]. congruence.
  - intros j s s' Hs Hs' Ho. destruct (Sb _ _ Hs') as (s0 & E & O & _ & [Es|[Hk Hx]]); rewrite Hs in E; injection E as <-; [done|].
    exfalso. pose proof (Ow pid j s Hk Hs Hx). congruence.
Qed.

(** *** Spawning *)

Definition grown (s s' : SessionRecord) : Prop :=
  owner_pid s' = owner_pid s /\ Sessions.status s' = Sessions.status s /\ (forall q, q ∈ pids s -> q ∈ pids s').

Lemma joined_inv fr p name sid sid' m : joined fr p name sid = Ok (sid', m) ->
  forall k s', m !! k = Some s' -> exists s, sv p !! k = Some s /\ grown s s'.
Proof.
  unfold joined. destruct (parse_str sid) as [u|]; [|done]. cbn. intros [= <- <-] k s' Hs.
  apply alter_Some_inv in Hs as (s & Hs & ->). exists s. split; [done|]. by case_decide.
Qed.

Lemma session_for_inv fr p name goal sid0 caller parent pid sid m :
  unused fr p -> session_for fr p name goal sid0 caller parent pid = Ok (sid, m) ->
  forall k s', m !! k = Some s' -> (exists s, sv p !! k = Some s /\ grown s s') \/
    (k = uuid_str (session_uuid fr) /\ sv p !! k = None /\ Sessions.status s' = SessionStatus.Running).
Proof.
  intros U. unfold session_for.
  assert (forall x, joined fr p name x = Ok (sid, m) -> forall k s', m !! k = Some s' ->
    (exists s, sv p !! k = Some s /\ grown s s') \/
    (k = uuid_str (session_uuid fr) /\ sv p !! k = None /\ Sessions.status s' = SessionStatus.Running)) as J.
  { intros x E k s' Hs. left. by eapply joined_inv. }
  destruct (parent ≫= _) as [x|]; [apply J|]. case_bool_decide; [|apply J]. intros [= <- <-] k s' Hs.
  apply lookup_insert_Some in Hs as [[<- <-]|[_ Hs]].
  - right. split_and!; try done. apply (un_session _ _ U).
  - left. exists s'. by split_and!.
Qed.

Lemma spawned_sessions fr p pid name goal sid atp caller parent m p' :
  spawned hmac syscalls cf fr p pid name goal sid atp caller parent m p' ->
  forall k s', sv p' !! k = Some s' -> exists s, m !! k = Some s /\ grown s s' /\
    (forall u, parse_str sid = Ok u -> k = uuid_str u -> pid ∈ pids s').
Proof.
  intros Sp k s' Hs. rewrite (sp_session _ _ _ _ _ _ _ _ _ _ _ _ _ _ Sp) in Hs.
  destruct (parse_str sid) as [u|] eqn:Eu.
  2: { exists s'. by split_and!. }
  apply alter_Some_inv in Hs as (s & Hs & ->). exists s. split; [done|]. case_decide as Hk.
  - assert (pids (add_invocation_pid (clk fr 5) (spawn_meta fr pid name) (Sessions.add_pid (clk fr 2) pid s)) =
      if bool_decide (pid ∈ pids s) then pids s else pids s ++ [pid]) as Ep by done.
    split; [split; [done|split; [done|]]|].
    + intros q Hq. rewrite Ep. case_bool_decide; [done | set_solver].
    + intros u' _ _. rewrite Ep. case_bool_decide; [done | set_solver].
  - split; [by split_and!|]. intros u' [= <-] Hk'. done.
Qed.

(** What a spawn changes, as seen from the invariant. *)
Record spawn_facts (fr : Fresh) p (pid : Z) (sid : string) p' : Prop := {
  sf_fresh : process_table p !! pid = None /\ active_invocations p !! pid = None /\ active_sessions p !! pid = None;
  sf_process : exists e, process_table p' = <[pid := e]> (process_table p) /\ Process.status e = Running;
  sf_active_s : active_sessions p' = <[pid := sid]> (active_sessions p);
  sf_active_i : active_invocations p' = <[pid := uuid_str (invocation_uuid fr)]> (active_invocations p);
  sf_record : exists r, iv p' = <[uuid_str (invocation_uuid fr) := r]> (iv p) /\ Invocations.pid r = pid /\ live_status r = true;
  sf_tasks : has_factory cf = true -> exists h, task_handles p' = <[pid := h]> (task_handles p);
  sf_stores : good p' /\ session_store p' <> None /\ invocation_store p' <> None;
  sf_sessions k s' : sv p' !! k = Some s' ->
    ((exists s, sv p !! k = Some s /\ grown s s') \/
     (k = uuid_str (session_uuid fr) /\ sv p !! k = None /\ Sessions.status s' = SessionStatus.Running)) /\
    (forall u, parse_str sid = Ok u -> k = uuid_str u -> pid ∈ pids s')
}.

Lemma spawn_facts_hold fr p name goal sid0 atp caller parent pid p' : invariant p -> unused fr p ->
  agent_spawn hmac syscalls cf fr p name goal sid0 atp caller parent = Ok (pid, p') ->
  exists sid, spawn_facts fr p pid sid p'.
Proof.
  intros I U E. pose proof I as [G Hss His Ix Bo Ta Pr Se Ow Ov].
  destruct (session_store p) as [ss|] eqn:Es; [|done]. destruct (invocation_store p) as [ist|] eqn:Ei; [|done].
  pose proof (agent_spawn_spec hmac syscalls cf fr p ss ist name goal sid0 atp caller parent G Es Ei) as Sp. cbv zeta in Sp.
  destruct (session_for _ _ _ _ _ _ _ _) as [[sid m]|] eqn:Ef; [|by rewrite Sp in E].
  destruct Sp as (p1 & E1 & G1 & Sp). rewrite E1 in E. injection E as <- <-.
  pose proof (un_pid _ _ U) as Up.
  assert (active_invocations p !! Pid.generate (pid_ms fr) (pid_rnd fr) = None) as Na.
  { apply eq_None_not_Some. intros Ha. destruct (Pr _ Ha) as (e & He & _). congruence. }
  pose proof Sp as [T As Ai V _ _ Ht _ [N1 N2]]. exists sid. constructor; try done.
  - split_and!; try done. apply eq_None_not_Some. rewrite <-Bo, Na. by apply is_Some_None.
  - eexists. split; [exact T|done].
  - eexists. split; [exact V|done].
  - intros Hf. rewrite Hf in Ht. by eexists.
  - intros k s' Hs. destruct (spawned_sessions _ _ _ _ _ _ _ _ _ _ _ Sp k s' Hs) as (s1 & H1 & (O1 & Q1 & P1) & Hp). split; [|done].
    destruct (session_for_inv _ _ _ _ _ _ _ _ _ _ U Ef k s1 H1) as [(s & Hs0 & O & Q & P)|(-> & Hn & Q)].
    + left. exists s. split; [done|]. split_and!; try congruence. intros q Hq. by apply P1, P.
    + right. by rewrite Q1.
Qed.

Lemma spawn_keeps fr p name goal sid0 atp caller parent pid p' : invariant p -> unused fr p ->
  agent_spawn hmac syscalls cf fr p name goal sid0 atp caller parent = Ok (pid, p') -> invariant p' /\ ended_stays p p'.
Proof.
  intros I U E. destruct (spawn_facts_hold _ _ _ _ _ _ _ _ _ _ I U E) as
    (sid & [(Up & Na & Ns) (e & T & Te) As Ai (r & V & Vp & Vl) Ht (G' & N1 & N2) Sb]). clear E.
  pose proof I as [G Hss His Ix Bo Ta Pr Se Ow Ov]. pose proof (un_invocation _ _ U) as Ui.
  assert (forall q j, in_session p' q j -> (q = pid /\ exists u, parse_str sid = Ok u /\ j = uuid_str u) \/
    (q <> pid /\ in_session p q j /\ j <> uuid_str (session_uuid fr))) as Hin.
  { intros q j (sid' & u & Hq & Hu & ->). rewrite As in Hq. apply lookup_insert_Some in Hq as [[<- <-]|[Hne Hq]]; [left; eauto|].
    right. split; [done|]. split; [by exists sid', u|]. intros Hj%(inj uuid_str). subst u. by eapply (un_active _ _ U). }
  split; [|split].
  - constructor; try done.
    + intros q i. rewrite Ai, V, lookup_insert_Some, Ix. split.
      * intros [[<- <-]|[Hne (r0 & Hr & Hp & Hl)]]; [exists r; by rewrite lookup_insert_eq|].
        exists r0. rewrite lookup_insert_ne; [done|]. intros <-. congruence.
      * intros (r0 & Hr & Hp & Hl). apply lookup_insert_Some in Hr as [[<- <-]|[Hne Hr]]; [left; split; congruence|].
        right. split; [|by exists r0]. intros <-. apply eq_None_not_Some in Na. apply Na. exists i. apply Ix. by exists r0.
    + intros q. rewrite Ai, As, !lookup_insert_is_Some, Bo. done.
    + intros q Hf. destruct (Ht Hf) as [h ->]. by rewrite Ai, !lookup_insert_is_Some, Ta.
    + intros q Hq. rewrite T. destruct (decide (q = pid)) as [->|Hne]; [exists e; rewrite lookup_insert_eq, Te; done|].
      rewrite lookup_insert_ne by done. apply Pr. rewrite Ai, lookup_insert_ne in Hq by done. done.
    + intros q j s' Hq Hs. destruct (Sb _ _ Hs) as [Hold Hnew]. destruct (Hin _ _ Hq) as [(-> & u & Hu & Hj)|(Hne & Hi & Hj)]; [by eapply Hnew|].
      destruct Hold as [(s & E & _ & _ & P)|(Hk & _)]; [|done]. by eapply P, Se.
    + intros q j s' Hq Hs Hw. destruct (Sb _ _ Hs) as [[(s & E & O & -> & _)|(_ & _ & ->)] _]; [|done].
      destruct (Hin _ _ Hq) as [(-> & _)|(Hne & Hi & _)]; [|eapply Ow; [done..|by rewrite <-O]].
      destruct (over (Sessions.status s)) eqn:Eo; [|done]. destruct (Ov _ _ E Eo) as [x Hx]. congruence.
    + intros j s' Hs Ho. destruct (Sb _ _ Hs) as [[(s & E & O & Q & _)|(_ & _ & Q)] _]; rewrite Q in Ho; [|done].
      rewrite O, T, lookup_insert_is_Some. destruct (decide (pid = owner_pid s)); [by left|]. right. split; [done|]. by eapply Ov.
  - intros i r0 Hr Hl. rewrite V, lookup_insert_ne; [done|]. intros <-. congruence.
  - intros k s s' Hs Hs' Ho. destruct (Sb _ _ Hs') as [[(s0 & E & _ & Q & _)|(_ & E & _)] _]; congruence.
Qed.

(** *** Steps that touch no agent *)

Lemma quiet_keeps p p' :
  invariant p -> good p' -> process_table p' = process_table p -> active_invocations p' = active_invocations p ->
  active_sessions p' = active_sessions p -> task_handles p' = task_handles p ->
  session_store p' <> None -> invocation_store p' <> None -> iv p' = iv p ->
  (forall k s', sv p' !! k = Some s' -> sv p !! k = Some s' \/
     (sv p !! k = None /\ Sessions.status s' = SessionStatus.Running /\ forall q, ~ in_session p q k)) ->
  invariant p' /\ ended_stays p p'.
Proof.
  intros I G' T Ai As Hh N1 N2 V Sb. pose proof I as [G Hss His Ix Bo Ta Pr Se Ow Ov].
  assert (forall q j, in_session p' q j <-> in_session p q j) as Hin by (intros; unfold in_session; by rewrite As).
  split; [|split].
  - constructor; rewrite ?T, ?Ai, ?As, ?Hh, ?V; try done.
    + intros q j s' Hq Hs. apply Hin in Hq. destruct (Sb _ _ Hs) as [Hs'|(_ & _ & Hn)]; [by eapply Se|]. by apply Hn in Hq.
    + intros q j s' Hq Hs. apply Hin in Hq. destruct (Sb _ _ Hs) as [Hs'|(_ & _ & Hn)]; [by eapply Ow|]. by apply Hn in Hq.
    + intros j s' Hs Ho. destruct (Sb _ _ Hs) as [Hs'|(_ & Q & _)]; [by eapply Ov|]. by rewrite Q in Ho.
  - intros i r. by rewrite V.
  - intros k s s' Hs Hs' Ho. destruct (Sb _ _ Hs') as [E|(E & _)]; congruence.
Qed.

Lemma deliver_keeps p pid k v ok p' : invariant p -> deliver_to p pid k v = Some (ok, p') -> invariant p' /\ ended_stays p p'.
Proof.
  intros I E. unfold deliver_to in E. destruct (SignalChannels.send _ _ _) as [[b c]|]; [|done]. cbn in E.
  injection E as <- <-. eapply quiet_keeps; try done; try apply I; [|by left].
  by eapply (good_same p), eq_refl; [apply I|].
Qed.

Lemma set_usage_same r : set_usage (Invocations.tokens_consumed r) (Invocations.tool_calls_total r) r = r.
Proof. by destruct r. Qed.

Lemma snapshot_keeps p i r p' : invariant p -> snapshot_invocation p i = (r, p') -> invariant p' /\ ended_stays p p'.
Proof.
  intros I E. pose proof (li_good p I) as G.
  assert (p' = p -> invariant p' /\ ended_stays p p') as Same.
  { intros ->. eapply quiet_keeps; try done; try apply I. by left. }
  unfold snapshot_invocation in E. destruct (invocation_store p) as [s|] eqn:Es; [|injection E as <- <-; by apply Same].
  assert (is_up s) as U by (by eapply good_is). rewrite (is_get_up s i U) in E. cbn in E.
  assert (iv p = invocations s) as Ev by (unfold iv; by rewrite Es).
  destruct (invocations s !! i) as [x|] eqn:Ex; cbn in E; [|injection E as <- <-; by apply Same].
  destruct (InvocationStatus.is_live (Invocations.status x)); [|injection E as <- <-; by apply Same].
  destruct (is_persist_interim_up s i (Invocations.tokens_consumed x) (Invocations.tool_calls_total x) U) as (s' & Ep & U' & V).
  rewrite Ep in E. injection E as <- <-.
  assert (invocations s' = invocations s) as V'.
  { rewrite V. apply alter_id. intros y Hy. rewrite Ex in Hy. injection Hy as <-. apply set_usage_same. }
  eapply quiet_keeps; try done; try apply I; [| |by left].
  - constructor; cbn; [apply (good_ss p G)|naive_solver|apply (good_skey p G)|]. intros k y.
    change (invocations s' !! k = Some y -> k = Invocations.id y). rewrite V', <-Ev. apply (good_ikey p G).
  - change (invocations s' = iv p). by rewrite V', Ev.
Qed.

Lemma create_session_keeps now fr p user origin title goal owner r p' : invariant p -> unused fr p ->
  create_session now (session_uuid fr) p user origin title goal owner = (r, p') -> invariant p' /\ ended_stays p p'.
Proof.
  intros I U E. pose proof (li_good p I) as G. unfold create_session in E.
  destruct (session_store p) as [s|] eqn:Es; [|by destruct (li_ss p I)].
  destruct (ss_create_up s (session_new now (session_uuid fr) user origin title goal owner)) as (s' & Ec & U' & V); [by eapply good_ss|].
  rewrite Ec in E. injection E as <- <-. cbn in V.
  assert (sv p = sessions s) as Ev by (unfold sv; by rewrite Es).
  eapply quiet_keeps; try done; try apply I.
  - constructor; cbn; [naive_solver|apply (good_is p G)| |apply (good_ikey p G)]. intros k y.
    change (sessions s' !! k = Some y -> k = uuid_str (Sessions.id y)). rewrite V, <-Ev.
    intros [[<- <-]|[_ Hy]]%lookup_insert_Some; [done|]. by apply (good_skey p G).
  - intros k y. change (sessions s' !! k = Some y -> sv p !! k = Some y \/
      (sv p !! k = None /\ Sessions.status y = SessionStatus.Running /\ forall q, ~ in_session p q k)).
    rewrite V, <-Ev. intros [[<- <-]|[_ Hy]]%lookup_insert_Some; [right|by left].
    split_and!; [apply (un_session _ _ U)|done|]. intros q (sid & u & Hq & Hu & Hk%(inj uuid_str)). subst u.
    by eapply (un_active _ _ U).
Qed.

Lemma delete_session_keeps p u r p' : invariant p -> delete_session p u = (r, p') -> invariant p' /\ ended_stays p p'.
Proof.
  intros I E. pose proof (li_good p I) as G. unfold delete_session in E.
  destruct (session_store p) as [s|] eqn:Es; [|by destruct (li_ss p I)].
  destruct (ss_delete_up s u) as (s' & Ec & U' & V); [by eapply good_ss|]. rewrite Ec in E. injection E as <- <-.
  assert (sv p = sessions s) as Ev by (unfold sv; by rewrite Es).
  assert (forall k y, sessions s' !! k = Some y -> sv p !! k = Some y) as Hb.
  { intros k y. rewrite V, Ev. by intros [_ ?]%lookup_delete_Some. }
  eapply quiet_keeps; try done; try apply I.
  - constructor; cbn; [naive_solver|apply (good_is p G)| |apply (good_ikey p G)]. intros k y Hy.
    by apply (good_skey p G), Hb.
  - intros k y Hy. left. by apply Hb.
Qed.

(** *** All steps *)

Lemma step_keeps p p' : step p p' -> invariant p -> invariant p' /\ ended_stays p p'.
Proof.
  destruct 1; intros I; eauto using spawn_keeps, abort_keeps, pause_keeps, resume_keeps, deliver_keeps, snapshot_keeps,
    create_session_keeps, delete_session_keeps.
Qed.

Lemma ended_stays_refl p : ended_stays p p.
Proof. split; [done|]. intros k s s' H1 H2. congruence. Qed.


(** The entry a spawn makes lists no tools, and nothing fills it later: the router's capability check, which reads
    it, refuses a new agent every tool but the ones always present, whatever its token grants. *)
Theorem spawned_agent_router_check fr p name goal sid atp caller parent pid p' :
  invariant p -> agent_spawn hmac syscalls cf fr p name goal sid atp caller parent = Ok (pid, p') ->
  forall tool, check_capability tool pid (process_table p') = Ok tt <-> tool ∈ ALWAYS_PRESENT.
Proof.
  intros I E tool. pose proof (li_ss p I) as N1. pose proof (li_is p I) as N2.
  destruct (session_store p) as [ss|] eqn:Es; [|done]. destruct (invocation_store p) as [ist|] eqn:Ei; [|done].
  pose proof (agent_spawn_spec hmac syscalls cf fr p ss ist name goal sid atp caller parent (li_good p I) Es Ei) as Sp. cbv zeta in Sp.
  destruct (session_for _ _ _ _ _ _ _ _) as [[sid' m]|]; [|congruence].
  destruct Sp as (p1 & E1 & _ & [T _ _ _ _ _ _ _ _]). rewrite E1 in E. injection E as <- <-.
  unfold check_capability, Process.get. rewrite T, lookup_insert_eq. cbn.
  pose proof (list_contains_spec tool ALWAYS_PRESENT) as Ha. destruct (list_contains tool ALWAYS_PRESENT); [naive_solver|].
  cbn. split; [done|]. intros Ht. apply Ha in Ht. done.
Qed.

(** Resuming an agent that was killed puts its process back to running: nothing checks that it is over. *)
Lemma resume_revives_killed now p pid e p' :
  good p -> process_table p !! pid = Some e -> resume_agent now (abort_agent now p pid) pid = Some p' ->
  Process.status <$> process_table p' !! pid = Some Process.Running.
Proof.
  intros G He E. destruct (abort_agent_spec now p pid G) as [G1 K].
  assert (process_table (abort_agent now p pid) !! pid = Some (set_ps Stopped e)) as He1.
  { by rewrite (kl_process _ _ _ _ K), lookup_alter_eq, He. }
  revert E G1 He1. clear K. generalize (abort_agent now p pid) as q. intros q E G1 He1.
  apply cascade_spec in E as [_ Cc]; [|exact G1|done].
  rewrite (cc_process _ _ _ _ _ _ _ Cc), decide_True by (by left). by rewrite He1.
Qed.

End Lifecycle.

(** ** A kernel with one agent *)

Module Running.
Import Mem ToyUuid Invocations.Toy QueueMpsc Proc.Toy.

Lemma empty_invariant : invariant sample_config empty_proc.
Proof.
  assert (iv empty_proc = ∅) as Ei by apply (mem_clean InvocationRecord "invocations").
  constructor; try done.
  - apply empty_proc_good.
  - intros pid i. rewrite Ei. split; [done|]. by intros (r & Hr & _); rewrite lookup_empty in Hr.
  - intros pid. split; by intros [x Hx].
  - intros pid [i Hi]. done.
Qed.

Lemma sample_unused : unused sample_fresh empty_proc.
Proof. by constructor. Qed.

Lemma one_spawn : exists pid p', agent_spawn toy_mac [] sample_config sample_fresh empty_proc "researcher" "study" "" "" "alice" None
  = Ok (pid, p').
Proof.
  pose proof (agent_spawn_spec toy_mac [] sample_config sample_fresh empty_proc {["sessions"%string := ∅]}
    {| InvocationStore.db := {["invocations"%string := ∅]}; InvocationStore.local := None; InvocationStore.disk := ∅ |}
    "researcher" "study" "" "" "alice" None empty_proc_good eq_refl eq_refl) as (p & E & _). eauto.
Qed.


Lemma spawned_agent_router_check_witness : exists pid p',
  agent_spawn toy_mac [] sample_config sample_fresh empty_proc "researcher" "study" "" "" "alice" None = Ok (pid, p') /\
  check_capability "fs/read" pid (process_table p') <> Ok tt.
Proof.
  destruct one_spawn as (pid & p' & E). exists pid, p'. split; [exact E|]. intros Hc.
  apply (spawned_agent_router_check toy_mac [] sample_config sample_fresh empty_proc _ _ _ _ _ _ _ _ empty_invariant E) in Hc.
  apply list_contains_spec in Hc. vm_compute in Hc. discriminate Hc.
Defined.

End Running.
