(* ===== verification/AgentsYaml.v ===== *)
(** * agents.yaml: the list of spawned agents on disk

    Models [kernel/proc/persistence.rs], the two structs of [types.rs] it stores, and the handlers of
    [kernel/proc/mod.rs] that use it: [spawn] records the agent after starting it, [resume_session] spawns.
    Files are the calls of [std::fs] the code makes, with the state after a failed call; the YAML text of
    the list is the serde_yaml codec. *)

From S2P Require Import Prelude Types Token Json Channels Process Signals Resources Store Sessions Invocations Proc.
Local Open Scope Z_scope.

Record AgentRecord : Type := {
  ar_pid : Z; ar_name : string; ar_goal : string; ar_session_id : string; ar_spawned_at : Z
}.

Class FileOps (F : Type) : Type := {
  f_exists : F -> string -> bool;
  f_read_to_string : F -> string -> result string string;
  f_write : F -> string -> string -> result string unit * F;
  f_rename : F -> string -> string -> result string unit * F
}.
(** Writing touches one file, even when it fails; a rename happens or it does not. *)
Class FileLaws (F : Type) `{!FileOps F} : Prop := {
  f_exists_read f p : f_exists f p = false -> is_ok (f_read_to_string f p) = false;
  f_read_exists f p c : f_read_to_string f p = Ok c -> f_exists f p = true;
  f_write_other f p c q : q <> p -> f_read_to_string (f_write f p c).2 q = f_read_to_string f q /\
    f_exists (f_write f p c).2 q = f_exists f q;
  f_write_ok f p c f' : f_write f p c = (Ok (), f') -> f_read_to_string f' p = Ok c;
  f_rename_ok f p q c f' : p <> q -> f_rename f p q = (Ok (), f') -> f_read_to_string f p = Ok c ->
    f_read_to_string f' q = Ok c;
  f_rename_err f p q e f' : f_rename f p q = (Err e, f') -> f' = f
}.

Class YamlText : Type := {
  to_yaml : list AgentRecord -> result string string;
  from_yaml : string -> result string (list AgentRecord)
}.
Class YamlLaws `{!YamlText} : Prop := {
  yaml_roundtrip l s : to_yaml l = Ok s -> from_yaml s = Ok l
}.

(** [path.with_extension(ext)] of a path that names a file. *)
Definition file_stem (f : string) : string :=
  match rsplit_once "." f with
  | Some (EmptyString, _) | None => f
  | Some (a, _) => a
  end.
Definition with_extension (path ext : string) : string :=
  match rsplit_once "/" path with
  | Some (dir, f) => (dir +:+ "/" +:+ file_stem f +:+ "." +:+ ext)%string
  | None => (file_stem path +:+ "." +:+ ext)%string
  end.

Section Yaml.
Context {F : Type} `{!FileOps F, !YamlText}.

Definition load_agents_yaml (f : F) (path : string) : result AvixError (list AgentRecord) :=
  if f_exists f path then
    yaml ← map_err Io (f_read_to_string f path);
    map_err ConfigParse (from_yaml yaml)
  else Ok [].

Definition save_agents_yaml (f : F) (path : string) (agents : list AgentRecord) : result AvixError unit * F :=
  match map_err ConfigParse (to_yaml agents) with
  | Err e => (Err e, f)
  | Ok yaml =>
      let tmp := with_extension path "tmp" in
      match f_write f tmp yaml with
      | (Err e, f) => (Err (Io e), f)
      | (Ok _, f) => let '(r, f) := f_rename f tmp path in (map_err Io r, f)
      end
  end.

(** [load_agents_yaml(path).unwrap_or_default()] *)
Definition load_or_default (f : F) (path : string) : list AgentRecord :=
  match load_agents_yaml f path with Ok l => l | Err _ => [] end.

(** Replace the first record with the pid, or append. *)
Fixpoint upsert (r : AgentRecord) (l : list AgentRecord) : list AgentRecord :=
  match l with
  | [] => [r]
  | a :: l' => if bool_decide (ar_pid a = ar_pid r) then r :: l' else a :: upsert r l'
  end.

Definition persist_agent_record (now : Z) (f : F) (path : string) (pid : Z) (name goal session_id : string)
    : result AvixError unit * F :=
  save_agents_yaml f path (upsert {| ar_pid := pid; ar_name := name; ar_goal := goal; ar_session_id := session_id;
                                     ar_spawned_at := now |} (load_or_default f path)).

Definition remove_agent_record (f : F) (path : string) (pid : Z) : result AvixError unit * F :=
  save_agents_yaml f path (filter (fun a => ar_pid a <> pid) (load_or_default f path)).

(** ** [ProcHandler::spawn] and [ProcHandler::resume_session] *)

Context {SS IS C : Type} `{!SessionStoreI SS, !InvocationStoreI IS, !Mpsc Signal C, !UuidText}.
Variable hmac : string -> string -> string.
Variable syscalls : list CapabilityResolver.Syscall.

(** The session id that is recorded is the caller's. *)
Definition spawn (cf : ProcConfig) (fr : Fresh) (p : Proc (SS := SS) (IS := IS) (C := C)) (f : F) (path : string)
    (name goal session_id atp caller : string) (parent : option Z) : result AvixError Z * (Proc * F) :=
  match agent_spawn hmac syscalls cf fr p name goal session_id atp caller parent with
  | Err e => (Err e, (p, f))
  | Ok (pid, p) =>
      let '(r, f) := persist_agent_record (clk fr 8) f path pid name goal session_id in
      (_ ← r; Ok pid, (p, f))
  end.

Definition resume_session (cf : ProcConfig) (fr : Fresh) (p : Proc (SS := SS) (IS := IS) (C := C)) (f : F) (path : string)
    (u : Z) (input : option string) : result AvixError Z * (Proc * F) :=
  match resume_request p u input with
  | Err e => (Err e, (p, f))
  | Ok (agent, goal, user) => spawn cf fr p f path agent goal (uuid_str u) "" user None
  end.

(** ** Saving is atomic *)

Context `{!FileLaws F, !YamlLaws}.

Lemma load_other (f f' : F) path : f_read_to_string f' path = f_read_to_string f path ->
  f_exists f' path = f_exists f path -> load_agents_yaml f' path = load_agents_yaml f path.
Proof. intros E1 E2. unfold load_agents_yaml. by rewrite E1, E2. Qed.

Lemma save_atomic (f f' : F) path l r : with_extension path "tmp" <> path ->
  save_agents_yaml f path l = (r, f') ->
  match r with
  | Ok _ => load_agents_yaml f' path = Ok l
  | Err _ => load_agents_yaml f' path = load_agents_yaml f path
  end.
Proof.
  intros Hne. unfold save_agents_yaml. destruct (to_yaml l) as [y|e] eqn:Ey; cbn; [|by intros [= <- <-]].
  pose proof (f_write_other f (with_extension path "tmp") y path) as Ho.
  destruct (f_write f (with_extension path "tmp") y) as [[[]|e] f1] eqn:Ew; cbn in Ho.
  2: { intros [= <- <-]. destruct Ho; [done|]. by apply load_other. }
  destruct (f_rename f1 (with_extension path "tmp") path) as [[[]|e] f2] eqn:Er; intros [= <- <-]; cbn.
  - pose proof (f_rename_ok _ _ _ _ _ Hne Er (f_write_ok _ _ _ _ Ew)) as Hr. unfold load_agents_yaml.
    rewrite (f_read_exists _ _ _ Hr), Hr. cbn. by rewrite (yaml_roundtrip _ _ Ey).
  - rewrite (f_rename_err _ _ _ _ _ Er). destruct Ho; [done|]. by apply load_other.
Qed.

Lemma upsert_lookup r l : r ∈ upsert r l /\
  (NoDup (ar_pid <$> l) -> NoDup (ar_pid <$> upsert r l) /\
     forall a, ar_pid a <> ar_pid r -> a ∈ upsert r l <-> a ∈ l).
Proof.
  induction l as [|a l [IH1 IH2]]; cbn; [split; [set_solver|]; intros _; split; [apply NoDup_singleton|set_solver]|].
  case_bool_decide as Ha.
  - split; [set_solver|]. intros Hn. rewrite fmap_cons, <-Ha. split; [done|]. set_solver.
  - split; [set_solver|]. intros [Hnin Hn]%NoDup_cons. destruct (IH2 Hn) as [Hn' Hin]. rewrite fmap_cons. split; [|set_solver].
    apply NoDup_cons. split; [|done]. intros (x & Ex & Hx)%list_elem_of_fmap.
    destruct (decide (ar_pid x = ar_pid r)) as [Er|Er]; [congruence|]. apply Hin in Hx; [|done]. apply Hnin.
    rewrite Ex. by apply list_elem_of_fmap_2.
Qed.


(** A spawn whose agent cannot be recorded reports an error although the agent runs. *)
Lemma spawn_error_leaves_agent cf fr p (f f' : F) path name goal sid atp caller parent p' pid e :
  agent_spawn hmac syscalls cf fr p name goal sid atp caller parent = Ok (pid, p') ->
  persist_agent_record (clk fr 8) f path pid name goal sid = (Err e, f') ->
  spawn cf fr p f path name goal sid atp caller parent = (Err e, (p', f')).
Proof. intros E1 E2. unfold spawn. by rewrite E1, E2. Qed.

End Yaml.

(** ** Files in memory, for the witness *)

Module Toy.
Import Mem.
#[local] Instance mem_files : FileOps (gmap string string) := {|
  f_exists f p := bool_decide (is_Some (f !! p));
  f_read_to_string f p := ok_or "ENOENT"%string (f !! p);
  f_write f p c := (Ok (), <[p := c]> f);
  f_rename f p q := match f !! p with
                    | Some c => (Ok (), <[q := c]> (base.delete p f))
                    | None => (Err "ENOENT"%string, f)
                    end |}.
#[local] Instance mem_file_laws : FileLaws (gmap string string).
Proof.
  constructor; cbn.
  - intros f p H%bool_decide_eq_false. destruct (f !! p); [|done]. destruct H. by eexists.
  - intros f p c H%ok_or_Ok. apply bool_decide_eq_true. by eexists.
  - intros f p c q Hne. by rewrite lookup_insert_ne.
  - intros f p c f' [= <-]. by rewrite lookup_insert_eq.
  - intros f p q c f' Hne. destruct (f !! p) eqn:E; [|done]. intros [= <-] [= ->]. by rewrite lookup_insert_eq.
  - intros f p q e f'. by destruct (f !! p); intros [= <- <-].
Qed.
#[local] Instance agent_record_eq : EqDecision AgentRecord.
Proof. solve_decision. Defined.
#[local] Program Instance agent_record_countable : Countable AgentRecord :=
  inj_countable' (fun r => (ar_pid r, ar_name r, ar_goal r, ar_session_id r, ar_spawned_at r))
    (fun '(a, b, c, d, e) => {| ar_pid := a; ar_name := b; ar_goal := c; ar_session_id := d; ar_spawned_at := e |}) _.
Next Obligation. by intros []. Qed.
#[local] Instance coded_yaml : YamlText := {|
  to_yaml l := Ok (pos_text (countable.encode l));
  from_yaml s := ok_or "malformed"%string (countable.decode (text_pos s)) |}.
#[local] Instance coded_yaml_laws : YamlLaws.
Proof. constructor. intros l s [= <-]. cbn [from_yaml coded_yaml]. by rewrite text_pos_text, countable.decode_encode. Qed.


End Toy.
