(* ===== verification/Snapshot.v ===== *)
(** * Agent snapshots

    Models [snapshot/capture.rs], [snapshot/checksum.rs] and [snapshot/store.rs]: the snapshot file taken
    from a live executor, its integrity checksum, and the in-memory store of snapshots by agent.
    [sha256_hex] is the digest of the sha2 crate, [SnapshotYaml] the serde_yaml codec of a snapshot file,
    [minute] chrono's ["%Y%m%d-%H%M"] text of an instant.  [None] is a panic: slicing inside a character. *)

From S2P Require Import Prelude Floats Types Json Text Store Invocations.
Local Open Scope Z_scope.

(** ** Data *)

Inductive SnapshotTrigger : Type := Auto | Crash | Manual | Sigsave.
Inductive CapturedBy : Type := ByKernel | ByUser (uid : Z) | ByAgent (pid : Z).

Record SnapshotMetadata : Type := {
  md_name : string; md_agent_name : string; source_pid : Z; captured_at : Z; captured_by : CapturedBy;
  md_trigger : SnapshotTrigger
}.
Record SnapshotMemory : Type := { episodic_events : Z; semantic_keys : Z }.
Definition memory_default : SnapshotMemory := {| episodic_events := 0; semantic_keys := 0 |}.
Record PendingRequest : Type := { pr_request_id : string; pr_resource : string; pr_name : string; pr_status : string }.
Record SnapshotPipe : Type := { sn_pipe_id : string; sn_state : string }.
Record SnapshotEnvironment : Type := { env_temperature : f32; env_capability_token : string; env_granted_tools : list string }.
Record SnapshotSpec : Type := {
  snap_goal : string; context_summary : string; context_token_count : Z; snap_memory : SnapshotMemory;
  pending_requests : list PendingRequest; snap_pipes : list SnapshotPipe; environment : SnapshotEnvironment;
  checksum : string
}.
Record SnapshotFile : Type := { sn_api_version : string; sn_kind : string; sn_metadata : SnapshotMetadata; sn_spec : SnapshotSpec }.

Definition snapshot_new (m : SnapshotMetadata) (s : SnapshotSpec) : SnapshotFile :=
  {| sn_api_version := "avix/v1"; sn_kind := "Snapshot"; sn_metadata := m; sn_spec := s |}.
Definition with_checksum (f : SnapshotFile) (c : string) : SnapshotFile := {|
  sn_api_version := sn_api_version f; sn_kind := sn_kind f; sn_metadata := sn_metadata f;
  sn_spec := {| snap_goal := snap_goal (sn_spec f); context_summary := context_summary (sn_spec f);
    context_token_count := context_token_count (sn_spec f); snap_memory := snap_memory (sn_spec f);
    pending_requests := pending_requests (sn_spec f); snap_pipes := snap_pipes (sn_spec f);
    environment := environment (sn_spec f); checksum := c |} |}.

Definition snapshot_path (f : SnapshotFile) (user : string) : string :=
  ("/users/" +:+ user +:+ "/snapshots/" +:+ md_name (sn_metadata f) +:+ ".yaml")%string.

(** ** [CapturedBy] as text *)

(** [str::parse::<uN>]: an optional plus sign and digits. *)
Definition digit_val (c : ascii) : option N :=
  let n := Ascii.N_of_ascii c in if decide (48 <= n <= 57)%N then Some (n - 48)%N else None.
Fixpoint digits (max : Z) (acc : N) (s : string) : result string N :=
  match s with
  | EmptyString => Ok acc
  | String c t =>
      match digit_val c with
      | None => Err "invalid digit found in string"%string
      | Some d =>
          let acc' := (acc * 10 + d)%N in
          if decide (Z.of_N acc' <= max) then digits max acc' t else Err "number too large to fit in target type"%string
      end
  end.
Definition parse_uint (max : Z) (s : string) : result string Z :=
  match s with
  | EmptyString => Err "cannot parse integer from empty string"%string
  | String c t => n ← digits max 0 (if decide (c = "+"%char /\ t <> EmptyString) then t else s); Ok (Z.of_N n)
  end.

Definition captured_by_str (c : CapturedBy) : string :=
  match c with
  | ByKernel => "kernel"
  | ByUser uid => ("user:" +:+ pretty (Z.to_N uid))%string
  | ByAgent pid => ("agent:" +:+ pretty (Z.to_N pid))%string
  end.
Definition captured_by_of (s : string) : result string CapturedBy :=
  if String.eqb s "kernel" then Ok ByKernel
  else match strip_prefix "user:" s with
  | Some rest => uid ← parse_uint u32_max rest; Ok (ByUser uid)
  | None =>
      match strip_prefix "agent:" s with
      | Some rest => pid ← parse_uint u64_max rest; Ok (ByAgent pid)
      | None => Err ("invalid CapturedBy value: '" +:+ s +:+ "'")%string
      end
  end.

Lemma digit_val_pretty n : digit_val (pretty_N_char (n mod 10)) = Some (n mod 10)%N.
Proof.
  assert (n mod 10 < 10)%N as H by (by apply N.mod_lt). revert H. generalize (n mod 10)%N as d. intros d H.
  destruct d as [|p]; [done|].
  do 4 (destruct p as [p|p|]; try done); lia.
Qed.
Lemma digits_pretty max n s : Z.of_N n <= max -> digits max 0 (pretty_N_go n s) = digits max n s.
Proof.
  revert s. induction (N.lt_wf_0 n) as [n _ IH]. intros s Hn.
  destruct (decide (n = 0)%N) as [->|H0]; [done|].
  assert (n / 10 < n)%N as Hlt by (apply N.div_lt; lia).
  rewrite pretty_N_go_step by lia. rewrite IH by lia. cbn [digits]. rewrite digit_val_pretty.
  assert (n / 10 * 10 + n mod 10 = n)%N as -> by (rewrite N.mul_comm; symmetry; by apply N.div_mod).
  by rewrite decide_True.
Qed.
Lemma pretty_N_go_cons n c s : exists d t, pretty_N_go n (String c s) = String d t.
Proof.
  revert c s. induction (N.lt_wf_0 n) as [n _ IH]. intros c s.
  destruct (decide (n = 0)%N) as [->|H0]; [by exists c, s|].
  rewrite pretty_N_go_step by lia. apply IH, N.div_lt; lia.
Qed.
Lemma pretty_N_digits max (n : N) : Z.of_N n <= max -> digits max 0 (pretty n) = Ok n /\ (pretty n : string) <> EmptyString.
Proof.
  intros H. unfold pretty, pretty_N. destruct (decide (n = 0)%N) as [->|Hn].
  - cbn [digits]. change (digit_val _) with (Some 0%N). cbn iota beta zeta. by rewrite decide_True by lia.
  - rewrite digits_pretty by done. split; [done|]. rewrite pretty_N_go_step by lia.
    destruct (pretty_N_go_cons (n / 10) (pretty_N_char (n mod 10)) "") as (? & ? & ->). done.
Qed.
Lemma parse_uint_pretty max z : 0 <= z <= max -> parse_uint max (pretty (Z.to_N z)) = Ok z.
Proof.
  intros Hz. destruct (pretty_N_digits max (Z.to_N z)) as [Hd Hne]; [lia|].
  destruct (pretty (Z.to_N z) : string) as [|c t]; [done|]. unfold parse_uint.
  rewrite decide_False by (intros [-> ?]; done). rewrite Hd. cbn. by rewrite Z2N.id by lia.
Qed.
Definition captured_by_wf (c : CapturedBy) : Prop :=
  match c with ByKernel => True | ByUser u => is_u32 u | ByAgent p => is_u64 p end.
Lemma strip_prefix_Some p s r : strip_prefix p s = Some r -> s = (p +:+ r)%string.
Proof.
  unfold strip_prefix, starts_with. revert s. induction p as [|c p IH]; intros s; [by destruct s; intros [= <-]|].
  destruct s as [|d s]; [done|]. cbn [String.prefix String.length str_drop String.app].
  destruct (ascii_dec c d) as [->|]; [|done]. intros E. by rewrite (IH s E).
Qed.
Lemma captured_by_roundtrip c : captured_by_wf c -> captured_by_of (captured_by_str c) = Ok c.
Proof.
  destruct c as [|u|p]; [done| |]; intros Hw; unfold captured_by_of, captured_by_str.
  - assert (forall x, String.eqb ("user:" +:+ x) "kernel" = false) as -> by done.
    rewrite strip_prefix_app. by rewrite parse_uint_pretty.
  - assert (forall x, String.eqb ("agent:" +:+ x) "kernel" = false) as -> by done.
    assert (forall x, strip_prefix "user:" ("agent:" +:+ x) = None) as -> by done.
    rewrite strip_prefix_app. by rewrite parse_uint_pretty.
Qed.

(** ** Capture and verification *)

Class SnapshotYaml : Type := {
  snap_to_yaml : SnapshotFile -> result string string;
  snap_from_yaml : string -> result string SnapshotFile
}.
(** Reading what was written gives the file back. *)
Class SnapshotYamlLaws `{!SnapshotYaml} : Prop := {
  snap_yaml_roundtrip f s : snap_to_yaml f = Ok s -> snap_from_yaml s = Ok f
}.

Record CaptureParams : Type := {
  cp_agent_name : string; cp_pid : Z; cp_goal : string; message_history : list ConversationEntry;
  cp_temperature : f32; cp_granted_tools : list string; cp_trigger : SnapshotTrigger; cp_captured_by : CapturedBy;
  cp_memory : SnapshotMemory; cp_pending_requests : list PendingRequest; open_pipes : list SnapshotPipe
}.

Section Capture.
Context `{!SnapshotYaml}.
Variable sha256_hex : string -> string.
Variable minute : Z -> string.

Definition make_name (agent : string) (at_ : Z) : string := (agent +:+ "-" +:+ minute at_)%string.

Definition build_context_summary (history : list ConversationEntry) : option string :=
  match list_find (fun e => role e = Role.Assistant) (reverse history) with
  | Some (_, e) => preview 200 (content e)
  | None => Some "No context available."%string
  end.

Definition context_chars (history : list ConversationEntry) : Z :=
  foldr (fun e acc => Z.of_nat (String.length (content e)) + acc) 0 history.

Definition compute_checksum (f : SnapshotFile) : string :=
  sha256_hex (match snap_to_yaml (with_checksum f EmptyString) with Ok y => y | Err _ => EmptyString end).

Definition verify_checksum (f : SnapshotFile) : result AvixError unit :=
  match strip_prefix "sha256:" (checksum (sn_spec f)) with
  | None => Err (ConfigParse "invalid checksum format")
  | Some stored =>
      let computed := compute_checksum f in
      if String.eqb stored computed then Ok ()
      else Err (ConfigParse ("snapshot integrity check failed for '" +:+ md_name (sn_metadata f) +:+ "': stored="
             +:+ stored +:+ " computed=" +:+ computed))
  end.

Definition capture (now : Z) (p : CaptureParams) : option SnapshotFile :=
  summary ← build_context_summary (message_history p);
  let f := snapshot_new
    {| md_name := make_name (cp_agent_name p) now; md_agent_name := cp_agent_name p; source_pid := cp_pid p;
       captured_at := now; captured_by := cp_captured_by p; md_trigger := cp_trigger p |}
    {| snap_goal := cp_goal p; context_summary := summary;
       context_token_count := Z.max (context_chars (message_history p) / 4) 1 mod (u32_max + 1);
       snap_memory := cp_memory p; pending_requests := cp_pending_requests p; snap_pipes := open_pipes p;
       environment := {| env_temperature := cp_temperature p;
         env_capability_token := ("sha256:" +:+ sha256_hex (str_join "," (cp_granted_tools p)))%string;
         env_granted_tools := cp_granted_tools p |};
       checksum := EmptyString |} in
  Some (with_checksum f ("sha256:" +:+ compute_checksum f)%string).

(** ** The in-memory store

    [order] is the iteration order of the map. *)

Inductive SnapshotError : Type := SnapshotNotFound (name : string) | SnapshotSerialization (e : string).
Notation SnapshotStore := (gmap string (list SnapshotFile)).
Variable order : SnapshotStore -> list string.

Definition named (name : string) (f : SnapshotFile) : Prop := md_name (sn_metadata f) = name.
#[global] Instance named_dec name f : Decision (named name f) := ltac:(unfold named; apply _).

Definition save (s : SnapshotStore) (f : SnapshotFile) : string * SnapshotStore :=
  let agent := md_agent_name (sn_metadata f) in
  (md_name (sn_metadata f), <[agent := default [] (s !! agent) ++ [f]]> s).
Fixpoint load_from (s : SnapshotStore) (agents : list string) (name : string) : result SnapshotError SnapshotFile :=
  match agents with
  | [] => Err (SnapshotNotFound name)
  | a :: rest =>
      match list_find (named name) (default [] (s !! a)) with
      | Some (_, f) => Ok f
      | None => load_from s rest name
      end
  end.
Definition load (s : SnapshotStore) (name : string) : result SnapshotError SnapshotFile := load_from s (order s) name.
Definition list_snapshots (s : SnapshotStore) (agent : string) : list SnapshotFile := default [] (s !! agent).
Fixpoint delete_from (s : SnapshotStore) (agents : list string) (name : string) : result SnapshotError SnapshotStore :=
  match agents with
  | [] => Err (SnapshotNotFound name)
  | a :: rest =>
      let l := default [] (s !! a) in
      match list_find (named name) l with
      | Some (pos, _) => Ok (<[a := take pos l ++ drop (S pos) l]> s)
      | None => delete_from s rest name
      end
  end.
Definition delete_snapshot (s : SnapshotStore) (name : string) : result SnapshotError SnapshotStore :=
  delete_from s (order s) name.
Definition snapshot_count (s : SnapshotStore) (agent : string) : nat := length (list_snapshots s agent).

(** ** Properties *)

Lemma with_checksum_twice f c d : with_checksum (with_checksum f c) d = with_checksum f d.
Proof. done. Qed.
Lemma compute_with_checksum f c : compute_checksum (with_checksum f c) = compute_checksum f.
Proof. done. Qed.

(** What [verify_checksum] accepts. *)
Lemma verify_iff f : verify_checksum f = Ok () <-> checksum (sn_spec f) = ("sha256:" +:+ compute_checksum f)%string.
Proof.
  unfold verify_checksum. split.
  - destruct (strip_prefix _ _) as [stored|] eqn:E; [|done]. cbn.
    destruct (String.eqb_spec stored (compute_checksum f)) as [->|]; [|done]. intros _.
    exact (strip_prefix_Some _ _ _ E).
  - intros ->. rewrite strip_prefix_app. cbv zeta. by rewrite String.eqb_refl.
Qed.

Lemma capture_verified now p f : capture now p = Some f -> verify_checksum f = Ok ().
Proof.
  unfold capture. destruct (build_context_summary _); [|done]. cbn [mbind option_bind].
  match goal with |- context [snapshot_new ?m ?s] => set (g := snapshot_new m s) end. clearbody g.
  intros [= <-]. apply verify_iff. by rewrite compute_with_checksum.
Qed.

(** Saving a snapshot makes it the last of its agent and leaves the others alone. *)
Lemma save_spec s f : (save s f).1 = md_name (sn_metadata f) /\
  forall a, list_snapshots (save s f).2 a =
    list_snapshots s a ++ (if decide (a = md_agent_name (sn_metadata f)) then [f] else []).
Proof.
  split; [done|]. intros a. unfold list_snapshots, save. cbn [snd]. case_decide as Ha.
  - subst a. by rewrite lookup_insert_eq.
  - by rewrite lookup_insert_ne, app_nil_r by done.
Qed.

(** Snapshots of one agent with one name: loading finds the oldest, whatever the order of the map. *)
Lemma load_oldest s name f :
  (forall a g, g ∈ list_snapshots s a -> named name g -> a = md_agent_name (sn_metadata f)) ->
  order s ≡ₚ elements (dom s) ->
  snd <$> list_find (named name) (list_snapshots s (md_agent_name (sn_metadata f))) = Some f ->
  load s name = Ok f.
Proof.
  set (a := md_agent_name (sn_metadata f)). intros Honly Ho Hf. unfold load.
  assert (a ∈ order s) as Ha.
  { rewrite Ho. apply elem_of_elements, elem_of_dom. revert Hf. unfold list_snapshots. by destruct (s !! a). }
  clear Ho. induction (order s) as [|b l IH]; [by apply elem_of_nil in Ha|]. cbn [load_from].
  change (default [] (s !! b)) with (list_snapshots s b).
  destruct (list_find (named name) (list_snapshots s b)) as [[i g]|] eqn:E.
  - pose proof E as E0. apply list_find_Some in E as (Hi & Hn & _). assert (b = a) as ->.
    { by eapply Honly; [eapply list_elem_of_lookup_2|]. }
    by rewrite E0 in Hf; injection Hf as ->.
  - apply IH. apply elem_of_cons in Ha as [->|]; [|done]. by rewrite E in Hf.
Qed.

End Capture.
