(* ===== verification/Llm.v ===== *)
(** * The language-model service: configuration, routing, usage and event streams

    Models [config/llm.rs] (the provider configuration and its validation), [llm_svc/routing.rs] (the choice
    of a provider), [llm_svc/health.rs] (one health check), [llm_svc/usage.rs] (the usage counters) and
    [llm_svc/sse.rs] (the line decoder of a server-sent event stream).

    The text of YAML and the answers of providers over HTTP are arguments.  A [HashMap] built from a list keeps
    the last of several entries with one key. *)

From Stdlib Require Import Floats.SpecFloat.
From S2P Require Import Prelude Floats Types Text.
Local Open Scope Z_scope.

(** ** Configuration *)

Record ModelConfig : Type := {
  mc_id : string; mc_modality : Modality.t; context_window : option Z; tier : string; mc_dimensions : option Z }.
Record ProviderLimits : Type := { requests_per_minute : Z; tokens_per_minute : Z }.
Record ProviderTimeout : Type := { connect_ms : Z; read_ms : Z }.
Record LlmRetryPolicy : Type := { lp_max_attempts : Z; backoff_ms : Z; retry_on : list Z }.
Record HealthCheckConfig : Type := { hc_enabled : bool; interval_sec : Z; hc_endpoint : string }.
Inductive ProviderAuth : Type :=
| ApiKey (secret_name header : string) (prefix : option string)
| Oauth2 (secret_name token_url client_id client_secret_name : string) (scopes : list string) (refresh_before_expiry_min : Z)
| NoAuth.
Record ProviderConfig : Type := {
  pc_name : string; base_url : string; modalities : list Modality.t; pc_auth : ProviderAuth; models : list ModelConfig;
  pc_limits : option ProviderLimits; pc_timeout : option ProviderTimeout; retry_policy : option LlmRetryPolicy;
  health_check : option HealthCheckConfig }.
Record DefaultProviders : Type := {
  dp_text : string; dp_image : string; dp_speech : string; dp_transcription : string; dp_embedding : string }.
Record LlmSpec : Type := { default_providers : DefaultProviders; spec_providers : list ProviderConfig }.
Record LlmConfig : Type := { llm_api_version : string; llm_kind : string; llm_spec : LlmSpec }.

Definition find_provider (cfg : LlmConfig) (name : string) : option ProviderConfig :=
  snd <$> list_find (fun p => pc_name p = name) (spec_providers (llm_spec cfg)).
Definition check_default (cfg : LlmConfig) (m : Modality.t) (name : string) : result AvixError () :=
  match find_provider cfg name with
  | None => Err (ConfigParse ("defaultProvider for " +:+ Modality.as_str m +:+ ": '" +:+ name +:+ "' not found in providers list"))
  | Some p =>
      if bool_decide (m ∈ modalities p) then Ok ()
      else Err (ConfigParse ("defaultProvider for " +:+ Modality.as_str m +:+ " is '" +:+ name
                             +:+ "' but that provider does not support that modality"))
  end%string.
Definition validate (cfg : LlmConfig) : result AvixError () :=
  let dp := default_providers (llm_spec cfg) in
  _ ← check_default cfg Modality.Text (dp_text dp);
  _ ← check_default cfg Modality.Image (dp_image dp);
  _ ← check_default cfg Modality.Speech (dp_speech dp);
  _ ← check_default cfg Modality.Transcription (dp_transcription dp);
  check_default cfg Modality.Embedding (dp_embedding dp).
Definition config_from_str (yaml : string -> result string LlmConfig) (s : string) : result AvixError LlmConfig :=
  cfg ← map_err ConfigParse (yaml s); _ ← validate cfg; Ok cfg.
Definition default_name (cfg : LlmConfig) (m : Modality.t) : string :=
  let dp := default_providers (llm_spec cfg) in
  match m with
  | Modality.Text => dp_text dp | Modality.Image => dp_image dp | Modality.Speech => dp_speech dp
  | Modality.Transcription => dp_transcription dp | Modality.Embedding => dp_embedding dp
  end.
Definition default_provider_for (cfg : LlmConfig) (m : Modality.t) : option ProviderConfig := find_provider cfg (default_name cfg m).

(** ** Routing *)

Inductive ProviderStatus : Type := Available | Degraded (reason : string) | Unavailable (reason : string).
Record RoutingEngine : Type := {
  defaults : gmap string string; providers : gmap string ProviderConfig; status : gmap string ProviderStatus;
  fallback_text : option string }.

Definition by_name (l : list ProviderConfig) : gmap string ProviderConfig := foldl (fun m p => <[pc_name p := p]> m) ∅ l.
Definition from_config (cfg : LlmConfig) : RoutingEngine := {|
  defaults := list_to_map ((fun m => (Modality.as_str m, default_name cfg m)) <$> Modality.all);
  providers := by_name (spec_providers (llm_spec cfg));
  status := (fun _ => Available) <$> by_name (spec_providers (llm_spec cfg));
  fallback_text := None |}.
Definition with_text_fallback (r : RoutingEngine) (fb : string) : RoutingEngine :=
  {| defaults := defaults r; providers := providers r; status := status r; fallback_text := Some fb |}.
Definition update_status (r : RoutingEngine) (provider : string) (s : ProviderStatus) : RoutingEngine :=
  {| defaults := defaults r; providers := providers r; status := <[provider := s]> (status r); fallback_text := fallback_text r |}.

Definition is_unavailable (r : RoutingEngine) (name : string) : bool :=
  match status r !! name with Some (Unavailable _) => true | _ => false end.
Definition text_fallback (r : RoutingEngine) (m : Modality.t) : option ProviderConfig :=
  if decide (m = Modality.Text) then
    fb ← fallback_text r; p ← providers r !! fb; if is_unavailable r fb then None else Some p
  else None.
Definition resolve (r : RoutingEngine) (m : Modality.t) (explicit : option string) : result AvixError ProviderConfig :=
  name ← match explicit with
         | Some n => Ok n
         | None => ok_or (NoProviderAvailable (Modality.as_str m)) (defaults r !! Modality.as_str m)
         end;
  p ← ok_or (ConfigParse ("provider not found: " +:+ name)%string) (providers r !! name);
  if negb (bool_decide (m ∈ modalities p)) then
    Err (ConfigParse ("provider '" +:+ name +:+ "' does not support modality '" +:+ Modality.as_str m +:+ "'")%string)
  else if is_unavailable r name then
    match text_fallback r m with
    | Some fb => Ok fb
    | None => Err (NoProviderAvailable (name +:+ ": provider is unavailable")%string)
    end
  else Ok p.

(** One round of the health loop: the answer to the request is [Ok status], shown as [shown], or an error. *)
Record HealthCheckSpec : Type := { provider_name : string; h_base_url : string; endpoint : string; h_interval_sec : Z }.
Definition health_url (s : HealthCheckSpec) : string := (trim_end_matches "/" (h_base_url s) +:+ endpoint s)%string.
Definition health_round (shown : Z -> string) (s : HealthCheckSpec) (answer : result string Z) (r : RoutingEngine) : RoutingEngine :=
  update_status r (provider_name s)
    (match answer with
     | Ok code => if bool_decide (200 <= code < 300) then Available else Degraded ("HTTP " +:+ shown code)%string
     | Err e => Unavailable e
     end).

(** ** Usage *)

(** [a += b] on [u64]: [None] is the panic of a build with overflow checks, without them it wraps. *)
Definition u64_add (checks : bool) (a b : Z) : option Z :=
  if checks then u64_checked_add a b else Some ((a + b) mod (u64_max + 1)).

Record TextUsage : Type := { tu_input : Z; tu_output : Z; tu_requests : Z; tu_errors : Z }.
Record ImageUsage : Type := { iu_requests : Z; iu_errors : Z }.
Record SpeechUsage : Type := { su_chars : Z; su_requests : Z; su_errors : Z }.
Record TranscriptionUsage : Type := { au_seconds : f64; au_requests : Z; au_errors : Z }.
Record EmbeddingUsage : Type := { eu_input : Z; eu_requests : Z; eu_errors : Z }.
Record ProviderUsage : Type := {
  u_text : TextUsage; u_image : ImageUsage; u_speech : SpeechUsage; u_transcription : TranscriptionUsage;
  u_embedding : EmbeddingUsage }.
Definition usage_default : ProviderUsage := {|
  u_text := {| tu_input := 0; tu_output := 0; tu_requests := 0; tu_errors := 0 |};
  u_image := {| iu_requests := 0; iu_errors := 0 |};
  u_speech := {| su_chars := 0; su_requests := 0; su_errors := 0 |};
  u_transcription := {| au_seconds := S754_zero false; au_requests := 0; au_errors := 0 |};
  u_embedding := {| eu_input := 0; eu_requests := 0; eu_errors := 0 |} |}.
Definition UsageTracker : Type := gmap string ProviderUsage.

Definition with_text u x := {| u_text := x; u_image := u_image u; u_speech := u_speech u; u_transcription := u_transcription u; u_embedding := u_embedding u |}.
Definition with_image u x := {| u_text := u_text u; u_image := x; u_speech := u_speech u; u_transcription := u_transcription u; u_embedding := u_embedding u |}.
Definition with_speech u x := {| u_text := u_text u; u_image := u_image u; u_speech := x; u_transcription := u_transcription u; u_embedding := u_embedding u |}.
Definition with_transcription u x := {| u_text := u_text u; u_image := u_image u; u_speech := u_speech u; u_transcription := x; u_embedding := u_embedding u |}.
Definition with_embedding u x := {| u_text := u_text u; u_image := u_image u; u_speech := u_speech u; u_transcription := u_transcription u; u_embedding := x |}.

Section Usage.
Variable checks : bool.
Local Notation add := (u64_add checks).

(** [map.entry(provider).or_default()], changed by [f]. *)
Definition on_entry (t : UsageTracker) (provider : string) (f : ProviderUsage -> option ProviderUsage) : option UsageTracker :=
  u ← f (default usage_default (t !! provider)); Some (<[provider := u]> t).

Definition record_text (t : UsageTracker) (p : string) (input output : Z) : option UsageTracker :=
  on_entry t p (fun u =>
    i ← add (tu_input (u_text u)) input; o ← add (tu_output (u_text u)) output; r ← add (tu_requests (u_text u)) 1;
    Some (with_text u {| tu_input := i; tu_output := o; tu_requests := r; tu_errors := tu_errors (u_text u) |})).
Definition record_text_error (t : UsageTracker) (p : string) : option UsageTracker :=
  on_entry t p (fun u =>
    e ← add (tu_errors (u_text u)) 1;
    Some (with_text u {| tu_input := tu_input (u_text u); tu_output := tu_output (u_text u); tu_requests := tu_requests (u_text u); tu_errors := e |})).
Definition record_image (t : UsageTracker) (p : string) : option UsageTracker :=
  on_entry t p (fun u => r ← add (iu_requests (u_image u)) 1;
    Some (with_image u {| iu_requests := r; iu_errors := iu_errors (u_image u) |})).
Definition record_image_error (t : UsageTracker) (p : string) : option UsageTracker :=
  on_entry t p (fun u => e ← add (iu_errors (u_image u)) 1;
    Some (with_image u {| iu_requests := iu_requests (u_image u); iu_errors := e |})).
Definition record_speech (t : UsageTracker) (p : string) (chars : Z) : option UsageTracker :=
  on_entry t p (fun u => c ← add (su_chars (u_speech u)) chars; r ← add (su_requests (u_speech u)) 1;
    Some (with_speech u {| su_chars := c; su_requests := r; su_errors := su_errors (u_speech u) |})).
Definition record_speech_error (t : UsageTracker) (p : string) : option UsageTracker :=
  on_entry t p (fun u => e ← add (su_errors (u_speech u)) 1;
    Some (with_speech u {| su_chars := su_chars (u_speech u); su_requests := su_requests (u_speech u); su_errors := e |})).
Definition record_transcription (t : UsageTracker) (p : string) (audio_sec : f64) : option UsageTracker :=
  on_entry t p (fun u => r ← add (au_requests (u_transcription u)) 1;
    Some (with_transcription u {| au_seconds := SFadd 53 1024 (au_seconds (u_transcription u)) audio_sec;
      au_requests := r; au_errors := au_errors (u_transcription u) |})).
Definition record_transcription_error (t : UsageTracker) (p : string) : option UsageTracker :=
  on_entry t p (fun u => e ← add (au_errors (u_transcription u)) 1;
    Some (with_transcription u {| au_seconds := au_seconds (u_transcription u); au_requests := au_requests (u_transcription u); au_errors := e |})).
Definition record_embedding (t : UsageTracker) (p : string) (input : Z) : option UsageTracker :=
  on_entry t p (fun u => i ← add (eu_input (u_embedding u)) input; r ← add (eu_requests (u_embedding u)) 1;
    Some (with_embedding u {| eu_input := i; eu_requests := r; eu_errors := eu_errors (u_embedding u) |})).
Definition record_embedding_error (t : UsageTracker) (p : string) : option UsageTracker :=
  on_entry t p (fun u => e ← add (eu_errors (u_embedding u)) 1;
    Some (with_embedding u {| eu_input := eu_input (u_embedding u); eu_requests := eu_requests (u_embedding u); eu_errors := e |})).
End Usage.

(** ** Server-sent events *)

Inductive SseLine : Type := SseEvent (name : string) | SseData (payload : string) | SseDone.
Definition parse_line (line : string) : option SseLine :=
  let line := trim_end_matches "013" line in
  if String.eqb line EmptyString || starts_with ":" line then None
  else match strip_prefix "data: " line with
       | Some rest =>
           if String.eqb rest "[DONE]" then Some SseDone
           else if negb (String.eqb rest EmptyString) then Some (SseData rest)
           else None
       | None => SseEvent <$> strip_prefix "event: " line
       end.

(** The loop over the complete lines of the buffer, one unit of fuel per line. *)
Fixpoint drain_lines (fuel : nat) (buf : string) : list SseLine * string :=
  match fuel with
  | O => ([], buf)
  | S fuel =>
      match split_once "010" buf with
      | None => ([], buf)
      | Some (line, rest) =>
          let '(out, buf) := drain_lines fuel rest in
          (match parse_line (trim_end_matches "013" line) with Some x => x :: out | None => out end, buf)
      end
  end.
(** One chunk of the byte stream; a buffer of [n] bytes holds at most [n] lines. *)
Definition sse_chunk (buf : string) (chunk : result string string) : list (result string SseLine) * string :=
  match chunk with
  | Err e => ([Err ("SSE read error: " +:+ e)%string], buf)
  | Ok bytes =>
      let buf := (buf +:+ from_utf8_lossy bytes)%string in
      let '(out, buf) := drain_lines (String.length buf) buf in (Ok <$> out, buf)
  end.
Fixpoint sse_lines (buf : string) (chunks : list (result string string)) : list (result string SseLine) :=
  match chunks with
  | [] => []
  | c :: cs => let '(out, buf) := sse_chunk buf c in out ++ sse_lines buf cs
  end.

(** ** The decoder does not depend on how the bytes arrive *)

(** The complete lines of a text, and what follows the last of them. *)
Fixpoint lines_of (cur s : string) : list string * string :=
  match s with
  | EmptyString => ([], cur)
  | String c t =>
      if decide (c = "010"%char) then let '(ls, r) := lines_of EmptyString t in (cur :: ls, r)
      else lines_of (cur +:+ String c EmptyString)%string t
  end.
Definition sse_of (line : string) : option SseLine := parse_line (trim_end_matches "013" line).
Definition str_concat (l : list string) : string := foldr String.append EmptyString l.

Lemma lines_of_app a b : forall cur,
  lines_of cur (a +:+ b) = ((lines_of cur a).1 ++ (lines_of (lines_of cur a).2 b).1, (lines_of (lines_of cur a).2 b).2).
Proof.
  induction a as [|c a IH]; intros cur; cbn; [by destruct (lines_of cur b)|]. case_decide; [|apply IH].
  rewrite IH. by destruct (lines_of EmptyString a).
Qed.
Lemma lines_of_line l : str_contains_char "010" l = false -> forall cur, lines_of cur l = ([], (cur +:+ l)%string).
Proof.
  induction l as [|c l IH]; intros Hl cur; cbn in *; [by rewrite str_app_nil_r|].
  apply orb_false_iff in Hl as [Hc%bool_decide_eq_false Hl]. rewrite decide_False by congruence.
  rewrite IH by done. by rewrite str_app_assoc.
Qed.
Lemma rest_has_no_newline s : forall cur, str_contains_char "010" cur = false -> str_contains_char "010" (lines_of cur s).2 = false.
Proof.
  induction s as [|c s IH]; intros cur Hc; cbn; [done|]. case_decide as Hd.
  - specialize (IH EmptyString eq_refl). by destruct (lines_of EmptyString s).
  - apply IH. revert Hc. induction cur as [|d cur IHc]; cbn; [intros _; rewrite orb_false_r; apply bool_decide_eq_false; congruence|].
    intros [-> ?]%orb_false_iff. cbn. by apply IHc.
Qed.
Lemma no_newline c s : split_once c s = None -> str_contains_char c s = false.
Proof.
  induction s as [|d s IH]; cbn; [done|]. case_decide; [done|]. destruct (split_once c s) as [[]|]; [done|].
  intros _. by rewrite bool_decide_eq_false_2, IH by done.
Qed.

Lemma drain_lines_spec : forall fuel buf, (String.length buf <= fuel)%nat ->
  drain_lines fuel buf = (omap sse_of (lines_of EmptyString buf).1, (lines_of EmptyString buf).2).
Proof.
  induction fuel as [|fuel IH]; intros buf Hf; [by destruct buf; [|cbn in Hf; lia]|]. cbn [drain_lines].
  destruct (split_once _ buf) as [[line rest]|] eqn:E; [|apply no_newline in E; by rewrite lines_of_line].
  apply split_once_spec in E as [-> Hl]. rewrite str_length_app in Hf. cbn in Hf. rewrite IH by lia.
  rewrite lines_of_app, (lines_of_line line Hl). cbn [lines_of fst snd app]. rewrite decide_True by done.
  destruct (lines_of EmptyString rest) as [ls r]. cbn. fold (sse_of line). by destruct (sse_of line).
Qed.

Lemma sse_lines_from : forall chunks buf, Forall (fun c => is_utf8 c = true) chunks -> str_contains_char "010" buf = false ->
  sse_lines buf (Ok <$> chunks) = Ok <$> omap sse_of (lines_of buf (str_concat chunks)).1.
Proof.
  induction chunks as [|c chunks IH]; intros buf F Hb; [done|]. apply Forall_cons in F as [Hc F].
  cbn [fmap list_fmap sse_lines sse_chunk str_concat foldr]. rewrite from_utf8_lossy_valid by done.
  rewrite drain_lines_spec by lia. rewrite lines_of_app, (lines_of_line buf Hb). cbn [fst snd app str_app_nil_r].
  change (EmptyString +:+ buf)%string with buf. rewrite IH; [|done|by apply rest_has_no_newline].
  rewrite lines_of_app. cbn [fst]. rewrite omap_app, fmap_app. done.
Qed.

(** C31: However a stream of valid text is cut into chunks at character boundaries, the decoder yields exactly the events
    of its complete lines, in order: no partial line, none twice, none lost. *)
Theorem sse_chunking chunks : Forall (fun c => is_utf8 c = true) chunks ->
  sse_lines EmptyString (Ok <$> chunks) = Ok <$> omap sse_of (lines_of EmptyString (str_concat chunks)).1.
Proof. intros F. by apply sse_lines_from. Qed.

(** ** Routing *)

Lemma by_name_spec l : NoDup (pc_name <$> l) -> forall m name,
  (foldl (fun m p => <[pc_name p := p]> m) m l : gmap string ProviderConfig) !! name =
  match list_find (fun p => pc_name p = name) l with Some (_, p) => Some p | None => m !! name end.
Proof.
  induction l as [|p l IH]; intros N m name; [done|]. apply NoDup_cons in N as [Hp N]. cbn [foldl]. rewrite IH by done. cbn.
  destruct (decide (pc_name p = name)) as [<-|Hne].
  - destruct (list_find _ l) as [[i q]|] eqn:E; [|by rewrite lookup_insert_eq].
    apply list_find_Some in E as (Hi & Hq & _). destruct Hp. rewrite <-Hq. apply list_elem_of_fmap_2. by eapply list_elem_of_lookup_2.
  - rewrite lookup_insert_ne by done. by destruct (list_find _ l) as [[]|].
Qed.

(** The engine of a configuration, after any health updates. *)
Definition updated (r : RoutingEngine) (us : list (string * ProviderStatus)) : RoutingEngine :=
  foldl (fun r u => update_status r u.1 u.2) r us.
Lemma updated_fields us : forall r, defaults (updated r us) = defaults r /\ providers (updated r us) = providers r /\
  fallback_text (updated r us) = fallback_text r.
Proof. induction us as [|u us IH]; intros r; [done|]. cbn. specialize (IH (update_status r u.1 u.2)). done. Qed.

Lemma engine_providers cfg name : NoDup (pc_name <$> spec_providers (llm_spec cfg)) ->
  providers (from_config cfg) !! name = find_provider cfg name.
Proof.
  intros N. cbn. unfold by_name. rewrite by_name_spec, lookup_empty by done. unfold find_provider.
  by destruct (list_find _ _) as [[]|].
Qed.

Lemma valid_default cfg m : validate cfg = Ok () ->
  exists p, default_provider_for cfg m = Some p /\ pc_name p = default_name cfg m /\ m ∈ modalities p.
Proof.
  intros V. assert (check_default cfg m (default_name cfg m) = Ok ()) as C.
  { unfold validate in V. apply bind_Ok_inv in V as ([] & A & V). apply bind_Ok_inv in V as ([] & B & V).
    apply bind_Ok_inv in V as ([] & C & V). apply bind_Ok_inv in V as ([] & D & V). by destruct m. }
  unfold check_default in C. unfold default_provider_for. destruct (find_provider _ _) as [p|] eqn:E; [|done].
  case_bool_decide; [|done]. exists p. split_and!; try done. unfold find_provider in E.
  destruct (list_find _ _) as [[i q]|] eqn:E'; [|done]. cbn in E. injection E as <-. by apply list_find_Some in E' as (_ & ? & _).
Qed.

Lemma engine_defaults cfg m : defaults (from_config cfg) !! Modality.as_str m = Some (default_name cfg m).
Proof. by destruct m. Qed.

(** A configuration that validates, with distinct provider names, routes every request without an explicit provider:
    to the configured default, which supports the modality, for as long as that provider is not marked unavailable by
    a health check; then the request is refused, or served by the text fallback when there is one that is
    available.  A named provider is used exactly when it is configured, supports the modality and is not
    unavailable; in every case the provider returned is a configured one that is not unavailable. *)
Theorem routing_correct cfg us fb m :
  validate cfg = Ok () -> NoDup (pc_name <$> spec_providers (llm_spec cfg)) ->
  let r0 := from_config cfg in
  let r := updated (match fb with Some f => with_text_fallback r0 f | None => r0 end) us in
  (exists p, default_provider_for cfg m = Some p /\ m ∈ modalities p /\
     resolve r m None = if is_unavailable r (default_name cfg m)
                        then (match text_fallback r m with
                              | Some q => Ok q
                              | None => Err (NoProviderAvailable (default_name cfg m +:+ ": provider is unavailable"))
                              end)
                        else Ok p) /\
  (forall n p, is_unavailable r n = false ->
     resolve r m (Some n) = Ok p <-> find_provider cfg n = Some p /\ m ∈ modalities p) /\
  (forall e p, resolve r m e = Ok p -> exists n, find_provider cfg n = Some p /\ is_unavailable r n = false).
Proof.
  intros V N r0 r. destruct (updated_fields us (match fb with Some f => with_text_fallback r0 f | None => r0 end)) as (Ed & Ep & Ef).
  assert (defaults r = defaults r0 /\ providers r = providers r0) as [Ed' Ep'] by (unfold r; rewrite Ed, Ep; by destruct fb).
  assert (forall n, providers r !! n = find_provider cfg n) as P by (intros n; rewrite Ep'; by apply engine_providers).
  split_and!.
  - destruct (valid_default cfg m V) as (p & D & Hn & Hm). exists p. split_and!; try done.
    unfold resolve. rewrite Ed'. unfold r0 at 1. rewrite engine_defaults. cbn [ok_or mbind result_bind]. rewrite P.
    change (find_provider cfg (default_name cfg m)) with (default_provider_for cfg m). rewrite D. cbn [ok_or mbind result_bind].
    by rewrite bool_decide_eq_true_2.
  - intros n p U. unfold resolve. cbn [mbind result_bind]. rewrite P.
    destruct (find_provider cfg n) as [q|]; [|naive_solver]. cbn [ok_or mbind result_bind]. rewrite U.
    case_bool_decide; cbn [negb]; naive_solver.
  - intros e p E. unfold resolve in E. apply bind_Ok_inv in E as (n & _ & E). apply bind_Ok_inv in E as (q & Hq & E).
    apply ok_or_Ok in Hq. case_bool_decide; [|done]. cbn [negb] in E. destruct (is_unavailable r n) eqn:U.
    + unfold text_fallback in E. case_decide; [|done]. destruct (fallback_text r) as [f|]; [|done]. cbn in E.
      destruct (providers r !! f) as [q'|] eqn:Eq; [|done]. cbn in E. destruct (is_unavailable r f) eqn:Uf; [done|].
      injection E as <-. exists f. by rewrite <-P.
    + injection E as <-. exists n. by rewrite <-P.
Qed.

(** ** Usage *)

(** What the text counters of a provider should hold after a list of completions [(provider, input, output)]. *)
Definition text_total (f : string * Z * Z -> Z) (p : string) (l : list (string * Z * Z)) : Z :=
  foldr Z.add 0 (f <$> base.filter (fun x => x.1.1 = p) l).
Definition record_all (checks : bool) (t : UsageTracker) (l : list (string * Z * Z)) : option UsageTracker :=
  foldl (fun t x => t ← t; record_text checks t x.1.1 x.1.2 x.2) (Some t) l.
Definition text_of (t : UsageTracker) (p : string) : TextUsage := u_text (default usage_default (t !! p)).

Lemma text_total_nonneg f p l : Forall (fun x => 0 <= f x) l -> 0 <= text_total f p l.
Proof.
  intros F. unfold text_total. induction F as [|x l Hx F IH]; [done|]. rewrite filter_cons. case_decide; cbn; [|done].
  cbn in IH. lia.
Qed.
Lemma text_total_cons f p x l : text_total f p (x :: l) = (if decide (x.1.1 = p) then f x else 0) + text_total f p l.
Proof. unfold text_total. rewrite filter_cons. by case_decide. Qed.

(** As long as the totals fit in 64 bits no counter overflows, and every provider's counters are the sums over its
    completions: their order, and those of other providers, do not matter. *)
Theorem usage_exact checks l : forall t,
  Forall (fun x => 0 <= x.1.2 /\ 0 <= x.2) l ->
  (forall p, 0 <= tu_input (text_of t p) /\ tu_input (text_of t p) + text_total (fun x => x.1.2) p l <= u64_max /\
             0 <= tu_output (text_of t p) /\ tu_output (text_of t p) + text_total snd p l <= u64_max /\
             0 <= tu_requests (text_of t p) /\ tu_requests (text_of t p) + text_total (fun _ => 1) p l <= u64_max) ->
  exists t', record_all checks t l = Some t' /\
    forall p, text_of t' p = {| tu_input := tu_input (text_of t p) + text_total (fun x => x.1.2) p l;
                                tu_output := tu_output (text_of t p) + text_total snd p l;
                                tu_requests := tu_requests (text_of t p) + text_total (fun _ => 1) p l;
                                tu_errors := tu_errors (text_of t p) |}.
Proof.
  assert (forall a b, 0 <= a -> 0 <= b -> a + b <= u64_max -> u64_add checks a b = Some (a + b)) as A.
  { intros a b Ha Hb Hs. unfold u64_add, u64_checked_add. destruct checks; [rewrite decide_True; [done|machine]|].
    rewrite Z.mod_small by lia. done. }
  induction l as [|[[q i] o] l IH]; intros t F B.
  { exists t. split; [done|]. intros p. unfold text_total. cbn. rewrite !Z.add_0_r. by destruct (text_of t p). }
  apply Forall_cons in F as [[Hi Ho] F]. cbn in Hi, Ho.
  assert (forall p, 0 <= text_total (fun x => x.1.2) p l /\ 0 <= text_total snd p l /\ 0 <= text_total (fun _ => 1) p l) as T.
  { intros p. split_and!; apply text_total_nonneg; eapply Forall_impl; try exact F; cbn; intros ? []; lia. }
  unfold record_all. cbn [foldl mbind option_bind fst snd]. unfold record_text at 2, on_entry.
  destruct (T q) as (T1 & T2 & T3). specialize (B q) as Bq. rewrite !text_total_cons in Bq. cbn [fst snd] in Bq. rewrite !decide_True in Bq by done.
  fold (text_of t q). rewrite !A by lia. cbn [mbind option_bind].
  set (t1 := <[q := _]> t).
  assert (forall p, text_of t1 p = if decide (q = p) then {| tu_input := tu_input (text_of t p) + i; tu_output := tu_output (text_of t p) + o;
    tu_requests := tu_requests (text_of t p) + 1; tu_errors := tu_errors (text_of t p) |} else text_of t p) as E1.
  { intros p. unfold text_of at 1, t1, UsageTracker. case_decide as Hd; [subst p; by rewrite lookup_insert_eq|by rewrite lookup_insert_ne]. }
  destruct (IH t1 F) as (t' & Et & Es).
  - intros p. specialize (B p). rewrite !text_total_cons in B. cbn [fst snd] in B. rewrite E1. case_decide; cbn; lia.
  - exists t'. split; [exact Et|]. intros p. rewrite Es, E1, !text_total_cons. cbn [fst snd]. case_decide; cbn; [|by destruct (text_of t p)].
    f_equal; lia.
Qed.

(** ** Two providers *)

Module Toy.
Definition provider (n : string) (ms : list Modality.t) : ProviderConfig := {|
  pc_name := n; base_url := "https://" +:+ n; modalities := ms; pc_auth := NoAuth; models := []; pc_limits := None;
  pc_timeout := None; retry_policy := None; health_check := None |}.
Definition config : LlmConfig := {| llm_api_version := "avix/v1"; llm_kind := "LlmConfig"; llm_spec := {|
  default_providers := {| dp_text := "a"; dp_image := "b"; dp_speech := "b"; dp_transcription := "b"; dp_embedding := "b" |};
  spec_providers := [provider "a" [Modality.Text]; provider "b" [Modality.Image; Modality.Speech; Modality.Transcription; Modality.Embedding]] |} |}.

(** The text provider is down and the fallback is one that serves no text. *)
Lemma routing_correct_witness :
  let r := updated (with_text_fallback (from_config config) "b") [("a", Unavailable "timeout")]%string in
  exists p, default_provider_for config Modality.Text = Some p /\ Modality.Text ∈ modalities p /\
    resolve r Modality.Text None = Ok (provider "b" [Modality.Image; Modality.Speech; Modality.Transcription; Modality.Embedding]).
Proof.
  cbv zeta.
  assert (NoDup (pc_name <$> spec_providers (llm_spec config))) as N by (apply (bool_decide_unpack _); vm_compute; exact I).
  destruct (routing_correct config [("a", Unavailable "timeout")]%string (Some "b"%string) Modality.Text eq_refl N) as [(p & D & Hm & E) _].
  exists p. split; [exact D|]. split; [exact Hm|]. cbv zeta in E. rewrite E. vm_compute. reflexivity.
Defined.

Definition lf : string := String "010" EmptyString.
(** Cut inside a line. *)
Lemma sse_chunking_witness :
  sse_lines EmptyString (Ok <$> ["event: a" +:+ lf +:+ "da"; "ta: {}" +:+ lf +:+ lf; "data: [DO"; "NE]" +:+ lf; "rest"]%string)
  = [Ok (SseEvent "a"); Ok (SseData "{}"); Ok SseDone].
Proof.
  rewrite sse_chunking; [vm_compute; reflexivity|].
  repeat (apply Forall_cons; split; [vm_compute; reflexivity|]). apply Forall_nil. exact I.
Defined.

Lemma usage_exact_witness : exists t, record_all true ∅ [("a", 10, 5); ("b", 1, 1); ("a", 2, 3)]%string = Some t /\
  text_of t "a" = {| tu_input := 12; tu_output := 8; tu_requests := 2; tu_errors := 0 |}.
Proof.
  destruct (usage_exact true [("a", 10, 5); ("b", 1, 1); ("a", 2, 3)]%string ∅) as (t & E & T).
  - repeat (apply Forall_cons; split; [cbn; lia|]). apply Forall_nil. exact I.
  - intros p. unfold text_of, UsageTracker. rewrite lookup_empty. rewrite !text_total_cons. cbn [fst snd]. unfold text_total. cbn. unfold u64_max.
    repeat case_decide; lia.
  - exists t. split; [exact E|]. rewrite (T "a"%string). vm_compute. reflexivity.
Defined.
End Toy.
