(* ===== verification/ExecTools.v ===== *)
(** * What an executor may call and what it tells the model

    Models the parts of [executor/] that do not touch the executor's own state: the tool-call gate and the
    per-tool budgets ([validation.rs]), the tool list sent with every request ([tool_manager.rs],
    [tool_registration.rs]), the reading of a model's answer ([stop_reason.rs]), the system prompt
    ([prompt.rs]) and the types of [llm_client/mod.rs]. *)

From S2P Require Import Prelude Types Token Json Text Vfs ToolRegistry Ipc Store.
Import Types.Tool.
Local Open Scope Z_scope.

Definition str_or (d : string) (j : json) : string := default d (as_str j).
Definition is_null (j : json) : bool := match j with JNull => true | _ => false end.

(** ** The language model's side ([llm_client/mod.rs]) *)

Inductive StopReason : Type := EndTurn | ToolUse | MaxTokens | StopSequence.
#[global] Instance StopReason_eq_dec : EqDecision StopReason.
Proof. solve_decision. Defined.
Definition stop_reason_from_str (s : string) : result AvixError StopReason :=
  if String.eqb s "end_turn" then Ok EndTurn
  else if String.eqb s "tool_use" then Ok ToolUse
  else if String.eqb s "max_tokens" then Ok MaxTokens
  else if String.eqb s "stop_sequence" then Ok StopSequence
  else Err (ConfigParse ("unknown stop reason: " +:+ s)).

Inductive StreamChunk : Type :=
| TextDelta (text : string)
| ToolCallStart (call_id name : string)
| ToolCallArgsDelta (call_id args_delta : string)
| ToolCallComplete (call_id : string)
| Done (stop_reason : StopReason) (input_tokens output_tokens : Z).

Record LlmCompleteRequest : Type := {
  lr_model : string; lr_messages : list json; lr_tools : list json; lr_system : option string;
  lr_max_tokens : Z; lr_turn_id : string
}.
Record LlmCompleteResponse : Type := {
  rsp_content : list json; rsp_stop_reason : StopReason; rsp_input_tokens : Z; rsp_output_tokens : Z
}.
(** [u32 + u32]: [None] is the panic of a debug build; a release build wraps. *)
Definition total_tokens (overflow_checks : bool) (r : LlmCompleteResponse) : option Z :=
  if overflow_checks then u32_checked_add (rsp_input_tokens r) (rsp_output_tokens r)
  else Some (u32_wrapping_add (rsp_input_tokens r) (rsp_output_tokens r)).

(** ** [stop_reason.rs] *)

Inductive TurnAction : Type :=
| ReturnResult (text : string)
| DispatchTools (calls : list AvixToolCall)
| SummariseContext.

(** The text blocks of an answer, joined. *)
Definition answer_text (content : list json) : string :=
  str_join EmptyString (omap (fun c => as_str (jindex c "text")) content).
Definition is_tool_use (c : json) : bool :=
  match jindex c "type" with JStr s => String.eqb s "tool_use" | _ => false end.
Definition call_of (c : json) : AvixToolCall :=
  let mangled := str_or EmptyString (jindex c "name") in
  {| call_id := str_or EmptyString (jindex c "id");
     Ipc.name := match ToolName.unmangle mangled with Ok n => n | Err _ => Mangle.replace_dunder mangled end;
     Ipc.args := jindex c "input" |}.
Definition tool_uses (content : list json) : list json := base.filter (fun c => is_tool_use c = true) content.

Definition interpret_stop_reason (r : LlmCompleteResponse) : TurnAction :=
  match rsp_stop_reason r with
  | EndTurn | StopSequence => ReturnResult (answer_text (rsp_content r))
  | ToolUse => DispatchTools (call_of <$> tool_uses (rsp_content r))
  | MaxTokens => SummariseContext
  end.

(** ** [validation.rs] *)

Definition ALWAYS_PRESENT : list string :=
  ["cap/request-tool"; "cap/escalate"; "cap/list"; "job/watch"; "sys/tools"]%string.

Notation ToolBudgets := (gmap string Z).
Definition budget_set (b : ToolBudgets) (tool : string) (n : Z) : ToolBudgets := <[tool := n]> b.
Definition remaining (b : ToolBudgets) (tool : string) : option Z := b !! tool.
Definition decrement (b : ToolBudgets) (tool : string) : ToolBudgets := alter (fun n => saturating_sub n 1) tool b.

(** The budgets after the check on success. *)
Definition validate_tool_call (now : Z) (token : CapabilityToken) (c : AvixToolCall) (b : ToolBudgets)
    : result AvixError ToolBudgets :=
  if is_expired now token then Err (CapabilityDenied "capability token has expired")
  else if negb (bool_decide (granted_tools token = [])) && negb (has_tool token (Ipc.name c))
          && negb (list_contains (Ipc.name c) ALWAYS_PRESENT)
  then Err (CapabilityDenied ("Tool not granted: " +:+ Ipc.name c))
  else match remaining b (Ipc.name c) with
  | Some n =>
      if decide (n = 0) then Err (CapabilityDenied ("budget exhausted for tool: " +:+ Ipc.name c))
      else Ok (decrement b (Ipc.name c))
  | None => Ok b
  end.

(** What the gate lets a token call. *)
Definition permitted (token : CapabilityToken) (tool : string) : Prop :=
  granted_tools token = [] \/ tool ∈ granted_tools token \/ tool ∈ ALWAYS_PRESENT.
(** The budget a tool has left, [None] without a limit, and what one call takes from it. *)
Definition spend (o : option Z) : option Z := (fun n => n - 1) <$> o.

Lemma validate_ok now token c b b' : validate_tool_call now token c b = Ok b' ->
  now <= expires_at token /\ permitted token (Ipc.name c) /\ b !! Ipc.name c <> Some 0 /\
  (map_Forall (fun _ n => 0 <= n) b -> map_Forall (fun _ n => 0 <= n) b' /\ b' = alter (fun n => n - 1) (Ipc.name c) b).
Proof.
  unfold validate_tool_call, is_expired. case_bool_decide as Hx; [done|]. intros H. split; [lia|].
  destruct (_ && _ && _) eqn:Hg; [done|]. split.
  { unfold permitted. case_bool_decide as He; [by left|]. right.
    rewrite !andb_false_iff, !negb_false_iff, has_tool_elem in Hg. unfold list_contains in Hg. rewrite bool_decide_eq_true in Hg.
    destruct Hg as [[?|?]|?]; [done|by left|by right]. }
  unfold remaining, decrement in H. destruct (b !! Ipc.name c) as [n|] eqn:E.
  - case_decide as H0; [done|]. injection H as <-. split; [congruence|]. intros Hb.
    assert (0 <= n) as Hn by (exact (map_Forall_lookup_1 _ _ _ _ Hb E)).
    assert (alter (fun n => saturating_sub n 1) (Ipc.name c) b = alter (fun n => n - 1) (Ipc.name c) b) as ->.
    { apply map_eq. intros i. rewrite !lookup_alter. case_decide as Hi; [|done]. subst i. rewrite E. cbn. f_equal.
      unfold saturating_sub. lia. }
    split; [|done]. intros i m. rewrite lookup_alter. case_decide as Hi; [|by apply Hb].
    subst i. rewrite E. intros [= <-]. lia.
  - injection H as <-. split; [done|]. intros Hb. split; [done|]. symmetry. apply alter_id. intros ? Hx'. congruence.
Qed.

(** ** [tool_registration.rs] *)

(** [retain(|x| seen.insert(x))]: the first of each name. *)
Fixpoint dedup_names (seen : list string) (l : list (string * ToolVisibility)) : list (string * ToolVisibility) :=
  match l with
  | [] => []
  | (n, v) :: l' => if list_contains n seen then dedup_names seen l' else (n, v) :: dedup_names (n :: seen) l'
  end.
Definition compute_cat2_tools (token : CapabilityToken) (username : string) : list (string * ToolVisibility) :=
  let m := CapabilityToolMap.default_map in
  dedup_names [] ((fun n => (n, User username)) <$>
    (CapabilityToolMap.always_present m
     ++ base.filter (fun n => has_tool token n = true) (CapabilityToolMap.all_gated_cat2_tools m))).

Definition prop_schema (p : string * (string * string)) : string * json :=
  (p.1, JObj [("type", JStr p.2.1); ("description", JStr p.2.2)]%string).
Definition descriptor_json (name desc : string) (props : list (string * (string * string))) (required : list string) : json :=
  JObj [("name", JStr name); ("description", JStr desc);
        ("input_schema", JObj [("type", JStr "object"); ("properties", JObj (prop_schema <$> props));
                               ("required", jstrs required)])]%string.

Definition cat2_descriptors : list (string * (string * list (string * (string * string)) * list string)) := [
  ("cap/request-tool",
   ("Request access to a tool not currently in the agent's CapabilityToken. This triggers a HIL capability_upgrade event.",
    [("tool", ("string", "Name of the tool to request")); ("reason", ("string", "Why the agent needs this tool"));
     ("urgency", ("string", "Urgency level: low | medium | high"))], ["tool"; "reason"; "urgency"]));
  ("cap/escalate",
   ("Proactively ask a human for guidance when the agent is uncertain how to proceed.",
    [("reason", ("string", "Situation description")); ("context", ("string", "Relevant context"));
     ("options", ("array", "List of options for the human to choose from"))], ["reason"; "context"; "options"]));
  ("cap/list", ("List the agent's currently granted tools and constraints.", [], []));
  ("job/watch",
   ("Subscribe to events from a long-running job and block until completion.",
    [("jobId", ("string", "The job ID to watch")); ("timeoutSec", ("number", "Seconds to wait before timing out"))],
    ["jobId"; "timeoutSec"]));
  ("agent/spawn",
   ("Spawn a child agent to work on a sub-task. Requires agent:spawn capability.",
    [("agent", ("string", "Agent name (must exist in /bin/)")); ("goal", ("string", "Goal for the child agent"));
     ("capabilities", ("array", "Requested capabilities (subset of parent's grants)"));
     ("waitForResult", ("boolean", "If true, block until child finishes"))],
    ["agent"; "goal"; "capabilities"; "waitForResult"]));
  ("agent/kill",
   ("Terminate a child agent by PID. Requires agent:spawn capability.",
    [("pid", ("number", "PID of the child agent to terminate")); ("reason", ("string", "Reason for termination"))], ["pid"]));
  ("agent/list",
   ("List agents currently running in this session, optionally filtered by status.",
    [("status", ("string", "Optional filter: running | paused | waiting | all"))], []));
  ("agent/wait",
   ("Block until a specific child agent completes.",
    [("pid", ("number", "PID of the child agent to wait for"));
     ("timeoutSec", ("number", "Optional timeout in seconds (0 = wait forever)"))], ["pid"]));
  ("agent/send-message",
   ("Send a message to another agent via its input pipe.",
    [("pid", ("number", "Target agent PID")); ("message", ("string", "Message to send"))], ["pid"; "message"]));
  ("pipe/open",
   ("Open a streaming data channel to another agent.",
    [("targetPid", ("number", "PID of the target agent")); ("direction", ("string", "out | bidirectional"));
     ("bufferTokens", ("number", "Optional buffer size in tokens"));
     ("backpressure", ("string", "Optional: block | drop | error"))], ["targetPid"; "direction"]));
  ("pipe/write",
   ("Write tokens into an open outbound pipe.",
    [("pipeId", ("string", "The pipe identifier")); ("content", ("string", "Content to write into the pipe"))],
    ["pipeId"; "content"]));
  ("pipe/read",
   ("Read tokens from an open inbound pipe.",
    [("pipeId", ("string", "The pipe identifier")); ("maxTokens", ("number", "Optional maximum tokens to read"));
     ("timeoutMs", ("number", "Optional timeout in milliseconds (0 = block indefinitely)"))], ["pipeId"]));
  ("pipe/close",
   ("Close a pipe. The other end receives SIGPIPE.", [("pipeId", ("string", "The pipe identifier"))], ["pipeId"]));
  ("sys/tools",
   ("List tools available in the Avix runtime. Returns name, description, and state. Use namespace or keyword to filter. Call this to discover tools before requesting access.",
    [("namespace", ("string", "Filter by namespace prefix e.g. 'fs', 'llm'"));
     ("keyword", ("string", "Filter by keyword in name or description"));
     ("granted_only", ("boolean", "If true, only show tools already in your capability token"))], []))
]%string.
Definition cat2_tool_descriptor (name : string) : json :=
  match assoc_get name cat2_descriptors with
  | Some (desc, props, required) => descriptor_json name desc props required
  | None => descriptor_json name ("Unknown Cat2 tool: " +:+ name)%string [] []
  end.

(** ** [tool_manager.rs] *)

Record ToolManager : Type := {
  tool_list : list json;
  tool_budgets : ToolBudgets;
  hil_required_tools : list string;
  removed_tools : list string;
  registered_cat2 : list string;
  cat1_descriptors : gmap string json
}.
Definition manager_new (cat2 : list string) : ToolManager := {|
  tool_list := []; tool_budgets := ∅; hil_required_tools := []; removed_tools := []; registered_cat2 := cat2;
  cat1_descriptors := ∅ |}.
Definition with_tool_list (m : ToolManager) l := {| tool_list := l; tool_budgets := tool_budgets m;
  hil_required_tools := hil_required_tools m; removed_tools := removed_tools m; registered_cat2 := registered_cat2 m;
  cat1_descriptors := cat1_descriptors m |}.
Definition with_budgets (m : ToolManager) b := {| tool_list := tool_list m; tool_budgets := b;
  hil_required_tools := hil_required_tools m; removed_tools := removed_tools m; registered_cat2 := registered_cat2 m;
  cat1_descriptors := cat1_descriptors m |}.
Definition with_hil (m : ToolManager) l := {| tool_list := tool_list m; tool_budgets := tool_budgets m;
  hil_required_tools := l; removed_tools := removed_tools m; registered_cat2 := registered_cat2 m;
  cat1_descriptors := cat1_descriptors m |}.
Definition with_removed (m : ToolManager) l := {| tool_list := tool_list m; tool_budgets := tool_budgets m;
  hil_required_tools := hil_required_tools m; removed_tools := l; registered_cat2 := registered_cat2 m;
  cat1_descriptors := cat1_descriptors m |}.
Definition with_registered (m : ToolManager) l := {| tool_list := tool_list m; tool_budgets := tool_budgets m;
  hil_required_tools := hil_required_tools m; removed_tools := removed_tools m; registered_cat2 := l;
  cat1_descriptors := cat1_descriptors m |}.
Definition with_cat1 (m : ToolManager) d := {| tool_list := tool_list m; tool_budgets := tool_budgets m;
  hil_required_tools := hil_required_tools m; removed_tools := removed_tools m; registered_cat2 := registered_cat2 m;
  cat1_descriptors := d |}.

Section Manager.
Context `{!HashOrder}.

Definition manager_refresh (m : ToolManager) (token : CapabilityToken) (spawned_by : string) : ToolManager :=
  let keep := fun n => negb (list_contains n (removed_tools m)) in
  with_tool_list m
    ((cat2_tool_descriptor <$> base.filter (fun n => keep n = true) (compute_cat2_tools token spawned_by).*1)
     ++ (base.filter (fun p => keep p.1 = true) (hash_iter json (cat1_descriptors m))).*2).

Definition hidden_by (name removed : string) : bool :=
  String.eqb name removed || String.eqb name (replace_char "/" "__" removed).
Definition shown (m : ToolManager) (t : json) : bool :=
  match as_str (jindex t "name") with
  | Some n => negb (existsb (hidden_by n) (removed_tools m))
  | None => true
  end.
Definition current_tools (m : ToolManager) : list json := base.filter (fun t => shown m t = true) (tool_list m).

Definition manager_is_cat2 (m : ToolManager) (name : string) : bool := list_contains name (registered_cat2 m).
Definition manager_tool_changed (m : ToolManager) (op tool : string) : ToolManager :=
  if String.eqb op "removed" then
    if list_contains tool (removed_tools m) then m else with_removed m (removed_tools m ++ [tool])
  else if String.eqb op "added" then with_removed m (base.filter (fun t => t <> tool) (removed_tools m))
  else m.
Definition manager_set_budget (m : ToolManager) (tool : string) (n : Z) : ToolManager :=
  with_budgets m (budget_set (tool_budgets m) tool n).
Definition manager_require_hil (m : ToolManager) (tool : string) : ToolManager :=
  with_hil m (hil_required_tools m ++ [tool]).

End Manager.

(** ** [prompt.rs] *)

Definition prompt_tools (tools : list json) : string :=
  match tools with
  | [] => ("No tools currently available." +:+ nl)%string
  | _ => str_join EmptyString ((fun t => "- **" +:+ str_or "?" (jindex t "name") +:+ "**: "
            +:+ str_or EmptyString (jindex t "description") +:+ nl)%string <$> tools)
  end.
Definition build_system_prompt (pid : Z) (agent_name goal spawned_by session_id : string) (max_chain : Z)
    (budgets : gmap string Z) (pending : list string) (tools : list json) (denied : list string) : string :=
  let has_budgets := negb (bool_decide (budgets = ∅)) in
  let has_denied := negb (bool_decide (denied = [])) in
  ("# Agent Identity" +:+ nl +:+ "You are " +:+ agent_name +:+ ", an AI agent running inside Avix." +:+ nl
   +:+ "Your goal: " +:+ goal +:+ nl +:+ "Session: " +:+ session_id +:+ " | PID: " +:+ pretty pid
   +:+ " | User: " +:+ spawned_by +:+ nl
   +:+ nl +:+ "# Available Tools" +:+ nl +:+ prompt_tools tools
   +:+ nl +:+ "When you need a tool not listed here, call cap/request-tool." +:+ nl
   +:+ "When you encounter a situation requiring human judgment, call cap/escalate." +:+ nl
   +:+ "When your task is complete, respond with your final answer." +:+ nl
   +:+ (if negb (bool_decide (max_chain = u64_max)) || has_budgets then
          nl +:+ "# Constraints" +:+ nl +:+ "Max tool calls per turn: " +:+ pretty max_chain +:+ nl
          +:+ (if has_budgets then "Tool call budgets:" +:+ nl
                 +:+ str_join EmptyString ((fun p => "  " +:+ p.1 +:+ ": " +:+ pretty p.2 +:+ " use(s) remaining" +:+ nl)%string
                       <$> sorted_rows budgets)
               else EmptyString)
        else EmptyString)
   +:+ (if negb (bool_decide (pending = [])) || has_denied then
          nl +:+ "# Pending Instructions" +:+ nl
          +:+ str_join EmptyString ((fun m => m +:+ nl)%string <$> pending)
          +:+ (if has_denied then "**Tool access denied this turn:** " +:+ str_join ", " denied +:+ nl
                 +:+ "Do not call cap/request-tool for these tools again until the next user message." +:+ nl
               else EmptyString)
        else EmptyString))%string.

(** ** What the tool list holds *)

Lemma dedup_names_spec seen l : NoDup (dedup_names seen l).*1 /\
  forall n, n ∈ (dedup_names seen l).*1 <-> n ∈ l.*1 /\ n ∉ seen.
Proof.
  revert seen. induction l as [|[n v] l IH]; intros seen; cbn [dedup_names].
  { split; [constructor|]. intros n. split; [intros H%elem_of_nil; done|intros [H%elem_of_nil _]; done]. }
  unfold list_contains. case_bool_decide as Hn.
  - destruct (IH seen) as [Hd Hi]. split; [done|]. intros m. rewrite Hi. cbn [fmap list_fmap fst]. rewrite elem_of_cons. naive_solver.
  - destruct (IH (n :: seen)) as [Hd Hi]. cbn [fmap list_fmap fst]. split.
    + constructor; [|done]. rewrite Hi, elem_of_cons. naive_solver.
    + intros m. rewrite !elem_of_cons, Hi, elem_of_cons. destruct (decide (m = n)); naive_solver.
Qed.

Lemma compute_cat2_names token user : NoDup (compute_cat2_tools token user).*1 /\
  forall n, n ∈ (compute_cat2_tools token user).*1 <-> n ∈ ALWAYS_PRESENT \/
    (n ∈ granted_tools token /\ n ∈ CapabilityToolMap.all_gated_cat2_tools CapabilityToolMap.default_map).
Proof.
  unfold compute_cat2_tools. destruct (dedup_names_spec [] ((fun n => (n, User user)) <$>
    (CapabilityToolMap.always_present CapabilityToolMap.default_map
     ++ base.filter (fun n => has_tool token n = true)
          (CapabilityToolMap.all_gated_cat2_tools CapabilityToolMap.default_map)))) as [Hd Hi].
  split; [exact Hd|]. intros n. rewrite Hi. rewrite <- list_fmap_compose. unfold compose. cbn [fst].
  rewrite list_fmap_id, elem_of_app, list_elem_of_filter.
  change (CapabilityToolMap.always_present CapabilityToolMap.default_map) with ALWAYS_PRESENT.
  rewrite has_tool_elem, elem_of_nil. tauto.
Qed.

(** A tool that was removed stays out of the list until it is added again. *)
Lemma tool_changed_visible m op tool t : t ∈ removed_tools (manager_tool_changed m op tool) <->
  (t ∈ removed_tools m /\ ~ (op = "added"%string /\ t = tool)) \/ (op = "removed"%string /\ t = tool).
Proof.
  unfold manager_tool_changed, list_contains. destruct (String.eqb_spec op "removed") as [->|Hr].
  - case_bool_decide as Ht; [split; [intros; left; split; [done|by intros [??]]|naive_solver]|].
    cbn [with_removed removed_tools]. rewrite elem_of_app, list_elem_of_singleton. split; [|naive_solver].
    intros [?|?]; [left; split; [done|by intros [??]]|by right].
  - destruct (String.eqb_spec op "added") as [->|Ha].
    + cbn [with_removed removed_tools]. rewrite list_elem_of_filter. naive_solver.
    + naive_solver.
Qed.
