(* ===== verification/Adapters.v ===== *)
(** * Provider adapters

    Models [llm_svc/adapter/]: the requests and answers of each modality ([mod.rs]) and the translation between them and
    the wire JSON of the providers ([anthropic.rs], [openai.rs], [xai.rs], [ollama.rs], [stability.rs],
    [elevenlabs.rs]).  The trait [ProviderAdapter] is a record of functions, the text methods with their default
    streaming ones in [TextAdapter] and the other modalities in [MediaAdapter].

    The text of a JSON value ([Value::to_string], [serde_json::from_str]) is the class [JsonStr]; base64 is an
    argument.  [checks] says whether the build has overflow checks; [None] is a panic. *)

From Stdlib Require Import Floats.SpecFloat.
From S2P Require Import Prelude Floats Types Text Store Ipc ExecTools Json.
Local Open Scope Z_scope.

Class JsonStr : Type := { json_str : json -> string; json_parse : string -> result string json }.
Class JsonStrLaws `{!JsonStr} : Prop :=
  json_str_parse j : wire_ok MAX_DEPTH j = true -> exists j', json_parse (json_str j) = Ok j' /\ jeq j' j.

Definition as_f64 (j : json) : option f64 :=
  match j with JInt z => Some (f64_of_int z) | JFloat x => Some x | _ => None end.
Definition as_array (j : json) : option (list json) := match j with JArr l => Some l | _ => None end.
(** [v[0]] *)
Definition jnth (j : json) (n : nat) : json := default JNull (as_array j ≫= (fun l => l !! n)).
Definition u32_of (j : json) : Z := as_u32 (default 0 (as_u64 j)).

(** ** Requests and answers *)

Record AvixToolResult : Type := { tr_call_id : string; tr_output : json; tr_error : option string }.
Record AvixToolDescriptor : Type := { td_name : string; td_description : string; input_schema : json }.
Record CompleteMetadata : Type := { agent_pid : Z; session_id : string }.
Record AvixCompleteRequest : Type := {
  cr_provider : option string; cr_model : string; cr_messages : list json; cr_system : option string;
  cr_max_tokens : option Z; cr_temperature : option f32; cr_stream : option bool; cr_stop_sequences : option (list string);
  cr_tools : list AvixToolDescriptor; cr_metadata : CompleteMetadata }.
Record UsageSummary : Type := { us_input : Z; us_output : Z; us_total : Z }.
Record AvixCompleteResponse : Type := {
  cp_provider : string; cp_model : string; cp_content : list json; cp_usage : UsageSummary; cp_stop_reason : string;
  cp_latency_ms : Z }.
Record AvixImageRequest : Type := {
  ir_provider : option string; ir_model : string; ir_prompt : string; ir_negative_prompt : option string;
  ir_size : option string; ir_style : option string; ir_n : option Z; ir_metadata : CompleteMetadata }.
Record ImageOutput : Type := { io_file_path : string; io_mime_type : string; io_size : option string; io_bytes : Z }.
Record AvixSpeechRequest : Type := {
  sr_provider : option string; sr_model : string; sr_text : string; sr_voice : string; sr_format : option string;
  sr_speed : option f32; sr_stream : option bool; sr_metadata : CompleteMetadata }.
Record SpeechEndpoint : Type := { se_url : string; se_headers : gmap string string; se_format : string }.
Record AvixTranscribeRequest : Type := {
  tq_provider : option string; tq_model : string; tq_file_path : string; tq_language : option string;
  tq_prompt : option string; tq_granularity : option string; tq_metadata : CompleteMetadata }.
Record MultipartRequest : Type := {
  mp_url : string; mp_headers : gmap string string; mp_fields : gmap string string; mp_audio_bytes : string; mp_filename : string }.
Record TranscribeSegment : Type := { ts_start : f32; ts_end : f32; ts_text : string }.
Record AvixTranscribeResponse : Type := {
  tp_text : string; tp_language : option string; tp_duration_sec : option f32; tp_segments : option (list TranscribeSegment) }.
Inductive EmbedInput : Type := Single (s : string) | Batch (l : list string).
Record AvixEmbedRequest : Type := {
  eq_provider : option string; eq_model : string; eq_input : EmbedInput; eq_metadata : CompleteMetadata }.
Record AvixEmbedResponse : Type := { embeddings : list (list f32); dimensions : Z; ep_input_tokens : Z }.

Inductive AdapterErr : Type :=
| UnsupportedModality (m : Modality.t) | ParseError (s : string) | MissingField (s : string).
Definition modality_debug (m : Modality.t) : string :=
  match m with
  | Modality.Text => "Text" | Modality.Image => "Image" | Modality.Speech => "Speech"
  | Modality.Transcription => "Transcription" | Modality.Embedding => "Embedding"
  end%string.
Definition adapter_err_to_string (e : AdapterErr) : string :=
  match e with
  | UnsupportedModality m => "adapter does not support modality: " +:+ modality_debug m
  | ParseError s => "parse error: " +:+ s
  | MissingField s => "missing field: " +:+ s
  end%string.

(** ** The trait *)

Record TextAdapter : Type := {
  translate_tools : list AvixToolDescriptor -> json;
  build_complete_request : AvixCompleteRequest -> json;
  parse_complete_response : json -> option (result AdapterErr AvixCompleteResponse);
  parse_tool_call : json -> result AdapterErr AvixToolCall;
  format_tool_result : AvixToolResult -> json;
  complete_path : string;
  stream_complete_path : string;
  build_stream_request : AvixCompleteRequest -> json;
  parse_stream_event : option string -> string -> result AdapterErr (option StreamChunk) }.
Record MediaAdapter : Type := {
  build_image_request : AvixImageRequest -> result AdapterErr json;
  parse_image_response : json -> result AdapterErr (list ImageOutput);
  build_speech_request : AvixSpeechRequest -> result AdapterErr json;
  speech_endpoint : AvixSpeechRequest -> result AdapterErr SpeechEndpoint;
  build_transcription_request : AvixTranscribeRequest -> string -> result AdapterErr MultipartRequest;
  parse_transcription_response : json -> result AdapterErr AvixTranscribeResponse;
  build_embed_request : AvixEmbedRequest -> result AdapterErr json;
  parse_embed_response : json -> result AdapterErr AvixEmbedResponse }.
Record ProviderAdapter : Type := {
  pa_name : string; pa_modalities : list Modality.t; text_adapter : TextAdapter; media : MediaAdapter }.

(** The default methods. *)
Definition default_complete_path : string := "/v1/chat/completions".
Definition stream_body (body : json) : json := jobj_insert body "stream" (JBool true).
Definition no_stream_events (_ : option string) (_ : string) : result AdapterErr (option StreamChunk) :=
  Err (UnsupportedModality Modality.Text).
Definition no_media : MediaAdapter := {|
  build_image_request _ := Err (UnsupportedModality Modality.Image);
  parse_image_response _ := Err (UnsupportedModality Modality.Image);
  build_speech_request _ := Err (UnsupportedModality Modality.Speech);
  speech_endpoint _ := Err (UnsupportedModality Modality.Speech);
  build_transcription_request _ _ := Err (UnsupportedModality Modality.Transcription);
  parse_transcription_response _ := Err (UnsupportedModality Modality.Transcription);
  build_embed_request _ := Err (UnsupportedModality Modality.Embedding);
  parse_embed_response _ := Err (UnsupportedModality Modality.Embedding) |}.

Definition mangled_or_replaced (n : string) : string :=
  match ToolName.parse n with Ok n => ToolName.mangled n | Err _ => replace_char "/" "__" n end.
Definition unmangled_or_replaced (m : string) : string :=
  match ToolName.unmangle m with Ok n => n | Err _ => Mangle.replace_dunder m end.

Section Adapters.
Context `{!JsonStr} (checks : bool).

Definition usage_of (input output : Z) : option UsageSummary :=
  total ← (if checks then u32_checked_add input output else Some (u32_wrapping_add input output));
  Some {| us_input := input; us_output := output; us_total := total |}.
Definition set_some {A} (f : A -> json) (k : string) (o : option A) (body : json) : json :=
  match o with Some a => jobj_insert body k (f a) | None => body end.
Definition set_tools (tools : json) (body : json) : json :=
  match tools with JArr (_ :: _) => jobj_insert body "tools" tools | _ => body end.

(** ** Anthropic *)

Definition anthropic_translate_tools (tools : list AvixToolDescriptor) : json :=
  JArr ((fun t => JObj [("name", JStr (mangled_or_replaced (td_name t))); ("description", JStr (td_description t));
                        ("input_schema", input_schema t)]%string) <$> tools).
Definition anthropic_build_complete_request (req : AvixCompleteRequest) : json :=
  set_tools (anthropic_translate_tools (cr_tools req))
    (set_some JStr "system" (cr_system req)
       (JObj [("model", JStr (cr_model req)); ("max_tokens", JInt (default 4096 (cr_max_tokens req)));
              ("messages", JArr (cr_messages req))]%string)).
Definition anthropic_parse_complete_response (raw : json) : option (result AdapterErr AvixCompleteResponse) :=
  u ← usage_of (u32_of (jindex (jindex raw "usage") "input_tokens")) (u32_of (jindex (jindex raw "usage") "output_tokens"));
  Some (Ok {| cp_provider := "anthropic"; cp_model := str_or "" (jindex raw "model");
              cp_content := default [] (as_array (jindex raw "content")); cp_usage := u;
              cp_stop_reason := str_or "end_turn" (jindex raw "stop_reason"); cp_latency_ms := 0 |}).
Definition anthropic_parse_tool_call (raw : json) : result AdapterErr AvixToolCall :=
  id ← ok_or (MissingField "id") (as_str (jindex raw "id"));
  m ← ok_or (MissingField "name") (as_str (jindex raw "name"));
  Ok {| call_id := id; name := unmangled_or_replaced m; args := jindex raw "input" |}.
Definition anthropic_stop_reason_of (s : string) : StopReason :=
  if String.eqb s "tool_use" then ToolUse else if String.eqb s "max_tokens" then MaxTokens
  else if String.eqb s "stop_sequence" then StopSequence else EndTurn.
Definition anthropic_on_event (event : string) (v : json) : option StreamChunk :=
  if String.eqb event "content_block_start" then
    let block := jindex v "content_block" in
    if bool_decide (as_str (jindex block "type") = Some "tool_use"%string) then
      Some (ToolCallStart (str_or "" (jindex block "id")) (unmangled_or_replaced (str_or "" (jindex block "name"))))
    else None
  else if String.eqb event "content_block_delta" then
    let delta := jindex v "delta" in
    match as_str (jindex delta "type") with
    | Some t =>
        if String.eqb t "text_delta" then
          let text := str_or "" (jindex delta "text") in
          if String.eqb text "" then None else Some (TextDelta text)
        else if String.eqb t "input_json_delta" then
          let args_delta := str_or "" (jindex delta "partial_json") in
          if String.eqb args_delta "" then None
          else Some (ToolCallArgsDelta (pretty (default 0 (as_u64 (jindex v "index")))) args_delta)
        else None
    | None => None
    end
  else if String.eqb event "content_block_stop" then Some (ToolCallComplete (pretty (default 0 (as_u64 (jindex v "index")))))
  else if String.eqb event "message_delta" then
    Some (Done (anthropic_stop_reason_of (str_or "end_turn" (jindex (jindex v "delta") "stop_reason")))
            (u32_of (jindex (jindex v "usage") "input_tokens")) (u32_of (jindex (jindex v "usage") "output_tokens")))
  else None.
Definition anthropic_parse_stream_event (event : option string) (data : string) : result AdapterErr (option StreamChunk) :=
  v ← map_err ParseError (json_parse data);
  Ok (e ← event; anthropic_on_event e v).
Definition anthropic_format_tool_result (r : AvixToolResult) : json :=
  let block := JObj [("type", JStr "tool_result"); ("tool_use_id", JStr (tr_call_id r)); ("content", JStr (json_str (tr_output r)))]%string in
  let block := if bool_decide (is_Some (tr_error r)) then jobj_insert block "is_error" (JBool true) else block in
  JObj [("role", JStr "user"); ("content", JArr [block])]%string.
Definition anthropic : ProviderAdapter := {|
  pa_name := "anthropic"; pa_modalities := [Modality.Text];
  text_adapter := {|
    translate_tools := anthropic_translate_tools; build_complete_request := anthropic_build_complete_request;
    parse_complete_response := anthropic_parse_complete_response; parse_tool_call := anthropic_parse_tool_call;
    format_tool_result := anthropic_format_tool_result; complete_path := "/v1/messages"; stream_complete_path := "/v1/messages";
    build_stream_request := fun r => stream_body (anthropic_build_complete_request r);
    parse_stream_event := anthropic_parse_stream_event |};
  media := no_media |}.

(** ** OpenAI *)

Definition openai_is_type (t : string) (block : json) : bool := bool_decide (as_str (jindex block "type") = Some t).
(** A [tool_use] block as an entry of [tool_calls]. *)
Definition openai_tool_call_of (block : json) : json :=
  JObj [("id", JStr (str_or "" (jindex block "id"))); ("type", JStr "function");
        ("function", JObj [("name", JStr (mangled_or_replaced (str_or "" (jindex block "name"))));
                           ("arguments", JStr (json_str (jindex block "input")))])]%string.
Definition openai_tool_calls_of (blocks : list json) : list json :=
  openai_tool_call_of <$> base.filter (fun b => openai_is_type "tool_use" b = true) blocks.
Definition openai_text_parts (blocks : list json) : list string :=
  omap (fun b => as_str (jindex b "text")) (base.filter (fun b => openai_is_type "text" b = true) blocks).
Definition openai_tool_message (block : json) : json :=
  let content := jindex block "content" in
  JObj [("role", JStr "tool"); ("tool_call_id", JStr (str_or "" (jindex block "tool_use_id")));
        ("content", JStr (match content with
                          | JStr s => s
                          | JArr arr => str_join "" (omap (fun c => as_str (jindex c "text")) arr)
                          | _ => json_str content
                          end))]%string.
Definition openai_convert_message (msg : json) : list json :=
  let role := str_or "" (jindex msg "role") in
  let content := jindex msg "content" in
  if String.eqb role "assistant" then
    match content with
    | JArr blocks =>
        match openai_tool_calls_of blocks with
        | [] => [msg]
        | calls => [JObj [("role", JStr "assistant");
                          ("content", match openai_text_parts blocks with [] => JNull | ts => JStr (str_join "" ts) end);
                          ("tool_calls", JArr calls)]%string]
        end
    | _ => [msg]
    end
  else if String.eqb role "user" then
    match content with
    | JArr blocks => if forallb (openai_is_type "tool_result") blocks then openai_tool_message <$> blocks else [msg]
    | _ => [msg]
    end
  else [msg].
Definition openai_convert_messages (messages : list json) : list json := messages ≫= openai_convert_message.

Definition openai_translate_tools (tools : list AvixToolDescriptor) : json :=
  JArr ((fun t => JObj [("type", JStr "function");
                        ("function", JObj [("name", JStr (mangled_or_replaced (td_name t))); ("description", JStr (td_description t));
                                           ("parameters", input_schema t)])]%string) <$> tools).
Definition openai_build_complete_request (req : AvixCompleteRequest) : json :=
  set_tools (openai_translate_tools (cr_tools req))
    (set_some jstrs "stop" (match cr_stop_sequences req with Some (_ :: _) => cr_stop_sequences req | _ => None end)
       (set_some (fun t => JFloat (f64_of_f32 t)) "temperature" (cr_temperature req)
          (set_some JInt "max_tokens" (cr_max_tokens req)
             (JObj [("model", JStr (cr_model req)); ("messages", JArr (openai_convert_messages (cr_messages req)))]%string)))).

(** An entry of [tool_calls] as a [tool_use] block. *)
Definition openai_tool_use_of (tc : json) : json :=
  let f := jindex tc "function" in
  JObj [("type", JStr "tool_use"); ("id", JStr (str_or "" (jindex tc "id")));
        ("name", JStr (unmangled_or_replaced (str_or "" (jindex f "name"))));
        ("input", match json_parse (str_or "{}" (jindex f "arguments")) with Ok v => v | Err _ => JObj [] end)]%string.
Definition openai_text_blocks (message : json) : list json :=
  match jindex message "content" with
  | JStr s => if String.eqb s "" then [] else [JObj [("type", JStr "text"); ("text", JStr s)]%string]
  | _ => []
  end.
Definition openai_parse_complete_response (raw : json) : option (result AdapterErr AvixCompleteResponse) :=
  match as_array (jindex raw "choices") ≫= head with
  | None => Some (Err (MissingField "choices[0]"))
  | Some choice =>
      let message := jindex choice "message" in
      let calls := default [] (as_array (jindex message "tool_calls")) in
      u ← usage_of (u32_of (jindex (jindex raw "usage") "prompt_tokens")) (u32_of (jindex (jindex raw "usage") "completion_tokens"));
      Some (Ok {| cp_provider := "openai"; cp_model := str_or "" (jindex raw "model");
                  cp_content := openai_text_blocks message ++ (openai_tool_use_of <$> calls); cp_usage := u;
                  cp_stop_reason := (match calls with [] => str_or "stop" (jindex choice "finish_reason") | _ => "tool_use" end)%string;
                  cp_latency_ms := 0 |})
  end.
Definition openai_parse_tool_call (raw : json) : result AdapterErr AvixToolCall :=
  id ← ok_or (MissingField "id") (as_str (jindex raw "id"));
  m ← ok_or (MissingField "function.name") (as_str (jindex (jindex raw "function") "name"));
  v ← map_err ParseError (json_parse (str_or "{}" (jindex (jindex raw "function") "arguments")));
  Ok {| call_id := id; name := unmangled_or_replaced m; args := v |}.
Definition openai_format_tool_result (r : AvixToolResult) : json :=
  JObj [("role", JStr "tool"); ("tool_call_id", JStr (tr_call_id r));
        ("content", JStr (match tr_error r with Some e => "Error: " +:+ e | None => json_str (tr_output r) end))]%string.

Definition openai_stop_reason_of (s : string) : StopReason :=
  if String.eqb s "tool_calls" then ToolUse else if String.eqb s "length" then MaxTokens
  else if String.eqb s "stop_sequence" then StopSequence else EndTurn.
(** The first entry that starts a call or carries arguments. *)
Fixpoint openai_first_delta (tcs : list json) : option StreamChunk :=
  match tcs with
  | [] => None
  | tc :: tcs =>
      let f := jindex tc "function" in
      match as_str (jindex tc "id") with
      | Some id => Some (ToolCallStart id (unmangled_or_replaced (str_or "" (jindex f "name"))))
      | None =>
          match as_str (jindex f "arguments") with
          | Some a => if String.eqb a "" then openai_first_delta tcs
                      else Some (ToolCallArgsDelta (pretty (default 0 (as_u64 (jindex tc "index")))) a)
          | None => openai_first_delta tcs
          end
      end
  end.
Definition openai_on_data (v : json) : option StreamChunk :=
  choice ← as_array (jindex v "choices") ≫= head;
  let delta := jindex choice "delta" in
  let text := str_or "" (jindex delta "content") in
  if negb (String.eqb text "") then Some (TextDelta text)
  else match as_array (jindex delta "tool_calls") ≫= openai_first_delta with
       | Some c => Some c
       | None =>
           let finish := str_or "" (jindex choice "finish_reason") in
           if negb (String.eqb finish "") && negb (String.eqb finish "null") then
             Some (Done (openai_stop_reason_of finish) (u32_of (jindex (jindex v "usage") "prompt_tokens"))
                     (u32_of (jindex (jindex v "usage") "completion_tokens")))
           else None
       end.
Definition openai_parse_stream_event (_ : option string) (data : string) : result AdapterErr (option StreamChunk) :=
  v ← map_err ParseError (json_parse data); Ok (openai_on_data v).

Definition openai_build_image_request (r : AvixImageRequest) : result AdapterErr json :=
  Ok (JObj [("model", JStr (ir_model r)); ("prompt", JStr (ir_prompt r)); ("n", JInt (default 1 (ir_n r)));
            ("size", JStr (default "1024x1024" (ir_size r))); ("response_format", JStr "b64_json")]%string).
Definition openai_image_output (b64 : string -> result string string) (j : json) (field : string) : result AdapterErr ImageOutput :=
  s ← ok_or (MissingField field) (as_str (jindex j field));
  bytes ← map_err ParseError (b64 s);
  Ok {| io_file_path := ""; io_mime_type := "image/png"; io_size := None; io_bytes := Z.of_nat (String.length bytes) |}.
Definition openai_parse_image_response (b64 : string -> result string string) (raw : json) : result AdapterErr (list ImageOutput) :=
  data ← ok_or (MissingField "data") (as_array (jindex raw "data"));
  mapM (fun item => openai_image_output b64 item "b64_json") data.
Definition openai_build_speech_request (r : AvixSpeechRequest) : result AdapterErr json :=
  Ok (JObj [("model", JStr (sr_model r)); ("input", JStr (sr_text r)); ("voice", JStr (sr_voice r));
            ("response_format", JStr (default "mp3" (sr_format r)));
            ("speed", JFloat (from_option f64_of_f32 (f64_of_int 1) (sr_speed r)))]%string).
Definition openai_speech_endpoint (r : AvixSpeechRequest) : result AdapterErr SpeechEndpoint :=
  Ok {| se_url := "/v1/audio/speech"; se_headers := ∅; se_format := default "mp3"%string (sr_format r) |}.
Definition openai_build_transcription_request (r : AvixTranscribeRequest) (audio : string) : result AdapterErr MultipartRequest :=
  let fields := <["model" := tq_model r]> ∅ : gmap string string in
  let fields := match tq_language r with Some l => <["language" := l]> fields | None => fields end in
  let fields := match tq_prompt r with Some p => <["prompt" := p]> fields | None => fields end in
  Ok {| mp_url := "/v1/audio/transcriptions"; mp_headers := ∅; mp_fields := fields; mp_audio_bytes := audio; mp_filename := "audio.wav" |}.
Definition openai_f32_or_zero (j : json) : f32 := f32_of_f64 (default (f64_of_int 0) (as_f64 j)).
Definition openai_segment (s : json) : TranscribeSegment := {|
  ts_start := openai_f32_or_zero (jindex s "start"); ts_end := openai_f32_or_zero (jindex s "end"); ts_text := str_or "" (jindex s "text") |}.
Definition openai_parse_transcription_response (raw : json) : result AdapterErr AvixTranscribeResponse :=
  text ← ok_or (MissingField "text") (as_str (jindex raw "text"));
  Ok {| tp_text := text; tp_language := as_str (jindex raw "language"); tp_duration_sec := f32_of_f64 <$> as_f64 (jindex raw "duration");
        tp_segments := fmap (M := list) openai_segment <$> as_array (jindex raw "segments") |}.
Definition openai_build_embed_request (r : AvixEmbedRequest) : result AdapterErr json :=
  Ok (JObj [("model", JStr (eq_model r)); ("input", match eq_input r with Single s => JArr [JStr s] | Batch l => jstrs l end)]%string).
Definition openai_embedding (item : json) : result AdapterErr (list f32) :=
  l ← ok_or (MissingField "embedding") (as_array (jindex item "embedding")); Ok (fmap (M := list) openai_f32_or_zero l).
Definition openai_parse_embed_response (raw : json) : result AdapterErr AvixEmbedResponse :=
  data ← ok_or (MissingField "data") (as_array (jindex raw "data"));
  es ← mapM openai_embedding data;
  Ok {| embeddings := es; dimensions := match es with e :: _ => as_u32 (Z.of_nat (length e)) | [] => 0 end;
        ep_input_tokens := u32_of (jindex (jindex raw "usage") "prompt_tokens") |}.

Definition openai_text : TextAdapter := {|
  translate_tools := openai_translate_tools; build_complete_request := openai_build_complete_request;
  parse_complete_response := openai_parse_complete_response; parse_tool_call := openai_parse_tool_call;
  format_tool_result := openai_format_tool_result; complete_path := default_complete_path; stream_complete_path := default_complete_path;
  build_stream_request := fun r => stream_body (openai_build_complete_request r); parse_stream_event := openai_parse_stream_event |}.
Definition openai (b64 : string -> result string string) : ProviderAdapter := {|
  pa_name := "openai"; pa_modalities := [Modality.Text; Modality.Image; Modality.Speech; Modality.Transcription; Modality.Embedding];
  text_adapter := openai_text;
  media := {| build_image_request := openai_build_image_request; parse_image_response := openai_parse_image_response b64;
    build_speech_request := openai_build_speech_request; speech_endpoint := openai_speech_endpoint;
    build_transcription_request := openai_build_transcription_request; parse_transcription_response := openai_parse_transcription_response;
    build_embed_request := openai_build_embed_request; parse_embed_response := openai_parse_embed_response |} |}.

(** ** The OpenAI-compatible providers *)

Definition ollama : ProviderAdapter := {|
  pa_name := "ollama"; pa_modalities := [Modality.Text; Modality.Embedding]; text_adapter := openai_text;
  media := {| build_image_request := build_image_request no_media; parse_image_response := parse_image_response no_media;
    build_speech_request := build_speech_request no_media; speech_endpoint := speech_endpoint no_media;
    build_transcription_request := build_transcription_request no_media; parse_transcription_response := parse_transcription_response no_media;
    build_embed_request := openai_build_embed_request; parse_embed_response := openai_parse_embed_response |} |}.
Definition rename_provider (n : string) (r : AvixCompleteResponse) : AvixCompleteResponse := {|
  cp_provider := n; cp_model := cp_model r; cp_content := cp_content r; cp_usage := cp_usage r;
  cp_stop_reason := cp_stop_reason r; cp_latency_ms := cp_latency_ms r |}.
Definition xai : ProviderAdapter := {|
  pa_name := "xai"; pa_modalities := [Modality.Text];
  text_adapter := {| translate_tools := openai_translate_tools; build_complete_request := openai_build_complete_request;
    parse_complete_response := fun raw => r ← openai_parse_complete_response raw; Some (fmap (M := result AdapterErr) (rename_provider "xai") r);
    parse_tool_call := openai_parse_tool_call; format_tool_result := openai_format_tool_result; complete_path := default_complete_path;
    stream_complete_path := default_complete_path; build_stream_request := fun r => stream_body (openai_build_complete_request r);
    parse_stream_event := openai_parse_stream_event |};
  media := no_media |}.

(** ** Providers without text *)

Definition no_text : TextAdapter := {|
  translate_tools _ := JArr []; build_complete_request _ := JObj []; parse_complete_response _ := Some (Err (UnsupportedModality Modality.Text));
  parse_tool_call _ := Err (UnsupportedModality Modality.Text); format_tool_result _ := JObj []; complete_path := default_complete_path;
  stream_complete_path := default_complete_path; build_stream_request _ := stream_body (JObj []); parse_stream_event := no_stream_events |}.
Definition stability (b64 : string -> result string string) : ProviderAdapter := {|
  pa_name := "stability-ai"; pa_modalities := [Modality.Image]; text_adapter := no_text;
  media := {|
    build_image_request r := Ok (set_some JStr "negative_prompt" (ir_negative_prompt r)
      (JObj [("prompt", JStr (ir_prompt r)); ("output_format", JStr "png"); ("aspect_ratio", JStr (default "1:1" (ir_size r)))]%string));
    parse_image_response raw := o ← openai_image_output b64 raw "image"; Ok [o];
    build_speech_request := build_speech_request no_media; speech_endpoint := speech_endpoint no_media;
    build_transcription_request := build_transcription_request no_media; parse_transcription_response := parse_transcription_response no_media;
    build_embed_request := build_embed_request no_media; parse_embed_response := parse_embed_response no_media |} |}.
Definition f64_half : f64 := S754_finite false 4503599627370496 (-53).
Definition elevenlabs : ProviderAdapter := {|
  pa_name := "elevenlabs"; pa_modalities := [Modality.Speech]; text_adapter := no_text;
  media := {|
    build_image_request := build_image_request no_media; parse_image_response := parse_image_response no_media;
    build_speech_request r := Ok (JObj [("text", JStr (sr_text r)); ("model_id", JStr (sr_model r));
      ("voice_settings", JObj [("stability", JFloat f64_half); ("similarity_boost", JFloat f64_half)])]%string);
    speech_endpoint r := Ok {| se_url := ("/v1/text-to-speech/" +:+ sr_voice r)%string; se_headers := ∅; se_format := default "mp3"%string (sr_format r) |};
    build_transcription_request := build_transcription_request no_media; parse_transcription_response := parse_transcription_response no_media;
    build_embed_request := build_embed_request no_media; parse_embed_response := parse_embed_response no_media |} |}.
Definition make_provider_adapter (b64 : string -> result string string) (n : string) : option ProviderAdapter :=
  if String.eqb n "anthropic" then Some anthropic else if String.eqb n "openai" then Some (openai b64)
  else if String.eqb n "xai" then Some xai else if String.eqb n "ollama" then Some ollama else None.

End Adapters.

(** ** Conversations with OpenAI-compatible providers *)

Section Conversation.
Context `{!JsonStr, !JsonStrLaws}.

Lemma unmangled_mangled n m : ToolName.parse n = Ok m -> Mangle.ambiguous m = false ->
  unmangled_or_replaced (mangled_or_replaced n) = n /\ m = n.
Proof.
  intros P A. unfold mangled_or_replaced. rewrite P. unfold unmangled_or_replaced.
  apply (ToolName.wire_roundtrip n m P) in A. rewrite A.
  unfold ToolName.parse in P. repeat case_match; try done. by injection P as <-.
Qed.

(** A tool call the executor keeps in its history. *)
Definition use_block (id n : string) (input : json) : json :=
  JObj [("type", JStr "tool_use"); ("id", JStr id); ("name", JStr n); ("input", input)]%string.
Definition result_block (id : string) (content : json) : json :=
  JObj [("type", JStr "tool_result"); ("tool_use_id", JStr id); ("content", content)]%string.

(** A tool call sent to the provider and echoed by it comes back as the same call: id and name exactly, the input up
    to the order of keys, for every valid name without an underscore before a slash; both readers of the
    answer agree on it. *)
Theorem openai_tool_roundtrip id n m input : ToolName.parse n = Ok m -> Mangle.ambiguous m = false -> wire_ok MAX_DEPTH input = true ->
  exists v, jeq v input /\
    openai_tool_use_of (openai_tool_call_of (use_block id n input)) = use_block id n v /\
    openai_parse_tool_call (openai_tool_call_of (use_block id n input)) = Ok {| call_id := id; name := n; args := v |}.
Proof.
  intros P A W. destruct (json_str_parse input W) as (v & Ev & J). exists v. split; [done|].
  destruct (unmangled_mangled n m P A) as [En _].
  unfold openai_tool_use_of, openai_parse_tool_call, openai_tool_call_of, use_block. read_keys. rewrite En. unfold str_or. cbn. rewrite Ev. done.
Qed.

(** What the executor keeps of a turn: text and calls of the answer, and one result for each call. *)
Record CallTurn : Type := { ct_id : string; ct_name : string; ct_input : json; ct_result : string }.
Definition answer_message (text : list string) (calls : list CallTurn) : json :=
  JObj [("role", JStr "assistant");
        ("content", JArr (((fun t => JObj [("type", JStr "text"); ("text", JStr t)]%string) <$> text) ++
                          ((fun c => use_block (ct_id c) (ct_name c) (ct_input c)) <$> calls)))]%string.
Definition results_message (calls : list CallTurn) : json :=
  JObj [("role", JStr "user"); ("content", JArr ((fun c => result_block (ct_id c) (JStr (ct_result c))) <$> calls))]%string.

Lemma calls_of_answer text calls :
  openai_tool_calls_of (((fun t => JObj [("type", JStr "text"); ("text", JStr t)]%string) <$> text) ++
                        ((fun c => use_block (ct_id c) (ct_name c) (ct_input c)) <$> calls)) =
  (fun c => openai_tool_call_of (use_block (ct_id c) (ct_name c) (ct_input c))) <$> calls.
Proof.
  unfold openai_tool_calls_of. induction text as [|t text IH]; cbn [fmap list_fmap app].
  - induction calls as [|c calls IH]; [done|]. cbn [fmap list_fmap]. rewrite filter_cons_True by (by read_keys). cbn. by rewrite IH.
  - rewrite filter_cons_False by (by read_keys). exact IH.
Qed.
Lemma text_of_answer text calls :
  openai_text_parts (((fun t => JObj [("type", JStr "text"); ("text", JStr t)]%string) <$> text) ++
                     ((fun c => use_block (ct_id c) (ct_name c) (ct_input c)) <$> calls)) = text.
Proof.
  unfold openai_text_parts. induction text as [|t text IH]; cbn [fmap list_fmap app].
  - induction calls as [|c calls IH]; [done|]. cbn [fmap list_fmap]. by rewrite filter_cons_False by (by read_keys).
  - rewrite filter_cons_True by (by read_keys). read_keys. by rewrite IH.
Qed.

(** A turn of the conversation with tool calls becomes one assistant message, with the joined text and the calls in order,
    followed by one tool message per call, in the same order, with its id and its result. *)
Theorem openai_turn text calls : calls <> [] ->
  openai_convert_messages [answer_message text calls; results_message calls] =
  JObj [("role", JStr "assistant");
        ("content", match text with [] => JNull | _ => JStr (str_join "" text) end);
        ("tool_calls", JArr ((fun c => openai_tool_call_of (use_block (ct_id c) (ct_name c) (ct_input c))) <$> calls))]%string ::
  ((fun c => JObj [("role", JStr "tool"); ("tool_call_id", JStr (ct_id c)); ("content", JStr (ct_result c))]%string) <$> calls).
Proof.
  intros Hc. unfold openai_convert_messages. cbn [mbind list_bind]. rewrite app_nil_r.
  assert (openai_convert_message (results_message calls) =
    (fun c => JObj [("role", JStr "tool"); ("tool_call_id", JStr (ct_id c)); ("content", JStr (ct_result c))]%string) <$> calls) as ->.
  { unfold openai_convert_message, results_message. read_keys. clear Hc.
    assert (forallb (openai_is_type "tool_result") ((fun c => result_block (ct_id c) (JStr (ct_result c))) <$> calls) = true) as ->.
    { induction calls as [|c calls IH]; [done|]. cbn [fmap list_fmap forallb]. rewrite IH. unfold result_block, openai_is_type. by read_keys. }
    rewrite <-list_fmap_compose. apply list_fmap_ext. intros _ c _. cbn. unfold openai_tool_message, result_block. by read_keys. }
  unfold openai_convert_message, answer_message. read_keys. rewrite calls_of_answer, text_of_answer.
  destruct calls as [|c calls]; [done|]. destruct text as [|t [|u text]]; reflexivity.
Qed.
End Conversation.

(** An answer that was cut at the token limit: the streaming reader reports it, the other one takes it for complete. *)
Lemma truncation_lost `{!JsonStr} v model text : 
  openai_parse_complete_response true (JObj [("model", JStr model);
     ("choices", JArr [JObj [("message", JObj [("content", JStr text)]); ("finish_reason", JStr "length")]])]%string) = Some (Ok v) ->
  cp_stop_reason v = "length"%string /\ openai_stop_reason_of "length" = MaxTokens.
Proof. unfold openai_parse_complete_response. read_keys. intros [= <-]. done. Qed.

(** ** JSON text as the code of the value *)

Module Toy.
Import Mem.
#[export] Instance coded_text : JsonStr := {|
  json_str j := String "j" (pos_text (countable.encode (Demo.json_tree j)));
  json_parse s := match s with
                  | String _ t => ok_or "malformed"%string (Demo.tree_json <$> countable.decode (text_pos t))
                  | EmptyString => Err "malformed"%string
                  end |}.
#[export] Instance coded_text_laws : JsonStrLaws.
Proof.
  intros j Hj. exists j. cbn. rewrite text_pos_text, countable.decode_encode. cbn.
  rewrite (Demo.tree_roundtrip _ _ Hj). split; [done | by eapply Demo.wire_ok_jeq].
Qed.

Lemma openai_tool_roundtrip_witness : exists v, jeq v (JObj [("path", JStr "/a")]%string) /\
  openai_parse_tool_call (openai_tool_call_of (use_block "c1" "fs/read" (JObj [("path", JStr "/a")]%string)))
  = Ok {| call_id := "c1"; name := "fs/read"; args := v |}.
Proof.
  destruct (openai_tool_roundtrip "c1" "fs/read" "fs/read" (JObj [("path", JStr "/a")]%string)) as (v & J & _ & E).
  - reflexivity.
  - reflexivity.
  - vm_compute. reflexivity.
  - exists v. split; [exact J | exact E].
Defined.

Definition read_call : CallTurn := {| ct_id := "c1"; ct_name := "fs/read"; ct_input := JNull; ct_result := "data" |}.
Lemma openai_turn_witness : length (openai_convert_messages [answer_message ["reading"]%string [read_call]; results_message [read_call]]) = 2%nat.
Proof. rewrite (openai_turn ["reading"]%string [read_call]); [reflexivity|]. discriminate. Defined.
End Toy.
