(* ===== verification/LlmService.v ===== *)
(** * The language-model service and its clients

    Models [llm_svc/http_client.rs] (a provider reached over HTTP), [llm_svc/service.rs] (the service: routing, the five
    modalities, usage), [llm_svc/ipc_server.rs] (its socket, with streams) and [llm_client/ipc_client.rs] (the client
    the executor uses).

    The network is an argument: what a provider answers to one request ([Net]).  Environment variables and fresh uuids
    are arguments; frames on the socket are JSON values, since [Ipc] shows that they arrive as they were
    sent.  [None] is a panic (an overflow in a build with checks). *)

From S2P Require Import Prelude Floats Types Text Sessions Router Ipc ExecTools Llm Adapters Json.
Local Open Scope Z_scope.

(** ** A provider over HTTP *)

Record HttpResponse : Type := {
  hr_status : Z; hr_status_text : string; hr_json : result string json; hr_text : result string string;
  hr_bytes : result string string; hr_chunks : list (result string string) }.
Definition is_success (r : HttpResponse) : bool := bool_decide (200 <= hr_status r < 300).
Notation header := (option (string * string)).
(** The answers to a JSON and to a multipart request. *)
Record Net : Type := {
  post_json : string -> header -> json -> result string HttpResponse;
  post_form : string -> header -> string -> list (string * string) -> result string HttpResponse }.

(** The trait [LlmClient]. *)
Record LlmClient : Type := {
  lc_complete : LlmCompleteRequest -> option (result string LlmCompleteResponse);
  lc_stream : LlmCompleteRequest -> result string (list (result string StreamChunk)) }.

Record DirectHttpLlmClient : Type := {
  dh_base_url : string; dh_default_model : string; dh_auth_header : header; dh_adapter : ProviderAdapter }.

Section Client.
Context `{!JsonStr}.

Definition tool_descriptor (t : json) : option AvixToolDescriptor :=
  n ← as_str (jindex t "name");
  Some {| td_name := n; td_description := str_or "" (jindex t "description");
          input_schema := default (JObj [("type", JStr "object"); ("properties", JObj [])]%string) (jget t "input_schema") |}.
Definition avix_request (cl : DirectHttpLlmClient) (stream : bool) (req : LlmCompleteRequest) : AvixCompleteRequest := {|
  cr_provider := None; cr_model := if String.eqb (lr_model req) "" then dh_default_model cl else lr_model req;
  cr_messages := match lr_system req with
                 | Some sys => JObj [("role", JStr "system"); ("content", JStr sys)]%string :: lr_messages req
                 | None => lr_messages req
                 end;
  cr_system := None; cr_max_tokens := Some (lr_max_tokens req); cr_temperature := None; cr_stream := Some stream;
  cr_stop_sequences := None; cr_tools := omap tool_descriptor (lr_tools req);
  cr_metadata := {| agent_pid := 0; session_id := "" |} |}.
Definition url_of (cl : DirectHttpLlmClient) (path : string) : string := (trim_end_matches "/" (dh_base_url cl) +:+ path)%string.
Definition client_stop_reason (s : string) : StopReason :=
  if String.eqb s "tool_use" then ToolUse else if String.eqb s "max_tokens" then MaxTokens
  else if String.eqb s "stop_sequence" then StopSequence else EndTurn.

Definition http_complete (net : Net) (cl : DirectHttpLlmClient) (req : LlmCompleteRequest) : option (result string LlmCompleteResponse) :=
  let ad := text_adapter (dh_adapter cl) in
  let url := url_of cl (complete_path ad) in
  match post_json net url (dh_auth_header cl) (build_complete_request ad (avix_request cl false req)) with
  | Err e => Some (Err ("HTTP error calling " +:+ url +:+ ": " +:+ e)%string)
  | Ok resp =>
      match hr_json resp with
      | Err e => Some (Err ("failed to parse JSON response from " +:+ url +:+ ": " +:+ e)%string)
      | Ok raw =>
          if negb (is_success resp) then
            let msg := default (json_str raw) (as_str (jindex (jindex raw "error") "message")) in
            Some (Err ("provider " +:+ pa_name (dh_adapter cl) +:+ " returned " +:+ hr_status_text resp +:+ ": " +:+ msg)%string)
          else
            r ← parse_complete_response ad raw;
            Some (match r with
                  | Err e => Err ("failed to parse provider response: " +:+ adapter_err_to_string e)%string
                  | Ok a => Ok {| rsp_content := cp_content a; rsp_stop_reason := client_stop_reason (cp_stop_reason a);
                                  rsp_input_tokens := us_input (cp_usage a); rsp_output_tokens := us_output (cp_usage a) |}
                  end)
      end
  end.

(** The index of each call as it starts: OpenAI's then Anthropic's form of the event. *)
Definition note_openai (v : json) (id : string) (m : gmap string string) : gmap string string :=
  match as_array (jindex (jindex (jnth (jindex v "choices") 0) "delta") "tool_calls") with
  | Some tcs =>
      foldl (fun m tc => if bool_decide (as_str (jindex tc "id") = Some id) then
                           match as_u64 (jindex tc "index") with Some i => <[pretty i := id]> m | None => m end
                         else m) m tcs
  | None => m
  end.
Definition note_anthropic (v : json) (id : string) (m : gmap string string) : gmap string string :=
  let block := jindex v "content_block" in
  if bool_decide (as_str (jindex block "type") = Some "tool_use"%string) && bool_decide (as_str (jindex block "id") = Some id) then
    match as_u64 (jindex v "index") with Some i => <[pretty i := id]> m | None => m end
  else m.
Definition fix_up (data : string) (m : gmap string string) (c : StreamChunk) : StreamChunk * gmap string string :=
  match c with
  | ToolCallStart id _ =>
      (c, match json_parse data with Ok v => note_anthropic v id (note_openai v id m) | Err _ => m end)
  | ToolCallArgsDelta id a => (match m !! id with Some real => ToolCallArgsDelta real a | None => c end, m)
  | _ => (c, m)
  end.
(** One line of the stream; the state is the last [event:] line and the ids of the calls by index. *)
Definition scan_line (ad : TextAdapter) (st : option string * gmap string string) (line : result string SseLine)
    : (option string * gmap string string) * option (result string StreamChunk) :=
  match line with
  | Err e => (st, Some (Err e))
  | Ok SseDone => (st, None)
  | Ok (SseEvent n) => ((Some n, st.2), None)
  | Ok (SseData data) =>
      match parse_stream_event ad st.1 data with
      | Err e => ((None, st.2), Some (Err ("SSE parse error: " +:+ adapter_err_to_string e)%string))
      | Ok None => ((None, st.2), None)
      | Ok (Some c) => let '(c, m) := fix_up data st.2 c in ((None, m), Some (Ok c))
      end
  end.
Fixpoint scan_lines (ad : TextAdapter) (st : option string * gmap string string) (ls : list (result string SseLine))
    : list (result string StreamChunk) :=
  match ls with
  | [] => []
  | l :: ls => let '(st, o) := scan_line ad st l in option_list o ++ scan_lines ad st ls
  end.

Definition http_stream (net : Net) (cl : DirectHttpLlmClient) (req : LlmCompleteRequest) : result string (list (result string StreamChunk)) :=
  let ad := text_adapter (dh_adapter cl) in
  let url := url_of cl (stream_complete_path ad) in
  match post_json net url (dh_auth_header cl) (build_stream_request ad (avix_request cl true req)) with
  | Err e => Err ("HTTP error calling " +:+ url +:+ ": " +:+ e)%string
  | Ok resp =>
      if negb (is_success resp) then
        Err ("provider " +:+ pa_name (dh_adapter cl) +:+ " returned " +:+ hr_status_text resp +:+ ": "
             +:+ match hr_text resp with Ok t => t | Err _ => EmptyString end)%string
      else Ok (scan_lines ad (None, ∅) (sse_lines EmptyString (hr_chunks resp)))
  end.
Definition http_client (net : Net) (cl : DirectHttpLlmClient) : LlmClient :=
  {| lc_complete := http_complete net cl; lc_stream := http_stream net cl |}.
End Client.

(** ** The service *)

Record LlmService : Type := {
  ls_config : LlmConfig; ls_adapters : gmap string ProviderAdapter; ls_routing : RoutingEngine;
  credentials : gmap string (string * string); usage : UsageTracker; text_clients : gmap string LlmClient }.
Definition with_usage (s : LlmService) (u : UsageTracker) : LlmService := {|
  ls_config := ls_config s; ls_adapters := ls_adapters s; ls_routing := ls_routing s; credentials := credentials s;
  usage := u; text_clients := text_clients s |}.

Definition resolve_auth_header (env : string -> option string) (a : ProviderAuth) : header :=
  match a with
  | ApiKey secret_name header prefix =>
      key ← env secret_name; Some (header, match prefix with Some p => (p +:+ key)%string | None => key end)
  | NoAuth | Oauth2 _ _ _ _ _ _ => None
  end.
Definition default_text_model (p : ProviderConfig) : string :=
  match list_find (fun m => mc_modality m = Modality.Text) (models p) with Some (_, m) => mc_id m | None => EmptyString end.

Section Service.
Context `{!JsonStr} (checks : bool) (b64 : string -> result string string) (net : Net).

(** The client a provider of the configuration gets when none was injected. *)
Definition auto_client (env : string -> option string) (p : ProviderConfig) : option LlmClient :=
  if negb (bool_decide (Modality.Text ∈ modalities p)) then None
  else
    ad ← make_provider_adapter checks b64 (pc_name p);
    let auth := resolve_auth_header env (pc_auth p) in
    match pc_auth p, auth with
    | ApiKey _ _ _, None => None
    | _, _ => Some (http_client net {| dh_base_url := base_url p; dh_default_model := default_text_model p;
                                       dh_auth_header := auth; dh_adapter := ad |})
    end.
Definition register_client (env : string -> option string) (m : gmap string LlmClient) (p : ProviderConfig) : gmap string LlmClient :=
  match m !! pc_name p with
  | Some _ => m
  | None => match auto_client env p with Some c => <[pc_name p := c]> m | None => m end
  end.
Definition service_new (env : string -> option string) (cfg : LlmConfig) (adapters : gmap string ProviderAdapter)
    (r : RoutingEngine) (clients : gmap string LlmClient) : LlmService := {|
  ls_config := cfg; ls_adapters := adapters; ls_routing := r; credentials := ∅; usage := ∅;
  text_clients := foldl (register_client env) clients (spec_providers (llm_spec cfg)) |}.

Context `{!UuidText}.

Definition stop_reason_str (s : StopReason) : string :=
  match s with EndTurn => "end_turn" | ToolUse => "tool_use" | MaxTokens => "max_tokens" | StopSequence => "stop_sequence" end%string.
Definition explicit_provider (params : json) : option string := as_str (jindex params "provider").
Definition model_of (params : json) : string := str_or "claude-haiku-4-5-20251001" (jindex params "model").
(** [uuid] is fresh. *)
Definition llm_request (uuid : string) (params : json) : LlmCompleteRequest := {|
  lr_model := model_of params; lr_messages := default [] (as_array (jindex params "messages"));
  lr_tools := default [] (as_array (jindex params "tools")); lr_system := as_str (jindex params "system");
  lr_max_tokens := as_u32 (default 4096 (as_u64 (jindex params "max_tokens")));
  lr_turn_id := match as_str (jindex params "turn_id") with
                | Some t => match parse_str t with Ok u => uuid_str u | Err _ => uuid end
                | None => uuid
                end |}.
Definition metadata_of (params : json) : CompleteMetadata := {|
  agent_pid := default 0 (as_u64 (jindex (jindex params "metadata") "agent_pid"));
  session_id := str_or "" (jindex (jindex params "metadata") "session_id") |}.

Implicit Types (s : LlmService) (params : json).
Definition failed s (e : AvixError) : option (result AvixError json * LlmService) := Some (Err e, s).

Definition handle_complete (uuid : string) (latency : Z) s params : option (result AvixError json * LlmService) :=
  let model := model_of params in
  match resolve (ls_routing s) Modality.Text (explicit_provider params) with
  | Err e => failed s e
  | Ok pc =>
      let pname := pc_name pc in
      match text_clients s !! pname with
      | None => failed s (NoProviderAvailable ("no text client for " +:+ pname)%string)
      | Some client =>
          r ← lc_complete client (llm_request uuid params);
          match r with
          | Err e => failed s (AdapterError e)
          | Ok resp =>
              u ← record_text checks (usage s) pname (rsp_input_tokens resp) (rsp_output_tokens resp);
              total ← total_tokens checks resp;
              Some (Ok (JObj [("provider", JStr pname); ("model", JStr model); ("content", JArr (rsp_content resp));
                              ("stop_reason", JStr (stop_reason_str (rsp_stop_reason resp)));
                              ("input_tokens", JInt (rsp_input_tokens resp)); ("output_tokens", JInt (rsp_output_tokens resp));
                              ("total_tokens", JInt total); ("latency_ms", JInt latency)]%string), with_usage s u)
          end
      end
  end.

(** The provider and adapter of a request that is not for text. *)
Definition media_route s (m : Modality.t) params : result AvixError (ProviderConfig * ProviderAdapter) :=
  pc ← resolve (ls_routing s) m (explicit_provider params);
  ad ← ok_or (NoProviderAvailable ("no adapter for " +:+ pc_name pc)%string) (ls_adapters s !! pc_name pc);
  Ok (pc, ad).
Definition adapted {A} (r : result AdapterErr A) : result AvixError A := map_err (fun e => AdapterError (adapter_err_to_string e)) r.
Definition http_error {A} (r : result string A) : result AvixError A := map_err (fun e => AdapterError ("HTTP error: " +:+ e)%string) r.
Definition json_body (r : HttpResponse) : result AvixError json := map_err (fun e => AdapterError ("JSON parse: " +:+ e)%string) (hr_json r).
Definition endpoint_url (pc : ProviderConfig) (path : string) : string := (trim_end_matches "/" (base_url pc) +:+ path)%string.
(** A request that succeeded is recorded. *)
Definition finish_media s (r : result AvixError (json * option UsageTracker)) : option (result AvixError json * LlmService) :=
  match r with
  | Err e => failed s e
  | Ok (j, u) => u ← u; Some (Ok j, with_usage s u)
  end.

Definition image_json (o : ImageOutput) (path : string) : json :=
  JObj [("file_path", JStr path); ("mime_type", JStr (io_mime_type o)); ("size", jopt JStr (io_size o)); ("bytes", JInt (io_bytes o))]%string.
(** The outputs are renamed; [uuids] are fresh. *)
Definition image_path (pid : Z) (uuid : string) (o : ImageOutput) : string :=
  ("/proc/" +:+ pretty pid +:+ "/scratch/img-" +:+ uuid +:+ "." +:+ (if str_contains "png" (io_mime_type o) then "png" else "jpg"))%string.
Definition handle_generate_image (uuids : nat -> string) s params : option (result AvixError json * LlmService) :=
  finish_media s (
    '(pc, ad) ← media_route s Modality.Image params;
    let pname := pc_name pc in
    let req := {| ir_provider := Some pname; ir_model := str_or "" (jindex params "model"); ir_prompt := str_or "" (jindex params "prompt");
      ir_negative_prompt := as_str (jindex params "negative_prompt"); ir_size := as_str (jindex params "size");
      ir_style := as_str (jindex params "style"); ir_n := as_u32 <$> as_u64 (jindex params "n"); ir_metadata := metadata_of params |} in
    body ← adapted (build_image_request (media ad) req);
    resp ← http_error (post_json net (endpoint_url pc "/v1/images/generations") (credentials s !! pname) body);
    raw ← json_body resp;
    outs ← adapted (parse_image_response (media ad) raw);
    Ok (JObj [("provider", JStr pname); ("model", JStr (ir_model req));
              ("images", JArr (imap (fun i o => image_json o (image_path (agent_pid (ir_metadata req)) (uuids i) o)) outs));
              ("latency_ms", JInt 0)]%string, record_image checks (usage s) pname)).

Definition handle_generate_speech (uuid : string) s params : option (result AvixError json * LlmService) :=
  finish_media s (
    '(pc, ad) ← media_route s Modality.Speech params;
    let pname := pc_name pc in
    let req := {| sr_provider := Some pname; sr_model := str_or "" (jindex params "model"); sr_text := str_or "" (jindex params "text");
      sr_voice := str_or "" (jindex params "voice"); sr_format := as_str (jindex params "format");
      sr_speed := f32_of_f64 <$> as_f64 (jindex params "speed"); sr_stream := as_bool (jindex params "stream"); sr_metadata := metadata_of params |} in
    ep ← adapted (speech_endpoint (media ad) req);
    body ← adapted (build_speech_request (media ad) req);
    resp ← http_error (post_json net (endpoint_url pc (se_url ep)) (credentials s !! pname) body);
    audio ← map_err (fun e => AdapterError ("bytes error: " +:+ e)%string) (hr_bytes resp);
    Ok (JObj [("provider", JStr pname); ("model", JStr (sr_model req));
              ("file_path", JStr ("/proc/" +:+ pretty (agent_pid (sr_metadata req)) +:+ "/scratch/speech-" +:+ uuid +:+ "." +:+ se_format ep));
              ("mime_type", JStr ("audio/" +:+ se_format ep)); ("bytes", JInt (Z.of_nat (String.length audio))); ("latency_ms", JInt 0)]%string,
        record_speech checks (usage s) pname (Z.of_nat (String.length (sr_text req))))).

Definition transcribe_json (r : AvixTranscribeResponse) : json :=
  let f x := JFloat (f64_of_f32 x) in
  JObj [("text", JStr (tp_text r)); ("language", jopt JStr (tp_language r)); ("duration_sec", jopt f (tp_duration_sec r));
        ("segments", jopt (fun l => JArr (fmap (M := list)
           (fun g => JObj [("start", f (ts_start g)); ("end", f (ts_end g)); ("text", JStr (ts_text g))]%string) l)) (tp_segments r))]%string.
Context `{!HashOrder}.
Definition handle_transcribe s params : option (result AvixError json * LlmService) :=
  finish_media s (
    '(pc, ad) ← media_route s Modality.Transcription params;
    let pname := pc_name pc in
    let req := {| tq_provider := Some pname; tq_model := str_or "whisper-1" (jindex params "model");
      tq_file_path := str_or "" (jindex params "file_path"); tq_language := as_str (jindex params "language");
      tq_prompt := as_str (jindex params "prompt"); tq_granularity := as_str (jindex params "granularity"); tq_metadata := metadata_of params |} in
    mp ← adapted (build_transcription_request (media ad) req EmptyString);
    resp ← http_error (post_form net (endpoint_url pc (mp_url mp)) (credentials s !! pname) (mp_audio_bytes mp)
                         (("model", tq_model req)%string :: hash_iter _ (mp_fields mp)));
    raw ← json_body resp;
    r ← adapted (parse_transcription_response (media ad) raw);
    Ok (transcribe_json r, record_transcription checks (usage s) pname (f64_of_f32 (default (f32_of_f64 (f64_of_int 0)) (tp_duration_sec r))))).

Definition embed_input (params : json) : result AvixError EmbedInput :=
  match jindex params "input" with
  | JArr arr => Ok (Batch (omap as_str arr))
  | JStr x => Ok (Single x)
  | _ => Err (AdapterError "missing input")
  end.
Definition embed_json (r : AvixEmbedResponse) : json :=
  JObj [("embeddings", JArr (fmap (M := list) (fun e => JArr (fmap (M := list) (fun x => JFloat (f64_of_f32 x)) e)) (embeddings r)));
        ("dimensions", JInt (dimensions r)); ("usage", JObj [("input_tokens", JInt (ep_input_tokens r))])]%string.
Definition handle_embed s params : option (result AvixError json * LlmService) :=
  finish_media s (
    '(pc, ad) ← media_route s Modality.Embedding params;
    let pname := pc_name pc in
    input ← embed_input params;
    let req := {| eq_provider := Some pname; eq_model := str_or "text-embedding-3-small" (jindex params "model"); eq_input := input;
      eq_metadata := metadata_of params |} in
    body ← adapted (build_embed_request (media ad) req);
    resp ← http_error (post_json net (endpoint_url pc "/v1/embeddings") (credentials s !! pname) body);
    raw ← json_body resp;
    r ← adapted (parse_embed_response (media ad) raw);
    Ok (embed_json r, record_embedding checks (usage s) pname (ep_input_tokens r))).

Definition auth_type (a : ProviderAuth) : string :=
  match a with ApiKey _ _ _ => "api_key" | Oauth2 _ _ _ _ _ _ => "oauth2" | NoAuth => "none" end%string.
Definition provider_json (r : RoutingEngine) (p : ProviderConfig) : json :=
  let '(st, last_error) := match status r !! pc_name p with
                           | Some Available | None => ("available", None)
                           | Some (Degraded x) => ("degraded", Some x)
                           | Some (Unavailable x) => ("unavailable", Some x)
                           end%string in
  JObj [("name", JStr (pc_name p)); ("status", JStr st); ("modalities", jstrs (Modality.as_str <$> modalities p));
        ("models", jstrs (mc_id <$> models p)); ("auth_type", JStr (auth_type (pc_auth p))); ("last_error", jopt JStr last_error)]%string.
Definition handle_providers s : json :=
  JObj [("providers", JArr (provider_json (ls_routing s) <$> spec_providers (llm_spec (ls_config s))));
        ("default_providers", JObj ((fun m => (Modality.as_str m, JStr (default_name (ls_config s) m))) <$> Modality.all))]%string.
Definition usage_json (u : ProviderUsage) : json :=
  let counts := fun a b => [("requests", JInt a); ("errors", JInt b)]%string in
  JObj [("text", JObj ([("input_tokens", JInt (tu_input (u_text u))); ("output_tokens", JInt (tu_output (u_text u)))]
                       ++ counts (tu_requests (u_text u)) (tu_errors (u_text u))));
        ("image", JObj (counts (iu_requests (u_image u)) (iu_errors (u_image u))));
        ("speech", JObj (("characters_generated", JInt (su_chars (u_speech u))) :: counts (su_requests (u_speech u)) (su_errors (u_speech u))));
        ("transcription", JObj (("audio_seconds", JFloat (au_seconds (u_transcription u))) ::
                                counts (au_requests (u_transcription u)) (au_errors (u_transcription u))));
        ("embedding", JObj (("input_tokens", JInt (eu_input (u_embedding u))) :: counts (eu_requests (u_embedding u)) (eu_errors (u_embedding u))))]%string.
Definition handle_usage s : json := JObj ((fun kv => (kv.1, usage_json kv.2)) <$> hash_iter _ (usage s)).

Definition llm_error_code (e : AvixError) : Z :=
  match e with
  | NoProviderAvailable _ => JsonRpcErrorCode.code JsonRpcErrorCode.Eprovider
  | ProviderNotPermitted _ => JsonRpcErrorCode.code JsonRpcErrorCode.Eprovperm
  | _ => -32603
  end.
Definition dispatch (uuids : nat -> string) (latency : Z) s (rq : JsonRpcRequest) : option (JsonRpcResponse * LlmService) :=
  let p := params rq in
  let named := String.eqb (method rq) in
  r ← (if named "llm/complete" then handle_complete (uuids 0%nat) latency s p
       else if named "llm/generate-image" then handle_generate_image uuids s p
       else if named "llm/generate-speech" then handle_generate_speech (uuids 0%nat) s p
       else if named "llm/transcribe" then handle_transcribe s p
       else if named "llm/embed" then handle_embed s p
       else if named "llm/providers" then Some (Ok (handle_providers s), s)
       else if named "llm/usage" then Some (Ok (handle_usage s), s)
       else failed s (ConfigParse ("unknown method: " +:+ method rq)))%string;
  Some (match r with
        | (Ok v, s) => (rpc_ok (rq_id rq) v, s)
        | (Err e, s) => (rpc_err (rq_id rq) (llm_error_code e) (avix_error_to_string e) None, s)
        end).
Definition dispatch_stream (uuid : string) s (rq : JsonRpcRequest) : result AvixError (list (result string StreamChunk)) :=
  pc ← resolve (ls_routing s) Modality.Text (explicit_provider (params rq));
  client ← ok_or (NoProviderAvailable ("no text client for " +:+ pc_name pc)%string) (text_clients s !! pc_name pc);
  map_err AdapterError (lc_stream client (llm_request uuid (params rq))).

(** ** The socket *)

Definition chunk_json (c : StreamChunk) : json :=
  match c with
  | TextDelta t => JObj [("type", JStr "text_delta"); ("text", JStr t)]
  | ToolCallStart i n => JObj [("type", JStr "tool_call_start"); ("call_id", JStr i); ("name", JStr n)]
  | ToolCallArgsDelta i a => JObj [("type", JStr "tool_call_args_delta"); ("call_id", JStr i); ("args_delta", JStr a)]
  | ToolCallComplete i => JObj [("type", JStr "tool_call_complete"); ("call_id", JStr i)]
  | Done r i o => JObj [("type", JStr "done"); ("stop_reason", JStr (stop_reason_str r)); ("input_tokens", JInt i); ("output_tokens", JInt o)]
  end%string.
Definition chunk_frame (id : string) (c : StreamChunk) : json :=
  to_json (notification_new "llm.stream.chunk" (JObj [("stream_id", JStr id); ("chunk", chunk_json c)]%string)).
(** The frames for the rest of a stream, with what the last [Done] said. *)
Fixpoint stream_frames (id : string) (last : StopReason * Z * Z) (chunks : list (result string StreamChunk)) : list json :=
  match chunks with
  | [] => let '(r, i, o) := last in
          [to_json (rpc_ok id (JObj [("done", JBool true); ("stop_reason", JStr (stop_reason_str r));
                                     ("input_tokens", JInt i); ("output_tokens", JInt o)]%string))]
  | Ok c :: chunks => chunk_frame id c :: stream_frames id (match c with Done r i o => (r, i, o) | _ => last end) chunks
  | Err e :: _ => [to_json (rpc_err id (-32603) e None)]
  end.
(** The frames that reach the peer when it accepts [writes] of them. *)
Definition handle_stream_complete (uuid : string) (writes : nat) s (rq : JsonRpcRequest) : list json :=
  take writes (match dispatch_stream uuid s rq with
               | Err e => [to_json (rpc_err (rq_id rq) (-32603) (avix_error_to_string e) None)]
               | Ok chunks => stream_frames (rq_id rq) (EndTurn, 0, 0) chunks
               end).
Definition handle_message_bidir (uuids : nat -> string) (latency : Z) (writes : nat) s (msg : IpcMessage) : option (list json * LlmService) :=
  match msg with
  | Notification _ => Some ([], s)
  | Request rq =>
      if String.eqb (method rq) "llm/stream_complete" then Some (handle_stream_complete (uuids 0%nat) writes s rq, s)
      else '(r, s) ← dispatch uuids latency s rq; Some (take writes [to_json r], s)
  end.

(** ** The executor's client *)

Record IpcLlmClient : Type := { ic_socket_path : string; ic_agent_pid : Z; ic_session_id : string }.
Definition request_json (r : LlmCompleteRequest) : json :=
  JObj [("model", JStr (lr_model r)); ("messages", JArr (lr_messages r)); ("tools", JArr (lr_tools r));
        ("system", jopt JStr (lr_system r)); ("max_tokens", JInt (lr_max_tokens r)); ("turn_id", JStr (lr_turn_id r))]%string.
Definition client_request (cl : IpcLlmClient) (uuid m : string) (r : LlmCompleteRequest) : JsonRpcRequest := {|
  rq_jsonrpc := "2.0"; rq_id := uuid; method := m;
  params := jobj_insert (request_json r) "metadata" (JObj [("agent_pid", JInt (ic_agent_pid cl)); ("session_id", JStr (ic_session_id cl))]%string) |}.

Definition u32_field (j : json) (k : string) : option Z :=
  match jget j k with Some (JInt z) => if decide (is_u32 z) then Some z else None | _ => None end.
Definition stop_of_str (s : string) : option StopReason :=
  match stop_reason_from_str s with Ok r => Some r | Err _ => None end.
(** [serde_json::from_value::<LlmCompleteResponse>] *)
Definition response_of (j : json) : option LlmCompleteResponse :=
  c ← jget j "content" ≫= as_array;
  r ← (jget j "stop_reason" ≫= as_str) ≫= stop_of_str;
  i ← u32_field j "input_tokens"; o ← u32_field j "output_tokens";
  Some {| rsp_content := c; rsp_stop_reason := r; rsp_input_tokens := i; rsp_output_tokens := o |}.
(** The exchange on a connection is [Err] when connecting, writing or reading fails; [de] is the text of
    serde's error. *)
Definition ipc_complete (de : json -> string) (exchange : JsonRpcRequest -> result string JsonRpcResponse) (cl : IpcLlmClient)
    (uuid : string) (r : LlmCompleteRequest) : result string LlmCompleteResponse :=
  resp ← exchange (client_request cl uuid "llm/complete" r);
  match rs_error resp with
  | Some e => Err ("llm.svc error " +:+ pretty (code e) +:+ ": " +:+ message e)%string
  | None =>
      result ← ok_or "llm.svc returned empty result"%string (rs_result resp);
      ok_or ("failed to deserialize llm.svc response: " +:+ de result)%string (response_of result)
  end.

(** [serde_json::from_value::<StreamChunk>] *)
Definition chunk_of (j : json) : option StreamChunk :=
  t ← jget j "type" ≫= as_str;
  if String.eqb t "text_delta" then TextDelta <$> (jget j "text" ≫= as_str)
  else if String.eqb t "tool_call_start" then i ← jget j "call_id" ≫= as_str; n ← jget j "name" ≫= as_str; Some (ToolCallStart i n)
  else if String.eqb t "tool_call_args_delta" then i ← jget j "call_id" ≫= as_str; a ← jget j "args_delta" ≫= as_str; Some (ToolCallArgsDelta i a)
  else if String.eqb t "tool_call_complete" then ToolCallComplete <$> (jget j "call_id" ≫= as_str)
  else if String.eqb t "done" then
    r ← (jget j "stop_reason" ≫= as_str) ≫= stop_of_str; i ← u32_field j "input_tokens"; o ← u32_field j "output_tokens"; Some (Done r i o)
  else None.
(** The task that reads the socket: what it sends to the channel, frame by frame. *)
Fixpoint read_stream (de : json -> string) (frames : list (result string json)) : list (result string StreamChunk) :=
  match frames with
  | [] => []
  | Err e :: _ => [Err ("IPC read error: " +:+ e)%string]
  | Ok raw :: frames =>
      match jget raw "result", jget raw "error" with
      | _, Some err => [Err ("llm.svc stream error: " +:+ str_or "unknown error" (jindex err "message"))%string]
      | Some _, None => []
      | None, None =>
          if String.eqb (str_or "" (jindex raw "method")) "llm.stream.chunk" then
            let v := jindex (jindex raw "params") "chunk" in
            match chunk_of v with
            | Some c => Ok c :: read_stream de frames
            | None => [Err ("failed to deserialize StreamChunk: " +:+ de v)%string]
            end
          else read_stream de frames
      end
  end.
End Service.

(** ** The executor's client is the provider's client *)

Section Transparent.
Context `{!JsonStr, !UuidText, !UuidLaws, !HashOrder} (checks : bool) (b64 : string -> result string string) (net : Net).
Implicit Types (svc : LlmService) (req : LlmCompleteRequest) (cl : IpcLlmClient).

(** A request as the executor makes it. *)
Definition well_formed req : Prop := is_u32 (lr_max_tokens req) /\ exists u, lr_turn_id req = uuid_str u.
Definition u32_tokens (a : LlmCompleteResponse) : Prop := is_u32 (rsp_input_tokens a) /\ is_u32 (rsp_output_tokens a).

Lemma as_u32_id n : is_u32 n -> as_u32 n = n.
Proof. intros Hn. unfold as_u32. apply Z.mod_small. unfold is_u32, u32_max in *. lia. Qed.

Lemma llm_request_of_client cl uuid id m req : well_formed req -> llm_request uuid (params (client_request cl id m req)) = req.
Proof.
  intros [Hm [u Hu]]. destruct req as [mo ms ts sy mt tu]. cbn in Hm, Hu. subst tu. unfold llm_request, model_of, client_request. read_keys.
  rewrite parse_uuid_str. rewrite decide_True by (unfold is_u64, is_u32, u32_max, u64_max in *; lia). cbn. rewrite as_u32_id by done.
  by destruct sy.
Qed.
Lemma client_names_no_provider cl id m req : explicit_provider (params (client_request cl id m req)) = None.
Proof. done. Qed.

(** An error of the service as the client shows it. *)
Definition svc_error (e : AvixError) : string := ("llm.svc error " +:+ pretty (llm_error_code e) +:+ ": " +:+ avix_error_to_string e)%string.
(** The client that serves text requests without an explicit provider. *)
Definition text_client svc : result AvixError (string * LlmClient) :=
  pc ← resolve (ls_routing svc) Modality.Text None;
  c ← ok_or (NoProviderAvailable ("no text client for " +:+ pc_name pc)%string) (text_clients svc !! pc_name pc);
  Ok (pc_name pc, c).

Lemma stop_of_stop_str r : stop_of_str (stop_reason_str r) = Some r.
Proof. by destruct r. Qed.

Lemma response_of_answer pname model a total latency : u32_tokens a ->
  response_of (JObj [("provider", JStr pname); ("model", JStr model); ("content", JArr (rsp_content a));
                     ("stop_reason", JStr (stop_reason_str (rsp_stop_reason a)));
                     ("input_tokens", JInt (rsp_input_tokens a)); ("output_tokens", JInt (rsp_output_tokens a));
                     ("total_tokens", JInt total); ("latency_ms", JInt latency)]%string) = Some a.
Proof.
  intros [Hi Ho]. destruct a as [c r i o]. cbn in Hi, Ho. unfold response_of, u32_field. read_keys. rewrite stop_of_stop_str. cbn.
  by rewrite !decide_True by done.
Qed.

(** A completion the executor asks for over the socket is the completion of the provider's client that the routing
    selects: the same request reaches it, its answer comes back unchanged and its error as the message of the
    service's error; nothing of the service changes but the text counters of that provider, and those only for an
    answer. *)
Theorem ipc_complete_transparent cl de uuids latency id svc svc' req resp :
  well_formed req ->
  dispatch checks net uuids latency svc (client_request cl id "llm/complete" req) = Some (resp, svc') ->
  (forall p c a, text_client svc = Ok (p, c) -> lc_complete c req = Some (Ok a) -> u32_tokens a) ->
  rs_id resp = id /\
  match text_client svc with
  | Err e => ipc_complete de (fun _ => Ok resp) cl id req = Err (svc_error e) /\ svc' = svc
  | Ok (p, c) =>
      exists r, lc_complete c req = Some r /\
      match r with
      | Err e => ipc_complete de (fun _ => Ok resp) cl id req = Err (svc_error (AdapterError e)) /\ svc' = svc
      | Ok a => ipc_complete de (fun _ => Ok resp) cl id req = Ok a /\
                exists u, record_text checks (usage svc) p (rsp_input_tokens a) (rsp_output_tokens a) = Some u /\ svc' = with_usage svc u
      end
  end.
Proof.
  intros Wf D U. unfold dispatch in D.
  change (String.eqb (method (client_request cl id "llm/complete" req)) "llm/complete") with true in D. cbv iota in D.
  unfold handle_complete in D. rewrite client_names_no_provider, llm_request_of_client in D by done.
  unfold text_client in *. destruct (resolve _ _ _) as [pc|e]; cbn [mbind result_bind] in *.
  2:{ cbn in D. injection D as <- <-. done. }
  destruct (text_clients svc !! pc_name pc) as [c|]; cbn [ok_or mbind result_bind] in *.
  2:{ cbn in D. injection D as <- <-. done. }
  destruct (lc_complete c req) as [[a|e]|] eqn:E; cbn [mbind option_bind] in D; [| |done].
  2:{ cbn in D. injection D as <- <-. split; [done|]. by exists (Err e). }
  specialize (U _ _ a eq_refl E).
  destruct (record_text _ _ _ _ _) as [u|] eqn:Er; [|done]. cbn [mbind option_bind] in D.
  destruct (total_tokens _ _) as [t|]; [|done]. cbn [mbind option_bind] in D. injection D as <- <-.
  split; [done|]. exists (Ok a). split; [done|]. split; [|by exists u].
  unfold ipc_complete. cbn [mbind result_bind rpc_ok rs_error rs_result ok_or]. by rewrite response_of_answer.
Qed.

(** ** Streams *)

Definition u32_chunk (c : StreamChunk) : Prop := match c with Done _ i o => is_u32 i /\ is_u32 o | _ => True end.
(** What the executor sees of a provider's stream: all of it up to the first error. *)
Fixpoint seen (chunks : list (result string StreamChunk)) : list (result string StreamChunk) :=
  match chunks with
  | [] => []
  | Ok c :: chunks => Ok c :: seen chunks
  | Err e :: _ => [Err ("llm.svc stream error: " +:+ e)%string]
  end.
Definition seen_stream svc req : list (result string StreamChunk) :=
  match text_client svc with
  | Err e => [Err ("llm.svc stream error: " +:+ avix_error_to_string e)%string]
  | Ok (_, c) => match lc_stream c req with
                 | Err e => [Err ("llm.svc stream error: " +:+ avix_error_to_string (AdapterError e))%string]
                 | Ok chunks => seen chunks
                 end
  end.

Lemma chunk_of_json c : u32_chunk c -> chunk_of (chunk_json c) = Some c.
Proof.
  destruct c as [t|i n|i a|i|r i o]; [by vm_compute..|]. intros [Hi Ho]. cbn in Hi, Ho. unfold chunk_of, u32_field. read_keys. rewrite stop_of_stop_str. read_keys.
  by rewrite !decide_True by done.
Qed.
Lemma read_chunk_frame de id c frames : u32_chunk c -> read_stream de (Ok (chunk_frame id c) :: frames) = Ok c :: read_stream de frames.
Proof. intros Hc. unfold chunk_frame. read_keys. by rewrite chunk_of_json. Qed.
Lemma read_error_frame de id c e frames : read_stream de (Ok (to_json (rpc_err id c e None)) :: frames) = [Err ("llm.svc stream error: " +:+ e)%string].
Proof. by read_keys. Qed.

Lemma read_stream_frames de id eof : forall chunks last k, Forall (fun c => forall x, c = Ok x -> u32_chunk x) chunks ->
  read_stream de ((Ok <$> take k (stream_frames id last chunks)) ++ [Err eof]) =
  if decide (length (stream_frames id last chunks) <= k)%nat then seen chunks
  else take k (seen chunks) ++ [Err ("IPC read error: " +:+ eof)%string].
Proof.
  induction chunks as [|[c|e] chunks IH]; intros [[r i] o] k F.
  - cbn [stream_frames seen]. destruct k as [|k]; [done|]. rewrite (decide_True (P := (_ <= _)%nat)) by (cbn; lia). cbn [take]. rewrite take_nil.
    by read_keys.
  - apply Forall_cons in F as [Hc F]. specialize (Hc c eq_refl). cbn [stream_frames]. destruct k as [|k]; [done|].
    cbn [take fmap list_fmap app length seen]. rewrite read_chunk_frame by done. rewrite IH by done.
    destruct (decide (_ <= k)%nat), (decide (_ <= S k)%nat); try lia; done.
  - cbn [stream_frames seen]. destruct k as [|k]; [done|]. rewrite (decide_True (P := (_ <= _)%nat)) by (cbn; lia). cbn [take]. rewrite take_nil. apply read_error_frame.
Qed.

(** C19: A stream the executor reads over the socket is the stream of the provider's client that the routing selects,
    chunk by chunk, up to its first error.  When the connection breaks before the last frame it has the same beginning
    and ends in an error: a stream that is cut never looks complete. *)
Theorem ipc_stream_transparent cl de uuid id svc req writes eof :
  well_formed req ->
  (forall p c chunks x, text_client svc = Ok (p, c) -> lc_stream c req = Ok chunks -> Ok x ∈ chunks -> u32_chunk x) ->
  let rq := client_request cl id "llm/stream_complete" req in
  let all := handle_stream_complete uuid (S (length (seen_stream svc req))) svc rq in
  read_stream de ((Ok <$> handle_stream_complete uuid writes svc rq) ++ [Err eof]) =
  if decide (length all <= writes)%nat then seen_stream svc req
  else take writes (seen_stream svc req) ++ [Err ("IPC read error: " +:+ eof)%string].
Proof.
  intros Wf U rq all. unfold all, handle_stream_complete, dispatch_stream, seen_stream, text_client in *. clear all.
  unfold rq in *. rewrite client_names_no_provider, llm_request_of_client by done. clear rq.
  assert (forall e, read_stream de ((Ok <$> take writes [to_json (rpc_err id (-32603) e None)]) ++ [Err eof]) =
    if decide (length (take 2 [to_json (rpc_err id (-32603) e None)]) <= writes)%nat then [Err ("llm.svc stream error: " +:+ e)%string]
    else take writes [Err ("llm.svc stream error: " +:+ e)%string] ++ [Err ("IPC read error: " +:+ eof)%string]) as Bad.
  { intros e. destruct writes as [|w]; [done|]. rewrite (decide_True (P := (_ <= _)%nat)) by (cbn; lia). cbn [take]. rewrite take_nil. apply read_error_frame. }
  destruct (resolve _ _ _) as [pc|e]; cbn [mbind result_bind] in *; [|apply Bad].
  destruct (text_clients svc !! pc_name pc) as [c|]; cbn [ok_or mbind result_bind] in *; [|apply Bad].
  destruct (lc_stream c req) as [chunks|e] eqn:E; cbn [map_err]; [|apply Bad].
  change (rq_id (client_request cl id "llm/stream_complete" req)) with id.
  rewrite read_stream_frames.
  - rewrite (take_ge (stream_frames _ _ _) (S _)); [done|].
    clear. generalize (EndTurn, 0, 0). induction chunks as [|[c|e] chunks IH]; intros [[r i] o]; cbn; [lia| |lia]. specialize (IH (match c with Done r i o => (r, i, o) | _ => (r, i, o) end)). lia.
  - rewrite Forall_forall. intros x Hx y ->. by eapply U.
Qed.
End Transparent.

(** ** A service with one provider *)

Module Toy.
Import Llm.Toy Adapters.Toy ToyUuid.
#[export] Instance list_order : HashOrder := fun _ m => map_to_list m.

Definition hello : LlmCompleteResponse := {|
  rsp_content := [JObj [("type", JStr "text"); ("text", JStr "hello")]%string]; rsp_stop_reason := EndTurn;
  rsp_input_tokens := 12; rsp_output_tokens := 3 |}.
Definition chunks : list (result string StreamChunk) := [Ok (TextDelta "hel"); Ok (TextDelta "lo"); Ok (Done EndTurn 12 3)].
Definition scripted : LlmClient := {| lc_complete _ := Some (Ok hello); lc_stream _ := Ok chunks |}.
Definition silent : Net := {| post_json _ _ _ := Err "offline"%string; post_form _ _ _ _ := Err "offline"%string |}.
Definition service : LlmService := {|
  ls_config := config; ls_adapters := ∅; ls_routing := from_config config; credentials := ∅; usage := ∅;
  text_clients := {["a"%string := scripted]} |}.
Definition socket : IpcLlmClient := {| ic_socket_path := "/run/avix/llm.sock"; ic_agent_pid := 42; ic_session_id := "s" |}.
Definition ask : LlmCompleteRequest := {|
  lr_model := ""; lr_messages := [JStr "hi"]; lr_tools := []; lr_system := Some "be brief"%string; lr_max_tokens := 100;
  lr_turn_id := uuid_str 7 |}.

Lemma ipc_complete_transparent_witness : exists resp svc',
  dispatch true silent (fun _ => EmptyString) 5 service (client_request socket "1" "llm/complete" ask) = Some (resp, svc') /\
  ipc_complete (fun _ => EmptyString) (fun _ => Ok resp) socket "1" ask = Ok hello.
Proof.
  assert (well_formed ask) as Wf by (split; [vm_compute; split; discriminate | exists 7; reflexivity]).
  destruct (dispatch true silent (fun _ => EmptyString) 5 service (client_request socket "1" "llm/complete" ask)) as [[resp svc']|] eqn:E;
    [|vm_compute in E; discriminate].
  exists resp, svc'. split; [reflexivity|].
  destruct (ipc_complete_transparent true silent socket (fun _ => EmptyString) (fun _ => EmptyString) 5 "1" service svc' ask resp Wf E) as [_ M].
  - intros p c a Hc Ha. vm_compute in Hc. injection Hc as _ <-. cbn in Ha. injection Ha as <-. repeat split; vm_compute; discriminate.
  - assert (text_client service = Ok ("a"%string, scripted)) as T by (vm_compute; reflexivity). rewrite T in M.
    destruct M as (r & Hr & M). cbn in Hr. injection Hr as <-. exact (proj1 M).
Defined.

(** The connection breaks after two frames. *)
Lemma ipc_stream_transparent_witness :
  read_stream (fun _ => EmptyString) ((Ok <$> handle_stream_complete EmptyString 2 service (client_request socket "1" "llm/stream_complete" ask)) ++ [Err "eof"%string])
  = [Ok (TextDelta "hel"); Ok (TextDelta "lo"); Err "IPC read error: eof"%string].
Proof.
  rewrite (ipc_stream_transparent socket (fun _ => EmptyString) EmptyString "1" service ask 2 "eof"); [vm_compute; reflexivity| |].
  - split; [vm_compute; split; discriminate | exists 7; reflexivity].
  - intros p c cs x Hc Hs Hx. vm_compute in Hc. injection Hc as _ <-. cbn in Hs. injection Hs as <-.
    apply list_elem_of_In in Hx. cbn in Hx. destruct Hx as [Hx|[Hx|[Hx|[]]]]; injection Hx as <-; try exact I.
    repeat split; vm_compute; discriminate.
Defined.
End Toy.
