(* ===== verification/Executor.v ===== *)
(** * The runtime executor: its state and everything but the turn loop

    Models [executor/runtime_executor.rs], [runtime_executor/proc_manager.rs] and the signal, snapshot and
    persistence operations of [runtime_executor/dispatch_manager.rs], [executor/memory.rs]'s session log and
    [process/status_file.rs].  The executor's scalar fields are grouped in the records [Config] (set once),
    [Flags] and [Usage]; the two stores are the interfaces of [Sessions] and [Invocations].  What an executor
    does to the other components it holds handles to (event bus, VFS, memory service, signal bus, human in
    the loop, language model, tools) is the list [trace] of calls in order; every result of theirs that the
    code looks at is an argument.  [None] is a panic. *)

From S2P Require Import Prelude Floats Types Token Json Text ToolRegistry Resources Vfs Process Signals Store Sessions Invocations Hil Ipc Snapshot ExecTools.
Local Open Scope Z_scope.

(** ** [process/status_file.rs] *)

Record AgentStatusTools : Type := { st_granted : list string; st_denied : list string }.
Record AgentStatusPipe : Type := { sp_id : string; sp_target_pid : Z; sp_direction : string; sp_state : string }.
Record AgentStatusSignals : Type := { sg_last_received : option string; sg_pending_count : Z }.
Record AgentStatusMetrics : Type := { mt_tokens_consumed : Z; mt_tool_calls_total : Z; wall_time_sec : Z }.
Record AgentStatusMetadata : Type := { sm_name : string; sm_pid : Z; sm_spawned_at : Z; sm_spawned_by : string }.
Record AgentStatusSpec : Type := {
  as_state : ProcessStatus; as_goal : string; as_context_used : Z; as_context_limit : Z; tool_calls_this_turn : Z;
  as_last_activity_at : Z; as_waiting_on : option WaitingOn; as_tools : AgentStatusTools;
  as_pipes : list AgentStatusPipe; as_signals : AgentStatusSignals; as_metrics : AgentStatusMetrics
}.
Record AgentStatusFile : Type := {
  af_api_version : string; af_kind : string; af_metadata : AgentStatusMetadata; af_status : AgentStatusSpec
}.
Definition status_from_entry (now : Z) (e : ProcessEntry) (pipes : list AgentStatusPipe) : AgentStatusFile := {|
  af_api_version := "avix/v1"; af_kind := "AgentStatus";
  af_metadata := {| sm_name := Process.name e; sm_pid := Process.pid e; sm_spawned_at := Process.spawned_at e;
                    sm_spawned_by := Process.spawned_by_user e |};
  af_status := {|
    as_state := Process.status e; as_goal := Process.goal e; as_context_used := Process.context_used e;
    as_context_limit := Process.context_limit e; tool_calls_this_turn := Process.tool_chain_depth e;
    as_last_activity_at := Process.last_activity_at e; as_waiting_on := Process.waiting_on e;
    as_tools := {| st_granted := Process.granted_tools e; st_denied := Process.denied_tools e |};
    as_pipes := pipes;
    as_signals := {| sg_last_received := Process.last_signal_received e; sg_pending_count := Process.pending_signal_count e |};
    as_metrics := {| mt_tokens_consumed := Process.tokens_consumed e; mt_tool_calls_total := Process.tool_calls_total e;
                     wall_time_sec := Z.max ((now - Process.spawned_at e) ÷ 1000000000) 0 |} |} |}.

(** ** State *)

Record Config : Type := {
  pid : Z; agent_name : string; spawned_by : string; session_id : string; atp_session_id : string;
  runtime_dir : string; max_tool_chain_length : Z; invocation_id : string; snapshot_interval : option Z;
  spawned_at : Z; context_limit : Z;
  (** the handles: whether one is attached *)
  real_registry : bool; has_kernel : bool; resource_handler : option Resources.KernelResourceHandler;
  has_hil_manager : bool; has_signal_bus : bool; has_vfs : bool; has_event_bus : bool; has_memory_svc : bool
}.
Record Flags : Type := {
  paused : bool; killed : bool; snapshot_requested : bool; last_signal_received : option string;
  pending_signal_count : Z
}.
Record Usage : Type := {
  context_used : Z; tokens_consumed : Z; tool_calls_total : Z; tool_calls_since_last_snapshot : Z
}.

(** A call to another component. *)
Inductive Effect : Type :=
| VfsWrite (path content : string)
| SetVfsCaller (c : VfsCallerContext)
| MemoryLog (params : json) (tools : list string)
| SignalQueued (s : Signal)
| BusSignal (s : Signal)
| HilOpened (r : HilRequest)
| KernelSpawn (agent : string)
| KernelKill (p : Z)
| OutputChunk (turn delta : string) (seq : Z) (is_final : bool)
| ToolCalled (c : AvixToolCall)
| ToolAnswered (call_id tool text : string)
| Asked (rq : LlmCompleteRequest)
| Dispatched (c : AvixToolCall)
| TokenSet (t : CapabilityToken).

Section Executor.
Context {SS IS : Type} `{!SessionStoreI SS, !InvocationStoreI IS, !UuidText, !HashOrder, !SnapshotYaml}.
Variable sha256_hex : string -> string.
Variable minute : Z -> string.
Variable status_to_yaml : AgentStatusFile -> result string string.

Record Exec : Type := {
  cfg : Config;
  goal : string;
  token : CapabilityToken;
  pending_messages : list string;
  denied_tools : list string;
  tools : ToolManager;
  memory_context : option string;
  conversation_history : list ConversationEntry;
  flags : Flags;
  usage : Usage;
  invocation_store : option IS;
  session_store : option SS;
  trace : list Effect
}.

Definition set_goal (e : Exec) g := {| cfg := cfg e; goal := g; token := token e; pending_messages := pending_messages e;
  denied_tools := denied_tools e; tools := tools e; memory_context := memory_context e;
  conversation_history := conversation_history e; flags := flags e; usage := usage e;
  invocation_store := invocation_store e; session_store := session_store e; trace := trace e |}.
Definition set_texts (e : Exec) p d := {| cfg := cfg e; goal := goal e; token := token e; pending_messages := p;
  denied_tools := d; tools := tools e; memory_context := memory_context e;
  conversation_history := conversation_history e; flags := flags e; usage := usage e;
  invocation_store := invocation_store e; session_store := session_store e; trace := trace e |}.
Definition set_tools (e : Exec) m := {| cfg := cfg e; goal := goal e; token := token e; pending_messages := pending_messages e;
  denied_tools := denied_tools e; tools := m; memory_context := memory_context e;
  conversation_history := conversation_history e; flags := flags e; usage := usage e;
  invocation_store := invocation_store e; session_store := session_store e; trace := trace e |}.
Definition set_history (e : Exec) h := {| cfg := cfg e; goal := goal e; token := token e; pending_messages := pending_messages e;
  denied_tools := denied_tools e; tools := tools e; memory_context := memory_context e;
  conversation_history := h; flags := flags e; usage := usage e;
  invocation_store := invocation_store e; session_store := session_store e; trace := trace e |}.
Definition set_flags (e : Exec) f := {| cfg := cfg e; goal := goal e; token := token e; pending_messages := pending_messages e;
  denied_tools := denied_tools e; tools := tools e; memory_context := memory_context e;
  conversation_history := conversation_history e; flags := f; usage := usage e;
  invocation_store := invocation_store e; session_store := session_store e; trace := trace e |}.
Definition set_usage (e : Exec) u := {| cfg := cfg e; goal := goal e; token := token e; pending_messages := pending_messages e;
  denied_tools := denied_tools e; tools := tools e; memory_context := memory_context e;
  conversation_history := conversation_history e; flags := flags e; usage := u;
  invocation_store := invocation_store e; session_store := session_store e; trace := trace e |}.
Definition set_stores (e : Exec) i s := {| cfg := cfg e; goal := goal e; token := token e; pending_messages := pending_messages e;
  denied_tools := denied_tools e; tools := tools e; memory_context := memory_context e;
  conversation_history := conversation_history e; flags := flags e; usage := usage e;
  invocation_store := i; session_store := s; trace := trace e |}.
Definition emit (e : Exec) x := {| cfg := cfg e; goal := goal e; token := token e; pending_messages := pending_messages e;
  denied_tools := denied_tools e; tools := tools e; memory_context := memory_context e;
  conversation_history := conversation_history e; flags := flags e; usage := usage e;
  invocation_store := invocation_store e; session_store := session_store e; trace := trace e ++ [x] |}.
(** Every assignment of the token is on the trace. *)
Definition set_token (e : Exec) t := {| cfg := cfg e; goal := goal e; token := t; pending_messages := pending_messages e;
  denied_tools := denied_tools e; tools := tools e; memory_context := memory_context e;
  conversation_history := conversation_history e; flags := flags e; usage := usage e;
  invocation_store := invocation_store e; session_store := session_store e; trace := trace e ++ [TokenSet t] |}.

Definition push_history (e : Exec) (c : ConversationEntry) : Exec := set_history e (conversation_history e ++ [c]).
Definition push_conversation_message (e : Exec) (role content : string) : Exec :=
  push_history e (from_role_content
    (if String.eqb role "assistant" then Role.Assistant else if String.eqb role "tool" then Role.Tool
     else if String.eqb role "system" then Role.System else Role.User) content).
Definition inject_pending_message (e : Exec) (m : string) : Exec := set_texts e (pending_messages e ++ [m]) (denied_tools e).
Definition deny_tool (e : Exec) (t : string) : Exec := set_texts e (pending_messages e) (denied_tools e ++ [t]).
Definition with_flags (f : Flags) (p k s : bool) : Flags := {| paused := p; killed := k; snapshot_requested := s;
  last_signal_received := last_signal_received f; pending_signal_count := pending_signal_count f |}.
Definition set_paused (e : Exec) (b : bool) : Exec :=
  set_flags e (with_flags (flags e) b (killed (flags e)) (snapshot_requested (flags e))).
Definition set_killed (e : Exec) : Exec :=
  set_flags e (with_flags (flags e) (paused (flags e)) true (snapshot_requested (flags e))).
Definition set_snapshot (e : Exec) (b : bool) : Exec :=
  set_flags e (with_flags (flags e) (paused (flags e)) (killed (flags e)) b).
(** [fetch_add] on an [AtomicU32] wraps. *)
Definition note_signal (e : Exec) (name : string) : Exec := set_flags e
  {| paused := paused (flags e); killed := killed (flags e); snapshot_requested := snapshot_requested (flags e);
     last_signal_received := Some name; pending_signal_count := u32_wrapping_add (pending_signal_count (flags e)) 1 |}.

(** ** The stores *)

(** [if !self.invocation_id.is_empty() { if let Some(store) = .. { let _ = store.op(..) } }] *)
Definition inv_do (e : Exec) (op : IS -> result AvixError unit * IS) : Exec :=
  match invocation_store e with
  | Some s => if String.eqb (invocation_id (cfg e)) EmptyString then e else set_stores e (Some (op s).2) (session_store e)
  | None => e
  end.
Definition save_invocation_state (e : Exec) : Exec :=
  inv_do e (fun s => is_persist_interim s (invocation_id (cfg e)) (conversation_history e)
                       (tokens_consumed (usage e)) (tool_calls_total (usage e))).
Definition take_interim_snapshot (e : Exec) : Exec := save_invocation_state e.
Definition status_do (e : Exec) (st : InvocationStatus.t) : Exec :=
  inv_do e (fun s => is_update_status s (invocation_id (cfg e)) st).

(** [if let Ok(Some(mut session)) = store.get(..) { f; let _ = store.update(..) }] *)
Definition sess_do (e : Exec) (u : Z) (f : SessionRecord -> SessionRecord) : Exec :=
  match session_store e with
  | Some s =>
      match ss_get s u with
      | Ok (Some r) => set_stores e (invocation_store e) (Some (ss_update s (f r)).2)
      | _ => e
      end
  | None => e
  end.
(** [Uuid::parse_str(..).unwrap_or_default()] *)
Definition uuid_or_nil (s : string) : Z := match parse_str s with Ok u => u | Err _ => 0 end.
Definition idle_session (now : Z) (e : Exec) : Exec :=
  if String.eqb (session_id (cfg e)) EmptyString then e
  else sess_do e (uuid_or_nil (session_id (cfg e))) (mark_idle now).

Definition idle (now : Z) (e : Exec) : Exec :=
  idle_session now (status_do (save_invocation_state e) InvocationStatus.Idle).
Definition persist_turn_error (now : Z) (e : Exec) (err : string) : Exec :=
  idle now (push_history e (from_role_content Role.System ("[Turn failed: " +:+ err +:+ "]"))).
Definition record_next_goal (e : Exec) (g : string) : Exec :=
  inv_do (set_goal e g) (fun s => is_update_goal s (invocation_id (cfg e)) g).

(** The last answer becomes the session's summary, cut at 500 bytes. *)
Definition set_summary (now : Z) (text : string) (r : SessionRecord) : SessionRecord := {|
  Sessions.id := Sessions.id r; Sessions.parent_id := Sessions.parent_id r; Sessions.project_id := Sessions.project_id r;
  Sessions.title := Sessions.title r; Sessions.goal := Sessions.goal r; Sessions.username := Sessions.username r;
  Sessions.spawned_at := Sessions.spawned_at r; Sessions.last_updated := now; Sessions.status := Sessions.status r;
  Sessions.summary := Some text; Sessions.tokens_total := Sessions.tokens_total r;
  Sessions.origin_agent := Sessions.origin_agent r; Sessions.primary_agent := Sessions.primary_agent r;
  Sessions.participants := Sessions.participants r; Sessions.owner_pid := Sessions.owner_pid r;
  Sessions.pids := Sessions.pids r; Sessions.invocation_pids := Sessions.invocation_pids r |}.
Definition save_session_response (now : Z) (e : Exec) (text : string) : option Exec :=
  if String.eqb (session_id (cfg e)) EmptyString then Some e
  else match session_store e, parse_str (session_id (cfg e)) with
  | Some s, Ok u =>
      match ss_get s u with
      | Ok (Some r) => p ← preview 500 text; Some (set_stores e (invocation_store e) (Some (ss_update s (set_summary now p r)).2))
      | _ => Some e
      end
  | _, _ => Some e
  end.

(** [shutdown_with_status] *)
Definition shutdown_with_status (now : Z) (e : Exec) (st : InvocationStatus.t) (why : option string) : Exec :=
  let e := set_tools e (with_registered (tools e) []) in
  if bool_decide (why = Some "waiting_for_input"%string) then
    idle_session now (status_do (save_invocation_state e) InvocationStatus.Idle)
  else
    match invocation_store e with
    | None => e
    | Some _ =>
        if String.eqb (invocation_id (cfg e)) EmptyString then e
        else
          let e := match why with
                   | Some reason => push_history e (from_role_content Role.System ("[Agent stopped: " +:+ reason +:+ "]"))
                   | None => e
                   end in
          let e := inv_do e (fun s => is_write_conversation s (pid (cfg e)) (session_id (cfg e)) (spawned_by (cfg e))
                                        (conversation_history e)) in
          inv_do e (fun s => is_finalize s (invocation_id (cfg e)) st now (tokens_consumed (usage e))
                               (tool_calls_total (usage e)) why)
    end.

(** ** Status file and snapshots *)

Definition vfs_write (e : Exec) (path content : string) : Exec :=
  match VfsPath.parse path with Ok p => emit e (VfsWrite p content) | Err _ => e end.

Definition status_entry (now : Z) (e : Exec) : ProcessEntry := {|
  Process.pid := pid (cfg e); Process.name := agent_name (cfg e); Process.kind := Agent;
  Process.status := if killed (flags e) then Stopped else if paused (flags e) then Process.Paused else Process.Running;
  Process.parent := None; Process.spawned_by_user := spawned_by (cfg e);
  Process.granted_tools := Token.granted_tools (token e); Process.token_expires_at := None; Process.tool_chain_depth := 0;
  Process.goal := goal e; Process.spawned_at := spawned_at (cfg e); Process.context_used := context_used (usage e);
  Process.context_limit := context_limit (cfg e); Process.last_activity_at := now; Process.waiting_on := None;
  Process.denied_tools := denied_tools e; Process.last_signal_received := last_signal_received (flags e);
  Process.pending_signal_count := pending_signal_count (flags e); Process.tokens_consumed := tokens_consumed (usage e);
  Process.tool_calls_total := tool_calls_total (usage e) |}.
Definition status_path (p : Z) : string := ("/proc/" +:+ pretty p +:+ "/status.yaml")%string.
(** Nothing without a VFS. *)
Definition write_status_yaml (now : Z) (e : Exec) : Exec :=
  if has_vfs (cfg e) then
    match status_to_yaml (status_from_entry now (status_entry now e) []) with
    | Ok yaml => vfs_write e (status_path (pid (cfg e))) yaml
    | Err _ => e
    end
  else e.

Definition capture_params (e : Exec) (tr : SnapshotTrigger) (by_ : CapturedBy) : CaptureParams := {|
  cp_agent_name := agent_name (cfg e); cp_pid := pid (cfg e); cp_goal := goal e;
  message_history := conversation_history e; cp_temperature := f32_0_7;
  cp_granted_tools := Token.granted_tools (token e); cp_trigger := tr; cp_captured_by := by_;
  cp_memory := memory_default; cp_pending_requests := []; open_pipes := [] |}.
Definition capture_and_write_snapshot (now : Z) (e : Exec) (tr : SnapshotTrigger) (by_ : CapturedBy) : option Exec :=
  if has_vfs (cfg e) then
    snap ← capture sha256_hex minute now (capture_params e tr by_);
    match snap_to_yaml snap with
    | Ok yaml => Some (vfs_write e (snapshot_path snap (spawned_by (cfg e))) yaml)
    | Err _ => Some e
    end
  else Some e.

Record RestoreResult : Type := {
  rr_snapshot_name : string; rr_agent_name : string; reissued_requests : list string;
  reconnected_pipes : list string; sigpipe_pipes : list string
}.
(** [file] is what [vfs.read] gives at the path. *)
Definition restore_from_snapshot (now : Z) (read : string -> result AvixError string) (e : Exec) (name : string)
    : result AvixError RestoreResult * Exec :=
  if negb (has_vfs (cfg e)) then (Err (ConfigParse "no VFS attached"), e)
  else
    let parsed :=
      path ← map_err (fun x => ConfigParse (avix_error_to_string x))
               (VfsPath.parse ("/users/" +:+ spawned_by (cfg e) +:+ "/snapshots/" +:+ name +:+ ".yaml"));
      bytes ← map_err (fun x => NotFound ("snapshot '" +:+ name +:+ "': " +:+ avix_error_to_string x)) (read path);
      yaml ← map_err ConfigParse (from_utf8 bytes);
      file ← map_err ConfigParse (snap_from_yaml yaml);
      _ ← verify_checksum sha256_hex file;
      Ok file in
    match parsed with
    | Err x => (Err x, e)
    | Ok file =>
        let spec := sn_spec file in
        let e := set_goal (set_token e (test_token now (env_granted_tools (environment spec)))) (snap_goal spec) in
        let e := if String.eqb (context_summary spec) EmptyString then e
                 else set_history e [from_role_content Role.Assistant
                        ("[Restored from snapshot '" +:+ md_name (sn_metadata file) +:+ "']" +:+ nl +:+ nl
                         +:+ "Context at capture:" +:+ nl +:+ context_summary spec)] in
        (Ok {| rr_snapshot_name := md_name (sn_metadata file); rr_agent_name := md_agent_name (sn_metadata file);
               reissued_requests := pr_request_id <$> base.filter (fun r => pr_status r = "in-flight"%string) (pending_requests spec);
               reconnected_pipes := [];
               sigpipe_pipes := sn_pipe_id <$> base.filter (fun p => sn_state p = "open"%string) (snap_pipes spec) |}, e)
    end.

(** ** Signals *)

Definition role_debug (r : Invocations.Role.t) : string :=
  match r with
  | Role.User => "User" | Role.Assistant => "Assistant" | Role.Tool => "Tool" | Role.System => "System"
  | Role.HilRequest => "HilRequest" | Role.HilResponse => "HilResponse"
  end.
Fixpoint log_lines (h : list ConversationEntry) : option (list string) :=
  match h with
  | [] => Some []
  | c :: h' => p ← preview 200 (content c); l ← log_lines h'; Some ((role_debug (role c) +:+ ": " +:+ p)%string :: l)
  end.
Definition auto_log_session_end (e : Exec) : option Exec :=
  if has_memory_svc (cfg e) && negb (bool_decide (length (conversation_history e) = 0%nat)) then
    l ← log_lines (conversation_history e);
    Some (emit e (MemoryLog (JObj [("summary", JStr (str_join nl l)); ("outcome", JStr "success"); ("scope", JStr "own")])
                            (Token.granted_tools (token e))))%string
  else Some e.

Definition pipe_text (s : Signal) : string := ("[SIGPIPE]: " +:+ str_or "[pipe data]" (jindex (payload s) "text"))%string.

Definition on_pause (now : Z) (e : Exec) : Exec :=
  write_status_yaml now (status_do (set_paused e true) InvocationStatus.Paused).
Definition on_resume (now : Z) (e : Exec) : Exec :=
  write_status_yaml now (status_do (set_paused e false) InvocationStatus.Running).
Definition on_kill (now : Z) (e : Exec) : option Exec :=
  e ← auto_log_session_end e; Some (write_status_yaml now (set_killed e)).
Definition on_save (now : Z) (e : Exec) : option Exec :=
  e ← capture_and_write_snapshot now e Sigsave ByKernel; Some (take_interim_snapshot e).

Definition handle_signal_between_turns (now : Z) (e : Exec) (s : Signal) : option Exec :=
  let e := note_signal e (Signals.as_str (Signals.kind s)) in
  match Signals.kind s with
  | Kill | Stop => on_kill now e
  | Pause => Some (on_pause now e)
  | Resume => Some (on_resume now e)
  | Save => Some (set_snapshot e true)
  | Pipe => Some (inject_pending_message e (pipe_text s))
  | _ => Some e
  end.
Definition handle_signal_during_llm (now : Z) (e : Exec) (s : Signal) : option Exec :=
  let e := note_signal e (Signals.as_str (Signals.kind s)) in
  match Signals.kind s with
  | Kill | Stop => on_kill now e
  | Pause => Some (on_pause now e)
  | Pipe => Some (inject_pending_message e (pipe_text s))
  | Save => on_save now e
  | Resume => Some (set_paused e false)
  | _ => Some e
  end.

(** A signal by name, from outside the executor's task. *)
Definition signal_of_name (n : string) : SignalKind :=
  if String.eqb n "SIGKILL" then Kill else if String.eqb n "SIGSTOP" then Stop
  else if String.eqb n "SIGPAUSE" then Pause else if String.eqb n "SIGRESUME" then Resume
  else if String.eqb n "SIGSAVE" then Save else if String.eqb n "SIGPIPE" then Pipe
  else if String.eqb n "SIGESCALATE" then Escalate else if String.eqb n "SIGSTART" then Start else Usr1.
Definition deliver_signal (now : Z) (e : Exec) (n : string) : option Exec :=
  let e := note_signal e n in
  let e := emit e (SignalQueued {| Signals.target := pid (cfg e); Signals.kind := signal_of_name n; payload := JNull |}) in
  if String.eqb n "SIGSTOP" then on_kill now e
  else if String.eqb n "SIGKILL" then Some (write_status_yaml now (set_killed e))
  else if String.eqb n "SIGPAUSE" then Some (on_pause now e)
  else if String.eqb n "SIGRESUME" then Some (on_resume now e)
  else if String.eqb n "SIGSAVE" then on_save now e
  else Some (write_status_yaml now e).

(** [wait_for_next_goal]: the signals that arrive, [None] for a closed channel.  [Waiting] is a receiver
    that has nothing yet. *)
Inductive Wait (A : Type) : Type := Waiting (e : Exec) | Woken (a : A) (e : Exec).
Arguments Waiting {A} e.
Arguments Woken {A} a e.
Fixpoint wait_for_next_goal (now : Z) (e : Exec) (arrivals : list (option Signal)) : option (Wait (option string)) :=
  match arrivals with
  | [] => Some (Waiting e)
  | None :: _ => Some (Woken None e)
  | Some s :: rest =>
      match Signals.kind s with
      | Start => Some (Woken (Some (str_or EmptyString (jindex (payload s) "goal"))) e)
      | Kill | Stop => Some (Woken None (set_killed e))
      | _ => e ← handle_signal_between_turns now e s;
             if killed (flags e) then Some (Woken None e) else wait_for_next_goal now e rest
      end
  end.

(** ** Tools and prompt *)

(** The descriptor of every granted tool that is no Category 2 tool, where the registry has one. *)
Fixpoint cat1_of (reg : option ToolRegistry.ToolRegistry) (cat2 names : list string) (acc : gmap string json) : gmap string json :=
  match names with
  | [] => acc
  | n :: rest =>
      cat1_of reg cat2 rest
        (if list_contains n cat2 then acc
         else match reg with
              | Some r => match ToolRegistry.lookup r n with Ok t => <[n := ToolRegistry.te_descriptor t]> acc | Err _ => acc end
              | None => acc
              end)
  end.
(** [reg] is the real registry at this moment; a mock one has no descriptors. *)
Definition refresh_tool_list (reg : ToolRegistry.ToolRegistry) (e : Exec) : Exec :=
  let r := if real_registry (cfg e) then Some reg else None in
  let m := with_cat1 (tools e) (cat1_of r (registered_cat2 (tools e)) (Token.granted_tools (token e)) ∅) in
  set_tools e (manager_refresh m (token e) (spawned_by (cfg e))).
Definition current_tool_list (e : Exec) : list json := current_tools (tools e).
Definition is_cat2_tool (e : Exec) (n : string) : bool := manager_is_cat2 (tools e) n.
Definition handle_tool_changed (e : Exec) (op tool : string) : Exec := set_tools e (manager_tool_changed (tools e) op tool).
Definition set_tool_budget (e : Exec) (tool : string) (n : Z) : Exec := set_tools e (manager_set_budget (tools e) tool n).
Definition require_hil_for (e : Exec) (tool : string) : Exec := set_tools e (manager_require_hil (tools e) tool).

(** The budgets of the Category 2 tools. *)
Definition cat2_budgets (e : Exec) : gmap string Z :=
  list_to_map (omap (fun n => (fun b => (n, b)) <$> remaining (tool_budgets (tools e)) n) (registered_cat2 (tools e))).
Definition build_system_prompt_str (e : Exec) : string :=
  let base := build_system_prompt (pid (cfg e)) (agent_name (cfg e)) (goal e) (spawned_by (cfg e)) (session_id (cfg e))
    (max_tool_chain_length (cfg e)) (cat2_budgets e) (pending_messages e) (current_tool_list e) (denied_tools e) in
  match memory_context e with Some ctx => (ctx +:+ nl +:+ nl +:+ base)%string | None => base end.

Definition init_vfs_caller (e : Exec) : Exec :=
  if has_vfs (cfg e) then
    emit e (SetVfsCaller {| Vfs.username := spawned_by (cfg e); Vfs.crews := []; Vfs.is_admin := false; Vfs.token := Some (token e) |})
  else e.

End Executor.
#[global] Arguments Waiting {SS IS A} e.
#[global] Arguments Woken {SS IS A} a e.
