(* ===== verification/Dispatch.v ===== *)
(** * Tool dispatch

    Models the dispatch half of [executor/runtime_executor/dispatch_manager.rs] (the Category 1 route over
    IPC, the Category 2 tools, token renewal) and [executor/hil/]: waiting on the signal bus for a human's
    decision.  [Host] is what one call meets outside: clock readings, fresh uuids, the registry, the sockets,
    the answer of the HIL manager, and the signals the subscription receives before the timeout.  Tokens
    inside a signal's payload are read with [token_of_json] (serde_json), instants are written with [rfc3339]
    and [instant_json] (chrono), documents with [json_text] and [yaml_text]. *)

From S2P Require Import Prelude Floats Types Token Json Text ToolRegistry Resources Vfs Process Signals Store Sessions Invocations Hil Ipc Snapshot ExecTools Executor.
Local Open Scope Z_scope.

Record Host {C : Type} : Type := {
  at_ : nat -> Z;
  uuids : nat -> string;
  registry : ToolRegistry;
  (** the kernel handle of tests: its approval flag and registry *)
  auto_approve : bool;
  kernel_registry : option ToolRegistry;
  env_var : string -> option string;
  connect : string -> result string C;
  hil_open : result AvixError unit;
  inbox : list Signal
}.
Arguments Host : clear implicits.

Definition mk_request (pid now : Z) (uuid sig : string) (items : list ResourceItem) : ResourceRequest :=
  {| agent_pid := pid; request_id := ("req-" +:+ uuid)%string; rq_timestamp := now; capability_token_signature := sig;
     requests := items |}.

(** ** [executor/hil/]: the first SIGRESUME for the request, or a timeout *)

Definition resumes (hil : string) (s : Signal) : Prop :=
  Signals.kind s = Resume /\ Json.as_str (jindex (payload s) "hilId") = Some hil.
#[global] Instance SignalKind_eq_dec : EqDecision SignalKind.
Proof. solve_decision. Defined.
#[global] Instance resumes_dec hil s : Decision (resumes hil s) := ltac:(unfold resumes; apply _).
Definition await_resume (inbox : list Signal) (hil timeout : string) : result AvixError json :=
  match list_find (resumes hil) inbox with
  | Some (_, s) => Ok (payload s)
  | None => Err (CapabilityDenied timeout)
  end.

Record ApprovalResult : Type := { ap_approved : bool; ap_note : option string; ap_denial_reason : option string }.
Definition await_approval (inbox : list Signal) (hil : string) : result AvixError ApprovalResult :=
  p ← await_resume inbox hil "HIL approval timed out";
  Ok {| ap_approved := String.eqb (str_or "denied" (jindex p "decision")) "approved";
        ap_note := Json.as_str (jindex p "note"); ap_denial_reason := Json.as_str (jindex p "reason") |}.

Record EscalationResult : Type := { selected_option : string; guidance : string }.
(** With the escalator's pending messages. *)
Definition escalate (inbox : list Signal) (hil : string) (pending : list string)
    : result AvixError EscalationResult * list string :=
  match await_resume inbox hil "escalation timed out" with
  | Err x => (Err x, pending)
  | Ok p =>
      let g := str_or EmptyString (jindex p "guidance") in
      (Ok {| selected_option := str_or EmptyString (jindex p "selectedOption"); guidance := g |},
       pending ++ [("[Human guidance]: " +:+ g)%string])
  end.

Section Dispatch.
Context {SS IS : Type} `{!SessionStoreI SS, !InvocationStoreI IS, !UuidText, !HashOrder}.
Context {C : Type} `{!ByteStream C, !JsonText}.
Variable hmac : string -> string -> string.
Variable overflow_checks : bool.
Variable token_of_json : json -> option CapabilityToken.
Variable rfc3339 : Z -> string.
Variable instant_json : Z -> json.
Variable json_text : json -> string.
Variable yaml_text : json -> string.

#[local] Notation Exec := (Exec (SS := SS) (IS := IS)).
#[local] Notation Host := (Host C).
Implicit Types (e : Exec) (h : Host) (c : AvixToolCall).

(** The upgraded token; the old one where the payload carries none. *)
Definition request_tool (inbox : list Signal) (hil : string) (token : CapabilityToken) : result AvixError CapabilityToken :=
  p ← await_resume inbox hil "HIL timeout";
  if String.eqb (str_or "denied" (jindex p "decision")) "approved"
  then Ok (default token (token_of_json (jindex p "new_capability_token")))
  else Err (CapabilityDenied "capability upgrade denied").

(** ** Category 1 *)

Definition check_tool_execute_permission (t : ToolEntry) (user : string) : result AvixError unit :=
  if String.eqb user "root" then Ok ()
  else if String.eqb user (p_owner (te_permissions t)) then Ok ()
  else if str_contains_char "x" (p_all (te_permissions t)) then Ok ()
  else Err (CapabilityDenied ("agent '" +:+ user +:+ "' does not have execute permission on tool '" +:+ te_name t +:+ "'")).
Definition is_caller_scoped_tool (name : string) (descriptor : json) : bool :=
  starts_with "kernel/" name || default false (jget descriptor "caller_scoped" ≫= as_bool).

Definition dispatch_via_router e h c : option (result AvixError json) :=
  match (if real_registry (cfg e) then (match ToolRegistry.lookup (registry h) (Ipc.name c) with Ok t => Some t | Err _ => None end)
         else None) with
  | None => Some (Err (ConfigParse ("tool '" +:+ Ipc.name c +:+ "' not found in registry")))
  | Some t =>
      match (if has_tool (token e) (Ipc.name c) then Ok () else check_tool_execute_permission t (spawned_by (cfg e))) with
      | Err x => Some (Err x)
      | Ok _ =>
          if default true (is_null <$> jget (te_descriptor t) "ipc") then
            dispatch_kernel_syscall (env_var h) (connect h) c (pid (cfg e)) (session_id (cfg e)) (runtime_dir (cfg e)) (uuids h 0)
          else
            dispatch_cat1_tool (env_var h) (connect h) c (te_descriptor t) (pid (cfg e)) (session_id (cfg e))
              (runtime_dir (cfg e)) (is_caller_scoped_tool (Ipc.name c) (te_descriptor t)) (uuids h 0)
      end
  end.

(** ** Category 2 *)

Definition arg c (k : string) : json := jindex (Ipc.args c) k.

Definition agent_spawn_tool e c : json * Exec :=
  (JObj [("spawned", JBool true)]%string,
   if has_kernel (cfg e) then emit e (KernelSpawn (str_or "unknown" (arg c "agent"))) else e).
Definition agent_kill_tool e c : json * Exec :=
  (JObj [("killed", JBool true)]%string,
   if has_kernel (cfg e) then emit e (KernelKill (default 0 (as_u64 (arg c "pid")))) else e).

Definition refused (tool key why : string) : json :=
  JObj [("approved", JBool false); ("tool", JStr tool); (key, JStr why)]%string.
Definition hil_request_of e h (tool reason : string) : HilRequest := {|
  Hil.api_version := "avix/v1"; hr_kind := "HilRequest"; hil_id := uuids h 1; hr_pid := pid (cfg e);
  Hil.agent_name := agent_name (cfg e); hil_type := CapabilityUpgrade; Hil.tool := Some tool; Hil.args := None;
  Hil.reason := Some reason; Hil.context := None; Hil.options := None; urgency := Hil.Normal;
  approval_token := uuids h 2; created_at := at_ h 1; Hil.expires_at := at_ h 1 + seconds 600; state := Hil.Pending;
  Hil.atp_session_id := atp_session_id (cfg e) |}.
Definition hil_request_entry e h (tool reason : string) : ConversationEntry :=
  from_role_content Role.HilRequest (json_text (JObj [
    ("hilId", JStr (uuids h 1)); ("pid", JInt (pid (cfg e))); ("sessionId", JStr (atp_session_id (cfg e)));
    ("hilType", JStr "capability_upgrade"); ("tool", JStr tool); ("reason", JStr reason);
    ("approvalToken", JStr (uuids h 2))]%string)).
Definition hil_response_entry e h (outcome : string) : ConversationEntry :=
  from_role_content Role.HilResponse (json_text (JObj [
    ("hilId", JStr (uuids h 1)); ("pid", JInt (pid (cfg e))); ("outcome", JStr outcome);
    ("resolvedAt", instant_json (at_ h 2))]%string)).

(** The escalation to a human, once the request may be made. *)
Definition hil_flow e h (tool reason : string) : json * Exec :=
  match hil_open h with
  | Err x => (refused tool "error" (avix_error_to_string x), deny_tool (emit e (HilOpened (hil_request_of e h tool reason))) tool)
  | Ok _ =>
      let e := emit e (HilOpened (hil_request_of e h tool reason)) in
      let e := push_history e (hil_request_entry e h tool reason) in
      let e := emit e (BusSignal {| Signals.target := pid (cfg e); Signals.kind := Pause; payload := JNull |}) in
      match request_tool (inbox h) (uuids h 1) (token e) with
      | Ok t =>
          let e := refresh_tool_list (registry h) (set_token e t) in
          (JObj [("approved", JBool true); ("tool", JStr tool); ("scope", JStr "session")]%string,
           push_history e (hil_response_entry e h "approved"))
      | Err x =>
          let e := deny_tool e tool in
          (refused tool "reason" (avix_error_to_string x),
           push_history e (hil_response_entry e h
             (if str_contains "timeout" (avix_error_to_string x) then "timeout" else "denied")))
      end
  end.

Definition request_tool_call e h c : option (json * Exec) :=
  let tool := str_or EmptyString (arg c "tool") in
  let reason := str_or EmptyString (arg c "reason") in
  if has_kernel (cfg e) && auto_approve h then
    Some (JObj [("approved", JBool true); ("tool", JStr tool)]%string, e)
  else match resource_handler (cfg e) with
  | None => Some (refused tool "error" "capability escalation unavailable: no resource handler configured", deny_tool e tool)
  | Some rh =>
      let rq := mk_request (pid (cfg e)) (at_ h 0) (uuids h 0) (signature (token e)) [AskTool tool Resources.Normal reason] in
      r ← handle hmac overflow_checks (at_ h 0) (fun i => uuids h (3 + i)) rh rq (token e);
      Some (match r with
      | Err x => (refused tool "error" (avix_error_to_string x), deny_tool e tool)
      | Ok _ =>
          if has_hil_manager (cfg e) && has_signal_bus (cfg e) then hil_flow e h tool reason
          else (refused tool "error" "capability escalation unavailable: HIL infrastructure not configured", deny_tool e tool)
      end)
  end.

Definition cap_list e : json := JObj [
  ("grantedTools", jstrs (Token.granted_tools (token e)));
  ("constraints", JObj [("maxTokensPerTurn", JNull); ("maxToolChainLength", JInt (max_tool_chain_length (cfg e)));
     ("toolCallBudgets", JObj ((fun p => (p.1, JInt p.2)) <$> sorted_rows (cat2_budgets e)))]);
  ("tokenExpiresAt", JStr (rfc3339 (Token.expires_at (token e))))]%string.

Definition pipe_direction (d : string) : Resources.Direction :=
  if String.eqb d "in" then In else if String.eqb d "bidirectional" then Bidirectional else Out.
Definition pipe_opened (id : string) : json := JObj [("pipeId", JStr id); ("state", JStr "open")]%string.
Definition pipe_open_tool e h c : option (json * Exec) :=
  let target := default 0 (as_u64 (arg c "targetPid")) in
  let direction := str_or "out" (arg c "direction") in
  let buffer := default 8192 (as_u64 (arg c "bufferTokens")) mod (u32_max + 1) in
  match resource_handler (cfg e) with
  | None => Some (pipe_opened "pipe-stub", e)
  | Some rh =>
      let rq := mk_request (pid (cfg e)) (at_ h 0) (uuids h 0) (signature (token e))
                  [AskPipe target (pipe_direction direction) buffer EmptyString] in
      r ← handle hmac overflow_checks (at_ h 0) (fun i => uuids h (3 + i)) rh rq (token e);
      Some (match r with
      | Ok {| grants := GPipe true _ (Some id) _ _ _ :: _ |} =>
          (pipe_opened id,
           if has_vfs (cfg e) then
             vfs_write e ("/proc/" +:+ pretty (pid (cfg e)) +:+ "/pipes/" +:+ id +:+ ".yaml")
               (yaml_text (JObj [("pipe_id", JStr id); ("target_pid", JInt target); ("direction", JStr direction);
                                 ("buffer_tokens", JInt buffer); ("state", JStr "open")]))%string
           else e)
      | _ => (pipe_opened "pipe-stub", e)
      end)
  end.

(** The filter of [sys/tools], in the kernel handle and in the executor alike. *)
Definition tool_shown (namespace keyword : string) (granted_only : bool) (t : CapabilityToken) (s : ToolSummary) : bool :=
  negb (granted_only && negb (has_tool t (ts_name s)))
  && negb (negb (String.eqb namespace EmptyString) && negb (String.eqb (ts_namespace s) namespace))
  && negb (negb (String.eqb keyword EmptyString) && negb (str_contains keyword (ts_name s))
           && negb (str_contains keyword (ts_description s))).
Definition summary_json (s : ToolSummary) : json :=
  JObj [("name", JStr (ts_name s)); ("description", JStr (ts_description s)); ("state", JStr (ts_state s))]%string.
Definition sys_tools e h c : json :=
  let show (l : list ToolSummary) := summary_json <$> base.filter (fun s => tool_shown (str_or EmptyString (arg c "namespace"))
    (str_or EmptyString (arg c "keyword")) (default false (as_bool (arg c "granted_only"))) (token e) s = true) l in
  JObj [("tools"%string, JArr (
    if has_kernel (cfg e) then show (match kernel_registry h with Some r => ToolRegistry.list_all r | None => [] end)
    else if real_registry (cfg e) then show (ToolRegistry.list_all (registry h)) else []))].

Definition dispatch_category2 e h c : option (json * Exec) :=
  let n := Ipc.name c in
  if String.eqb n "agent/spawn" then Some (agent_spawn_tool e c)
  else if String.eqb n "agent/kill" then Some (agent_kill_tool e c)
  else if String.eqb n "cap/request-tool" then request_tool_call e h c
  else if String.eqb n "cap/list" then Some (cap_list e, e)
  else if String.eqb n "cap/escalate" then
    let g := str_or EmptyString (arg c "reason") in
    Some (JObj [("selectedOption", JStr "acknowledged"); ("guidance", JStr g)]%string,
          inject_pending_message e ("[Human guidance]: " +:+ g))
  else if String.eqb n "job/watch" then
    Some (JObj [("jobId", arg c "jobId"); ("finalStatus", JStr "done"); ("result", JNull); ("error", JNull)]%string, e)
  else if String.eqb n "agent/list" then Some (JObj [("agents", JArr [])]%string, e)
  else if String.eqb n "agent/wait" then
    Some (JObj [("pid", arg c "pid"); ("finalStatus", JStr "completed"); ("result", JNull); ("durationSec", JInt 0)]%string, e)
  else if String.eqb n "agent/send-message" then Some (JObj [("delivered", JBool true)]%string, e)
  else if String.eqb n "pipe/open" then pipe_open_tool e h c
  else if String.eqb n "pipe/write" then Some (JObj [("tokensSent", JInt 0); ("bufferRemaining", JInt 8192)]%string, e)
  else if String.eqb n "pipe/read" then
    Some (JObj [("content", JStr EmptyString); ("tokensRead", JInt 0); ("pipeState", JStr "open")]%string, e)
  else if String.eqb n "pipe/close" then Some (JObj [("closed", JBool true)]%string, e)
  else if String.eqb n "sys/tools" then Some (sys_tools e h c, e)
  else Some (JObj [("content"%string, JStr ("Tool '" +:+ n +:+ "' executed (IPC dispatch not yet wired)"))], e).

(** [match if self.is_cat2_tool(..) { dispatch_category2 } else { dispatch_via_router }] *)
Definition dispatch e h c : option (result AvixError json * Exec) :=
  let e := emit e (Dispatched c) in
  if is_cat2_tool e (Ipc.name c) then '(v, e) ← dispatch_category2 e h c; Some (Ok v, e)
  else r ← dispatch_via_router e h c; Some (r, e).

(** ** Token renewal *)

Definition with_expiry (t : CapabilityToken) (x : Z) : CapabilityToken :=
  {| Token.granted_tools := Token.granted_tools t; issued_at := issued_at t; Token.expires_at := x;
     issued_to := issued_to t; signature := signature t |}.
Definition renewal_due (now : Z) (t : CapabilityToken) : bool :=
  bool_decide (0 < Token.expires_at t - now <= seconds 300).
Definition granted_token (r : result AvixError ResourceResponse) : option CapabilityToken :=
  match r with Ok {| grants := GTokenRenewal true (Some t) _ _ :: _ |} => Some t | _ => None end.
Definition maybe_renew_token (now : Z) (us : nat -> string) e : option Exec :=
  if negb (renewal_due now (token e)) then Some e
  else
    r ← match resource_handler (cfg e) with
        | Some rh =>
            granted_token <$> handle hmac overflow_checks now (fun i => us (S i)) rh
              (mk_request (pid (cfg e)) now (us 0%nat) (signature (token e)) [TokenRenewal "auto-renewal within 5 min window"])
              (token e)
        | None => Some None
        end;
    Some (set_token e (default (with_expiry (token e) (now + seconds 3600)) r)).

End Dispatch.
