(* ===== verification/Turn.v ===== *)
(** * The turn loop

    Models [run_turn_streaming] and [run_with_client] of [executor/runtime_executor/dispatch_manager.rs]: one
    request to the language model with its streamed answer, and the loop that sends requests, gates and
    dispatches the tool calls of the answers and stops on a final answer, on the tool-call limit or on a
    signal.  What comes from outside is the script, one [Turn] per iteration: the signals that wait when the
    iteration starts, the ones that arrive while paused, how the request ends, and a [Host] per tool call.
    The loop recurses over the script, so the model never runs out of anything but events; [Running] is a
    loop whose script has ended.  Tracing and the turn counter it prints are left out. *)

From S2P Require Import Prelude Floats Types Token Json Text ToolRegistry Resources Vfs Process Signals Store Sessions Invocations Proc Hil Ipc Snapshot ExecTools Executor Dispatch.
Local Open Scope Z_scope.

(** ** Scripts *)

(** What the select loop of a stream sees, in order; after the last one the stream has ended. *)
Inductive StreamEv : Type := SChunk (c : StreamChunk) | STick | SErr (e : string) | SCancel.
(** A client that cannot stream answers at once. *)
Inductive Answer : Type := Plain (r : result string LlmCompleteResponse) | Stream (evs : list StreamEv).
(** How a request ends: with an answer, or with a signal or a closed channel while [evs] had been streamed. *)
Inductive LlmStep : Type :=
| Answered (a : Answer)
| Interrupted (evs : list StreamEv) (s : Signal)
| RxClosed (evs : list StreamEv).
Record Turn {C : Type} : Type := {
  t_at : nat -> Z;
  t_uuids : nat -> string;
  t_registry : ToolRegistry;
  drained : list Signal;
  while_paused : list (option Signal);
  llm : LlmStep;
  call_hosts : nat -> Host C
}.
Arguments Turn : clear implicits.

Definition CHUNK_FLUSH_BYTES : nat := 80.

Section Turn.
Context {SS IS : Type} `{!SessionStoreI SS, !InvocationStoreI IS, !UuidText, !HashOrder, !SnapshotYaml}.
Context {C : Type} `{!ByteStream C, !JsonText}.
Variable sha256_hex : string -> string.
Variable minute : Z -> string.
Variable status_to_yaml : AgentStatusFile -> result string string.
Variable hmac : string -> string -> string.
Variable overflow_checks : bool.
Variable token_of_json : json -> option CapabilityToken.
Variable rfc3339 : Z -> string.
Variable instant_json : Z -> json.
Variable json_text : json -> string.
Variable yaml_text : json -> string.
(** [serde_json::from_str] to a [Value] *)
Variable parse_json : string -> option json.

#[local] Notation Exec := (Exec (SS := SS) (IS := IS)).
#[local] Notation Turn := (Turn C).
#[local] Notation Host := (Host C).
Implicit Types (e : Exec) (c : AvixToolCall) (m : list json).

(** ** One request *)

Record Acc : Type := {
  accumulated_text : string; pending_calls : gmap string (string * string); acc_stop : StopReason;
  acc_input : Z; acc_output : Z; seq : Z; pending_text : string
}.
Definition acc_new : Acc := {| accumulated_text := EmptyString; pending_calls := ∅; acc_stop := EndTurn;
  acc_input := 0; acc_output := 0; seq := 0; pending_text := EmptyString |}.
Definition acc_texts (a : Acc) (t p : string) (n : Z) : Acc := {| accumulated_text := t;
  pending_calls := pending_calls a; acc_stop := acc_stop a; acc_input := acc_input a; acc_output := acc_output a;
  seq := n; pending_text := p |}.
Definition acc_calls (a : Acc) f : Acc := {| accumulated_text := accumulated_text a; pending_calls := f (pending_calls a);
  acc_stop := acc_stop a; acc_input := acc_input a; acc_output := acc_output a; seq := seq a; pending_text := pending_text a |}.
Definition acc_done (a : Acc) sr i o : Acc := {| accumulated_text := accumulated_text a; pending_calls := pending_calls a;
  acc_stop := sr; acc_input := i; acc_output := o; seq := seq a; pending_text := pending_text a |}.

Definition chunk e (turn delta : string) (n : Z) (fin : bool) : Exec :=
  if has_event_bus (cfg e) then emit e (OutputChunk turn delta n fin) else e.
Definition flush_pending (turn : string) e (a : Acc) : Exec * Acc :=
  if String.eqb (pending_text a) EmptyString then (e, a)
  else (chunk e turn (pending_text a) (seq a) false,
        acc_texts a (accumulated_text a) EmptyString (if has_event_bus (cfg e) then seq a + 1 else seq a)).

Definition stream_chunk (turn : string) e (a : Acc) (c : StreamChunk) : Exec * Acc :=
  match c with
  | TextDelta t =>
      let a := acc_texts a (accumulated_text a +:+ t) (pending_text a +:+ t) (seq a) in
      if (CHUNK_FLUSH_BYTES <=? String.length (pending_text a))%nat then flush_pending turn e a else (e, a)
  | ToolCallStart id n => let '(e, a) := flush_pending turn e a in (e, acc_calls a (<[id := (n, EmptyString)]>))
  | ToolCallArgsDelta id d => (e, acc_calls a (alter (fun p => (p.1, p.2 +:+ d)) id))
  | ToolCallComplete _ => (e, a)
  | Done sr i o => (e, acc_done a sr i o)
  end.
Fixpoint stream_events (turn : string) e (a : Acc) (evs : list StreamEv) : Exec * result AvixError Acc :=
  match evs with
  | [] => (e, Ok a)
  | SCancel :: _ => (e, Err (Cancelled "LLM call cancelled by signal"))
  | SErr x :: _ => (e, Err (ConfigParse x))
  | SChunk c :: rest => let '(e, a) := stream_chunk turn e a c in stream_events turn e a rest
  | STick :: rest => let '(e, a) := flush_pending turn e a in stream_events turn e a rest
  end.

Definition tool_use_block (p : string * (string * string)) : json :=
  JObj [("type", JStr "tool_use"); ("id", JStr p.1); ("name", JStr p.2.1);
        ("input", default (JObj []) (parse_json p.2.2))]%string.
Definition response_of (a : Acc) : LlmCompleteResponse := {|
  rsp_content := (if String.eqb (accumulated_text a) EmptyString then []
                  else [JObj [("type", JStr "text"); ("text", JStr (accumulated_text a))]%string])
                 ++ (tool_use_block <$> hash_iter _ (pending_calls a));
  rsp_stop_reason := acc_stop a; rsp_input_tokens := acc_input a; rsp_output_tokens := acc_output a |}.

Definition run_turn_streaming (turn : string) e (ans : Answer) : Exec * result AvixError LlmCompleteResponse :=
  match ans with
  | Plain r => (e, map_err ConfigParse r)
  | Stream evs =>
      match stream_events turn e acc_new evs with
      | (e, Err x) => (e, Err x)
      | (e, Ok a) =>
          let '(e, a) := flush_pending turn e a in
          (chunk e turn EmptyString (seq a) true, Ok (response_of a))
      end
  end.

(** ** Tool calls *)

Definition tool_result (id text : string) : json :=
  JObj [("type", JStr "tool_result"); ("tool_use_id", JStr id); ("content", JStr text)]%string.
Definition bump_calls e : Exec := set_usage e {| context_used := context_used (usage e);
  tokens_consumed := tokens_consumed (usage e); tool_calls_total := u32_saturating_add (tool_calls_total (usage e)) 1;
  tool_calls_since_last_snapshot := tool_calls_since_last_snapshot (usage e) |}.
Definition set_since e (n : Z) : Exec := set_usage e {| context_used := context_used (usage e);
  tokens_consumed := tokens_consumed (usage e); tool_calls_total := tool_calls_total (usage e);
  tool_calls_since_last_snapshot := n |}.
Definition interval_snapshot e : Exec :=
  match snapshot_interval (cfg e) with
  | None => e
  | Some i =>
      let e := set_since e (tool_calls_since_last_snapshot (usage e) + 1) in
      if decide (i <= tool_calls_since_last_snapshot (usage e)) then set_since (take_interim_snapshot e) 0 else e
  end.
Definition bus_effect e (x : Effect) : Exec := if has_event_bus (cfg e) then emit e x else e.

(** A refusal of the human-approval gate, with the message left for the agent. *)
Definition hil_gate e (h : Host) c : option (string * Exec) :=
  if list_contains (Ipc.name c) (hil_required_tools (tools e)) then
    if has_kernel (cfg e) then
      if auto_approve h then None
      else Some ("Tool call requires human approval (HIL gate). Not yet approved."%string, e)
    else Some ("Tool call requires human approval."%string,
               inject_pending_message e ("[System]: HIL required for " +:+ Ipc.name c))
  else None.

(** A call that passed the gates. *)
Definition perform_call e (h : Host) c : option ((json * option json) * Exec) :=
  let e := bus_effect (interval_snapshot (bump_calls e)) (ToolCalled c) in
  '(r, e) ← dispatch hmac overflow_checks token_of_json rfc3339 instant_json json_text yaml_text e h c;
  let text := match r with Ok v => json_text v | Err x => ("Error: " +:+ avix_error_to_string x)%string end in
  let e := save_invocation_state (bus_effect e (ToolAnswered (call_id c) (Ipc.name c) text)) in
  Some ((tool_result (call_id c) text, match r with Ok v => Some v | Err _ => None end), e).

(** The block for the model and, for a call that succeeded, its result. *)
Definition process_call e (h : Host) c : option ((json * option json) * Exec) :=
  match validate_tool_call (at_ h 3) (token e) c (tool_budgets (tools e)) with
  | Err x => Some ((tool_result (call_id c) ("Error: " +:+ avix_error_to_string x)%string, None), e)
  | Ok b =>
      let e := set_tools e (with_budgets (tools e) b) in
      match hil_gate e h c with
      | Some (why, e) => Some ((tool_result (call_id c) why, None), e)
      | None => perform_call e h c
      end
  end.
Fixpoint process_calls e (hosts : nat -> Host) (i : nat) (calls : list AvixToolCall)
    : option (list (AvixToolCall * (json * option json)) * Exec) :=
  match calls with
  | [] => Some ([], e)
  | c :: rest =>
      '(x, e) ← process_call e (hosts i) c;
      '(l, e) ← process_calls e hosts (S i) rest;
      Some ((c, x) :: l, e)
  end.

(** ** The loop *)

Inductive Step : Type :=
| Return (r : result AvixError string) (e : Exec)
| Continue (m : list json) (chain : Z) (e : Exec)
| Block (e : Exec).

Definition push_assistant e (text : string) : Exec := push_history e (from_role_content Role.Assistant text).
(** A final answer is recorded, persisted and returned. *)
Definition finish (now : Z) e (text : string) : option Step :=
  e ← save_session_response now (save_invocation_state (push_assistant e text)) text; Some (Return (Ok text) e).

Definition limit_text (n : Z) : string :=
  ("I have reached the tool call limit of " +:+ pretty n +:+ " for this invocation. "
   +:+ "Please review the work completed so far and provide new instructions.")%string.

Definition message (role : string) (content : json) : json := JObj [("role", JStr role); ("content", content)]%string.
Definition record_calls e (text : string) (l : list (AvixToolCall * (json * option json))) : Exec :=
  let entries := omap (fun p => (fun v => {| tc_id := call_id p.1; tc_name := Ipc.name p.1; tc_args := Ipc.args p.1;
                                             tc_result := Some v |}) <$> p.2.2) l in
  if bool_decide (length entries = 0%nat) && String.eqb text EmptyString then e
  else push_history e {| role := Role.Assistant; content := text; tool_calls := entries; files_changed := []; thought := None |}.

Definition count_tokens e (total input : Z) : Exec := set_usage e {| context_used := input;
  tokens_consumed := u64_saturating_add (tokens_consumed (usage e)) total; tool_calls_total := tool_calls_total (usage e);
  tool_calls_since_last_snapshot := tool_calls_since_last_snapshot (usage e) |}.

Definition handle_answer (t : Turn) m (chain : Z) e (r : LlmCompleteResponse) : option Step :=
  total ← total_tokens overflow_checks r;
  let e := write_status_yaml status_to_yaml (t_at t 3) (count_tokens e total (rsp_input_tokens r)) in
  match interpret_stop_reason r with
  | ReturnResult text => finish (t_at t 4) e text
  | SummariseContext => finish (t_at t 4) e (answer_text (rsp_content r))
  | DispatchTools calls =>
      let chain := chain + Z.of_nat (length calls) in
      if decide (max_tool_chain_length (cfg e) < chain) then
        finish (t_at t 4) e (limit_text (max_tool_chain_length (cfg e)))
      else
        '(l, e) ← process_calls e (call_hosts t) 0 calls;
        Some (Continue (m ++ [message "assistant" (JArr (rsp_content r)); message "user" (JArr (l.*2).*1)]) chain
                (record_calls e (answer_text (rsp_content r)) l))
  end.

(** [while let Ok(sig) = signal_rx.try_recv()]; the flag is whether a signal killed the executor. *)
Fixpoint drain (now : Z) e (sigs : list Signal) : option (bool * Exec) :=
  match sigs with
  | [] => Some (false, e)
  | s :: rest =>
      e ← handle_signal_between_turns status_to_yaml now e s;
      if killed (flags e) then Some (true, e) else drain now e rest
  end.
(** Waiting for SIGRESUME; [None] inside is a receiver that still waits. *)
Fixpoint pause_wait (now : Z) e (arrivals : list (option Signal)) : option (option (result AvixError unit) * Exec) :=
  match arrivals with
  | [] => Some (None, e)
  | None :: _ => Some (Some (Err (Cancelled "signal channel closed")), e)
  | Some s :: rest =>
      e ← handle_signal_between_turns status_to_yaml now e s;
      if killed (flags e) then Some (Some (Err (Cancelled "killed while paused")), e)
      else if paused (flags e) then pause_wait now e rest
      else Some (Some (Ok ()), e)
  end.

Definition request_of e (m : list json) (system turn_id : string) : LlmCompleteRequest := {|
  lr_model := EmptyString; lr_messages := m; lr_tools := current_tool_list e; lr_system := Some system;
  lr_max_tokens := 4096; lr_turn_id := turn_id |}.

(** The request and how it ends. *)
Definition ask (t : Turn) m (chain : Z) e (system : string) : option Step :=
  let e := if snapshot_requested (flags e) then take_interim_snapshot (set_snapshot e false) else e in
  let turn := t_uuids t 0 in
  let e := emit e (Asked (request_of e m system turn)) in
  match llm t with
  | Answered a =>
      match run_turn_streaming turn e a with
      | (e, Ok r) => handle_answer t m chain e r
      | (e, Err (Cancelled _)) =>
          if killed (flags e) then Some (Return (Err (Cancelled "SIGKILL/SIGSTOP")) e) else Some (Continue m chain e)
      | (e, Err x) => Some (Return (Err x) e)
      end
  | Interrupted evs s =>
      e ← handle_signal_during_llm sha256_hex minute status_to_yaml (t_at t 2) (stream_events turn e acc_new evs).1 s;
      if killed (flags e) then Some (Return (Err (Cancelled "SIGKILL/SIGSTOP during LLM")) e) else Some (Continue m chain e)
  | RxClosed evs => Some (Return (Err (Cancelled "signal channel closed")) (stream_events turn e acc_new evs).1)
  end.

Definition turn_step (t : Turn) m (chain : Z) e : option Step :=
  let system := build_system_prompt_str e in
  e ← maybe_renew_token hmac overflow_checks (t_at t 0) (fun i => t_uuids t (S i)) (refresh_tool_list (t_registry t) e);
  if is_expired (t_at t 1) (token e)
  then Some (Return (Err (CapabilityDenied "capability token expired; cannot begin turn")) e)
  else
    '(dead, e) ← drain (t_at t 1) e (drained t);
    if (dead : bool) then Some (Return (Err (Cancelled "killed between turns")) e)
    else if paused (flags e) then
      '(woken, e) ← pause_wait (t_at t 1) e (while_paused t);
      match woken with
      | None => Some (Block e)
      | Some (Err x) => Some (Return (Err x) e)
      | Some (Ok _) => ask t m chain e system
      end
    else ask t m chain e system.

Inductive Outcome : Type :=
| Finished (r : result AvixError string) (e : Exec)
| Blocked (e : Exec)
| Running (e : Exec).
Definition outcome_exec (o : Outcome) : Exec := match o with Finished _ e | Blocked e | Running e => e end.

Fixpoint run (script : list Turn) m (chain : Z) e : option Outcome :=
  match script with
  | [] => Some (Running e)
  | t :: rest =>
      st ← turn_step t m chain e;
      match st with
      | Return r e => Some (Finished r e)
      | Block e => Some (Blocked e)
      | Continue m chain e => run rest m chain e
      end
  end.
Definition run_with_client (script : list Turn) (goal : string) e : option Outcome :=
  run script [message "user" (JStr goal)] 0 (push_history e (from_role_content Role.User goal)).

(** ** What an operation may do to the gate

    [silent] effects neither ask the model, nor call a tool, nor change the token. *)

Definition silent (x : Effect) : Prop :=
  match x with Asked _ | Dispatched _ | TokenSet _ => False | _ => True end.
Definition budgets e : gmap string Z := tool_budgets (tools e).

Record quiet e e' : Prop := {
  q_cfg : cfg e' = cfg e;
  q_token : token e' = token e;
  q_budgets : budgets e' = budgets e;
  q_trace : exists suf, trace e' = trace e ++ suf /\ Forall silent suf
}.
#[local] Instance quiet_refl : Reflexive quiet.
Proof. intros e. split; [done..|]. exists []. by rewrite app_nil_r. Qed.
#[local] Instance quiet_trans : Transitive quiet.
Proof.
  intros e1 e2 e3 [A1 B1 C1 (s1 & D1 & E1)] [A2 B2 C2 (s2 & D2 & E2)]. split; [congruence..|].
  exists (s1 ++ s2). rewrite D2, D1, app_assoc. split; [done|]. by apply Forall_app.
Qed.
Lemma quiet_same e e' : cfg e' = cfg e -> token e' = token e -> budgets e' = budgets e -> trace e' = trace e -> quiet e e'.
Proof. intros ??? Ht. split; [done..|]. exists []. by rewrite app_nil_r, Ht. Qed.
Lemma quiet_emit e x : silent x -> quiet e (emit e x).
Proof. intros Hq. split; [done..|]. exists [x]. split; [done|]. by constructor. Qed.

Lemma q_emit e e1 x : quiet e e1 -> silent x -> quiet e (emit e1 x).
Proof. intros. by etrans; [|apply quiet_emit]. Qed.
Lemma q_history e e1 h : quiet e e1 -> quiet e (set_history e1 h).
Proof. intros. etrans; [eassumption|]. by apply quiet_same. Qed.
Lemma q_texts e e1 p d : quiet e e1 -> quiet e (set_texts e1 p d).
Proof. intros. etrans; [eassumption|]. by apply quiet_same. Qed.
Lemma q_flags e e1 f : quiet e e1 -> quiet e (set_flags e1 f).
Proof. intros. etrans; [eassumption|]. by apply quiet_same. Qed.
Lemma q_usage e e1 u : quiet e e1 -> quiet e (set_usage e1 u).
Proof. intros. etrans; [eassumption|]. by apply quiet_same. Qed.
Lemma q_stores e e1 i s : quiet e e1 -> quiet e (set_stores e1 i s).
Proof. intros. etrans; [eassumption|]. by apply quiet_same. Qed.

#[local] Ltac same := first
  [ assumption | reflexivity
  | apply q_emit; [same|exact I] | apply q_history; same | apply q_texts; same | apply q_flags; same
  | apply q_usage; same | apply q_stores; same | apply quiet_same; done ].

Lemma quiet_inv_do e op : quiet e (inv_do e op).
Proof. unfold inv_do. destruct (invocation_store e); [|done]. destruct (String.eqb _ _); [done|same]. Qed.
Lemma quiet_save e : quiet e (save_invocation_state e).
Proof. apply quiet_inv_do. Qed.
Lemma quiet_status_do e st : quiet e (status_do e st).
Proof. apply quiet_inv_do. Qed.
Lemma quiet_session_response now e text e' : save_session_response now e text = Some e' -> quiet e e'.
Proof.
  unfold save_session_response. destruct (String.eqb _ _); [by intros [= <-]|].
  destruct (session_store e) as [s|], (parse_str (session_id (cfg e))) as [u|]; try by intros [= <-].
  destruct (ss_get s u) as [[r|]|]; try by intros [= <-].
  destruct (preview 500 text); [|done]. cbn. intros [= <-]. same.
Qed.
Lemma quiet_vfs_write e p t : quiet e (vfs_write e p t).
Proof. unfold vfs_write. destruct (VfsPath.parse p); [by apply quiet_emit|done]. Qed.
Lemma quiet_write_status now e : quiet e (write_status_yaml status_to_yaml now e).
Proof.
  unfold write_status_yaml. destruct (has_vfs _); [|done]. destruct (status_to_yaml _); [|done]. apply quiet_vfs_write.
Qed.
Lemma quiet_capture now e tr b e' : capture_and_write_snapshot sha256_hex minute now e tr b = Some e' -> quiet e e'.
Proof.
  unfold capture_and_write_snapshot. destruct (has_vfs _); [|by intros [= <-]].
  destruct (capture _ _ _ _); [|done]. cbn. destruct (snap_to_yaml _); intros [= <-]; [apply quiet_vfs_write|done].
Qed.
Lemma quiet_auto_log e e' : auto_log_session_end e = Some e' -> quiet e e'.
Proof.
  unfold auto_log_session_end. destruct (_ && _); [|by intros [= <-]].
  destruct (log_lines _); [|done]. cbn. intros [= <-]. by apply quiet_emit.
Qed.
Lemma quiet_on_kill now e e' : on_kill status_to_yaml now e = Some e' -> quiet e e' /\ killed (flags e') = true.
Proof.
  unfold on_kill. destruct (auto_log_session_end e) as [e1|] eqn:E; [|done]. cbn. intros [= <-].
  apply quiet_auto_log in E. split.
  - etrans; [exact E|]. etrans; [|apply quiet_write_status]. same.
  - unfold write_status_yaml. destruct (has_vfs _); [|done]. destruct (status_to_yaml _); [|done].
    unfold vfs_write. by destruct (VfsPath.parse _).
Qed.
Lemma quiet_on_pause now e : quiet e (on_pause status_to_yaml now e).
Proof. unfold on_pause. etrans; [|apply quiet_write_status]. etrans; [|apply quiet_status_do]. same. Qed.
Lemma quiet_on_resume now e : quiet e (on_resume status_to_yaml now e).
Proof. unfold on_resume. etrans; [|apply quiet_write_status]. etrans; [|apply quiet_status_do]. same. Qed.
Lemma quiet_on_save now e e' : on_save sha256_hex minute now e = Some e' -> quiet e e'.
Proof.
  unfold on_save. destruct (capture_and_write_snapshot _ _ _ _ _ _) eqn:E; [|done]. cbn. intros [= <-].
  etrans; [by eapply quiet_capture|]. apply quiet_save.
Qed.
Lemma quiet_between now e s e' : handle_signal_between_turns status_to_yaml now e s = Some e' -> quiet e e'.
Proof.
  unfold handle_signal_between_turns. cbv zeta. intros Hq.
  assert (quiet e (note_signal e (Signals.as_str (Signals.kind s)))) as Hn by same. etrans; [exact Hn|]. clear Hn. revert Hq.
  destruct (Signals.kind s); try (by intros [= <-]); try (intros [= <-]; same);
    try (intros [? _]%quiet_on_kill; done); intros [= <-]; [apply quiet_on_pause|apply quiet_on_resume].
Qed.
Lemma quiet_during now e s e' : handle_signal_during_llm sha256_hex minute status_to_yaml now e s = Some e' -> quiet e e'.
Proof.
  unfold handle_signal_during_llm. cbv zeta. intros Hq.
  assert (quiet e (note_signal e (Signals.as_str (Signals.kind s)))) as Hn by same. etrans; [exact Hn|]. clear Hn. revert Hq.
  destruct (Signals.kind s); try (by intros [= <-]); try (intros [= <-]; same);
    try (intros [? _]%quiet_on_kill; done); [intros [= <-]; apply quiet_on_pause|apply quiet_on_save].
Qed.
Lemma quiet_drain now sigs e b e' : drain now e sigs = Some (b, e') -> quiet e e'.
Proof.
  revert e. induction sigs as [|s sigs IH]; intros e; cbn [drain]; [by intros [= _ <-]|].
  destruct (handle_signal_between_turns _ _ _ _) as [e1|] eqn:E; [|done]. cbn. apply quiet_between in E.
  destruct (killed _); [by intros [= _ <-]|]. intros Hq%IH. by etrans.
Qed.
Lemma quiet_pause_wait now l e w e' : pause_wait now e l = Some (w, e') -> quiet e e'.
Proof.
  revert e. induction l as [|[s|] l IH]; intros e; cbn [pause_wait]; try by intros [= _ <-].
  destruct (handle_signal_between_turns _ _ _ _) as [e1|] eqn:E; [|done]. cbn. apply quiet_between in E.
  destruct (killed _); [by intros [= _ <-]|]. destruct (paused _); [|by intros [= _ <-]]. intros Hq%IH. by etrans.
Qed.
Lemma quiet_chunk e turn d n f : quiet e (chunk e turn d n f).
Proof. unfold chunk. destruct (has_event_bus _); [by apply quiet_emit|done]. Qed.
Lemma quiet_flush turn e a : quiet e (flush_pending turn e a).1.
Proof. unfold flush_pending. destruct (String.eqb _ _); [done|]. apply quiet_chunk. Qed.
Lemma quiet_stream_chunk turn e a (c : StreamChunk) : quiet e (stream_chunk turn e a c).1.
Proof.
  destruct c as [t|id n|id d|id|sr i o]; cbn [stream_chunk]; try done.
  - destruct (_ <=? _)%nat; [|done]. cbv zeta. apply quiet_flush.
  - pose proof (quiet_flush turn e a) as Hs. by destruct (flush_pending turn e a).
Qed.
Lemma quiet_stream turn evs e a : quiet e (stream_events turn e a evs).1.
Proof.
  revert e a. induction evs as [|v evs IH]; intros e a; cbn [stream_events]; [done|]. destruct v as [c| |x|]; try done.
  - pose proof (quiet_stream_chunk turn e a c) as Hs. destruct (stream_chunk turn e a c) as [e1 a1].
    etrans; [exact Hs|]. apply IH.
  - pose proof (quiet_flush turn e a) as Hs. destruct (flush_pending turn e a) as [e1 a1]. etrans; [exact Hs|]. apply IH.
Qed.
Lemma quiet_streaming turn e ans : quiet e (run_turn_streaming turn e ans).1.
Proof.
  destruct ans as [r|evs]; cbn [run_turn_streaming]; [done|].
  pose proof (quiet_stream turn evs e acc_new) as Hs. destruct (stream_events turn e acc_new evs) as [e1 [a|x]]; [|done].
  pose proof (quiet_flush turn e1 a) as Hf. destruct (flush_pending turn e1 a) as [e2 a2]. cbn [fst].
  etrans; [exact Hs|]. etrans; [exact Hf|]. apply quiet_chunk.
Qed.
Lemma quiet_interval e : quiet e (interval_snapshot e).
Proof.
  unfold interval_snapshot. destruct (snapshot_interval _) as [i|]; [|done]. cbv zeta. case_decide; [|same].
  apply q_usage. etrans; [|apply quiet_save]. same.
Qed.
Lemma quiet_bus_effect e x : silent x -> quiet e (bus_effect e x).
Proof. intros. unfold bus_effect. destruct (has_event_bus _); [by apply quiet_emit|done]. Qed.
Lemma quiet_refresh reg e : quiet e (refresh_tool_list reg e).
Proof. same. Qed.
Lemma quiet_record e text l : quiet e (record_calls e text l).
Proof. unfold record_calls. destruct (_ && _); [done|same]. Qed.
Lemma quiet_finish now e text st : finish now e text = Some st -> exists e', st = Return (Ok text) e' /\ quiet e e'.
Proof.
  unfold finish. destruct (save_session_response _ _ _) as [e'|] eqn:E; [|done]. cbn. intros [= <-].
  exists e'. split; [done|]. etrans; [|by eapply quiet_session_response]. etrans; [|apply quiet_save]. same.
Qed.

(** ** The gate on the trace *)

(** The token in force after some calls. *)
Definition token_after (t : CapabilityToken) (tr : list Effect) : CapabilityToken :=
  foldl (fun t x => match x with TokenSet t' => t' | _ => t end) t tr.
(** Every dispatched call was permitted by the token then in force. *)
Fixpoint gated (t : CapabilityToken) (tr : list Effect) : Prop :=
  match tr with
  | [] => True
  | x :: tr' =>
      match x with Dispatched c => permitted t (Ipc.name c) | _ => True end /\
      gated (match x with TokenSet t' => t' | _ => t end) tr'
  end.
Definition is_call_of (tool : string) (x : Effect) : bool :=
  match x with Dispatched c => String.eqb (Ipc.name c) tool | _ => false end.
Definition is_call (x : Effect) : bool := match x with Dispatched _ => true | _ => false end.
Definition occurrences (p : Effect -> bool) (tr : list Effect) : Z := Z.of_nat (length (List.filter p tr)).
(** What the dispatched calls take from the budgets. *)
Definition spends (b b' : gmap string Z) (tr : list Effect) : Prop :=
  map_Forall (fun _ n => 0 <= n) b -> map_Forall (fun _ n => 0 <= n) b' /\
  forall tool n, b !! tool = Some n -> exists n', b' !! tool = Some n' /\ n' + occurrences (is_call_of tool) tr <= n.

Record adv e e' (tr : list Effect) : Prop := {
  a_cfg : cfg e' = cfg e;
  a_trace : trace e' = trace e ++ tr;
  a_token : token e' = token_after (token e) tr;
  a_gated : gated (token e) tr;
  a_spends : spends (budgets e) (budgets e') tr
}.

Lemma occurrences_app p tr tr' : occurrences p (tr ++ tr') = occurrences p tr + occurrences p tr'.
Proof. unfold occurrences. rewrite List.filter_app, length_app. lia. Qed.
Lemma occurrences_silent p tr : (forall x, silent x -> p x = false) -> Forall silent tr -> occurrences p tr = 0.
Proof.
  intros Hp. induction 1 as [|x tr Hx _ IH]; [done|]. unfold occurrences in *. cbn. by rewrite Hp by done.
Qed.
Lemma silent_no_call_of tool x : silent x -> is_call_of tool x = false.
Proof. by destruct x. Qed.
Lemma silent_no_call x : silent x -> is_call x = false.
Proof. by destruct x. Qed.
Lemma token_after_silent t tr : Forall silent tr -> token_after t tr = t.
Proof. induction 1 as [|x tr Hx _ IH]; [done|]. unfold token_after in *. cbn. by destruct x. Qed.
Lemma gated_silent t tr : Forall silent tr -> gated t tr.
Proof. induction 1 as [|x tr Hx _ IH]; [done|]. cbn. by destruct x. Qed.
Lemma gated_app t tr tr' : gated t (tr ++ tr') <-> gated t tr /\ gated (token_after t tr) tr'.
Proof.
  revert t. induction tr as [|x tr IH]; intros t; [cbn; tauto|]. cbn [gated app]. rewrite IH.
  unfold token_after. cbn [foldl]. tauto.
Qed.

Lemma adv_trans e1 e2 e3 s1 s2 : adv e1 e2 s1 -> adv e2 e3 s2 -> adv e1 e3 (s1 ++ s2).
Proof.
  intros [A1 B1 C1 D1 E1] [A2 B2 C2 D2 E2]. split.
  - congruence.
  - by rewrite B2, B1, app_assoc.
  - rewrite C2, C1. unfold token_after. by rewrite foldl_app.
  - apply gated_app. by rewrite <- C1.
  - intros Hb. destruct (E1 Hb) as [Hb2 Hs1]. destruct (E2 Hb2) as [Hb3 Hs2]. split; [done|].
    intros tool n Hn. destruct (Hs1 tool n Hn) as (n1 & Hn1 & H1'). destruct (Hs2 tool n1 Hn1) as (n2 & Hn2 & H2').
    exists n2. split; [done|]. rewrite occurrences_app. lia.
Qed.
Lemma adv_quiet e e' : quiet e e' -> exists tr, adv e e' tr /\ Forall silent tr.
Proof.
  intros [A B D (tr & Et & Hs)]. exists tr. split; [|done]. split; [done|done| | |].
  - by rewrite token_after_silent.
  - by apply gated_silent.
  - rewrite D. intros Hb. split; [done|]. intros tool n Hn. exists n. split; [done|].
    rewrite occurrences_silent; [lia|apply silent_no_call_of|done].
Qed.
Lemma adv_refl e : adv e e [].
Proof.
  split; [done|by rewrite app_nil_r|done|done|]. intros Hb. split; [done|]. intros tool n Hn. exists n.
  split; [done|]. unfold occurrences. cbn. lia.
Qed.
Lemma adv_token e t : adv e (set_token e t) [TokenSet t].
Proof.
  split; [done|done|done|done|]. intros Hb. split; [done|]. intros tool n Hn. exists n. split; [done|].
  unfold occurrences. cbn. lia.
Qed.

(** Effects that leave tools and model alone, the token apart. *)
Definition idle_effect (x : Effect) : Prop := match x with Asked _ | Dispatched _ => False | _ => True end.
Lemma silent_idle tr : Forall silent tr -> Forall idle_effect tr.
Proof. intros Hs. eapply Forall_impl; [exact Hs|]. by intros []. Qed.
#[local] Hint Resolve silent_idle : core.

Lemma adv_renew now us e e' : maybe_renew_token hmac overflow_checks now us e = Some e' ->
  exists tr, adv e e' tr /\ Forall idle_effect tr.
Proof.
  unfold maybe_renew_token. destruct (negb _); [intros [= <-]; exists []; split; [apply adv_refl|done]|].
  destruct (match resource_handler (cfg e) with Some _ => _ | None => _ end) as [r|]; [|done]. cbn. intros [= <-].
  eexists. split; [apply adv_token|]. by repeat constructor.
Qed.

Lemma adv_quiet_r e e1 e2 tr (P : Effect -> Prop) : (forall x, silent x -> P x) -> adv e e1 tr -> Forall P tr -> quiet e1 e2 ->
  exists tr', adv e e2 (tr ++ tr') /\ Forall silent tr' /\ Forall P (tr ++ tr').
Proof.
  intros HP Ha Hf (tr' & Ha' & Hs)%adv_quiet. exists tr'. split; [by eapply adv_trans|]. split; [done|].
  apply Forall_app. split; [done|]. eapply Forall_impl; [exact Hs|done].
Qed.

Lemma adv_hil_flow e (h : Host) tool reason v e' :
  hil_flow token_of_json instant_json json_text e h tool reason = (v, e') ->
  exists tr, adv e e' tr /\ Forall idle_effect tr.
Proof.
  unfold hil_flow. cbv zeta. destruct (hil_open h) as [[]|x].
  - destruct (request_tool _ _ _ _) as [t|x].
    + intros [= _ <-].
      match goal with |- context [refresh_tool_list _ (set_token ?e1 t)] => set (e2 := e1) end.
      assert (quiet e e2) as Hq.
      { unfold e2. same. }
      clearbody e2. destruct (adv_quiet _ _ Hq) as (tr & Ha & Hs). exists (tr ++ [TokenSet t]). split.
      * eapply adv_trans; [exact Ha|]. pose proof (adv_token e2 t) as [A B D F G]. by split.
      * apply Forall_app. split; [auto|]. by repeat constructor.
    + intros [= _ <-].
      match goal with |- exists tr, adv e ?e1 tr /\ _ => assert (quiet e e1) as Hq end.
      { same. }
      destruct (adv_quiet _ _ Hq) as (tr & Ha & Hs). exists tr. auto.
  - intros [= _ <-]. match goal with |- exists tr, adv e ?e1 tr /\ _ => assert (quiet e e1) as Hq end.
    { same. }
    destruct (adv_quiet _ _ Hq) as (tr & Ha & Hs). exists tr. auto.
Qed.

Lemma adv_of_quiet e e' : quiet e e' -> exists tr, adv e e' tr /\ Forall idle_effect tr.
Proof. intros (tr & Ha & Hs)%adv_quiet. exists tr. auto. Qed.

Lemma adv_request_tool e (h : Host) c v e' :
  request_tool_call hmac overflow_checks token_of_json instant_json json_text e h c = Some (v, e') ->
  exists tr, adv e e' tr /\ Forall idle_effect tr.
Proof.
  unfold request_tool_call. cbv zeta. destruct (_ && _).
  { intros [= _ <-]. by apply adv_of_quiet. }
  destruct (resource_handler _) as [rh|]; [|intros [= _ <-]; apply adv_of_quiet; same].
  destruct (handle _ _ _ _ _ _ _) as [[r|x]|]; [| |done]; cbn [mbind option_bind].
  - destruct (_ && _).
    + intros [= Hf]. by eapply adv_hil_flow.
    + intros [= _ <-]. apply adv_of_quiet. same.
  - intros [= _ <-]. apply adv_of_quiet. same.
Qed.
Lemma adv_pipe_open e (h : Host) c v e' : pipe_open_tool hmac overflow_checks yaml_text e h c = Some (v, e') -> quiet e e'.
Proof.
  unfold pipe_open_tool. cbv zeta. destruct (resource_handler _) as [rh|]; [|by intros [= _ <-]].
  destruct (handle _ _ _ _ _ _ _) as [r|]; [|done]. cbn [mbind option_bind]. intros [= Hr]. revert Hr.
  destruct r as [[? ? gs]|x]; [|by intros [= _ <-]].
  destruct gs as [|[| |[] ? [?|] ? ? ?|] ?]; try by intros [= _ <-].
  intros [= _ <-]. destruct (has_vfs _); [apply quiet_vfs_write|done].
Qed.
Lemma adv_category2 e (h : Host) c v e' :
  dispatch_category2 hmac overflow_checks token_of_json rfc3339 instant_json json_text yaml_text e h c = Some (v, e') ->
  exists tr, adv e e' tr /\ Forall idle_effect tr.
Proof.
  unfold dispatch_category2. cbv zeta.
  repeat match goal with |- context [if String.eqb (Ipc.name c) ?n then _ else _] => destruct (String.eqb (Ipc.name c) n) end;
    first [apply adv_request_tool | intros Hp%adv_pipe_open; by apply adv_of_quiet | intros [= _ <-]; apply adv_of_quiet; try same].
  all: destruct (has_kernel _); same.
Qed.
Lemma adv_dispatch e (h : Host) c r e' :
  dispatch hmac overflow_checks token_of_json rfc3339 instant_json json_text yaml_text e h c = Some (r, e') ->
  exists tr, adv (emit e (Dispatched c)) e' tr /\ Forall idle_effect tr.
Proof.
  unfold dispatch. cbv zeta. destruct (is_cat2_tool _ _).
  - destruct (dispatch_category2 _ _ _ _ _ _ _ _ _ _) as [[v e1]|] eqn:E; [|done]. cbn [mbind option_bind].
    intros [= _ <-]. by eapply adv_category2.
  - destruct (dispatch_via_router _ _ _) as [x|]; [|done]. cbn [mbind option_bind]. intros [= _ <-].
    exists []. split; [apply adv_refl|done].
Qed.

(** ** One call *)

Definition no_ask (x : Effect) : Prop := match x with Asked _ => False | _ => True end.
Lemma idle_no_ask tr : Forall idle_effect tr -> Forall no_ask tr.
Proof. intros Hs. eapply Forall_impl; [exact Hs|]. by intros []. Qed.
Lemma occurrences_idle tr : Forall idle_effect tr -> occurrences is_call tr = 0.
Proof.
  induction 1 as [|x tr Hx _ IH]; [done|]. unfold occurrences in *. cbn. by destruct x.
Qed.
Lemma occurrences_idle_of tool tr : Forall idle_effect tr -> occurrences (is_call_of tool) tr = 0.
Proof. induction 1 as [|x tr Hx _ IH]; [done|]. unfold occurrences in *. cbn. by destruct x. Qed.

Section Gate.
Variables (e e2 : Exec) (now : Z) (c : AvixToolCall) (b : gmap string Z).
Hypothesis Hv : validate_tool_call now (token e) c (budgets e) = Ok b.
Hypothesis Hq : quiet (set_tools e (with_budgets (tools e) b)) e2.

Lemma spend_lookup tool n : map_Forall (fun _ n => 0 <= n) (budgets e) -> budgets e !! tool = Some n ->
  exists n', b !! tool = Some n' /\ n' + (if String.eqb (Ipc.name c) tool then 1 else 0) <= n.
Proof.
  intros Hb Hn. destruct (validate_ok _ _ _ _ _ Hv) as (_ & _ & _ & Hs). destruct (Hs Hb) as [_ ->].
  rewrite lookup_alter. destruct (String.eqb_spec (Ipc.name c) tool) as [->|Hne].
  - rewrite decide_True, Hn by done. cbn. exists (n - 1). split; [done|lia].
  - rewrite decide_False by done. exists n. split; [done|lia].
Qed.
Lemma adv_passed : exists tr, adv e (emit e2 (Dispatched c)) (tr ++ [Dispatched c]) /\ Forall silent tr.
Proof.
  destruct Hq as [A B D (tr & Et & Hs)]. exists tr. split; [|done].
  destruct (validate_ok _ _ _ _ _ Hv) as (_ & Hp & _ & Hspend). split.
  - exact A.
  - cbn. rewrite Et. cbn. by rewrite app_assoc.
  - unfold token_after. rewrite foldl_app. cbn [foldl]. change (token (emit e2 (Dispatched c))) with (token e2).
    rewrite B. symmetry. by apply token_after_silent.
  - apply gated_app. split; [by apply gated_silent|]. rewrite token_after_silent by done. by split.
  - change (budgets (emit e2 (Dispatched c))) with (budgets e2). rewrite D. intros Hb. split; [by apply Hspend|].
    intros tool n Hn. destruct (spend_lookup tool n Hb Hn) as (n' & Hn' & Hle). exists n'. split; [done|].
    rewrite occurrences_app, occurrences_silent by (try apply silent_no_call_of; done).
    unfold occurrences. cbn. destruct (String.eqb (Ipc.name c) tool); cbn; lia.
Qed.
Lemma adv_refused : exists tr, adv e e2 tr /\ Forall silent tr.
Proof.
  destruct Hq as [A B D (tr & Et & Hs)]. exists tr. split; [|done].
  destruct (validate_ok _ _ _ _ _ Hv) as (_ & _ & _ & Hspend). split.
  - exact A.
  - exact Et.
  - rewrite B. symmetry. by apply token_after_silent.
  - by apply gated_silent.
  - rewrite D. intros Hb. split; [by apply Hspend|]. intros tool n Hn.
    destruct (spend_lookup tool n Hb Hn) as (n' & Hn' & Hle). exists n'. split; [done|].
    rewrite occurrences_silent by (try apply silent_no_call_of; done). destruct (String.eqb _ _); lia.
Qed.
End Gate.

(** The block answers the call. *)
Definition block_for c (x : json * option json) : Prop := exists text, x.1 = tool_result (call_id c) text.

Lemma adv_process_call e (h : Host) c x e' : process_call e h c = Some (x, e') ->
  exists tr, adv e e' tr /\ Forall no_ask tr /\ occurrences is_call tr <= 1 /\ block_for c x.
Proof.
  unfold process_call. destruct (validate_tool_call _ _ _ _) as [b|err] eqn:Hv.
  2:{ intros [= <- <-]. exists []. split; [apply adv_refl|]. split; [done|]. split; [done|]. by eexists. }
  destruct (hil_gate _ h c) as [[why e1]|] eqn:Hg.
  - intros [= <- <-]. assert (quiet (set_tools e (with_budgets (tools e) b)) e1) as Hq.
    { revert Hg. unfold hil_gate. destruct (list_contains _ _); [|done].
      destruct (has_kernel _); [destruct (auto_approve h); [done|]|]; intros [= _ <-]; same. }
    destruct (adv_refused _ _ _ _ _ Hv Hq) as (tr & Ha & Hs). exists tr. split; [done|].
    split; [by apply idle_no_ask, silent_idle|]. split; [by rewrite occurrences_silent by (try apply silent_no_call; done)|].
    by eexists.
  - unfold perform_call. cbv zeta. set (e1 := bus_effect _ _).
    assert (quiet (set_tools e (with_budgets (tools e) b)) e1) as Hq.
    { unfold e1. etrans; [|by apply quiet_bus_effect]. etrans; [|apply quiet_interval]. same. }
    clearbody e1. destruct (dispatch _ _ _ _ _ _ _ _ _ _) as [[r e2]|] eqn:Hd; [|done]. cbn [mbind option_bind].
    intros [= <- <-]. destruct (adv_passed _ _ _ _ _ Hv Hq) as (tr1 & Ha1 & Hs1).
    destruct (adv_dispatch _ _ _ _ _ Hd) as (tr2 & Ha2 & Hs2).
    match goal with |- exists tr, adv e ?e3 tr /\ _ => assert (quiet e2 e3) as Hq3 end.
    { etrans; [|apply quiet_save]. by apply quiet_bus_effect. }
    destruct (adv_quiet _ _ Hq3) as (tr3 & Ha3 & Hs3).
    exists ((tr1 ++ [Dispatched c]) ++ tr2 ++ tr3). split; [by eapply adv_trans; [|eapply adv_trans]|].
    split; [|split; [|by eexists]].
    + rewrite !Forall_app. repeat split; [by apply idle_no_ask, silent_idle|by repeat constructor|by apply idle_no_ask|
        by apply idle_no_ask, silent_idle].
    + rewrite !occurrences_app, (occurrences_idle tr2) by done.
      rewrite (occurrences_idle tr1), (occurrences_idle tr3) by auto. unfold occurrences. cbn. lia.
Qed.

Lemma adv_process_calls hosts calls i e l e' : process_calls e hosts i calls = Some (l, e') ->
  exists tr, adv e e' tr /\ Forall no_ask tr /\ occurrences is_call tr <= Z.of_nat (length calls) /\
    Forall2 block_for calls l.*2.
Proof.
  revert i e l. induction calls as [|c calls IH]; intros i e l; cbn [process_calls].
  { intros [= <- <-]. exists []. split; [apply adv_refl|]. repeat split; [done|done|constructor]. }
  destruct (process_call e (hosts i) c) as [[x e1]|] eqn:E; [|done]. cbn [mbind option_bind].
  destruct (process_calls e1 hosts (S i) calls) as [[l' e2]|] eqn:El; [|done]. cbn [mbind option_bind]. intros [= <- <-].
  destruct (adv_process_call _ _ _ _ _ E) as (t1 & A1 & N1 & O1 & B1).
  destruct (IH _ _ _ El) as (t2 & A2 & N2 & O2 & B2). exists (t1 ++ t2).
  split; [by eapply adv_trans|]. split; [by apply Forall_app|]. split; [rewrite occurrences_app; cbn [length]; lia|].
  by constructor.
Qed.

(** ** One iteration *)

Definition step_exec (st : Step) : Exec := match st with Return _ e | Continue _ _ e | Block e => e end.

(** The result block that answers a [tool_use] block. *)
Definition answers_block (use result : json) : Prop :=
  exists text, result = tool_result (str_or EmptyString (jindex use "id")) text.
(** The messages of a conversation: the goal, then pairs of an answer of the model and the results of its
    tool calls, one for each, in order. *)
Inductive thread (goal : string) : list json -> Prop :=
| thread_goal : thread goal [message "user" (JStr goal)]
| thread_results m content results : thread goal m -> Forall2 answers_block (tool_uses content) results ->
    thread goal (m ++ [message "assistant" (JArr content); message "user" (JArr results)]).

(** How an iteration goes on: it repeats the request, or it has added the results of [n] calls. *)
Definition goes_on (max : Z) m chain (calls : Z) m' chain' : Prop :=
  (m' = m /\ chain' = chain /\ calls = 0) \/
  (chain' <= max /\ calls <= chain' - chain /\ exists content results,
     chain' = chain + Z.of_nat (length (tool_uses content)) /\ Forall2 answers_block (tool_uses content) results /\
     m' = m ++ [message "assistant" (JArr content); message "user" (JArr results)]).

Lemma goes_on_chain max m chain n m' chain' : goes_on max m chain n m' chain' -> chain <= max ->
  chain <= chain' <= max /\ n <= chain' - chain.
Proof. intros [(-> & -> & ->)|(? & ? & content & results & -> & _)]; lia. Qed.
Lemma goes_on_thread max goal m chain n m' chain' : goes_on max m chain n m' chain' -> thread goal m -> thread goal m'.
Proof. intros [(-> & _)|(_ & _ & content & results & _ & Hr & ->)] Ht; [done|]. by constructor. Qed.

Lemma blocks_answer uses (l : list (AvixToolCall * (json * option json))) :
  Forall2 block_for (call_of <$> uses) l.*2 -> Forall2 answers_block uses (l.*2).*1.
Proof.
  intros HF. rewrite Forall2_fmap_l in HF. rewrite Forall2_fmap_r. eapply Forall2_impl; [exact HF|].
  intros u x [text Hx]. by exists text.
Qed.

Definition step_kind (max : Z) m chain (calls : Z) (st : Step) : Prop :=
  match st with
  | Continue m' chain' _ => goes_on max m chain calls m' chain'
  | _ => calls = 0
  end.

Lemma adv_finish now e text st : finish now e text = Some st -> exists tr, adv e (step_exec st) tr /\ Forall silent tr /\
  exists e', st = Return (Ok text) e'.
Proof.
  intros (e' & -> & Hq)%quiet_finish. destruct (adv_quiet _ _ Hq) as (tr & Ha & Hs). exists tr.
  split; [done|]. split; [done|]. by exists e'.
Qed.

Lemma adv_handle_answer (t : Turn) m chain e r st : handle_answer t m chain e r = Some st ->
  exists tr, adv e (step_exec st) tr /\ Forall no_ask tr /\
    step_kind (max_tool_chain_length (cfg e)) m chain (occurrences is_call tr) st /\
    (forall m' chain' e', st = Continue m' chain' e' -> rsp_stop_reason r = ToolUse /\
       chain' = chain + Z.of_nat (length (tool_uses (rsp_content r)))).
Proof.
  unfold handle_answer. destruct (total_tokens _ r) as [total|]; [|done]. cbn [mbind option_bind].
  set (e1 := write_status_yaml _ _ _).
  assert (quiet e e1) as Hq1. { unfold e1. etrans; [|apply quiet_write_status]. same. }
  assert (cfg e1 = cfg e) as Hcfg by (by apply q_cfg). clearbody e1.
  destruct (adv_quiet _ _ Hq1) as (t1 & A1 & S1).
  assert (forall now text, finish now e1 text = Some st -> exists tr, adv e (step_exec st) tr /\ Forall no_ask tr /\
    step_kind (max_tool_chain_length (cfg e)) m chain (occurrences is_call tr) st /\
    (forall m' chain' e', st = Continue m' chain' e' -> rsp_stop_reason r = ToolUse /\
       chain' = chain + Z.of_nat (length (tool_uses (rsp_content r))))) as Hfin.
  { intros now text (t2 & A2 & S2 & e' & ->)%adv_finish. exists (t1 ++ t2).
    assert (Forall silent (t1 ++ t2)) as S12 by (by apply Forall_app).
    split; [by eapply adv_trans|]. split; [by apply idle_no_ask, silent_idle|]. split; [|done].
    cbn. by rewrite occurrences_idle by auto. }
  unfold interpret_stop_reason. destruct (rsp_stop_reason r); [by apply Hfin| |by apply Hfin|by apply Hfin].
  rewrite length_fmap. case_decide as Hmax; [by apply Hfin|]. rewrite Hcfg in Hmax.
  destruct (process_calls _ _ _ _) as [[l e2]|] eqn:E; [|done]. cbn [mbind option_bind]. intros [= <-].
  destruct (adv_process_calls _ _ _ _ _ _ E) as (t2 & A2 & N2 & O2 & B2).
  destruct (adv_quiet _ _ (quiet_record e2 (answer_text (rsp_content r)) l)) as (t3 & A3 & S3).
  exists (t1 ++ t2 ++ t3). cbn [step_exec]. split; [by eapply adv_trans; [|eapply adv_trans]|].
  assert (occurrences is_call (t1 ++ t2 ++ t3) = occurrences is_call t2) as ->.
  { rewrite !occurrences_app, (occurrences_idle t1), (occurrences_idle t3) by auto. lia. }
  split; [|split].
  - rewrite !Forall_app. repeat split; [by apply idle_no_ask, silent_idle|done|by apply idle_no_ask, silent_idle].
  - right. rewrite length_fmap in O2. split; [lia|]. split; [lia|]. exists (rsp_content r), (l.*2).*1.
    split; [done|]. split; [by apply blocks_answer|done].
  - intros m' chain' e' [= <- <- <-]. done.
Qed.

(** Only one request, with the messages of the loop. *)
Definition asks_only m (tr : list Effect) : Prop := forall rq, Asked rq ∈ tr -> lr_messages rq = m.
Lemma asks_only_app m tr tr' : asks_only m tr -> asks_only m tr' -> asks_only m (tr ++ tr').
Proof. intros A B rq [?|?]%elem_of_app; auto. Qed.
Lemma asks_only_none m tr : Forall no_ask tr -> asks_only m tr.
Proof. intros Hn rq Hin. rewrite Forall_forall in Hn. by apply Hn in Hin. Qed.
#[local] Hint Resolve asks_only_app asks_only_none idle_no_ask : core.

Lemma adv_asked e rq : adv e (emit e (Asked rq)) [Asked rq].
Proof.
  split; [done|done|done|done|]. intros Hb. split; [done|]. intros tool n Hn. exists n. split; [done|].
  unfold occurrences. cbn. lia.
Qed.

Lemma adv_ask (t : Turn) m chain e system st : ask t m chain e system = Some st ->
  exists tr, adv e (step_exec st) tr /\ asks_only m tr /\
    step_kind (max_tool_chain_length (cfg e)) m chain (occurrences is_call tr) st.
Proof.
  unfold ask. set (e0 := if snapshot_requested _ then _ else _).
  assert (quiet e e0) as Hq0.
  { unfold e0. destruct (snapshot_requested _); [|done]. etrans; [|apply quiet_save]. same. }
  assert (cfg e0 = cfg e) as Hcfg by (by apply q_cfg). clearbody e0.
  destruct (adv_quiet _ _ Hq0) as (t0 & A0 & S0).
  set (rq := request_of e0 m system _). pose proof (adv_asked e0 rq) as A1. set (e1 := emit e0 (Asked rq)) in *.
  assert (cfg e1 = cfg e) as Hcfg1 by done. clearbody e1.
  assert (asks_only m (t0 ++ [Asked rq])) as Hask.
  { apply asks_only_app; [auto|]. intros rq' [= ->]%list_elem_of_singleton. done. }
  pose proof (adv_trans _ _ _ _ _ A0 A1) as A01.
  assert (occurrences is_call (t0 ++ [Asked rq]) = 0) as O01.
  { rewrite occurrences_app, (occurrences_idle t0) by auto. done. }
  assert (forall e2, quiet e1 e2 -> exists tr, adv e e2 tr /\ asks_only m tr /\ occurrences is_call tr = 0) as Hquiet.
  { intros e2 (t2 & A2 & S2)%adv_quiet. exists ((t0 ++ [Asked rq]) ++ t2). split; [by eapply adv_trans|].
    split; [auto 10|]. rewrite occurrences_app, (occurrences_idle t2) by auto. lia. }
  destruct (llm t) as [a|evs s|evs].
  - pose proof (quiet_streaming (t_uuids t 0) e1 a) as Hs. destruct (run_turn_streaming _ e1 a) as [e2 res]. cbn [fst] in Hs.
    destruct res as [r|x].
    + intros Ha%adv_handle_answer. destruct Ha as (t3 & A3 & N3 & K3 & _). destruct (adv_quiet _ _ Hs) as (t2 & A2 & S2).
      assert (cfg e2 = cfg e) as Hc2 by (by rewrite (q_cfg _ _ Hs)). rewrite Hc2 in K3.
      exists ((t0 ++ [Asked rq]) ++ t2 ++ t3). split; [by eapply adv_trans; [|eapply adv_trans]|]. split; [auto 10|].
      rewrite (occurrences_app _ (t0 ++ _)), (occurrences_app _ t2), (occurrences_idle t2) by auto. rewrite O01. cbn [Z.add]. exact K3.
    + destruct (Hquiet e2 Hs) as (tr & Ha & Hk & Ho). intros Hst. exists tr.
      assert (step_exec st = e2 /\ step_kind (max_tool_chain_length (cfg e)) m chain (occurrences is_call tr) st) as [-> Hkind].
      { revert Hst. destruct x; try (by intros [= <-]). destruct (killed _); intros [= <-]; [done|]. split; [done|by left]. }
      done.
  - destruct (handle_signal_during_llm _ _ _ _ _ _) as [e2|] eqn:E; [|done]. cbn [mbind option_bind].
    apply quiet_during in E. intros Hst.
    destruct (Hquiet e2) as (tr & Ha & Hk & Ho). { etrans; [apply quiet_stream|exact E]. }
    exists tr. revert Hst. destruct (killed _); intros [= <-]; cbn [step_exec step_kind]; [done|].
    split; [done|]. split; [done|]. by left.
  - intros [= <-]. destruct (Hquiet (stream_events (t_uuids t 0) e1 acc_new evs).1) as (tr & Ha & Hk & Ho); [apply quiet_stream|].
    by exists tr.
Qed.

Lemma adv_turn (t : Turn) m chain e st : turn_step t m chain e = Some st ->
  exists tr, adv e (step_exec st) tr /\ asks_only m tr /\
    step_kind (max_tool_chain_length (cfg e)) m chain (occurrences is_call tr) st.
Proof.
  unfold turn_step. destruct (maybe_renew_token _ _ _ _ _) as [e1|] eqn:E1; [|done]. cbn [mbind option_bind].
  apply adv_renew in E1 as (t1 & A1 & S1).
  assert (adv e e1 t1) as A01.
  { change t1 with ([] ++ t1). eapply adv_trans; [|exact A1]. pose proof (adv_refl e) as [A B D F G]. by split. }
  clear A1.
  assert (forall e2, quiet e1 e2 -> exists tr, adv e e2 tr /\ asks_only m tr /\ occurrences is_call tr = 0) as Hquiet.
  { intros e2 (t2 & A2 & S2)%adv_quiet. exists (t1 ++ t2). split; [by eapply adv_trans|]. split; [auto 10|].
    rewrite occurrences_app, !occurrences_idle by auto. done. }
  assert (forall e2 system, quiet e1 e2 -> ask t m chain e2 system = Some st -> exists tr, adv e (step_exec st) tr /\
    asks_only m tr /\ step_kind (max_tool_chain_length (cfg e)) m chain (occurrences is_call tr) st) as Hask.
  { intros e2 system Hq (t3 & A3 & K3 & S3)%adv_ask. destruct (Hquiet e2 Hq) as (t2 & A2 & K2 & O2).
    rewrite (a_cfg _ _ _ A2) in S3. exists (t2 ++ t3). split; [by eapply adv_trans|]. split; [auto|].
    rewrite occurrences_app, O2. exact S3. }
  destruct (is_expired _ _).
  { intros [= <-]. destruct (Hquiet e1) as (tr & ? & ? & ?); [done|]. by exists tr. }
  destruct (drain _ _ _) as [[dead e2]|] eqn:E2; [|done]. cbn [mbind option_bind]. apply quiet_drain in E2.
  destruct dead. { intros [= <-]. destruct (Hquiet e2 E2) as (tr & ? & ? & ?). by exists tr. }
  destruct (paused _); [|by apply Hask].
  destruct (pause_wait _ _ _) as [[w e3]|] eqn:E3; [|done]. cbn [mbind option_bind]. apply quiet_pause_wait in E3.
  assert (quiet e1 e3) as Hq3 by (by etrans). destruct (Hquiet e3 Hq3) as (tr & ? & ? & ?).
  destruct w as [[[]|x]|]; [by apply Hask| |]; intros [= <-]; by exists tr.
Qed.

(** ** Whole runs *)

Lemma adv_run goal script m chain e o : run script m chain e = Some o -> thread goal m ->
  0 <= chain <= max_tool_chain_length (cfg e) ->
  exists tr, adv e (outcome_exec o) tr /\ (forall rq, Asked rq ∈ tr -> thread goal (lr_messages rq)) /\
    occurrences is_call tr <= max_tool_chain_length (cfg e) - chain.
Proof.
  revert m chain e. induction script as [|t script IH]; intros m chain e; cbn [run].
  { intros [= <-] _ Hc. exists []. split; [apply adv_refl|]. split; [by intros rq ?%elem_of_nil|].
    unfold occurrences. cbn. lia. }
  destruct (turn_step t m chain e) as [st|] eqn:E; [|done]. cbn [mbind option_bind].
  apply adv_turn in E as (tr & A & K & S). intros Ho Hm Hc.
  assert (forall rq, Asked rq ∈ tr -> thread goal (lr_messages rq)) as Hk by (by intros rq Hin; rewrite (K rq Hin)).
  destruct st as [r e1|m' chain' e1|e1]; cbn [step_exec step_kind] in *.
  - injection Ho as <-. exists tr. split; [done|]. split; [done|lia].
  - destruct (goes_on_chain _ _ _ _ _ _ S) as [H1' H2']; [lia|].
    destruct (IH m' chain' e1 Ho) as (tr' & A' & K' & O').
    { by eapply goes_on_thread. } { rewrite (a_cfg _ _ _ A). lia. }
    exists (tr ++ tr'). split; [by eapply adv_trans|]. rewrite (a_cfg _ _ _ A) in O'. split.
    + intros rq [?|?]%elem_of_app; auto.
    + rewrite occurrences_app. lia.
  - injection Ho as <-. exists tr. split; [done|]. split; [done|lia].
Qed.

Lemma with_client_adv script goal e o : run_with_client script goal e = Some o -> 0 <= max_tool_chain_length (cfg e) ->
  exists tr, adv e (outcome_exec o) tr /\ (forall rq, Asked rq ∈ tr -> thread goal (lr_messages rq)) /\
    occurrences is_call tr <= max_tool_chain_length (cfg e).
Proof.
  unfold run_with_client. intros Hr Hm. destruct (adv_run goal _ _ _ _ _ Hr) as (tr & A & K & O).
  { constructor. } { done. }
  exists tr. destruct A as [A B D F G]. split; [by split|]. split; [done|]. cbn in O. lia.
Qed.

(** C2: Everything a run of the turn loop dispatches passed the gate: the token in force when a tool was
    called granted it (or grants nothing at all, or the tool is always present), no tool is called more often
    than its budget allows, and the run makes no more calls than the tool-chain limit. *)
Theorem dispatch_gated script goal e o (Hrun : run_with_client script goal e = Some o)
    (Hmax : 0 <= max_tool_chain_length (cfg e)) (Hb : map_Forall (fun _ n => 0 <= n) (budgets e)) :
  exists tr, trace (outcome_exec o) = trace e ++ tr /\ token (outcome_exec o) = token_after (token e) tr /\
    (forall before c after, tr = before ++ Dispatched c :: after -> permitted (token_after (token e) before) (Ipc.name c)) /\
    (forall tool n, budgets e !! tool = Some n -> occurrences (is_call_of tool) tr <= n) /\
    occurrences is_call tr <= max_tool_chain_length (cfg e).
Proof.
  destruct (with_client_adv _ _ _ _ Hrun Hmax) as (tr & A & _ & O). exists tr.
  split; [by apply A|]. split; [by apply A|]. split; [|split; [|done]].
  - intros before c after ->. destruct A as [_ _ _ G _]. by apply gated_app in G as [_ [G _]].
  - intros tool n Hn. destruct (a_spends _ _ _ A Hb) as [Hb' Hs]. destruct (Hs tool n Hn) as (n' & Hn' & Hle).
    pose proof (map_Forall_lookup_1 _ _ _ _ Hb' Hn') as Hpos. cbn in Hpos. lia.
Qed.


(** ** Termination *)

(** An iteration whose request is answered, with at least one call where the model asks for tools. *)
Definition useful (t : Turn) : Prop := exists a, llm t = Answered a /\ forall turn e,
  match (run_turn_streaming turn e a).2 with
  | Ok r => rsp_stop_reason r = ToolUse -> tool_uses (rsp_content r) <> []
  | Err (Cancelled _) => False
  | Err _ => True
  end.

Lemma useful_step (t : Turn) m chain e m' chain' e' : useful t -> turn_step t m chain e = Some (Continue m' chain' e') ->
  chain < chain'.
Proof.
  intros (a & Ha & Hu). unfold turn_step. destruct (maybe_renew_token _ _ _ _ _) as [e1|]; [|done]. cbn [mbind option_bind].
  assert (forall e2 system, ask t m chain e2 system = Some (Continue m' chain' e') -> chain < chain') as Hask.
  { intros e2 system. unfold ask. rewrite Ha. cbv zeta.
    match goal with |- context [run_turn_streaming ?u ?x a] => specialize (Hu u x); destruct (run_turn_streaming u x a) as [e3 [r|x3]] end;
      cbn [snd] in Hu.
    - intros (tr & _ & _ & _ & Hc)%adv_handle_answer. destruct (Hc _ _ _ eq_refl) as [Hs ->]. specialize (Hu Hs).
      destruct (tool_uses (rsp_content r)); [done|]. cbn. lia.
    - by destruct x3. }
  destruct (is_expired _ _); [done|]. destruct (drain _ _ _) as [[dead e2]|]; [|done]. cbn [mbind option_bind].
  destruct dead; [done|]. destruct (paused _); [|apply Hask].
  destruct (pause_wait _ _ _) as [[[[[]|x]|] e3]|]; cbn [mbind option_bind]; try done. apply Hask.
Qed.

Lemma run_ends script sub m chain e : sub `sublist_of` script -> Forall useful sub ->
  chain <= max_tool_chain_length (cfg e) -> max_tool_chain_length (cfg e) - chain < Z.of_nat (length sub) ->
  forall e', run script m chain e <> Some (Running e').
Proof.
  revert sub m chain e. induction script as [|t script IH]; intros sub m chain e Hsub Hu Hc Hn e'; cbn [run].
  { apply sublist_nil_r in Hsub as ->. cbn in Hn. lia. }
  destruct (turn_step t m chain e) as [st|] eqn:E; [|done]. cbn [mbind option_bind].
  pose proof (adv_turn _ _ _ _ _ E) as (tr & A & _ & S).
  destruct st as [r e1|m' chain' e1|e1]; [done| |done]. cbn [step_exec step_kind] in *.
  destruct (goes_on_chain _ _ _ _ _ _ S Hc) as [H1' _]. pose proof (a_cfg _ _ _ A) as Hcfg.
  apply sublist_cons_r in Hsub as [Hsub|(sub' & -> & Hsub)].
  - apply (IH sub); [done|done|rewrite Hcfg; lia|rewrite Hcfg; lia].
  - inversion Hu as [|? ? Hu1 Hu2]; subst. pose proof (useful_step _ _ _ _ _ _ _ Hu1 E) as Hlt. cbn [length] in Hn.
    apply (IH sub'); [done|done|rewrite Hcfg; lia|rewrite Hcfg; lia].
Qed.

(** C6: The turn loop ends: once more requests were answered than the tool-chain limit allows calls (the model
    naming at least one tool whenever it stops to use tools), the loop is no longer running, however many
    requests were interrupted by signals in between.  It has returned, it waits for SIGRESUME, or it
    panicked. *)
Theorem turn_loop_terminates script sub goal e (Hsub : sub `sublist_of` script) (Huseful : Forall useful sub)
    (Hmax : 0 <= max_tool_chain_length (cfg e)) (Hlen : max_tool_chain_length (cfg e) < Z.of_nat (length sub)) :
  (exists r e', run_with_client script goal e = Some (Finished r e')) \/
  (exists e', run_with_client script goal e = Some (Blocked e')) \/ run_with_client script goal e = None.
Proof.
  pose proof (run_ends script sub [message "user" (JStr goal)] 0
    (push_history e (from_role_content Role.User goal)) Hsub Huseful) as Hr.
  unfold run_with_client in *. destruct (run _ _ _ _) as [[r e'|e'|e']|]; [left; eauto|right; left; eauto| |by do 2 right].
  exfalso. eapply Hr; [done| |done]. cbn. lia.
Qed.

(** ** What a stream publishes *)

(** The text of a stream. *)
Fixpoint stream_text (evs : list StreamEv) : string :=
  match evs with
  | [] => EmptyString
  | SChunk (TextDelta t) :: rest => (t +:+ stream_text rest)%string
  | _ :: rest => stream_text rest
  end.
(** Chunk events with consecutive numbers from [n]. *)
Fixpoint chunks (turn : string) (n : Z) (ds : list string) : list Effect :=
  match ds with [] => [] | d :: rest => OutputChunk turn d n false :: chunks turn (n + 1) rest end.

Lemma chunks_app turn n ds ds' : chunks turn n (ds ++ ds') = chunks turn n ds ++ chunks turn (n + Z.of_nat (length ds)) ds'.
Proof.
  revert n. induction ds as [|d ds IH]; intros n; cbn [chunks app length]; [by rewrite Z.add_0_r|].
  rewrite IH. do 3 f_equal. lia.
Qed.
Lemma str_join_cons x l : str_join EmptyString (x :: l) = (x +:+ str_join EmptyString l)%string.
Proof. destruct l as [|y l]; [cbn; by rewrite str_app_nil_r|done]. Qed.
Lemma str_join_app l l' : str_join EmptyString (l ++ l') = (str_join EmptyString l +:+ str_join EmptyString l')%string.
Proof. induction l as [|x l IH]; [done|]. cbn [app]. by rewrite !str_join_cons, IH, str_app_assoc. Qed.

Record streamed (turn : string) e (a : Acc) e' (a' : Acc) (text : string) (ds : list string) : Prop := {
  s_cfg : cfg e' = cfg e;
  s_trace : trace e' = trace e ++ chunks turn (seq a) ds;
  s_seq : seq a' = seq a + Z.of_nat (length ds);
  s_all : accumulated_text a' = (accumulated_text a +:+ text)%string;
  s_pending : (pending_text a +:+ text)%string = (str_join EmptyString ds +:+ pending_text a')%string;
  s_nonempty : Forall (fun d => d <> EmptyString) ds
}.
Lemma streamed_none turn e a e' a' : cfg e' = cfg e -> trace e' = trace e -> seq a' = seq a ->
  accumulated_text a' = accumulated_text a -> pending_text a' = pending_text a -> streamed turn e a e' a' EmptyString [].
Proof.
  intros ? Ht ? Hacc Hp. split; [done|by rewrite Ht, app_nil_r|cbn; lia| | |done].
  - by rewrite Hacc, str_app_nil_r.
  - by rewrite Hp, str_app_nil_r.
Qed.
Lemma streamed_trans turn e1 a1 e2 a2 e3 a3 t1 t2 d1 d2 : streamed turn e1 a1 e2 a2 t1 d1 -> streamed turn e2 a2 e3 a3 t2 d2 ->
  streamed turn e1 a1 e3 a3 (t1 +:+ t2) (d1 ++ d2).
Proof.
  intros [A1 B1 D1 F1 G1 K1] [A2 B2 D2 F2 G2 K2]. split.
  - congruence.
  - by rewrite B2, B1, chunks_app, <- D1, app_assoc.
  - rewrite D2, D1, length_app. lia.
  - by rewrite F2, F1, str_app_assoc.
  - by rewrite <- str_app_assoc, G1, str_app_assoc, G2, str_join_app, str_app_assoc.
  - by apply Forall_app.
Qed.
Lemma streamed_flush turn e a : has_event_bus (cfg e) = true ->
  exists ds, streamed turn e a (flush_pending turn e a).1 (flush_pending turn e a).2 EmptyString ds /\
    pending_text (flush_pending turn e a).2 = EmptyString.
Proof.
  intros Hb. unfold flush_pending, chunk. rewrite Hb. destruct (String.eqb_spec (pending_text a) EmptyString) as [Hp|Hp].
  - exists []. split; [by apply streamed_none|done].
  - exists [pending_text a]. split; [|done]. split; [done|done|done| | |by repeat constructor].
    + cbn. by rewrite str_app_nil_r.
    + cbn. by rewrite !str_app_nil_r.
Qed.
Lemma streamed_chunk turn e a (c : StreamChunk) : has_event_bus (cfg e) = true -> (String.length (pending_text a) < CHUNK_FLUSH_BYTES)%nat ->
  exists ds, streamed turn e a (stream_chunk turn e a c).1 (stream_chunk turn e a c).2
      (match c with TextDelta t => t | _ => EmptyString end) ds /\
    (String.length (pending_text (stream_chunk turn e a c).2) < CHUNK_FLUSH_BYTES)%nat.
Proof.
  intros Hb Hlen. destruct c as [t|id n|id d|id|sr i o]; cbn [stream_chunk]; try (exists []; split; [by apply streamed_none|done]).
  - set (a1 := acc_texts _ _ _ _). assert (streamed turn e a e a1 t []) as Ha.
    { split; [done|by rewrite app_nil_r|cbn; lia|done|done|done]. }
    destruct (Nat.leb_spec CHUNK_FLUSH_BYTES (String.length (pending_text a1))) as [Hge|Hlt].
    + destruct (streamed_flush turn e a1 Hb) as (ds & Hs & Hp). exists ds. rewrite Hp. split; [|unfold CHUNK_FLUSH_BYTES; cbn; lia].
      pose proof (streamed_trans _ _ _ _ _ _ _ _ _ _ _ Ha Hs) as Hs'. by rewrite str_app_nil_r in Hs'.
    + by exists [].
  - destruct (streamed_flush turn e a Hb) as (ds & Hs & Hp). destruct (flush_pending turn e a) as [e1 a1]. cbn [fst snd] in *.
    exists ds. split; [|cbn [acc_calls pending_text]; rewrite Hp; unfold CHUNK_FLUSH_BYTES; cbn; lia].
    destruct Hs as [A B D F G K]. by split.
Qed.
Lemma streamed_events turn evs e a e' a' : has_event_bus (cfg e) = true ->
  (String.length (pending_text a) < CHUNK_FLUSH_BYTES)%nat -> stream_events turn e a evs = (e', Ok a') ->
  exists ds, streamed turn e a e' a' (stream_text evs) ds /\ (String.length (pending_text a') < CHUNK_FLUSH_BYTES)%nat.
Proof.
  revert e a. induction evs as [|v evs IH]; intros e a Hb Hlen; cbn [stream_events].
  { intros [= <- <-]. exists []. split; [by apply streamed_none|done]. }
  destruct v as [c| |x|]; [| |done|done].
  - destruct (streamed_chunk turn e a c Hb Hlen) as (ds & Hs & Hlen').
    destruct (stream_chunk turn e a c) as [e1 a1]. cbn [fst snd] in *. intros Hrest.
    destruct (IH e1 a1) as (ds' & Hs' & Hl); [by rewrite (s_cfg _ _ _ _ _ _ _ Hs)|done|done|].
    exists (ds ++ ds'). split; [|done]. pose proof (streamed_trans _ _ _ _ _ _ _ _ _ _ _ Hs Hs') as Ht. by destruct c.
  - destruct (streamed_flush turn e a Hb) as (ds & Hs & Hp).
    destruct (flush_pending turn e a) as [e1 a1]. cbn [fst snd] in *. intros Hrest.
    destruct (IH e1 a1) as (ds' & Hs' & Hl); [by rewrite (s_cfg _ _ _ _ _ _ _ Hs)|rewrite Hp; unfold CHUNK_FLUSH_BYTES; cbn; lia|done|].
    exists (ds ++ ds'). split; [|done]. exact (streamed_trans _ _ _ _ _ _ _ _ _ _ _ Hs Hs').
Qed.

Lemma answer_text_response a : answer_text (rsp_content (response_of a)) = accumulated_text a.
Proof.
  unfold answer_text, response_of. cbn [rsp_content]. rewrite omap_app.
  assert (omap (fun b : json => Json.as_str (jindex b "text")) (tool_use_block <$> hash_iter _ (pending_calls a)) = []) as ->.
  { induction (hash_iter _ (pending_calls a)) as [|p l IH]; [done|exact IH]. }
  rewrite app_nil_r. destruct (String.eqb_spec (accumulated_text a) EmptyString) as [->|]; [done|]. done.
Qed.

(** Streaming neither loses nor invents text.  While a stream runs, the chunk events on the bus are numbered
    0, 1, 2, ... without a gap, none is empty, and their texts in order are the text received so far but for
    fewer than 80 bytes.  When the stream ends, the chunks are exactly its text, one empty chunk marked final
    with the next number follows them, and the text of the answer handed to the loop is the same. *)
Theorem stream_integrity turn e evs e' a (Hbus : has_event_bus (cfg e) = true)
    (Hev : stream_events turn e acc_new evs = (e', Ok a)) :
  (exists ds, trace e' = trace e ++ chunks turn 0 ds /\ Forall (fun d => d <> EmptyString) ds /\
     stream_text evs = (str_join EmptyString ds +:+ pending_text a)%string /\
     (String.length (pending_text a) < 80)%nat) /\
  exists ds e'' r, run_turn_streaming turn e (Stream evs) = (e'', Ok r) /\
    trace e'' = trace e ++ chunks turn 0 ds ++ [OutputChunk turn EmptyString (Z.of_nat (length ds)) true] /\
    Forall (fun d => d <> EmptyString) ds /\ str_join EmptyString ds = stream_text evs /\
    answer_text (rsp_content r) = stream_text evs.
Proof.
  destruct (streamed_events turn evs e acc_new e' a Hbus) as (ds & Hs & Hl); [unfold CHUNK_FLUSH_BYTES; cbn; lia|done|].
  pose proof Hs as [A B D F G K]. split.
  { exists ds. by split_and!. }
  assert (has_event_bus (cfg e') = true) as Hbus' by (by rewrite A).
  destruct (streamed_flush turn e' a Hbus') as (ds' & Hs' & Hp).
  pose proof (streamed_trans _ _ _ _ _ _ _ _ _ _ _ Hs Hs') as [A2 B2 D2 F2 G2 K2]. rewrite str_app_nil_r in *.
  cbn [run_turn_streaming]. rewrite Hev. destruct (flush_pending turn e' a) as [e2 a2]. cbn [fst snd] in *.
  exists (ds ++ ds'), (chunk e2 turn EmptyString (seq a2) true), (response_of a2). split; [done|].
  rewrite answer_text_response, F2. cbn in G2. rewrite Hp, str_app_nil_r in G2.
  split; [|by split_and!]. unfold chunk. rewrite A2, Hbus. cbn [emit trace]. rewrite B2, D2. cbn. by rewrite <- app_assoc.
Qed.

(** ** SIGKILL and SIGSTOP *)

Definition kills (s : Signal) : Prop := Signals.kind s = Kill \/ Signals.kind s = Stop.
Lemma between_kills now e s e' : kills s -> handle_signal_between_turns status_to_yaml now e s = Some e' -> killed (flags e') = true.
Proof. unfold handle_signal_between_turns. intros [-> | ->] [_ Hk]%quiet_on_kill; done. Qed.
Lemma during_kills now e s e' : kills s -> handle_signal_during_llm sha256_hex minute status_to_yaml now e s = Some e' ->
  killed (flags e') = true.
Proof. unfold handle_signal_during_llm. intros [-> | ->] [_ Hk]%quiet_on_kill; done. Qed.
Lemma drain_kills now sigs e b e' : Exists kills sigs -> drain now e sigs = Some (b, e') -> b = true.
Proof.
  intros Hx. revert e. induction Hx as [s sigs Hs|s sigs _ IH]; intros e; cbn [drain];
    (destruct (handle_signal_between_turns _ _ _ _) as [e1|] eqn:E; [|done]); cbn [mbind option_bind].
  - rewrite (between_kills _ _ _ _ Hs E). by intros [= <- _].
  - destruct (killed _); [by intros [= <- _]|]. apply IH.
Qed.

(** A SIGKILL or SIGSTOP ends the turn.  If one waits in the channel when an iteration starts, the iteration
    returns an error and the model is not asked; if one arrives during a request, the iteration does not go on
    to another request and does not return an answer. *)
Theorem kill_stops_turn (t : Turn) m chain e st (Hst : turn_step t m chain e = Some st) :
  (Exists kills (drained t) -> exists x tr, st = Return (Err x) (step_exec st) /\
     trace (step_exec st) = trace e ++ tr /\ Forall no_ask tr) /\
  (forall evs s, llm t = Interrupted evs s -> kills s ->
     st = Block (step_exec st) \/ exists x, st = Return (Err x) (step_exec st)).
Proof.
  revert Hst. unfold turn_step. destruct (maybe_renew_token _ _ _ _ _) as [e1|] eqn:E1; [|done]. cbn [mbind option_bind].
  apply adv_renew in E1 as (t1 & [_ Ht1 _ _ _] & S1). change (trace (refresh_tool_list _ e)) with (trace e) in Ht1.
  assert (forall e2 system evs s, llm t = Interrupted evs s -> kills s -> ask t m chain e2 system = Some st ->
    st = Block (step_exec st) \/ exists x, st = Return (Err x) (step_exec st)) as Hask.
  { intros e2 system evs s Hl Hk. unfold ask. rewrite Hl. cbv zeta.
    destruct (handle_signal_during_llm _ _ _ _ _ _) as [e3|] eqn:E3; [|done]. cbn [mbind option_bind].
    rewrite (during_kills _ _ _ _ Hk E3). intros [= <-]. right. by eexists. }
  destruct (is_expired _ _).
  { intros [= <-]. split; [intros _; eexists _, t1; eauto|]. right. by eexists. }
  destruct (drain _ _ _) as [[dead e2]|] eqn:E2; [|done]. cbn [mbind option_bind]. pose proof (quiet_drain _ _ _ _ _ E2) as Hq.
  destruct dead.
  { intros [= <-]. destruct (q_trace _ _ Hq) as (t2 & Ht2 & S2). split; [intros _|intros; right; by eexists].
    eexists _, (t1 ++ t2). split; [done|]. cbn [step_exec]. rewrite Ht2, Ht1, app_assoc. split; [done|].
    apply Forall_app. auto. }
  intros Hst. split; [intros Hx; pose proof (drain_kills _ _ _ _ _ Hx E2) as Hd; discriminate Hd|].
  intros evs s Hl Hk. revert Hst. destruct (paused _); [|by eapply Hask].
  destruct (pause_wait _ _ _) as [[[[[]|x]|] e3]|]; cbn [mbind option_bind]; try done; [by eapply Hask| |];
    intros [= <-]; [right; by eexists|by left].
Qed.

End Turn.

(** ** A run of the loop *)

Module Toy.
Import Mem ToyUuid Invocations.Toy Proc.Toy Ipc.Demo.

#[export] Instance list_order : HashOrder := fun _ m => map_to_list m.
#[export] Instance no_yaml : SnapshotYaml :=
  {| snap_to_yaml _ := Err "unsupported"%string; snap_from_yaml _ := Err "unsupported"%string |}.

Abbreviation stores := (InvocationStore.t tables_t (gmap string string)).
Definition toy_config : Config := {|
  pid := 42; agent_name := "researcher"; spawned_by := "alice"; session_id := ""; atp_session_id := "";
  runtime_dir := "/run/avix"; max_tool_chain_length := 2; invocation_id := ""; snapshot_interval := None;
  spawned_at := 0; context_limit := 0; real_registry := true; has_kernel := false; resource_handler := None;
  has_hil_manager := false; has_signal_bus := false; has_vfs := false; has_event_bus := true; has_memory_svc := false |}.
Definition toy_token : CapabilityToken := test_token 0 ["fs/read"; "cap/list"]%string.
Definition toy_exec : Exec (SS := tables_t) (IS := stores) := {|
  cfg := toy_config; goal := "study"; token := toy_token; pending_messages := []; denied_tools := [];
  tools := with_budgets (manager_new ALWAYS_PRESENT) {["cap/list"%string := 1]};
  memory_context := None; conversation_history := [];
  flags := {| paused := false; killed := false; snapshot_requested := false; last_signal_received := None;
              pending_signal_count := 0 |};
  usage := {| context_used := 0; tokens_consumed := 0; tool_calls_total := 0; tool_calls_since_last_snapshot := 0 |};
  invocation_store := None; session_store := None; trace := [] |}.

Definition toy_host : Host pipe_end := {|
  at_ _ := 1; uuids n := pretty n; registry := empty_registry; auto_approve := false; kernel_registry := None;
  env_var _ := None; connect _ := Err "refused"%string; hil_open := Ok (); Dispatch.inbox := [] |}.
Definition use_block (id name : string) : json :=
  JObj [("type", JStr "tool_use"); ("id", JStr id); ("name", JStr name); ("input", JObj [])]%string.
Definition answer (stop : StopReason) (content : list json) : Answer :=
  Plain (Ok {| rsp_content := content; rsp_stop_reason := stop; rsp_input_tokens := 10; rsp_output_tokens := 5 |}).
Definition toy_turn (sigs : list Signal) (l : LlmStep) : Turn pipe_end := {|
  t_at _ := 1; t_uuids n := pretty n; t_registry := empty_registry; drained := sigs; while_paused := [];
  llm := l; call_hosts _ := toy_host |}.
Definition text_block (t : string) : json := JObj [("type", JStr "text"); ("text", JStr t)]%string.
Definition two_calls : Turn pipe_end :=
  toy_turn [] (Answered (answer ToolUse [use_block "a" "cap__list"; use_block "b" "fs__write"])).
Definition one_call : Turn pipe_end := toy_turn [] (Answered (answer ToolUse [use_block "c" "cap__list"])).
Definition final_answer : Turn pipe_end := toy_turn [] (Answered (answer EndTurn [text_block "done"])).

Definition no_text (_ : AgentStatusFile) : result string string := Err "unsupported"%string.
Definition toy_run (script : list (Turn pipe_end)) :=
  run_with_client (fun s => s) pretty no_text toy_mac true (fun _ => None) pretty JInt
    (fun _ => "json"%string) (fun _ => "yaml"%string) (fun _ => None) script "study" toy_exec.

Lemma toy_budgets : map_Forall (fun _ n => 0 <= n) (budgets toy_exec).
Proof.
  change (map_Forall (fun _ n => 0 <= n) ({["cap/list"%string := 1]} : gmap string Z)).
  apply map_Forall_singleton. lia.
Qed.

(** Of the two calls the second is refused. *)
Lemma dispatch_gated_witness : exists o, toy_run [two_calls; final_answer] = Some o /\
  exists tr, trace (outcome_exec o) = [] ++ tr /\ occurrences (is_call_of "cap/list") tr <= 1.
Proof.
  destruct (toy_run [two_calls; final_answer]) as [o|] eqn:E; [|vm_compute in E; discriminate E].
  exists o. split; [reflexivity|].
  destruct (dispatch_gated _ _ _ _ _ _ _ _ _ _ _ _ _ _ _ E) as (tr & Ht & _ & _ & Hb & _);
    [cbn; lia | apply toy_budgets |].
  exists tr. split; [exact Ht | exact (Hb "cap/list"%string 1 eq_refl)].
Defined.


Lemma one_call_useful : useful (SS := tables_t) (IS := stores) (fun _ => None) one_call.
Proof. exists (answer ToolUse [use_block "c" "cap__list"]). split; [done|]. intros turn e. cbn. done. Qed.
Lemma turn_loop_terminates_witness :
  (exists r e', toy_run [one_call; one_call; one_call] = Some (Finished r e')) \/
  (exists e', toy_run [one_call; one_call; one_call] = Some (Blocked e')) \/ toy_run [one_call; one_call; one_call] = None.
Proof.
  unfold toy_run. apply (turn_loop_terminates _ _ _ _ _ _ _ _ _ _ _ [one_call; one_call; one_call] [one_call; one_call; one_call]).
  - done.
  - repeat constructor; apply one_call_useful.
  - cbn; lia.
  - cbn; lia.
Defined.

Definition sigkill : Signal := {| Signals.target := 42; Signals.kind := Kill; payload := JNull |}.
Lemma kill_stops_turn_witness : exists st x,
  turn_step (fun s => s) pretty no_text toy_mac true (fun _ => None) pretty JInt (fun _ => "json"%string)
    (fun _ => "yaml"%string) (fun _ => None) (toy_turn [sigkill] (Answered (answer EndTurn []))) [] 0 toy_exec = Some st /\
  st = Return (Err x) (step_exec st).
Proof.
  destruct (turn_step (fun s => s) pretty no_text toy_mac true (fun _ => None) pretty JInt (fun _ => "json"%string)
    (fun _ => "yaml"%string) (fun _ => None) (toy_turn [sigkill] (Answered (answer EndTurn []))) [] 0 toy_exec) as [st|] eqn:E;
    [|vm_compute in E; discriminate E].
  destruct (kill_stops_turn _ _ _ _ _ _ _ _ _ _ _ _ _ _ _ _ E) as [Hk _].
  destruct Hk as (x & tr & Hx & _); [by left; left|]. exists st, x. split; [reflexivity|exact Hx].
Defined.

Definition toy_stream : list StreamEv := [SChunk (TextDelta "hel"); STick; SChunk (TextDelta "lo")].
Lemma stream_integrity_witness : exists ds e'' r,
  run_turn_streaming (fun _ => None) "t" toy_exec (Stream toy_stream) = (e'', Ok r) /\ str_join EmptyString ds = "hello"%string.
Proof.
  destruct (stream_events "t" toy_exec acc_new toy_stream) as [e' [a|x]] eqn:E; [|vm_compute in E; discriminate E].
  destruct (stream_integrity (fun _ => None) "t" toy_exec toy_stream e' a eq_refl E) as [_ (ds & e'' & r & Hr & _ & _ & Hj & _)].
  exists ds, e'', r. split; [exact Hr | exact Hj].
Defined.

End Toy.
