(* ===== verification/Streaming.v ===== *)
(** * A streamed answer, from the provider's bytes to the executor

    The composition of the parts a streamed answer passes: the line decoder ([Llm]), the reading of events and the
    repair of call ids in the provider's client ([Adapters], [LlmService]) and the executor's accumulator ([Turn]).
    The Messages API of Anthropic is written down as the events of an answer, which documents what the adapter
    relies on; any other event in between is ignored. *)

From S2P Require Import Prelude Types Text Store Sessions Invocations Snapshot Ipc ExecTools Llm Adapters LlmService Executor Turn Json.
Local Open Scope Z_scope.

(** What the text of a JSON value looks like: serde_json escapes control characters. *)
Class JsonStrLine `{!JsonStr} : Prop := {
  json_no_newline j : str_contains_char "010" (json_str j) = false;
  json_no_return j : str_contains_char "013" (json_str j) = false;
  json_not_empty j : json_str j <> EmptyString;
  json_not_done j : json_str j <> "[DONE]"%string }.

(** ** Events as text *)

Definition nl : string := String "010" EmptyString.
Definition event_text `{!JsonStr} (ev : string * json) : string :=
  ("event: " +:+ ev.1 +:+ nl +:+ "data: " +:+ json_str ev.2 +:+ nl +:+ nl)%string.
Definition events_text `{!JsonStr} (evs : list (string * json)) : string := str_concat (event_text <$> evs).
Definition plain (s : string) : Prop := str_contains_char "010" s = false /\ str_contains_char "013" s = false.

Lemma trim_absent c s : str_contains_char c s = false -> trim_end_matches c s = s.
Proof.
  induction s as [|d s IH]; cbn; [done|]. intros [Hc%bool_decide_eq_false Hs]%orb_false_iff. rewrite IH by done.
  destruct s; [by rewrite decide_False|done].
Qed.
Lemma absent_app c a b : str_contains_char c (a +:+ b) = str_contains_char c a || str_contains_char c b.
Proof. induction a as [|d a IH]; cbn; [done|]. by rewrite IH, orb_assoc. Qed.
Section Events.
Context `{!JsonStr, !JsonStrLaws, !JsonStrLine}.

Lemma parse_event_line n : plain n -> sse_of ("event: " +:+ n) = Some (SseEvent n).
Proof.
  intros [_ Hr]. unfold sse_of, parse_line.
  assert (trim_end_matches "013" ("event: " +:+ n) = ("event: " +:+ n)%string) as T by (apply trim_absent; rewrite absent_app; exact Hr).
  rewrite !T.
  assert (starts_with ":" ("event: " +:+ n) = false) as -> by done.
  change (strip_prefix "data: " ("event: " +:+ n)) with (@None string). by rewrite strip_prefix_app.
Qed.
Lemma parse_data_line j : sse_of ("data: " +:+ json_str j) = Some (SseData (json_str j)).
Proof.
  unfold sse_of, parse_line. pose proof (json_no_return j) as Hr.
  assert (trim_end_matches "013" ("data: " +:+ json_str j) = ("data: " +:+ json_str j)%string) as T by (apply trim_absent; rewrite absent_app; exact Hr).
  rewrite !T.
  rewrite strip_prefix_app. cbn [String.append String.eqb Ascii.eqb orb].
  pose proof (json_not_done j). pose proof (json_not_empty j).
  rewrite (proj2 (String.eqb_neq (json_str j) "[DONE]")), (proj2 (String.eqb_neq (json_str j) "")) by done. done.
Qed.

Lemma lines_of_event ev rest : plain ev.1 ->
  lines_of EmptyString (event_text ev +:+ rest) =
  (("event: " +:+ ev.1)%string :: ("data: " +:+ json_str ev.2)%string :: EmptyString :: (lines_of EmptyString rest).1, (lines_of EmptyString rest).2).
Proof.
  intros [Hn _]. unfold event_text. rewrite !str_app_assoc.
  assert (forall l r, str_contains_char "010" l = false ->
    lines_of EmptyString (l +:+ nl +:+ r) = (l :: (lines_of EmptyString r).1, (lines_of EmptyString r).2)) as L.
  { intros l r Hl. rewrite lines_of_app, (lines_of_line l Hl). cbn [fst snd app]. unfold nl. cbn. rewrite decide_True by done.
    by destruct (lines_of EmptyString r). }
  rewrite <-(str_app_assoc "event: "). rewrite L by (rewrite absent_app; exact Hn).
  rewrite <-(str_app_assoc "data: "). rewrite L by (rewrite absent_app; apply json_no_newline).
  change (nl +:+ rest)%string with (EmptyString +:+ nl +:+ rest)%string. by rewrite L.
Qed.

(** The decoder reads an event as its two lines. *)
Lemma lines_of_events evs : Forall (fun ev => plain ev.1) evs ->
  omap sse_of (lines_of EmptyString (events_text evs)).1 = evs ≫= (fun ev => [SseEvent ev.1; SseData (json_str ev.2)]).
Proof.
  induction 1 as [|ev evs Hp F IH]; [done|]. change (events_text (ev :: evs)) with (event_text ev +:+ events_text evs)%string.
  rewrite lines_of_event by done. cbn [fst omap list_omap]. rewrite parse_event_line, parse_data_line by done.
  change (sse_of EmptyString) with (@None SseLine). cbn [mbind list_bind app]. by rewrite <-IH.
Qed.

(** ** Reading an event that arrived *)

Lemma jeq_index j j' k : jeq j' j -> jeq (jindex j' k) (jindex j k).
Proof.
  unfold jindex, jget. destruct 1 as [| | | | |l l' Hl|l l' Hl]; try constructor. specialize (Hl k).
  destruct Hl; cbn; [done|constructor].
Qed.
Lemma jeq_leaf j j' : jeq j' j -> as_str j' = as_str j /\ as_u64 j' = as_u64 j.
Proof. by destruct 1. Qed.
Lemma on_event_jeq n v v' : jeq v' v -> anthropic_on_event n v' = anthropic_on_event n v.
Proof.
  intros J. unfold anthropic_on_event, str_or, u32_of.
  rewrite !(proj1 (jeq_leaf _ _ (jeq_index _ _ _ (jeq_index _ _ _ J)))), !(proj2 (jeq_leaf _ _ (jeq_index _ _ _ (jeq_index _ _ _ J)))).
  by rewrite (proj2 (jeq_leaf _ _ (jeq_index _ _ _ J))).
Qed.
Lemma note_anthropic_jeq v v' id m : jeq v' v -> note_anthropic v' id m = note_anthropic v id m.
Proof.
  intros J. unfold note_anthropic.
  rewrite !(proj1 (jeq_leaf _ _ (jeq_index _ _ _ (jeq_index _ _ _ J)))). by rewrite (proj2 (jeq_leaf _ _ (jeq_index _ _ _ J))).
Qed.
Lemma note_openai_absent v id m : jindex v "choices" = JNull -> note_openai v id m = m.
Proof. intros E. unfold note_openai. by rewrite E. Qed.

(** ** The provider's client *)

(** What an event yields, given the ids of the calls by index. *)
Definition event_chunk (m : gmap string string) (ev : string * json) : gmap string string * option StreamChunk :=
  match anthropic_on_event ev.1 ev.2 with
  | None => (m, None)
  | Some (ToolCallStart id n) => (note_anthropic ev.2 id m, Some (ToolCallStart id n))
  | Some (ToolCallArgsDelta i a) => (m, Some (match m !! i with Some real => ToolCallArgsDelta real a | None => ToolCallArgsDelta i a end))
  | Some c => (m, Some c)
  end.
Fixpoint events_chunks (m : gmap string string) (evs : list (string * json)) : list StreamChunk :=
  match evs with
  | [] => []
  | ev :: evs => let '(m, o) := event_chunk m ev in option_list o ++ events_chunks m evs
  end.
(** An event the provider may send: its value is JSON of the wire, and no event of the other provider's form. *)
Definition anthropic_event (ev : string * json) : Prop :=
  plain ev.1 /\ wire_ok MAX_DEPTH ev.2 = true /\ jindex ev.2 "choices" = JNull.

Lemma scan_event (checks : bool) m ev rest : anthropic_event ev ->
  scan_lines (text_adapter (anthropic checks)) (None, m) (Ok (SseEvent ev.1) :: Ok (SseData (json_str ev.2)) :: rest) =
  (Ok <$> option_list (event_chunk m ev).2) ++ scan_lines (text_adapter (anthropic checks)) (None, (event_chunk m ev).1) rest.
Proof.
  intros (_ & W & Hc). destruct (json_str_parse ev.2 W) as (v & Ev & J). cbn [scan_lines scan_line fst snd option_list app].
  cbn [text_adapter anthropic parse_stream_event]. unfold anthropic_parse_stream_event. rewrite Ev.
  cbn [map_err mbind result_bind option_bind]. rewrite (on_event_jeq _ _ _ J). unfold event_chunk.
  destruct (anthropic_on_event ev.1 ev.2) as [[t|id n|i a|i|r i o]|]; cbn [fix_up fst snd option_list fmap list_fmap app]; try done.
  rewrite Ev, (note_anthropic_jeq _ _ _ _ J), note_openai_absent; [done|]. pose proof (jeq_index _ _ "choices" J) as Jc. rewrite Hc in Jc. by inversion Jc.
Qed.
Lemma scan_events (checks : bool) : forall evs m, Forall anthropic_event evs ->
  scan_lines (text_adapter (anthropic checks)) (None, m) (Ok <$> (evs ≫= (fun ev => [SseEvent ev.1; SseData (json_str ev.2)]))) =
  Ok <$> events_chunks m evs.
Proof.
  induction evs as [|ev evs IH]; intros m F; [done|]. apply Forall_cons in F as [He F].
  cbn [mbind list_bind app fmap list_fmap events_chunks]. pose proof (scan_event checks m ev) as S.
  change (list_fmap (result string SseLine) _ ?f ?l) with (f <$> l). rewrite S by done.
  destruct (event_chunk m ev) as [m' o]. cbn [fst snd]. rewrite fmap_app. f_equal. by apply IH.
Qed.
End Events.

(** ** The events of an answer *)

(** A block of the answer: text, or a call with its arguments, in the parts they are sent. *)
Inductive Block : Type := BText (parts : list string) | BCall (id n : string) (parts : list string).
Definition block_start (b : Block) : json :=
  match b with
  | BText _ => JObj [("type", JStr "text"); ("text", JStr "")]
  | BCall id n _ => JObj [("type", JStr "tool_use"); ("id", JStr id); ("name", JStr (ToolName.mangled n)); ("input", JObj [])]
  end%string.
Definition block_delta (b : Block) (part : string) : json :=
  match b with
  | BText _ => JObj [("type", JStr "text_delta"); ("text", JStr part)]
  | BCall _ _ _ => JObj [("type", JStr "input_json_delta"); ("partial_json", JStr part)]
  end%string.
Definition parts_of (b : Block) : list string := match b with BText ps | BCall _ _ ps => ps end.
Definition typed (t : string) (l : list (string * json)) : string * json := (t, JObj (("type", JStr t)%string :: l)).
Definition block_events (i : nat) (b : Block) : list (string * json) :=
  let index := ("index", JInt (Z.of_nat i))%string in
  typed "content_block_start" [index; ("content_block", block_start b)]%string ::
  ((fun p => typed "content_block_delta" [index; ("delta", block_delta b p)]%string) <$> parts_of b) ++
  [typed "content_block_stop" [index]].
Fixpoint blocks_events (i : nat) (bs : list Block) : list (string * json) :=
  match bs with [] => [] | b :: bs => block_events i b ++ blocks_events (S i) bs end.
Definition end_event (stop : StopReason) (input output : Z) : string * json :=
  typed "message_delta" [("delta", JObj [("stop_reason", JStr (stop_reason_str stop))]);
                         ("usage", JObj [("input_tokens", JInt input); ("output_tokens", JInt output)])]%string.

(** The chunks the executor should get for it. *)
Definition block_chunks (i : nat) (b : Block) : list StreamChunk :=
  let parts := base.filter (fun p => p <> EmptyString) (parts_of b) in
  match b with
  | BText _ => TextDelta <$> parts
  | BCall id n _ => ToolCallStart id n :: (ToolCallArgsDelta id <$> parts)
  end ++ [ToolCallComplete (pretty (Z.of_nat i))].

Definition valid_block (b : Block) : Prop :=
  match b with BText _ => True | BCall _ n _ => ToolName.parse n = Ok n /\ Mangle.ambiguous n = false end.
Fixpoint blocks_chunks (i : nat) (bs : list Block) : list StreamChunk :=
  match bs with [] => [] | b :: bs => block_chunks i b ++ blocks_chunks (S i) bs end.
(** Events the adapter passes over, such as [message_start], [ping] and [message_stop]. *)
Definition ignored (ev : string * json) : Prop :=
  anthropic_event ev /\ ev.1 ∉ ["content_block_start"; "content_block_delta"; "content_block_stop"; "message_delta"]%string.

Section Blocks.
Implicit Types (bs : list Block) (b : Block) (m : gmap string string).

Lemma unmangled_name n : ToolName.parse n = Ok n -> Mangle.ambiguous n = false -> unmangled_or_replaced (ToolName.mangled n) = n.
Proof. intros P A. unfold unmangled_or_replaced. by rewrite (proj2 (ToolName.wire_roundtrip n n P) A). Qed.

Lemma index_u64 (i : nat) : Z.of_nat i <= u64_max -> as_u64 (JInt (Z.of_nat i)) = Some (Z.of_nat i).
Proof. intros Hi. cbn. rewrite decide_True; [done|]. unfold is_u64. lia. Qed.

Definition learn m (i : nat) b : gmap string string :=
  match b with BCall id _ _ => <[pretty (Z.of_nat i) := id]> m | BText _ => m end.

Lemma start_chunk m i b : valid_block b -> Z.of_nat i <= u64_max ->
  event_chunk m (typed "content_block_start" [("index", JInt (Z.of_nat i)); ("content_block", block_start b)]%string) =
  (learn m i b, match b with BText _ => None | BCall id n _ => Some (ToolCallStart id n) end).
Proof.
  intros V Hi. unfold event_chunk, typed, anthropic_on_event. cbn [fst snd String.eqb Ascii.eqb Bool.eqb]. destruct b as [ps|id n ps].
  - by vm_compute.
  - unfold note_anthropic, learn. cbn [block_start]. read_keys. rewrite unmangled_name by apply V. unfold note_anthropic. read_keys.
    rewrite !bool_decide_eq_true_2 by done. by rewrite decide_True by (unfold is_u64; lia).
Qed.
Lemma delta_chunk m i b p : Z.of_nat i <= u64_max ->
  event_chunk (learn m i b) (typed "content_block_delta" [("index", JInt (Z.of_nat i)); ("delta", block_delta b p)]%string) =
  (learn m i b, if decide (p <> EmptyString) then
                  Some (match b with BText _ => TextDelta p | BCall id _ _ => ToolCallArgsDelta id p end)
                else None).
Proof.
  intros Hi. unfold event_chunk, typed, anthropic_on_event. cbn [fst snd String.eqb Ascii.eqb Bool.eqb]. destruct b as [ps|id n ps]; cbn [block_delta].
  - read_keys. destruct (String.eqb_spec p ""); [by rewrite decide_False by naive_solver|by rewrite decide_True].
  - read_keys. destruct (String.eqb_spec p ""); [by rewrite decide_False by naive_solver|]. rewrite (decide_True (P := p <> EmptyString)) by done.
    rewrite decide_True by (unfold is_u64; lia). cbn. by rewrite lookup_insert_eq.
Qed.
Lemma stop_chunk m (i : nat) : Z.of_nat i <= u64_max ->
  event_chunk m (typed "content_block_stop" [("index", JInt (Z.of_nat i))]%string) = (m, Some (ToolCallComplete (pretty (Z.of_nat i)))).
Proof.
  intros Hi. unfold event_chunk, typed, anthropic_on_event. cbn [fst snd String.eqb Ascii.eqb Bool.eqb]. read_keys.
  by rewrite decide_True by (unfold is_u64; lia).
Qed.

Lemma block_events_chunks m i b rest : valid_block b -> Z.of_nat i <= u64_max ->
  events_chunks m (block_events i b ++ rest) = block_chunks i b ++ events_chunks (learn m i b) rest.
Proof.
  intros V Hi. unfold block_events. cbn [app events_chunks]. rewrite start_chunk by done. rewrite <-app_assoc.
  assert (forall ps, events_chunks (learn m i b) (((fun p => typed "content_block_delta" [("index", JInt (Z.of_nat i)); ("delta", block_delta b p)]%string) <$> ps)
            ++ [typed "content_block_stop" [("index", JInt (Z.of_nat i))]%string] ++ rest) =
    ((fun p => match b with BText _ => TextDelta p | BCall id _ _ => ToolCallArgsDelta id p end) <$> base.filter (fun p => p <> EmptyString) ps)
      ++ ToolCallComplete (pretty (Z.of_nat i)) :: events_chunks (learn m i b) rest) as D.
  { induction ps as [|p ps IH]; cbn [fmap list_fmap app events_chunks]; [by rewrite stop_chunk|].
    rewrite delta_chunk by done. rewrite filter_cons. cbn [fmap list_fmap app] in IH. rewrite IH. by case_decide. }
  rewrite D. unfold block_chunks. destruct b as [ps|id n ps]; cbn [option_list app parts_of]; by rewrite <-?app_assoc.
Qed.

Lemma events_of_blocks rest : forall bs i m, Forall valid_block bs -> Z.of_nat (i + length bs) <= u64_max ->
  exists m', events_chunks m (blocks_events i bs ++ rest) = blocks_chunks i bs ++ events_chunks m' rest.
Proof.
  induction bs as [|b bs IH]; intros i m F Hi; [by exists m|]. apply Forall_cons in F as [V F]. cbn [blocks_events blocks_chunks length] in *.
  rewrite <-!app_assoc, block_events_chunks by (done || lia). destruct (IH (S i) (learn m i b) F) as [m' E]; [lia|].
  exists m'. by rewrite E, <-app_assoc.
Qed.

Lemma ignored_chunk m ev : ignored ev -> event_chunk m ev = (m, None).
Proof.
  intros [_ Hn]. unfold event_chunk, anthropic_on_event.
  repeat match goal with |- context [String.eqb ?a ?b] => destruct (String.eqb_spec a b) as [E|_]; [rewrite E in Hn; set_solver|] end. done.
Qed.
Lemma ignored_events : forall evs m rest, Forall ignored evs -> events_chunks m (evs ++ rest) = events_chunks m rest.
Proof. induction evs as [|ev evs IH]; intros m rest F; [done|]. apply Forall_cons in F as [Hi F]. cbn. rewrite ignored_chunk by done. by apply IH. Qed.

Lemma end_chunk m stop i o : is_u32 i -> is_u32 o -> event_chunk m (end_event stop i o) = (m, Some (Done stop i o)).
Proof.
  intros Hi Ho. unfold event_chunk, end_event, typed, anthropic_on_event, u32_of. cbn [fst snd String.eqb Ascii.eqb Bool.eqb]. read_keys.
  rewrite !decide_True by (unfold is_u64, is_u32, u32_max, u64_max in *; lia). cbn. rewrite !as_u32_id by done. by destruct stop.
Qed.

(** All events of an answer. *)
Definition answer_events (pre post : list (string * json)) bs stop input output : list (string * json) :=
  pre ++ blocks_events 0 bs ++ end_event stop input output :: post.
Lemma answer_chunks pre post bs stop i o : Forall ignored pre -> Forall ignored post -> Forall valid_block bs ->
  Z.of_nat (length bs) <= u64_max -> is_u32 i -> is_u32 o ->
  events_chunks ∅ (answer_events pre post bs stop i o) = blocks_chunks 0 bs ++ [Done stop i o].
Proof.
  intros F1 F2 V L Hi Ho. unfold answer_events. rewrite ignored_events by done.
  destruct (events_of_blocks (end_event stop i o :: post) bs 0 ∅ V L) as [m' E]. rewrite E. f_equal. cbn [events_chunks].
  rewrite end_chunk by done. cbn [option_list app]. f_equal. rewrite <-(app_nil_r post). by apply (ignored_events post m' []).
Qed.
End Blocks.

Section Sendable.
Implicit Types (bs : list Block) (b : Block).

Lemma wire_ok_obj d l : NoDup l.*1 -> forallb (fun x => wire_ok d x.2) l = true -> wire_ok (S d) (JObj l) = true.
Proof. intros N W. cbn. rewrite W, bool_decide_eq_true_2 by done. done. Qed.
Lemma typed_event t l : plain t -> NoDup ("type"%string :: l.*1) -> forallb (fun x => wire_ok 126 x.2) l = true ->
  assoc_get "choices" l = None -> anthropic_event (typed t l).
Proof.
  intros Pt N W C. unfold anthropic_event, typed. cbn [fst snd]. split; [done|]. split.
  - apply (wire_ok_obj 126); [exact N|exact W].
  - unfold jindex, jget. cbn. eval_keys. by rewrite C.
Qed.
Ltac sendable :=
  apply typed_event; [done| by apply (bool_decide_unpack _); vm_compute | | by read_keys].
Lemma index_ok (i : nat) d : Z.of_nat i <= u64_max -> wire_ok d (JInt (Z.of_nat i)) = true.
Proof. intros Hi. destruct d; cbn; apply bool_decide_eq_true_2; lia. Qed.

Lemma block_events_ok i b : Z.of_nat i <= u64_max -> Forall anthropic_event (block_events i b).
Proof.
  intros Hi. unfold block_events. apply Forall_cons. split; [|apply Forall_app; split].
  - sendable. cbn [forallb snd]. rewrite index_ok by done. by destruct b; vm_compute.
  - apply Forall_fmap, Forall_forall. intros p _. cbn. sendable. cbn [forallb snd]. rewrite index_ok by done. by destruct b; vm_compute.
  - apply Forall_singleton. sendable. cbn [forallb snd]. by rewrite index_ok.
Qed.
Lemma blocks_events_ok : forall bs i, Z.of_nat (i + length bs) <= u64_max -> Forall anthropic_event (blocks_events i bs).
Proof.
  induction bs as [|b bs IH]; intros i Hi; [constructor|]. cbn [length blocks_events] in *. apply Forall_app. split; [apply block_events_ok; lia|]. apply IH. lia.
Qed.
Lemma end_event_ok stop i o : is_u32 i -> is_u32 o -> anthropic_event (end_event stop i o).
Proof.
  intros Hi Ho. unfold end_event. sendable. cbn [forallb snd wire_ok]. unfold is_u32, u32_max in *.
  rewrite !(bool_decide_eq_true_2 (_ <= _ <= _)) by (unfold u64_max; lia). by vm_compute.
Qed.
Lemma answer_events_ok pre post bs stop i o : Forall ignored pre -> Forall ignored post -> Z.of_nat (length bs) <= u64_max -> is_u32 i -> is_u32 o ->
  Forall anthropic_event (answer_events pre post bs stop i o).
Proof.
  intros F1 F2 L Hi Ho. unfold answer_events. assert (forall l, Forall ignored l -> Forall anthropic_event l) as I.
  { intros l F. eapply Forall_impl; [exact F|]. by intros ev []. }
  rewrite !Forall_app, Forall_cons. split_and!; [by apply I|by apply blocks_events_ok|by apply end_event_ok|by apply I].
Qed.
End Sendable.

(** ** The executor's accumulator *)

Section Accumulate.
Context {SS IS : Type} `{!SessionStoreI SS, !InvocationStoreI IS, !UuidText, !HashOrder, !SnapshotYaml}.

#[local] Notation Exec := (Exec (SS := SS) (IS := IS)).

(** What the answer is made of; the rest of the accumulator paces the output. *)
Definition gathered (a : Acc) : string * gmap string (string * string) * (StopReason * Z * Z) :=
  (accumulated_text a, pending_calls a, (acc_stop a, acc_input a, acc_output a)).
Definition gather (g : string * gmap string (string * string) * (StopReason * Z * Z)) (c : StreamChunk) :=
  let '(t, m, d) := g in
  match c with
  | TextDelta x => ((t +:+ x)%string, m, d)
  | ToolCallStart id n => (t, <[id := (n, EmptyString)]> m, d)
  | ToolCallArgsDelta id x => (t, alter (fun p => (p.1, (p.2 +:+ x)%string)) id m, d)
  | ToolCallComplete _ => g
  | Done r i o => (t, m, (r, i, o))
  end.

Lemma gathered_flush turn (e : Exec) a : gathered (flush_pending turn e a).2 = gathered a.
Proof. unfold flush_pending. by case_match. Qed.
Lemma gathered_chunk turn (e : Exec) a c : gathered (stream_chunk turn e a c).2 = gather (gathered a) c.
Proof.
  destruct c as [t|id n|id x|id|r i o]; cbn [stream_chunk]; try done.
  - case_match; [by rewrite gathered_flush|done].
  - pose proof (gathered_flush turn e a) as G. destruct (flush_pending turn e a) as [e' a']. cbn in *. unfold gathered in *. cbn. by injection G as -> -> -> -> ->.
Qed.
Lemma gathered_events turn : forall cs (e : Exec) a,
  exists a', (stream_events turn e a (SChunk <$> cs)).2 = Ok a' /\ gathered a' = foldl gather (gathered a) cs.
Proof.
  induction cs as [|c cs IH]; intros e a; [by exists a|]. cbn. pose proof (gathered_chunk turn e a c) as G.
  destruct (stream_chunk turn e a c) as [e' a']. cbn in G. destruct (IH e' a') as (a2 & E & E2). exists a2. split; [done|]. by rewrite E2, G.
Qed.

Definition text_of_blocks (bs : list Block) : string :=
  str_concat (bs ≫= (fun b => match b with BText ps => ps | BCall _ _ _ => [] end)).
(** The calls by id, the last of several with one id. *)
Definition calls_of_blocks (m : gmap string (string * string)) (bs : list Block) : gmap string (string * string) :=
  foldl (fun m b => match b with BCall id n ps => <[id := (n, str_concat ps)]> m | BText _ => m end) m bs.

Lemma concat_filter ps : str_concat (base.filter (fun p => p <> EmptyString) ps) = str_concat ps.
Proof.
  induction ps as [|p ps IH]; [done|]. rewrite filter_cons. case_decide as Hd.
  - change (p +:+ str_concat (base.filter (fun p => p <> EmptyString) ps) = p +:+ str_concat ps)%string. f_equal. exact IH.
  - by rewrite IH, Hd.
Qed.
Lemma str_concat_app a b : str_concat (a ++ b) = (str_concat a +:+ str_concat b)%string.
Proof. induction a as [|x a IH]; [done|]. change (x +:+ str_concat (a ++ b) = (x +:+ str_concat a) +:+ str_concat b)%string. by rewrite IH, str_app_assoc. Qed.

Lemma gather_texts d m : forall ps t, foldl gather (t, m, d) (TextDelta <$> ps) = ((t +:+ str_concat ps)%string, m, d).
Proof. induction ps as [|p ps IH]; intros t; cbn [fmap list_fmap foldl gather]; [by rewrite str_app_nil_r|]. rewrite IH. by rewrite str_app_assoc. Qed.
Lemma gather_args d id n : forall ps t x (m : gmap string (string * string)),
  foldl gather (t, <[id := (n, x)]> m, d) (ToolCallArgsDelta id <$> ps) = (t, <[id := (n, (x +:+ str_concat ps)%string)]> m, d).
Proof.
  induction ps as [|p ps IH]; intros t x m; cbn [fmap list_fmap foldl gather]; [by rewrite str_app_nil_r|].
  rewrite alter_insert_eq. cbn. rewrite IH. by rewrite str_app_assoc.
Qed.
Lemma gather_blocks : forall bs i t m d,
  foldl gather (t, m, d) (blocks_chunks i bs) = ((t +:+ text_of_blocks bs)%string, calls_of_blocks m bs, d).
Proof.
  induction bs as [|b bs IH]; intros i t m d; [cbn; by rewrite str_app_nil_r|]. cbn [blocks_chunks]. rewrite foldl_app.
  assert (foldl gather (t, m, d) (block_chunks i b) = ((t +:+ text_of_blocks [b])%string, calls_of_blocks m [b], d)) as ->.
  { unfold block_chunks. destruct b as [ps|id n ps]; rewrite foldl_app.
    - rewrite gather_texts, concat_filter. cbn. unfold text_of_blocks. cbn. by rewrite app_nil_r.
    - cbn [foldl gather]. rewrite gather_args, concat_filter. cbn. by rewrite str_app_nil_r. }
  rewrite IH. unfold text_of_blocks. cbn [mbind list_bind]. rewrite !str_concat_app, str_app_assoc. cbn [str_concat foldr String.append].
  by rewrite str_app_nil_r.
Qed.

(** ** From bytes to answer *)

Context `{!JsonStr, !JsonStrLaws, !JsonStrLine}.

End Accumulate.

(** ** A short answer with a call, in two chunks *)

Module Toy.
Import Mem Adapters.Toy Turn.Toy.

Lemma pos_text_without c p : c <> "0"%char -> c <> "1"%char -> str_contains_char c (pos_text p) = false.
Proof. intros H0 H1. induction p as [p IH|p IH|]; cbn; [| |done]; by rewrite bool_decide_eq_false_2, IH. Qed.
#[export] Instance coded_line : JsonStrLine.
Proof. split; intros j; cbn; try done; by apply pos_text_without. Qed.

Definition blocks : list Block := [BText ["Rea"; "ding"]; BCall "c1" "fs/read" ["ar"; ""; "gs"]]%string.
Definition bytes : string := events_text (answer_events [("message_start", JObj [])]%string [("message_stop", JObj [])]%string blocks ToolUse 9 4).
Definition pieces : list string := [str_take 40 bytes; str_drop 40 bytes].
Definition ok_response : HttpResponse := {|
  hr_status := 200; hr_status_text := "200 OK"; hr_json := Err ""; hr_text := Err ""; hr_bytes := Err "";
  hr_chunks := Ok <$> pieces |}%string.
Definition provider_net : Net := {| post_json _ _ _ := Ok ok_response; post_form _ _ _ _ := Err "offline"%string |}.
Definition claude : DirectHttpLlmClient := {|
  dh_base_url := "https://api"; dh_default_model := "m"; dh_auth_header := None; dh_adapter := anthropic true |}.

End Toy.
