(* ===== verification/AgentLoop.v ===== *)
(** * The life of an agent's task

    Models [bootstrap/executor_factory.rs] (the task started for every agent: spawn, restore, turn loop) and
    [RuntimeExecutor::spawn_with_registry_ref].  One [Round] of the script is one goal: the [Turn]s of its
    turn loop and the signals that arrive while the executor waits for the next goal.  The events published
    by the task itself are the list [events]; the signal channel registry is the flag [reachable]. *)

From S2P Require Import Prelude Floats Types Token Json Text ToolRegistry Resources Vfs Process Signals Store Sessions Invocations Proc Hil Ipc Snapshot ExecTools Executor Dispatch Turn.
Local Open Scope Z_scope.

Inductive Event : Type :=
| EvSpawned (agent goal session : string)
| EvStatus (s : string)
| EvExit (code : Z).

Record Round {C : Type} : Type := { r_turns : list (Turn C); r_now : Z; r_signals : list (option Signal) }.
Arguments Round : clear implicits.

Section Loop.
Context {SS IS : Type} `{!SessionStoreI SS, !InvocationStoreI IS, !UuidText, !HashOrder, !SnapshotYaml}.
Context {C : Type} `{!ByteStream C, !JsonText}.
Variable sha256_hex : string -> string.
Variable minute : Z -> string.
Variable status_to_yaml : AgentStatusFile -> result string string.
Variable hmac : string -> string -> string.
Variable overflow_checks : bool.
Variable token_of_json : json -> option CapabilityToken.
Variable rfc3339 : Z -> string.
Variable instant_json : Z -> json.
Variable json_text : json -> string.
Variable yaml_text : json -> string.
Variable parse_json : string -> option json.

#[local] Notation Exec := (Exec (SS := SS) (IS := IS)).
#[local] Notation Round := (Round C).
Implicit Types (e : Exec).

(** ** Spawning an executor *)

Definition spawn_config (now : Z) (p : SpawnParams) (real : bool) : Config := {|
  Executor.pid := sp_pid p; Executor.agent_name := sp_agent_name p; Executor.spawned_by := sp_spawned_by p;
  Executor.session_id := sp_session_id p; Executor.atp_session_id := sp_atp_session_id p;
  Executor.runtime_dir := sp_runtime_dir p; max_tool_chain_length := 50; invocation_id := sp_invocation_id p;
  snapshot_interval := None; Executor.spawned_at := now; Executor.context_limit := sp_context_limit p;
  real_registry := real; has_kernel := false; resource_handler := None; has_hil_manager := false;
  has_signal_bus := false; has_vfs := false; has_event_bus := false; has_memory_svc := false |}.
Definition spawn_executor (now : Z) (reg : ToolRegistry.ToolRegistry) (p : SpawnParams) (real : bool) : Exec :=
  refresh_tool_list reg {|
    cfg := spawn_config now p real; goal := sp_goal p; Executor.token := sp_token p; pending_messages := [];
    denied_tools := sp_denied_tools p;
    tools := manager_new (compute_cat2_tools (sp_token p) (sp_spawned_by p)).*1;
    memory_context := None; conversation_history := [];
    flags := {| paused := false; killed := false; snapshot_requested := false; last_signal_received := None;
                pending_signal_count := 0 |};
    usage := {| context_used := 0; tokens_consumed := 0; tool_calls_total := 0; tool_calls_since_last_snapshot := 0 |};
    invocation_store := None; session_store := None; trace := [] |}.

(** The handles the factory attaches: bus, stores, resource handler, HIL and, where there is one, the VFS. *)
Definition wire_config (f : Config) (key : string) (vfs : bool) : Config := {|
  Executor.pid := Executor.pid f; Executor.agent_name := Executor.agent_name f; Executor.spawned_by := Executor.spawned_by f;
  Executor.session_id := Executor.session_id f; Executor.atp_session_id := Executor.atp_session_id f;
  Executor.runtime_dir := Executor.runtime_dir f; max_tool_chain_length := max_tool_chain_length f;
  invocation_id := invocation_id f; snapshot_interval := snapshot_interval f; Executor.spawned_at := Executor.spawned_at f;
  Executor.context_limit := Executor.context_limit f; real_registry := real_registry f; has_kernel := has_kernel f;
  resource_handler := Some (handler_new key); has_hil_manager := true; has_signal_bus := true; has_vfs := vfs;
  has_event_bus := true; has_memory_svc := has_memory_svc f |}.
Definition wire (e : Exec) (key : string) (vfs : bool) (i : IS) (s : SS) : Exec :=
  init_vfs_caller {|
    cfg := wire_config (cfg e) key vfs; goal := goal e; Executor.token := Executor.token e;
    pending_messages := pending_messages e; denied_tools := denied_tools e; tools := tools e;
    memory_context := memory_context e; conversation_history := conversation_history e; flags := flags e;
    usage := usage e; invocation_store := Some i; session_store := Some s; trace := trace e |}.

(** ** The task *)

Record Task : Type := { exec : Exec; table : ProcessTable; events : list Event; reachable : bool }.
Definition with_exec (k : Task) e : Task := {| exec := e; table := table k; events := events k; reachable := reachable k |}.
Definition publish (k : Task) (v : Event) : Task :=
  {| exec := exec k; table := table k; events := events k ++ [v]; reachable := reachable k |}.
(** [let _ = process_table.set_status(pid, ..)] *)
Definition try_status (k : Task) (s : ProcessStatus) : Task :=
  match Process.set_status (table k) (Executor.pid (cfg (exec k))) s with
  | Ok t => {| exec := exec k; table := t; events := events k; reachable := reachable k |}
  | Err _ => k
  end.
Definition set_reachable (k : Task) (b : bool) : Task :=
  {| exec := exec k; table := table k; events := events k; reachable := b |}.

(** The state on entry to [wait_for_next_goal]: idle after an answer, the error on record after a failure. *)
Definition settle (now : Z) (k : Task) (r : result AvixError string) : Task :=
  let e := match r with
           | Ok _ => idle now (exec k)
           | Err x => persist_turn_error now (exec k) (avix_error_to_string x)
           end in
  try_status (publish (with_exec k e) (EvStatus "waiting")) Process.Waiting.
(** Killed while waiting after a failed turn. *)
Definition killed_after_error (now : Z) (k : Task) : Task :=
  let k := with_exec k (shutdown_with_status now (exec k) InvocationStatus.Killed None) in
  try_status (publish (publish k (EvStatus "crashed")) (EvExit 1)) Crashed.

(** [InTurn]: the turn loop still runs or is paused; [AtRest]: waiting for the next goal; [Over]: the task has ended. *)
Inductive TaskOut : Type := InTurn (k : Task) | AtRest (k : Task) | Over (k : Task).

Fixpoint run_turn_loop (rounds : list Round) (goal : string) (k : Task) : option TaskOut :=
  match rounds with
  | [] => Some (InTurn k)
  | r :: rest =>
      let k := try_status (publish k (EvStatus "running")) Process.Running in
      o ← run_with_client sha256_hex minute status_to_yaml hmac overflow_checks token_of_json rfc3339 instant_json
            json_text yaml_text parse_json (r_turns r) goal (exec k);
      match o with
      | Blocked e | Turn.Running e => Some (InTurn (with_exec k e))
      | Finished res e =>
          let k := settle (r_now r) (with_exec k e) res in
          w ← wait_for_next_goal status_to_yaml (r_now r) (exec k) (r_signals r);
          match w with
          | Executor.Waiting e => Some (AtRest (with_exec k e))
          | Woken (Some g) e => run_turn_loop rest g (with_exec k (record_next_goal e g))
          | Woken None e =>
              let k := with_exec k e in
              Some (Over (match res with Ok _ => k | Err _ => killed_after_error (r_now r) k end))
          end
      end
  end.

Definition over (o : TaskOut) : TaskOut := match o with Over k => Over (set_reachable k false) | o => o end.

(** A task that restores an earlier run starts by reading its conversation and waiting. *)
Definition restore_start (now : Z) (k : Task) (old : Z) : Task :=
  let c := cfg (exec k) in
  let h := match invocation_store (exec k) with
           | Some s => match is_read_conversation s (Executor.session_id c) old (Executor.spawned_by c) with Ok l => l | Err _ => [] end
           | None => []
           end in
  try_status (publish (with_exec k (idle now (set_history (exec k) h))) (EvStatus "waiting")) Process.Waiting.

Definition launch (now : Z) (reg : option ToolRegistry.ToolRegistry) (key : string) (vfs : bool) (i : IS) (s : SS)
    (t : ProcessTable) (p : SpawnParams) (first : list (option Signal)) (rounds : list Round) : option TaskOut :=
  let announce := match sp_restore_from_pid p with
                  | Some _ => []
                  | None => [EvSpawned (sp_agent_name p) (sp_goal p) (sp_session_id p)]
                  end in
  let e := spawn_executor now (default ToolRegistry.empty_registry reg) p (bool_decide (is_Some reg)) in
  let k := {| exec := wire e key vfs i s; table := t; events := announce; reachable := true |} in
  over <$> match sp_restore_from_pid p with
  | None => run_turn_loop rounds (sp_goal p) k
  | Some old =>
      let k := restore_start now k old in
      w ← wait_for_next_goal status_to_yaml now (exec k) first;
      match w with
      | Executor.Waiting e => Some (AtRest (with_exec k e))
      | Woken None e => Some (Over (with_exec k e))
      | Woken (Some g) e => run_turn_loop rounds g (with_exec k e)
      end
  end.

(** ** What a settled agent looks like *)

Context `{!UuidLaws, !SessionStoreLaws SS, !InvocationStoreLaws IS}.

(** The stores of an executor are attached and reachable, and hold its records. *)
Record backed e (i : IS) (s : SS) (u : Z) (ir : InvocationRecord) (sr : SessionRecord) : Prop := {
  b_istore : invocation_store e = Some i;
  b_iup : is_up i;
  b_id : invocation_id (cfg e) <> EmptyString;
  b_record : invocations i !! invocation_id (cfg e) = Some ir;
  b_sstore : session_store e = Some s;
  b_sup : ss_up s;
  b_uuid : Executor.session_id (cfg e) = uuid_str u;
  b_sid : uuid_str u <> EmptyString;
  b_session : sessions s !! uuid_str u = Some sr;
  b_key : Sessions.id sr = u
}.

Lemma inv_do_backed e i op : invocation_store e = Some i -> invocation_id (cfg e) <> EmptyString ->
  inv_do e op = set_stores e (Some (op i).2) (session_store e).
Proof. intros Hi Hn. unfold inv_do. rewrite Hi. by destruct (String.eqb_spec (invocation_id (cfg e)) EmptyString). Qed.

Lemma idle_backed now e i s u ir sr : backed e i s u ir sr -> exists i' s',
  idle now e = set_stores e (Some i') (Some s') /\
  invocations i' = <[invocation_id (cfg e) := Invocations.set_status InvocationStatus.Idle
    (Invocations.set_usage (tokens_consumed (usage e)) (tool_calls_total (usage e)) ir)]> (invocations i) /\
  sessions s' = <[uuid_str u := mark_idle now sr]> (sessions s) /\ is_up i' /\ ss_up s'.
Proof.
  intros [Bi Bu Bn Br Bs Bt Bid Bsn Bsess Bk]. unfold idle, status_do, save_invocation_state.
  rewrite (inv_do_backed e i) by done. set (p := is_persist_interim _ _ _ _ _).
  destruct (is_persist_interim_usage i (invocation_id (cfg e)) (conversation_history e) (tokens_consumed (usage e))
    (tool_calls_total (usage e)) Bu) as [Hu Hm]. fold p in Hu, Hm.
  rewrite (inv_do_backed _ p.2) by done. cbn [cfg set_stores].
  destruct (is_update_status_up p.2 (invocation_id (cfg e)) InvocationStatus.Idle Hu) as (i' & Ei & Hu' & Hm').
  rewrite Ei. cbn [snd]. unfold idle_session. cbn [cfg set_stores]. rewrite Bid.
  destruct (String.eqb_spec (uuid_str u) EmptyString) as [|_]; [done|]. unfold sess_do, uuid_or_nil.
  rewrite parse_uuid_str. cbn [session_store set_stores]. rewrite Bs, ss_get_up, Bsess by done.
  destruct (ss_update_up s (mark_idle now sr) Bt) as (s' & Es & Hs & Hms). rewrite Es. exists i', s'.
  split; [done|]. split; [|split; [|done]].
  - rewrite Hm', Hm. apply map_eq. intros j. destruct (decide (invocation_id (cfg e) = j)) as [<-|Hj].
    + by rewrite !lookup_alter_eq, Br, lookup_insert_eq.
    + by rewrite !lookup_alter_ne, lookup_insert_ne by done.
  - rewrite Hms. change (Sessions.id (mark_idle now sr)) with (Sessions.id sr). by rewrite Bk.
Qed.

Lemma backed_history e h i s u ir sr : backed e i s u ir sr -> backed (set_history e h) i s u ir sr.
Proof. by intros []. Qed.

(** What a finished turn leaves behind, whether it ended with an answer or failed. *)
Definition settled_exec (res : result AvixError string) e : Exec :=
  match res with
  | Ok _ => e
  | Err x => push_history e (from_role_content Role.System ("[Turn failed: " +:+ avix_error_to_string x +:+ "]"))
  end.

(** A turn that ends leaves every record of the agent in agreement: the process table says waiting and so
    does the last event; the invocation is idle with the executor's own token and tool-call counts; the
    session is idle.  A failure ends as the last line of the conversation.  The executor keeps its tools,
    token, flags and counters, so it can take the next goal. *)
Theorem turn_settles now k res i s u ir sr entry (Hb : backed (exec k) i s u ir sr)
    (Hp : table k !! Executor.pid (cfg (exec k)) = Some entry) :
  exists i' s', exec (settle now k res) = set_stores (settled_exec res (exec k)) (Some i') (Some s') /\
    table (settle now k res) = <[Executor.pid (cfg (exec k)) := upd_status entry Process.Waiting (waiting_on entry)]> (table k) /\
    last (events (settle now k res)) = Some (EvStatus "waiting") /\
    invocations i' = <[invocation_id (cfg (exec k)) := Invocations.set_status InvocationStatus.Idle
      (Invocations.set_usage (tokens_consumed (usage (exec k))) (tool_calls_total (usage (exec k))) ir)]> (invocations i) /\
    sessions s' = <[uuid_str u := mark_idle now sr]> (sessions s).
Proof.
  assert (exists i' s', (match res with Ok _ => idle now (exec k) | Err x => persist_turn_error now (exec k) (avix_error_to_string x) end)
      = set_stores (settled_exec res (exec k)) (Some i') (Some s') /\
    invocations i' = <[invocation_id (cfg (exec k)) := Invocations.set_status InvocationStatus.Idle
      (Invocations.set_usage (tokens_consumed (usage (exec k))) (tool_calls_total (usage (exec k))) ir)]> (invocations i) /\
    sessions s' = <[uuid_str u := mark_idle now sr]> (sessions s)) as (i' & s' & He & Hi & Hs).
  { destruct res as [r|x].
    - destruct (idle_backed now _ _ _ _ _ _ Hb) as (i' & s' & ? & ? & ? & _). by exists i', s'.
    - destruct (idle_backed now _ _ _ _ _ _ (backed_history _ (conversation_history (exec k) ++
        [from_role_content Role.System ("[Turn failed: " +:+ avix_error_to_string x +:+ "]")]) _ _ _ _ _ Hb)) as (i' & s' & ? & ? & ? & _).
      by exists i', s'. }
  exists i', s'. unfold settle. rewrite He. unfold try_status, Process.set_status, Process.modify.
  assert (cfg (exec (publish (with_exec k (set_stores (settled_exec res (exec k)) (Some i') (Some s'))) (EvStatus "waiting")))
    = cfg (exec k)) as -> by (by destruct res).
  cbn [table publish with_exec]. rewrite Hp. cbn [exec table events publish with_exec].
  split; [done|]. split; [done|]. split; [by rewrite last_snoc|done].
Qed.

End Loop.

(** ** An agent's life on concrete stores *)

Module Toy.
Import Mem ToyUuid Invocations.Toy Proc.Toy Ipc.Demo Turn.Toy.

Definition toy_params : SpawnParams := {|
  sp_pid := 42; sp_agent_name := "researcher"; sp_goal := "study"; sp_spawned_by := "alice"; sp_token := toy_token;
  sp_session_id := uuid_str 77; sp_atp_session_id := "conn"; sp_system_prompt := None; sp_selected_model := "m";
  sp_denied_tools := []; sp_context_limit := 0; sp_runtime_dir := "/run/avix"; sp_invocation_id := "i1";
  sp_restore_from_pid := None |}.
Definition toy_invocation : InvocationRecord := invocation_new 0 "i1" "researcher" "alice" 42 "study" (uuid_str 77).
Definition toy_session : SessionRecord := session_new 0 77 "alice" "researcher" "t" "study" 42.
Definition toy_istore : stores :=
  (is_create {| InvocationStore.db := {["invocations"%string := ∅]}; InvocationStore.local := None;
                InvocationStore.disk := (∅ : gmap string string) |} toy_invocation).2.
Definition toy_sstore : tables_t := (ss_create ({["sessions"%string := ∅]} : tables_t) toy_session).2.
Definition toy_task : Task (SS := tables_t) (IS := stores) := {|
  exec := wire (spawn_executor 0 empty_registry toy_params true) "key" false toy_istore toy_sstore;
  table := {[42 := agent_entry 0 0 42 "researcher" Process.Running None "alice" "study"]};
  events := []; reachable := true |}.

Lemma toy_backed : backed (exec toy_task) toy_istore toy_sstore 77 toy_invocation toy_session.
Proof.
  destruct (mem_clean SessionRecord "sessions") as [Cs Es]. destruct (mem_clean InvocationRecord "invocations") as [Ci Ei].
  set (i0 := {| InvocationStore.db := {["invocations"%string := ∅]}; InvocationStore.local := None;
    InvocationStore.disk := (∅ : gmap string string) |} : stores).
  assert (is_up i0) as Hi0 by (cbn; exact Ci).
  assert (ss_up ({["sessions"%string := ∅]} : tables_t)) as Hs0 by (cbn; exact Cs).
  destruct (is_create_up i0 toy_invocation Hi0) as (i' & E & Hu & Hm).
  destruct (ss_create_up _ toy_session Hs0) as (s' & E' & Hu' & Hm').
  assert (toy_istore = i') as <- by exact (f_equal snd E).
  assert (toy_sstore = s') as <- by exact (f_equal snd E').
  constructor; [reflexivity|exact Hu|discriminate| |reflexivity|exact Hu'|reflexivity|discriminate| |reflexivity].
  - rewrite Hm. apply (lookup_insert_eq (M := gmap string)).
  - rewrite Hm'. apply (lookup_insert_eq (M := gmap string)).
Qed.

Lemma turn_settles_witness :
  last (events (settle 9 toy_task (Ok "done"%string))) = Some (EvStatus "waiting") /\
  (Process.status <$> table (settle 9 toy_task (Ok "done"%string)) !! 42) = Some Process.Waiting.
Proof.
  destruct (turn_settles 9 toy_task (Ok "done"%string) _ _ _ _ _
    (agent_entry 0 0 42 "researcher" Process.Running None "alice" "study") toy_backed eq_refl)
    as (i' & s' & _ & Ht & He & _).
  split; [exact He|]. rewrite Ht. reflexivity.
Defined.

Definition toy_signal (k : SignalKind) (p : json) : Signal := {| Signals.target := 42; Signals.kind := k; payload := p |}.
(** SIGKILL during the first request; SIGSTART with a new goal afterwards. *)
Definition kill_then_start : list (Round pipe_end) := [
  {| r_turns := [toy_turn [] (Interrupted [] (toy_signal Kill JNull))]; r_now := 1;
     r_signals := [Some (toy_signal Start (JObj [("goal", JStr "again")]))] |};
  {| r_turns := [final_answer]; r_now := 2; r_signals := [] |}]%string.
Definition toy_loop (rounds : list (Round pipe_end)) :=
  run_turn_loop (fun s => s) pretty no_text toy_mac true (fun _ => None) pretty JInt
    (fun _ => "json"%string) (fun _ => "yaml"%string) (fun _ => None) rounds "study" toy_task.

(** The killed agent is not over: it waits, and the next SIGSTART makes it ask the model again. *)
Lemma killed_agent_runs_again :
  match toy_loop kill_then_start with
  | Some (AtRest k) => killed (flags (exec k)) = true /\ length (List.filter (fun x => match x with Asked _ => true | _ => false end)
                         (trace (exec k))) = 2%nat
  | _ => False
  end.
Proof. vm_compute. split; reflexivity. Qed.

End Toy.
