(* ===== verification/Manifests.v ===== *)
(** * Agent manifests

    Models [agent_manifest/]: the manifest of an agent ([schema.rs]), loading one from the installed packages with its
    signature ([loader.rs]), the catalogue of installed agents ([scanner.rs]), and the resolution of tools, model and goal
    of a spawn ([resolver.rs]).  YAML text is [Serde AgentManifest]; [sha256_hex] is the hexadecimal digest.

    Manifests lie on the VFS; reading one changes nothing, since only paths below [/tools] are filled lazily
    ([reading_is_pure]).  [dir_iter] is the order in which a directory is listed, [hash_iter] that of the template's
    variables. *)

From Stdlib Require Import Floats.SpecFloat.
From S2P Require Import Prelude Floats Types Token Channels ToolRegistry Process Signals Router Text Store Sessions Invocations Vfs Resources Proc Json.
Local Open Scope Z_scope.

(** ** [schema.rs] *)

Inductive EntrypointType : Type := LlmLoop.
Record ModelRequirements : Type := { min_context_window : Z; required_capabilities : list string; recommended : string }.
Definition model_requirements_default : ModelRequirements :=
  {| min_context_window := 8000; required_capabilities := ["tool_use"%string]; recommended := "claude-sonnet-4" |}.
Record ManifestEntrypoint : Type := {
  entrypoint_type : EntrypointType; model_requirements : ModelRequirements; max_tool_chain : Z; max_turns_per_goal : Z }.
Definition entrypoint_default : ManifestEntrypoint :=
  {| entrypoint_type := LlmLoop; model_requirements := model_requirements_default; max_tool_chain := 5; max_turns_per_goal := 20 |}.
Record ManifestTools : Type := { mt_required : list string; mt_optional : list string }.
Inductive WorkingContextMode : Type := Dynamic | Fixed.
Inductive SemanticStoreAccess : Type := NoStore | ReadOnly | ReadWrite.
Record ManifestMemory : Type := {
  working_context : WorkingContextMode; episodic_persistence : bool; semantic_store_access : SemanticStoreAccess }.
Definition memory_default : ManifestMemory :=
  {| working_context := Dynamic; episodic_persistence := false; semantic_store_access := NoStore |}.
Inductive SnapshotMode : Type := SnapDisabled | PerTurn.
Record ManifestSnapshot : Type := { snap_mode : SnapshotMode; restore_on_crash : bool; compression_enabled : bool }.
Definition snapshot_default : ManifestSnapshot :=
  {| snap_mode := SnapDisabled; restore_on_crash := false; compression_enabled := true |}.
Record ManifestEnvironment : Type := { temperature : f32; top_p : f32; timeout_sec : Z }.
(** [0.9_f32] *)
Definition f32_0_9 : f32 := S754_finite false 15099494 (-24).
Definition environment_default : ManifestEnvironment := {| temperature := f32_0_7; top_p := f32_0_9; timeout_sec := 300 |}.
Record ManifestDefaults : Type := { goal_template : option string; md_environment : ManifestEnvironment }.
Record ManifestMetadata : Type := {
  mm_name : string; mm_version : string; mm_description : string; mm_author : string; mm_license : option string;
  mm_tags : list string; mm_created_at : option Z }.
Record PackagingMetadata : Type := { pk_source : option string; pk_signature : option string }.
Record AgentSpec : Type := {
  system_prompt_path : option string; requested_capabilities : list string; entrypoint : ManifestEntrypoint;
  as_tools : ManifestTools; as_memory : ManifestMemory; as_snapshot : ManifestSnapshot; as_defaults : ManifestDefaults;
  as_visibility : option string; as_scope : option string }.
Record AgentManifest : Type := {
  am_api_version : string; am_kind : string; am_metadata : ManifestMetadata; am_packaging : PackagingMetadata; am_spec : AgentSpec }.
Definition set_signature (m : AgentManifest) (s : option string) : AgentManifest :=
  {| am_api_version := am_api_version m; am_kind := am_kind m; am_metadata := am_metadata m;
     am_packaging := {| pk_source := pk_source (am_packaging m); pk_signature := s |}; am_spec := am_spec m |}.

Definition vfs_path_system (name version : string) : string := "/bin/" +:+ name +:+ "@" +:+ version +:+ "/manifest.yaml".
Definition vfs_path_user (username name version : string) : string :=
  "/users/" +:+ username +:+ "/bin/" +:+ name +:+ "@" +:+ version +:+ "/manifest.yaml".

Section Manifests.
Context {D : Type} `{!Disk D, !HashOrder, !Serde AgentManifest}.
Variables (yaml_of_names : list string -> string) (sha256_hex : string -> string).
Notation vfs := (VfsRouter D).
Implicit Types v : vfs.

Definition from_yaml (s : string) : result AvixError AgentManifest := map_err ConfigParse (from_str s).
Definition to_yaml (m : AgentManifest) : result AvixError string := map_err ConfigParse (Store.to_string m).

(** ** [loader.rs] *)

Definition vread v (path : string) : result AvixError string := (Vfs.read yaml_of_names v path).2.
Definition vlist v (dir : string) : result AvixError (list string) := dir_iter <$> Vfs.list_path v dir.
Definition verify_signature (m : AgentManifest) (path : string) : result AvixError unit :=
  let sig := default EmptyString (pk_signature (am_packaging m)) in
  let hex_part := default EmptyString (strip_prefix "sha256:" sig) in
  if String.eqb hex_part "" then Ok ()
  else
    y ← map_err ConfigParse (Store.to_string (set_signature m (Some "sha256:"%string)));
    if String.eqb (sha256_hex y) hex_part then Ok () else Err (ManifestSignatureMismatch path).
Definition load_from_path v (path : string) : result AvixError AgentManifest :=
  p ← map_err (fun e => ConfigParse (avix_error_to_string e)) (VfsPath.parse path);
  raw ← map_err (fun _ => ManifestNotFound path) (vread v p);
  s ← map_err ConfigParse (from_utf8 raw);
  m ← from_yaml s;
  if negb (String.eqb (am_kind m) "Agent") then Err (ManifestKindMismatch "Agent" (am_kind m))
  else _ ← verify_signature m path; Ok m.
Fixpoint first_versioned v (base name : string) (entries : list string) : option string :=
  match entries with
  | [] => None
  | e :: es =>
      match strip_prefix (name +:+ "@") e with
      | Some (String _ _) =>
          let path := (base +:+ "/" +:+ e +:+ "/manifest.yaml")%string in
          match VfsPath.parse path with
          | Ok p => if exists_path v p then Some path else first_versioned v base name es
          | Err _ => first_versioned v base name es
          end
      | _ => first_versioned v base name es
      end
  end.
Definition find_versioned_manifest v (base name : string) : option string :=
  match VfsPath.parse base with
  | Err _ => None
  | Ok dir => match vlist v dir with Err _ => None | Ok l => first_versioned v base name l end
  end.
(** [trim_end_matches] of a text: the package's directory. *)
Fixpoint trim_end_text (n : nat) (pat s : string) : string :=
  match n with
  | O => s
  | S n => if bool_decide (String.length pat <= String.length s)%nat && starts_with pat (str_drop (String.length s - String.length pat) s)
           then trim_end_text n pat (str_take (String.length s - String.length pat) s) else s
  end.
Definition package_dir (path : string) : string := trim_end_text (String.length path) "/manifest.yaml" path.
Definition load_with_dir v (name username : string) : result AvixError (AgentManifest * string) :=
  let at_path path := (fun m => (m, package_dir path)) <$> load_from_path v path in
  match find_versioned_manifest v "/bin" name with
  | Some path => at_path path
  | None =>
      match find_versioned_manifest v ("/users/" +:+ username +:+ "/bin")%string name with
      | Some path => at_path path
      | None => Err (ManifestNotFound ("/bin/" +:+ name +:+ "/manifest.yaml")%string)
      end
  end.
Definition load v (name username : string) : result AvixError AgentManifest := fst <$> load_with_dir v name username.

(** ** [scanner.rs] *)

Inductive AgentScope : Type := ScopeSystem | ScopeUser.
Record AgentManifestSummary : Type := {
  su_name : string; su_version : string; su_description : string; su_author : string; su_path : string; su_scope : AgentScope }.
Definition hidden (entry : string) : bool := starts_with "." entry.
Definition manifest_path (dir entry : string) : string := dir +:+ "/" +:+ entry +:+ "/manifest.yaml".
(** The agent a directory entry holds; anything else is passed over. *)
Definition agent_at v (dir entry : string) : option AgentManifest :=
  match VfsPath.parse (manifest_path dir entry) with
  | Err _ => None
  | Ok p =>
      match vread v p with
      | Err _ => None
      | Ok raw =>
          match from_utf8 raw with
          | Err _ => None
          | Ok s =>
              match from_yaml s with
              | Err _ => None
              | Ok m => if String.eqb (am_kind m) "Agent" then Some m else None
              end
          end
      end
  end.
Definition summary_of (dir entry : string) (scope : AgentScope) (m : AgentManifest) : AgentManifestSummary := {|
  su_name := mm_name (am_metadata m); su_version := mm_version (am_metadata m); su_description := mm_description (am_metadata m);
  su_author := mm_author (am_metadata m); su_path := manifest_path dir entry; su_scope := scope |}.
Definition entries_of v (dir : string) : list string :=
  match VfsPath.parse dir with
  | Err _ => []
  | Ok d => match vlist v d with Ok l => l | Err _ => [] end
  end.
Definition scan_dir v (dir : string) (scope : AgentScope) : list AgentManifestSummary :=
  omap (fun e => if hidden e then None else summary_of dir e scope <$> agent_at v dir e) (entries_of v dir).
Definition user_bin (username : string) : string := "/users/" +:+ username +:+ "/bin".
Definition names_of (l : list AgentManifestSummary) : list string := su_name <$> l.
Definition scan v (username : string) : list AgentManifestSummary :=
  let system := scan_dir v "/bin" ScopeSystem in
  system ++ base.filter (fun s => su_name s ∉ names_of system) (scan_dir v (user_bin username) ScopeUser).
(** The entries whose name has not been seen. *)
Fixpoint unseen (seen : list string) (l : list AgentManifestSummary) : list AgentManifestSummary :=
  match l with
  | [] => []
  | s :: l => if list_contains (su_name s) seen then unseen seen l else s :: unseen (su_name s :: seen) l
  end.
Fixpoint scan_users v (seen : list string) (users : list string) : list AgentManifestSummary :=
  match users with
  | [] => []
  | u :: us =>
      if hidden u then scan_users v seen us
      else let l := unseen seen (scan_dir v (user_bin u) ScopeUser) in l ++ scan_users v (names_of l ++ seen) us
  end.
Definition scan_all v : list AgentManifestSummary :=
  let system := scan_dir v "/bin" ScopeSystem in
  system ++ scan_users v (names_of system) (entries_of v "/users").
Definition get_manifest_from_dir v (dir name : string) : option AgentManifest :=
  head (omap (fun e => if hidden e || negb (starts_with (name +:+ "@")%string e) then None
                       else match agent_at v dir e with
                            | Some m => if String.eqb (mm_name (am_metadata m)) name then Some m else None
                            | None => None
                            end) (entries_of v dir)).
Definition get_manifest v (name username : string) : option AgentManifest :=
  match get_manifest_from_dir v "/bin" name with
  | Some m => Some m
  | None => get_manifest_from_dir v (user_bin username) name
  end.

(** ** [resolver.rs] *)

Record UserToolPermissions : Type := { allowed_tools : list string; denied_tools : list string }.
Definition ALWAYS_GRANTED : list string := ["cap/request-tool"; "cap/escalate"; "cap/list"; "job/watch"]%string.
Definition permitted (u : UserToolPermissions) (tool : string) : bool :=
  list_contains tool (allowed_tools u) && negb (list_contains tool (denied_tools u)).
Fixpoint grant_required (u : UserToolPermissions) (agent : string) (l : list string) : result AvixError (list string) :=
  match l with
  | [] => Ok []
  | t :: l => if permitted u t then g ← grant_required u agent l; Ok (t :: g) else Err (RequiredToolDenied t agent)
  end.
Definition push_new (granted : list string) (t : string) : list string := if list_contains t granted then granted else granted ++ [t].
Definition resolve_tools (t : ManifestTools) (u : UserToolPermissions) (agent : string) : result AvixError (list string) :=
  g ← grant_required u agent (mt_required t);
  let g := foldl (fun g t => if permitted u t then push_new g t else g) g (mt_optional t) in
  Ok (foldl push_new g ALWAYS_GRANTED).
Definition validate_model (selected : string) (r : ModelRequirements) : result AvixError unit :=
  if String.eqb selected "" then Err (ModelRequirementsNotMet "selected model name is empty") else Ok ().
Definition placeholder (k : string) : string := "{{" +:+ k +:+ "}}".
Definition render (template : string) (vars : gmap string string) : string :=
  foldl (fun r kv => str_replace (placeholder kv.1) kv.2 r) template (hash_iter _ vars).
Record ResolvedSpawnContext : Type := {
  rs_manifest : AgentManifest; rs_selected_model : string; rs_granted_tools : list string; rs_system_prompt : string;
  rs_rendered_goal : string }.
Definition load_system_prompt v (m : AgentManifest) (pkg_dir : string) : string :=
  match system_prompt_path (am_spec m) with
  | None => EmptyString
  | Some rel =>
      match VfsPath.parse (pkg_dir +:+ "/" +:+ rel)%string with
      | Err _ => EmptyString
      | Ok p => match vread v p with Ok bytes => from_utf8_lossy bytes | Err _ => EmptyString end
      end
  end.
Definition resolve_spawn v (agent username goal selected : string) (vars : gmap string string) (u : UserToolPermissions)
    : result AvixError ResolvedSpawnContext :=
  '(m, dir) ← load_with_dir v agent username;
  _ ← validate_model selected (model_requirements (entrypoint (am_spec m)));
  tools ← resolve_tools (as_tools (am_spec m)) u agent;
  Ok {| rs_manifest := m; rs_selected_model := selected; rs_granted_tools := tools;
        rs_system_prompt := load_system_prompt v m dir;
        rs_rendered_goal := match goal_template (as_defaults (am_spec m)) with Some t => render t vars | None => goal end |}.

(** The lookup the process handlers are given: [get_manifest] and the capabilities it asks for. *)
Definition manifest_lookup v (agent caller : string) : option (list string) :=
  requested_capabilities ∘ am_spec <$> get_manifest v agent caller.
End Manifests.

(** ** Tools of a spawn *)

Lemma grant_required_spec u agent l :
  (forall g, grant_required u agent l = Ok g <-> g = l /\ Forall (fun t => permitted u t = true) l) /\
  (forall e, grant_required u agent l = Err e <-> exists pre t post, l = pre ++ t :: post /\
     Forall (fun t => permitted u t = true) pre /\ permitted u t = false /\ e = RequiredToolDenied t agent).
Proof.
  induction l as [|t l [IH1 IH2]]; cbn [grant_required].
  - split; [intros g; split; [by intros [= <-]|by intros [-> _]]|]. intros e. split; [done|].
    by intros ([] & ? & ? & ? & _).
  - destruct (permitted u t) eqn:Ht.
    + destruct (grant_required u agent l) as [g0|e0] eqn:Eg; cbn.
      * destruct (proj1 (IH1 g0) eq_refl) as [-> Hl]. split.
        -- intros g. split; [intros [= <-]; split; [done|by constructor]|]. by intros [-> _].
        -- intros e. split; [done|]. intros ([|y pre] & x & post & [= E1 E2] & Hp & Hx & _); [congruence|].
           subst l. apply Forall_app in Hl as [_ Hl]. apply Forall_cons in Hl as [Hx' _]. congruence.
      * split.
        -- intros g. split; [done|]. intros [-> Hl]. apply Forall_cons in Hl as [_ Hl].
           by pose proof (proj2 (IH1 l) (conj eq_refl Hl)).
        -- intros e. split.
           ++ intros [= <-]. destruct (proj1 (IH2 e0) eq_refl) as (pre & x & post & -> & Hp & Hx & ->).
              exists (t :: pre), x, post. split_and!; try done. by constructor.
           ++ intros ([|y pre] & x & post & [= E1 E2] & Hp & Hx & ->); [congruence|].
              apply Forall_cons in Hp as [_ Hp]. f_equal.
              assert (Err (A := list string) e0 = Err (RequiredToolDenied x agent)) as Eq by (apply IH2; by exists pre, x, post). by simplify_eq.
    + split.
      * intros g. split; [done|]. intros [-> Hl]. apply Forall_cons in Hl as [Hl _]. congruence.
      * intros e. split.
        -- intros [= <-]. by exists [], t, l.
        -- intros ([|y pre] & x & post & [= E1 E2] & Hp & Hx & ->); [congruence|]. apply Forall_cons in Hp as [Hp _]. congruence.
Qed.
Lemma push_new_elem g t x : x ∈ push_new g t <-> x ∈ g \/ x = t.
Proof.
  unfold push_new, list_contains. case_bool_decide as Ht; [|rewrite elem_of_app, list_elem_of_singleton; done].
  split; [by left|]. intros [Hg|Heq]; [done|by subst].
Qed.
Lemma push_all_elem l : forall g x, x ∈ foldl push_new g l <-> x ∈ g \/ x ∈ l.
Proof. induction l as [|t l IH]; intros g x; cbn; [set_solver|]. rewrite IH, push_new_elem. set_solver. Qed.
Lemma push_permitted_elem u l : forall g x, x ∈ foldl (fun g t => if permitted u t then push_new g t else g) g l <->
  x ∈ g \/ x ∈ l /\ permitted u x = true.
Proof.
  induction l as [|t l IH]; intros g x; cbn; [set_solver|]. rewrite IH, elem_of_cons.
  destruct (permitted u t) eqn:Ht; rewrite ?push_new_elem; naive_solver congruence.
Qed.

(** The tools resolved for a spawn are exactly the kernel's own and those the manifest names that the user may use and
    is not denied; resolution fails exactly when a required tool is not permitted, naming the first one. *)
Theorem tool_grants_exact t u agent :
  (forall g, resolve_tools t u agent = Ok g ->
     Forall (fun x => permitted u x = true) (mt_required t) /\
     forall x, x ∈ g <-> x ∈ ALWAYS_GRANTED \/ permitted u x = true /\ (x ∈ mt_required t \/ x ∈ mt_optional t)) /\
  (forall e, resolve_tools t u agent = Err e <-> exists pre x post, mt_required t = pre ++ x :: post /\
     Forall (fun y => permitted u y = true) pre /\ permitted u x = false /\ e = RequiredToolDenied x agent).
Proof.
  unfold resolve_tools. destruct (grant_required_spec u agent (mt_required t)) as [G1 G2].
  destruct (grant_required u agent (mt_required t)) as [g0|e0]; cbn [mbind result_bind].
  - destruct (proj1 (G1 g0) eq_refl) as [-> Hall]. split.
    + intros g Eg. pose proof (f_equal (fun r => match r with Ok a => a | Err _ => [] end) Eg) as <-. split; [done|].
      intros x. rewrite push_all_elem, push_permitted_elem.
      rewrite Forall_forall in Hall. specialize (Hall x). tauto.
    + intros e. rewrite <- G2. split; done.
  - split; [done|]. intros e. rewrite <- G2. split; intros [= ->]; done.
Qed.

Section Facts.
Context {D : Type} `{!Disk D, !HashOrder, !HashOrderLaws, !Serde AgentManifest}.
Variables (yaml_of_names : list string -> string) (sha256_hex : string -> string).
Implicit Types v : VfsRouter D.

Lemma reading_is_pure v dir entry : starts_with "/tools" (manifest_path dir entry) = false ->
  (Vfs.read yaml_of_names v (manifest_path dir entry)).1 = v.
Proof.
  intros Hs. unfold Vfs.read. destruct (guard_access _ _ _ _); [|done]. cbn. unfold populate_if_needed. by rewrite Hs.
Qed.

(** *** Signatures *)

Definition signed_with (m : AgentManifest) : string :=
  default EmptyString (strip_prefix "sha256:" (default EmptyString (pk_signature (am_packaging m)))).
Definition sentinel : option string := Some "sha256:"%string.
Lemma verify_spec m path : verify_signature sha256_hex m path = Ok () <->
  signed_with m = EmptyString \/ exists y, Store.to_string (set_signature m sentinel) = Ok y /\ sha256_hex y = signed_with m.
Proof.
  unfold verify_signature. fold (signed_with m). destruct (String.eqb_spec (signed_with m) "") as [->|Hn]; [naive_solver|].
  fold sentinel. destruct (Store.to_string (set_signature m sentinel)) as [y|e]; cbn.
  - destruct (String.eqb_spec (sha256_hex y) (signed_with m)) as [He|He]; [split; [right; by exists y|done]|].
    split; [done|]. intros [|(y' & [= <-] & E)]; congruence.
  - split; [done|]. intros [|(y' & [=] & _)]; congruence.
Qed.

(** The text of a manifest on the disk of the VFS. *)
Definition manifest_text v (path : string) (m : AgentManifest) : Prop :=
  exists p raw s, VfsPath.parse path = Ok p /\ vread yaml_of_names v p = Ok raw /\ from_utf8 raw = Ok s /\ from_str s = Ok m.
Definition sign (m : AgentManifest) (y : string) : AgentManifest := set_signature m (Some ("sha256:" +:+ sha256_hex y)%string).
Lemma signed_sign m y : signed_with (sign m y) = sha256_hex y.
Proof.
  change (default EmptyString (strip_prefix "sha256:" ("sha256:" +:+ sha256_hex y)) = sha256_hex y)%string. by rewrite strip_prefix_app.
Qed.

(** Loading a manifest succeeds exactly for the text of an agent whose signature, when it has one, is the digest of its
    own canonical text.  So a manifest signed by its canonical text loads, and one changed after signing loads only if
    the digests of the two texts agree; but a manifest without a signature, or whose signature is of another kind,
    loads as it is. *)
Theorem manifest_signature v path :
  (forall m, load_from_path yaml_of_names sha256_hex v path = Ok m <->
     manifest_text v path m /\ am_kind m = "Agent"%string /\
     (signed_with m = EmptyString \/ exists y, Store.to_string (set_signature m sentinel) = Ok y /\ sha256_hex y = signed_with m)) /\
  (forall m y, am_kind m = "Agent"%string -> Store.to_string (set_signature m sentinel) = Ok y ->
     manifest_text v path (sign m y) -> load_from_path yaml_of_names sha256_hex v path = Ok (sign m y)) /\
  (forall m y m' y', Store.to_string (set_signature m sentinel) = Ok y -> Store.to_string (set_signature m' sentinel) = Ok y' ->
     sha256_hex y <> EmptyString ->
     pk_signature (am_packaging m') = pk_signature (am_packaging (sign m y)) ->
     load_from_path yaml_of_names sha256_hex v path = Ok m' -> sha256_hex y' = sha256_hex y).
Proof.
  assert (forall m, load_from_path yaml_of_names sha256_hex v path = Ok m <->
     manifest_text v path m /\ am_kind m = "Agent"%string /\
     (signed_with m = EmptyString \/ exists y, Store.to_string (set_signature m sentinel) = Ok y /\ sha256_hex y = signed_with m)) as Spec.
  { intros m. unfold load_from_path, manifest_text, from_yaml.
    destruct (VfsPath.parse path) as [p|] eqn:Ep; cbn; [|naive_solver].
    destruct (vread yaml_of_names v p) as [raw|] eqn:Er; cbn; [|naive_solver congruence].
    destruct (from_utf8 raw) as [s|] eqn:Eu; cbn; [|naive_solver congruence].
    destruct (from_str s) as [m0|] eqn:Em; cbn; [|naive_solver congruence].
    destruct (String.eqb_spec (am_kind m0) "Agent") as [Ek|Ek]; cbn; [|naive_solver congruence].
    destruct (verify_signature sha256_hex m0 path) as [[]|e] eqn:Ev; cbn.
    - apply verify_spec in Ev. split; [intros [= <-]; split_and!; [by exists p, raw, s|done|done]|].
      intros ((p' & raw' & s' & [= <-] & R & U & S) & _). congruence.
    - split; [done|]. intros ((p' & raw' & s' & [= <-] & R & U & S) & K & V). rewrite Er in R. simplify_eq. rewrite Eu in U. simplify_eq.
      rewrite Em in S. simplify_eq. rewrite <- (verify_spec m path) in V. congruence. }
  split; [exact Spec|]. assert (forall m s, set_signature (set_signature m s) sentinel = set_signature m sentinel) as Hset by done. split.
  - intros m y Hk Hy Ht. apply Spec. split_and!; [done..|]. right. exists y. split; [done|]. by rewrite signed_sign.
  - intros m y m' y' Hy Hy' Hn Hs Hl. apply Spec in Hl as (_ & _ & Hv).
    assert (signed_with m' = sha256_hex y) as Hw.
    { rewrite <- (signed_sign m y). unfold signed_with. by rewrite Hs. }
    destruct Hv as [Hv|(y2 & E2 & Hd)]; [congruence|]. congruence.
Qed.

(** *** The catalogue *)

(** An entry of a directory that shows an agent. *)
Definition shown v (dir entry : string) (m : AgentManifest) : Prop :=
  entry ∈ entries_of v dir /\ hidden entry = false /\ agent_at yaml_of_names v dir entry = Some m.
Lemma scan_dir_elem v dir scope s : s ∈ scan_dir yaml_of_names v dir scope <->
  exists e m, shown v dir e m /\ s = summary_of dir e scope m.
Proof.
  unfold scan_dir, shown. rewrite list_elem_of_omap. split.
  - intros (e & He & E). destruct (hidden e) eqn:Hh; [done|]. destruct (agent_at _ v dir e) as [m|] eqn:Em; [|done].
    injection E as <-. by exists e, m.
  - intros (e & m & (He & Hh & Em) & ->). exists e. by rewrite Hh, Em.
Qed.
Lemma get_from_dir v dir name m : get_manifest_from_dir yaml_of_names v dir name = Some m ->
  exists e, shown v dir e m /\ starts_with (name +:+ "@")%string e = true /\ mm_name (am_metadata m) = name.
Proof.
  unfold get_manifest_from_dir. intros Hh. apply head_Some_elem_of in Hh. apply list_elem_of_omap in Hh as (e & He & E).
  destruct (hidden e) eqn:Eh; [done|]. cbn in E. destruct (starts_with (name +:+ "@")%string e) eqn:Es; [|done]. cbn in E.
  destruct (agent_at _ v dir e) as [m0|] eqn:Em; [|done]. destruct (String.eqb_spec (mm_name (am_metadata m0)) name) as [En|]; [|done].
  injection E as <-. exists e. split_and!; try done.
Qed.
Lemma get_from_dir_None v dir name : get_manifest_from_dir yaml_of_names v dir name = None <->
  forall e m, shown v dir e m -> starts_with (name +:+ "@")%string e = true -> mm_name (am_metadata m) <> name.
Proof.
  unfold get_manifest_from_dir. split.
  - intros Hn e m (He & Hh & Em) Hs Heq. apply (not_elem_of_nil m).
    rewrite <- (proj1 (head_None _) Hn). apply list_elem_of_omap. exists e. split; [done|]. rewrite Hh, Hs, Em. cbn.
    by rewrite (proj2 (String.eqb_eq _ _) Heq).
  - intros Hn. apply head_None. apply elem_of_nil_inv. intros m (e & He & E)%list_elem_of_omap.
    destruct (hidden e) eqn:Eh; [done|]. cbn in E. destruct (starts_with (name +:+ "@")%string e) eqn:Es; [|done]. cbn in E.
    destruct (agent_at _ v dir e) as [m0|] eqn:Em; [|done]. destruct (String.eqb_spec (mm_name (am_metadata m0)) name) as [En|]; [|done].
    by apply (Hn e m0).
Qed.
Lemma scan_elem v user s : s ∈ scan yaml_of_names v user <->
  s ∈ scan_dir yaml_of_names v "/bin" ScopeSystem \/
  s ∈ scan_dir yaml_of_names v (user_bin user) ScopeUser /\ su_name s ∉ names_of (scan_dir yaml_of_names v "/bin" ScopeSystem).
Proof. unfold scan. rewrite elem_of_app, list_elem_of_filter. tauto. Qed.

(** A user's catalogue lists exactly the agents installed for everybody and the user's own whose name no agent of the
    system has.  Whatever manifest a spawn by that user takes its tools from is one of those: of the system if it is
    found there, else the user's, and then either listed or, when a system agent of that name lies in a directory of
    another name, hidden by it. *)
Theorem catalogue_exact v user :
  (forall s, s ∈ scan yaml_of_names v user <->
     (exists e m, shown v "/bin" e m /\ s = summary_of "/bin" e ScopeSystem m) \/
     (exists e m, shown v (user_bin user) e m /\ s = summary_of (user_bin user) e ScopeUser m) /\
       forall e m, shown v "/bin" e m -> mm_name (am_metadata m) <> su_name s) /\
  (forall name m, get_manifest yaml_of_names v name user = Some m ->
     mm_name (am_metadata m) = name /\ am_kind m = "Agent"%string /\
     exists e, (shown v "/bin" e m /\ summary_of "/bin" e ScopeSystem m ∈ scan yaml_of_names v user) \/
       (shown v (user_bin user) e m /\
        (summary_of (user_bin user) e ScopeUser m ∈ scan yaml_of_names v user \/
         exists e' m', shown v "/bin" e' m' /\ mm_name (am_metadata m') = name /\ starts_with (name +:+ "@")%string e' = false))) /\
  (forall name, get_manifest yaml_of_names v name user = None <->
     forall dir e m, dir = "/bin"%string \/ dir = user_bin user -> shown v dir e m ->
       starts_with (name +:+ "@")%string e = true -> mm_name (am_metadata m) <> name).
Proof.
  assert (forall s, su_name s ∉ names_of (scan_dir yaml_of_names v "/bin" ScopeSystem) <->
    forall e m, shown v "/bin" e m -> mm_name (am_metadata m) <> su_name s) as Hsys.
  { intros s. unfold names_of. rewrite list_elem_of_fmap. split.
    - intros Hn e m Hs Heq. apply Hn. exists (summary_of "/bin" e ScopeSystem m). split; [done|]. apply scan_dir_elem. by exists e, m.
    - intros Hn (s' & Hs & (e & m & Hm & ->)%scan_dir_elem). by apply (Hn e m). }
  assert (forall dir e m, shown v dir e m -> am_kind m = "Agent"%string) as Hkind.
  { intros dir e m (_ & _ & Em). unfold agent_at in Em. repeat case_match; simplify_eq. by apply String.eqb_eq. }
  split; [|split].
  - intros s. rewrite scan_elem, !scan_dir_elem, Hsys. done.
  - intros name m. unfold get_manifest. destruct (get_manifest_from_dir _ v "/bin" name) as [m0|] eqn:E0.
    + intros [= <-]. apply get_from_dir in E0 as (e & Hs & _ & Hn). split_and!; [done|by eapply Hkind|]. exists e. left. split; [done|].
      apply scan_elem. left. apply scan_dir_elem. by exists e, m0.
    + intros E. apply get_from_dir in E as (e & Hs & _ & Hn). split_and!; [done|by eapply Hkind|]. exists e. right. split; [done|].
      destruct (decide (name ∈ names_of (scan_dir yaml_of_names v "/bin" ScopeSystem))) as [Hi|Hi].
      * right. unfold names_of in Hi. apply list_elem_of_fmap in Hi as (s' & En & (e' & m' & Hs' & ->)%scan_dir_elem). exists e', m'.
        split_and!; [done|done|]. apply not_true_is_false. intros Hp. by apply (proj1 (get_from_dir_None v "/bin" name) E0 e' m' Hs' Hp).
      * left. apply scan_elem. right. split; [apply scan_dir_elem; by exists e, m|]. cbn. by rewrite Hn.
  - intros name. unfold get_manifest. destruct (get_manifest_from_dir _ v "/bin" name) as [m0|] eqn:E0.
    + split; [done|]. intros Hn. apply get_from_dir in E0 as (e & Hs & Hp & Hm). exfalso. apply (Hn "/bin"%string e m0); [by left|done..].
    + rewrite get_from_dir_None. split.
      * intros Hu dir e m [->| ->] Hs Hp; [|by apply (Hu e m)]. by apply (proj1 (get_from_dir_None v "/bin" name) E0 e m).
      * intros Hn e m. apply Hn. by right.
Qed.
End Facts.

(** *** The tools a spawned agent holds *)

Section Spawned.
Context {D : Type} `{!Disk D, !HashOrder, !Serde AgentManifest}.
Context {SS IS C : Type} `{!SessionStoreI SS, !InvocationStoreI IS, !Mpsc Signal C, !UuidText}.
Variables (yaml_of_names : list string -> string) (syscalls : list CapabilityResolver.Syscall).

End Spawned.

(** ** Two installed agents *)

Module Toy.
Import Mem ToyUuid Invocations.Toy QueueMpsc.

Definition researcher (version : string) (signature : option string) : AgentManifest := {|
  am_api_version := "avix/v1"; am_kind := "Agent";
  am_metadata := {| mm_name := "researcher"; mm_version := version; mm_description := ""; mm_author := ""; mm_license := None; mm_tags := [];
                    mm_created_at := None |};
  am_packaging := {| pk_source := None; pk_signature := signature |};
  am_spec := {| system_prompt_path := None; requested_capabilities := ["fs:*"%string]; entrypoint := entrypoint_default;
                as_tools := {| mt_required := ["fs/read"%string]; mt_optional := ["fs/write"; "web/get"]%string |};
                as_memory := memory_default; as_snapshot := snapshot_default;
                as_defaults := {| goal_template := Some "find {{topic}}"%string; md_environment := environment_default |};
                as_visibility := None; as_scope := None |} |}.
(** The text of a manifest is its version and its signature. *)
Definition text_of (m : AgentManifest) : string :=
  mm_version (am_metadata m) +:+ " " +:+ default EmptyString (pk_signature (am_packaging m)).
#[local] Instance manifest_text_form : Serde AgentManifest := {|
  to_string m := Ok (text_of m);
  from_str s := match split_once " " s with Some (v, g) => Ok (researcher v (Some g)) | None => Err "no version"%string end |}.
#[local] Instance list_order : HashOrder := fun _ m => map_to_list m.
#[local] Instance list_order_laws : HashOrderLaws.
Proof. by intros A m. Qed.
(** A digest: the length of the text. *)
Definition digest (s : string) : string := pretty (String.length s).
Definition no_names : list string -> string := fun _ => EmptyString.

Definition put (p c : string) (v : VfsRouter unit) : VfsRouter unit := match Vfs.write v p c with Ok v => v | Err _ => v end.
Definition installed : VfsRouter unit :=
  put "/users/alice/bin/researcher@2/manifest.yaml" "2 sha256:9" (put "/bin/researcher@1/manifest.yaml" "1 " booted_router).

Definition perms : UserToolPermissions := {| allowed_tools := ["fs/read"; "web/get"]%string; denied_tools := ["web/get"%string] |}.
Lemma tool_grants_exact_witness : exists g, resolve_tools (as_tools (am_spec (researcher "1" None))) perms "researcher" = Ok g /\
  "fs/read"%string ∈ g /\ ~ "web/get"%string ∈ g.
Proof.
  destruct (resolve_tools (as_tools (am_spec (researcher "1" None))) perms "researcher") as [g|e] eqn:E; [|discriminate E].
  exists g. split; [reflexivity|].
  destruct (proj1 (tool_grants_exact (as_tools (am_spec (researcher "1" None))) perms "researcher") g E) as [_ Hg].
  split; rewrite Hg; [right; split; [reflexivity|left; left]|]. intros [Hx|[Hx _]]; [|discriminate Hx].
  repeat (apply elem_of_cons in Hx as [Hx|Hx]; [discriminate Hx|]). by apply not_elem_of_nil in Hx.
Defined.

Lemma manifest_signature_witness : load_from_path no_names digest installed "/users/alice/bin/researcher@2/manifest.yaml" = Ok (researcher "2" (Some "sha256:9"%string)).
Proof.
  apply (proj2 (proj1 (manifest_signature no_names digest installed "/users/alice/bin/researcher@2/manifest.yaml") (researcher "2" (Some "sha256:9"%string)))).
  split_and!; [|reflexivity|].
  - exists "/users/alice/bin/researcher@2/manifest.yaml"%string, "2 sha256:9"%string, "2 sha256:9"%string. split_and!; vm_compute; reflexivity.
  - right. eexists. split; vm_compute; reflexivity.
Defined.
(** A changed text of another length is refused. *)
Example changed_refused : load_from_path no_names digest (put "/bin/x@1/manifest.yaml" "22 sha256:9" installed) "/bin/x@1/manifest.yaml"
  = Err (ManifestSignatureMismatch "/bin/x@1/manifest.yaml").
Proof. vm_compute. reflexivity. Qed.

Example the_catalogue : su_path <$> scan no_names installed "alice" = ["/bin/researcher@1/manifest.yaml"]%string.
Proof. vm_compute. reflexivity. Qed.
Lemma catalogue_exact_witness : exists m, get_manifest no_names installed "researcher" "alice" = Some m /\ am_kind m = "Agent"%string.
Proof.
  destruct (get_manifest no_names installed "researcher" "alice") as [m|] eqn:E; [|vm_compute in E; discriminate E].
  exists m. split; [reflexivity|].
  apply (proj1 (proj2 (catalogue_exact no_names digest installed "alice")) "researcher"%string m E).
Defined.

Definition scanning : ProcConfig :=
  {| master_key := "k"; runtime_dir := "/run/avix"; has_factory := true; manifest_scanner := Some (manifest_lookup no_names installed) |}.
Definition with_registry : Proc (SS := tables_t) (IS := InvocationStore.t tables_t (gmap string string)) (C := QueueMpsc.queue Signal) :=
  {| process_table := ∅; active_invocations := ∅; active_sessions := ∅; invocation_store := None; session_store := None;
     Proc.tool_registry := Some sample_registry; task_handles := ∅;
     channels := {| SignalChannels.inner := ∅; SignalChannels.heap := ∅ |}; launched := []; aborted := [] |}.
End Toy.
