(* ===== verification/Packages.v ===== *)
(** * Packages: where they come from, how they are installed, whose keys are trusted

    Models [service/package_source.rs], [service/installer.rs], [service/install_receipt.rs],
    [agent_manifest/installer.rs], [agent_manifest/git_fetch.rs], [packaging/trust.rs], [packaging/gpg.rs] and
    [PackageType::detect] of [packaging/mod.rs].

    [InstallWorld] is what the installers touch: files, the network and [git].  Outside the model: the decoders of an
    archive ([untar]: the entries of a gzip or xz stream), SHA-256 ([sha256_hex], in hexadecimal), OpenPGP ([Pgp]), and
    serde's text forms.  A path is the text the code builds; [path_join] is [Path::join].  [os] and [arch] are
    [std::env::consts]. *)

From S2P Require Import Prelude Types ToolRegistry Vfs Services Text Ipc Store Manifests History Json.
Local Open Scope Z_scope.

(** ** The world of the installers *)

Inductive GetError : Type := Unreachable (e : string) | BadBody (e : string).
Class InstallWorld (F : Type) : Type := {
  w_read : F -> string -> result string string;
  w_exists : F -> string -> bool;
  (** the names of a directory, each with whether it is a directory *)
  w_entries : F -> string -> result string (list (string * bool));
  w_write : F -> string -> string -> result string unit * F;
  w_create_dir_all : F -> string -> result string unit * F;
  w_rename : F -> string -> string -> result string unit * F;
  w_remove_dir_all : F -> string -> result string unit * F;
  w_remove_file : F -> string -> result string unit * F;
  w_set_executable : F -> string -> result string unit * F;
  w_temp_dir : F -> result string string * F;
  w_get : F -> string -> result GetError string;
  w_get_json : F -> string -> result GetError json;
  (** the status of [git clone --depth=1 url dest]: success, and the code as text *)
  w_git_clone : F -> string -> string -> result string (bool * string) * F }.

(** What the installers rely on: a file that was written is read back, and other files are not touched, as long as
    neither path climbs; making directories leaves the files alone; a file that was removed is gone. *)
Class InstallWorldLaws (F : Type) `{!InstallWorld F} (parts : string -> list string) : Prop := {
  read_written (w w' : F) p c : w_write w p c = (Ok (), w') -> w_read w' p = Ok c;
  read_other (w w' : F) p c q : w_write w p c = (Ok (), w') -> ".."%string ∉ parts p -> ".."%string ∉ parts q -> parts p <> parts q ->
    w_read w' q = w_read w q;
  read_created (w : F) d q : w_read (w_create_dir_all w d).2 q = w_read w q;
  read_removed (w w' : F) p : w_remove_file w p = (Ok (), w') -> is_ok (w_read w' p) = false }.

Record TarEntry : Type := { tar_path : result string string; tar_is_file : bool; tar_data : result string string }.

Fixpoint split_all (c : ascii) (s : string) : list string :=
  match s with
  | EmptyString => [EmptyString]
  | String d t =>
      if bool_decide (c = d) then EmptyString :: split_all c t
      else match split_all c t with p :: ps => String d p :: ps | [] => [String d EmptyString] end
  end.
(** [Path::components]: empty parts are dropped, and dots but for a leading one; ["/"] stands for the root. *)
Definition path_components (s : string) : list string :=
  let parts := split_all "/" s in
  let named := base.filter (fun p => p <> EmptyString /\ p <> "."%string) parts in
  if starts_with "/" s then "/"%string :: named
  else match parts with p :: _ => if String.eqb p "." then p :: named else named | [] => named end.

(** ** [package_source.rs] *)

Inductive PackageSource : Type :=
| HttpUrl (url : string) | LocalPath (path : string) | GitHubRelease (url : string) (checksum_url : option string)
| GitClone (url : string).
(** [splitn(3, '/')] *)
Definition splitn3 (s : string) : list string :=
  match split_once "/" s with
  | None => [s]
  | Some (a, r) => match split_once "/" r with None => [a; r] | Some (b, c) => [a; b; c] end
  end.
Fixpoint trim_start_text (n : nat) (pat s : string) : string :=
  match n with O => s | S n => match strip_prefix pat s with Some r => trim_start_text n pat r | None => s end end.
Definition asset_text (a : json) (key : string) : string := default EmptyString (as_str (jindex a key)).
(** The assets in order: the last one of the candidate's name, and the last checksum file. *)
Definition scan_assets (candidate : string) (assets : list json) (found : option string * option string) : option string * option string :=
  foldl (fun '(url, sum) a =>
    let n := asset_text a "name" in
    (if String.eqb n candidate then Some (asset_text a "browser_download_url") else url,
     if String.eqb n "checksums.sha256" then Some (asset_text a "browser_download_url") else sum)) found assets.
Fixpoint scan_candidates (cs : list string) (assets : list json) (found : option string * option string) : option string * option string :=
  match cs with
  | [] => found
  | c :: cs => let found := scan_assets c assets found in if bool_decide (is_Some found.1) then found else scan_candidates cs assets found
  end.

Section Packages.
Context {F : Type} `{!InstallWorld F}.
Variables (untar : bool -> string -> result string (list (result string TarEntry))) (sha256_hex : string -> string).
Variables (os arch : string).

Definition github_json_error (e : GetError) : AvixError :=
  match e with Unreachable e => ConfigParse ("GitHub API: " +:+ e)%string | BadBody e => ConfigParse ("GitHub API json: " +:+ e)%string end.
Definition release_candidates (name tag : string) (release : json) : list string :=
  let v := trim_start_matches "v" (default tag (as_str (jindex release "tag_name"))) in
  [name +:+ "-v" +:+ v +:+ "-" +:+ os +:+ "-" +:+ arch +:+ ".tar.xz"; name +:+ "-v" +:+ v +:+ ".tar.xz"; name +:+ "-" +:+ v +:+ ".tar.xz"]%string.
Definition resolve_github (w : F) (spec : string) (ver : option string) : result AvixError PackageSource :=
  '(owner, repo, name) ← match splitn3 spec with
    | [o; r; n] => Ok (o, r, n)
    | [o; n] => Ok (o, "avix"%string, n)
    | _ => Err (ConfigParse ("invalid github: source '" +:+ spec +:+ "'")%string)
    end;
  let tag := default "latest"%string ver in
  let base := ("https://api.github.com/repos/" +:+ owner +:+ "/" +:+ repo +:+ "/releases/")%string in
  release ← map_err github_json_error (w_get_json w (if String.eqb tag "latest" then base +:+ "latest" else base +:+ "tags/" +:+ tag)%string);
  assets ← ok_or (ConfigParse "GitHub release has no assets") (match jindex release "assets" with JArr l => Some l | _ => None end);
  match scan_candidates (release_candidates name tag release) assets (None, None) with
  | (Some url, sum) => Ok (GitHubRelease url sum)
  | (None, _) => Err (ConfigParse ("no matching asset for '" +:+ name +:+ "' in GitHub release " +:+ tag)%string)
  end.
Definition resolve_source (w : F) (source : string) (ver : option string) : result AvixError PackageSource :=
  match strip_prefix "github:" source with
  | Some spec => resolve_github w spec ver
  | None =>
      if starts_with "github.com/" source then resolve_github w (trim_start_text (String.length source) "github.com/" source) ver
      else match strip_prefix "git:" source with
      | Some url => Ok (GitClone url)
      | None =>
          if starts_with "https://" source || starts_with "http://" source then Ok (HttpUrl source)
          else match strip_prefix "file://" source with
          | Some p => Ok (LocalPath p)
          | None =>
              if starts_with "/" source || starts_with "./" source || starts_with "../" source then Ok (LocalPath source)
              else Err (ConfigParse ("unrecognized source: " +:+ source)%string)
          end
      end
  end.

(** ** [service/installer.rs] *)

Definition IO (A : Type) : Type := F -> result AvixError A * F.
Definition io_ret {A} (a : A) : IO A := fun w => (Ok a, w).
Definition io_fail {A} (e : AvixError) : IO A := fun w => (Err e, w).
Definition io_bind {A B} (m : IO A) (f : A -> IO B) : IO B := fun w =>
  let '(r, w) := m w in match r with Ok a => f a w | Err e => (Err e, w) end.
#[local] Instance IO_bind : MBind IO := fun A B f m => io_bind m f.
(** An operation of the operating system; its error becomes a text. *)
Definition sys {A} (op : F -> result string A * F) : IO A := fun w => let '(r, w) := op w in (map_err ConfigParse r, w).
Definition pure_io {A} (r : result AvixError A) : IO A := fun w => (r, w).

Definition fetched (what : string) (r : result GetError string) : result AvixError string :=
  match r with
  | Ok b => Ok b
  | Err (Unreachable e) => Err (ConfigParse ("fetch " +:+ what +:+ ": " +:+ e)%string)
  | Err (BadBody e) => Err (ConfigParse ("fetch body " +:+ what +:+ ": " +:+ e)%string)
  end.
Definition fetch (source : string) : IO string := fun w =>
  (match strip_prefix "file://" source with
   | Some p => map_err (fun e => ConfigParse ("cannot read " +:+ p +:+ ": " +:+ e)%string) (w_read w p)
   | None =>
       if starts_with "https://" source || starts_with "http://" source then fetched source (w_get w source)
       else Err (ConfigParse ("unsupported source scheme: " +:+ source)%string)
   end, w).
Definition static_verify_checksum (bytes expected : string) : result AvixError unit :=
  match split_once ":" expected with
  | None => Err (ConfigParse ("invalid checksum format: " +:+ expected)%string)
  | Some (algo, hex) =>
      if String.eqb algo "sha256" then
        if String.eqb (sha256_hex bytes) hex then Ok ()
        else Err (ConfigParse ("checksum mismatch: expected " +:+ hex +:+ " got " +:+ sha256_hex bytes)%string)
      else Err (ConfigParse ("unsupported checksum algorithm: " +:+ algo)%string)
  end.
(** The first six bytes of an xz stream. *)
Definition xz_magic : string := String "253" (String "055" (String "122" (String "088" (String "090" (String "000" EmptyString))))).
Definition is_xz (bytes : string) : bool := starts_with xz_magic bytes.

(** One entry of an archive: whether it was the manifest. *)
Definition entry_path (dest : string) (parts : list string) : string := path_join dest (str_join "/" parts).
Definition extract_entry (dest : string) (e : TarEntry) : IO bool :=
  raw ← pure_io (map_err ConfigParse (tar_path e));
  match tail (path_components raw) with
  | [] => io_ret false
  | p :: ps =>
      let parts := p :: ps in
      let out := entry_path dest parts in
      _ ← sys (fun w => w_create_dir_all w (entry_path dest (removelast parts)));
      if tar_is_file e then
        data ← pure_io (map_err ConfigParse (tar_data e));
        _ ← sys (fun w => w_write w out data);
        _ ← (if String.eqb p "bin" then sys (fun w => w_set_executable w out) else io_ret ());
        io_ret (bool_decide (parts = ["manifest.yaml"%string]))
      else io_ret false
  end.
Fixpoint extract_entries (dest : string) (es : list (result string TarEntry)) (found : bool) : IO bool :=
  match es with
  | [] => io_ret found
  | Err e :: _ => io_fail (ConfigParse ("tarball entry: " +:+ e)%string)
  | Ok e :: es => f ← extract_entry dest e; extract_entries dest es (found || f)
  end.
Definition extract_tarball (bytes dest : string) : IO unit :=
  es ← pure_io (map_err (fun e => ConfigParse ("tarball read: " +:+ e)%string) (untar (is_xz bytes) bytes));
  found ← extract_entries dest es false;
  if (found : bool) then io_ret () else io_fail (ConfigParse "tarball missing required manifest.yaml file").

Record InstallRequest : Type := { ir_source : string; ir_checksum : option string; ir_autostart : bool }.
Record InstallResult : Type := {
  res_name : string; res_version : string; res_dir : string; res_receipt : string; res_tools : list string }.
Record InstallReceipt : Type := {
  rc_name : string; rc_version : string; rc_source_url : option string; rc_checksum : option string; rc_installed_at : Z;
  rc_unit_path : string; rc_binary_path : string }.
Definition services_dir (root : string) : string := path_join (path_join root "data") "services".
Definition versioned (name version : string) : string := name +:+ "@" +:+ version.
Definition service_dir (root : string) (u : ServiceUnit) : string := path_join (services_dir root) (versioned (u_name u) (version u)).
Definition check_conflicts (root : string) (u : ServiceUnit) : IO unit := fun w =>
  (if w_exists w (service_dir root u)
   then Err (ConfigParse ("service version already installed: " +:+ versioned (u_name u) (version u))%string) else Ok (), w).

(** Dropping a temporary directory, and a guard that was not committed. *)
Definition drop_temp (tmp : string) (w : F) : F := (w_remove_dir_all w tmp).2.
Definition drop_guard (dir : string) (w : F) : F := if w_exists w dir then (w_remove_dir_all w dir).2 else w.

(** Move a directory that was prepared to its place; [finish] is what follows under the guard. *)
Definition install_into {A} (tmp dir : string) (finish : IO A) : IO A := fun w =>
  match w_create_dir_all w dir with
  | (Err e, w) => (Err (ConfigParse e), drop_temp tmp (drop_guard dir w))
  | (Ok _, w) =>
      match w_rename w tmp dir with
      | (Err e, w) => (Err (ConfigParse ("install failed and rolled back: " +:+ e)%string),
                       drop_guard dir (w_remove_dir_all (drop_temp tmp w) dir).2)
      | (Ok _, w) =>
          let '(r, w) := finish w in
          match r with Ok a => (Ok a, drop_temp tmp w) | Err e => (Err e, drop_temp tmp (drop_guard dir w)) end
      end
  end.
(** Work in a temporary directory that is dropped when it fails. *)
Definition in_temp {A B} (prepare : string -> IO A) (place : string -> A -> IO B) : IO B := fun w =>
  match w_temp_dir w with
  | (Err e, w) => (Err (ConfigParse e), w)
  | (Ok tmp, w) =>
      let '(r, w) := prepare tmp w in
      match r with Err e => (Err e, drop_temp tmp w) | Ok a => place tmp a w end
  end.

Variables (unit_of_yaml : string -> result string ServiceManifest) (receipt_text : InstallReceipt -> result string string).
Definition load_unit (path : string) : IO ServiceUnit := fun w =>
  (c ← map_err (fun e => ConfigParse ("cannot read " +:+ path +:+ ": " +:+ e)%string) (w_read w path);
   m ← map_err (fun e => ConfigParse ("manifest.yaml parse error: " +:+ e)%string) (unit_of_yaml c);
   Ok (from_manifest m), w).
Definition install_service (root : string) (now : Z) (req : InstallRequest) : IO InstallResult :=
  bytes ← fetch (ir_source req);
  _ ← pure_io (match ir_checksum req with Some e => static_verify_checksum bytes e | None => Ok () end);
  in_temp
    (fun tmp => _ ← extract_tarball bytes tmp; u ← load_unit (path_join tmp "manifest.yaml"); _ ← check_conflicts root u; io_ret u)
    (fun tmp u =>
       let dir := service_dir root u in
       let receipt := {| rc_name := u_name u; rc_version := version u; rc_source_url := Some (ir_source req); rc_checksum := ir_checksum req;
                         rc_installed_at := now; rc_unit_path := path_join dir "manifest.yaml"; rc_binary_path := binary (service u) |} in
       install_into tmp dir
         (t ← pure_io (map_err ConfigParse (receipt_text receipt));
          _ ← sys (fun w => w_write w (path_join dir ".install.json") t);
          io_ret {| res_name := u_name u; res_version := version u; res_dir := dir; res_receipt := path_join dir ".install.json";
                    res_tools := provides (Services.tools u) |})).

(** ** [agent_manifest/installer.rs] *)

Inductive InstallScope : Type := InstallSystem | InstallUser (u : string).
Record AgentInstallRequest : Type := {
  ar_source : string; ar_version : option string; ar_scope : InstallScope; ar_checksum : option string; ar_no_verify : bool }.
Record AgentInstallResult : Type := { agr_name : string; agr_version : string; agr_dir : string }.
Context `{!Serde AgentManifest}.

(** Also [fetch_source_bytes] of [pkg_.rs]; the agent installer never gets here with a git source. *)
Definition fetch_source (s : PackageSource) : IO string := fun w =>
  (match s with
   | HttpUrl url | GitHubRelease url _ => fetched url (w_get w url)
   | LocalPath p => map_err (fun e => ConfigParse ("read " +:+ p +:+ ": " +:+ e)%string) (w_read w p)
   | GitClone _ => Err (ConfigParse "git clone not implemented")
   end, w).
Definition git_clone_to (url dest : string) : IO unit := fun w =>
  match w_git_clone w url dest with
  | (Err e, w) => (Err (ConfigParse ("git clone failed: " +:+ e)%string), w)
  | (Ok (ok, code), w) => (if ok then Ok () else Err (ConfigParse ("git clone exited with code: " +:+ code)%string), w)
  end.
(** The first word of the first line of a checksum file. *)
Definition first_checksum (text : string) : option string := head (str_lines text) ≫= (fun l => head (split_whitespace l)).
Definition fetch_and_verify_checksum_file (bytes url : string) : IO unit := fun w =>
  (t ← match w_get w url with
       | Ok t => Ok t
       | Err (Unreachable e) => Err (ConfigParse ("fetch checksum " +:+ url +:+ ": " +:+ e)%string)
       | Err (BadBody e) => Err (ConfigParse ("read checksum " +:+ url +:+ ": " +:+ e)%string)
       end;
   hex ← ok_or (ConfigParse "invalid checksum file") (first_checksum t);
   static_verify_checksum bytes ("sha256:" +:+ hex), w).
Definition verify_agent (req : AgentInstallRequest) (s : PackageSource) (bytes : string) : IO unit :=
  if ar_no_verify req then io_ret ()
  else match ar_checksum req, s with
       | Some e, _ => pure_io (static_verify_checksum bytes e)
       | None, GitHubRelease _ (Some url) => fetch_and_verify_checksum_file bytes url
       | None, _ => io_ret ()
       end.
Definition read_manifest (tmp : string) : IO AgentManifest := fun w =>
  (c ← map_err (fun e => ConfigParse ("cannot read manifest.yaml: " +:+ e)%string) (w_read w (path_join tmp "manifest.yaml"));
   Manifests.from_yaml c, w).
Definition agents_dir (root : string) (s : InstallScope) : string :=
  match s with
  | InstallSystem => path_join (path_join root "data") "bin"
  | InstallUser u => path_join (path_join (path_join (path_join root "data") "users") u) "bin"
  end.
Definition agent_dir (root : string) (s : InstallScope) (m : AgentManifest) : string :=
  path_join (agents_dir root s) (versioned (mm_name (am_metadata m)) (mm_version (am_metadata m))).
(** A version that is installed is refused; then the package is moved into place. *)
Definition place_agent (root : string) (s : InstallScope) (tmp : string) (m : AgentManifest) : IO AgentInstallResult := fun w =>
  let dir := agent_dir root s m in
  if w_exists w dir then
    (Err (ConfigParse ("agent version already installed: " +:+ versioned (mm_name (am_metadata m)) (mm_version (am_metadata m)))%string), drop_temp tmp w)
  else install_into tmp dir (io_ret {| agr_name := mm_name (am_metadata m); agr_version := mm_version (am_metadata m); agr_dir := dir |}) w.
Definition install_agent (root : string) (req : AgentInstallRequest) : IO AgentInstallResult := fun w =>
  match resolve_source w (ar_source req) (ar_version req) with
  | Err e => (Err e, w)
  | Ok (GitClone url) =>
      in_temp (fun tmp => _ ← git_clone_to url tmp; read_manifest tmp) (place_agent root (ar_scope req)) w
  | Ok s =>
      (bytes ← fetch_source s; _ ← verify_agent req s bytes;
       in_temp (fun tmp => _ ← extract_tarball bytes tmp; read_manifest tmp) (place_agent root (ar_scope req))) w
  end.

(** ** [packaging/mod.rs]: what a directory holds *)

Inductive PackageType : Type := PkgAgent | PkgService.
Definition detect_package (kind_of_yaml : string -> result string string) (dir : string) (w : F) : result AvixError PackageType :=
  c ← map_err (fun _ => ConfigParse "manifest.yaml not found") (w_read w (path_join dir "manifest.yaml"));
  k ← map_err (fun e => ConfigParse ("manifest.yaml parse error: " +:+ e)%string) (kind_of_yaml c);
  if String.eqb k "Agent" then Ok PkgAgent else if String.eqb k "Service" then Ok PkgService
  else Err (ConfigParse ("unknown kind: " +:+ k)%string).
End Packages.

(** ** [packaging/trust.rs] and [packaging/gpg.rs] *)

Record TrustedKey : Type := { fingerprint : string; label : string; added_at : Z; allowed_sources : list string }.
Definition strip_suffix (pat s : string) : option string :=
  let n := (String.length s - String.length pat)%nat in
  if bool_decide (String.length pat <= String.length s)%nat && String.eqb (str_drop n s) pat then Some (str_take n s) else None.
Definition glob_match (pattern value : string) : bool :=
  match strip_suffix "/*" pattern with
  | Some p => starts_with (p +:+ "/") value || String.eqb value p
  | None => match strip_suffix "*" pattern with Some p => starts_with p value | None => String.eqb pattern value end
  end.
Definition allows_source (k : TrustedKey) (source : string) : bool :=
  match allowed_sources k with [] => true | l => existsb (fun p => glob_match p source) l end.
(** [path.extension() == Some("yaml")] *)
Definition is_yaml_name (n : string) : bool :=
  match rsplit_once "." n with Some (String _ _, e) => String.eqb e "yaml" | _ => false end.

(** OpenPGP: the fingerprint of an armoured key (upper case), a detached signature with its issuer, and its check. *)
Record Pgp (Sig : Type) : Type := {
  pgp_fingerprint : string -> result string string; pgp_signature : string -> result string Sig;
  pgp_key : string -> result string unit;
  pgp_issuer : Sig -> option string; pgp_verify : Sig -> string -> string -> result string unit }.
Arguments pgp_fingerprint {Sig}. Arguments pgp_signature {Sig}. Arguments pgp_key {Sig}. Arguments pgp_issuer {Sig}. Arguments pgp_verify {Sig}.
Inductive VerifiedBy : Type := Official | Trusted (k : TrustedKey).

Section Trust.
Context {F : Type} `{!InstallWorld F, !Serde TrustedKey} {Sig : Type} (pgp : Pgp Sig) (AVIX_PUBLIC_KEY : string).
#[local] Existing Instance IO_bind.
Definition trust_dir (root : string) : string := path_join root "etc/avix/trusted-keys".
Definition key_path (dir fp : string) : string := path_join dir (fp +:+ ".asc").
Definition meta_path (dir fp : string) : string := path_join dir (fp +:+ ".meta.yaml").
Definition extract_fingerprint (key_asc : string) : result AvixError string :=
  map_err (fun e => ConfigParse ("invalid key: " +:+ e)%string) (pgp_fingerprint pgp key_asc).
Definition trust_add (dir : string) (now : Z) (key_asc lbl : string) (sources : list string) : IO (F := F) TrustedKey :=
  _ ← sys (fun w => w_create_dir_all w dir);
  fp ← pure_io (extract_fingerprint key_asc);
  _ ← (fun w => (if w_exists w (key_path dir fp) then Err (ConfigParse ("key already trusted: " +:+ fp)%string) else Ok (), w));
  let k := {| fingerprint := fp; label := lbl; added_at := now; allowed_sources := sources |} in
  _ ← sys (fun w => w_write w (key_path dir fp) key_asc);
  y ← pure_io (map_err ConfigParse (to_string k));
  _ ← sys (fun w => w_write w (meta_path dir fp) y);
  io_ret k.
Definition read_key (w : F) (path : string) : result AvixError TrustedKey :=
  c ← map_err ConfigParse (w_read w path); map_err ConfigParse (from_str c).
Definition trust_list (dir : string) (w : F) : result AvixError (list TrustedKey) :=
  if w_exists w dir then
    es ← map_err ConfigParse (w_entries w dir);
    ks ← mapM (fun n => read_key w (path_join dir n)) (base.filter (fun n => is_yaml_name n = true) es.*1);
    Ok (sort_by_key added_at ks)
  else Ok [].
Definition trust_remove (dir fp : string) : IO (F := F) unit :=
  _ ← (fun w => (if w_exists w (key_path dir fp) then Ok () else Err (ConfigParse ("key not found: " +:+ fp)%string), w));
  _ ← sys (fun w => w_remove_file w (key_path dir fp));
  sys (fun w => w_remove_file w (meta_path dir fp)).
Definition trust_get (dir fp : string) (w : F) : result AvixError (option (string * TrustedKey)) :=
  if w_exists w (key_path dir fp) then
    asc ← map_err ConfigParse (w_read w (key_path dir fp)); k ← read_key w (meta_path dir fp); Ok (Some (asc, k))
  else Ok None.
Definition not_in_keyring : AvixError :=
  ConfigParse "signing key is not in the official keyring or trust store — add it with `avix package trust add`".
Definition verify_package (dir data sig_asc source : string) (w : F) : result AvixError VerifiedBy :=
  sig ← map_err (fun e => ConfigParse ("parse signature: " +:+ e)%string) (pgp_signature pgp sig_asc);
  _ ← map_err (fun e => ConfigParse ("parse official key: " +:+ e)%string) (pgp_key pgp AVIX_PUBLIC_KEY);
  if is_ok (pgp_verify pgp sig AVIX_PUBLIC_KEY data) then Ok Official
  else match pgp_issuer pgp sig with
       | None => Err not_in_keyring
       | Some fp =>
           o ← trust_get dir fp w;
           match o with
           | None => Err not_in_keyring
           | Some (asc, k) =>
               if negb (allows_source k source) then
                 Err (ConfigParse ("key '" +:+ label k +:+ "' (" +:+ fp +:+ ") is not trusted for source '" +:+ source +:+ "'")%string)
               else
                 _ ← map_err (fun e => ConfigParse ("load trusted key: " +:+ e)%string) (pgp_key pgp asc);
                 _ ← map_err (fun e => ConfigParse ("signature invalid: " +:+ e)%string) (pgp_verify pgp sig asc data);
                 Ok (Trusted k)
           end
       end.
End Trust.

(** ** [packaging/validator.rs] *)

Record ValidationError : Type := { ve_path : string; ve_message : string }.
Section Validator.
Context {F : Type} `{!InstallWorld F, !Serde AgentManifest}.
Variables (kind_of_yaml : string -> result string string) (unit_of_yaml : string -> result string ServiceManifest).
Definition in_manifest (m : string) : ValidationError := {| ve_path := "manifest.yaml"; ve_message := m |}.
Definition when (b : bool) (e : ValidationError) : list ValidationError := if b then [e] else [].
Definition empty (s : string) : bool := String.eqb s "".
Definition validate_agent (dir : string) (w : F) : list ValidationError :=
  match w_read w (path_join dir "manifest.yaml") with
  | Err e => [in_manifest ("cannot read: " +:+ e)]
  | Ok c =>
      match Manifests.from_yaml c with
      | Err e => [in_manifest ("parse error: " +:+ avix_error_to_string e)]
      | Ok m =>
          when (empty (mm_name (am_metadata m))) (in_manifest "metadata.name is empty") ++
          when (empty (mm_version (am_metadata m))) (in_manifest "metadata.version is empty") ++
          match system_prompt_path (am_spec m) with
          | Some p => when (negb (w_exists w (path_join dir p))) {| ve_path := p; ve_message := "systemPromptPath references missing file" |}
          | None => []
          end
      end
  end.
Definition load_manifest (path : string) (w : F) : result AvixError ServiceManifest :=
  c ← map_err (fun e => ConfigParse ("cannot read " +:+ path +:+ ": " +:+ e)%string) (w_read w path);
  map_err (fun e => ConfigParse ("manifest.yaml parse error: " +:+ e)%string) (unit_of_yaml c).
Definition in_bin (m : string) : ValidationError := {| ve_path := "bin/"; ve_message := m |}.
Definition validate_service (dir : string) (w : F) : list ValidationError :=
  match load_manifest (path_join dir "manifest.yaml") w with
  | Err e => [in_manifest ("cannot read or parse: " +:+ avix_error_to_string e)]
  | Ok m =>
      when (empty (m_name m)) (in_manifest "metadata.name is empty") ++
      when (empty (m_version m)) (in_manifest "metadata.version is empty") ++
      when (empty (binary (m_service m))) (in_manifest "spec.binary is empty")
  end ++
  let bin := path_join dir "bin" in
  if w_exists w bin then
    when (match w_entries w bin with Ok (_ :: _) => false | _ => true end) (in_bin "bin/ directory is empty")
  else [in_bin "bin/ directory is missing (build the binary first)"].
(** [Err]: the errors found, at least one. *)
Definition validate (dir : string) (w : F) : result (list ValidationError) PackageType :=
  match detect_package kind_of_yaml dir w with
  | Err e => Err [{| ve_path := dir; ve_message := avix_error_to_string e |}]
  | Ok t =>
      match match t with PkgAgent => validate_agent dir w | PkgService => validate_service dir w end with
      | [] => Ok t
      | es => Err es
      end
  end.
End Validator.

(** ** What an archive can write *)

Lemma split_all_no_sep c s p : p ∈ split_all c s -> str_contains_char c p = false.
Proof.
  revert p. induction s as [|d s IH]; intros p; cbn.
  - by intros ->%list_elem_of_singleton.
  - case_bool_decide as Hd.
    + intros [->|Hp]%elem_of_cons; [done|by apply IH].
    + destruct (split_all c s) as [|q qs] eqn:E.
      * intros ->%list_elem_of_singleton. cbn. by rewrite bool_decide_false.
      * intros [->|Hp]%elem_of_cons; [|apply IH; by right]. cbn. rewrite bool_decide_false by done. apply IH. by left.
Qed.
Definition ordinary (p : string) : Prop := p <> EmptyString /\ p <> ".."%string /\ str_contains_char "/" p = false.
Lemma split_all_ne c s : split_all c s <> [].
Proof. destruct s as [|d s]; cbn; [done|]. case_bool_decide; [done|]. by destruct (split_all c s). Qed.
Lemma split_all_app c a b : split_all c (a +:+ String c b) = split_all c a ++ split_all c b.
Proof.
  induction a as [|d a IH]; cbn; [by rewrite bool_decide_true|]. case_bool_decide; rewrite IH; [done|].
  by destruct (split_all c a) eqn:E; [destruct (split_all_ne c a)|].
Qed.
Lemma split_all_single c p : str_contains_char c p = false -> split_all c p = [p].
Proof.
  induction p as [|d p IH]; cbn; [done|]. case_bool_decide as Hd; [done|]. intros Hp. by rewrite IH.
Qed.
Lemma ends_app a p : p <> EmptyString -> ends_with_slash (a +:+ p) = ends_with_slash p.
Proof.
  intros Hp. induction a as [|c a IH]; [done|]. cbn. rewrite <- IH. destruct (a +:+ p)%string eqn:E; [|done]. by destruct a, p.
Qed.
Lemma ends_no_slash p : p <> EmptyString -> str_contains_char "/" p = false -> ends_with_slash p = false.
Proof.
  intros Hp. induction p as [|c p IH]; [done|]. cbn. intros [Hc Hs]%orb_false_iff.
  destruct p as [|c' p]; [|by apply IH]. apply bool_decide_eq_false in Hc. by apply bool_decide_eq_false.
Qed.
(** Joining a name to a path adds a component. *)
Lemma components_join d p : d <> EmptyString -> ends_with_slash d = false -> ordinary p -> p <> "."%string ->
  path_components (path_join d p) = path_components d ++ [p] /\ path_join d p <> EmptyString /\ ends_with_slash (path_join d p) = false.
Proof.
  intros Hd He (Hp & _ & Hs) Hdot. unfold path_join. rewrite He, bool_decide_false by done. cbn [orb].
  assert (starts_with "/" p = false) as ->.
  { destruct (starts_with "/" p) eqn:E; [|done]. apply starts_with_spec in E as [r ->]. cbn in Hs. by rewrite bool_decide_true in Hs. }
  split_and!.
  - unfold path_components. change ("/" +:+ p)%string with (String "/" p). rewrite split_all_app, (split_all_single _ p Hs).
    rewrite filter_app, (filter_cons _ p), decide_True, filter_nil by done.
    assert (starts_with "/" (d +:+ String "/" p) = starts_with "/" d) as ->.
    { destruct d as [|c d]; [done|]. apply eq_true_iff_eq. rewrite !starts_with_spec. split.
      - intros [r E]. injection E as -> _. by exists d.
      - intros [r E]. injection E as -> _. by eexists. }
    destruct (starts_with "/" d); [done|]. destruct (split_all "/" d) as [|x xs] eqn:E; [by destruct (split_all_ne "/" d)|].
    cbn [app]. by destruct (String.eqb x ".").
  - by destruct d.
  - change (d +:+ "/" +:+ p)%string with (d +:+ String "/" p)%string. rewrite ends_app by done.
    change (ends_with_slash ("/" +:+ p) = false). rewrite ends_app by done. by apply ends_no_slash.
Qed.
(** Skipping the first component leaves names and parent steps only. *)
Lemma components_tail raw p : ".."%string ∉ path_components raw -> p ∈ tail (path_components raw) -> ordinary p.
Proof.
  unfold path_components. set (named := base.filter _ _).
  assert (forall q, q ∈ named -> q <> EmptyString /\ str_contains_char "/" q = false) as Hn.
  { intros q Hq. unfold named in Hq. apply list_elem_of_filter in Hq as ((? & _) & Hq). split; [done|]. by eapply split_all_no_sep. }
  assert (forall q, ".."%string ∉ named -> q ∈ named -> ordinary q) as Ho.
  { intros q Hdd Hq. destruct (Hn q Hq). split_and!; [done| |done]. by intros ->. }
  assert (".."%string ∉ named -> forall q, q ∈ tail named -> ordinary q) as Ht.
  { intros Hdd q Hq. apply Ho; [done|]. destruct named; [done|]. by right. }
  destruct (starts_with "/" raw); cbn [tail]; [intros Hd; apply Ho; set_solver|].
  destruct (split_all "/" raw) as [|x xs]; [intros Hd; by apply Ht|].
  destruct (String.eqb x "."); cbn [tail]; [intros Hd; apply Ho; set_solver|intros Hd; by apply Ht].
Qed.

Section Confined.
Context {F : Type} `{!InstallWorld F}.
Variables (untar : bool -> string -> result string (list (result string TarEntry))) (P : F -> Prop) (dest : string).
Definition below (path : string) : Prop := exists parts, Forall ordinary parts /\ path = entry_path dest parts.
Hypothesis Below : forall w path, below path -> P w ->
  P (w_create_dir_all w path).2 /\ P (w_set_executable w path).2 /\ forall c, P (w_write w path c).2.
Definition io_keeps {A} (m : IO (F := F) A) : Prop := forall w, P w -> P (m w).2.

Lemma io_keeps_bind {A B} (m : IO A) (f : A -> IO B) : io_keeps m -> (forall a, io_keeps (f a)) -> io_keeps (io_bind m f).
Proof. intros Hm Hf w Pw. unfold io_bind. specialize (Hm w Pw). destruct (m w) as [[a|e] w1]; [by apply Hf|done]. Qed.
Lemma io_keeps_pure {A} (r : result AvixError A) : io_keeps (pure_io r).
Proof. by intros w Pw. Qed.
Lemma io_keeps_sys {A} (op : F -> result string A * F) : (forall w, P w -> P (op w).2) -> io_keeps (sys op).
Proof. intros Ho w Pw. unfold sys. specialize (Ho w Pw). by destruct (op w). Qed.

Lemma extract_entry_keeps e : (forall raw, tar_path e = Ok raw -> ".."%string ∉ path_components raw) -> io_keeps (extract_entry dest e).
Proof.
  intros He. unfold extract_entry. destruct (tar_path e) as [raw|er] eqn:Ep; [|by intros w Pw].
  specialize (He raw eq_refl). pose proof (fun p => components_tail raw p He) as Ho.
  intros w Pw. unfold mbind, IO_bind. unfold io_bind at 1, pure_io at 1. cbn [map_err].
  destruct (tail (path_components raw)) as [|p ps]; [exact Pw|].
  assert (Forall ordinary (p :: ps)) as Hall by (apply Forall_forall; intros q Hq; by apply Ho).
  assert (below (entry_path dest (p :: ps))) as B1 by by exists (p :: ps).
  assert (below (entry_path dest (removelast (p :: ps)))) as B2.
  { exists (removelast (p :: ps)). split; [|done]. rewrite Forall_forall in Hall |- *. intros q Hq. apply Hall.
    clear -Hq. revert p Hq. induction ps as [|p' ps IH]; intros p Hq; cbn in Hq; [by apply not_elem_of_nil in Hq|].
    apply elem_of_cons in Hq as [->|Hq]; [by left|]. right. by apply IH. }
  assert (io_keeps (sys (fun w => w_create_dir_all w (entry_path dest (removelast (p :: ps)))))) as K1
    by (apply io_keeps_sys; intros w' Pw'; by apply Below).
  assert (forall d, io_keeps (sys (fun w => w_write w (entry_path dest (p :: ps)) d))) as K2
    by (intros d; apply io_keeps_sys; intros w' Pw'; by apply Below).
  assert (io_keeps (sys (fun w => w_set_executable w (entry_path dest (p :: ps))))) as K3
    by (apply io_keeps_sys; intros w' Pw'; by apply Below).
  revert w Pw. change (io_keeps (io_bind (sys (fun w => w_create_dir_all w (entry_path dest (removelast (p :: ps))))) (fun _ =>
    if tar_is_file e then
      io_bind (pure_io (map_err ConfigParse (tar_data e))) (fun data =>
      io_bind (sys (fun w => w_write w (entry_path dest (p :: ps)) data)) (fun _ =>
      io_bind (if String.eqb p "bin" then sys (fun w => w_set_executable w (entry_path dest (p :: ps))) else io_ret ()) (fun _ =>
      io_ret (bool_decide (p :: ps = ["manifest.yaml"%string])))))
    else io_ret false))).
  apply io_keeps_bind; [done|]. intros _. destruct (tar_is_file e); [|by intros w Pw].
  apply io_keeps_bind; [apply io_keeps_pure|]. intros data. apply io_keeps_bind; [done|]. intros _.
  apply io_keeps_bind; [destruct (String.eqb p "bin"); [done|by intros w Pw]|]. by intros _ w Pw.
Qed.
Lemma extract_entries_keeps es : forall found,
  (forall e raw, Ok e ∈ es -> tar_path e = Ok raw -> ".."%string ∉ path_components raw) -> io_keeps (extract_entries dest es found).
Proof.
  induction es as [|[e|er] es IH]; intros found Hes; [by intros w Pw| |by intros w Pw]. cbn [extract_entries].
  apply io_keeps_bind; [apply extract_entry_keeps; intros raw; apply Hes; by left|].
  intros f. apply IH. intros e' raw He. apply Hes. by right.
Qed.

(** C33: Unpacking an archive none of whose paths has a parent step touches nothing outside the directory it is unpacked
    into: it creates, writes and marks executable only paths of plain names below it.  The first component of each path
    is dropped, an absolute path's root included. *)
Theorem extract_confined bytes w :
  (forall es e raw, untar (is_xz bytes) bytes = Ok es -> Ok e ∈ es -> tar_path e = Ok raw -> ".."%string ∉ path_components raw) ->
  P w -> P (extract_tarball untar bytes dest w).2.
Proof.
  intros Hes Pw. unfold extract_tarball. destruct (untar (is_xz bytes) bytes) as [es|er]; [|done]. cbn.
  change (P (io_bind (extract_entries dest es false) (fun found => if (found : bool) then io_ret () else
    io_fail (ConfigParse "tarball missing required manifest.yaml file")) w).2).
  apply io_keeps_bind; [apply extract_entries_keeps; intros e raw; by apply Hes|by intros [] w' Pw'|done].
Qed.
End Confined.

(** ** What is checked before anything is unpacked *)

Section Integrity.
Context {F : Type} `{!InstallWorld F, !Serde AgentManifest}.
Variables (untar : bool -> string -> result string (list (result string TarEntry))) (sha256_hex : string -> string) (os arch : string).
Implicit Types w : F.

Lemma checksum_spec bytes expected : static_verify_checksum sha256_hex bytes expected = Ok () <->
  exists hex, split_once ":" expected = Some ("sha256"%string, hex) /\ sha256_hex bytes = hex.
Proof.
  unfold static_verify_checksum. destruct (split_once ":" expected) as [[algo hex]|]; [|naive_solver].
  destruct (String.eqb_spec algo "sha256") as [->|Hn]; [|split; [done|]; intros (h & [= -> ->] & _); done].
  destruct (String.eqb_spec (sha256_hex bytes) hex) as [He|He]; [naive_solver|]. split; [done|]. intros (h & [= <-] & E). done.
Qed.
(** What the bytes of a package must satisfy. *)
Definition bytes_accepted w (req : AgentInstallRequest) (s : PackageSource) (bytes : string) : Prop :=
  ar_no_verify req = true \/
  match ar_checksum req, s with
  | Some e, _ => split_once ":" e = Some ("sha256"%string, sha256_hex bytes)
  | None, GitHubRelease _ (Some url) => exists t, w_get w url = Ok t /\ first_checksum t = Some (sha256_hex bytes)
  | None, _ => True
  end.
Lemma verify_agent_spec req s bytes w : (verify_agent sha256_hex req s bytes w).2 = w /\
  ((verify_agent sha256_hex req s bytes w).1 = Ok () <-> bytes_accepted w req s bytes).
Proof.
  unfold verify_agent, bytes_accepted. destruct (ar_no_verify req); [split; [done|]; split; [by left|done]|].
  assert (forall e, static_verify_checksum sha256_hex bytes e = Ok () <-> split_once ":" e = Some ("sha256"%string, sha256_hex bytes)) as Hc.
  { intros e. rewrite checksum_spec. split; [intros (h & -> & ->); done|]. intros E. eauto. }
  destruct (ar_checksum req) as [e|]; cbn.
  - split; [done|]. rewrite Hc. naive_solver.
  - destruct s as [url|p|url [sum|]|url]; cbn; try (split; [done|]; split; [by right|done]).
    unfold fetch_and_verify_checksum_file. split; [done|]. cbn [fst].
    destruct (w_get w sum) as [t|[e|e]]; cbn; [|naive_solver..].
    destruct (first_checksum t) as [h|] eqn:Eh; cbn [ok_or mbind result_bind]; [|naive_solver congruence].
    rewrite Hc. transitivity (Some ("sha256"%string, h) = Some ("sha256"%string, sha256_hex bytes)); [done|]. split.
    + intros [= ->]. right. exists t. done.
    + intros [|(t' & [= <-] & E)]; [done|]. congruence.
Qed.

(** C13: An agent is only unpacked from bytes that passed the check asked for: unless verification is turned off or the
    source is a git repository, the bytes that were fetched have the digest of the request, or, for a GitHub release
    with a checksum file and no digest in the request, the digest of that file.  When fetching or checking fails
    nothing has happened.  A git source is not checked, whatever digest the request has. *)
Theorem install_integrity root req w :
  (forall r w', install_agent untar sha256_hex os arch root req w = (Ok r, w') ->
     (exists url, resolve_source os arch w (ar_source req) (ar_version req) = Ok (GitClone url)) \/
     (exists s bytes, resolve_source os arch w (ar_source req) (ar_version req) = Ok s /\ (fetch_source s w).1 = Ok bytes /\
        bytes_accepted w req s bytes /\
        in_temp (fun tmp => io_bind (extract_tarball untar bytes tmp) (fun _ => read_manifest tmp)) (place_agent root (ar_scope req)) w = (Ok r, w'))) /\
  (forall s e, resolve_source os arch w (ar_source req) (ar_version req) = Ok s -> (fetch_source s w).1 = Err e -> (forall url, s <> GitClone url) ->
     install_agent untar sha256_hex os arch root req w = (Err e, w)) /\
  (forall s bytes, resolve_source os arch w (ar_source req) (ar_version req) = Ok s -> (forall url, s <> GitClone url) ->
     (fetch_source s w).1 = Ok bytes -> ~ bytes_accepted w req s bytes ->
     exists e, install_agent untar sha256_hex os arch root req w = (Err e, w)).
Proof.
  assert (forall s, resolve_source os arch w (ar_source req) (ar_version req) = Ok s -> (forall url, s <> GitClone url) ->
    install_agent untar sha256_hex os arch root req w =
    io_bind (fetch_source s) (fun bytes => io_bind (verify_agent sha256_hex req s bytes) (fun _ =>
      in_temp (fun tmp => io_bind (extract_tarball untar bytes tmp) (fun _ => read_manifest tmp)) (place_agent root (ar_scope req)))) w) as Hs.
  { intros s E Hg. unfold install_agent. rewrite E. destruct s as [| | |url]; try done. by destruct (Hg url). }
  assert (forall s bytes, (fetch_source s w).1 = Ok bytes -> fetch_source s w = (Ok bytes, w)) as Hf.
  { intros s bytes E. rewrite <- E. unfold fetch_source. by destruct s. }
  split; [|split].
  - intros r w' E. destruct (resolve_source os arch w (ar_source req) (ar_version req)) as [s|e] eqn:Er; [|unfold install_agent in E; rewrite Er in E; done].
    destruct s as [url|p|url sum|url]; [right|right|right|left; by exists url];
      rewrite (Hs _ eq_refl) in E by done; unfold io_bind in E at 1;
      (match type of E with context [fetch_source ?s w] => destruct (fetch_source s w) as [[bytes|e] w1] eqn:Ef; [|done];
         pose proof (Hf s bytes ltac:(by rewrite Ef)) as Ef'; rewrite Ef in Ef'; injection Ef' as ->;
         exists s, bytes; rewrite Ef; unfold io_bind in E at 1;
         destruct (verify_agent_spec req s bytes w) as [V2 V1]; destruct (verify_agent sha256_hex req s bytes w) as [[[]|e] w2]; [|done];
         cbn in V1, V2; subst w2; split_and!; [done|done|by apply V1|exact E] end).
  - intros s e Er Ef Hg. rewrite (Hs s Er Hg). unfold io_bind at 1. destruct (fetch_source s w) as [r w1] eqn:E. cbn in Ef. subst r.
    assert (w1 = w) as -> by (unfold fetch_source in E; destruct s; by injection E). done.
  - intros s bytes Er Hg Ef Hn. rewrite (Hs s Er Hg). unfold io_bind at 1. rewrite (Hf s bytes Ef). unfold io_bind at 1.
    destruct (verify_agent_spec req s bytes w) as [V2 V1]. destruct (verify_agent sha256_hex req s bytes w) as [[[]|e] w2]; cbn in V1, V2; subst w2.
    + by destruct Hn; apply V1.
    + by exists e.
Qed.
End Integrity.

(** ** A package on a small disk *)

Module Toy.
Import Manifests.Toy.
#[local] Existing Instance manifest_text_form.

(** Files by path; a directory is there when a file is below it; the web is below [web:]. *)
Abbreviation disk := (gmap string string).
Definition under (dir : string) (p : string) : Prop := starts_with (dir +:+ "/") p = true.
#[local] Instance under_dec dir p : Decision (under dir p). Proof. unfold under. apply _. Defined.
Definition moved (a b : string) (p : string) : string := match strip_prefix (a +:+ "/") p with Some r => b +:+ "/" +:+ r | None => p end.
#[local] Instance disk_world : InstallWorld disk := {|
  w_read w p := match w !! p with Some c => Ok c | None => Err "no such file"%string end;
  w_exists w p := bool_decide (is_Some (w !! p)) || existsb (fun kv : string * string => bool_decide (under p kv.1)) (map_to_list w);
  w_entries w p := Ok [];
  w_write w p c := (Ok (), <[p := c]> w);
  w_create_dir_all w _ := (Ok (), w);
  w_rename w a b := (Ok (), list_to_map (prod_map (moved a b) id <$> map_to_list w));
  w_remove_dir_all w p := (Ok (), base.filter (fun kv => ~ under p kv.1) w);
  w_remove_file w p := (Ok (), base.delete p w);
  w_set_executable w _ := (Ok (), w);
  w_temp_dir w := (Ok "/tmp/i"%string, w);
  w_get w url := match w !! ("web:" +:+ url)%string with Some c => Ok c | None => Err (Unreachable "unknown host") end;
  w_get_json _ _ := Err (Unreachable "unknown host");
  w_git_clone w _ dest := (Ok (true, "0"%string), <[(dest +:+ "/manifest.yaml")%string := "3 git"%string]> w) |}.

Definition file (p c : string) : result string TarEntry := Ok {| tar_path := Ok p; tar_is_file := true; tar_data := Ok c |}.
(** Two archives: a package, and one with a path that climbs out. *)
Definition archives (_ : bool) (b : string) : result string (list (result string TarEntry)) :=
  if String.eqb b "package" then Ok [file "pkg/manifest.yaml" "2 ok"; file "pkg/bin/run" "code"]
  else if String.eqb b "climber" then Ok [file "pkg/manifest.yaml" "2 ok"; file "pkg/../../etc/passwd" "me"]
  else Err "not an archive"%string.
Definition before : disk := {[ "/etc/passwd"%string := "root"%string; "/in/agent.tar"%string := "package"%string; "/in/bad.tar"%string := "climber"%string ]}.

Definition no_parent (e : result string TarEntry) : bool :=
  match e with Ok e => match tar_path e with Ok raw => bool_decide (".."%string ∉ path_components raw) | Err _ => true end | Err _ => true end.
Lemma entry_below dest parts : ends_with_slash dest = false -> dest <> EmptyString -> Forall ordinary parts ->
  exists s, entry_path dest parts = dest +:+ "/" +:+ s.
Proof.
  intros Hd Hn Ho. unfold entry_path, path_join. assert (starts_with "/" (str_join "/" parts) = false) as ->.
  { destruct Ho as [|p ps (Hp & _ & Hs) _]; [done|]. destruct p as [|c p]; [done|]. cbn in Hs. case_bool_decide as Hc; [done|].
    destruct (starts_with "/" (str_join "/" (String c p :: ps))) eqn:E; [|done]. apply starts_with_spec in E as [r E].
    destruct ps; cbn in E; injection E as -> _; done. }
  rewrite Hd, bool_decide_false by done. by eexists.
Qed.
Lemma extract_confined_witness : (extract_tarball archives "package" "/tmp/i" before).2 !! "/etc/passwd"%string = Some "root"%string.
Proof.
  apply (extract_confined archives (fun w => w !! "/etc/passwd"%string = Some "root"%string) "/tmp/i").
  - intros w path (parts & Ho & ->) Pw. split; [exact Pw|]. split; [exact Pw|]. intros c. cbn [w_write disk_world snd].
    destruct (entry_below "/tmp/i" parts eq_refl ltac:(discriminate) Ho) as [s ->].
    rewrite lookup_insert_ne; [exact Pw|]. intros E. discriminate E.
  - intros es e raw E He Ep.
    assert (forallb no_parent (match archives (is_xz "package") "package" with Ok l => l | Err _ => [] end) = true) as Hs
      by (vm_compute; reflexivity).
    rewrite E in Hs. rewrite forallb_forall in Hs. specialize (Hs (Ok e) (proj1 (list_elem_of_In _ _) He)). cbn in Hs.
    rewrite Ep in Hs. by apply bool_decide_eq_true in Hs.
  - vm_compute. reflexivity.
Defined.
(** A parent step in the second place leaves the directory: the path that is written is not below it. *)
Example climber_escapes : (extract_tarball archives "climber" "/tmp/i" before).2 !! "/tmp/i/../../etc/passwd"%string = Some "me"%string.
Proof. vm_compute. reflexivity. Qed.

Definition request : AgentInstallRequest :=
  {| ar_source := "file:///in/agent.tar"; ar_version := None; ar_scope := InstallUser "alice"; ar_checksum := Some "sha256:7"%string; ar_no_verify := false |}.
Lemma install_integrity_witness : exists r w', install_agent archives digest "linux" "x86_64" "/av" request before = (Ok r, w') /\
  agr_dir r = "/av/data/users/alice/bin/researcher@2"%string /\ w' !! "/av/data/users/alice/bin/researcher@2/bin/run"%string = Some "code"%string /\
  split_once ":" "sha256:7" = Some ("sha256"%string, digest "package").
Proof.
  assert (match install_agent archives digest "linux" "x86_64" "/av" request before with
          | (Ok r, w') => Some (agr_dir r, w' !! "/av/data/users/alice/bin/researcher@2/bin/run"%string) | _ => None end
          = Some ("/av/data/users/alice/bin/researcher@2"%string, Some "code"%string)) as O by (vm_compute; reflexivity).
  destruct (install_agent archives digest "linux" "x86_64" "/av" request before) as [[r|e] w'] eqn:E; [|discriminate O].
  exists r, w'. split; [reflexivity|]. injection O as O1 O2. split; [exact O1|]. split; [exact O2|].
  destruct (proj1 (install_integrity archives digest "linux" "x86_64" "/av" request before) r w' E) as [(url & Hu)|(s & b & Hs & Hf & Ha & _)].
  - vm_compute in Hu. discriminate Hu.
  - vm_compute in Hs. injection Hs as <-. vm_compute in Hf. injection Hf as <-. destruct Ha as [Ha|Ha]; [discriminate Ha|exact Ha].
Defined.
End Toy.
