(* ===== verification/Secrets.v ===== *)
(** * Secrets ([secrets/])

    [SecretsStore] keeps encrypted values in memory by name space and key; [SecretStore] keeps them on disk, one file
    for each secret ([store.rs]).  [inject_secrets] ([inject.rs]) puts the values of a name space into an environment.

    [Cipher] is what AES-256-GCM and the [hex] crate do; a nonce is drawn outside and is an argument.  Files are
    [Packages.InstallWorld]. *)

From S2P Require Import Prelude Types Text Ipc Store Services Manifests Packages Json.

Inductive SecretsError : Type := SecretEperm | SecretNotFound (s : string) | DecryptionFailed | SecretIo (s : string).
Definition secrets_error_to_string (e : SecretsError) : string :=
  match e with
  | SecretEperm => "EPERM: secrets are not readable via VFS"
  | SecretNotFound s => "secret not found: " +:+ s
  | DecryptionFailed => "decryption failed"
  | SecretIo s => "io error: " +:+ s
  end.

(** Authenticated encryption under a key and a nonce, and hexadecimal text. *)
Class Cipher : Type := {
  encrypt : string -> string -> string -> option string; decrypt : string -> string -> string -> option string;
  hex_encode : string -> string; hex_decode : string -> option string }.
Class CipherLaws `{!Cipher} : Prop := {
  decrypt_encrypt key nonce p c : encrypt key nonce p = Some c -> decrypt key nonce c = Some p;
  hex_decode_encode s : hex_decode (hex_encode s) = Some s;
  trim_hex s : trim (hex_encode s) = hex_encode s }.
(** The other half of authenticated encryption: a text that another key made is refused. *)
Definition Authentic `{!Cipher} (k1 k2 : string) : Prop :=
  forall n p c, encrypt k1 n p = Some c -> decrypt k2 n c = None.

Section Secrets.
Context `{!Cipher}.

Definition NONCE_LEN : nat := 12.
Definition seal (key nonce plaintext : string) : result SecretsError string :=
  c ← ok_or DecryptionFailed (encrypt key nonce plaintext); Ok (nonce +:+ c).
Definition unseal (key stored : string) : result SecretsError string :=
  if bool_decide (String.length stored < NONCE_LEN)%nat then Err DecryptionFailed
  else ok_or DecryptionFailed (decrypt key (str_take NONCE_LEN stored) (str_drop NONCE_LEN stored)).

(** ** [SecretsStore] *)

Record SecretsStore : Type := { store : gmap string (gmap string string); master_key : string }.
Definition set_store (s : SecretsStore) (m : gmap string (gmap string string)) : SecretsStore :=
  {| store := m; master_key := master_key s |}.
Definition store_new (key : string) : SecretsStore := {| store := ∅; master_key := key |}.
Definition put (nonce namespace key plaintext : string) (s : SecretsStore) : result SecretsError unit * SecretsStore :=
  match seal (master_key s) nonce plaintext with
  | Err e => (Err e, s)
  | Ok c => (Ok (), set_store s (<[namespace := <[key := c]> (default ∅ (store s !! namespace))]> (store s)))
  end.
Definition get (namespace key : string) (s : SecretsStore) : result SecretsError string :=
  ns ← ok_or (SecretNotFound key) (store s !! namespace);
  c ← ok_or (SecretNotFound key) ((ns : gmap string string) !! key);
  unseal (master_key s) c.
Definition delete (namespace key : string) (s : SecretsStore) : result SecretsError unit * SecretsStore :=
  match store s !! namespace with
  | None => (Ok (), s)
  | Some ns =>
      (match ns !! key with Some _ => Ok () | None => Err (SecretNotFound key) end,
       set_store s (<[namespace := base.delete key ns]> (store s)))
  end.
(** In the order of the hash map. *)
Definition list_keys `{!HashOrder} (namespace : string) (s : SecretsStore) : list string :=
  match store s !! namespace with Some ns => (hash_iter _ ns).*1 | None => [] end.
Definition vfs_read (path : string) (s : SecretsStore) : result SecretsError string := Err SecretEperm.

Variable to_upper : string -> string.
Definition env_name (key : string) : string := "AVIX_SECRET_" +:+ replace_char "-" "_" (to_upper key).
Fixpoint inject_keys (namespace : string) (keys : list string) (s : SecretsStore) (env : gmap string string)
    : result SecretsError unit * gmap string string :=
  match keys with
  | [] => (Ok (), env)
  | k :: keys =>
      match get namespace k s with
      | Err e => (Err e, env)
      | Ok p => inject_keys namespace keys s (<[env_name k := from_utf8_lossy p]> env)
      end
  end.
Definition inject_secrets `{!HashOrder} (s : SecretsStore) (namespace : string) (env : gmap string string) :=
  inject_keys namespace (list_keys namespace s) s env.

(** ** [SecretStore] *)

Record SecretStore : Type := { root : string; disk_key : string }.
(** Padded with zeros, or cut, to 32 bytes. *)
Definition pad_key (key : string) : string :=
  let k := str_take 32 key in k +:+ Nat.iter (32 - String.length k) (String "000") EmptyString.
Definition disk_new (dir key : string) : SecretStore := {| root := dir; disk_key := pad_key key |}.
Definition owner_parts (owner : string) : string * string := default ("other"%string, owner) (split_once ":" owner).
Definition owner_dir (s : SecretStore) (owner : string) : string :=
  let '(t, n) := owner_parts owner in path_join (path_join (root s) t) n.
Definition secret_path (s : SecretStore) (owner name : string) : string := path_join (owner_dir s owner) (name +:+ ".enc").
(** [Path::parent] of a path whose last part is a name. *)
Definition parent_dir (p : string) : option string :=
  match rsplit_once "/" p with Some (EmptyString, _) => Some "/"%string | Some (d, _) => Some d | None => Some EmptyString end.

Section Disk.
Context {F : Type} `{!InstallWorld F}.
Definition sio (r : result string unit) : result SecretsError unit := map_err SecretIo r.
Definition set (nonce : string) (s : SecretStore) (owner name value : string) (w : F) : result SecretsError unit * F :=
  let path := secret_path s owner name in
  let '(r, w) := match parent_dir path with Some d => w_create_dir_all w d | None => (Ok (), w) end in
  match r with
  | Err e => (Err (SecretIo e), w)
  | Ok _ =>
      match seal (disk_key s) nonce value with
      | Err e => (Err e, w)
      | Ok c => let '(r, w) := w_write w path (hex_encode c) in (sio r, w)
      end
  end.
Definition disk_get (s : SecretStore) (owner name : string) (w : F) : result SecretsError string :=
  h ← map_err (fun _ => SecretNotFound (owner +:+ "/" +:+ name)) (w_read w (secret_path s owner name));
  c ← ok_or DecryptionFailed (hex_decode (trim h));
  p ← unseal (disk_key s) c;
  if is_utf8 p then Ok p else Err DecryptionFailed.
Definition disk_delete (s : SecretStore) (owner name : string) (w : F) : result SecretsError unit * F :=
  let '(r, w) := w_remove_file w (secret_path s owner name) in
  (map_err (fun _ => SecretNotFound (owner +:+ "/" +:+ name)) r, w).
Definition enc_name (f : string) : option string :=
  match strip_suffix ".enc" f with Some _ => Some (trim_end_text (String.length f) ".enc" f) | None => None end.
Definition disk_list (s : SecretStore) (owner : string) (w : F) : list string :=
  let dir := owner_dir s owner in
  if w_exists w dir then match w_entries w dir with Ok es => omap enc_name es.*1 | Err _ => [] end else [].
End Disk.
End Secrets.

(** ** In memory *)

Section Memory.
Context `{!Cipher, !CipherLaws}.

Lemma str_take_app p s : str_take (String.length p) (p +:+ s) = p.
Proof. induction p as [|c p IH]; cbn; [by destruct s|]. by rewrite IH. Qed.
Lemma unseal_seal key nonce p c : String.length nonce = NONCE_LEN -> seal key nonce p = Ok c -> unseal key c = Ok p.
Proof.
  intros Hn. unfold seal, unseal. destruct (encrypt key nonce p) as [d|] eqn:E; [|done]. intros [= <-].
  rewrite <- Hn, bool_decide_false, str_take_app, str_drop_app by (rewrite str_length_app; lia). by rewrite (decrypt_encrypt _ _ _ _ E).
Qed.
Lemma unseal_other k1 k2 nonce p c : Authentic k1 k2 -> String.length nonce = NONCE_LEN -> seal k1 nonce p = Ok c -> unseal k2 c = Err DecryptionFailed.
Proof.
  intros Ha Hn. unfold seal, unseal. destruct (encrypt k1 nonce p) as [d|] eqn:E; [|done]. intros [= <-].
  rewrite <- Hn, bool_decide_false, str_take_app, str_drop_app by (rewrite str_length_app; lia). by rewrite (Ha _ _ _ E).
Qed.

(** A secret that was stored in memory is read back under its name space and key, and no other is changed; it cannot
    be decrypted under another master key; and after it is deleted it is not found. *)
Theorem memory_secret (s s' : SecretsStore) (nonce ns key p : string) :
  String.length nonce = NONCE_LEN -> put nonce ns key p s = (Ok (), s') ->
  get ns key s' = Ok p /\
  (forall ns' key', (ns', key') <> (ns, key) -> get ns' key' s' = get ns' key' s) /\
  (forall k2, Authentic (master_key s) k2 -> get ns key {| store := store s'; master_key := k2 |} = Err DecryptionFailed) /\
  (exists s2, delete ns key s' = (Ok (), s2) /\ get ns key s2 = Err (SecretNotFound key)).
Proof.
  intros Hn. unfold put. destruct (seal (master_key s) nonce p) as [c|e] eqn:E; [|done]. intros [= <-].
  unfold get, delete. cbn [set_store store master_key]. rewrite lookup_insert_eq. cbn [ok_or mbind result_bind]. rewrite !lookup_insert_eq.
  cbn [ok_or mbind result_bind]. split_and!.
  - by apply (unseal_seal _ nonce).
  - intros ns' key' Hne. destruct (decide (ns' = ns)) as [->|Hns].
    + rewrite lookup_insert_eq. cbn [ok_or mbind result_bind]. destruct (store s !! ns) as [m|].
      * cbn [default ok_or mbind result_bind]. by rewrite lookup_insert_ne by congruence.
      * cbn [default ok_or mbind result_bind]. by rewrite lookup_insert_ne, lookup_empty by congruence.
    + by rewrite lookup_insert_ne by done.
  - intros k2 Ha. by apply (unseal_other (master_key s) k2 nonce p).
  - eexists. split; [done|]. cbn [set_store store]. rewrite lookup_insert_eq. cbn [ok_or mbind result_bind]. by rewrite lookup_delete_eq.
Qed.
End Memory.

(** ** On disk *)

Section OnDisk.
Context `{!Cipher, !CipherLaws} {F : Type} `{!InstallWorld F, !InstallWorldLaws F path_components}.
Implicit Types (w : F) (s : SecretStore).

(** A name that is one part of a path. *)
Definition plain (x : string) : Prop := ordinary x /\ x <> "."%string.
Definition plain_owner (owner : string) : Prop := plain (owner_parts owner).1 /\ plain (owner_parts owner).2.
Definition plain_name (name : string) : Prop := str_contains_char "/" name = false.
Definition plain_root (r : string) : Prop := r <> EmptyString /\ ends_with_slash r = false /\ ".."%string ∉ path_components r.

Lemma str_app_inj_r (a b c : string) : a +:+ c = b +:+ c -> a = b.
Proof.
  revert b. induction a as [|d a IH]; intros [|e b] E; [done| | |].
  - apply (f_equal String.length) in E. rewrite !str_length_app in E. cbn in E. lia.
  - apply (f_equal String.length) in E. rewrite !str_length_app in E. cbn in E. lia.
  - injection E as -> E. f_equal. by apply IH.
Qed.
Lemma contains_char_app c a b : str_contains_char c (a +:+ b) = str_contains_char c a || str_contains_char c b.
Proof. induction a as [|d a IH]; cbn; [done|]. by rewrite IH, orb_assoc. Qed.
Lemma enc_plain name : plain_name name -> plain (name +:+ ".enc").
Proof.
  intros Hs. split; [split_and!|].
  - by destruct name.
  - destruct name as [|c [|c' name]]; [done..|]. intros [= -> -> E]. by destruct name.
  - by rewrite contains_char_app, Hs.
  - destruct name as [|c name]; [done|]. intros [= -> E]. by destruct name.
Qed.
Lemma secret_path_components s owner name : plain_root (root s) -> plain_owner owner -> plain_name name ->
  path_components (secret_path s owner name) =
    path_components (root s) ++ [(owner_parts owner).1; (owner_parts owner).2; (name +:+ ".enc")%string].
Proof.
  intros (Hr1 & Hr2 & _) [[Ho1 Hd1] [Ho2 Hd2]] Hn. apply enc_plain in Hn as [Hn1 Hn2]. unfold secret_path, owner_dir.
  destruct (owner_parts owner) as [t n]; cbn [fst snd] in *.
  destruct (components_join _ _ Hr1 Hr2 Ho1 Hd1) as (C1 & N1 & E1). destruct (components_join _ _ N1 E1 Ho2 Hd2) as (C2 & N2 & E2).
  destruct (components_join _ _ N2 E2 Hn1 Hn2) as (C3 & _). by rewrite C3, C2, C1, <- !app_assoc.
Qed.
Lemma secret_path_stays s owner name : plain_root (root s) -> plain_owner owner -> plain_name name ->
  ".."%string ∉ path_components (secret_path s owner name).
Proof.
  intros Hr Ho Hn. rewrite secret_path_components by done. destruct Hr as (_ & _ & Hr), Ho as [[(_ & O1 & _) _] [(_ & O2 & _) _]].
  pose proof (enc_plain name Hn) as [(_ & O3 & _) _]. rewrite elem_of_app. intros [?|Hx]; [done|].
  repeat (apply elem_of_cons in Hx as [Hx|Hx]; [by symmetry in Hx|]). by apply not_elem_of_nil in Hx.
Qed.

(** C26: A secret that was written to disk is read back, whatever bytes the cipher made of it; it does not decrypt under
    another master key; once deleted it is not found.  Owners that are a kind and a name, and secrets that are names, do not
    interfere: writing one leaves every other readable as it was. *)
Theorem disk_secret s owner name value nonce w w' :
  String.length nonce = NONCE_LEN -> is_utf8 value = true -> set nonce s owner name value w = (Ok (), w') ->
  disk_get s owner name w' = Ok value /\
  (forall k2, Authentic (disk_key s) k2 -> disk_get {| root := root s; disk_key := k2 |} owner name w' = Err DecryptionFailed) /\
  (forall w2, disk_delete s owner name w' = (Ok (), w2) -> exists e, disk_get s owner name w2 = Err (SecretNotFound e)) /\
  (forall owner2 name2, plain_root (root s) -> plain_owner owner -> plain_name name -> plain_owner owner2 -> plain_name name2 ->
     (owner_parts owner2, name2) <> (owner_parts owner, name) -> disk_get s owner2 name2 w' = disk_get s owner2 name2 w).
Proof.
  intros Hn Hu. unfold set.
  set (p := secret_path s owner name).
  assert (exists w1, (forall q, w_read w1 q = w_read w q) /\
    match parent_dir p with Some d => w_create_dir_all w d | None => (Ok (), w) end =
      ((match parent_dir p with Some d => w_create_dir_all w d | None => (Ok (), w) end).1, w1)) as (w1 & R1 & ->).
  { eexists. split; [|apply surjective_pairing]. intros q. destruct (parent_dir p); [apply read_created|done]. }
  destruct (match parent_dir p with Some d => w_create_dir_all w d | None => (Ok (), w) end).1 as [[]|e]; [|done].
  destruct (seal (disk_key s) nonce value) as [c|e] eqn:Es; [|done].
  destruct (w_write w1 p (hex_encode c)) as [r w2] eqn:Ew. intros [= Hr <-]. destruct r as [[]|e]; [|done].
  pose proof (read_written _ _ _ _ Ew) as R2.
  unfold disk_get, disk_delete. cbn [disk_key]. change (secret_path {| root := root s; disk_key := _ |} owner name) with p. fold p.
  rewrite R2. cbn [map_err mbind result_bind]. rewrite trim_hex, hex_decode_encode. cbn [ok_or mbind result_bind]. split_and!.
  - rewrite (unseal_seal _ _ _ _ Hn Es). cbn [mbind result_bind]. by rewrite Hu.
  - intros k2 Ha. by rewrite (unseal_other _ _ _ _ _ Ha Hn Es).
  - intros w3. destruct (w_remove_file w2 p) as [r w4] eqn:Ed. intros [= Hr' <-]. destruct r as [[]|]; [|done].
    pose proof (read_removed _ _ _ Ed) as Hd. destruct (w_read w4 p); [done|]. by eexists.
  - intros o2 n2 Pr Po Pn Po2 Pn2 Hne.
    rewrite (read_other _ _ _ _ (secret_path s o2 n2) Ew), R1; [done|by apply secret_path_stays..|].
    unfold p. rewrite !secret_path_components by done. intros E. apply app_inv_head in E. injection E as E1 E2 E3. apply Hne.
    apply str_app_inj_r in E3. f_equal; [|done]. rewrite (surjective_pairing (owner_parts o2)), <- E1, <- E2. by destruct (owner_parts owner).
Qed.
End OnDisk.

(** ** Into an environment *)

Section Inject.
Context `{!Cipher, !HashOrder, !HashOrderLaws}.
Variable to_upper : string -> string.

Lemma inject_keys_spec ns s : forall keys env env', inject_keys to_upper ns keys s env = (Ok (), env') ->
  (forall x, x ∉ env_name to_upper <$> keys -> env' !! x = env !! x) /\
  (forall k, k ∈ keys -> exists k' p, k' ∈ keys /\ env_name to_upper k' = env_name to_upper k /\ get ns k' s = Ok p /\
     env' !! env_name to_upper k = Some (from_utf8_lossy p)).
Proof.
  induction keys as [|k keys IH]; intros env env'; cbn [inject_keys].
  - intros [= <-]. split; [done|]. intros k []%not_elem_of_nil.
  - destruct (get ns k s) as [p|e] eqn:G; [|done]. intros (I1 & I2)%IH. split.
    + intros x [Hx1 Hx2]%not_elem_of_cons. by rewrite I1, lookup_insert_ne by done.
    + assert (forall k0, k0 ∈ keys -> exists k' p0, k' ∈ k :: keys /\ env_name to_upper k' = env_name to_upper k0 /\
        get ns k' s = Ok p0 /\ env' !! env_name to_upper k0 = Some (from_utf8_lossy p0)) as Htail.
      { intros k0 (k' & p0 & ? & ? & ? & ?)%I2. exists k', p0. split_and!; [by right|done..]. }
      intros k0 [->|Hk0]%elem_of_cons; [|by apply Htail].
      destruct (decide (env_name to_upper k ∈ env_name to_upper <$> keys)) as [Hin|Hin].
      * apply list_elem_of_fmap in Hin as (k1 & E & (k' & p0 & ? & ? & ? & Hl)%Htail). exists k', p0.
        rewrite E. split_and!; [done|congruence|done..].
      * exists k, p. split_and!; [by left|done|done|]. by rewrite I1, lookup_insert_eq by done.
Qed.
(** Injecting the secrets of a name space sets one variable for each key and touches no other; a variable holds the value of
    a key of that variable, which of them when two keys have the same variable depends on the map's order.  When a secret
    cannot be decrypted the injection stops there. *)
Theorem inject_exact s ns env env' : inject_secrets to_upper s ns env = (Ok (), env') ->
  let keys := dom (default ∅ (store s !! ns)) in
  (forall x, (forall k, k ∈ keys -> env_name to_upper k <> x) -> env' !! x = env !! x) /\
  (forall k, k ∈ keys -> exists k' p, k' ∈ keys /\ env_name to_upper k' = env_name to_upper k /\ get ns k' s = Ok p /\
     env' !! env_name to_upper k = Some (from_utf8_lossy p)) /\
  (forall k, k ∈ keys -> (forall k', k' ∈ keys -> env_name to_upper k' = env_name to_upper k -> k' = k) ->
     exists p, get ns k s = Ok p /\ env' !! env_name to_upper k = Some (from_utf8_lossy p)).
Proof.
  intros E keys. assert (forall k, k ∈ list_keys ns s <-> k ∈ keys) as Hk.
  { intros k. unfold list_keys, keys. destruct (store s !! ns) as [m|]; cbn [default].
    - rewrite elem_of_dom, list_elem_of_fmap. split.
      + intros ([k' v] & -> & Hm). rewrite hash_iter_perm in Hm. apply elem_of_map_to_list in Hm. by exists v.
      + intros [v Hv]. exists (k, v). split; [done|]. rewrite hash_iter_perm. by apply elem_of_map_to_list.
    - rewrite dom_empty. split; [intros []%not_elem_of_nil|set_solver]. }
  destruct (inject_keys_spec ns s _ _ _ E) as [I1 I2].
  assert (forall k, k ∈ keys -> exists k' p, k' ∈ keys /\ env_name to_upper k' = env_name to_upper k /\ get ns k' s = Ok p /\
     env' !! env_name to_upper k = Some (from_utf8_lossy p)) as I3.
  { intros k Hin. apply Hk, I2 in Hin as (k' & p & Hin & ? & ? & ?). exists k', p. by rewrite <- Hk. }
  split_and!; [|done|].
  - intros x Hx. apply I1. intros (k & -> & Hin)%list_elem_of_fmap. by apply (Hx k); [apply Hk|].
  - intros k Hin Hu. destruct (I3 k Hin) as (k' & p & Hin' & E' & ? & ?). rewrite (Hu k' Hin' E') in *. by exists p.
Qed.
End Inject.

(** ** A toy cipher, real hexadecimal text, a small disk *)

Module Toy.
Import Packages.Toy.
#[local] Existing Instance disk_world.

Definition hex_digit (n : N) : ascii := Ascii.ascii_of_N (if (n <? 10)%N then 48 + n else 87 + n).
Definition hex_value (c : ascii) : N := if (byte_val c <? 58)%N then byte_val c - 48 else byte_val c - 87.
Fixpoint to_hex (s : string) : string :=
  match s with
  | EmptyString => EmptyString
  | String c t => String (hex_digit (byte_val c / 16)) (String (hex_digit (byte_val c mod 16)) (to_hex t))
  end.
Fixpoint of_hex (s : string) : option string :=
  match s with
  | EmptyString => Some EmptyString
  | String a (String b t) => String (Ascii.ascii_of_N (hex_value a * 16 + hex_value b)) <$> of_hex t
  | _ => None
  end.
(** The key and the text: readable, but another key does not open it. *)
#[local] Instance toy_cipher : Cipher := {|
  encrypt k n p := Some (k +:+ p); decrypt k n c := strip_prefix k c; hex_encode := to_hex; hex_decode := of_hex |}.

Lemma hex_char c : Ascii.ascii_of_N (hex_value (hex_digit (byte_val c / 16)) * 16 + hex_value (hex_digit (byte_val c mod 16))) = c.
Proof. destruct c as [[] [] [] [] [] [] [] []]; reflexivity. Qed.
Lemma hex_visible c t : (byte_val c < 16)%N -> is_blank (String (hex_digit (byte_val c)) t) = false /\ white_len (String (hex_digit (byte_val c)) t) = O.
Proof. intros Hc. destruct c as [[] [] [] [] [] [] [] []]; try (exfalso; vm_compute in Hc; discriminate Hc); (split; [|destruct t as [|? [|? t]]]; vm_compute; reflexivity) || (destruct t as [|? [|? t]]; split; vm_compute; reflexivity). Qed.
Lemma nibble c : exists h l, (byte_val h < 16)%N /\ (byte_val l < 16)%N /\ (byte_val c / 16 = byte_val h)%N /\ (byte_val c mod 16 = byte_val l)%N.
Proof.
  exists (Ascii.ascii_of_N (byte_val c / 16)), (Ascii.ascii_of_N (byte_val c mod 16)).
  destruct c as [[] [] [] [] [] [] [] []]; vm_compute; done.
Qed.
#[local] Instance toy_cipher_laws : CipherLaws.
Proof.
  split.
  - intros k n p c [= <-]. cbn. unfold strip_prefix. by rewrite starts_with_app, str_drop_app.
  - cbn. intros s. induction s as [|c s IH]; cbn [to_hex of_hex]; [done|]. rewrite IH. cbn. by rewrite hex_char.
  - cbn. intros s. unfold trim. assert (trim_start_from 0 (to_hex s) = to_hex s) as ->.
    { destruct s as [|c s]; [done|]. cbn [to_hex trim_start_from]. destruct (nibble c) as (h & l & Hh & _ & -> & _).
      by destruct (hex_visible h (String (hex_digit (byte_val c mod 16)) (to_hex s)) Hh) as [_ ->]. }
    induction s as [|c s IH]; [done|]. destruct (nibble c) as (h & l & Hh & Hl & E1 & E2). cbn [to_hex trim_end]. rewrite E1, E2.
    rewrite (proj1 (hex_visible h _ Hh)), (proj1 (hex_visible l _ Hl)). by rewrite IH.
Qed.
#[local] Instance disk_laws : InstallWorldLaws disk path_components.
Proof.
  split.
  - intros w w' p c [= <-]. cbn. by rewrite lookup_insert_eq.
  - intros w w' p c q [= <-] _ _ Hne. cbn. rewrite lookup_insert_ne; [done|]. by intros ->.
  - done.
  - intros w w' p [= <-]. cbn. by rewrite lookup_delete_eq.
Qed.

Definition nonce : string := "123456789012".
Lemma other_key : Authentic "one" "two".
Proof. intros n p c [= <-]. reflexivity. Qed.

Lemma memory_secret_witness : exists s, put nonce "agent-42" "api-key" "tok" (store_new "one") = (Ok (), s) /\
  get "agent-42" "api-key" s = Ok "tok"%string /\ get "agent-42" "api-key" {| store := store s; master_key := "two" |} = Err DecryptionFailed.
Proof.
  assert (put nonce "agent-42" "api-key" "tok" (store_new "one") = (Ok (), (put nonce "agent-42" "api-key" "tok" (store_new "one")).2)) as E
    by reflexivity.
  eexists. split; [exact E|]. destruct (memory_secret _ _ nonce _ _ _ eq_refl E) as (H1 & _ & H2 & _).
  split; [exact H1|apply (H2 "two"%string other_key)].
Defined.

Definition vault : SecretStore := disk_new "/data/secrets" "master".
Lemma disk_secret_witness : exists w, set nonce vault "service:github" "app-key" "ghp" before = (Ok (), w) /\
  disk_get vault "service:github" "app-key" w = Ok "ghp"%string /\
  disk_get vault "user:alice" "app-key" w = disk_get vault "user:alice" "app-key" before.
Proof.
  assert (set nonce vault "service:github" "app-key" "ghp" before = (Ok (), (set nonce vault "service:github" "app-key" "ghp" before).2)) as E
    by reflexivity.
  eexists. split; [exact E|]. destruct (disk_secret _ _ _ "ghp" nonce _ _ eq_refl eq_refl E) as (H1 & _ & _ & H2).
  split; [exact H1|]. apply H2; [|split; split; [split_and!; [discriminate|discriminate|reflexivity]|discriminate|split_and!; [discriminate|discriminate|reflexivity]|discriminate]
    |reflexivity|split; split; [split_and!; [discriminate|discriminate|reflexivity]|discriminate|split_and!; [discriminate|discriminate|reflexivity]|discriminate]
    |reflexivity|discriminate].
  split_and!; [discriminate|reflexivity|]. vm_compute. intros Hx.
  repeat (apply elem_of_cons in Hx as [Hx|Hx]; [discriminate Hx|]). by apply not_elem_of_nil in Hx.
Defined.
(** Two owners whose names are not one part of a path can share a file. *)
Example owners_collide : secret_path vault "service:a" "b/c" = secret_path vault "service:a/b" "c".
Proof. reflexivity. Qed.

#[local] Instance list_order : HashOrder := fun _ m => map_to_list m.
#[local] Instance list_order_laws : HashOrderLaws.
Proof. by intros A m. Qed.
Definition with_keys : SecretsStore := (put nonce "ns" "db-password" "s3" (put nonce "ns" "api-key" "tok" (store_new "one")).2).2.
Lemma inject_exact_witness : exists env, inject_secrets to_uppercase with_keys "ns" ∅ = (Ok (), env) /\
  env !! "AVIX_SECRET_DB_PASSWORD"%string = Some "s3"%string.
Proof.
  assert (is_ok (inject_secrets to_uppercase with_keys "ns" ∅).1 = true) as O by (vm_compute; reflexivity).
  destruct (inject_secrets to_uppercase with_keys "ns" ∅) as [[[]|e] env] eqn:E; [|discriminate O].
  exists env. split; [reflexivity|].
  destruct (inject_exact to_uppercase with_keys "ns" ∅ env E) as (_ & _ & H).
  destruct (H "db-password"%string) as (p & G & L).
  - apply elem_of_dom. vm_compute. by eexists.
  - intros k' Hk. apply elem_of_dom in Hk as [v Hv]. apply elem_of_map_to_list in Hv. vm_compute in Hv.
    repeat (apply elem_of_cons in Hv as [Hv|Hv]; [injection Hv as -> _; vm_compute; congruence|]). destruct (not_elem_of_nil _ Hv).
  - vm_compute in G. injection G as <-. exact L.
Defined.
End Toy.
