(* ===== verification/Syscalls.v ===== *)
(** * System calls ([syscall/])

    The registry of system calls ([descriptor.rs], [registry.rs]), [SyscallHandler::dispatch] ([handler.rs]) and the
    domains: process, file, capability, schedule and snapshot calls, which check their parameters and answer with fixed
    values, the system calls ([sys_.rs]) and the package operations ([pkg_.rs]) with their install quota; and
    [ToolRegistry::add_kernel_syscalls] ([tool_registry/registry.rs]).

    A call runs on [Sys]: the world of the installers and the counters of [INSTALL_QUOTA], which the process shares.
    [mono] is [Instant::now()] in nanoseconds, [utc] is [Utc::now()]. *)

From S2P Require Import Prelude Types Token ToolRegistry Vfs Resources Services Text Ipc Store History Manifests Packages Secrets Json.
Import CapabilityResolver.
Local Open Scope Z_scope.

(** ** Errors and contexts *)

Record SyscallContext : Type := { caller_pid : Z; ctx_token : CapabilityToken }.
Inductive SyscallError : Type :=
| Eperm (pid : Z) (what : string) | Enoent (s : string) | Einval (s : string) | Eexist (s : string) | Eio (s : string).
Definition syscall_error_to_string (e : SyscallError) : string :=
  match e with
  | Eperm pid what => "EPERM: caller " +:+ pretty pid +:+ " not authorized for " +:+ what
  | Enoent s => "ENOENT: " +:+ s +:+ " not found"
  | Einval s => "EINVAL: " +:+ s
  | Eexist s => "EEXIST: " +:+ s +:+ " already exists"
  | Eio s => "EIO: " +:+ s
  end.
Abbreviation SyscallResult := (result SyscallError json).

(** ** The registry *)

(** [SyscallDescriptor::new]: the short text is the description, too. *)
Definition descriptor_new (name domain short detailed : string) (capabilities : list string) (handler_sig : string) : Syscall := {|
  sy_name := name; sy_description := short; sy_short := short; sy_detailed := detailed; sy_domain := domain;
  sy_input_schema := JNull; sy_output_schema := JNull; sy_capabilities := capabilities; sy_handler := handler_sig |}.
Definition proc_syscalls : list Syscall :=
  [descriptor_new "kernel/proc/spawn" "proc" "Spawn a new agent process" "Creates a new agent process with the given manifest.

Permissions: caller must have `agent:spawn` capability"
     ["agent:spawn"%string] "fn proc_::spawn(ctx: &SyscallContext, params: Value) -> SyscallResult";
   descriptor_new "kernel/proc/kill" "proc" "Terminate an agent process" "Terminates a running agent process by PID.

Permissions: caller must have `agent:kill` capability"
     ["agent:kill"%string] "fn proc_::kill(ctx: &SyscallContext, params: Value) -> SyscallResult";
   descriptor_new "kernel/proc/list" "proc" "List running processes" "Returns list of all running agent processes.

Permissions: caller must have `agent:list` capability"
     ["agent:list"%string] "fn proc_::list(ctx: &SyscallContext, params: Value) -> SyscallResult";
   descriptor_new "kernel/proc/info" "proc" "Get process info" "Returns detailed information about a specific process.

Permissions: caller must have `agent:info` capability"
     ["agent:info"%string] "fn proc_::info(ctx: &SyscallContext, params: Value) -> SyscallResult";
   descriptor_new "kernel/proc/wait" "proc" "Wait for process exit" "Blocks until the specified process exits.

Permissions: caller must have `agent:wait` capability"
     ["agent:wait"%string] "fn proc_::wait(ctx: &SyscallContext, params: Value) -> SyscallResult";
   descriptor_new "kernel/proc/signal" "proc" "Send signal to process" "Sends a signal (SIGKILL, SIGPAUSE, etc.) to a process.

Permissions: caller must have `agent:signal` capability"
     ["agent:signal"%string] "fn proc_::signal(ctx: &SyscallContext, params: Value) -> SyscallResult"].
Definition fs_syscalls : list Syscall :=
  [descriptor_new "kernel/fs/read" "fs" "Read file from VFS" "Reads bytes from a VFS path.

Permissions: caller must have `fs/read` capability"
     ["fs:read"%string] "fn fs_::read(ctx: &SyscallContext, params: Value) -> SyscallResult";
   descriptor_new "kernel/fs/write" "fs" "Write file to VFS" "Writes bytes to a VFS path.

Permissions: caller must have `fs:write` capability"
     ["fs:write"%string] "fn fs_::write(ctx: &SyscallContext, params: Value) -> SyscallResult";
   descriptor_new "kernel/fs/list" "fs" "List directory contents" "Lists entries in a VFS directory.

Permissions: caller must have `fs:list` capability"
     ["fs:list"%string] "fn fs_::list(ctx: &SyscallContext, params: Value) -> SyscallResult";
   descriptor_new "kernel/fs/exists" "fs" "Check if path exists" "Checks if a VFS path exists.

Permissions: caller must have `fs:read` capability"
     ["fs:read"%string] "fn fs_::exists(ctx: &SyscallContext, params: Value) -> SyscallResult";
   descriptor_new "kernel/fs/delete" "fs" "Delete file or directory" "Deletes a file or directory from VFS.

Permissions: caller must have `fs:delete` capability"
     ["fs:delete"%string] "fn fs_::delete(ctx: &SyscallContext, params: Value) -> SyscallResult";
   descriptor_new "kernel/fs/watch" "fs" "Watch for file changes" "Sets up a watch on a VFS path for change notifications.

Permissions: caller must have `fs:watch` capability"
     ["fs:watch"%string] "fn fs_::watch(ctx: &SyscallContext, params: Value) -> SyscallResult"].
Definition cap_syscalls : list Syscall :=
  [descriptor_new "kernel/cap/issue" "cap" "Issue capability token" "Issues a new capability token to another process.

Permissions: caller must have `cap:issue` capability"
     ["cap:issue"%string] "fn cap_::issue(ctx: &SyscallContext, params: Value) -> SyscallResult";
   descriptor_new "kernel/cap/validate" "cap" "Validate capability token" "Validates a capability token's signature and grants.

Permissions: caller must have `cap:validate` capability"
     ["cap:validate"%string] "fn cap_::validate(ctx: &SyscallContext, params: Value) -> SyscallResult";
   descriptor_new "kernel/cap/revoke" "cap" "Revoke capability token" "Revokes a previously issued capability token.

Permissions: caller must have `cap:revoke` capability"
     ["cap:revoke"%string] "fn cap_::revoke(ctx: &SyscallContext, params: Value) -> SyscallResult";
   descriptor_new "kernel/cap/policy" "cap" "Manage capability policy" "Gets or sets the system-wide capability policy.

Permissions: caller must have `cap:policy` capability"
     ["cap:policy"%string] "fn cap_::policy(ctx: &SyscallContext, params: Value) -> SyscallResult"].
Definition sys_syscalls : list Syscall :=
  [descriptor_new "kernel/sys/info" "sys" "Get system information" "Returns system-wide information (version, uptime, etc.).

Permissions: none required"
     [] "fn sys_::info(ctx: &SyscallContext, params: Value) -> SyscallResult";
   descriptor_new "kernel/sys/boot-log" "sys" "Get boot log" "Returns the system boot log entries.

Permissions: admin only"
     ["admin:boot-log"%string] "fn sys_::boot_log(ctx: &SyscallContext, params: Value) -> SyscallResult";
   descriptor_new "kernel/sys/reboot" "sys" "Reboot the system" "Initiates a system reboot.

Permissions: admin only, requires confirm=true"
     ["admin:reboot"%string] "fn sys_::reboot(ctx: &SyscallContext, params: Value) -> SyscallResult"].
Definition sched_syscalls : list Syscall :=
  [descriptor_new "kernel/sched/cron-add" "sched" "Add cron job" "Adds a new scheduled cron job.

Permissions: caller must have `sched:cron` capability"
     ["sched:cron"%string] "fn sched_::cron_add(ctx: &SyscallContext, params: Value) -> SyscallResult";
   descriptor_new "kernel/sched/cron-remove" "sched" "Remove cron job" "Removes a scheduled cron job.

Permissions: caller must have `sched:cron` capability"
     ["sched:cron"%string] "fn sched_::cron_remove(ctx: &SyscallContext, params: Value) -> SyscallResult";
   descriptor_new "kernel/sched/cron-list" "sched" "List cron jobs" "Lists all scheduled cron jobs.

Permissions: caller must have `sched:cron` capability"
     ["sched:cron"%string] "fn sched_::cron_list(ctx: &SyscallContext, params: Value) -> SyscallResult"].
Definition snap_syscalls : list Syscall :=
  [descriptor_new "kernel/snap/save" "snap" "Save process snapshot" "Saves a snapshot of a process's state.

Permissions: caller must have `snap:save` capability"
     ["snap:save"%string] "fn snap_::save(ctx: &SyscallContext, params: Value) -> SyscallResult";
   descriptor_new "kernel/snap/restore" "snap" "Restore process snapshot" "Restores a process from a saved snapshot.

Permissions: caller must have `snap:restore` capability"
     ["snap:restore"%string] "fn snap_::restore(ctx: &SyscallContext, params: Value) -> SyscallResult";
   descriptor_new "kernel/snap/list" "snap" "List process snapshots" "Lists all snapshots for a process.

Permissions: caller must have `snap:list` capability"
     ["snap:list"%string] "fn snap_::list(ctx: &SyscallContext, params: Value) -> SyscallResult";
   descriptor_new "kernel/snap/delete" "snap" "Delete process snapshot" "Deletes a saved snapshot.

Permissions: caller must have `snap:delete` capability"
     ["snap:delete"%string] "fn snap_::delete(ctx: &SyscallContext, params: Value) -> SyscallResult"].
Definition package_syscalls : list Syscall :=
  [descriptor_new "proc/package/install-agent" "package" "Install agent from package" "Installs an agent pack from a remote URL or local file.

Permissions: caller must have `proc/package/install-agent` capability. For non-official sources, also requires `install:from-untrusted-source`."
     ["proc/package/install-agent"%string] "fn pkg_::install_agent(ctx: &SyscallContext, params: Value, avix_root: &Path) -> SyscallResult";
   descriptor_new "proc/package/install-service" "package" "Install service from package" "Installs a service pack from a remote URL or local file.

Permissions: caller must have `proc/package/install-service` capability. For non-official sources, also requires `install:from-untrusted-source`."
     ["proc/package/install-service"%string] "fn pkg_::install_service(ctx: &SyscallContext, params: Value, avix_root: &Path) -> SyscallResult";
   descriptor_new "proc/package/uninstall-agent" "package" "Uninstall agent" "Uninstalls an installed agent pack.

Permissions: caller must have `proc/package/install-agent` capability."
     ["proc/package/install-agent"%string] "fn pkg_::uninstall_agent(ctx: &SyscallContext, params: Value, avix_root: &Path) -> SyscallResult";
   descriptor_new "proc/package/uninstall-service" "package" "Uninstall service" "Uninstalls an installed service pack.

Permissions: caller must have `proc/package/install-service` capability."
     ["proc/package/install-service"%string] "fn pkg_::uninstall_service(ctx: &SyscallContext, params: Value, avix_root: &Path) -> SyscallResult";
   descriptor_new "proc/package/trust-add" "package" "Add trusted signing key" "Adds a trusted third-party signing key to the keyring.

Permissions: caller must have `auth:admin` capability."
     ["auth:admin"%string] "fn pkg_::trust_add(ctx: &SyscallContext, params: Value, avix_root: &Path) -> SyscallResult";
   descriptor_new "proc/package/trust-list" "package" "List trusted keys" "Lists all trusted third-party signing keys in the keyring."
     ["auth:admin"%string] "fn pkg_::trust_list(ctx: &SyscallContext, params: Value, avix_root: &Path) -> SyscallResult";
   descriptor_new "proc/package/trust-remove" "package" "Remove trusted key" "Removes a trusted third-party signing key from the keyring.

Permissions: caller must have `auth:admin` capability."
     ["auth:admin"%string] "fn pkg_::trust_remove(ctx: &SyscallContext, params: Value, avix_root: &Path) -> SyscallResult"].
Definition builtin_syscalls : list Syscall := proc_syscalls ++ fs_syscalls ++ cap_syscalls ++ sys_syscalls ++ sched_syscalls ++ snap_syscalls ++ package_syscalls.

Record SyscallRegistry : Type := { syscalls : list Syscall; by_name : gmap string nat }.
Fixpoint index_names (i : nat) (l : list Syscall) (m : gmap string nat) : gmap string nat :=
  match l with [] => m | s :: l => index_names (S i) l (<[sy_name s := i]> m) end.
Definition registry_new : SyscallRegistry := {| syscalls := builtin_syscalls; by_name := index_names 0 builtin_syscalls ∅ |}.
Definition registry_get (r : SyscallRegistry) (name : string) : option Syscall := i ← by_name r !! name; syscalls r !! i.
Definition list_by_domain (r : SyscallRegistry) (d : string) : list Syscall :=
  base.filter (fun s => String.eqb (sy_domain s) d = true) (syscalls r).
Fixpoint dedup (l : list string) : list string :=
  match l with
  | a :: ((b :: _) as t) => if String.eqb a b then dedup t else a :: dedup t
  | l => l
  end.
Definition domains (r : SyscallRegistry) : list string := dedup (str_sort (sy_domain <$> syscalls r)).

(** [ToolRegistry::add_kernel_syscalls] *)
Definition syscall_entry (s : Syscall) : result AvixError ToolEntry :=
  name ← map_err (fun e => ConfigParse (avix_error_to_string e)) (ToolName.parse (sy_name s));
  Ok (with_capabilities (entry_new name "kernel" Tool.Available Tool.All
    (JObj [("name", JStr (sy_name s)); ("description", JStr (sy_description s)); ("short", JStr (sy_short s));
           ("detailed", JStr (sy_detailed s)); ("domain", JStr (sy_domain s)); ("handler_signature", JStr (sy_handler s));
           ("capabilities_required", jstrs (sy_capabilities s))])%string) (sy_capabilities s)).
Definition add_kernel_syscalls (r : ToolRegistry) (sysreg : SyscallRegistry) : result AvixError (ToolRegistry * ToolChangedEvent) :=
  es ← mapM syscall_entry (syscalls sysreg); Ok (add r es).

(** ** Parameters *)

Definition missing (key : string) : SyscallError := Einval ("missing " +:+ key).
Definition opt_str (params : json) (key : string) : option string := jget params key ≫= as_str.
Definition need_str (params : json) (key : string) : result SyscallError string := ok_or (missing key) (opt_str params key).
Definition need_u64 (params : json) (key : string) : result SyscallError Z := ok_or (missing key) (jget params key ≫= as_u64).
Definition as_array (j : json) : option (list json) := match j with JArr l => Some l | _ => None end.

(** ** The domains that answer with fixed values *)

Module CapDomain.
Definition issue (params : json) : SyscallResult :=
  pid ← need_u64 params "target_pid";
  Ok (JObj [("token_id", JStr "cap-token-1"); ("target_pid", JInt pid);
            ("granted_tools", JArr (default [] (jget params "tools" ≫= as_array)))])%string.
Definition validate (params : json) : SyscallResult :=
  t ← need_str params "token_id"; Ok (JObj [("token_id", JStr t); ("valid", JBool true)])%string.
Definition revoke (params : json) : SyscallResult :=
  t ← need_str params "token_id"; Ok (JObj [("token_id", JStr t); ("revoked", JBool true)])%string.
Definition policy (params : json) : SyscallResult :=
  a ← need_str params "action"; Ok (JObj [("action", JStr a); ("policy", JStr "allow")])%string.
End CapDomain.

Module FsDomain.
Definition read (ctx : SyscallContext) (params : json) : SyscallResult :=
  p ← need_str params "path";
  if starts_with "/secrets/" p then Err (Eperm (caller_pid ctx) "fs/read /secrets/")
  else Ok (JObj [("path", JStr p); ("content", JStr "")])%string.
Definition write (ctx : SyscallContext) (params : json) : SyscallResult :=
  p ← need_str params "path";
  c ← need_str params "content";
  path ← map_err (fun e => Einval (avix_error_to_string e)) (VfsPath.parse p);
  if negb (VfsPath.is_agent_writable path) then
    Err (Eperm (caller_pid ctx) ("EPERM: " +:+ p +:+ " is kernel-owned and not writable by agents"))
  else Ok (JObj [("path", JStr p); ("bytes_written", JInt (Z.of_nat (String.length c)))])%string.
Definition list (params : json) : SyscallResult :=
  p ← need_str params "path"; Ok (JObj [("path", JStr p); ("entries", JArr [])])%string.
Definition exists_ (params : json) : SyscallResult :=
  p ← need_str params "path"; Ok (JObj [("path", JStr p); ("exists", JBool false)])%string.
Definition delete (params : json) : SyscallResult :=
  p ← need_str params "path"; Ok (JObj [("path", JStr p); ("deleted", JBool true)])%string.
Definition watch (params : json) : SyscallResult :=
  p ← need_str params "path"; Ok (JObj [("path", JStr p); ("watch_id", JStr "watch-1")])%string.
End FsDomain.

Module ProcDomain.
Definition spawn (params : json) : SyscallResult :=
  n ← need_str params "name"; Ok (JObj [("pid", JInt 100); ("name", JStr n); ("status", JStr "running")])%string.
Definition kill (params : json) : SyscallResult := p ← need_u64 params "pid"; Ok (JObj [("killed", JInt p)])%string.
Definition list (params : json) : SyscallResult := Ok (JObj [("processes", JArr [])])%string.
Definition info (params : json) : SyscallResult :=
  p ← need_u64 params "pid"; Ok (JObj [("pid", JInt p); ("status", JStr "running")])%string.
Definition wait (params : json) : SyscallResult :=
  p ← need_u64 params "pid"; Ok (JObj [("pid", JInt p); ("exit_code", JInt 0)])%string.
Definition signal (params : json) : SyscallResult :=
  p ← need_u64 params "pid";
  s ← need_str params "signal";
  Ok (JObj [("delivered", JBool true); ("pid", JInt p); ("signal", JStr s)])%string.
End ProcDomain.

Module SchedDomain.
Definition cron_add (params : json) : SyscallResult :=
  n ← need_str params "name";
  e ← need_str params "expression";
  Ok (JObj [("job_id", JStr "cron-1"); ("name", JStr n); ("expression", JStr e)])%string.
Definition cron_remove (params : json) : SyscallResult :=
  j ← need_str params "job_id"; Ok (JObj [("job_id", JStr j); ("removed", JBool true)])%string.
Definition cron_list (params : json) : SyscallResult := Ok (JObj [("jobs", JArr [])])%string.
End SchedDomain.

Module SnapDomain.
Definition save (params : json) : SyscallResult :=
  p ← need_u64 params "pid"; Ok (JObj [("snapshot_id", JStr "snap-1"); ("pid", JInt p)])%string.
Definition restore (params : json) : SyscallResult :=
  s ← need_str params "snapshot_id"; Ok (JObj [("snapshot_id", JStr s); ("restored", JBool true)])%string.
Definition list (params : json) : SyscallResult :=
  p ← need_u64 params "pid"; Ok (JObj [("pid", JInt p); ("snapshots", JArr [])])%string.
Definition delete (params : json) : SyscallResult :=
  s ← need_str params "snapshot_id"; Ok (JObj [("snapshot_id", JStr s); ("deleted", JBool true)])%string.
End SnapDomain.

(** ** The install quota *)

Record InstallQuota : Type := { window : Z; limit : Z }.
Definition SECOND : Z := 1000000000.
Definition INSTALL_QUOTA : InstallQuota := {| window := 3600 * SECOND; limit := 10 |}.
(** The count of a user and when it began. *)
Definition Counters : Type := gmap string (Z * Z).
(** [{:?}] of a duration. *)
Definition pad_zeros (width : nat) (n : Z) : string :=
  let s := pretty n in Nat.iter (width - String.length s) (String "0") s.
Fixpoint drop_zeros (s : string) : string :=
  match s with
  | EmptyString => EmptyString
  | String c t => match drop_zeros t with EmptyString => if bool_decide (c = "0"%char) then EmptyString else String c EmptyString | u => String c u end
  end.
Definition decimal (whole frac : Z) (width : nat) (unit_ : string) : string :=
  match drop_zeros (pad_zeros width frac) with
  | EmptyString => pretty whole +:+ unit_
  | f => pretty whole +:+ "." +:+ f +:+ unit_
  end.
Definition debug_duration (d : Z) : string :=
  if bool_decide (SECOND <= d) then decimal (d / SECOND) (d mod SECOND) 9 "s"
  else if bool_decide (1000000 <= d) then decimal (d / 1000000) (d mod 1000000) 6 "ms"
  else if bool_decide (1000 <= d) then decimal (d / 1000) (d mod 1000) 3 "µs"
  else decimal d 0 0 "ns".
Definition quota_exceeded (q : InstallQuota) : SyscallError :=
  Eperm 0 ("install quota exceeded: max " +:+ pretty (limit q) +:+ " installs per " +:+ debug_duration (window q)).
(** [InstallQuota::check]: a count whose time is over begins again. *)
Definition quota_check (q : InstallQuota) (now : Z) (user : string) (m : Counters) : result SyscallError unit * Counters :=
  let '(n, since) := default (0, now) (m !! user) in
  let '(n, since) := if bool_decide (window q < Z.max 0 (now - since)) then (0, now) else (n, since) in
  if bool_decide (limit q <= n) then (Err (quota_exceeded q), <[user := (n, since)]> m)
  else (Ok (), <[user := (n + 1, since)]> m).

(** ** [pkg_.rs] and [sys_.rs] *)

(** Only the official repository is trusted without a capability; [contains] is the first test. *)
Definition is_official (source : string) : bool :=
  str_contains "github.com/avadhpatel/avix" source || starts_with "github:avadhpatel/avix" source.
Definition check_capability (ctx : SyscallContext) (cap : string) : result SyscallError unit :=
  if negb (has_tool (ctx_token ctx) cap) then Err (Eperm (caller_pid ctx) ("missing capability: " +:+ cap)) else Ok ().
Definition check_untrusted_source (ctx : SyscallContext) (source : string) : result SyscallError unit :=
  if negb (is_official source) then check_capability ctx "install:from-untrusted-source" else Ok ().
Definition parse_scope (params : json) (username : string) : InstallScope :=
  if String.eqb (default "user"%string (opt_str params "scope")) "system" then InstallSystem else InstallUser username.
Definition caller_identity (params : json) : string := default "default"%string (opt_str params "caller_identity").
Definition requested_version (params : json) : option string :=
  v ← opt_str params "version"; if String.eqb v "latest" then None else Some v.
Definition no_verify (params : json) : bool := default false (jget params "no_verify" ≫= as_bool).

Section Calls.
Context {F : Type} `{!InstallWorld F, !Serde AgentManifest, !Serde TrustedKey}.
Variables (untar : bool -> string -> result string (list (result string TarEntry))) (sha256_hex : string -> string) (os arch : string).
Variables (unit_of_yaml : string -> result string ServiceManifest) (receipt_text : InstallReceipt -> result string string).
Context {Sig : Type}.
Variables (pgp : Pgp Sig) (rfc3339 : Z -> string).

Record Sys : Type := { world : F; counters : Counters }.
Definition set_world (s : Sys) (w : F) : Sys := {| world := w; counters := counters s |}.
Definition Call (A : Type) : Type := Sys -> result SyscallError A * Sys.
Definition call_bind {A B} (m : Call A) (f : A -> Call B) : Call B := fun s =>
  let '(r, s) := m s in match r with Ok a => f a s | Err e => (Err e, s) end.
#[local] Instance Call_bind : MBind Call := fun A B f m => call_bind m f.
Definition check {A} (r : result SyscallError A) : Call A := fun s => (r, s).
Definition ok (j : json) : Call json := fun s => (Ok j, s).
(** An operation of the installers; its error becomes one of the call. *)
Definition on_world {A} (wrap : string -> SyscallError) (m : IO (F := F) A) : Call A := fun s =>
  let '(r, w) := m (world s) in (map_err (fun e => wrap (avix_error_to_string e)) r, set_world s w).
Definition quota (mono : Z) (user : string) : Call unit := fun s =>
  let '(r, m) := quota_check INSTALL_QUOTA mono user (counters s) in (r, {| world := world s; counters := m |}).
Definition installed (name version dir : string) : json :=
  JObj [("name", JStr name); ("version", JStr version); ("install_dir", JStr dir)]%string.

Definition install_agent (mono : Z) (ctx : SyscallContext) (params : json) (root : string) : Call json :=
  _ ← check (check_capability ctx "proc/package/install-agent");
  let username := caller_identity params in
  _ ← quota mono username;
  source ← check (need_str params "source");
  _ ← check (if no_verify params then Ok () else check_untrusted_source ctx source);
  r ← on_world Eio (Packages.install_agent untar sha256_hex os arch root
        {| ar_source := source; ar_version := requested_version params; ar_scope := parse_scope params username;
           ar_checksum := opt_str params "checksum"; ar_no_verify := no_verify params |});
  ok (installed (agr_name r) (agr_version r) (agr_dir r)).

(** The package is fetched and checked, and then fetched again by the installer. *)
Definition install_service (mono utc : Z) (ctx : SyscallContext) (params : json) (root : string) : Call json :=
  _ ← check (check_capability ctx "proc/package/install-service");
  _ ← quota mono "default";
  source ← check (need_str params "source");
  _ ← check (if no_verify params then Ok () else check_untrusted_source ctx source);
  let checksum := opt_str params "checksum" in
  src ← on_world Einval (fun w => (resolve_source os arch w source (requested_version params), w));
  bytes ← on_world Eio (fetch_source src);
  _ ← check (match checksum with
             | Some ck => if no_verify params then Ok ()
                          else map_err (fun e => Einval (avix_error_to_string e)) (static_verify_checksum sha256_hex bytes ck)
             | None => Ok ()
             end);
  r ← on_world Eio (Packages.install_service untar sha256_hex unit_of_yaml receipt_text root utc
        {| ir_source := source; ir_checksum := checksum; ir_autostart := false |});
  ok (installed (res_name r) (res_version r) (res_dir r)).

Definition agent_target (root : string) (s : InstallScope) (name : string) : string := path_join (agents_dir root s) name.
Definition remove_agent (dir name : string) : Call json := fun s =>
  if negb (w_exists (world s) dir) then (Err (Einval ("agent not installed: " +:+ name)), s)
  else match w_remove_dir_all (world s) dir with
       | (Err e, w) => (Err (Eio ("failed to remove " +:+ name +:+ ": " +:+ e)), set_world s w)
       | (Ok _, w) => (Ok (JObj [("uninstalled"%string, JStr name)]), set_world s w)
       end.
Definition uninstall_agent (ctx : SyscallContext) (params : json) (root : string) : Call json :=
  _ ← check (check_capability ctx "proc/package/install-agent");
  name ← check (need_str params "name");
  remove_agent (agent_target root (parse_scope params (caller_identity params)) name) name.

(** The directories of any version of the service, in the order they are listed. *)
Fixpoint remove_versions (dir name : string) (es : list (string * bool)) (done_ : list string) : Call (list string) :=
  match es with
  | [] => fun s => (Ok done_, s)
  | (d, is_dir) :: es =>
      if is_dir && starts_with (name +:+ "@") d then fun s =>
        match w_remove_dir_all (world s) (path_join dir d) with
        | (Err e, w) => (Err (Eio ("failed to remove " +:+ d +:+ ": " +:+ e)), set_world s w)
        | (Ok _, w) => remove_versions dir name es (done_ ++ [d]) (set_world s w)
        end
      else remove_versions dir name es done_
  end.
Definition remove_service (dir name : string) : Call (list string) := fun s =>
  remove_versions dir name (match w_entries (world s) dir with Ok es => es | Err _ => [] end) [] s.
Definition uninstall_service (ctx : SyscallContext) (params : json) (root : string) : Call json :=
  _ ← check (check_capability ctx "proc/package/install-service");
  name ← check (need_str params "name");
  l ← remove_service (services_dir root) name;
  match l with
  | [] => check (Err (Einval ("service not installed: " +:+ name)))
  | _ => ok (JObj [("uninstalled"%string, jstrs l)])
  end.

Definition index_str (params : json) (key : string) : result SyscallError string := ok_or (missing key) (as_str (jindex params key)).
Definition trust_add (utc : Z) (ctx : SyscallContext) (params : json) (root : string) : Call json :=
  _ ← check (check_capability ctx "auth:admin");
  key ← check (index_str params "key_asc");
  lbl ← check (index_str params "label");
  let sources := match as_array (jindex params "allowed_sources") with Some l => omap as_str l | None => [] end in
  k ← on_world Einval (Packages.trust_add pgp (trust_dir root) utc key lbl sources);
  ok (JObj [("fingerprint", JStr (fingerprint k)); ("label", JStr (label k)); ("added_at", JStr (rfc3339 (added_at k)))]%string).
Definition trust_entry (k : TrustedKey) : json :=
  JObj [("fingerprint", JStr (fingerprint k)); ("label", JStr (label k)); ("added_at", JStr (rfc3339 (added_at k)));
        ("allowed_sources", jstrs (allowed_sources k))]%string.
Definition trust_list (root : string) : Call json :=
  ks ← on_world Eio (fun w => (Packages.trust_list (trust_dir root) w, w));
  ok (JObj [("keys"%string, JArr (map trust_entry ks))]).
Definition trust_remove (ctx : SyscallContext) (params : json) (root : string) : Call json :=
  _ ← check (check_capability ctx "auth:admin");
  fp ← check (index_str params "fingerprint");
  _ ← on_world Einval (Packages.trust_remove (trust_dir root) fp);
  ok (JObj [("removed"%string, JStr fp)]).

Definition sys_info : json :=
  JObj [("version", JStr "0.1.0"); ("platform", JStr os); ("arch", JStr arch); ("uptime_secs", JInt 0)]%string.
Definition boot_log (params : json) : json :=
  JObj [("lines", JArr []); ("limit", JInt (default 100 (jget params "limit" ≫= as_u64)))]%string.
Definition reboot (params : json) : SyscallResult :=
  c ← ok_or (missing "confirm") (jget params "confirm" ≫= as_bool);
  if negb c then Err (Einval "reboot requires confirm: true") else Ok (JObj [("rebooting"%string, JBool true)]).
(** A secret of a service is for the service's own agent and for administrators. *)
Definition secret_get `{!Cipher} (ctx : SyscallContext) (params : json) (s : SecretStore) (w : F) : SyscallResult :=
  owner ← ok_or (Einval "missing `owner`") (as_str (jindex params "owner"));
  name ← ok_or (Einval "missing `name`") (as_str (jindex params "name"));
  _ ← match strip_prefix "service:" owner with
      | Some svc =>
          let issued := match issued_to (ctx_token ctx) with Some i => agent_name i | None => EmptyString end in
          if negb (String.eqb issued svc) && negb (has_tool (ctx_token ctx) "auth:admin")
          then Err (Eperm (caller_pid ctx) "kernel/secret/get") else Ok ()
      | None => Ok ()
      end;
  v ← map_err (fun e => Enoent (secrets_error_to_string e)) (disk_get s owner name w);
  Ok (JObj [("value"%string, JStr v)]).
Definition sys_install (utc : Z) (ctx : SyscallContext) (params : json) (root : string) : Call json :=
  _ ← check (if negb (has_tool (ctx_token ctx) "auth:admin") then Err (Eperm (caller_pid ctx) "sys/install") else Ok ());
  source ← check (ok_or (Einval "missing `source`") (as_str (jindex params "source")));
  r ← on_world Einval (Packages.install_service untar sha256_hex unit_of_yaml receipt_text root utc
        {| ir_source := source; ir_checksum := as_str (jindex params "checksum");
           ir_autostart := default true (as_bool (jindex params "autostart")) |});
  ok (JObj [("name", JStr (res_name r)); ("version", JStr (res_version r)); ("tools", jstrs (res_tools r));
            ("install_dir", JStr (res_dir r))]%string).

(** ** [handler.rs] *)

Definition pure_calls (ctx : SyscallContext) (params : json) : list (string * SyscallResult) :=
  [("kernel/proc/spawn", ProcDomain.spawn params); ("kernel/proc/kill", ProcDomain.kill params);
   ("kernel/proc/list", ProcDomain.list params); ("kernel/proc/info", ProcDomain.info params);
   ("kernel/proc/wait", ProcDomain.wait params); ("kernel/proc/signal", ProcDomain.signal params);
   ("kernel/fs/read", FsDomain.read ctx params); ("kernel/fs/write", FsDomain.write ctx params);
   ("kernel/fs/list", FsDomain.list params); ("kernel/fs/exists", FsDomain.exists_ params);
   ("kernel/fs/delete", FsDomain.delete params); ("kernel/fs/watch", FsDomain.watch params);
   ("kernel/cap/issue", CapDomain.issue params); ("kernel/cap/validate", CapDomain.validate params);
   ("kernel/cap/revoke", CapDomain.revoke params); ("kernel/cap/policy", CapDomain.policy params);
   ("kernel/sys/info", Ok sys_info); ("kernel/sys/boot-log", Ok (boot_log params)); ("kernel/sys/reboot", reboot params);
   ("kernel/sched/cron-add", SchedDomain.cron_add params); ("kernel/sched/cron-remove", SchedDomain.cron_remove params);
   ("kernel/sched/cron-list", SchedDomain.cron_list params);
   ("kernel/snap/save", SnapDomain.save params); ("kernel/snap/restore", SnapDomain.restore params);
   ("kernel/snap/list", SnapDomain.list params); ("kernel/snap/delete", SnapDomain.delete params)]%string.
Definition package_calls (mono utc : Z) (ctx : SyscallContext) (params : json) : list (string * Call json) :=
  [("proc/package/install-agent", install_agent mono ctx params "/tmp");
   ("proc/package/install-service", install_service mono utc ctx params "/tmp");
   ("proc/package/uninstall-agent", uninstall_agent ctx params "/tmp");
   ("proc/package/uninstall-service", uninstall_service ctx params "/tmp");
   ("proc/package/trust-add", trust_add utc ctx params "/tmp"); ("proc/package/trust-list", trust_list "/tmp");
   ("proc/package/trust-remove", trust_remove ctx params "/tmp")]%string.
Definition dispatch (mono utc : Z) (ctx : SyscallContext) (method : string) (params : json) : Call json :=
  if negb (has_tool (ctx_token ctx) method) then check (Err (Eperm (caller_pid ctx) method))
  else match assoc_get method (pure_calls ctx params) with
       | Some r => check r
       | None =>
           match assoc_get method (package_calls mono utc ctx params) with
           | Some m => m
           | None => check (Err (Einval ("unknown syscall: " +:+ method)))
           end
       end.

(** ** The package methods of the kernel's socket ([kernel/ipc_server.rs])

    Each gives the operation a token of its own making, whoever calls. *)
Definition kernel_ctx (utc : Z) (cap : string) : SyscallContext := {| caller_pid := 0; ctx_token := test_token utc [cap] |}.
Definition kernel_package (mono utc : Z) (root method : string) (params : json) : option (Call json) :=
  assoc_get method
    [("kernel/proc/package/install-agent", install_agent mono (kernel_ctx utc "proc/package/install-agent") params root);
     ("kernel/proc/package/uninstall-agent", uninstall_agent (kernel_ctx utc "proc/package/install-agent") params root);
     ("kernel/proc/package/install-service", install_service mono utc (kernel_ctx utc "proc/package/install-service") params root);
     ("kernel/proc/package/uninstall-service", uninstall_service (kernel_ctx utc "proc/package/install-service") params root)]%string.
End Calls.

(** ** The quota *)

Section Quota.
Variable q : InstallQuota.
Implicit Types (m : gmap string (Z * Z)) (calls : list (string * Z)).

(** How many of a sequence of checks let the user through. *)
Fixpoint admitted (u : string) calls m : Z :=
  match calls with
  | [] => 0
  | (v, t) :: calls =>
      let '(r, m') := quota_check q t v m in
      (if bool_decide (v = u) && is_ok r then 1 else 0) + admitted u calls m'
  end.
Definition count_of m (u : string) (now : Z) : Z := (default (0, now) (m !! u)).1.

Lemma quota_check_other now v m u : u <> v -> (quota_check q now v m).2 !! u = m !! u.
Proof.
  intros Hu. unfold quota_check, Counters in *. destruct (default (0, now) (m !! v)) as [n since].
  by repeat case_bool_decide; cbn; rewrite lookup_insert_ne.
Qed.
(** The check of one user looks at and changes that user's count only. *)
Lemma quota_check_own now u m m' : m !! u = m' !! u ->
  (quota_check q now u m).1 = (quota_check q now u m').1 /\ (quota_check q now u m).2 !! u = (quota_check q now u m').2 !! u.
Proof.
  intros E. unfold quota_check, Counters in *. rewrite E. destruct (default (0, now) (m' !! u)) as [n since].
  by repeat case_bool_decide; cbn; rewrite !lookup_insert_eq.
Qed.
Lemma admitted_own u calls : forall m m', m !! u = m' !! u ->
  admitted u calls m = admitted u (base.filter (fun c => c.1 = u) calls) m'.
Proof.
  induction calls as [|[v t] calls IH]; intros m m' E; [done|]. cbn [admitted]. rewrite filter_cons. cbn [fst].
  destruct (decide (v = u)) as [->|Hne].
  - cbn [admitted]. destruct (quota_check_own t u m m' E) as [E1 E2].
    destruct (quota_check q t u m) as [r1 m1], (quota_check q t u m') as [r2 m2]. cbn in E1, E2. subst r2. by rewrite (IH m1 m2 E2).
  - rewrite bool_decide_false by done. pose proof (quota_check_other t v m u (not_eq_sym Hne)) as E2.
    destruct (quota_check q t v m) as [r1 m1]. unfold Counters in *. cbn in *. apply IH. congruence.
Qed.
(** A check that finds a count still running. *)
Lemma check_running u now m n since : m !! u = Some (n, since) -> now - since <= window q -> 0 <= window q ->
  quota_check q now u m = if bool_decide (limit q <= n) then (Err (quota_exceeded q), <[u := (n, since)]> m) else (Ok (), <[u := (n + 1, since)]> m).
Proof. intros E Hw H0. unfold quota_check, Counters in *. rewrite E. cbn. by rewrite (bool_decide_false (window q < _)) by lia. Qed.
Lemma check_over u now m n since : m !! u = Some (n, since) -> window q < now - since ->
  quota_check q now u m = if bool_decide (limit q <= 0) then (Err (quota_exceeded q), <[u := (0, now)]> m) else (Ok (), <[u := (1, now)]> m).
Proof. intros E Hw. unfold quota_check, Counters in *. rewrite E. cbn. by rewrite (bool_decide_true (window q < _)) by lia. Qed.
Lemma check_first u now m : 0 <= window q -> m !! u = None ->
  quota_check q now u m = if bool_decide (limit q <= 0) then (Err (quota_exceeded q), <[u := (0, now)]> m) else (Ok (), <[u := (1, now)]> m).
Proof. intros Hw E. unfold quota_check, Counters in *. rewrite E. cbn. by rewrite (bool_decide_false (window q < _)) by lia. Qed.

Lemma admitted_running u calls hi : forall m n since, 0 <= window q -> Forall (fun c => c.2 <= hi) calls -> hi - since <= window q ->
  m !! u = Some (n, since) -> admitted u calls m <= Z.max 0 (limit q - n).
Proof.
  induction calls as [|[v t] calls IH]; intros m n since H0 Hc Hs E; cbn [admitted]; [lia|]. apply Forall_cons in Hc as [Ht Hc]. cbn in Ht.
  destruct (decide (v = u)) as [->|Hne].
  - rewrite (check_running u t m n since E) by lia. rewrite (bool_decide_true (u = u)) by done. case_bool_decide; cbn [is_ok andb].
    + specialize (IH (<[u := (n, since)]> m) n since H0 Hc Hs (lookup_insert_eq _ _ _)). lia.
    + specialize (IH (<[u := (n + 1, since)]> m) (n + 1) since H0 Hc Hs (lookup_insert_eq _ _ _)). lia.
  - pose proof (quota_check_other t v m u (not_eq_sym Hne)) as E2. destruct (quota_check q t v m) as [r m1].
    rewrite bool_decide_false by done. unfold Counters in *. cbn in *. apply (IH m1 n since); congruence.
Qed.
Lemma admitted_any u calls lo : forall m n since, 0 <= window q -> 0 <= limit q -> Forall (fun c => lo <= c.2 <= lo + window q) calls ->
  m !! u = Some (n, since) -> admitted u calls m <= Z.max 0 (limit q - n) + limit q.
Proof.
  induction calls as [|[v t] calls IH]; intros m n since H0 Hl Hc E; cbn [admitted]; [lia|]. apply Forall_cons in Hc as [Ht Hc]. cbn in Ht.
  assert (Forall (fun c : string * Z => c.2 <= lo + window q) calls) as Hc2 by (eapply Forall_impl; [exact Hc|cbn; lia]).
  destruct (decide (v = u)) as [->|Hne].
  - rewrite (bool_decide_true (u = u)) by done. destruct (decide (window q < t - since)) as [Ho|Hr].
    + rewrite (check_over u t m n since E Ho). case_bool_decide; cbn [is_ok andb].
      * pose proof (admitted_running u calls (lo + window q) (<[u := (0, t)]> m) 0 t H0 Hc2 ltac:(lia) (lookup_insert_eq _ _ _)). lia.
      * pose proof (admitted_running u calls (lo + window q) (<[u := (1, t)]> m) 1 t H0 Hc2 ltac:(lia) (lookup_insert_eq _ _ _)). lia.
    + rewrite (check_running u t m n since E) by lia. case_bool_decide; cbn [is_ok andb].
      * specialize (IH (<[u := (n, since)]> m) n since H0 Hl Hc (lookup_insert_eq _ _ _)). lia.
      * specialize (IH (<[u := (n + 1, since)]> m) (n + 1) since H0 Hl Hc (lookup_insert_eq _ _ _)). lia.
  - pose proof (quota_check_other t v m u (not_eq_sym Hne)) as E2. destruct (quota_check q t v m) as [r m1].
    rewrite bool_decide_false by done. unfold Counters in *. cbn in *. apply (IH m1 n since); congruence.
Qed.
Lemma admitted_first u calls lo : forall m, 0 <= window q -> 0 <= limit q -> Forall (fun c => lo <= c.2 <= lo + window q) calls ->
  m !! u = None -> admitted u calls m <= limit q.
Proof.
  induction calls as [|[v t] calls IH]; intros m H0 Hl Hc E; cbn [admitted]; [lia|]. apply Forall_cons in Hc as [Ht Hc]. cbn in Ht.
  assert (Forall (fun c : string * Z => c.2 <= lo + window q) calls) as Hc2 by (eapply Forall_impl; [exact Hc|cbn; lia]).
  destruct (decide (v = u)) as [->|Hne].
  - rewrite (bool_decide_true (u = u)) by done. rewrite (check_first u t m H0 E). case_bool_decide; cbn [is_ok andb].
    + pose proof (admitted_running u calls (lo + window q) (<[u := (0, t)]> m) 0 t H0 Hc2 ltac:(lia) (lookup_insert_eq _ _ _)). lia.
    + pose proof (admitted_running u calls (lo + window q) (<[u := (1, t)]> m) 1 t H0 Hc2 ltac:(lia) (lookup_insert_eq _ _ _)). lia.
  - pose proof (quota_check_other t v m u (not_eq_sym Hne)) as E2. destruct (quota_check q t v m) as [r m1].
    rewrite bool_decide_false by done. unfold Counters in *. cbn in *. apply IH; congruence.
Qed.

(** C16: Within any span of one window the quota lets a user through at most twice its limit, and at most its limit when the user
    has not been counted before; what other users do makes no difference; and a user whose window is over gets through. *)
Theorem quota_bound u calls m lo :
  0 <= window q -> 0 <= limit q -> Forall (fun c => lo <= c.2 <= lo + window q) calls ->
  0 <= admitted u calls m <= Z.max 0 (limit q - count_of m u lo) + limit q /\
  (0 <= count_of m u lo -> admitted u calls m <= 2 * limit q) /\
  (m !! u = None -> admitted u calls m <= limit q) /\
  admitted u calls m = admitted u (base.filter (fun c => c.1 = u) calls) m /\
  (forall n since now, m !! u = Some (n, since) -> window q < now - since -> 0 < limit q -> is_ok (quota_check q now u m).1 = true).
Proof.
  intros H0 Hl Hc.
  assert (0 <= admitted u calls m) as Hp.
  { clear Hc. revert m. induction calls as [|[v t] calls IH]; intros m; cbn [admitted]; [lia|].
    destruct (quota_check q t v m) as [r m1]. specialize (IH m1). destruct (_ && _); lia. }
  assert (m !! u = None -> admitted u calls m <= limit q) as Hf by (intros E; by apply admitted_first with lo).
  assert (admitted u calls m <= Z.max 0 (limit q - count_of m u lo) + limit q) as Ha.
  { unfold count_of. destruct (m !! u) as [[n since]|] eqn:E; cbn; [by apply admitted_any with lo since|]. specialize (Hf eq_refl). lia. }
  split_and!; [done|done|lia|done|by apply admitted_own|].
  intros n since now E Hw Hl0. rewrite (check_over u now m n since E Hw). by rewrite bool_decide_false by lia.
Qed.
End Quota.

(** ** The registry's index *)

Lemma assoc_get_None {A} k (l : list (string * A)) : assoc_get k l = None <-> k ∉ l.*1.
Proof.
  induction l as [|[k' v] l IH]; cbn; [split; [intros _; apply not_elem_of_nil|done]|].
  rewrite not_elem_of_cons. case_decide; [|rewrite IH]; naive_solver.
Qed.
Lemma index_names_spec n l : forall i m, (n ∉ sy_name <$> l -> index_names i l m !! n = m !! n) /\
  (n ∈ sy_name <$> l -> exists k d, index_names i l m !! n = Some (i + k)%nat /\ l !! k = Some d /\ sy_name d = n).
Proof.
  induction l as [|d l IH]; intros i m; cbn [index_names fmap list_fmap]; [split; [done|by intros ?%not_elem_of_nil]|].
  destruct (IH (S i) (<[sy_name d := i]> m)) as [I1 I2]. split.
  - intros [Hn Hl]%not_elem_of_cons. by rewrite I1, lookup_insert_ne by done.
  - intros Hn. destruct (decide (n ∈ sy_name <$> l)) as [Hl|Hl].
    + destruct (I2 Hl) as (k & d' & E & ? & ?). exists (S k), d'. rewrite E. split_and!; [f_equal; lia|done..].
    + apply elem_of_cons in Hn as [->|]; [|done]. exists O, d. rewrite I1, lookup_insert_eq by done. split_and!; [f_equal; lia|done..].
Qed.
Definition syscall_names : list string := sy_name <$> builtin_syscalls.
Lemma registry_get_None n : registry_get registry_new n = None -> n ∉ syscall_names.
Proof.
  intros E Hn. destruct (index_names_spec n builtin_syscalls 0 ∅) as [_ (k & d & E1 & E2 & _)]; [done|].
  unfold registry_get in E. cbn [by_name syscalls registry_new] in E. rewrite E1 in E. cbn [mbind option_bind Nat.add] in E. congruence.
Qed.
Lemma registry_get_Some n d : registry_get registry_new n = Some d -> sy_name d = n /\ n ∈ syscall_names.
Proof.
  intros E. destruct (index_names_spec n builtin_syscalls 0 ∅) as [I1 I2]. unfold registry_get in E. cbn [by_name syscalls registry_new] in E.
  destruct (decide (n ∈ syscall_names)) as [Hn|Hn].
  - destruct (I2 Hn) as (k & d' & E1 & E2 & E3). rewrite E1 in E. cbn [mbind option_bind Nat.add] in E. split; [congruence|done].
  - by rewrite (I1 Hn), lookup_empty in E.
Qed.

(** Every system call becomes a tool of the kernel that all can see. *)
Lemma added_lookup (r : ToolRegistry) es n : n ∈ te_name <$> es ->
  exists rec, inner (add r es).1 !! n = Some rec /\ entry rec ∈ es /\ te_name (entry rec) = n.
Proof.
  unfold add. cbn [fst]. induction es as [|e es IH] using rev_ind; [by intros ?%not_elem_of_nil|].
  rewrite foldl_app, fmap_app, elem_of_app. cbn [foldl add_one inner]. intros Hn. destruct (decide (te_name e = n)) as [<-|Hne].
  - eexists. rewrite lookup_insert_eq. split; [done|]. cbn [entry]. split; [|done]. apply elem_of_app. right. by left.
  - destruct Hn as [Hn|Hn]; [|by apply list_elem_of_singleton in Hn]. destruct (IH Hn) as (rec & E & Hin & Hr).
    exists rec. rewrite lookup_insert_ne by done. split_and!; [done| |done]. apply elem_of_app. by left.
Qed.
Lemma kernel_tools (r : ToolRegistry) : exists r' ev, add_kernel_syscalls r registry_new = Ok (r', ev) /\
  forall n, n ∈ syscall_names -> exists e, ToolRegistry.lookup r' n = Ok e /\ te_owner e = "kernel"%string /\ te_visibility e = Tool.All.
Proof.
  assert (match mapM syscall_entry builtin_syscalls with
          | Ok es => (te_name <$> es, forallb (fun e => String.eqb (te_owner e) "kernel" && bool_decide (te_visibility e = Tool.All)) es)
          | Err _ => ([], false) end = (syscall_names, true)) as Hes by (vm_compute; reflexivity).
  change (syscalls registry_new) with builtin_syscalls in *.
  destruct (mapM syscall_entry builtin_syscalls) as [es|] eqn:E; [|done]. injection Hes as En Hk. rewrite forallb_forall in Hk.
  exists (add r es).1, (add r es).2. unfold add_kernel_syscalls. cbn [syscalls registry_new]. rewrite E. split; [done|].
  intros n Hn. rewrite <- En in Hn. destruct (added_lookup r es n Hn) as (rec & El & Hin & _). exists (entry rec).
  unfold ToolRegistry.lookup. rewrite El. split; [done|].
  apply list_elem_of_In, Hk, andb_true_iff in Hin as [Ho Hv]. apply String.eqb_eq in Ho. by apply bool_decide_eq_true in Hv.
Qed.

(** ** Who may install *)

Section Gate.
Context {F : Type} `{!InstallWorld F, !Serde AgentManifest, !Serde TrustedKey}.
Variables (untar : bool -> string -> result string (list (result string TarEntry))) (sha256_hex : string -> string) (os arch : string).
Variables (unit_of_yaml : string -> result string ServiceManifest) (receipt_text : InstallReceipt -> result string string).
Context {Sig : Type} (pgp : Pgp Sig) (rfc3339 : Z -> string).
Implicit Types (s : Sys (F := F)) (ctx : SyscallContext).

Lemma check_capability_spec ctx cap :
  check_capability ctx cap = if has_tool (ctx_token ctx) cap then Ok () else Err (Eperm (caller_pid ctx) ("missing capability: " +:+ cap)).
Proof. unfold check_capability. by destruct (has_tool _ _). Qed.
Lemma call_check {A B} (r : result SyscallError A) (f : A -> Call (F := F) B) s :
  call_bind (check r) f s = match r with Ok a => f a s | Err e => (Err e, s) end.
Proof. by destruct r. Qed.
Lemma call_quota {B} mono u (f : unit -> Call (F := F) B) s : call_bind (Syscalls.quota mono u) f s =
  let '(r, m) := quota_check INSTALL_QUOTA mono u (counters s) in
  match r with Ok a => f a {| world := world s; counters := m |} | Err e => (Err e, {| world := world s; counters := m |}) end.
Proof. unfold call_bind, Syscalls.quota. by destruct (quota_check _ _ _ _). Qed.
Lemma call_world {A B} wrap (op : IO (F := F) A) (f : A -> Call (F := F) B) s : call_bind (on_world wrap op) f s =
  let '(r, w) := op (world s) in
  match r with Ok a => f a (set_world s w) | Err e => (Err (wrap (avix_error_to_string e)), set_world s w) end.
Proof. unfold call_bind, on_world. by destruct (op (world s)) as [[a|e] w]. Qed.
(** What the source of a package must satisfy. *)
Definition source_allowed ctx (params : json) (source : string) : bool :=
  no_verify params || is_official source || has_tool (ctx_token ctx) "install:from-untrusted-source".
Lemma source_check ctx params source :
  (if no_verify params then Ok () else check_untrusted_source ctx source) =
  (if source_allowed ctx params source then Ok () else Err (Eperm (caller_pid ctx) "missing capability: install:from-untrusted-source")).
Proof.
  unfold source_allowed, check_untrusted_source. rewrite check_capability_spec.
  destruct (no_verify params), (is_official source), (has_tool _ _); done.
Qed.
Definition agent_request (params : json) (source : string) : AgentInstallRequest :=
  {| ar_source := source; ar_version := requested_version params; ar_scope := parse_scope params (caller_identity params);
     ar_checksum := opt_str params "checksum"; ar_no_verify := no_verify params |}.
Definition agent_answer (r : result AvixError AgentInstallResult) : SyscallResult :=
  match r with Ok a => Ok (installed (agr_name a) (agr_version a) (agr_dir a)) | Err e => Err (Eio (avix_error_to_string e)) end.

(** An agent package is fetched and installed exactly when the caller has the capability, the user's quota lets it through, a
    source is given, and that source is official, or the caller may install from others, or the request turns verification off.
    Otherwise the call fails and the disk is as it was.  Without the capability the quota is untouched, too; a refused source
    has used the quota up all the same. *)
Theorem install_gate mono ctx params root s :
  let user := caller_identity params in
  let run := install_agent untar sha256_hex os arch mono ctx params root s in
  let '(verdict, m) := quota_check INSTALL_QUOTA mono user (counters s) in
  (has_tool (ctx_token ctx) "proc/package/install-agent" = false ->
     run = (Err (Eperm (caller_pid ctx) "missing capability: proc/package/install-agent"), s)) /\
  (has_tool (ctx_token ctx) "proc/package/install-agent" = true ->
     (forall e, verdict = Err e -> run = (Err e, {| world := world s; counters := m |})) /\
     (verdict = Ok () ->
        (opt_str params "source" = None -> run = (Err (Einval "missing source"), {| world := world s; counters := m |})) /\
        (forall source, opt_str params "source" = Some source ->
           (source_allowed ctx params source = false ->
              run = (Err (Eperm (caller_pid ctx) "missing capability: install:from-untrusted-source"), {| world := world s; counters := m |})) /\
           (source_allowed ctx params source = true ->
              let '(r, w) := Packages.install_agent untar sha256_hex os arch root (agent_request params source) (world s) in
              run = (agent_answer r, {| world := w; counters := m |}))))).
Proof.
  cbn zeta. unfold install_agent, mbind, Call_bind.
  destruct (quota_check INSTALL_QUOTA mono (caller_identity params) (counters s)) as [verdict m] eqn:Q.
  rewrite call_check, check_capability_spec. split; [by intros ->|intros ->]. rewrite call_quota, Q.
  split; [by intros e ->|intros ->]. rewrite call_check. unfold need_str. split; [by intros ->|intros source ->]. cbn [ok_or].
  rewrite call_check, source_check. split; [by intros ->|intros ->]. rewrite call_world. cbn [world]. unfold agent_request.
  destruct (Packages.install_agent _ _ _ _ _ _ _) as [[a|e] w]; done.
Qed.


Lemma served_names mono utc ctx params n : n ∈ syscall_names <->
  n ∈ (pure_calls os arch ctx params).*1 ++
      (package_calls untar sha256_hex os arch unit_of_yaml receipt_text pgp rfc3339 mono utc ctx params).*1.
Proof. by replace (_ ++ _) with syscall_names by (lazy; reflexivity). Qed.

(** Without the method among its tools a caller gets EPERM from the dispatcher and nothing changes; with it, a method is
    served exactly when the registry lists it. *)
Theorem dispatch_registry mono utc ctx method params s :
  let run := dispatch untar sha256_hex os arch unit_of_yaml receipt_text pgp rfc3339 mono utc ctx method params s in
  (has_tool (ctx_token ctx) method = false -> run = (Err (Eperm (caller_pid ctx) method), s)) /\
  (registry_get registry_new method = None -> has_tool (ctx_token ctx) method = true -> run = (Err (Einval ("unknown syscall: " +:+ method)), s)) /\
  (forall d, registry_get registry_new method = Some d -> has_tool (ctx_token ctx) method = true ->
     sy_name d = method /\
     ((exists r, assoc_get method (pure_calls os arch ctx params) = Some r /\ run = (r, s)) \/
      (exists m, assoc_get method (package_calls untar sha256_hex os arch unit_of_yaml receipt_text pgp rfc3339 mono utc ctx params) = Some m /\ run = m s))).
Proof.
  cbn zeta. unfold dispatch. split; [by intros ->|]. split.
  - intros Hm ->. cbn [negb]. apply registry_get_None in Hm. rewrite served_names in Hm. apply not_elem_of_app in Hm as [H1 H2].
    apply assoc_get_None in H1. rewrite H1. by apply assoc_get_None in H2 as ->.
  - intros d Hd ->. cbn [negb]. apply registry_get_Some in Hd as [Hn Hin]. split; [done|]. rewrite served_names in Hin.
    destruct (assoc_get method (pure_calls os arch ctx params)) as [r|] eqn:E1; [left; by exists r|right].
    destruct (assoc_get method (package_calls _ _ _ _ _ _ _ _ _ _ _ _)) as [m|] eqn:E2; [by exists m|].
    apply assoc_get_None in E1, E2. by apply elem_of_app in Hin as [|].
Qed.
End Gate.

(** ** Secrets, uninstalling, and the tools *)

Section Access.
Context {F : Type} `{!InstallWorld F}.

(** A secret is handed out only as the store has it, and one whose owner is written as a service only to the agent of that
    name or to an administrator; any other owner's secret is handed out to whoever asks: the call itself asks for no
    capability. *)
Theorem secret_guard `{!Cipher} ctx params st (w : F) j :
  secret_get ctx params st w = Ok j <->
  exists owner name v, jget params "owner" = Some (JStr owner) /\ jget params "name" = Some (JStr name) /\
    disk_get st owner name w = Ok v /\ j = JObj [("value"%string, JStr v)] /\
    (forall svc, strip_prefix "service:" owner = Some svc ->
       default EmptyString (agent_name <$> issued_to (ctx_token ctx)) = svc \/ has_tool (ctx_token ctx) "auth:admin" = true).
Proof.
  assert (forall k v, as_str (jindex params k) = Some v <-> jget params k = Some (JStr v)) as Hk.
  { intros k v. unfold jindex. destruct (jget params k) as [[]|]; cbn; naive_solver. }
  unfold secret_get. destruct (as_str (jindex params "owner")) as [owner|] eqn:Eo; cbn [ok_or mbind result_bind].
  2: { split; [done|]. intros (o & ? & ? & E & _). apply Hk in E. congruence. }
  destruct (as_str (jindex params "name")) as [name|] eqn:En; cbn [ok_or mbind result_bind].
  2: { split; [done|]. intros (? & n & ? & _ & E & _). apply Hk in E. congruence. }
  pose proof (proj1 (Hk _ _) Eo) as Eo'. pose proof (proj1 (Hk _ _) En) as En'.
  set (gate := match strip_prefix "service:" owner with Some _ => _ | None => _ end).
  assert (gate = Ok () <-> forall svc, strip_prefix "service:" owner = Some svc ->
       default EmptyString (agent_name <$> issued_to (ctx_token ctx)) = svc \/ has_tool (ctx_token ctx) "auth:admin" = true) as Hg.
  { unfold gate. destruct (strip_prefix "service:" owner) as [svc|]; [|by split].
    assert (match issued_to (ctx_token ctx) with Some i => agent_name i | None => EmptyString end =
            default EmptyString (agent_name <$> issued_to (ctx_token ctx))) as -> by by destruct (issued_to _).
    destruct (String.eqb_spec (default EmptyString (agent_name <$> issued_to (ctx_token ctx))) svc), (has_tool (ctx_token ctx) "auth:admin"); cbn;
      split; try done; [by intros _ ? [= <-]; left|by intros _ ? [= <-]; left|by intros _ ? [= <-]; right|].
    intros Hs. by destruct (Hs svc eq_refl). }
  destruct gate as [[]|e]; cbn [mbind result_bind].
  - destruct (disk_get st owner name w) as [v|e] eqn:Ed; cbn [map_err mbind result_bind]; split.
    + intros [= <-]. exists owner, name, v. by rewrite <- Hg.
    + intros (o & n & v' & E1 & E2 & E3 & -> & _). congruence.
    + done.
    + intros (o & n & v' & E1 & E2 & E3 & _). congruence.
  - split; [done|]. intros (o & n & v' & E1 & E2 & E3 & _ & Hs). rewrite Eo' in E1. injection E1 as <-. by apply Hg in Hs.
Qed.

(** Uninstalling an agent removes one directory or nothing: the one that joining the name to the agents' directory gives.
    For the name with its version that is the directory the installation made; for any name that is one part of a path it is
    an entry of the agents' directory. *)
Theorem uninstall_target ctx params root (s : Sys (F := F)) :
  let dir := agents_dir root (parse_scope params (caller_identity params)) in
  let run := uninstall_agent ctx params root s in
  (forall name, opt_str params "name" = Some name -> has_tool (ctx_token ctx) "proc/package/install-agent" = true -> w_exists (world s) (path_join dir name) = true ->
     world run.2 = (w_remove_dir_all (world s) (path_join dir name)).2 /\ (is_ok run.1 = true <-> is_ok (w_remove_dir_all (world s) (path_join dir name)).1 = true)) /\
  ((forall name, opt_str params "name" = Some name -> has_tool (ctx_token ctx) "proc/package/install-agent" = true -> w_exists (world s) (path_join dir name) = false) ->
     is_ok run.1 = false /\ run.2 = s) /\
  (forall m, path_join dir (versioned (mm_name (am_metadata m)) (mm_version (am_metadata m))) =
     agent_dir root (parse_scope params (caller_identity params)) m) /\
  (forall name, plain name -> ends_with_slash dir = false -> dir <> EmptyString -> path_components (path_join dir name) = path_components dir ++ [name]).
Proof.
  cbn zeta. unfold uninstall_agent, mbind, Call_bind. rewrite call_check, check_capability_spec. unfold need_str, agent_target.
  split_and!.
  - intros name Hn -> He. rewrite call_check, Hn. cbn [ok_or]. unfold remove_agent. rewrite He. cbn [negb].
    destruct (w_remove_dir_all _ _) as [[]]; done.
  - intros Hn. destruct (has_tool _ _) eqn:Ht; [|done]. rewrite call_check. destruct (opt_str params "name") as [name|] eqn:E; [|done].
    cbn [ok_or]. unfold remove_agent. by rewrite (Hn name eq_refl eq_refl).
  - done.
  - intros name [Ho Hd] Hs Hne. by apply components_join.
Qed.
End Access.

(** ** A caller, a package, a key *)

Module Toy.
Import Packages.Toy Secrets.Toy Manifests.Toy.
#[local] Existing Instance disk_world.
#[local] Existing Instance manifest_text_form.
#[local] Existing Instance toy_cipher.
#[local] Instance key_text_form : Serde TrustedKey := {|
  to_string k := Ok (label k);
  from_str s := Ok {| fingerprint := "F"; label := s; added_at := 0; allowed_sources := [] |} |}.
Definition no_unit (_ : string) : result string ServiceManifest := Err "no unit"%string.
Definition no_text (_ : InstallReceipt) : result string string := Ok EmptyString.
Definition toy_pgp : Pgp string := {|
  pgp_fingerprint k := Ok k; pgp_signature s := Ok s; pgp_key _ := Ok (); pgp_issuer s := Some s; pgp_verify s k d := Ok () |}.

(** Ten calls in the last seconds of one window and ten in the first of the next, for a limit of ten. *)
Definition burst : list (string * Z) := replicate 10 ("alice"%string, 3599 * SECOND) ++ replicate 10 ("alice"%string, 3601 * SECOND).
Lemma quota_bound_witness : admitted INSTALL_QUOTA "alice" burst {[ "alice"%string := (0, 0) ]} = 20 /\
  admitted INSTALL_QUOTA "alice" burst {[ "alice"%string := (0, 0) ]} <= 2 * limit INSTALL_QUOTA.
Proof.
  split; [vm_compute; reflexivity|].
  apply (proj1 (proj2 (quota_bound INSTALL_QUOTA "alice" burst {[ "alice"%string := (0, 0) ]} (3599 * SECOND)
    ltac:(vm_compute; discriminate) ltac:(vm_compute; discriminate)
    ltac:(unfold burst; cbn [replicate app]; repeat constructor; vm_compute; discriminate)))).
  vm_compute. discriminate.
Defined.

Definition third_party (nv : bool) : json :=
  JObj [("source", JStr "file:///in/agent.tar"); ("caller_identity", JStr "alice"); ("checksum", JStr "sha256:99"); ("no_verify", JBool nv)]%string.
Definition fresh_sys : Sys (F := disk) := {| world := before; counters := ∅ |}.
Definition caller (ts : list string) : SyscallContext := {| caller_pid := 42; ctx_token := test_token 0 ts |}.

Lemma install_gate_witness :
  install_agent archives digest "linux" "x86_64" 0 (caller ["proc/package/install-agent"%string]) (third_party false) "/av" fresh_sys =
  (Err (Eperm 42 "missing capability: install:from-untrusted-source"), {| world := before; counters := {[ "alice"%string := (1, 0) ]} |}).
Proof.
  pose proof (install_gate archives digest "linux" "x86_64" 0 (caller ["proc/package/install-agent"%string]) (third_party false) "/av" fresh_sys) as G.
  cbn zeta in G.
  assert (quota_check INSTALL_QUOTA 0 (caller_identity (third_party false)) (counters fresh_sys) = (Ok (), {[ "alice"%string := (1, 0) ]})) as E
    by (vm_compute; reflexivity).
  rewrite E in G. destruct G as [_ G]. specialize (G eq_refl). destruct G as [_ G]. specialize (G eq_refl). destruct G as [_ G].
  specialize (G "file:///in/agent.tar"%string eq_refl). apply (proj1 G). vm_compute. reflexivity.
Defined.


Lemma dispatch_registry_witness :
  dispatch archives digest "linux" "x86_64" no_unit no_text toy_pgp (fun z => pretty z) 0 0 (caller ["kernel/proc/kill"%string]) "kernel/proc/list" JNull fresh_sys =
  (Err (Eperm 42 "kernel/proc/list"), fresh_sys).
Proof.
  apply (proj1 (dispatch_registry archives digest "linux" "x86_64" no_unit no_text toy_pgp (fun z => pretty z) 0 0 (caller ["kernel/proc/kill"%string])
    "kernel/proc/list" JNull fresh_sys)). reflexivity.
Defined.

Definition vault_disk : disk := (Secrets.set nonce vault "service:github" "key" "val" before).2.
Definition asks (owner : string) : json := JObj [("owner", JStr owner); ("name", JStr "key")]%string.
Lemma secret_guard_witness : secret_get (caller []) (asks "service:github") vault vault_disk = Err (Eperm 42 "kernel/secret/get") /\
  secret_get (caller ["auth:admin"%string]) (asks "service:github") vault vault_disk = Ok (JObj [("value", JStr "val")]%string).
Proof.
  split; [reflexivity|]. apply secret_guard. exists "service:github"%string, "key"%string, "val"%string.
  split; [reflexivity|split; [reflexivity|split; [vm_compute; reflexivity|split; [reflexivity|]]]]. intros svc Hs. right. vm_compute. reflexivity.
Defined.
(** The guard looks at the text of the owner; the path of another owner can name the same place. *)
Example guard_by_text : path_components (secret_path vault "user:../service/github" "key") =
  ["/"; "data"; "secrets"; "user"; ".."; "service"; "github"; "key.enc"]%string /\ strip_prefix "service:" "user:../service/github" = None.
Proof. split; vm_compute; reflexivity. Qed.

Definition removal (name : string) : json := JObj [("name", JStr name); ("caller_identity", JStr "alice")]%string.
Lemma uninstall_target_witness :
  (uninstall_agent (caller ["proc/package/install-agent"%string]) (removal "researcher") "/av" fresh_sys).2 = fresh_sys.
Proof.
  apply (proj1 (proj2 (uninstall_target (caller ["proc/package/install-agent"%string]) (removal "researcher") "/av" fresh_sys))).
  intros name Hn _. injection Hn as <-. vm_compute. reflexivity.
Defined.
(** An absolute name leaves the agents' directory. *)
Example absolute_name : agent_target "/av" (InstallUser "alice") "/etc" = "/etc"%string.
Proof. reflexivity. Qed.
End Toy.
