(* ===== verification/KernelIpc.v ===== *)
(** * The kernel's socket: one request, one handler, one answer

    Models [kernel/ipc_server.rs]: [handle_message] and [dispatch_request] with a definition for every
    method, over the process handlers of [Proc] and [AgentsYaml], the history of [History], the files of
    [Vfs].  [Kernel] is what the handlers share.  Outside the model and given by [Host]: serde's derived
    conversions between records and JSON values, base64, the agents a scan finds, the services the manager
    runs ([Services.list_running]) and the package operations ([Syscalls.kernel_package]), whose work is on disk and
    on the network and touches nothing of [Kernel].  [None] is a request that waits for a full signal channel. *)

From S2P Require Import Prelude Types Token Channels ToolRegistry Vfs Process Signals Router Resources Services Text Store Sessions Invocations History Proc Lifecycle AgentsYaml Syscalls Json.
Local Open Scope Z_scope.

Create HintDb kernel.

(** ** The methods *)

Inductive Op : Type :=
| OpSpawn | OpList | OpKill | OpStat | OpPause | OpResume | OpWait | OpSetcap | OpListInstalled
| OpInvocationList | OpInvocationConversation | OpInvocationGet | OpInvocationSnapshot
| OpMessageCreate | OpMessageGet | OpMessageList | OpPartCreate | OpPartGet | OpPartList
| OpSessionList | OpSessionGet | OpSessionPause | OpSessionResume | OpSessionDelete
| OpInstallAgent | OpUninstallAgent | OpInstallService | OpUninstallService
| OpServiceList | OpToolList | OpSignalSend | OpFsRead | OpFsWrite | OpFsList | OpFsExists | OpFsDelete.
#[global] Instance Op_eq_dec : EqDecision Op.
Proof. solve_decision. Defined.

Definition op_name (o : Op) : string :=
  match o with
  | OpSpawn => "kernel/proc/spawn" | OpList => "kernel/proc/list" | OpKill => "kernel/proc/kill"
  | OpStat => "kernel/proc/stat" | OpPause => "kernel/proc/pause" | OpResume => "kernel/proc/resume"
  | OpWait => "kernel/proc/wait" | OpSetcap => "kernel/proc/setcap"
  | OpListInstalled => "kernel/proc/list-installed" | OpInvocationList => "kernel/proc/invocation-list"
  | OpInvocationConversation => "kernel/proc/invocation-conversation"
  | OpInvocationGet => "kernel/proc/invocation-get" | OpInvocationSnapshot => "kernel/proc/invocation-snapshot"
  | OpMessageCreate => "kernel/proc/message-create" | OpMessageGet => "kernel/proc/message-get"
  | OpMessageList => "kernel/proc/message-list" | OpPartCreate => "kernel/proc/part-create"
  | OpPartGet => "kernel/proc/part-get" | OpPartList => "kernel/proc/part-list"
  | OpSessionList => "kernel/proc/session/list" | OpSessionGet => "kernel/proc/session/get"
  | OpSessionPause => "kernel/proc/session/pause" | OpSessionResume => "kernel/proc/session/resume"
  | OpSessionDelete => "kernel/proc/session/delete"
  | OpInstallAgent => "kernel/proc/package/install-agent" | OpUninstallAgent => "kernel/proc/package/uninstall-agent"
  | OpInstallService => "kernel/proc/package/install-service"
  | OpUninstallService => "kernel/proc/package/uninstall-service"
  | OpServiceList => "kernel/sys/service-list" | OpToolList => "kernel/sys/tool-list"
  | OpSignalSend => "kernel/signal/send" | OpFsRead => "fs/read" | OpFsWrite => "fs/write" | OpFsList => "fs/list"
  | OpFsExists => "fs/exists" | OpFsDelete => "fs/delete"
  end.
Definition all_ops : list Op :=
  [OpSpawn; OpList; OpKill; OpStat; OpPause; OpResume; OpWait; OpSetcap; OpListInstalled; OpInvocationList;
   OpInvocationConversation; OpInvocationGet; OpInvocationSnapshot; OpMessageCreate; OpMessageGet; OpMessageList;
   OpPartCreate; OpPartGet; OpPartList; OpSessionList; OpSessionGet; OpSessionPause; OpSessionResume; OpSessionDelete;
   OpInstallAgent; OpUninstallAgent; OpInstallService; OpUninstallService; OpServiceList; OpToolList; OpSignalSend;
   OpFsRead; OpFsWrite; OpFsList; OpFsExists; OpFsDelete].
Definition op_of (method : string) : option Op := find (fun o => String.eqb (op_name o) method) all_ops.

Lemma op_of_name o : op_of (op_name o) = Some o.
Proof. by destruct o. Qed.
Lemma op_of_Some m o : op_of m = Some o -> m = op_name o.
Proof. unfold op_of. intros [_ H]%find_some. by apply String.eqb_eq in H. Qed.

(** ** The parameters of a request *)

Definition str_param (params : json) (key dflt : string) : string := default dflt (as_str (jindex params key)).
(** [params["id"].as_u64().or_else(|| params["pid"].as_u64()).unwrap_or(0)] *)
Definition pid_param (params : json) : Z :=
  match as_u64 (jindex params "id") with
  | Some p => p
  | None => default 0 (as_u64 (jindex params "pid"))
  end.

(** A caller without a name is the kernel itself. *)
Definition session_ownership_ok (owner caller : string) (privileged : bool) : bool :=
  String.eqb caller EmptyString || privileged || String.eqb owner caller.

Definition fail (id : string) (e : AvixError) : JsonRpcResponse := rpc_err id (-32000) (avix_error_to_string e) None.
Definition j_ok : json := JObj [("ok", JBool true)]%string.
Definition answer_with {A} (id : string) (f : A -> json) (r : result AvixError A) : JsonRpcResponse :=
  match r with Ok a => rpc_ok id (f a) | Err e => fail id e end.

Section Kernel.
Context {SS IS C F Db D : Type} `{!SessionStoreI SS, !InvocationStoreI IS, !Mpsc Signal C, !UuidText}.
Context `{!FileOps F, !YamlText, !Redb Db, !Serde MessageRecord, !Serde PartRecord, !Disk D}.
Variable hmac : string -> string -> string.
Variable syscalls : list CapabilityResolver.Syscall.
Variable yaml_of_names : list string -> string.

Record Host : Type := {
  v_invocation : InvocationRecord -> json;
  v_entry : ConversationEntry -> json;
  v_session : SessionRecord -> json;
  v_message : MessageRecord -> json;
  v_part : PartRecord -> json;
  v_service : ServiceSummary -> json;
  message_of_value : json -> result string MessageRecord;
  part_of_value : json -> result string PartRecord;
  base64 : string -> string;
  list_installed : string -> json;
  list_running : option (list ServiceSummary);
  package : Op -> json -> result SyscallError json
}.

Record Config : Type := { proc_config : ProcConfig; agents_yaml_path : string }.

Record Kernel : Type := {
  kproc : Proc (SS := SS) (IS := IS) (C := C);
  history : option Db;
  files : F;
  vfs : VfsRouter D
}.
Implicit Types k : Kernel.
Definition set_proc k p : Kernel := {| kproc := p; history := history k; files := files k; vfs := vfs k |}.
Definition set_spawned k (x : Proc (SS := SS) (IS := IS) (C := C) * F) : Kernel :=
  {| kproc := x.1; history := history k; files := x.2; vfs := vfs k |}.
Definition set_history k h : Kernel := {| kproc := kproc k; history := h; files := files k; vfs := vfs k |}.
Definition set_vfs k v : Kernel := {| kproc := kproc k; history := history k; files := files k; vfs := v |}.

(** What the handling of a request draws from outside: [fresh] for a spawn, [at_ n] the clock of its [n]-th
    operation. *)
Record Draw : Type := { fresh : Fresh; at_ : nat -> Z }.

(** ** Processes *)

Definition h_spawn (cf : Config) (dr : Draw) (id : string) (params : json) k : JsonRpcResponse * Kernel :=
  let '(r, x) := AgentsYaml.spawn hmac syscalls (proc_config cf) (fresh dr) (kproc k) (files k) (agents_yaml_path cf)
                   (str_param params "name" "unnamed") (str_param params "goal" "") (str_param params "session_id" "")
                   (str_param params "atp_session_id" "") (str_param params "caller" "gateway")
                   (as_u64 (jindex params "parent_pid")) in
  (answer_with id (fun pid => JObj [("pid", JInt pid); ("status", JStr "running")]%string) r, set_spawned k x).

Definition j_agent (a : ActiveAgent) : json :=
  JObj [("pid", JInt (aa_pid a)); ("name", JStr (aa_name a)); ("status", JStr (aa_status a)); ("goal", JStr (aa_goal a))]%string.
Definition h_list (id : string) k : JsonRpcResponse := rpc_ok id (JArr (map j_agent (proc_list (kproc k)))).

Definition kill_proc (id : string) (pid : Z) k : JsonRpcResponse * Kernel :=
  match Process.set_status (process_table (kproc k)) pid Stopped with
  | Ok t => (rpc_ok id j_ok, set_proc k (with_table (kproc k) t))
  | Err e => (rpc_err id (-32003) (avix_error_to_string e) None, k)
  end.
Definition h_kill (dr : Draw) (id : string) (params : json) k : JsonRpcResponse * Kernel :=
  kill_proc id (pid_param params) (set_proc k (abort_agent (at_ dr 0) (kproc k) (pid_param params))).

Definition stat_proc (id : string) (pid : Z) (t : ProcessTable) : JsonRpcResponse :=
  match Process.get t pid with
  | Some e => rpc_ok id (JObj [("pid", JInt pid); ("name", JStr (Process.name e));
                               ("status", JStr (status_str (Process.status e))); ("goal", JStr (Process.goal e))]%string)
  | None => rpc_err id (-32003) ("pid " +:+ pretty pid +:+ " not found")%string None
  end.

(** [pause_agent] and [resume_agent] of a handler cannot fail. *)
Definition h_pause (dr : Draw) (id : string) (params : json) k : option (JsonRpcResponse * Kernel) :=
  p ← pause_agent (at_ dr 0) (kproc k) (pid_param params); Some (rpc_ok id j_ok, set_proc k p).
Definition h_resume (dr : Draw) (id : string) (params : json) k : option (JsonRpcResponse * Kernel) :=
  p ← resume_agent (at_ dr 0) (kproc k) (pid_param params); Some (rpc_ok id j_ok, set_proc k p).

(** ** Invocations *)

Definition h_invocation_list (h : Host) (id : string) (params : json) k : JsonRpcResponse :=
  let session := str_param params "session_id" "" in
  answer_with id (fun l => JArr (map (v_invocation h) l))
    (if negb (String.eqb session EmptyString) then list_invocations_for_session (kproc k) session
     else list_invocations (kproc k) (str_param params "username" "") (as_str (jindex params "agent_name"))
            (default true (as_bool (jindex params "live")))).
Definition h_invocation_conversation (h : Host) (id : string) (params : json) k : JsonRpcResponse :=
  answer_with id (fun l => JArr (map (v_entry h) l)) (read_invocation_conversation (kproc k) (str_param params "id" "")).
Definition h_invocation_get (h : Host) (id : string) (params : json) k : JsonRpcResponse :=
  let inv := str_param params "id" "" in
  match get_invocation (kproc k) inv with
  | Ok (Some r) => rpc_ok id (v_invocation h r)
  | Ok None => rpc_err id (-32003) ("invocation " +:+ inv +:+ " not found")%string None
  | Err e => fail id e
  end.
Definition h_invocation_snapshot (h : Host) (id : string) (params : json) k : JsonRpcResponse * Kernel :=
  let '(r, p) := snapshot_invocation (kproc k) (str_param params "id" "") in
  (match r with
   | Ok r => rpc_ok id (JObj [("success", JBool true); ("record", v_invocation h r)]%string)
   | Err (NotFound _ as e) => rpc_err id (-32003) (avix_error_to_string e) None
   | Err (InvalidInput _ as e) => rpc_err id (-32001) (avix_error_to_string e) None
   | Err e => fail id e
   end, set_proc k p).

(** ** History *)

(** A record is read from a field of the parameters, [Null] when it is absent, and stored. *)
Definition h_create {A} (what : string) (of_value : json -> result string A)
    (create : option Db -> A -> result AvixError unit * option Db) (id : string) (params : json) k : JsonRpcResponse * Kernel :=
  match of_value (jindex params what) with
  | Err e => (rpc_err id (-32002) ("invalid " +:+ what +:+ ": " +:+ e)%string None, k)
  | Ok x => let '(r, h) := create (history k) x in (answer_with id (fun _ => j_ok) r, set_history k h)
  end.
Definition h_get {A} (what : string) (value : A -> json) (get : option Db -> Z -> result AvixError (option A))
    (id : string) (params : json) k : JsonRpcResponse :=
  let raw := str_param params "id" "" in
  match parse_str raw with
  | Err _ => rpc_err id (-32002) ("invalid " +:+ what +:+ " UUID")%string None
  | Ok u =>
      match get (history k) u with
      | Ok (Some x) => rpc_ok id (value x)
      | Ok None => rpc_err id (-32003) (what +:+ " " +:+ raw +:+ " not found")%string None
      | Err e => fail id e
      end
  end.
(** [what] names the uuid in the error text. *)
Definition h_list_of {A} (key what : string) (value : A -> json) (list : option Db -> Z -> result AvixError (list A))
    (id : string) (params : json) k : JsonRpcResponse :=
  match parse_str (str_param params key "") with
  | Err _ => rpc_err id (-32002) ("invalid " +:+ what +:+ " UUID")%string None
  | Ok u => answer_with id (fun l => JArr (map value l)) (list (history k) u)
  end.

Definition h_message_create (h : Host) := h_create "message" (message_of_value h) HistoryManager.create_message.
Definition h_message_get (h : Host) := h_get "message" (v_message h) HistoryManager.get_message.
Definition h_message_list (h : Host) := h_list_of "session_id" "session" (v_message h) HistoryManager.list_messages.
Definition h_part_create (h : Host) := h_create "part" (part_of_value h) HistoryManager.create_part.
Definition h_part_get (h : Host) := h_get "part" (v_part h) HistoryManager.get_part.
Definition h_part_list (h : Host) := h_list_of "message_id" "message" (v_part h) HistoryManager.list_parts.

(** ** Sessions *)

Definition h_session_list (h : Host) (id : string) (params : json) k : JsonRpcResponse :=
  answer_with id (fun l => JArr (map (v_session h) l)) (list_sessions (kproc k) (str_param params "username" "")).

Definition eperm_reply (id : string) : JsonRpcResponse := rpc_err id (-32001) "EPERM: session belongs to another user" None.
Definition missing_session (id raw : string) : JsonRpcResponse := rpc_err id (-32003) ("session " +:+ raw +:+ " not found")%string None.

(** The head of the four handlers: the id is parsed, the session read, and the caller checked against its owner. *)
Definition session_gate (key id : string) (params : json) k : result JsonRpcResponse (Z * option SessionRecord) :=
  match parse_str (str_param params key "") with
  | Err _ => Err (rpc_err id (-32002) "invalid session ID" None)
  | Ok u =>
      match get_session (kproc k) u with
      | Ok (Some s) =>
          if session_ownership_ok (Sessions.username s) (str_param params "caller_identity" "")
               (default false (as_bool (jindex params "is_privileged")))
          then Ok (u, Some s) else Err (eperm_reply id)
      | Ok None => Ok (u, None)
      | Err e => Err (fail id e)
      end
  end.

Definition h_session_get (h : Host) (id : string) (params : json) k : JsonRpcResponse :=
  match session_gate "id" id params k with
  | Err r => r
  | Ok (_, Some s) => rpc_ok id (v_session h s)
  | Ok (_, None) => missing_session id (str_param params "id" "")
  end.

Definition h_session_pause (dr : Draw) (id : string) (params : json) k : option (JsonRpcResponse * Kernel) :=
  match session_gate "session_id" id params k with
  | Err r => Some (r, k)
  | Ok (_, None) => Some (missing_session id (str_param params "session_id" ""), k)
  | Ok (_, Some s) =>
      if decide (owner_pid s = 0) then Some (rpc_err id (-32001) "session has no active owner pid" None, k)
      else p ← pause_agent (at_ dr 0) (kproc k) (owner_pid s); Some (rpc_ok id j_ok, set_proc k p)
  end.

(** [for pid in pids { let _ = resume_agent(pid) }], the [n]-th at its own time. *)
Fixpoint resume_all (dr : Draw) (n : nat) (qs : list Z) (p : Proc (SS := SS) (IS := IS) (C := C)) : option Proc :=
  match qs with
  | [] => Some p
  | q :: qs => p ← resume_agent (at_ dr n) p q; resume_all dr (S n) qs p
  end.
Definition resume_by_spawn (cf : Config) (dr : Draw) (id : string) (u : Z) (input : option string) k : JsonRpcResponse * Kernel :=
  let '(r, x) := AgentsYaml.resume_session hmac syscalls (proc_config cf) (fresh dr) (kproc k) (files k)
                   (agents_yaml_path cf) u input in
  (answer_with id (fun pid => JObj [("pid", JInt pid)]%string) r, set_spawned k x).
Definition h_session_resume (cf : Config) (dr : Draw) (id : string) (params : json) k : option (JsonRpcResponse * Kernel) :=
  let input := as_str (jindex params "input") in
  match session_gate "session_id" id params k with
  | Err r => Some (r, k)
  | Ok (_, None) => Some (missing_session id (str_param params "session_id" ""), k)
  | Ok (u, Some s) =>
      match Sessions.status s, Sessions.pids s with
      | SessionStatus.Paused, q :: qs =>
          p ← resume_all dr 0 (q :: qs) (kproc k); Some (rpc_ok id j_ok, set_proc k p)
      | SessionStatus.Idle, _ :: _ =>
          let goal := default (Sessions.goal s) input in
          '(r, p) ← send_signal (at_ dr 0) (kproc k) (owner_pid s) "SIGSTART" (JObj [("goal", JStr goal)]%string);
          match r with
          | Ok _ => Some (rpc_ok id (JObj [("pid", JInt (owner_pid s))]%string), set_proc k p)
          | Err _ => Some (resume_by_spawn cf dr id u input (set_proc k p))
          end
      | _, _ => Some (resume_by_spawn cf dr id u input k)
      end
  end.

Definition h_session_delete (id : string) (params : json) k : JsonRpcResponse * Kernel :=
  let deleted := rpc_ok id (JObj [("deleted", JStr (str_param params "session_id" ""))]%string) in
  match session_gate "session_id" id params k with
  | Err r => (r, k)
  | Ok (_, None) => (deleted, k)
  | Ok (u, Some _) =>
      let '(r, p) := delete_session (kproc k) u in
      (match r with Ok _ => deleted | Err e => fail id e end, set_proc k p)
  end.

(** ** Packages, services, tools, signals *)

Definition h_package (h : Host) (o : Op) (id : string) (params : json) : JsonRpcResponse :=
  match package h o params with Ok v => rpc_ok id v | Err e => rpc_err id (-32000) (syscall_error_to_string e) None end.

Definition count_status (s : string) (l : list ServiceSummary) : json :=
  JInt (Z.of_nat (length (filter (fun x => ss_status x = s) l))).
Definition h_service_list (h : Host) (id : string) : JsonRpcResponse :=
  let l := default [] (list_running h) in
  rpc_ok id (JObj [("total", JInt (Z.of_nat (length l))); ("running", count_status "running" l);
                   ("starting", count_status "starting" l); ("services", JArr (map (v_service h) l))]%string).
Definition j_tool (t : ToolSummary) : json :=
  JObj [("name", JStr (ToolRegistry.ts_name t)); ("namespace", JStr (ts_namespace t));
        ("description", JStr (ts_description t)); ("state", JStr (ts_state t))]%string.
Definition h_tool_list (id : string) k : JsonRpcResponse :=
  let r := list_tools (kproc k) in
  rpc_ok id (JObj [("total", JInt (Z.of_nat (tl_total r))); ("available", JInt (Z.of_nat (tl_available r)));
                   ("unavailable", JInt (Z.of_nat (tl_unavailable r))); ("tools", JArr (map j_tool (tl_tools r)))]%string).

Definition h_signal_send (dr : Draw) (id : string) (params : json) k : option (JsonRpcResponse * Kernel) :=
  let pid := default 0 (as_u64 (jindex params "pid")) in
  if decide (pid = 0) then Some (rpc_err id (-32602) "missing pid" None, k)
  else
    let signal := str_param params "signal" "" in
    if String.eqb signal EmptyString then Some (rpc_err id (-32602) "missing signal" None, k)
    else '(r, p) ← send_signal (at_ dr 0) (kproc k) pid signal (jindex params "payload");
         Some (answer_with id (fun _ => j_ok) r, set_proc k p).

(** ** Files *)

Definition on_path (id : string) (params : json) k (f : string -> JsonRpcResponse * Kernel) : JsonRpcResponse * Kernel :=
  match VfsPath.parse (str_param params "path" "") with
  | Err e => (rpc_err id (-32602) (avix_error_to_string e) None, k)
  | Ok path => f path
  end.
Definition j_content (h : Host) (bytes : string) : json :=
  match from_utf8 bytes with
  | Ok text => JObj [("content", JStr text); ("encoding", JStr "utf-8")]%string
  | Err _ => JObj [("content", JStr (base64 h bytes)); ("encoding", JStr "base64")]%string
  end.
Definition h_fs_read (h : Host) (id : string) (params : json) k : JsonRpcResponse * Kernel :=
  on_path id params k (fun path =>
    let '(v, r) := Vfs.read yaml_of_names (vfs k) path in (answer_with id (j_content h) r, set_vfs k v)).
Definition h_fs_write (id : string) (params : json) k : JsonRpcResponse * Kernel :=
  on_path id params k (fun path =>
    match Vfs.write (vfs k) path (str_param params "content" "") with
    | Ok v => (rpc_ok id j_ok, set_vfs k v)
    | Err e => (fail id e, k)
    end).
Definition h_fs_list (id : string) (params : json) k : JsonRpcResponse * Kernel :=
  on_path id params k (fun path =>
    (answer_with id (fun l : gset string => JObj [("entries", jstrs (elements l))]%string) (Vfs.list_path (vfs k) path), k)).
Definition h_fs_exists (id : string) (params : json) k : JsonRpcResponse * Kernel :=
  on_path id params k (fun path => (rpc_ok id (JObj [("exists", JBool (Vfs.exists_path (vfs k) path))]%string), k)).
Definition h_fs_delete (id : string) (params : json) k : JsonRpcResponse * Kernel :=
  on_path id params k (fun path =>
    match Vfs.delete (vfs k) path with
    | Ok v => (rpc_ok id j_ok, set_vfs k v)
    | Err e => (fail id e, k)
    end).

(** ** Dispatch *)

Definition dispatch_op (cf : Config) (h : Host) (dr : Draw) (o : Op) (id : string) (params : json) k
    : option (JsonRpcResponse * Kernel) :=
  let same r := Some (r, k) in
  match o with
  | OpSpawn => Some (h_spawn cf dr id params k)
  | OpList => same (h_list id k)
  | OpKill => Some (h_kill dr id params k)
  | OpStat => same (stat_proc id (pid_param params) (process_table (kproc k)))
  | OpPause => h_pause dr id params k
  | OpResume => h_resume dr id params k
  | OpWait | OpSetcap => same (rpc_ok id j_ok)
  | OpListInstalled => same (rpc_ok id (list_installed h (str_param params "username" "")))
  | OpInvocationList => same (h_invocation_list h id params k)
  | OpInvocationConversation => same (h_invocation_conversation h id params k)
  | OpInvocationGet => same (h_invocation_get h id params k)
  | OpInvocationSnapshot => Some (h_invocation_snapshot h id params k)
  | OpMessageCreate => Some (h_message_create h id params k)
  | OpMessageGet => same (h_message_get h id params k)
  | OpMessageList => same (h_message_list h id params k)
  | OpPartCreate => Some (h_part_create h id params k)
  | OpPartGet => same (h_part_get h id params k)
  | OpPartList => same (h_part_list h id params k)
  | OpSessionList => same (h_session_list h id params k)
  | OpSessionGet => same (h_session_get h id params k)
  | OpSessionPause => h_session_pause dr id params k
  | OpSessionResume => h_session_resume cf dr id params k
  | OpSessionDelete => Some (h_session_delete id params k)
  | OpInstallAgent | OpUninstallAgent | OpInstallService | OpUninstallService => same (h_package h o id params)
  | OpServiceList => same (h_service_list h id)
  | OpToolList => same (h_tool_list id k)
  | OpSignalSend => h_signal_send dr id params k
  | OpFsRead => Some (h_fs_read h id params k)
  | OpFsWrite => Some (h_fs_write id params k)
  | OpFsList => Some (h_fs_list id params k)
  | OpFsExists => Some (h_fs_exists id params k)
  | OpFsDelete => Some (h_fs_delete id params k)
  end.
Definition dispatch_request (cf : Config) (h : Host) (dr : Draw) (id method : string) (params : json) k
    : option (JsonRpcResponse * Kernel) :=
  match op_of method with
  | Some o => dispatch_op cf h dr o id params k
  | None => Some (rpc_err id (-32601) ("unknown kernel method: " +:+ method)%string None, k)
  end.
Definition handle_message (cf : Config) (h : Host) (dr : Draw) (msg : IpcMessage) k : option (option JsonRpcResponse * Kernel) :=
  match msg with
  | Request rq => '(r, k) ← dispatch_request cf h dr (rq_id rq) (method rq) (params rq) k; Some (Some r, k)
  | Notification _ => Some (None, k)
  end.

(** ** Every request is answered once *)

(** An answer carries the id of the request and either a result or an error. *)
Definition answers (id : string) (r : JsonRpcResponse) : Prop :=
  (exists v, r = rpc_ok id v) \/ (exists c m, r = rpc_err id c m None).
Lemma answers_ok id v : answers id (rpc_ok id v).
Proof. left. by eexists. Qed.
Lemma answers_err id c m : answers id (rpc_err id c m None).
Proof. right. by eexists _, _. Qed.
Lemma answers_with {A} id (f : A -> json) r : answers id (answer_with id f r).
Proof. destruct r; [apply answers_ok | apply answers_err]. Qed.
#[local] Hint Resolve answers_ok answers_err : kernel.
#[local] Hint Extern 1 (answers _ (answer_with _ _ _)) => apply answers_with : kernel.
#[local] Hint Extern 1 (answers _ (fail _ _)) => apply answers_err : kernel.
#[local] Hint Extern 1 (answers _ (eperm_reply _)) => apply answers_err : kernel.
#[local] Hint Extern 1 (answers _ (missing_session _ _)) => apply answers_err : kernel.

Lemma gate_answers key id params k r : session_gate key id params k = Err r -> answers id r.
Proof.
  unfold session_gate. intros E. repeat (case_match; simplify_eq); auto with kernel.
Qed.

Lemma create_answers {A} what (of_value : json -> result string A) create id params k :
  answers id (h_create what of_value create id params k).1.
Proof.
  unfold h_create. destruct (of_value _) as [x|]; [destruct (create _ _)|]; cbn; auto with kernel.
Qed.
Lemma get_answers {A} what (value : A -> json) get id params k : answers id (h_get what value get id params k).
Proof. unfold h_get. repeat case_match; auto with kernel. Qed.
Lemma list_answers {A} key what (value : A -> json) list id params k : answers id (h_list_of key what value list id params k).
Proof. unfold h_list_of. case_match; auto with kernel. Qed.

Lemma path_answers id params k f : (forall path, answers id (f path).1) -> answers id (on_path id params k f).1.
Proof. intros Hf. unfold on_path. case_match; cbn; auto with kernel. Qed.

Lemma resume_answers cf dr id params k r k' : h_session_resume cf dr id params k = Some (r, k') -> answers id r.
Proof.
  assert (forall u i k0, answers id (resume_by_spawn cf dr id u i k0).1) as Hs.
  { intros u i k0. unfold resume_by_spawn. destruct (AgentsYaml.resume_session _ _ _ _ _ _ _ _ _). cbn. auto with kernel. }
  unfold h_session_resume. destruct (session_gate _ _ _ _) as [[u [s|]]|] eqn:G; intros E; try (injection E as <- _; eauto using gate_answers with kernel).
  assert (forall u i k0, Some (resume_by_spawn cf dr id u i k0) = Some (r, k') -> answers id r) as Hs'.
  { intros u0 i k0 [= E0]. pose proof (Hs u0 i k0) as Ha. by rewrite E0 in Ha. }
  destruct (Sessions.status s), (Sessions.pids s) as [|q qs]; eauto.
  - destruct (send_signal _ _ _ _ _) as [[x p]|]; cbn in E; [|done]. destruct x; [|by eauto]. injection E as <- _. auto with kernel.
  - destruct (resume_all _ _ _ _) as [p|]; cbn in E; [|done]. injection E as <- _. auto with kernel.
Qed.

Lemma dispatch_answers cf h dr o id params k r k' : dispatch_op cf h dr o id params k = Some (r, k') -> answers id r.
Proof.
  assert (forall x : JsonRpcResponse * Kernel, answers id x.1 -> Some x = Some (r, k') -> answers id r) as Hp by (by intros ? ? [= ->]).
  destruct o; cbn [dispatch_op];
    try (apply Hp; cbn [fst];
         try (first [apply create_answers | apply get_answers | apply list_answers | apply path_answers; intros path];
              repeat case_match; cbn; auto with kernel; done);
         unfold h_list, stat_proc, h_invocation_list, h_invocation_conversation, h_invocation_get, h_session_list,
           h_package, h_service_list, h_tool_list; repeat case_match; auto with kernel; fail).
  - apply Hp. unfold h_spawn. destruct (AgentsYaml.spawn _ _ _ _ _ _ _ _ _ _ _ _ _). cbn. auto with kernel.
  - apply Hp. unfold h_kill, kill_proc. case_match; cbn; auto with kernel.
  - unfold h_pause. destruct (pause_agent _ _ _); cbn; [|done]. intros [= <- _]. auto with kernel.
  - unfold h_resume. destruct (resume_agent _ _ _); cbn; [|done]. intros [= <- _]. auto with kernel.
  - apply Hp. unfold h_invocation_snapshot. destruct (snapshot_invocation _ _) as [x p]. cbn. repeat case_match; auto with kernel.
  - apply Hp. cbn. unfold h_session_get. destruct (session_gate _ _ _ _) as [[u [s|]]|] eqn:G; eauto using gate_answers with kernel.
  - unfold h_session_pause. destruct (session_gate _ _ _ _) as [[u [s|]]|] eqn:G; intros E;
      try (injection E as <- _; eauto using gate_answers with kernel; fail).
    case_decide; [injection E as <- _; auto with kernel|]. destruct (pause_agent _ _ _); cbn in E; [|done].
    injection E as <- _. auto with kernel.
  - apply resume_answers.
  - apply Hp. unfold h_session_delete. destruct (session_gate _ _ _ _) as [[u [s|]]|] eqn:G; eauto using gate_answers with kernel.
    destruct (delete_session _ _) as [[]]; cbn; auto with kernel.
  - unfold h_signal_send. case_decide; [intros [= <- _]; auto with kernel|].
    destruct (String.eqb _ _); [intros [= <- _]; auto with kernel|].
    destruct (send_signal _ _ _ _ _) as [[x p]|]; cbn; [|done]. intros [= <- _]. auto with kernel.
Qed.

(** ** Requests are sequences of process operations *)

Context `{!UuidLaws, !SessionStoreLaws SS, !InvocationStoreLaws IS, !MpscLaws Signal C}.
Abbreviation steps cf := (rtc (Lifecycle.step hmac syscalls (proc_config cf))).

Lemma unused_channels fr (p : Proc (SS := SS) (IS := IS) (C := C)) c : unused fr p -> unused fr (with_channels p c).
Proof. by intros []. Qed.

Lemma spawn_follows cf fr p f path name goal sid atp caller parent :
  unused fr p ->
  steps cf p (AgentsYaml.spawn hmac syscalls (proc_config cf) fr p f path name goal sid atp caller parent).2.1.
Proof.
  intros U. unfold AgentsYaml.spawn. destruct (agent_spawn _ _ _ _ _ _ _ _ _ _ _) as [[pid p']|] eqn:E; [|done].
  destruct (persist_agent_record _ _ _ _ _ _ _). cbn. apply rtc_once. by eapply step_spawn.
Qed.
Lemma resume_session_follows cf fr p f path u input :
  unused fr p -> steps cf p (AgentsYaml.resume_session hmac syscalls (proc_config cf) fr p f path u input).2.1.
Proof.
  intros U. unfold AgentsYaml.resume_session. destruct (resume_request _ _ _) as [[[a g] usr]|]; [|done]. by apply spawn_follows.
Qed.
Lemma send_signal_follows cf now p pid sig v r p' : send_signal now p pid sig v = Some (r, p') ->
  steps cf p p' /\ (forall e, r = Err e -> p' = with_channels p (channels p') \/ p' = p).
Proof.
  unfold send_signal. destruct (String.eqb sig _).
  { destruct (pause_agent _ _ _) eqn:E; cbn; [|done]. intros [= <- <-]. split; [|done]. apply rtc_once. by eapply step_pause. }
  destruct (String.eqb sig _).
  { destruct (resume_agent _ _ _) eqn:E; cbn; [|done]. intros [= <- <-]. split; [|done]. apply rtc_once. by eapply step_resume. }
  destruct (signal_kind sig) as [k|]; [|intros [= <- <-]; split; [done|by right]].
  destruct (deliver_to p pid k v) as [[ok p1]|] eqn:E; cbn; [|done]. intros [= <- <-]. split; [apply rtc_once; by eapply step_deliver|].
  intros e _. left. unfold deliver_to in E. destruct (SignalChannels.send _ _ _) as [[]|]; cbn in E; [|done]. by injection E as <- <-.
Qed.
Lemma resume_all_follows cf dr qs : forall n (p p' : Proc (SS := SS) (IS := IS) (C := C)), resume_all dr n qs p = Some p' -> steps cf p p'.
Proof.
  induction qs as [|q qs IH]; intros n p p'; cbn; [by intros [= <-]|].
  destruct (resume_agent _ _ _) as [p1|] eqn:E; cbn; [|done]. intros Hr. eapply rtc_l; [by eapply step_resume|]. by eapply IH.
Qed.

(** Killing sets the status once more, to what it is already. *)
Lemma kill_same id now pid k : good (kproc k) ->
  kproc (kill_proc id pid (set_proc k (abort_agent now (kproc k) pid))).2 = abort_agent now (kproc k) pid /\
  (kill_proc id pid (set_proc k (abort_agent now (kproc k) pid))).1 =
    match process_table (kproc k) !! pid with
    | Some _ => rpc_ok id j_ok
    | None => rpc_err id (-32003) (avix_error_to_string (InvalidPid (Pid.to_string pid))) None
    end.
Proof.
  intros G. destruct (abort_agent_spec now (kproc k) pid G) as [_ K]. pose proof (kl_process _ _ _ _ K) as Kp.
  unfold kill_proc, Process.set_status, Process.modify. cbn [kproc set_proc].
  set (p' := abort_agent now (kproc k) pid) in *. clearbody p'.
  assert (process_table p' !! pid = set_ps Stopped <$> process_table (kproc k) !! pid) as El by (by rewrite Kp, lookup_alter_eq).
  destruct (process_table (kproc k) !! pid) as [e|]; rewrite El; cbn; [|done].
  split; [|done]. rewrite insert_id by (rewrite El; cbn; f_equal; symmetry; apply (set_ps_idem Stopped)). by destruct p'.
Qed.

Lemma resume_follows cf dr id params k r k' : unused (fresh dr) (kproc k) ->
  h_session_resume cf dr id params k = Some (r, k') -> steps cf (kproc k) (kproc k').
Proof.
  intros U. assert (forall u i k0 x, unused (fresh dr) (kproc k0) -> steps cf (kproc k) (kproc k0) ->
    Some (resume_by_spawn cf dr id u i k0) = Some x -> steps cf (kproc k) (kproc x.2)) as Hs.
  { intros u i k0 x U0 S0 [= <-]. unfold resume_by_spawn. etrans; [exact S0|].
    pose proof (resume_session_follows cf (fresh dr) (kproc k0) (files k0) (agents_yaml_path cf) u i U0) as Hr.
    by destruct (AgentsYaml.resume_session _ _ _ _ _ _ _ _ _). }
  unfold h_session_resume. destruct (session_gate _ _ _ _) as [[u [s|]]|]; [|by intros [= _ <-]..].
  destruct (Sessions.status s), (Sessions.pids s) as [|q qs]; try (intros E; exact (Hs _ _ _ _ U (rtc_refl _ _) E)).
  - destruct (send_signal _ _ _ _ _) as [[x p]|] eqn:Es; cbn; [|done]. apply (send_signal_follows cf) in Es as [S1 Hf].
    destruct x as [|e]; [by intros [= _ <-]|]. intros E. refine (Hs _ _ _ _ _ _ E); [|done]. cbn.
    destruct (Hf e eq_refl) as [->| ->]; [by apply unused_channels | done].
  - destruct (resume_all _ _ _ _) as [p|] eqn:Er; cbn; [|done]. intros [= _ <-]. cbn. by eapply resume_all_follows.
Qed.

Lemma dispatch_follows cf h dr o id params k r k' : good (kproc k) -> unused (fresh dr) (kproc k) ->
  dispatch_op cf h dr o id params k = Some (r, k') -> steps cf (kproc k) (kproc k').
Proof.
  intros G U. assert (forall x : JsonRpcResponse * Kernel, kproc x.2 = kproc k -> Some x = Some (r, k') -> steps cf (kproc k) (kproc k')) as Hp.
  { by intros x Hx [= ->]; cbn in Hx; rewrite Hx. }
  destruct o; cbn [dispatch_op];
    try (apply Hp; try (unfold h_message_create, h_part_create, h_create, h_fs_read, h_fs_write, h_fs_list, h_fs_exists,
      h_fs_delete, on_path; repeat case_match); done).
  - unfold h_spawn. pose proof (spawn_follows cf (fresh dr) (kproc k) (files k) (agents_yaml_path cf)
      (str_param params "name" "unnamed") (str_param params "goal" "") (str_param params "session_id" "")
      (str_param params "atp_session_id" "") (str_param params "caller" "gateway") (as_u64 (jindex params "parent_pid")) U) as Hs.
    destruct (AgentsYaml.spawn _ _ _ _ _ _ _ _ _ _ _ _ _) as [x y]. by intros [= _ <-].
  - unfold h_kill. intros [= Ek]. destruct (kill_same id (at_ dr 0) (pid_param params) k G) as [Hk _]. rewrite Ek in Hk. cbn in Hk.
    rewrite Hk. apply rtc_once, step_abort.
  - unfold h_pause. destruct (pause_agent _ _ _) eqn:E; cbn; [|done]. intros [= _ <-]. apply rtc_once. by eapply step_pause.
  - unfold h_resume. destruct (resume_agent _ _ _) eqn:E; cbn; [|done]. intros [= _ <-]. apply rtc_once. by eapply step_resume.
  - unfold h_invocation_snapshot. destruct (snapshot_invocation _ _) as [x p] eqn:E. intros [= _ <-]. apply rtc_once. by eapply step_snapshot.
  - unfold h_session_pause. destruct (session_gate _ _ _ _) as [[u [s|]]|]; try (by intros [= _ <-]).
    case_decide; [by intros [= _ <-]|]. destruct (pause_agent _ _ _) eqn:E; cbn; [|done]. intros [= _ <-]. apply rtc_once. by eapply step_pause.
  - by apply resume_follows.
  - unfold h_session_delete. destruct (session_gate _ _ _ _) as [[u [s|]]|]; try (by intros [= _ <-]).
    destruct (delete_session _ _) as [x p] eqn:E. intros [= _ <-]. apply rtc_once. by eapply step_delete_session.
  - unfold h_signal_send. case_decide; [by intros [= _ <-]|]. destruct (String.eqb _ _); [by intros [= _ <-]|].
    destruct (send_signal _ _ _ _ _) as [[x p]|] eqn:E; cbn; [|done]. intros [= _ <-]. by apply (send_signal_follows cf) in E as [].
Qed.

Lemma steps_keep cf p p' : steps cf p p' -> invariant (proc_config cf) p -> invariant (proc_config cf) p'.
Proof. induction 1 as [|p p1 p2 S _ IH]; [done|]. intros I. apply IH. by eapply step_keeps. Qed.

Lemma spawn_returns cf h dr id ps k : exists r k', handle_message cf h dr
  (Request {| rq_jsonrpc := "2.0"; rq_id := id; method := "kernel/proc/spawn"; params := ps |}) k = Some (Some r, k').
Proof.
  destruct (h_spawn cf dr id ps k) as [r k'] eqn:E. exists r, k'. unfold handle_message, dispatch_request.
  cbn [rq_id method params]. change (op_of "kernel/proc/spawn") with (Some OpSpawn). cbn [dispatch_op]. by rewrite E.
Qed.

(** ** Theorems *)

(** C8: Every message the kernel's socket handles moves the processes by a sequence of the lifecycle's steps, so the
    lifecycle's invariant holds after it; a request gets exactly one answer, with its id and either a result or
    an error, an unknown method is refused without any effect, and a notification neither is answered nor
    changes anything. *)
Theorem kernel_refines_lifecycle cf h dr msg k x k' :
  invariant (proc_config cf) (kproc k) -> unused (fresh dr) (kproc k) -> handle_message cf h dr msg k = Some (x, k') ->
  steps cf (kproc k) (kproc k') /\ invariant (proc_config cf) (kproc k') /\
  match msg with
  | Request rq => exists r, x = Some r /\ answers (rq_id rq) r /\
      (op_of (method rq) = None -> k' = k /\ exists m, r = rpc_err (rq_id rq) (-32601) m None)
  | Notification _ => x = None /\ k' = k
  end.
Proof.
  intros I U E. destruct msg as [rq|]; cbn in E; [|injection E as <- <-; by split_and!].
  destruct (dispatch_request _ _ _ _ _ _ _) as [[r k1]|] eqn:Ed; cbn in E; [|done]. injection E as <- <-.
  unfold dispatch_request in Ed. destruct (op_of (method rq)) as [o|].
  - assert (steps cf (kproc k) (kproc k1)) as S by (eapply dispatch_follows; [apply I|done..]).
    split; [done|]. split; [by eapply steps_keep|]. exists r. split; [done|]. split; [by eapply dispatch_answers | done].
  - injection Ed as <- <-. split; [done|]. split; [done|]. eexists. split; [done|]. split; [auto with kernel|].
    intros _. split; [done|]. by eexists.
Qed.

(** The parameter that names the session, for the methods that check its owner. *)
Definition session_key_of (o : Op) : option string :=
  match o with
  | OpSessionGet => Some "id"
  | OpSessionPause | OpSessionResume | OpSessionDelete => Some "session_id"
  | _ => None
  end%string.
(** The request is allowed on the session [s]. *)
Definition allowed (params : json) (s : SessionRecord) : Prop :=
  let caller := str_param params "caller_identity" "" in
  caller = EmptyString \/ jindex params "is_privileged" = JBool true \/ Sessions.username s = caller.
(** The session a request names, if it is stored. *)
Definition names_session (key : string) (params : json) k (s : SessionRecord) : Prop :=
  exists u, parse_str (str_param params key "") = Ok u /\ get_session (kproc k) u = Ok (Some s).

Lemma ownership_allowed params s :
  session_ownership_ok (Sessions.username s) (str_param params "caller_identity" "")
    (default false (as_bool (jindex params "is_privileged"))) = true <-> allowed params s.
Proof.
  unfold session_ownership_ok, allowed. rewrite !orb_true_iff, !String.eqb_eq.
  assert (default false (as_bool (jindex params "is_privileged")) = true <-> jindex params "is_privileged" = JBool true) as ->.
  { by destruct (jindex params "is_privileged") as [|[]| | | | |]. }
  tauto.
Qed.

Lemma gate_cases key id params k :
  match session_gate key id params k with
  | Ok (_, Some s) => names_session key params k s /\ allowed params s
  | Ok (_, None) => forall s, ~ names_session key params k s
  | Err r => r = eperm_reply id \/ forall s, ~ names_session key params k s
  end /\
  forall s, names_session key params k s -> ~ allowed params s -> session_gate key id params k = Err (eperm_reply id).
Proof.
  unfold session_gate, names_session. destruct (parse_str _) as [u|].
  2:{ split; [right|]; by intros s (u & ? & _). }
  destruct (get_session (kproc k) u) as [[s|]|] eqn:Eg.
  2:{ split; intros s (u' & [= <-] & E'); congruence. }
  2:{ split; [right|]; intros s (u' & [= <-] & E'); congruence. }
  pose proof (ownership_allowed params s) as Ho. destruct (session_ownership_ok _ _ _).
  - split; [split; [by exists u | by apply Ho]|]. intros s' (u' & [= <-] & E') Hn. rewrite Eg in E'. injection E' as <-. by destruct Hn; apply Ho.
  - split; [by left|]. done.
Qed.

(** The gate decides all four handlers unless the session is there and the caller allowed. *)
Lemma gate_decides cf h dr o key id params k r k' :
  session_key_of o = Some key -> dispatch_op cf h dr o id params k = Some (r, k') ->
  match session_gate key id params k with Ok (_, Some _) => True | Err x => r = x /\ k' = k | Ok (_, None) => k' = k end.
Proof.
  intros Ek E. destruct o; try discriminate Ek; injection Ek as <-; cbn [dispatch_op] in E;
    unfold h_session_get, h_session_pause, h_session_resume, h_session_delete in E;
    (destruct (session_gate _ _ _ _) as [[u [s|]]|]; [done|by injection E as _ <-|by injection E as <- <-]).
Qed.
Lemma foreign_refused cf h dr o key id params k r k' s :
  session_key_of o = Some key -> dispatch_op cf h dr o id params k = Some (r, k') ->
  names_session key params k s -> ~ allowed params s -> r = eperm_reply id /\ k' = k.
Proof.
  intros Ek E Hs Ha. pose proof (gate_decides _ _ _ _ _ _ _ _ _ _ Ek E) as Hg.
  destruct (gate_cases key id params k) as [_ Gn]. by rewrite (Gn s Hs Ha) in Hg.
Qed.

(** The owner of a session decides: a request about a session that is stored and belongs to somebody else, by a
    named caller without privilege, is refused with EPERM and changes nothing; the kernel changes only for an
    allowed caller of a stored session, and only such a caller is shown the session. *)
Theorem session_isolation cf h dr o key id params k r k' :
  session_key_of o = Some key -> dispatch_op cf h dr o id params k = Some (r, k') ->
  (forall s, names_session key params k s -> ~ allowed params s -> r = eperm_reply id /\ k' = k) /\
  (k' <> k -> exists s, names_session key params k s /\ allowed params s) /\
  (o = OpSessionGet -> forall v, rs_result r = Some v -> exists s, names_session key params k s /\ allowed params s /\ v = v_session h s).
Proof.
  intros Ek E. destruct (gate_cases key id params k) as [Gc _]. pose proof (gate_decides _ _ _ _ _ _ _ _ _ _ Ek E) as Hg. split_and!.
  - intros s Hs Ha. by eapply foreign_refused.
  - intros Hne. destruct (session_gate key id params k) as [[u [s|]]|]; [by exists s|done|by destruct Hg].
  - intros -> v Hv. injection Ek as <-. cbn [dispatch_op] in E. unfold h_session_get in E.
    destruct (session_gate _ _ _ _) as [[u [s|]]|] eqn:Eg; injection E as <- _; [exists s; cbn in Hv; naive_solver|done|].
    unfold session_gate in Eg. repeat (case_match; simplify_eq); done.
Qed.

(** A kill is answered with success exactly when the process exists, and has the whole effect of a kill in both
    cases: process stopped, task aborted, invocation killed, place in the session given up. *)
Theorem kill_request_exact cf h dr id params k r k' :
  good (kproc k) -> dispatch_op cf h dr OpKill id params k = Some (r, k') ->
  let pid := pid_param params in
  killed (at_ dr 0) (kproc k) pid (kproc k') /\
  (rs_result r = Some j_ok <-> is_Some (process_table (kproc k) !! pid)) /\
  (rs_error r = None <-> is_Some (process_table (kproc k) !! pid)).
Proof.
  intros G [= E]. unfold h_kill in E. destruct (kill_same id (at_ dr 0) (pid_param params) k G) as [Hp Hr].
  rewrite E in Hp, Hr. cbn in Hp, Hr. rewrite Hp, Hr. split; [by apply abort_agent_spec|].
  destruct (process_table (kproc k) !! pid_param params); cbn; split; split; try done; by intros [].
Qed.

(** Text written to a file outside the disk mounts is read back as text by the next request. *)
Theorem fs_write_then_read cf h dr id1 id2 path text k r k1 :
  VfsPath.parse path = Ok path -> route (vfs k) path = None -> is_utf8 text = true ->
  dispatch_op cf h dr OpFsWrite id1 (JObj [("path", JStr path); ("content", JStr text)]%string) k = Some (r, k1) ->
  rs_error r = None ->
  exists k2, dispatch_op cf h dr OpFsRead id2 (JObj [("path", JStr path)]%string) k1
    = Some (rpc_ok id2 (JObj [("content", JStr text); ("encoding", JStr "utf-8")]%string), k2) /\ kproc k2 = kproc k.
Proof.
  intros Hp Hr Hu E He. cbn [dispatch_op] in *. unfold h_fs_write, h_fs_read, on_path in *.
  change (str_param (JObj [("path", JStr path); ("content", JStr text)]%string) "path" "") with path in E.
  change (str_param (JObj [("path", JStr path); ("content", JStr text)]%string) "content" "") with text in E.
  change (str_param (JObj [("path", JStr path)]%string) "path" "") with path. rewrite Hp in E |- *.
  destruct (Vfs.write (vfs k) path text) as [v|e] eqn:Ew; injection E as <- <-; [|done].
  destruct (vfs_read_after_write yaml_of_names (vfs k) v path text Hp Hr Ew) as [Hread _]. cbn [vfs set_vfs].
  destruct (Vfs.read yaml_of_names v path) as [v' x]. cbn in Hread. subst x.
  exists (set_vfs (set_vfs k v) v'). split; [|done].
  unfold answer_with, j_content. by rewrite from_utf8_ok.
Qed.

(** C39: Booting puts every system call of the registry among the tools, owned by the kernel and visible to all; but the
    kernel's socket serves four of them: to spawn, kill and list processes and to wait for one.  Any other one is answered
    as an unknown method, whoever asks. *)
Theorem kernel_tools_served (r : ToolRegistry) : exists r' ev, add_kernel_syscalls r registry_new = Ok (r', ev) /\
  forall n, n ∈ syscall_names ->
    (exists e, ToolRegistry.lookup r' n = Ok e /\ te_owner e = "kernel"%string /\ te_visibility e = Tool.All) /\
    (n ∈ ["kernel/proc/spawn"; "kernel/proc/kill"; "kernel/proc/list"; "kernel/proc/wait"]%string <-> is_Some (op_of n)) /\
    (n ∉ ["kernel/proc/spawn"; "kernel/proc/kill"; "kernel/proc/list"; "kernel/proc/wait"]%string ->
     forall cf h dr id params k, dispatch_request cf h dr id n params k = Some (rpc_err id (-32601) ("unknown kernel method: " +:+ n) None, k)).
Proof.
  destruct (kernel_tools r) as (r' & ev & E & Hn). exists r', ev. split; [done|]. intros n Hin. split; [by apply Hn|].
  assert (forallb (fun n => Bool.eqb (list_contains n ["kernel/proc/spawn"; "kernel/proc/kill"; "kernel/proc/list"; "kernel/proc/wait"]%string)
    (bool_decide (is_Some (op_of n)))) syscall_names = true) as Hall by (vm_compute; reflexivity).
  rewrite forallb_forall in Hall. specialize (Hall n (proj1 (list_elem_of_In _ _) Hin)). apply eqb_prop in Hall.
  assert (n ∈ ["kernel/proc/spawn"; "kernel/proc/kill"; "kernel/proc/list"; "kernel/proc/wait"]%string <-> is_Some (op_of n)) as Hs.
  { rewrite <- (bool_decide_spec (is_Some _)), <- Hall. unfold list_contains. by rewrite bool_decide_spec. }
  split; [done|]. intros Hno. intros. unfold dispatch_request. destruct (op_of n); [|done]. destruct Hno. apply Hs. by eexists.
Qed.
End Kernel.

(** ** A kernel with one user's agent *)

Module Toy.
Import Mem ToyUuid Invocations.Toy QueueMpsc Proc.Toy Lifecycle.Running.

#[local] Instance no_files : FileOps unit := {|
  f_exists _ _ := false; f_read_to_string _ _ := Err "ENOENT"%string; f_write f _ _ := (Ok (), f);
  f_rename f _ _ := (Ok (), f) |}.
#[local] Instance no_yaml : YamlText := {| to_yaml _ := Ok EmptyString; from_yaml _ := Ok [] |}.
#[local] Instance no_messages : Serde MessageRecord := {| to_string _ := Err "no"%string; from_str _ := Err "no"%string |}.
#[local] Instance no_parts : Serde PartRecord := {| to_string _ := Err "no"%string; from_str _ := Err "no"%string |}.

Definition toy_host : Host := {|
  v_invocation r := JStr (Invocations.id r); v_entry _ := JNull; v_session s := JStr (Sessions.username s);
  v_message _ := JNull; v_part _ := JNull; v_service _ := JNull;
  message_of_value _ := Err "bad"%string; part_of_value _ := Err "bad"%string; base64 s := s;
  list_installed _ := JArr []; list_running := None; package _ _ := Err (Enoent "package") |}.
Definition toy_config : Config := {| proc_config := sample_config; agents_yaml_path := "/data/agents.yaml" |}.
Definition toy_draw : Draw := {| fresh := sample_fresh; at_ n := Z.of_nat n |}.
Definition kernel := Kernel (SS := tables_t) (IS := InvocationStore.t tables_t (gmap string string)) (C := QueueMpsc.queue Signal)
  (F := unit) (Db := tables_t) (D := unit).
Definition idle_kernel : kernel := {| kproc := empty_proc; history := None; files := (); vfs := booted_router |}.
Definition spawn_params_of : json :=
  JObj [("name", JStr "researcher"); ("goal", JStr "study"); ("caller", JStr "alice")]%string.
Definition spawn_alice : IpcMessage :=
  Request {| rq_jsonrpc := "2.0"; rq_id := "7"; method := "kernel/proc/spawn"; params := spawn_params_of |}.

Lemma kernel_refines_lifecycle_witness : exists x k',
  handle_message toy_mac [] (fun _ => EmptyString) toy_config toy_host toy_draw spawn_alice idle_kernel = Some (x, k') /\
  invariant sample_config (kproc k').
Proof.
  destruct (spawn_returns toy_mac [] (fun _ => EmptyString) toy_config toy_host toy_draw "7" spawn_params_of idle_kernel) as (r & k' & E).
  exists (Some r), k'. split; [exact E|].
  apply (kernel_refines_lifecycle toy_mac [] (fun _ => EmptyString) toy_config toy_host toy_draw spawn_alice idle_kernel (Some r) k'
           empty_invariant sample_unused E).
Defined.

(** Sessions in a plain map, for the requests that only look at sessions. *)
#[export] Instance map_sessions : SessionStoreI (gmap string SessionRecord) := {|
  ss_create s r := (Ok (), <[uuid_str (Sessions.id r) := r]> s);
  ss_get s u := Ok (s !! uuid_str u);
  ss_update s r := (Ok (), <[uuid_str (Sessions.id r) := r]> s);
  ss_delete s u := (Ok (), base.delete (uuid_str u) s);
  ss_list_for_user s u := Ok (filter (fun r => Sessions.username r = u) (map_to_list s).*2);
  ss_list_all s := Ok (map_to_list s).*2 |}.
Definition alice_session : SessionRecord := session_new 0 77 "alice" "researcher" "t" "study" 42.
Definition map_kernel := Kernel (SS := gmap string SessionRecord) (IS := InvocationStore.t tables_t (gmap string string))
  (C := QueueMpsc.queue Signal) (F := unit) (Db := tables_t) (D := unit).
Definition alice_kernel : map_kernel := {|
  kproc := {| process_table := ∅; active_invocations := ∅; active_sessions := ∅; invocation_store := None;
              session_store := Some {[uuid_str 77 := alice_session]}; Proc.tool_registry := None; task_handles := ∅;
              channels := {| SignalChannels.inner := ∅; SignalChannels.heap := ∅ |}; launched := []; aborted := [] |};
  history := None; files := (); vfs := booted_router |}.
Definition delete_params (who : string) : json :=
  JObj [("session_id", JStr (uuid_str 77)); ("caller_identity", JStr who)]%string.

Lemma session_isolation_witness : exists r k',
  dispatch_op toy_mac [] (fun _ => EmptyString) toy_config toy_host toy_draw OpSessionDelete "7" (delete_params "bob") alice_kernel = Some (r, k') /\
  r = eperm_reply "7" /\ k' = alice_kernel.
Proof.
  assert (bool_decide (is_Some (dispatch_op toy_mac [] (fun _ => EmptyString) toy_config toy_host toy_draw OpSessionDelete "7"
    (delete_params "bob") alice_kernel)) = true) as Hb by (vm_compute; reflexivity).
  destruct (dispatch_op toy_mac [] (fun _ => EmptyString) toy_config toy_host toy_draw OpSessionDelete "7" (delete_params "bob") alice_kernel)
    as [[r k']|] eqn:E; [clear Hb|discriminate Hb]. exists r, k'. split; [reflexivity|].
  destruct (session_isolation toy_mac [] (fun _ => EmptyString) toy_config toy_host toy_draw OpSessionDelete "session_id" "7"
    (delete_params "bob") alice_kernel r k' eq_refl E) as [Hr _]. apply (Hr alice_session).
  - exists 77. split; [vm_compute; reflexivity | vm_compute; reflexivity].
  - intros [Ha|[Ha|Ha]]; vm_compute in Ha; discriminate.
Defined.
(** Alice's own request removes the session. *)
Example alice_may_delete :
  option_map (fun x => (rs_error x.1, get_session (kproc x.2) 77))
    (dispatch_op toy_mac [] (fun _ => EmptyString) toy_config toy_host toy_draw OpSessionDelete "7" (delete_params "alice") alice_kernel)
  = Some (None, Ok None).
Proof. vm_compute. reflexivity. Qed.

(** An agent that calls the tool for writing files finds nobody. *)
Lemma kernel_tools_served_witness : exists r ev, add_kernel_syscalls empty_registry registry_new = Ok (r, ev) /\
  (exists e, ToolRegistry.lookup r "kernel/fs/write" = Ok e /\ te_owner e = "kernel"%string /\ te_visibility e = Tool.All) /\
  dispatch_request toy_mac [] (fun _ => EmptyString) toy_config toy_host toy_draw "7" "kernel/fs/write" JNull idle_kernel =
    Some (rpc_err "7" (-32601) "unknown kernel method: kernel/fs/write" None, idle_kernel).
Proof.
  destruct (kernel_tools_served (SS := tables_t) (IS := InvocationStore.t tables_t (gmap string string)) (C := QueueMpsc.queue Signal)
    (F := unit) (Db := tables_t) (D := unit) toy_mac [] (fun _ => EmptyString) empty_registry) as (r & ev & E & H).
  exists r, ev. split; [exact E|].
  destruct (H "kernel/fs/write"%string) as (Hl & _ & Hu); [apply (bool_decide_unpack _); vm_compute; reflexivity|]. split; [exact Hl|].
  apply Hu. apply (bool_decide_unpack _). vm_compute. reflexivity.
Defined.

End Toy.
