(* ===== verification/Handlers.v ===== *)
(** * The gateway's handlers and connections

    Models [gateway/handlers/] (a definition per domain, the live and the null router, the mapping of kernel
    errors) and [gateway/server.rs] (login, one text frame, the keep-alive of a connection).  A handler gets
    a command that [Gateway.validate_cmd] accepted and mostly forwards it to the kernel's socket.  The router is
    the interface [IpcRouter]; the kernel of [KernelIpc] implements it, and the theorems at the end follow a
    command from the client's frame into the kernel and back.  [None] is a call that does not come back: the
    kernel waits for a full channel, or an assignment [body[..] = ..] panics because the client's body is neither
    an object nor null.  Outside the model: JSON text, the WebSocket and HTTP libraries, RFC 3339
    text, serde's conversions of a SIGPIPE payload; outgoing frames are a trace of values.  The test router
    ([TestIpcRouter]), which simulates a kernel, is not modelled. *)

From S2P Require Import Prelude Invocations History AgentsYaml Vfs Types Token Channels Signals Auth EventBus Hil Process Router Ipc Sessions Store Proc KernelIpc Gateway Json.
Local Open Scope Z_scope.

(** ** Calling the kernel *)

Class IpcRouter (R : Type) : Type := ipc_call : R -> string -> json -> option (result AtpError json * R).
(** [HilManager::resolve]: hil id, approval token, decision, who resolves. *)
Class HilResolver (H : Type) : Type := hil_resolve : Z -> H -> string -> string -> string -> string -> result AvixError H.

Definition ipc_code_to_atp (msg : string) (code : Z) : AtpErrorCode :=
  if decide (code = -32003) then Enotfound
  else if decide (code = -32002) then Eperm
  else if str_contains "not found" msg || str_contains "ENOENT" msg then Enotfound
  else if str_contains "permission" msg || str_contains "EPERM" msg then Eperm
  else if str_contains "conflict" msg || str_contains "ECONFLICT" msg then Econflict
  else if str_contains "unavailable" msg || str_contains "EUNAVAIL" msg then Eunavail
  else Einternal.

(** [LiveIpcRouter::call] on the outcome of the client's call. *)
Definition live_result (r : result AvixError JsonRpcResponse) : result AtpError json :=
  match r with
  | Err e => Err (error_new Eunavail (avix_error_to_string e))
  | Ok resp =>
      match rs_error resp with
      | Some err => Err (error_new (ipc_code_to_atp (Router.message err) (Router.code err)) (Router.message err))
      | None => Ok (default JNull (rs_result resp))
      end
  end.
Definition live_request (uuid method : string) (params : json) : JsonRpcRequest :=
  {| rq_jsonrpc := "2.0"; rq_id := uuid; method := method; params := params |}.
Definition null_call (method : string) (params : json) : result AtpError json :=
  Err (error_new Eunavail "kernel IPC not configured").

Section Handlers.
Context {R H : Type} `{!IpcRouter R, !HilResolver H, !Codec}.
(** [to_rfc3339], and serde's conversions of the payload of SIGPIPE *)
Variable rfc3339 : Z -> string.
Variable pipe_of_value : json -> result string SigPipePayload.t.
Variable pipe_to_value : SigPipePayload.t -> result string json.
Variable base64_decode : string -> result string string.

Record HandlerCtx : Type := { ipc : R; token_store : ATPTokenStore; auth_svc : AuthService; hil_manager : option H }.
Implicit Types c : HandlerCtx.
Definition with_ipc c r : HandlerCtx :=
  {| ipc := r; token_store := token_store c; auth_svc := auth_svc c; hil_manager := hil_manager c |}.
Definition with_auth c s a : HandlerCtx := {| ipc := ipc c; token_store := s; auth_svc := a; hil_manager := hil_manager c |}.
Definition with_hil c h : HandlerCtx := {| ipc := ipc c; token_store := token_store c; auth_svc := auth_svc c; hil_manager := Some h |}.

Definition ipc_forward (id method : string) (params : json) c : option (AtpReply * HandlerCtx) :=
  '(r, k) ← ipc_call (ipc c) method params;
  Some (match r with Ok v => reply_ok id v | Err e => reply_err id e end, with_ipc c k).
Definition unknown_op (id op : string) : AtpReply :=
  reply_err id (error_new Eparse ("unknown op '" +:+ op +:+ "'")%string).

(** The domains that only forward: the op is appended to a prefix. *)
Definition forward_ops (ops : list string) (prefix : string) (v : ValidatedCmd) c : option (AtpReply * HandlerCtx) :=
  let cmd := vc_cmd v in
  if list_contains (op cmd) ops then ipc_forward (cmd_id cmd) (prefix +:+ op cmd)%string (body cmd) c
  else Some (unknown_op (cmd_id cmd) (op cmd), c).

Definition snap_ops : list string := ["create"; "list"; "restore"; "delete"].
Definition cron_ops : list string := ["list"; "add"; "remove"; "pause"; "resume"].
Definition crews_ops : list string := ["list"; "get"; "create"; "update"; "delete"; "join"; "leave"].
Definition pipe_ops : list string := ["open"; "close"; "list"].
Definition sys_ops : list string :=
  ["status"; "reload"; "shutdown"; "restart"; "logs"; "install"; "uninstall"; "update"; "service-list"; "tool-list"].
Definition fs_ops : list string := ["read"; "write"; "list"; "stat"; "watch"; "unwatch"].
Definition users_ops : list string := ["list"; "create"; "update"; "delete"; "passwd"].

Definition handle_snap := forward_ops snap_ops "kernel/snap/".
Definition handle_cron := forward_ops cron_ops "kernel/cron/".
Definition handle_crews := forward_ops crews_ops "kernel/crews/".
Definition handle_pipe := forward_ops pipe_ops "kernel/pipe/".
Definition handle_sys := forward_ops sys_ops "kernel/sys/".

Definition handle_fs (v : ValidatedCmd) c : option (AtpReply * HandlerCtx) :=
  let cmd := vc_cmd v in
  if list_contains (op cmd) ["read"; "stat"; "watch"]%string
     && match as_str (jindex (body cmd) "path") with Some p => starts_with "/secrets/" p | None => false end
  then Some (reply_err (cmd_id cmd) (error_new Eperm "reads from '/secrets/' are forbidden"), c)
  else forward_ops fs_ops "kernel/fs/" v c.

Definition handle_cap (v : ValidatedCmd) c : option (AtpReply * HandlerCtx) :=
  let cmd := vc_cmd v in
  if String.eqb (op cmd) "policy/get" then ipc_forward (cmd_id cmd) "kernel/cap/policy_get" (body cmd) c
  else if String.eqb (op cmd) "policy/set" then ipc_forward (cmd_id cmd) "kernel/cap/policy_set" (body cmd) c
  else forward_ops ["inspect"; "grant"; "revoke"]%string "kernel/cap/" v c.

(** A plain user may only fetch their own record. *)
Definition handle_users (v : ValidatedCmd) c : option (AtpReply * HandlerCtx) :=
  let cmd := vc_cmd v in
  if String.eqb (op cmd) "get" then
    match as_str (jindex (body cmd) "username") with
    | Some requested =>
        if Role.ltb (caller_role v) Role.Operator && negb (String.eqb requested (caller_identity v))
        then Some (reply_err (cmd_id cmd) (error_new Eperm
               ("'" +:+ caller_identity v +:+ "' may not fetch user '" +:+ requested +:+ "'")%string), c)
        else ipc_forward (cmd_id cmd) "kernel/users/get" (body cmd) c
    | None => ipc_forward (cmd_id cmd) "kernel/users/get" (body cmd) c
    end
  else forward_ops users_ops "kernel/users/" v c.

Definition handle_session (v : ValidatedCmd) c : option (AtpReply * HandlerCtx) :=
  let cmd := vc_cmd v in
  Some (if String.eqb (op cmd) "ready" then reply_ok (cmd_id cmd) (JStr "ack") else unknown_op (cmd_id cmd) (op cmd), c).

(** ** [handlers/auth.rs] *)

Definition handle_auth (now : Z) (v : ValidatedCmd) c : option (AtpReply * HandlerCtx) :=
  let cmd := vc_cmd v in
  let id := cmd_id cmd in
  if String.eqb (op cmd) "whoami" then
    Some (reply_ok id (JObj [("identity", JStr (caller_identity v)); ("role", JStr (Role.to_string (caller_role v)));
                             ("sessionId", JStr (caller_session_id v))]%string), c)
  else if String.eqb (op cmd) "refresh" then
    Some (match refresh_token now (auth_svc c) (token cmd) (token_store c) with
          | Ok (t, cl) => reply_ok id (JObj [("token", JStr t); ("expiresAt", JStr (rfc3339 (exp cl)))]%string)
          | Err e => reply_err id (error_new Eauth (avix_error_to_string e))
          end, c)
  else if String.eqb (op cmd) "logout" then
    let st := store_revoke (token_store c) (caller_session_id v) in
    let a := match revoke_session (auth_svc c) (caller_session_id v) with Ok a => a | Err _ => auth_svc c end in
    Some (reply_ok id (JObj []), with_auth c st a)
  else forward_ops ["sessions"; "kick"]%string "kernel/auth/" v c.

(** ** [handlers/signal.rs] *)

Definition avix_err_to_atp (e : AvixError) : AtpError :=
  let msg := avix_error_to_string e in
  if str_contains "EUSED" msg then error_new Eused "approval token already consumed" else error_new Einternal msg.
Definition VALID_SIGNALS : list string :=
  ["SIGSTART"; "SIGPAUSE"; "SIGRESUME"; "SIGKILL"; "SIGSTOP"; "SIGSAVE"; "SIGPIPE"; "SIGESCALATE"].

(** SIGRESUME with an approval token answers a question to a human. *)
Definition resolve_hil (now : Z) (id token : string) (payload : json) c : AtpReply * HandlerCtx :=
  match jget payload "hilId" ≫= as_str with
  | None => (reply_err id (error_new Eparse "SIGRESUME with approvalToken requires 'hilId' in payload"), c)
  | Some hil_id =>
      match hil_manager c with
      | None => (reply_err id (error_new Eunavail "HIL manager not configured"), c)
      | Some m =>
          match hil_resolve now m hil_id token (default "denied"%string (as_str (jindex payload "decision"))) EmptyString with
          | Ok m' => (reply_ok id (JObj [("ok", JBool true)]%string), with_hil c m')
          | Err e => (reply_err id (avix_err_to_atp e), c)
          end
      end
  end.
Definition is_number (j : json) : bool := match j with JInt _ | JFloat _ => true | _ => false end.
Definition send_pipe (id : string) (body : json) c : option (AtpReply * HandlerCtx) :=
  match pipe_of_value (default (JObj []) (jget body "payload")) with
  | Err e => Some (reply_err id (error_new Eparse ("invalid SIGPIPE payload: " +:+ e)%string), c)
  | Ok p =>
      match SigPipePayload.validate base64_decode p with
      | Err e => Some (reply_err id (error_new Eparse e), c)
      | Ok _ =>
          match pipe_to_value p with
          | Err e => Some (reply_err id (error_new Einternal e), c)
          | Ok pv =>
              let pid := if is_number (jindex body "pid") then jindex body "pid" else JInt 0 in
              ipc_forward id "kernel/signal/send" (JObj [("signal", JStr "SIGPIPE"); ("pid", pid); ("payload", pv)]%string) c
          end
      end
  end.
Definition handle_send (now : Z) (id : string) (body : json) c : option (AtpReply * HandlerCtx) :=
  match as_str (jindex body "signal") with
  | None => Some (reply_err id (error_new Eparse "missing 'signal' field"), c)
  | Some signal =>
      if negb (list_contains signal VALID_SIGNALS) then
        Some (reply_err id (error_new Eparse
          ("unknown signal '" +:+ signal +:+ "'; valid: " +:+ String.concat ", " VALID_SIGNALS)%string), c)
      else
        let payload := default (JObj []) (jget body "payload") in
        match (if String.eqb signal "SIGRESUME" then jget payload "approvalToken" ≫= as_str else None) with
        | Some token => Some (resolve_hil now id token payload c)
        | None => if String.eqb signal "SIGPIPE" then send_pipe id body c else ipc_forward id "kernel/signal/send" body c
        end
  end.
Definition handle_signal (now : Z) (v : ValidatedCmd) c : option (AtpReply * HandlerCtx) :=
  let cmd := vc_cmd v in
  if String.eqb (op cmd) "send" then handle_send now (cmd_id cmd) (body cmd) c
  else forward_ops ["subscribe"; "unsubscribe"; "list"]%string "kernel/signal/" v c.

(** ** [handlers/proc.rs] *)

Definition plain_proc_ops : list string :=
  ["kill"; "list"; "stat"; "pause"; "resume"; "wait"; "setcap"; "invocation-get"; "invocation-conversation";
   "invocation-snapshot"; "message-create"; "message-get"; "message-list"; "part-create"; "part-get"; "part-list"].
Definition session_ops : list string := ["session-get"; "session-pause"; "session-resume"; "session-delete"].
Definition package_ops : list string :=
  ["package/install-agent"; "package/uninstall-agent"; "package/install-service"; "package/uninstall-service"].

(** [if body[key].as_str().unwrap_or("").is_empty() { body[key] = .. }] *)
Definition default_field (b : json) (key value : string) : option json :=
  if String.eqb (default EmptyString (as_str (jindex b key))) EmptyString then index_assign b key (JStr value) else Some b.
(** [entry(key).or_insert("")] *)
Definition or_insert_empty (b : json) (key : string) : json :=
  match jget b key with Some _ => b | None => jobj_insert b key (JStr EmptyString) end.
Definition is_privileged (r : Role.t) : bool := bool_decide (r = Role.Operator) || bool_decide (r = Role.Admin).

Definition spawn_body (v : ValidatedCmd) (b : json) : option json :=
  b ← default_field b "caller" (caller_identity v);
  index_assign (or_insert_empty b "session_id") "atp_session_id" (JStr (caller_session_id v)).
Definition session_body (v : ValidatedCmd) (b : json) : option json :=
  b ← index_assign b "caller_identity" (JStr (caller_identity v));
  index_assign b "is_privileged" (JBool (is_privileged (caller_role v))).

Definition handle_proc (v : ValidatedCmd) c : option (AtpReply * HandlerCtx) :=
  let cmd := vc_cmd v in
  let id := cmd_id cmd in
  if list_contains (op cmd) ["list-installed"; "invocation-list"]%string then
    b ← default_field (body cmd) "username" (caller_identity v); ipc_forward id ("kernel/proc/" +:+ op cmd)%string b c
  else if String.eqb (op cmd) "spawn" then b ← spawn_body v (body cmd); ipc_forward id "kernel/proc/spawn" b c
  else if list_contains (op cmd) plain_proc_ops then ipc_forward id ("kernel/proc/" +:+ op cmd)%string (body cmd) c
  else if String.eqb (op cmd) "session-list" then
    b ← default_field (body cmd) "username" (caller_identity v); ipc_forward id "kernel/proc/session/list" b c
  else if list_contains (op cmd) session_ops then
    b ← session_body v (body cmd); ipc_forward id ("kernel/proc/" +:+ replace_char "-" "/" (op cmd))%string b c
  else if list_contains (op cmd) package_ops then
    b ← index_assign (body cmd) "caller_identity" (JStr (caller_identity v));
    ipc_forward id ("kernel/proc/" +:+ op cmd)%string b c
  else Some (unknown_op id (op cmd), c).

(** ** Dispatch *)

Definition dispatch (now : Z) (v : ValidatedCmd) c : option (AtpReply * HandlerCtx) :=
  match domain (vc_cmd v) with
  | AtpDomain.Auth => handle_auth now v c
  | AtpDomain.Proc => handle_proc v c
  | AtpDomain.Signal => handle_signal now v c
  | AtpDomain.Fs => handle_fs v c
  | AtpDomain.Snap => handle_snap v c
  | AtpDomain.Cron => handle_cron v c
  | AtpDomain.Users => handle_users v c
  | AtpDomain.Crews => handle_crews v c
  | AtpDomain.Cap => handle_cap v c
  | AtpDomain.Sys => handle_sys v c
  | AtpDomain.Pipe => handle_pipe v c
  | AtpDomain.Session => handle_session v c
  end.
(** ** [server.rs]: one text frame *)

(** The frames a connection sends, as values. *)
Inductive OutMsg : Type := OutReply (r : AtpReply) | OutEvent (e : AtpEvent).
Record Conn : Type := { ctx : HandlerCtx; seen : gset string; filter_ : EventFilter }.
Implicit Types n : Conn.

Definition expiring (now : Z) c (v : ValidatedCmd) (session : string) : list OutMsg :=
  match store_expiring_soon now (token_store c) (token (vc_cmd v)) with
  | Ok true => [OutEvent (event_new now TokenExpiring session (JObj []))]
  | _ => []
  end.
(** [parse] is [AtpFrame::parse]; [replay] is what the event bus holds since a number. *)
Definition handle_text_frame (now : Z) (parse : string -> result AtpFrameError AtpFrame) (replay : Z -> list BusEvent)
    (session : string) (admin_port : bool) (text : string) n : option (list OutMsg * Conn) :=
  match parse text with
  | Err _ => Some ([], n)
  | Ok (Cmd cmd) =>
      match validate_cmd now cmd (token_store (ctx n)) (seen n) session admin_port with
      | Err e => Some ([OutReply (reply_err (cmd_id cmd) e)], n)
      | Ok (v, seen') =>
          '(r, c) ← dispatch now v (ctx n);
          Some (expiring now (ctx n) v session ++ [OutReply r], {| ctx := c; seen := seen'; filter_ := filter_ n |})
      end
  | Ok (Subscribe sub) =>
      let f := set_subscriptions (filter_ n) (events sub) in
      Some (match since_seq sub with
            | Some s => (fun e => OutEvent (bevent e)) <$> filter (fun e => should_receive f e = true) (replay s)
            | None => []
            end, {| ctx := ctx n; seen := seen n; filter_ := f |})
  end.

(** ** [server.rs]: login *)

(** The status code and the body. *)
Definition handle_login (now : Z) (uuid : string) (identity credential : string) c : (Z * json) * HandlerCtx :=
  match login now uuid (auth_svc c) identity credential with
  | Ok (s, a) =>
      let cl := login_claims now s in
      ((200, JObj [("token", JStr (store_issue (token_store c) cl)); ("expiresAt", JStr (rfc3339 (exp cl)));
                   ("sessionId", JStr (se_id s))]%string), with_auth c (token_store c) a)
  | Err _ => ((401, JObj [("error", JStr "EAUTH"); ("message", JStr "invalid credential")]%string), c)
  end.
(** The upgrade: the bearer token must be valid; the connection is bound to its session and role. *)
Definition handle_ws_upgrade (now : Z) (authorization : option string) c : result (Z * json) (string * Role.t) :=
  let refuse m := Err (401, JObj [("error", JStr "EAUTH"); ("message", JStr m)]%string) in
  match authorization ≫= strip_prefix "Bearer " with
  | None => refuse "missing Authorization header"%string
  | Some t =>
      match store_validate now (token_store c) t with
      | Ok cl => Ok (session_id cl, role cl)
      | Err _ => refuse "invalid or expired token"%string
      end
  end.
Definition connection_new c (session : string) (r : Role.t) : Conn :=
  {| ctx := c; seen := ∅; filter_ := filter_new session r |}.

End Handlers.

(** ** [server.rs]: keep-alive *)

(** What the select loop of a connection sees about the peer's life, with the time in milliseconds. *)
Inductive Beat : Type := Pong (t : Z) | Tick (t : Z).
(** [None]: the connection is closed for a ping timeout. *)
Definition beat (last_pong : Z) (b : Beat) : option Z :=
  match b with
  | Pong t => Some t
  | Tick t => if decide (40000 < t - last_pong) then None else Some t
  end.
Fixpoint keep_alive (last_pong : Z) (bs : list Beat) : option Z :=
  match bs with [] => Some last_pong | b :: bs => l ← beat last_pong b; keep_alive l bs end.

(** The check can never close a connection: a tick moves [last_pong] itself, so a peer that never answers stays
    connected as long as the ticks come at most forty seconds apart, and they are thirty apart. *)
Fixpoint spaced (last : Z) (ts : list Z) : Prop :=
  match ts with [] => True | t :: ts => t - last <= 40000 /\ spaced t ts end.
Lemma silent_peer_stays last ts : spaced last ts -> is_Some (keep_alive last (Tick <$> ts)).
Proof.
  revert last. induction ts as [|t ts IH]; intros last; cbn; [by eexists|]. intros [Ht Hs].
  rewrite decide_False by lia. cbn. by apply IH.
Qed.

(** ** Every command gets one reply *)

Section Replies.
Context {R H : Type} `{!IpcRouter R, !HilResolver H, !Codec}.
Variable rfc3339 : Z -> string.
Variable pipe_of_value : json -> result string SigPipePayload.t.
Variable pipe_to_value : SigPipePayload.t -> result string json.
Variable base64_decode : string -> result string string.
Implicit Types c : HandlerCtx (R := R) (H := H).

Definition is_reply (o : OutMsg) : bool := match o with OutReply _ => true | OutEvent _ => false end.

Lemma forward_id id m ps c r c' : ipc_forward id m ps c = Some (r, c') -> rp_id r = id.
Proof. unfold ipc_forward. destruct (ipc_call _ _ _) as [[x k]|]; cbn; [|done]. intros [= <- _]. by destruct x. Qed.
Lemma forward_ops_id ops pre v c r c' : forward_ops ops pre v c = Some (r, c') -> rp_id r = cmd_id (vc_cmd v).
Proof. unfold forward_ops. case_match; [apply forward_id | by intros [= <- _]]. Qed.
Lemma bind_forward_id (o : option json) id m c r c' : (b ← o; ipc_forward id m b c) = Some (r, c') -> rp_id r = id.
Proof. destruct o; cbn; [apply forward_id | done]. Qed.
Lemma reply_pair_id id r0 c (r : AtpReply) c' : rp_id r0 = id -> Some (r0, c) = Some (r, c') -> rp_id r = id.
Proof. by intros ? [= <- _]. Qed.
#[local] Hint Resolve forward_id forward_ops_id bind_forward_id reply_pair_id : core.

Lemma send_id now id b c r c' : handle_send pipe_of_value pipe_to_value base64_decode now id b c = Some (r, c') -> rp_id r = id.
Proof.
  unfold handle_send, send_pipe, resolve_hil. intros E. repeat (case_match; simplify_eq/=); eauto.
Qed.

Lemma dispatch_id now v c r c' :
  dispatch rfc3339 pipe_of_value pipe_to_value base64_decode now v c = Some (r, c') -> rp_id r = cmd_id (vc_cmd v).
Proof.
  unfold dispatch, handle_auth, handle_proc, handle_signal, handle_fs, handle_snap, handle_cron, handle_users, handle_crews,
    handle_cap, handle_sys, handle_pipe, handle_session. intros E.
  repeat (case_match; try (eapply reply_pair_id; [|exact E]; repeat case_match; done)); eauto using send_id.
Qed.

Lemma expiring_events now c v s : forallb (fun o => negb (is_reply o)) (expiring now c v s) = true.
Proof. unfold expiring. by repeat case_match. Qed.

(** A command frame that is handled gets exactly one reply, the last frame sent for it and with its id; a command
    that is not validated changes nothing and its reply carries the reason; no other frame is answered. *)
Theorem frame_replies now parse replay session port text n outs n' :
  handle_text_frame rfc3339 pipe_of_value pipe_to_value base64_decode now parse replay session port text n = Some (outs, n') ->
  match parse text with
  | Ok (Cmd cmd) => exists evs (r : AtpReply), outs = evs ++ [OutReply r] /\ forallb (fun o => negb (is_reply o)) evs = true /\
      rp_id r = cmd_id cmd /\
      match validate_cmd now cmd (token_store (ctx n)) (seen n) session port with
      | Err e => r = reply_err (cmd_id cmd) e /\ n' = n
      | Ok (v, seen') => seen n' = seen'
      end
  | _ => forallb (fun o => negb (is_reply o)) outs = true /\ ctx n' = ctx n
  end.
Proof.
  unfold handle_text_frame. destruct (parse text) as [[cmd|sub]|]; [| |by intros [= <- <-]].
  - destruct (validate_cmd _ _ _ _ _ _) as [[v seen']|e] eqn:Ev; [|intros [= <- <-]; by exists [], (reply_err (cmd_id cmd) e)].
    destruct (dispatch _ _ _ _ _ _ _) as [[r c]|] eqn:Ed; cbn; [|done]. intros [= <- <-].
    exists (expiring now (ctx n) v session), r. split; [done|]. split; [apply expiring_events|]. split; [|done].
    apply dispatch_id in Ed. rewrite Ed. apply validate_cmd_Ok in Ev as (who & _ & _ & ->). done.
  - intros [= <- <-]. split; [|done]. destruct (since_seq sub); [|done].
    induction (replay z) as [|e l IH]; [done|]. rewrite filter_cons. case_decide; [by cbn | done].
Qed.

End Replies.

(** ** From the client's frame into the kernel *)

Section EndToEnd.
Context {SS IS C F Db D : Type} `{!SessionStoreI SS, !Invocations.InvocationStoreI IS, !Mpsc Signal C, !UuidText}.
Context `{!AgentsYaml.FileOps F, !AgentsYaml.YamlText, !Redb Db, !Serde History.MessageRecord, !Serde History.PartRecord, !Vfs.Disk D}.
Context {HM : Type} `{!HilResolver HM, !Codec}.
Variable hmac : string -> string -> string.
Variable syscalls : list Resources.CapabilityResolver.Syscall.
Variable yaml_of_names : list string -> string.
Variables (cf : Config) (h : Host) (dr : Draw) (uuid : string).
Variable rfc3339 : Z -> string.
Variable pipe_of_value : json -> result string SigPipePayload.t.
Variable pipe_to_value : SigPipePayload.t -> result string json.
Variable base64_decode : string -> result string string.
Abbreviation kernel := (Kernel (SS := SS) (IS := IS) (C := C) (F := F) (Db := Db) (D := D)).

(** The live router in front of the kernel: the socket delivers the request and the answer. *)
#[local] Instance kernel_router : IpcRouter kernel := fun k m p =>
  '(r, k) ← KernelIpc.dispatch_request hmac syscalls yaml_of_names cf h dr (rq_id (live_request uuid m p)) (method (live_request uuid m p))
              (params (live_request uuid m p)) k;
  Some (live_result (Ok r), k).
Abbreviation dispatch_ := (dispatch rfc3339 pipe_of_value pipe_to_value base64_decode).
Abbreviation frame_ := (handle_text_frame rfc3339 pipe_of_value pipe_to_value base64_decode).
Implicit Types c : HandlerCtx (R := kernel) (H := HM).

Lemma forward_kernel id m ps c :
  ipc_forward id m ps c = '(r, k) ← KernelIpc.dispatch_request hmac syscalls yaml_of_names cf h dr uuid m ps (ipc c);
    Some (match live_result (Ok r) with Ok v => reply_ok id v | Err e => reply_err id e end, with_ipc c k).
Proof.
  unfold ipc_forward, ipc_call, kernel_router. cbn [live_request rq_id method params].
  by destruct (KernelIpc.dispatch_request _ _ _ _ _ _ _ _ _ _) as [[]|].
Qed.

(** *** Commands about sessions *)

Definition session_op_of (o : string) : option Op :=
  if String.eqb o "session-get" then Some OpSessionGet
  else if String.eqb o "session-pause" then Some OpSessionPause
  else if String.eqb o "session-resume" then Some OpSessionResume
  else if String.eqb o "session-delete" then Some OpSessionDelete else None.

Lemma session_op_inv s o : session_op_of s = Some o ->
  s = "session-get"%string /\ o = OpSessionGet \/ s = "session-pause"%string /\ o = OpSessionPause \/
  s = "session-resume"%string /\ o = OpSessionResume \/ s = "session-delete"%string /\ o = OpSessionDelete.
Proof.
  unfold session_op_of. destruct (String.eqb_spec s "session-get") as [->|_]; [intros [= <-]; by left|].
  destruct (String.eqb_spec s "session-pause") as [->|_]; [intros [= <-]; by right; left|].
  destruct (String.eqb_spec s "session-resume") as [->|_]; [intros [= <-]; by right; right; left|].
  destruct (String.eqb_spec s "session-delete") as [->|_]; [intros [= <-]; by right; right; right|]. done.
Qed.

(** Evaluate the tests on a concrete op, and the method built from it. *)
Ltac eval_ops_in E :=
  repeat match type of E with
  | context [list_contains ?a ?l] => let b := eval vm_compute in (list_contains a l) in change (list_contains a l) with b in E
  | context [String.eqb ?a ?l] => let b := eval vm_compute in (String.eqb a l) in change (String.eqb a l) with b in E
  | context [("kernel/proc/" +:+ ?a)%string] =>
      let b := eval vm_compute in ("kernel/proc/" +:+ a)%string in change ("kernel/proc/" +:+ a)%string with b in E
  end; cbv match beta in E.

Lemma handle_proc_session v c o : session_op_of (op (vc_cmd v)) = Some o ->
  handle_proc v c = b ← session_body v (body (vc_cmd v)); ipc_forward (cmd_id (vc_cmd v)) (op_name o) b c.
Proof.
  intros Ho. remember (handle_proc v c) as x eqn:E. unfold handle_proc in E.
  apply session_op_inv in Ho as [[Eo ->]|[[Eo ->]|[[Eo ->]|[Eo ->]]]]; rewrite Eo in E; eval_ops_in E; exact E.
Qed.

Lemma session_forward v o c b : domain (vc_cmd v) = AtpDomain.Proc -> session_op_of (op (vc_cmd v)) = Some o ->
  session_body v (body (vc_cmd v)) = Some b ->
  handle_proc v c = '(r, k) ← dispatch_op hmac syscalls yaml_of_names cf h dr o uuid b (ipc c);
    Some (match live_result (Ok r) with Ok x => reply_ok (cmd_id (vc_cmd v)) x | Err e => reply_err (cmd_id (vc_cmd v)) e end, with_ipc c k).
Proof.
  intros Hd Ho Hb. rewrite (handle_proc_session v c o Ho), Hb. cbn [mbind option_bind]. rewrite forward_kernel.
  unfold KernelIpc.dispatch_request. by rewrite op_of_name.
Qed.

(** Injecting the caller does not move the session the client names. *)
Lemma session_body_fields v b b' : session_body v b = Some b' ->
  jindex b' "caller_identity" = JStr (caller_identity v) /\ jindex b' "is_privileged" = JBool (is_privileged (caller_role v)) /\
  jindex b' "id" = jindex b "id" /\ jindex b' "session_id" = jindex b "session_id".
Proof.
  unfold session_body. destruct b as [| | | | | |l]; cbn; try done.
  - intros [= <-]. by vm_compute.
  - intros [= <-]. unfold jindex, jget. rewrite !assoc_get_set. by repeat (case_decide; simplify_eq).
Qed.

Lemma session_body_total v b : (b = JNull \/ exists l, b = JObj l) -> is_Some (session_body v b).
Proof. intros [->|[l ->]]; by eexists. Qed.

(** C7: A user without privilege who names a stored session of somebody else gets EPERM for it, whatever the operation
    and whatever fields the client put into the body, and the kernel is not touched. *)
Theorem session_commands_isolated now parse replay session port text n outs n' cmd who o key s :
  parse text = Ok (Cmd cmd) -> domain cmd = AtpDomain.Proc -> session_op_of (op cmd) = Some o -> session_key_of o = Some key ->
  store_validate now (token_store (ctx n)) (token cmd) = Ok who -> sub who <> EmptyString -> Role.ltb (role who) Role.Operator = true ->
  names_session key (body cmd) (ipc (ctx n)) s -> Sessions.username s <> sub who ->
  frame_ now parse replay session port text n = Some (outs, n') ->
  ipc (ctx n') = ipc (ctx n) /\
  exists evs e, outs = evs ++ [OutReply (reply_err (cmd_id cmd) e)] /\
    (forall v seen', validate_cmd now cmd (token_store (ctx n)) (seen n) session port = Ok (v, seen') -> code e = Eperm).
Proof.
  intros Hp Hd Ho Hk Ht Hsub Hr Hs Hu E. unfold handle_text_frame in E. rewrite Hp in E.
  destruct (validate_cmd _ _ _ _ _ _) as [[v seen']|e] eqn:Ev; [|injection E as <- <-; split; [done|]; exists [], e; by split].
  apply validate_cmd_Ok in Ev as (w & [Ew _ _ _ _ _] & _ & ->). rewrite Ht in Ew. injection Ew as <-.
  set (v := {| vc_cmd := cmd; caller_identity := sub who; caller_role := role who; caller_session_id := _ |}) in *.
  unfold dispatch in E. cbn [vc_cmd v] in E. rewrite Hd in E.
  destruct (session_body v (body cmd)) as [b|] eqn:Eb.
  2:{ rewrite (handle_proc_session v (ctx n) o Ho) in E. cbn [vc_cmd v] in E. by rewrite Eb in E. }
  rewrite (session_forward v o (ctx n) b Hd Ho Eb) in E. cbn [vc_cmd v] in E.
  destruct (dispatch_op _ _ _ _ _ _ _ _ _ _) as [[r k]|] eqn:Ek; cbn [mbind option_bind] in E; [|done].
  destruct (session_body_fields _ _ _ Eb) as (Fi & Fp & Fid & Fsid).
  assert (names_session key b (ipc (ctx n)) s) as Hs'.
  { destruct Hs as (u & Hu1 & Hu2). exists u. split; [|done]. unfold str_param in *.
    destruct o; try discriminate Hk; injection Hk as <-; by rewrite ?Fid, ?Fsid. }
  assert (~ allowed b s) as Hna.
  { unfold allowed, str_param. rewrite Fi, Fp. cbn. intros [Hx|[Hx|Hx]]; [done| |done].
    injection Hx as Hx. unfold is_privileged in Hx. cbn in Hx. by destruct (role who). }
  destruct (foreign_refused _ _ _ _ _ _ _ _ _ _ _ _ _ _ Hk Ek Hs' Hna) as [-> ->]. injection E as <- <-. split; [done|].
  eexists (expiring now (ctx n) v session), _. split; [reflexivity|]. intros v0 s0 _. by vm_compute.
Qed.

(** *** Spawning *)

Lemma spawn_body_fields v l : exists b, spawn_body v (JObj l) = Some b /\
  str_param b "caller" "gateway" =
    (if String.eqb (str_param (JObj l) "caller" "") "" then caller_identity v else str_param (JObj l) "caller" "") /\
  str_param b "atp_session_id" "" = caller_session_id v /\
  str_param b "session_id" "" = str_param (JObj l) "session_id" "" /\
  (forall key, key ∉ ["caller"; "session_id"; "atp_session_id"]%string -> jindex b key = jindex (JObj l) key).
Proof.
  assert (forall l1, exists b, index_assign (or_insert_empty (JObj l1) "session_id") "atp_session_id" (JStr (caller_session_id v)) = Some b /\
    jindex b "atp_session_id" = JStr (caller_session_id v) /\ str_param b "session_id" "" = str_param (JObj l1) "session_id" "" /\
    (forall key, key <> "session_id"%string -> key <> "atp_session_id"%string -> jindex b key = jindex (JObj l1) key)) as Hend.
  { intros l1. unfold or_insert_empty, str_param, jindex. destruct (jget (JObj l1) "session_id") as [x|] eqn:Es; cbn; eexists; (split; [done|]); cbn in *;
      rewrite ?assoc_get_set; (split; [done|]); (split; [by rewrite ?Es|]); intros key K1 K2; rewrite ?assoc_get_set; by repeat (case_decide; simplify_eq). }
  unfold spawn_body, default_field. change (default EmptyString (as_str (jindex (JObj l) "caller"))) with (str_param (JObj l) "caller" "").
  destruct (String.eqb_spec (str_param (JObj l) "caller" "") "") as [Ec|Ec].
  - cbn [index_assign mbind option_bind jobj_insert]. destruct (Hend (assoc_set "caller" (JStr (caller_identity v)) l)) as (b & -> & A & B0 & K).
    exists b. split; [done|]. split; [|split; [by unfold str_param; rewrite A|split]].
    + unfold str_param. rewrite K by done. unfold jindex. cbn. by rewrite assoc_get_set.
    + rewrite B0. unfold str_param, jindex. cbn. by rewrite assoc_get_set.
    + intros key Hk. rewrite K by set_solver. unfold jindex. cbn. rewrite assoc_get_set. rewrite decide_False by set_solver. done.
  - cbn [mbind option_bind]. destruct (Hend l) as (b & -> & A & B0 & K). exists b. split; [done|].
    split; [|split; [by unfold str_param; rewrite A|split; [done|]]].
    + unfold str_param in *. rewrite K by done. by destruct (as_str (jindex (JObj l) "caller")).
    + intros key Hk. apply K; set_solver.
Qed.

(** A spawn command reaches the kernel with the name, goal, session and parent the client gave, bound to the
    client's own connection for its events; but the user the agent is spawned for is the [caller] of the
    body whenever the client put one there, and the identity of the token only otherwise. *)
Theorem spawn_identity now v c l :
  domain (vc_cmd v) = AtpDomain.Proc -> op (vc_cmd v) = "spawn"%string -> body (vc_cmd v) = JObj l ->
  exists b, dispatch_ now v c =
      (let '(r, k) := h_spawn hmac syscalls cf dr uuid b (ipc c) in
       Some (match live_result (Ok r) with Ok x => reply_ok (cmd_id (vc_cmd v)) x | Err e => reply_err (cmd_id (vc_cmd v)) e end,
             with_ipc c k)) /\
    str_param b "caller" "gateway" =
      (if String.eqb (str_param (JObj l) "caller" "") "" then caller_identity v else str_param (JObj l) "caller" "") /\
    str_param b "atp_session_id" "" = caller_session_id v /\
    str_param b "session_id" "" = str_param (JObj l) "session_id" "" /\
    (forall key, key ∉ ["caller"; "session_id"; "atp_session_id"]%string -> jindex b key = jindex (JObj l) key).
Proof.
  intros Hd Ho Hb. destruct (spawn_body_fields v l) as (b & Eb & Hf). exists b. split; [|done].
  unfold dispatch. rewrite Hd. remember (handle_proc v c) as x eqn:E. unfold handle_proc in E. rewrite Ho, Hb in E. eval_ops_in E.
  rewrite Eb in E. cbn [mbind option_bind] in E. rewrite E, forward_kernel. unfold KernelIpc.dispatch_request.
  change (op_of "kernel/proc/spawn") with (Some OpSpawn). cbn [dispatch_op]. by destruct (h_spawn _ _ _ _ _ _ _).
Qed.

(** *** Commands the kernel does not serve *)

Definition unserved (d : AtpDomain.t) (o : string) : bool :=
  match d with
  | AtpDomain.Fs | AtpDomain.Snap | AtpDomain.Cron | AtpDomain.Users | AtpDomain.Crews | AtpDomain.Cap | AtpDomain.Pipe => true
  | AtpDomain.Sys => negb (list_contains o ["service-list"; "tool-list"]%string)
  | AtpDomain.Signal => negb (String.eqb o "send")
  | AtpDomain.Auth => list_contains o ["sessions"; "kick"]%string
  | AtpDomain.Proc | AtpDomain.Session => false
  end.

Lemma forward_unknown id m ps c r c' : op_of m = None -> ipc_forward id m ps c = Some (r, c') -> rp_ok r = false /\ ipc c' = ipc c.
Proof.
  intros Hm. rewrite forward_kernel. unfold KernelIpc.dispatch_request. rewrite Hm. cbn. by intros [= <- <-].
Qed.
Lemma forward_ops_unknown ops pre v c r c' :
  (forall o, o ∈ ops -> o = op (vc_cmd v) -> op_of (pre +:+ o)%string = None) -> forward_ops ops pre v c = Some (r, c') ->
  rp_ok r = false /\ ipc c' = ipc c.
Proof.
  intros Hf. unfold forward_ops. pose proof (list_contains_spec (op (vc_cmd v)) ops) as Hl.
  destruct (list_contains _ _); [|by intros [= <- <-]]. apply forward_unknown, Hf; [by apply Hl | done].
Qed.
Lemma all_unknown ops pre : forallb (fun o => match op_of (pre +:+ o)%string with None => true | Some _ => false end) ops = true ->
  forall o, o ∈ ops -> op_of (pre +:+ o)%string = None.
Proof. rewrite forallb_forall. intros Hf o Ho%list_elem_of_In. specialize (Hf o Ho). by destruct (op_of _). Qed.

Ltac unserved_by E := eapply forward_ops_unknown; [|exact E]; intros o Ho _; revert o Ho; by apply all_unknown.

(** Whole domains have no handler in the kernel: their commands, and the rest of sys, signal and auth that is
    forwarded, always fail and never reach any component, whoever sends them. *)
Theorem unserved_commands now v c r c' :
  unserved (domain (vc_cmd v)) (op (vc_cmd v)) = true -> dispatch_ now v c = Some (r, c') -> rp_ok r = false /\ ipc c' = ipc c.
Proof.
  unfold dispatch, unserved. destruct (domain (vc_cmd v)); intros Hu E; try done.
  - unfold handle_auth in E. destruct (String.eqb_spec (op (vc_cmd v)) "whoami") as [Eo|_]; [by rewrite Eo in Hu|].
    destruct (String.eqb_spec (op (vc_cmd v)) "refresh") as [Eo|_]; [by rewrite Eo in Hu|].
    destruct (String.eqb_spec (op (vc_cmd v)) "logout") as [Eo|_]; [by rewrite Eo in Hu|].
    unserved_by E.
  - unfold handle_signal in E. destruct (String.eqb _ "send"); [done|].
    unserved_by E.
  - unfold handle_fs in E. destruct (_ && _); [by injection E as <- <-|].
    unserved_by E.
  - unserved_by E.
  - unserved_by E.
  - unfold handle_users in E. destruct (String.eqb _ "get").
    + destruct (as_str _); [destruct (_ && _); [by injection E as <- <-|]|]; by apply forward_unknown in E.
    + unserved_by E.
  - unserved_by E.
  - unfold handle_cap in E. destruct (String.eqb _ "policy/get"); [by apply forward_unknown in E|].
    destruct (String.eqb _ "policy/set"); [by apply forward_unknown in E|].
    unserved_by E.
  - eapply forward_ops_unknown; [|exact E]. intros o Ho Eo. subst o.
    assert (op (vc_cmd v) ∈ ["status"; "reload"; "shutdown"; "restart"; "logs"; "install"; "uninstall"; "update"]%string) as Ho'.
    { change sys_ops with (app ["status"; "reload"; "shutdown"; "restart"; "logs"; "install"; "uninstall"; "update"]%string
        ["service-list"; "tool-list"]%string) in Ho. apply elem_of_app in Ho as [Ho|Ho]; [done|].
      apply list_contains_spec in Ho. by rewrite Ho in Hu. }
    revert Ho'. generalize (op (vc_cmd v)). by apply all_unknown.
  - unserved_by E.
Qed.

End EndToEnd.

(** The human-in-the-loop manager of the kernel resolves for the gateway. *)
#[export] Instance hil_resolver {B R B' R' : Type} `{!Broadcast BusEvent B R, !Broadcast Signal B' R'}
    (to_yaml : HilRequest -> result string string) (instant : Z -> json) : HilResolver (HilManager (B := B) (B' := B')) :=
  fun now m id tok decision by_ => Hil.resolve to_yaml instant now true m id tok decision by_.

(** ** Bob and Alice's session *)

Module Toy.
Import Mem ToyUuid Invocations.Toy QueueMpsc Proc.Toy KernelIpc.Toy.

Definition bob : ATPTokenClaims := {|
  sub := "bob"; uid := 2; role := Role.User; crews := []; session_id := "b1"; iat := 0; exp := nanos 100; scope := [] |}.
(** A codec that knows one token, [c.s]. *)
#[local] Instance one_token : Codec := {|
  claims_to_json _ := "c"; claims_from_json _ := Ok bob; base64url_encode s := s; base64url_decode s := Ok s;
  hmac_hex _ _ := "s"; hmac_bytes _ _ := "s"; hex_decode s := Some s |}%string.
#[local] Instance no_hil : HilResolver unit := fun _ m _ _ _ _ => Ok m.
#[local] Existing Instances no_files no_yaml no_messages no_parts.
#[local] Instance toy_router : IpcRouter map_kernel :=
  kernel_router toy_mac [] (fun _ => EmptyString) toy_config toy_host toy_draw "7".

Definition delete_cmd : AtpCmd := {|
  msg_type := "cmd"; cmd_id := "1"; token := "c.s"; domain := AtpDomain.Proc; op := "session-delete";
  body := JObj [("session_id", JStr (uuid_str 77)); ("caller_identity", JStr "alice"); ("is_privileged", JBool true)] |}%string.
Definition toy_parse (_ : string) : result AtpFrameError AtpFrame := Ok (Cmd delete_cmd).
Definition bobs_connection : Conn (R := map_kernel) (H := unit) := {|
  ctx := {| ipc := alice_kernel; token_store := store_new "k"; auth_svc := sample_auth; hil_manager := None |};
  seen := ∅; filter_ := filter_new "b1" Role.User |}.
Abbreviation toy_frame := (handle_text_frame (R := map_kernel) (H := unit) (fun _ => EmptyString) (fun _ => Err EmptyString)
  (fun _ => Err EmptyString) (fun s => Ok s) 0 toy_parse (fun _ => []) "b1" false "text").

Lemma frame_replies_witness : exists outs n', toy_frame bobs_connection = Some (outs, n') /\
  exists evs r, outs = evs ++ [OutReply r] /\ rp_id r = "1"%string.
Proof.
  assert (bool_decide (is_Some (toy_frame bobs_connection)) = true) as Hb by (vm_compute; reflexivity).
  destruct (toy_frame bobs_connection) as [[outs n']|] eqn:E; [clear Hb|discriminate Hb].
  exists outs, n'. split; [reflexivity|].
  destruct (frame_replies (fun _ => EmptyString) (fun _ => Err EmptyString) (fun _ => Err EmptyString) (fun s => Ok s)
    0 toy_parse (fun _ => []) "b1" false "text" bobs_connection outs n' E) as (evs & r & H1 & _ & H2 & _).
  exists evs, r. split; [exact H1 | exact H2].
Defined.

(** Bob claims to be Alice and privileged in the body; his token says otherwise. *)
Lemma session_commands_isolated_witness : exists outs n', toy_frame bobs_connection = Some (outs, n') /\
  ipc (ctx n') = alice_kernel.
Proof.
  assert (bool_decide (is_Some (toy_frame bobs_connection)) = true) as Hb by (vm_compute; reflexivity).
  destruct (toy_frame bobs_connection) as [[outs n']|] eqn:E; [clear Hb|discriminate Hb].
  exists outs, n'. split; [reflexivity|].
  refine (proj1 (session_commands_isolated toy_mac [] (fun _ => EmptyString) toy_config toy_host toy_draw "7" (fun _ => EmptyString)
    (fun _ => Err EmptyString) (fun _ => Err EmptyString) (fun s => Ok s) 0 toy_parse (fun _ => []) "b1" false "text"
    bobs_connection outs n' delete_cmd bob OpSessionDelete "session_id" alice_session _ _ _ _ _ _ _ _ _ E));
    try reflexivity; try discriminate.
  exists 77. split; vm_compute; reflexivity.
Defined.

Definition cmd_of (d : AtpDomain.t) (o : string) (b : json) : ValidatedCmd := {|
  vc_cmd := {| msg_type := "cmd"; cmd_id := "1"; token := "c.s"; domain := d; op := o; body := b |};
  caller_identity := "bob"; caller_role := Role.User; caller_session_id := "b1" |}%string.
Abbreviation toy_dispatch := (dispatch (R := map_kernel) (H := unit) (fun _ => EmptyString) (fun _ => Err EmptyString)
  (fun _ => Err EmptyString) (fun s => Ok s) 0).

(** Bob spawns an agent as root. *)
Definition as_root : list (string * json) := [("name", JStr "x"); ("caller", JStr "root")]%string.
Lemma spawn_identity_witness : exists b r k, toy_dispatch (cmd_of AtpDomain.Proc "spawn" (JObj as_root)) (ctx bobs_connection)
    = Some (r, with_ipc (ctx bobs_connection) k) /\ str_param b "caller" "gateway" = "root"%string.
Proof.
  destruct (spawn_identity toy_mac [] (fun _ => EmptyString) toy_config toy_host toy_draw "7" (fun _ => EmptyString)
    (fun _ => Err EmptyString) (fun _ => Err EmptyString) (fun s => Ok s) 0 (cmd_of AtpDomain.Proc "spawn" (JObj as_root))
    (ctx bobs_connection) as_root eq_refl eq_refl eq_refl) as (b & E & Hc & _).
  exists b. unfold toy_router in E. destruct (h_spawn _ _ _ _ _ _ _) as [r k]. eexists _, k. split; [exact E | exact Hc].
Defined.

Lemma unserved_commands_witness : exists r c', toy_dispatch (cmd_of AtpDomain.Fs "read" (JObj [("path", JStr "/x")]%string))
    (ctx bobs_connection) = Some (r, c') /\ rp_ok r = false /\ ipc c' = alice_kernel.
Proof.
  assert (bool_decide (is_Some (toy_dispatch (cmd_of AtpDomain.Fs "read" (JObj [("path", JStr "/x")]%string)) (ctx bobs_connection))) = true)
    as Hb by (vm_compute; reflexivity).
  destruct (toy_dispatch (cmd_of AtpDomain.Fs "read" (JObj [("path", JStr "/x")]%string)) (ctx bobs_connection)) as [[r c']|] eqn:E;
    [clear Hb|discriminate Hb]. exists r, c'. split; [reflexivity|].
  exact (unserved_commands toy_mac [] (fun _ => EmptyString) toy_config toy_host toy_draw "7" (fun _ => EmptyString)
    (fun _ => Err EmptyString) (fun _ => Err EmptyString) (fun s => Ok s) 0 (cmd_of AtpDomain.Fs "read" (JObj [("path", JStr "/x")]%string)) _ r c' eq_refl E).
Defined.

End Toy.
