(* ===== verification/Workspace.v ===== *)
(** * The workspace service

    Models [services/workspace/]: the handlers of the workspace tools ([handlers.rs], [error.rs]), the client with
    which they ask the kernel for files, and the dispatch of the service's socket ([main.rs]).

    [call] is one exchange with the kernel's socket: [Err] when connecting, writing or reading fails.  Serde's
    derived conversion of parameters is the class [Params]; [now] is the text of the clock for a snapshot without a
    name.  The service itself keeps no state: every connection gets a fresh handler, and the caller is read from each
    request. *)

From S2P Require Import Prelude Types Token Channels ToolRegistry Vfs Process Signals Router Resources Services Text Store Sessions Invocations History Proc Lifecycle AgentsYaml KernelIpc Json.
Local Open Scope Z_scope.

(** ** Data *)

Inductive WorkspaceError : Type :=
| PathOutsideWorkspace (p : string) | ProjectNotFound (p : string) | FileNotFound (p : string)
| WsIo (e : string) | WsIpc (e : string) | InvalidRequest (e : string).
Definition workspace_error_to_string (e : WorkspaceError) : string :=
  match e with
  | PathOutsideWorkspace p => "path outside workspace: " +:+ p
  | ProjectNotFound p => "project not found: " +:+ p
  | FileNotFound p => "file not found: " +:+ p
  | WsIo e => "IO error: " +:+ e
  | WsIpc e => "IPC error: " +:+ e
  | InvalidRequest e => "invalid request: " +:+ e
  end.

Record FileEntry : Type := { fe_path : string; fe_name : string; is_dir : bool; fe_size : Z; fe_modified : option string }.
Record FileMetadata : Type := { fm_size : Z; fm_created : option string; fm_modified : option string }.
Record ListParams : Type := { lp_project : option string; lp_recursive : option bool }.
Record ReadParams : Type := { rp_path : string }.
Record WriteParams : Type := { wp_path : string; wp_content : string; wp_mode : string; wp_session_id : option string }.
Record DeleteParams : Type := { dp_path : string; dp_recursive : bool }.
Record CreateProjectParams : Type := { project_name : string; cp_description : option string; cp_template : option string }.
Record SnapshotParams : Type := { sp_project : string; sp_name : option string; sp_description : option string }.
Record SearchParams : Type := { sc_query : string; sc_project : option string; search_type : option string }.
Record SetDefaultParams : Type := { sd_project : string }.
Record SearchResult : Type := { sr_path : string; sr_line : option Z; sr_snippet : option string }.

Class Params : Type := {
  list_params : json -> result string ListParams; read_params : json -> result string ReadParams;
  write_params : json -> result string WriteParams; erase_params : json -> result string DeleteParams;
  create_params : json -> result string CreateProjectParams; snapshot_params : json -> result string SnapshotParams;
  search_params : json -> result string SearchParams; default_params : json -> result string SetDefaultParams }.

Definition extract_caller_user (params : json) : string :=
  default "anonymous"%string (((jget params "_caller" ≫= (fun c => jget c "user")) ≫= as_str)).
Definition workspace_root (user : string) : string := ("/users/" +:+ user +:+ "/workspace")%string.

(** [line.chars().take(n)] *)
Fixpoint chars_take (n keep : nat) (s : string) : string :=
  match s with
  | EmptyString => EmptyString
  | String c t =>
      match keep, n with
      | S k, _ => String c (chars_take n k t)
      | O, O => EmptyString
      | O, S n => String c (chars_take n (match utf8_step c t with Char m => m - 1 | _ => 0 end) t)
      end
  end.

(** ** The templates of a project *)

Definition quote : string := String "034" EmptyString.
Definition lines_text (l : list string) : string := str_join "" ((fun s => s +:+ nl)%string <$> l).
Definition python_files (name : string) (description : option string) : list (string * string) :=
  [("main.py", lines_text ["#!/usr/bin/env python3"; ""; "def main():"; "    pass"; "";
                           "if __name__ == " +:+ quote +:+ "__main__" +:+ quote +:+ ":"; "    main()"]);
   ("requirements.txt", "");
   ("README.md", "# " +:+ name +:+ nl +:+ nl +:+ default "" description)]%string.
Definition web_files : list (string * string) :=
  [("index.html", lines_text ["<!DOCTYPE html>"; "<html>"; "<head>"; "    <title>TODO</title>"; "</head>"; "<body>"; "    <h1>TODO</h1>"; "</body>"; "</html>"]);
   ("style.css", lines_text ["body { font-family: sans-serif; margin: 2rem; }"]);
   ("script.js", lines_text ["// TODO"])]%string.
Definition template_files (p : CreateProjectParams) : list (string * string) :=
  match cp_template p with
  | Some t => if String.eqb t "python" then python_files (project_name p) (cp_description p)
              else if String.eqb t "web" then web_files else []
  | None => []
  end.

(** ** The client of the kernel *)

Section Service.
Context {K : Type} (call : K -> JsonRpcRequest -> result string JsonRpcResponse * K).
Context `{!Params}.
Variable now : string.
Definition W (A : Type) : Type := K -> result WorkspaceError A * K.
Definition w_ret {A} (a : A) : W A := fun k => (Ok a, k).
Definition w_fail {A} (e : WorkspaceError) : W A := fun k => (Err e, k).
Definition w_bind {A B} (m : W A) (f : A -> W B) : W B := fun k =>
  let '(r, k) := m k in match r with Ok a => f a k | Err e => (Err e, k) end.
(** The result as a value. *)
Definition w_try {A} (m : W A) : W (result WorkspaceError A) := fun k => let '(r, k) := m k in (Ok r, k).
#[local] Instance W_bind : MBind W := fun A B f m => w_bind m f.

Definition fs_request (method : string) (params : json) : JsonRpcRequest :=
  {| rq_jsonrpc := "2.0"; rq_id := "1"; method := method; params := params |}.
(** A call whose transport or answer failed is an IPC error; otherwise the result, when there is one. *)
Definition fs_call (method : string) (params : json) : W (option json) := fun k =>
  match call k (fs_request method params) with
  | (Err e, k) => (Err (WsIpc e), k)
  | (Ok resp, k) => match rs_error resp with Some e => (Err (WsIpc (message e)), k) | None => (Ok (rs_result resp), k) end
  end.
Definition path_params (path : string) : json := JObj [("path", JStr path)]%string.
(** A vector of strings, nothing else. *)
Definition strings_only (j : json) : option (list string) := match j with JArr l => mapM as_str l | _ => None end.
Definition vfs_list (path : string) : W (list string) :=
  r ← fs_call "kernel/fs/list" (path_params path);
  w_ret (default [] ((r ≫= (fun v => jget v "entries")) ≫= strings_only)).
Definition vfs_read (path : string) : W string :=
  r ← fs_call "kernel/fs/read" (path_params path);
  w_ret (default EmptyString ((r ≫= (fun v => jget v "content")) ≫= as_str)).
Definition vfs_write (path content : string) : W Z :=
  r ← fs_call "kernel/fs/write" (JObj [("path", JStr path); ("content", JStr content)]%string);
  w_ret (default (Z.of_nat (String.length content)) ((r ≫= (fun v => jget v "bytes_written")) ≫= as_u64)).
Definition vfs_delete (path : string) : W bool :=
  r ← fs_call "kernel/fs/delete" (path_params path);
  w_ret (default false ((r ≫= (fun v => jget v "deleted")) ≫= as_bool)).

(** ** The handlers, for a caller *)

Variable user : string.
Notation root := (workspace_root user).

Definition project_path (project : option string) : string :=
  match project with Some p => (root +:+ "/" +:+ p)%string | None => root end.
(** An absolute path must start with the root, as text. *)
Definition target_path (path : string) : result WorkspaceError string :=
  if starts_with "/" path then if starts_with root path then Ok path else Err (PathOutsideWorkspace path)
  else Ok (root +:+ "/" +:+ path)%string.
Definition w_lift {A} (r : result WorkspaceError A) : W A := fun k => (r, k).
(** The names, none for an IPC error; other errors pass. *)
Definition names_or_none (r : result WorkspaceError (list string)) : W (list string) :=
  match r with Ok l => w_ret l | Err (WsIpc _) => w_ret [] | Err e => w_fail e end.
Definition entry_of (dir name : string) : FileEntry :=
  {| fe_path := dir +:+ "/" +:+ name; fe_name := name; is_dir := false; fe_size := 0; fe_modified := None |}.

Definition handle_list (p : ListParams) : W (list FileEntry) :=
  let dir := project_path (lp_project p) in
  r ← w_try (vfs_list dir); names ← names_or_none r; w_ret (entry_of dir <$> names).
Definition handle_read (p : ReadParams) : W (string * FileMetadata) :=
  path ← w_lift (target_path (rp_path p));
  r ← w_try (vfs_read path);
  match r with
  | Ok content => w_ret (content, {| fm_size := 0; fm_created := None; fm_modified := None |})
  | Err _ => w_fail (FileNotFound path)
  end.
Definition handle_info : W (string * list string * option string) :=
  r ← w_try (vfs_list root); names ← names_or_none r; w_ret (root, names, None).
Definition handle_write (p : WriteParams) : W (string * Z) :=
  path ← w_lift (target_path (wp_path p));
  before ← w_try (vfs_read path);
  _ ← match before with Ok c => w_ret (Some c) | Err (FileNotFound _) => w_ret None | Err e => w_fail e end;
  n ← vfs_write path (wp_content p);
  w_ret (path, n).
Definition handle_delete (p : DeleteParams) : W (string * bool) :=
  path ← w_lift (target_path (dp_path p)); d ← vfs_delete path; w_ret (path, d).
Fixpoint write_files (dir : string) (files : list (string * string)) : W (list string) :=
  match files with
  | [] => w_ret []
  | (n, c) :: fs => _ ← vfs_write (dir +:+ "/" +:+ n)%string c; ns ← write_files dir fs; w_ret (n :: ns)
  end.
Definition handle_create_project (p : CreateProjectParams) : W (string * list string) :=
  let dir := (root +:+ "/" +:+ project_name p)%string in
  fs ← write_files dir (template_files p); w_ret (dir, fs).
(** Files that cannot be read are passed over; one that cannot be written still counts. *)
Fixpoint copy_files (src dst : string) (files : list string) : W Z :=
  match files with
  | [] => w_ret 0
  | f :: fs =>
      r ← w_try (vfs_read (src +:+ "/" +:+ f)%string);
      match r with
      | Ok c => _ ← w_try (vfs_write (dst +:+ "/" +:+ f)%string c); n ← copy_files src dst fs; w_ret (1 + n)
      | Err _ => copy_files src dst fs
      end
  end.
Definition or_empty {A} (r : result WorkspaceError (list A)) : list A := match r with Ok l => l | Err _ => [] end.
Definition snapshot_dir (p : SnapshotParams) : string :=
  (root +:+ "/.snapshots/" +:+ sp_project p +:+ "/" +:+ default now (sp_name p))%string.
Definition handle_snapshot (p : SnapshotParams) : W (string * Z) :=
  let src := (root +:+ "/" +:+ sp_project p)%string in
  r ← w_try (vfs_list src); n ← copy_files src (snapshot_dir p) (or_empty r); w_ret (snapshot_dir p, n).
(** [i as u32 + 1]: a text has fewer than [2^32] lines. *)
Fixpoint match_lines (path query : string) (i : Z) (lines : list string) : list SearchResult :=
  match lines with
  | [] => []
  | l :: ls =>
      let rest := match_lines path query (i + 1) ls in
      if str_contains query l then {| sr_path := path; sr_line := Some (i + 1); sr_snippet := Some (chars_take 100 0 l) |} :: rest
      else rest
  end.
Fixpoint search_content (dir query : string) (files : list string) : W (list SearchResult) :=
  match files with
  | [] => w_ret []
  | f :: fs =>
      let path := (dir +:+ "/" +:+ f)%string in
      r ← w_try (vfs_read path);
      rest ← search_content dir query fs;
      w_ret (match r with Ok c => match_lines path query 0 (str_lines c) ++ rest | Err _ => rest end)
  end.
Definition handle_search (p : SearchParams) : W (list SearchResult) :=
  let dir := project_path (sc_project p) in
  let kind := default "name"%string (search_type p) in
  if String.eqb kind "name" then
    r ← w_try (vfs_list dir);
    w_ret ((fun f => {| sr_path := dir +:+ "/" +:+ f; sr_line := None; sr_snippet := None |})
             <$> base.filter (fun f => str_contains (sc_query p) f = true) (or_empty r))
  else if String.eqb kind "content" then r ← w_try (vfs_list dir); search_content dir (sc_query p) (or_empty r)
  else w_ret [].
Definition handle_set_default (p : SetDefaultParams) : W string :=
  _ ← w_try (vfs_write (root +:+ "/.default")%string (sd_project p)); w_ret (root +:+ "/" +:+ sd_project p)%string.

(** ** The socket *)

Definition metadata_json (m : FileMetadata) : json :=
  JObj [("size", JInt (fm_size m)); ("created", jopt JStr (fm_created m)); ("modified", jopt JStr (fm_modified m))]%string.
Definition entry_json (e : FileEntry) : json :=
  JObj [("path", JStr (fe_path e)); ("name", JStr (fe_name e)); ("is_dir", JBool (is_dir e)); ("size", JInt (fe_size e));
        ("modified", jopt JStr (fe_modified e))]%string.
Definition result_json (r : SearchResult) : json :=
  JObj [("path", JStr (sr_path r)); ("line", jopt JInt (sr_line r)); ("snippet", jopt JStr (sr_snippet r))]%string.
Definition answer {A} (id : string) (to : A -> json) (m : W A) (k : K) : JsonRpcResponse * K :=
  let '(r, k) := m k in
  match r with Ok a => (rpc_ok id (to a), k) | Err e => (rpc_err id (-32000) (workspace_error_to_string e) None, k) end.
Definition with_params {P} (id : string) (p : result string P) (k : K) (f : P -> JsonRpcResponse * K) : JsonRpcResponse * K :=
  match p with Ok p => f p | Err e => (rpc_err id (-32602) ("invalid params: " +:+ e)%string None, k) end.
End Service.

Definition handle_request {K} (call : K -> JsonRpcRequest -> result string JsonRpcResponse * K) `{!Params} (now : string)
    (rq : JsonRpcRequest) (k : K) : JsonRpcResponse * K :=
  let id := rq_id rq in
  let ps := params rq in
  let user := extract_caller_user ps in
  let m := method rq in
  if String.eqb m "workspace.list" then with_params id (list_params ps) k (fun p =>
    answer id (fun l => JObj [("entries", JArr (entry_json <$> l))]%string) (handle_list call user p) k)
  else if String.eqb m "workspace.read" then with_params id (read_params ps) k (fun p =>
    answer id (fun r => JObj [("content", JStr r.1); ("metadata", metadata_json r.2)]%string) (handle_read call user p) k)
  else if String.eqb m "workspace.info" then
    answer id (fun r => JObj [("root", JStr r.1.1); ("projects", jstrs r.1.2); ("default_project", jopt JStr r.2)]%string) (handle_info call user) k
  else if String.eqb m "workspace.write" then with_params id (write_params ps) k (fun p =>
    answer id (fun r => JObj [("path", JStr r.1); ("bytes_written", JInt r.2)]%string) (handle_write call user p) k)
  else if String.eqb m "workspace.delete" then with_params id (erase_params ps) k (fun p =>
    answer id (fun r => JObj [("path", JStr r.1); ("deleted", JBool r.2)]%string) (handle_delete call user p) k)
  else if String.eqb m "workspace.create-project" then with_params id (create_params ps) k (fun p =>
    answer id (fun r => JObj [("path", JStr r.1); ("files", jstrs r.2)]%string) (handle_create_project call user p) k)
  else if String.eqb m "workspace.snapshot" then with_params id (snapshot_params ps) k (fun p =>
    answer id (fun r => JObj [("path", JStr r.1); ("files", JInt r.2)]%string) (handle_snapshot call now user p) k)
  else if String.eqb m "workspace.search" then with_params id (search_params ps) k (fun p =>
    answer id (fun l => JObj [("results", JArr (result_json <$> l))]%string) (handle_search call user p) k)
  else if String.eqb m "workspace.set-default" then with_params id (default_params ps) k (fun p =>
    answer id (fun d => JObj [("project", JStr d)]%string) (handle_set_default call user p) k)
  else (rpc_err id (-32601) ("method not found: " +:+ m)%string None, k).

(** ** What is sent to the kernel *)

Section Sent.
Context {K : Type} (call : K -> JsonRpcRequest -> result string JsonRpcResponse * K) `{!Params}.
Variable P : K -> Prop.
Definition keeps {A} (m : W (K := K) A) : Prop := forall k, P k -> P (m k).2.

Lemma keeps_ret {A} (r : result WorkspaceError A) : keeps (fun k => (r, k)).
Proof. by intros k. Qed.
Lemma keeps_w_ret {A} (a : A) : keeps (w_ret a).
Proof. apply keeps_ret. Qed.
Lemma keeps_w_fail {A} e : keeps (A := A) (w_fail e).
Proof. apply keeps_ret. Qed.
Lemma keeps_bind {A B} (m : W A) (f : A -> W B) : keeps m -> (forall a, keeps (f a)) -> keeps (w_bind m f).
Proof. intros Hm Hf k Pk. unfold w_bind. specialize (Hm k Pk). destruct (m k) as [[a|e] k1]; [by apply Hf|done]. Qed.
Lemma keeps_try {A} (m : W A) : keeps m -> keeps (w_try m).
Proof. intros Hm k Pk. unfold w_try. specialize (Hm k Pk). by destruct (m k). Qed.

Variable user : string.
Notation root := (workspace_root user).
(** What is kept by every file call with a path that starts with the root. *)
Hypothesis Inside : forall k m ps path, m ∈ ["kernel/fs/list"; "kernel/fs/read"; "kernel/fs/write"; "kernel/fs/delete"]%string ->
  jget ps "path" = Some (JStr path) -> starts_with root path = true -> P k -> P (call k (fs_request m ps)).2.

Lemma root_extends s : starts_with root (root +:+ s) = true.
Proof. apply starts_with_app. Qed.
Lemma keeps_call m ps path : m ∈ ["kernel/fs/list"; "kernel/fs/read"; "kernel/fs/write"; "kernel/fs/delete"]%string ->
  jget ps "path" = Some (JStr path) -> starts_with root path = true -> keeps (fs_call call m ps).
Proof.
  intros Hm Hp Hr k Pk. unfold fs_call. pose proof (Inside k m ps path Hm Hp Hr Pk) as Pk'.
  destruct (call k (fs_request m ps)) as [[resp|e] k1]; [|done]. by case_match.
Qed.
Definition sent path : Prop := starts_with root path = true.
Lemma sent_below dir s : sent dir -> sent (dir +:+ s).
Proof. intros [r ->]%starts_with_spec. apply starts_with_spec. exists (r +:+ s)%string. by rewrite str_app_assoc. Qed.
Lemma sent_root s : sent (root +:+ s).
Proof. apply root_extends. Qed.
Lemma sent_project p : sent (project_path user p).
Proof. destruct p; cbn; [apply sent_root|]. rewrite <- (str_app_nil_r root) at 1. apply sent_root. Qed.
Lemma keeps_list path : sent path -> keeps (vfs_list call path).
Proof. intros Hs. apply keeps_bind; [|intros; apply keeps_ret]. apply (keeps_call _ _ path); [set_solver|done|done]. Qed.
Lemma keeps_read path : sent path -> keeps (vfs_read call path).
Proof. intros Hs. apply keeps_bind; [|intros; apply keeps_ret]. apply (keeps_call _ _ path); [set_solver|done|done]. Qed.
Lemma keeps_write path c : sent path -> keeps (vfs_write call path c).
Proof. intros Hs. apply keeps_bind; [|intros; apply keeps_ret]. apply (keeps_call _ _ path); [set_solver|done|done]. Qed.
Lemma keeps_delete path : sent path -> keeps (vfs_delete call path).
Proof. intros Hs. apply keeps_bind; [|intros; apply keeps_ret]. apply (keeps_call _ _ path); [set_solver|done|done]. Qed.
Lemma keeps_target {A} path (f : string -> W A) : (forall p, sent p -> keeps (f p)) -> keeps (w_bind (w_lift (target_path user path)) f).
Proof.
  intros Hf k Pk. unfold w_bind, w_lift, target_path. destruct (starts_with "/" path); [destruct (starts_with root path) eqn:E|]; [|done|];
    apply Hf; try done; apply sent_root.
Qed.
Lemma keeps_names r : keeps (names_or_none r).
Proof. destruct r as [|[]]; apply keeps_ret. Qed.
#[local] Hint Resolve keeps_ret keeps_w_ret keeps_w_fail keeps_list keeps_read keeps_write keeps_delete keeps_names sent_below sent_root sent_project : core.

Ltac keep := repeat first [progress intros | solve [auto 6] | apply keeps_bind | apply keeps_try | case_match].
#[local] Opaque vfs_list vfs_read vfs_write vfs_delete.

Lemma keeps_write_files dir fs : sent dir -> keeps (write_files call dir fs).
Proof. intros Hd. induction fs as [|[n c] fs IH]; cbn [write_files]; keep. Qed.
Lemma keeps_copy src dst fs : sent src -> sent dst -> keeps (copy_files call src dst fs).
Proof. intros Hs Hd. induction fs as [|f fs IH]; cbn [copy_files]; keep. Qed.
Lemma keeps_search dir q fs : sent dir -> keeps (search_content call dir q fs).
Proof. intros Hd. induction fs as [|f fs IH]; cbn [search_content]; keep. Qed.
Lemma keeps_handle_list p : keeps (handle_list call user p).
Proof. unfold handle_list. keep. Qed.
Lemma keeps_handle_read p : keeps (handle_read call user p).
Proof. unfold handle_read. apply keeps_target. keep. Qed.
Lemma keeps_handle_info : keeps (handle_info call user).
Proof. unfold handle_info. keep. apply keeps_list. apply (sent_project None). Qed.
Lemma keeps_handle_write p : keeps (handle_write call user p).
Proof. unfold handle_write. apply keeps_target. keep. Qed.
Lemma keeps_handle_delete p : keeps (handle_delete call user p).
Proof. unfold handle_delete. apply keeps_target. keep. Qed.
Lemma keeps_handle_create_project p : keeps (handle_create_project call user p).
Proof. unfold handle_create_project. apply keeps_bind; [apply keeps_write_files; auto | keep]. Qed.
Lemma keeps_handle_snapshot now p : keeps (handle_snapshot call now user p).
Proof. unfold handle_snapshot. keep. apply keeps_copy; unfold snapshot_dir; auto. Qed.
Lemma keeps_handle_search p : keeps (handle_search call user p).
Proof. unfold handle_search. keep. apply keeps_search. auto. Qed.
Lemma keeps_handle_set_default p : keeps (handle_set_default call user p).
Proof. unfold handle_set_default. keep. Qed.
Lemma keeps_answer {A} id (to : A -> json) m k : keeps m -> P k -> P (answer id to m k).2.
Proof. intros Hm Pk. unfold answer. specialize (Hm k Pk). by destruct (m k) as [[a|e] k1]. Qed.
End Sent.

(** ** A write needs a file that can be read *)

Section Write.
Context {K : Type} (call : K -> JsonRpcRequest -> result string JsonRpcResponse * K).

(** The only errors of the client are IPC errors: an error the kernel answers, such as a missing file's, is one. *)
Lemma fs_call_error m ps k e k' : fs_call call m ps k = (Err e, k') -> exists s, e = WsIpc s.
Proof. unfold fs_call. intros E. repeat (case_match; simplify_eq); eauto. Qed.
Lemma vfs_read_error path k e k' : vfs_read call path k = (Err e, k') -> exists s, e = WsIpc s.
Proof.
  unfold vfs_read, mbind, W_bind, w_bind. destruct (fs_call call _ _ k) as [[o|e1] k1] eqn:E; [done|].
  intros ?; simplify_eq. by eapply fs_call_error.
Qed.
(** So the branch of [handle_write] for a file that does not exist yet is never taken, and such a file is not
    written. *)
Lemma write_needs_read user p path k e k' :
  target_path user (wp_path p) = Ok path -> vfs_read call path k = (Err e, k') -> handle_write call user p k = (Err e, k').
Proof.
  intros T R. destruct (vfs_read_error _ _ _ _ R) as [s ->].
  unfold handle_write, mbind, W_bind, w_bind, w_lift, w_try. by rewrite T, R.
Qed.
End Write.

(** ** The calls stay below the caller's root *)

Section Confined.
Context {K : Type} (call : K -> JsonRpcRequest -> result string JsonRpcResponse * K) `{!Params}.
Variables (now : string) (P : K -> Prop).

Lemma request_keeps (rq : JsonRpcRequest) (k : K) :
  (forall k m ps path, m ∈ ["kernel/fs/list"; "kernel/fs/read"; "kernel/fs/write"; "kernel/fs/delete"]%string ->
     jget ps "path" = Some (JStr path) -> starts_with (workspace_root (extract_caller_user (params rq))) path = true ->
     P k -> P (call k (fs_request m ps)).2) ->
  P k -> P (handle_request call now rq k).2.
Proof.
  set (user := extract_caller_user (params rq)). intros Inside Pk. unfold handle_request, with_params. fold user.
  repeat case_match; try done; (apply keeps_answer; [|done]); by auto using keeps_handle_list, keeps_handle_read, keeps_handle_info,
    keeps_handle_write, keeps_handle_delete, keeps_handle_create_project, keeps_handle_snapshot, keeps_handle_search, keeps_handle_set_default.
Qed.

(** C20: Whatever a request to the workspace service asks, every file the service names to the kernel has a path that
    begins with the workspace of the caller in the request: any property of the kernel's side that such calls keep is
    kept by the request.  The converse is as loose as the comparison: a path is accepted as soon as the text of the
    root begins it, a sibling directory of the workspace or a path with parent steps included. *)
Theorem workspace_confined (rq : JsonRpcRequest) (k : K) :
  let root := workspace_root (extract_caller_user (params rq)) in
  (forall k m ps path, m ∈ ["kernel/fs/list"; "kernel/fs/read"; "kernel/fs/write"; "kernel/fs/delete"]%string ->
     jget ps "path" = Some (JStr path) -> starts_with root path = true -> P k -> P (call k (fs_request m ps)).2) ->
  P k ->
  P (handle_request call now rq k).2 /\
  forall s, target_path (extract_caller_user (params rq)) (root +:+ s) = Ok (root +:+ s)%string.
Proof.
  cbn zeta. intros Inside Pk. set (user := extract_caller_user (params rq)) in *. split.
  - by apply request_keeps.
  - intros s. unfold target_path. rewrite (starts_with_app (workspace_root user) s).
    by replace (starts_with "/" (workspace_root user +:+ s)) with true by reflexivity.
Qed.
End Confined.

(** ** On the kernel's socket *)

Section OnTheKernel.
Context {SS IS C F Db D : Type} `{!SessionStoreI SS, !InvocationStoreI IS, !Mpsc Signal C, !UuidText}.
Context `{!FileOps F, !YamlText, !Redb Db, !Serde MessageRecord, !Serde PartRecord, !Disk D, !Params}.
Variable hmac : string -> string -> string.
Variable syscalls : list CapabilityResolver.Syscall.
Variable yaml_of_names : list string -> string.
Variables (cf : Config) (h : Host) (dr : Draw) (now : string).
Notation kernel := (Kernel (SS := SS) (IS := IS) (C := C) (F := F) (Db := Db) (D := D)).

(** One exchange with the kernel of [KernelIpc]. *)
Definition kernel_call (k : kernel) (rq : JsonRpcRequest) : result string JsonRpcResponse * kernel :=
  match KernelIpc.handle_message hmac syscalls yaml_of_names cf h dr (Request rq) k with
  | Some (Some r, k) => (Ok r, k)
  | _ => (Err "no answer"%string, k)
  end.

Lemma unknown_fs m ps k : m ∈ ["kernel/fs/list"; "kernel/fs/read"; "kernel/fs/write"; "kernel/fs/delete"]%string ->
  fs_call kernel_call m ps k = (Err (WsIpc ("unknown kernel method: " +:+ m)), k).
Proof.
  unfold fs_call, kernel_call, handle_message, dispatch_request.
  intros [->|[->|[->|[->|[]%not_elem_of_nil]%elem_of_cons]%elem_of_cons]%elem_of_cons]%elem_of_cons; reflexivity.
Qed.
Lemma no_list path k : vfs_list kernel_call path k = (Err (WsIpc "unknown kernel method: kernel/fs/list"), k).
Proof. unfold vfs_list, mbind, W_bind, w_bind. by rewrite unknown_fs by set_solver. Qed.
Lemma no_read path k : vfs_read kernel_call path k = (Err (WsIpc "unknown kernel method: kernel/fs/read"), k).
Proof. unfold vfs_read, mbind, W_bind, w_bind. by rewrite unknown_fs by set_solver. Qed.
Lemma no_write path c k : vfs_write kernel_call path c k = (Err (WsIpc "unknown kernel method: kernel/fs/write"), k).
Proof. unfold vfs_write, mbind, W_bind, w_bind. by rewrite unknown_fs by set_solver. Qed.
Lemma no_delete path k : vfs_delete kernel_call path k = (Err (WsIpc "unknown kernel method: kernel/fs/delete"), k).
Proof. unfold vfs_delete, mbind, W_bind, w_bind. by rewrite unknown_fs by set_solver. Qed.
Ltac through_client := unfold handle_list, handle_read, handle_write, handle_delete, handle_snapshot, handle_set_default, mbind, W_bind, w_bind, w_lift, w_try, w_ret, w_fail;
  repeat first [rewrite no_list | rewrite no_read | rewrite no_write | rewrite no_delete]; cbn.

Lemma kernel_keeps k0 k m ps path : m ∈ ["kernel/fs/list"; "kernel/fs/read"; "kernel/fs/write"; "kernel/fs/delete"]%string ->
  jget ps "path" = Some (JStr path) -> k = k0 -> (kernel_call k (fs_request m ps)).2 = k0.
Proof.
  intros Hm _ ->. pose proof (unknown_fs m ps k0 Hm) as E. unfold fs_call in E.
  destruct (kernel_call k0 (fs_request m ps)) as [[resp|e] k1]; [destruct (rs_error resp)|]; by simplify_eq.
Qed.

(** On the kernel's own socket the workspace service reaches no file: its client asks for [kernel/fs/...], which
    the kernel does not know (it serves [fs/...]).  Every request leaves the kernel as it was; reading, writing and
    deleting always fail, a listing that is answered is empty, a snapshot copies no file, and setting the default
    project reports success although nothing was stored. *)
Theorem workspace_reaches_no_file (rq : JsonRpcRequest) (k : kernel) :
  let user := extract_caller_user (params rq) in
  let '(r, k') := handle_request kernel_call now rq k in
  k' = k /\
  (method rq ∈ ["workspace.read"; "workspace.write"; "workspace.delete"]%string -> is_Some (rs_error r)) /\
  (method rq = "workspace.list"%string -> is_Some (rs_error r) \/ r = rpc_ok (rq_id rq) (JObj [("entries", JArr [])]%string)) /\
  (forall p, method rq = "workspace.snapshot"%string -> snapshot_params (params rq) = Ok p ->
     r = rpc_ok (rq_id rq) (JObj [("path", JStr (snapshot_dir now user p)); ("files", JInt 0)]%string)) /\
  (forall p, method rq = "workspace.set-default"%string -> default_params (params rq) = Ok p ->
     r = rpc_ok (rq_id rq) (JObj [("project", JStr (workspace_root user +:+ "/" +:+ sd_project p))]%string)).
Proof.
  intros user. destruct (handle_request kernel_call now rq k) as [r k'] eqn:E. split.
  { change k' with (r, k').2. rewrite <- E. apply request_keeps; [|done].
    intros k1 m ps path Hm Hp _. by apply (kernel_keeps k k1 m ps path). }
  unfold handle_request in E. fold user in E. unfold with_params, answer in E. split; [|split; [|split]].
  - intros [Em|[Em|[Em|[]%not_elem_of_nil]%elem_of_cons]%elem_of_cons]%elem_of_cons; rewrite Em in E; cbn in E;
      (match type of E with match ?x with _ => _ end = _ => destruct x as [p|e] end; [|by simplify_eq/=; eexists]);
      revert E; through_client; (destruct (target_path user _); through_client; intros; simplify_eq/=; by eexists).
  - intros Em. rewrite Em in E. cbn in E. destruct (list_params (params rq)); [|left; by simplify_eq/=; eexists].
    right. revert E. through_client. by intros; simplify_eq.
  - intros p Em Ep. rewrite Em in E. cbn in E. rewrite Ep in E. revert E. through_client. by intros; simplify_eq.
  - intros p Em Ep. rewrite Em in E. cbn in E. rewrite Ep in E. revert E. through_client. by intros; simplify_eq.
Qed.
End OnTheKernel.

(** ** The service of one user *)

Module Toy.
Import Mem ToyUuid Invocations.Toy QueueMpsc Proc.Toy Lifecycle.Running KernelIpc.Toy.
#[local] Existing Instances KernelIpc.Toy.no_files KernelIpc.Toy.no_yaml KernelIpc.Toy.no_messages KernelIpc.Toy.no_parts.

(** Parameters read field by field; a missing one is an error. *)
Definition field (j : json) (k : string) : result string string :=
  match jget j k ≫= as_str with Some s => Ok s | None => Err ("missing field " +:+ k)%string end.
Definition rmap {A B} (f : A -> B) (r : result string A) : result string B := match r with Ok a => Ok (f a) | Err e => Err e end.
#[local] Instance toy_params : Params := {|
  list_params j := Ok {| lp_project := jget j "project" ≫= as_str; lp_recursive := None |};
  read_params j := rmap Build_ReadParams (field j "path");
  write_params j := match field j "path", field j "content" with
    | Ok p, Ok c => Ok {| wp_path := p; wp_content := c; wp_mode := ""; wp_session_id := None |} | Err e, _ | _, Err e => Err e end;
  erase_params j := rmap (fun p => {| dp_path := p; dp_recursive := false |}) (field j "path");
  create_params j := rmap (fun n => {| project_name := n; cp_description := None; cp_template := jget j "template" ≫= as_str |}) (field j "project_name");
  snapshot_params j := rmap (fun n => {| sp_project := n; sp_name := jget j "name" ≫= as_str; sp_description := None |}) (field j "project");
  search_params j := rmap (fun q => {| sc_query := q; sc_project := None; search_type := jget j "search_type" ≫= as_str |}) (field j "query");
  default_params j := rmap Build_SetDefaultParams (field j "project") |}.
Definition ask (m : string) (fields : list (string * string)) : JsonRpcRequest :=
  {| rq_jsonrpc := "2.0"; rq_id := "9"; method := m;
     params := JObj (map (fun x => (x.1, JStr x.2)) fields ++ [("_caller"%string, JObj [("user"%string, JStr "alice")])]) |}.
(** A kernel that notes the path of every call and answers nothing in particular. *)
Definition noting (log : list string) (rq : JsonRpcRequest) : result string JsonRpcResponse * list string :=
  (Ok (rpc_ok (rq_id rq) JNull), default EmptyString (jget (params rq) "path" ≫= as_str) :: log).

Definition write_request : JsonRpcRequest := ask "workspace.write" [("path", "notes.txt"); ("content", "hi")]%string.
Lemma workspace_confined_witness :
  Forall (fun p => starts_with "/users/alice/workspace" p = true) (handle_request noting "now" write_request []).2 /\
  (handle_request noting "now" write_request []).2 = ["/users/alice/workspace/notes.txt"; "/users/alice/workspace/notes.txt"]%string.
Proof.
  split; [|vm_compute; reflexivity].
  apply (workspace_confined noting "now" (Forall (fun p => starts_with "/users/alice/workspace" p = true)) write_request []).
  - intros k m ps path _ Hp Hs Hk. cbn. rewrite Hp. by constructor.
  - constructor.
Defined.
(** A path outside is refused; a sibling directory is not. *)
Example outside_refused :
  (message <$> rs_error (handle_request noting "now" (ask "workspace.read" [("path", "/etc/passwd")]%string) []).1,
   (handle_request noting "now" (ask "workspace.read" [("path", "/users/alice/workspace-old/x")]%string) []).2)
  = (Some "path outside workspace: /etc/passwd", ["/users/alice/workspace-old/x"])%string.
Proof. vm_compute. reflexivity. Qed.

Lemma workspace_reaches_no_file_witness : exists e,
  let '(r, k') := handle_request (kernel_call toy_mac [] (fun _ => EmptyString) toy_config toy_host toy_draw) "now" write_request idle_kernel in
  rs_error r = Some e /\ k' = idle_kernel.
Proof.
  pose proof (workspace_reaches_no_file toy_mac [] (fun _ => EmptyString) toy_config toy_host toy_draw "now" write_request idle_kernel) as T.
  cbn zeta in T. destruct (handle_request _ _ _ _) as [r k']. destruct T as (T1 & T2 & _).
  destruct T2 as [e He]; [right; left|]. by exists e.
Defined.
End Toy.
