(* ===== verification/McpBridge.v ===== *)
(** * The MCP bridge

    Models [mcp_bridge/] ([services/mcp-bridge/] is a copy of it): the client of an MCP server ([client.rs]) over the
    standard streams of a process, the connection with its cached tools and its state ([connection.rs]), the
    configuration ([config.rs]), the meta-tools ([meta_tools.rs]), and the runner that registers tools, routes calls,
    watches the servers and shuts down ([runner.rs]); [bridge.rs] apart, which nothing uses, with its names.

    [Process] is the child process: what writing to it and reading a line from it do; a read that never returns is
    [None].  [spawn] starts one.  [patience] bounds the messages read in one wait and the pages of one listing: [None] is
    a call that has no answer by then.  [kcall] is one exchange with the socket the bridge was given.  The HTTP
    transport is not modelled: nothing constructs it. *)

From S2P Require Import Prelude Types Router Text Store Ipc Adapters Json.
Local Open Scope Z_scope.

(** ** [client.rs] *)

Record McpToolInfo : Type := { ti_name : string; ti_description : string; ti_input_schema : json }.
Inductive McpClientError : Type := McpIo (s : string) | McpProtocolErr (s : string) | McpTimeout | McpServerGone.
Definition mcp_error_to_string (e : McpClientError) : string :=
  match e with
  | McpIo s => "MCP I/O error: " +:+ s
  | McpProtocolErr s => "MCP protocol error: " +:+ s
  | McpTimeout => "MCP request timed out"
  | McpServerGone => "MCP server process has gone away"
  end.
Definition avix_of_mcp (e : McpClientError) : AvixError :=
  match e with
  | McpIo s => McpUnreachable s
  | McpProtocolErr s => McpProtocol s
  | McpTimeout => McpUnreachable "request timed out"
  | McpServerGone => McpUnreachable "server process gone"
  end.

(** [None]: nothing arrives. *)
Class McpTransportIO (T : Type) : Type := {
  io_send : T -> json -> result McpClientError unit * T;
  io_recv : T -> option (result McpClientError json * T) }.

Definition line_end : string := String "010" EmptyString.
(** The pipes of a child.  A line comes with its line end; the empty text is the end of the stream. *)
Class Process (T : Type) : Type := {
  write_all : T -> string -> result string unit * T;
  flush : T -> result string unit * T;
  read_line : T -> option (result string string * T) }.
Section Stdio.
Context {T : Type} `{!Process T, !JsonStr}.
Definition stdio_send (t : T) (msg : json) : result McpClientError unit * T :=
  match write_all t (json_str msg +:+ line_end)%string with
  | (Err e, t) => (Err (McpIo e), t)
  | (Ok _, t) => let '(r, t) := flush t in (map_err McpIo r, t)
  end.
Definition stdio_recv (t : T) : option (result McpClientError json * T) :=
  '(r, t) ← read_line t;
  Some (match r with
        | Err e => Err (McpIo e)
        | Ok line => if String.eqb line "" then Err McpServerGone else map_err McpProtocolErr (json_parse (trim line))
        end, t).
#[export] Instance stdio_transport : McpTransportIO T := { io_send := stdio_send; io_recv := stdio_recv }.
End Stdio.

(** The object of a schema that is absent. *)
Definition empty_schema : json := JObj [("type", JStr "object"); ("properties", JObj [])]%string.
Definition tool_of_value (tool : json) : result McpClientError McpToolInfo :=
  name ← ok_or (McpProtocolErr "tool missing 'name' field") (jget tool "name" ≫= as_str);
  Ok {| ti_name := name; ti_description := default EmptyString (jget tool "description" ≫= as_str);
        ti_input_schema := default empty_schema (jget tool "inputSchema") |}.
Definition rpc_request (id : Z) (method : string) (params : json) : json :=
  JObj [("jsonrpc", JStr "2.0"); ("id", JInt id); ("method", JStr method); ("params", params)]%string.
Definition initialize_params : json :=
  JObj [("protocolVersion", JStr "2024-11-05"); ("capabilities", JObj []);
        ("clientInfo", JObj [("name", JStr "avix-mcp-bridge"); ("version", JStr "0.1.0")])]%string.
Definition initialized : json := JObj [("jsonrpc", JStr "2.0"); ("method", JStr "notifications/initialized")]%string.
Definition cursor_params (cursor : option string) : json :=
  match cursor with None => JObj [] | Some c => JObj [("cursor", JStr c)]%string end.

(** What a message is to a caller that waits for the answer [id]: to be kept for later, or its outcome. *)
Definition outcome (id : Z) (msg : json) : option (result McpClientError json) :=
  if decide (jget msg "id" = None) then None
  else match jget msg "error" with
       | Some e => Some (Err (McpProtocolErr (default "unknown error"%string (jget e "message" ≫= as_str))))
       | None =>
           if decide (jget msg "id" ≫= as_u64 = Some id)
           then Some (ok_or (McpProtocolErr "response missing 'result'") (jget msg "result"))
           else None
       end.

Section Bridge.
Context {T : Type} `{!McpTransportIO T}.
Variable patience : nat.

Record McpClient : Type := { transport : T; next_id : Z; notification_buffer : list json }.
Definition client_new (t : T) : McpClient := {| transport := t; next_id := 1; notification_buffer := [] |}.
Definition set_transport (c : McpClient) (t : T) : McpClient :=
  {| transport := t; next_id := next_id c; notification_buffer := notification_buffer c |}.
Definition buffered (c : McpClient) (m : json) : McpClient :=
  {| transport := transport c; next_id := next_id c; notification_buffer := notification_buffer c ++ [m] |}.
(** The number for the next request; a [u64] that wraps. *)
Definition take_id (c : McpClient) : Z * McpClient :=
  (next_id c, {| transport := transport c; next_id := (next_id c + 1) mod (u64_max + 1); notification_buffer := notification_buffer c |}).

Abbreviation reply A := (option (result McpClientError A * McpClient)).
Fixpoint rpc_wait (n : nat) (id : Z) (c : McpClient) : reply json :=
  match n with
  | O => None
  | S n =>
      '(r, t) ← io_recv (transport c);
      let c := set_transport c t in
      match r with
      | Err e => Some (Err e, c)
      | Ok msg => match outcome id msg with Some r => Some (r, c) | None => rpc_wait n id (buffered c msg) end
      end
  end.
Definition rpc_raw (id : Z) (req : json) (c : McpClient) : reply json :=
  let '(r, t) := io_send (transport c) req in
  let c := set_transport c t in
  match r with Err e => Some (Err e, c) | Ok _ => rpc_wait patience id c end.
Definition initialize (c : McpClient) : reply unit :=
  let '(id, c) := take_id c in
  '(r, c) ← rpc_raw id (rpc_request id "initialize" initialize_params) c;
  match r with
  | Err e => Some (Err e, c)
  | Ok _ => let '(r, t) := io_send (transport c) initialized in Some (r, set_transport c t)
  end.
Definition page_of (v : json) : result McpClientError (list McpToolInfo) :=
  l ← ok_or (McpProtocolErr "tools/list: missing 'tools' array") (jget v "tools" ≫= as_array); mapM tool_of_value l.
Fixpoint list_pages (n : nat) (cursor : option string) (all : list McpToolInfo) (c : McpClient) : reply (list McpToolInfo) :=
  match n with
  | O => None
  | S n =>
      let '(id, c) := take_id c in
      '(r, c) ← rpc_raw id (rpc_request id "tools/list" (cursor_params cursor)) c;
      match r with
      | Err e => Some (Err e, c)
      | Ok v =>
          match page_of v with
          | Err e => Some (Err e, c)
          | Ok tools =>
              match jget v "nextCursor" ≫= as_str with
              | None => Some (Ok (all ++ tools), c)
              | Some cur => list_pages n (Some cur) (all ++ tools) c
              end
          end
      end
  end.
Definition list_tools (c : McpClient) : reply (list McpToolInfo) := list_pages patience None [] c.
Definition call_tool (name : string) (arguments : json) (c : McpClient) : reply json :=
  let '(id, c) := take_id c in
  rpc_raw id (rpc_request id "tools/call" (JObj [("name", JStr name); ("arguments", arguments)]%string)) c.

(** ** [config.rs] *)

Inductive McpTransport : Type := Stdio | Http (url : string).
Record McpServerConfig : Type := {
  command : string; args : list string; env : gmap string string; mount : option string; mc_transport : McpTransport;
  health_check_interval_secs : Z }.
Record McpConfig : Type := { mcp_servers : gmap string McpServerConfig }.
Definition mcp_empty : McpConfig := {| mcp_servers := ∅ |}.
(** serde gives the text a meaning; [read] is [std::fs::read_to_string]. *)
Definition mcp_load (of_text : string -> result string McpConfig) (read : string -> result string string) (path : string)
    : result AvixError McpConfig :=
  t ← map_err (fun e => NotFound ("cannot read " +:+ path +:+ ": " +:+ e)%string) (read path);
  map_err (fun e => ConfigParse ("mcp.json parse error: " +:+ e)%string) (of_text t).
Definition tool_namespace (cf : McpServerConfig) (server_name : string) : string :=
  match mount cf with
  | None => server_name +:+ "/"
  | Some m =>
      let stripped := default (trim_start_matches "/" m) (strip_prefix "/tools/" m) in
      if ends_with_slash stripped then stripped else stripped +:+ "/"
  end.

(** ** [connection.rs] *)

Inductive ConnectionState : Type := Connected (client : McpClient) | Degraded (since : Z) | Disconnected.
Record McpServerConnection : Type := {
  server_name : string; namespace : string; config : McpServerConfig; tools : list McpToolInfo; state : ConnectionState }.
Definition set_state (c : McpServerConnection) (s : ConnectionState) : McpServerConnection :=
  {| server_name := server_name c; namespace := namespace c; config := config c; tools := tools c; state := s |}.
Definition set_tools (c : McpServerConnection) (l : list McpToolInfo) : McpServerConnection :=
  {| server_name := server_name c; namespace := namespace c; config := config c; tools := l; state := state c |}.

Context {W : Type} (spawn : W -> McpServerConfig -> result McpClientError T * W).
Definition connect_client (cf : McpServerConfig) (w : W) : option (result McpClientError McpClient * W) :=
  let '(r, w) := spawn w cf in
  match r with
  | Err e => Some (Err e, w)
  | Ok t => '(r, c) ← initialize (client_new t); Some (match r with Ok _ => Ok c | Err e => Err e end, w)
  end.
Definition connect (name : string) (cf : McpServerConfig) (w : W) : option (result McpClientError McpServerConnection * W) :=
  '(r, w) ← connect_client cf w;
  Some (match r with
        | Ok c => Ok {| server_name := name; namespace := tool_namespace cf name; config := cf; tools := []; state := Connected c |}
        | Err e => Err e
        end, w).
(** [now]: the instant read when the attempt fails. *)
Definition discover_tools (now : Z) (conn : McpServerConnection) : option (result McpClientError (list McpToolInfo) * McpServerConnection) :=
  match state conn with
  | Connected c =>
      '(r, c) ← list_tools c;
      Some (match r with
            | Ok l => (Ok l, set_tools (set_state conn (Connected c)) l)
            | Err e => (Err e, set_state conn (Degraded now))
            end)
  | _ => Some (Err McpServerGone, conn)
  end.
Definition forward_call (now : Z) (name : string) (params : json) (conn : McpServerConnection)
    : option (result McpClientError json * McpServerConnection) :=
  match strip_prefix (namespace conn) name with
  | None => Some (Err (McpProtocolErr ("tool '" +:+ name +:+ "' does not belong to namespace '" +:+ namespace conn +:+ "'")), conn)
  | Some raw =>
      match state conn with
      | Connected c =>
          '(r, c) ← call_tool raw params c;
          Some (r, set_state conn (match r with Ok _ => Connected c | Err _ => Degraded now end))
      | _ => Some (Err McpServerGone, conn)
      end
  end.
Definition reconnect (conn : McpServerConnection) (w : W) : option (result McpClientError unit * McpServerConnection * W) :=
  '(r, w) ← connect_client (config conn) w;
  Some (match r with Ok c => (Ok (), set_state conn (Connected c), w) | Err e => (Err e, conn, w) end).
Definition qualified (ns : string) (t : McpToolInfo) : string := ns +:+ ti_name t.
Definition tool_names (conn : McpServerConnection) : list string := qualified (namespace conn) <$> tools conn.
Definition is_healthy (conn : McpServerConnection) : bool := match state conn with Connected _ => true | _ => false end.
Definition is_degraded (conn : McpServerConnection) : bool := match state conn with Degraded _ => true | _ => false end.

(** ** [meta_tools.rs] *)

Record McpServerEntry : Type := {
  se_name : string; se_namespace : string; se_status : string; se_tool_count : Z; se_interval : Z }.
Record McpToolEntry : Type := { me_name : string; me_description : string; me_server : string }.
Inductive Manifest : Type :=
| McpServerList (total : Z) (servers : list McpServerEntry)
| McpServerStatus (name ns status : string) (tool_count interval : Z) (tools : list McpToolEntry)
| McpToolList (total : Z) (tools : list McpToolEntry).

Definition connection_status (c : McpServerConnection) : string :=
  if is_healthy c then "connected" else if is_degraded c then "degraded" else "disconnected".
(** [sort_by] of the names is stable. *)
Fixpoint insert_by_name {A} (name : A -> string) (x : A) (l : list A) : list A :=
  match l with [] => [x] | y :: l' => if str_leb (name x) (name y) then x :: l else y :: insert_by_name name x l' end.
Definition sort_by_name {A} (name : A -> string) (l : list A) : list A := foldr (insert_by_name name) [] l.

Abbreviation Connections := (gmap string McpServerConnection).
Context `{!HashOrder} (yaml : Manifest -> result string string).
Definition yaml_response (id : string) (m : Manifest) : JsonRpcResponse :=
  match yaml m with
  | Ok t => rpc_ok id (JObj [("content", JStr t)]%string)
  | Err e => rpc_err id (-32603) ("YAML serialization error: " +:+ e)%string None
  end.
Definition server_entry (c : McpServerConnection) : McpServerEntry :=
  {| se_name := server_name c; se_namespace := namespace c; se_status := connection_status c;
     se_tool_count := Z.of_nat (length (tools c)); se_interval := health_check_interval_secs (config c) |}.
Definition tool_entries (server : string) (c : McpServerConnection) : list McpToolEntry :=
  (fun t => {| me_name := qualified (namespace c) t; me_description := ti_description t; me_server := server |}) <$> tools c.
Definition handle_servers (id : string) (conns : Connections) : JsonRpcResponse :=
  let l := sort_by_name se_name (server_entry <$> (hash_iter _ conns).*2) in
  yaml_response id (McpServerList (Z.of_nat (length l)) l).
Definition no_server (id name : string) : JsonRpcResponse :=
  rpc_err id (-32001) ("MCP server '" +:+ name +:+ "' not found")%string None.
Definition handle_server_status (id : string) (params : json) (conns : Connections) : JsonRpcResponse :=
  match jget params "server_name" ≫= as_str with
  | None => rpc_err id (-32602) "missing required parameter: server_name" None
  | Some n =>
      match conns !! n with
      | None => no_server id n
      | Some c => yaml_response id (McpServerStatus n (namespace c) (connection_status c) (Z.of_nat (length (tools c)))
                                      (health_check_interval_secs (config c)) (tool_entries n c))
      end
  end.
Definition listed_tools (only : option string) (conns : Connections) : list McpToolEntry :=
  sort_by_name me_name (e ← filter (fun e => only = None \/ only = Some e.1) (hash_iter _ conns); tool_entries e.1 e.2).
Definition handle_tools (id : string) (params : json) (conns : Connections) : JsonRpcResponse :=
  let only := jget params "server_name" ≫= as_str in
  let l := listed_tools only conns in
  match only with
  | Some n => if decide (is_Some (conns !! n)) then yaml_response id (McpToolList (Z.of_nat (length l)) l) else no_server id n
  | None => yaml_response id (McpToolList (Z.of_nat (length l)) l)
  end.
Definition ALL_META_TOOLS : list string := ["mcp/servers"; "mcp/server-status"; "mcp/tools"]%string.
Definition handle_meta_tool (rq : JsonRpcRequest) (conns : Connections) : option JsonRpcResponse :=
  if String.eqb (method rq) "mcp/servers" then Some (handle_servers (rq_id rq) conns)
  else if String.eqb (method rq) "mcp/server-status" then Some (handle_server_status (rq_id rq) (params rq) conns)
  else if String.eqb (method rq) "mcp/tools" then Some (handle_tools (rq_id rq) (params rq) conns)
  else None.

(** ** [runner.rs]: calls *)

Definition call_answer (id : string) (r : result McpClientError json) : JsonRpcResponse :=
  match r with Ok v => rpc_ok id v | Err e => rpc_err id (-32005) ("MCP call failed: " +:+ mcp_error_to_string e)%string None end.
Definition owner_of (tool_name : string) (conns : Connections) : option string :=
  match list_find (fun e => starts_with (namespace e.2) tool_name = true) (hash_iter _ conns) with
  | Some (_, e) => Some e.1
  | None => None
  end.
Definition handle_tool_call (now : Z) (msg : IpcMessage) (conns : Connections) : option (option JsonRpcResponse * Connections) :=
  match msg with
  | Notification _ => Some (None, conns)
  | Request rq =>
      match handle_meta_tool rq conns with
      | Some r => Some (Some r, conns)
      | None =>
          match owner_of (method rq) conns with
          | None => Some (Some (rpc_err (rq_id rq) (-32601) ("tool '" +:+ method rq +:+ "' not found in any MCP server")%string None), conns)
          | Some name =>
              match conns !! name with
              | None => Some (Some (rpc_err (rq_id rq) (-32005) ("MCP server '" +:+ name +:+ "' is unavailable")%string None), conns)
              | Some conn =>
                  '(r, conn) ← forward_call now (method rq) (params rq) conn;
                  Some (Some (call_answer (rq_id rq) r), <[name := conn]> conns)
              end
          end
      end
  end.

(** ** [runner.rs]: registration, the monitor, start and shutdown *)

Context {K : Type} (kcall : K -> JsonRpcRequest -> result AvixError JsonRpcResponse * K).
(** The uuid drawn for the request that is sent next. *)
Variable uuid : K -> string.
Variable token : string.

Definition tool_spec (ns : string) (t : McpToolInfo) : json :=
  JObj [("name", JStr (qualified ns t));
        ("descriptor", JObj [("description", JStr (ti_description t)); ("streaming", JBool false); ("input_schema", ti_input_schema t)]);
        ("visibility", JStr "all")]%string.
Definition tool_add (specs : list json) (k : K) : JsonRpcRequest :=
  {| rq_jsonrpc := "2.0"; rq_id := uuid k; method := "ipc.tool-add";
     params := JObj [("_token", JStr token); ("tools", JArr specs)]%string |}.
Definition register_tools_with_avix (ts : list McpToolInfo) (ns : string) (k : K) : result AvixError (list string) * K :=
  match ts with
  | [] => (Ok [], k)
  | _ =>
      let '(r, k) := kcall k (tool_add (tool_spec ns <$> ts) k) in
      (resp ← r;
       match rs_error resp with
       | Some e => Err (McpProtocol ("ipc.tool-add failed: " +:+ message e +:+ " (code " +:+ pretty (code e) +:+ ")")%string)
       | None => Ok (qualified ns <$> ts)
       end, k)
  end.
Definition deregister_tools_from_avix (names : list string) (drain : bool) (k : K) : result AvixError unit * K :=
  match names with
  | [] => (Ok (), k)
  | _ =>
      let '(r, k) := kcall k {| rq_jsonrpc := "2.0"; rq_id := uuid k; method := "ipc.tool-remove";
        params := JObj [("_token", JStr token); ("tools", jstrs names); ("reason", JStr "mcp-bridge shutting down"); ("drain", JBool drain)]%string |} in
      (_ ← r; Ok (), k)
  end.

(** One server of a pass.  Its state is read, then its tools are listed. *)
Definition check_server (now : Z) (name : string) (st : Connections * K) : option (Connections * K) :=
  let '(conns, k) := st in
  match conns !! name with
  | None => Some st
  | Some conn =>
      '(r, conn') ← discover_tools now conn;
      let conns := <[name := conn']> conns in
      Some (match r with
            | Ok _ => if is_degraded conn then (conns, (register_tools_with_avix (tools conn') (namespace conn') k).2) else (conns, k)
            | Err _ => if is_healthy conn then (conns, (deregister_tools_from_avix (tool_names conn') false k).2) else (conns, k)
            end)
  end.
(** A tick of the monitor. *)
Definition monitor_pass (now : Z) (st : Connections * K) : option (Connections * K) :=
  foldl (fun o name => st ← o; check_server now name st) (Some st) (hash_iter _ st.1).*1.

(** One server of the configuration. *)
Record Starting : Type := { st_conns : Connections; st_names : list string; st_kernel : K; st_world : W }.
Definition start_server (now : Z) (s : Starting) (e : string * McpServerConfig) : option Starting :=
  '(r, w) ← connect e.1 e.2 (st_world s);
  match r with
  | Err _ => Some {| st_conns := st_conns s; st_names := st_names s; st_kernel := st_kernel s; st_world := w |}
  | Ok conn =>
      '(r, conn) ← discover_tools now conn;
      match r with
      | Err _ => Some {| st_conns := <[e.1 := conn]> (st_conns s); st_names := st_names s; st_kernel := st_kernel s; st_world := w |}
      | Ok ts =>
          let '(r, k) := register_tools_with_avix ts (tool_namespace e.2 e.1) (st_kernel s) in
          Some (match r with
                | Err _ => {| st_conns := st_conns s; st_names := st_names s; st_kernel := k; st_world := w |}
                | Ok names => {| st_conns := <[e.1 := conn]> (st_conns s); st_names := st_names s ++ names; st_kernel := k; st_world := w |}
                end)
      end
  end.
Definition meta_spec (name description : string) (properties : json) (required : list string) : json :=
  JObj [("name", JStr name);
        ("descriptor", JObj [("description", JStr description); ("streaming", JBool false);
                             ("input_schema", JObj [("type", JStr "object"); ("properties", properties); ("required", jstrs required)])]);
        ("visibility", JStr "all")]%string.
Definition server_name_property (description : string) : json :=
  JObj [("server_name", JObj [("type", JStr "string"); ("description", JStr description)])]%string.
Definition meta_tool_descriptors : list json :=
  [meta_spec "mcp/servers" "List all configured MCP servers with their connection status, namespace, and tool count. Returns YAML (apiVersion: avix/v1, kind: McpServerList)." (JObj []) [];
   meta_spec "mcp/server-status" "Return detailed status for a single MCP server including connection state, tool list, and health configuration. Returns YAML (apiVersion: avix/v1, kind: McpServerStatus)."
     (server_name_property "Name of the MCP server as declared in mcp.json") ["server_name"%string];
   meta_spec "mcp/tools" "List tools exposed through the MCP bridge, optionally filtered to a single server. Returns YAML (apiVersion: avix/v1, kind: McpToolList)."
     (server_name_property "Optional — filter results to this server only") []].
(** The bridge's own tools are offered last. *)
Definition register_meta (s : Starting) : Starting :=
  let '(r, k) := kcall (st_kernel s) (tool_add meta_tool_descriptors (st_kernel s)) in
  {| st_conns := st_conns s;
     st_names := st_names s ++ (match r with Ok resp => match rs_error resp with None => ALL_META_TOOLS | Some _ => [] end | Err _ => [] end);
     st_kernel := k; st_world := st_world s |}.
(** The seconds between two passes: the least of the configuration.  [None]: a period of zero panics in the monitor. *)
Definition monitor_interval (cf : McpConfig) : option Z :=
  let l := health_check_interval_secs <$> (hash_iter _ (mcp_servers cf)).*2 in
  let m := match l with [] => 30 | x :: l => foldl Z.min x l end in
  if decide (m = 0) then None else Some m.
(** [bind]: whether the service's socket could be bound. *)
Definition start (now : Z) (cf : McpConfig) (bind : result string unit) (k : K) (w : W) : option (result AvixError Starting) :=
  s ← foldl (fun o e => s ← o; start_server now s e)
        (Some {| st_conns := ∅; st_names := []; st_kernel := k; st_world := w |}) (hash_iter _ (mcp_servers cf));
  let s := register_meta s in
  Some (match bind with
        | Ok _ => Ok s
        | Err e => Err (Io ("failed to bind mcp-bridge socket: " +:+ e)%string)
        end).
Definition shutdown (names : list string) (k : K) : result AvixError unit * K :=
  (Ok (), (deregister_tools_from_avix names false k).2).
End Bridge.

(** ** [bridge.rs] *)

Record McpToolDescriptor : Type := { md_name : string; md_description : string; md_server : string }.
Record McpBridge : Type := { mb_server_name : string; mb_tools : list McpToolDescriptor }.
Definition bridge_new (name : string) : McpBridge := {| mb_server_name := name; mb_tools := [] |}.
Definition register_tool (b : McpBridge) (raw_name description : string) : result AvixError McpToolDescriptor * McpBridge :=
  let n := ("mcp/" +:+ mb_server_name b +:+ "/" +:+ raw_name)%string in
  match ToolName.parse n with
  | Err e => (Err e, b)
  | Ok _ => let d := {| md_name := n; md_description := description; md_server := mb_server_name b |} in
            (Ok d, {| mb_server_name := mb_server_name b; mb_tools := mb_tools b ++ [d] |})
  end.
Definition outbound_name (tool_name server : string) : option string := strip_prefix ("mcp/" +:+ server +:+ "/")%string tool_name.

(** ** Answers and their requests *)

Section Client.
Context {T : Type} `{!McpTransportIO T}.
Implicit Types c : McpClient (T := T).

(** The transport delivers these messages, in order. *)
Fixpoint delivers (t : T) (ms : list json) (t' : T) : Prop :=
  match ms with
  | [] => t' = t
  | m :: ms => exists t1, io_recv t = Some (Ok m, t1) /\ delivers t1 ms t'
  end.
Definition after c (ms : list json) (t : T) : McpClient :=
  {| transport := t; next_id := next_id c; notification_buffer := notification_buffer c ++ ms |}.

Lemma rpc_wait_spec n id : forall c r c',
  rpc_wait n id c = Some (r, c') <->
  exists ms t x t', (length ms < n)%nat /\ delivers (transport c) ms t /\ Forall (fun m => outcome id m = None) ms /\
    io_recv t = Some (x, t') /\ c' = after c ms t' /\
    match x with Ok m => outcome id m = Some r | Err e => r = Err e end.
Proof.
  induction n as [|n IH]; intros c r c'; cbn [rpc_wait].
  { split; [done|]. intros (ms & t & x & t' & L & _). lia. }
  destruct (io_recv (transport c)) as [[x t1]|] eqn:Er; cbn.
  2:{ split; [done|]. intros ([|m ms] & t & x & t' & _ & D & _ & R & _); cbn in D; [subst; congruence|].
      destruct D as (t1 & Et & _). congruence. }
  destruct x as [m|e].
  - destruct (outcome id m) as [o|] eqn:Eo.
    + split.
      * intros [= <- <-]. exists [], (transport c), (Ok m), t1. cbn. split_and!; auto; [lia|].
        unfold after, set_transport. by rewrite app_nil_r.
      * intros ([|m' ms] & t & x & t' & _ & D & F & R & -> & X); cbn in D.
        -- subst t. rewrite Er in R. simplify_eq. unfold after, set_transport. by rewrite app_nil_r.
        -- destruct D as (t2 & Et & _). rewrite Er in Et. simplify_eq. apply Forall_cons in F as [F _]. congruence.
    + rewrite IH. cbn. split.
      * intros (ms & t & x & t' & L & D & F & R & -> & X). exists (m :: ms), t, x, t'. cbn. split_and!; auto; [lia|by exists t1|].
        unfold after, buffered, set_transport. cbn. by rewrite <- app_assoc.
      * intros ([|m' ms] & t & x & t' & L & D & F & R & -> & X); cbn in D.
        -- subst t. rewrite Er in R. by simplify_eq.
        -- destruct D as (t2 & Et & D). rewrite Er in Et. simplify_eq. apply Forall_cons in F as [_ F].
           exists ms, t, x, t'. cbn in L. split_and!; auto; [lia|]. unfold after, buffered, set_transport. cbn. by rewrite <- app_assoc.
  - split.
    + intros [= <- <-]. exists [], (transport c), (Err e), t1. cbn. split_and!; auto; [lia|].
      unfold after, set_transport. by rewrite app_nil_r.
    + intros ([|m' ms] & t & x & t' & _ & D & F & R & -> & X); cbn in D.
      * subst t. rewrite Er in R. simplify_eq. unfold after, set_transport. by rewrite app_nil_r.
      * destruct D as (t2 & Et & _). congruence.
Qed.

Lemma outcome_ok id m v : outcome id m = Some (Ok v) <->
  jget m "id" ≫= as_u64 = Some id /\ jget m "error" = None /\ jget m "result" = Some v.
Proof.
  unfold outcome. case_decide as E1; [rewrite E1; split; [done|]; by intros [? _]|].
  destruct (jget m "error"); [naive_solver|]. case_decide; [|naive_solver].
  destruct (jget m "result"); cbn; naive_solver.
Qed.
Lemma outcome_none id m : outcome id m = None <->
  jget m "id" = None \/ jget m "error" = None /\ jget m "id" ≫= as_u64 <> Some id.
Proof.
  unfold outcome. case_decide as E1; [naive_solver|]. destruct (jget m "error"); [naive_solver|]. case_decide; naive_solver.
Qed.

(** A request to an MCP server succeeds with exactly the result of the message that carries its number: the messages
    before it are kept in order, they have no number, or another one and no error, and nothing else of the client
    changes.  An error fails the request that waits, whatever number the error carries. *)
Theorem rpc_correlated patience id req c v c' :
  (rpc_raw patience id req c = Some (Ok v, c') <->
   exists t0 ms t m t', io_send (transport c) req = (Ok (), t0) /\ (length ms < patience)%nat /\ delivers t0 ms t /\
     Forall (fun m => jget m "id" = None \/ jget m "error" = None /\ jget m "id" ≫= as_u64 <> Some id) ms /\
     io_recv t = Some (Ok m, t') /\
     jget m "id" ≫= as_u64 = Some id /\ jget m "error" = None /\ jget m "result" = Some v /\ c' = after c ms t') /\
  (forall t0 m t1 e n, io_send (transport c) req = (Ok (), t0) -> io_recv t0 = Some (Ok m, t1) ->
     jget m "id" <> None -> jget m "error" = Some e ->
     rpc_raw (S n) id req c = Some (Err (McpProtocolErr (default "unknown error"%string (jget e "message" ≫= as_str))), set_transport c t1)).
Proof.
  split.
  - unfold rpc_raw. destruct (io_send (transport c) req) as [[[]|e] t0].
    2:{ split; [done|]. by intros (? & ? & ? & ? & ? & [=] & _). }
    rewrite rpc_wait_spec. split.
    + intros (ms & t & x & t' & L & D & F & R & -> & X). destruct x as [m|]; [|done]. apply outcome_ok in X as (? & ? & ?).
      exists t0, ms, t, m, t'. split_and!; auto. eapply Forall_impl; [exact F|]. intros y. apply outcome_none.
    + intros (? & ms & t & m & t' & [= <-] & L & D & F & R & X1 & X2 & X3 & ->).
      exists ms, t, (Ok m), t'. split_and!; auto; [|by apply outcome_ok].
      eapply Forall_impl; [exact F|]. intros y. apply outcome_none.
  - intros t0 m t1 e n S R I E. unfold rpc_raw. rewrite S. cbn. rewrite R. cbn. unfold outcome.
    by rewrite decide_False, E by done.
Qed.
End Client.

(** ** Calls reach the server that owns the tool *)

Section Routing.
Context {T : Type} `{!McpTransportIO T, !HashOrder, !HashOrderLaws}.
Variables (patience : nat) (yaml : Manifest -> result string string).
Notation conn := (McpServerConnection (T := T)).
Implicit Types conns : gmap string conn.

(** No tool name begins with two namespaces. *)
Definition separate conns : Prop := forall n1 n2 c1 c2 s, conns !! n1 = Some c1 -> conns !! n2 = Some c2 ->
  starts_with (namespace c1) s = true -> starts_with (namespace c2) s = true -> n1 = n2.

Lemma owner_of_some s conns n : owner_of s conns = Some n ->
  exists c, conns !! n = Some c /\ starts_with (namespace c) s = true.
Proof.
  unfold owner_of. destruct (list_find _ _) as [[i e]|] eqn:E; [|done]. intros [= <-].
  apply list_find_Some in E as (L & Hs & _). exists e.2. split; [|done].
  apply list_elem_of_lookup_2 in L. rewrite hash_iter_perm in L. destruct e. by apply elem_of_map_to_list in L.
Qed.
Lemma owner_of_none s conns : owner_of s conns = None <-> forall n c, conns !! n = Some c -> starts_with (namespace c) s = false.
Proof.
  unfold owner_of. destruct (list_find _ _) as [[i e]|] eqn:E.
  - split; [done|]. apply list_find_Some in E as (L & Hs & _). intros Hn.
    apply list_elem_of_lookup_2 in L. rewrite hash_iter_perm in L. destruct e as [n c].
    apply elem_of_map_to_list in L. cbn in Hs. by rewrite (Hn _ _ L) in Hs.
  - split; [|done]. intros _ n c Hc. apply list_find_None in E. rewrite Forall_forall in E.
    apply not_true_is_false. apply (E (n, c)). rewrite hash_iter_perm. by apply elem_of_map_to_list.
Qed.
Lemma owner_is conns n c s : separate conns -> conns !! n = Some c -> starts_with (namespace c) s = true -> owner_of s conns = Some n.
Proof.
  intros Sep Hc Hs. destruct (owner_of s conns) as [n'|] eqn:E.
  - apply owner_of_some in E as (c' & Hc' & Hs'). by rewrite (Sep n' n c' c s Hc' Hc Hs' Hs).
  - rewrite owner_of_none in E. rewrite (E _ _ Hc) in Hs. done.
Qed.
Lemma meta_none rq conns : method rq ∉ ALL_META_TOOLS -> handle_meta_tool yaml rq conns = None.
Proof.
  intros Hm. unfold handle_meta_tool. unfold ALL_META_TOOLS in Hm.
  repeat (rewrite (proj2 (String.eqb_neq _ _)); [|set_solver]). done.
Qed.
(** The namespace of a server without a mount, for names without a slash. *)
Lemma default_separate conns :
  (forall n c, conns !! n = Some c -> namespace c = (n +:+ "/")%string /\ str_contains_char "/" n = false) -> separate conns.
Proof.
  intros Hd n1 n2 c1 c2 s H1 H2 S1 S2. destruct (Hd _ _ H1) as [E1 N1], (Hd _ _ H2) as [E2 N2].
  rewrite E1 in S1. rewrite E2 in S2. apply starts_with_spec in S1 as [r1 E]. apply starts_with_spec in S2 as [r2 F].
  rewrite E in F. rewrite !str_app_assoc in F. clear E H1 H2 E1 E2.
  revert n2 N2 F. induction n1 as [|a n1 IH]; intros [|b n2] N2 F; cbn in *.
  - done.
  - injection F as <- _. by rewrite bool_decide_true in N2.
  - injection F as -> _. by rewrite bool_decide_true in N1.
  - injection F as -> F. f_equal. apply IH; [| |done].
    + by apply orb_false_iff in N1 as [_ ?].
    + by apply orb_false_iff in N2 as [_ ?].
Qed.

(** The outcome of a tool's call at its server: the answer, the new state of the connection. *)
Definition call_at_server (now : Z) (raw : string) (ps : json) (c : conn) : option (result McpClientError json * conn) :=
  match state c with
  | Connected cl =>
      '(r, cl) ← call_tool patience raw ps cl; Some (r, set_state c (match r with Ok _ => Connected cl | Err _ => Degraded now end))
  | _ => Some (Err McpServerGone, c)
  end.

Lemma forward_own now c raw ps : forward_call patience now (namespace c +:+ raw)%string ps c = call_at_server now raw ps c.
Proof. unfold forward_call, call_at_server. rewrite strip_prefix_app. by destruct (state c). Qed.

(** A name under which the bridge has registered a tool of a server, called by the kernel, reaches that server under
    the tool's own name with the same arguments, and its answer, or its error, is the answer; no other connection
    changes.  This needs only that no name begins with the namespaces of two servers, which holds whenever they are the
    default ones of servers without a slash in their name.  A name no namespace begins is answered as unknown. *)
Theorem bridge_routes now rq conns :
  method rq ∉ ALL_META_TOOLS ->
  ((forall n c, conns !! n = Some c -> namespace c = (n +:+ "/")%string /\ str_contains_char "/" n = false) -> separate conns) /\
  (forall n c t, separate conns -> conns !! n = Some c -> t ∈ tools c -> method rq = qualified (namespace c) t ->
     handle_tool_call patience yaml now (Request rq) conns =
       '(r, c') ← call_at_server now (ti_name t) (params rq) c; Some (Some (call_answer (rq_id rq) r), <[n := c']> conns)) /\
  ((forall n c, conns !! n = Some c -> starts_with (namespace c) (method rq) = false) ->
     handle_tool_call patience yaml now (Request rq) conns =
       Some (Some (rpc_err (rq_id rq) (-32601) ("tool '" +:+ method rq +:+ "' not found in any MCP server")%string None), conns)).
Proof.
  intros Hm. split; [apply default_separate | split].
  - intros n c t Sep Hc _ E. unfold handle_tool_call. rewrite (meta_none rq conns Hm).
    rewrite (owner_is conns n c _ Sep Hc) by (rewrite E; apply starts_with_app). rewrite Hc.
    rewrite E. unfold qualified. by rewrite forward_own.
  - intros Hn. unfold handle_tool_call. rewrite (meta_none rq conns Hm).
    by rewrite (proj2 (owner_of_none _ conns) Hn).
Qed.
End Routing.

(** ** Health *)

Section Health.
Context {T : Type} `{!McpTransportIO T, !HashOrder, !HashOrderLaws} {K : Type}.
Variables (patience : nat) (yaml : Manifest -> result string string).
Variables (kcall : K -> JsonRpcRequest -> result AvixError JsonRpcResponse * K) (uuid : K -> string) (token : string).
Notation conn := (McpServerConnection (T := T)).
Notation bridge := (gmap string conn * K)%type.
Implicit Types (st : bridge) (conns : gmap string conn).

(** What a running bridge does: it serves a message, or its monitor makes a pass. *)
Inductive bridge_step : bridge -> bridge -> Prop :=
| bs_call now msg r conns conns' k : handle_tool_call patience yaml now msg conns = Some (r, conns') -> bridge_step (conns, k) (conns', k)
| bs_pass now st st' : monitor_pass patience kcall uuid token now st = Some st' -> bridge_step st st'.

(** A connection that does not work stays what it is. *)
Definition stuck conns conns' : Prop := forall n c, conns !! n = Some c -> is_healthy c = false -> conns' !! n = Some c.
#[local] Instance stuck_refl : Reflexive stuck.
Proof. by intros conns n c. Qed.
#[local] Instance stuck_trans : Transitive stuck.
Proof. intros x y z Hxy Hyz n c Hc Hh. apply Hyz; [by apply Hxy | done]. Qed.

Lemma insert_stuck conns n c c' : conns !! n = Some c -> (is_healthy c = false -> c' = c) -> stuck conns (<[n := c']> conns).
Proof.
  intros Hc Hh m d Hm Hd. destruct (decide (n = m)) as [<-|]; [|by rewrite lookup_insert_ne].
  rewrite lookup_insert_eq. rewrite Hc in Hm. simplify_eq. by rewrite Hh.
Qed.

Lemma discover_unhealthy now c : is_healthy c = false -> discover_tools patience now c = Some (Err McpServerGone, c).
Proof. unfold is_healthy, discover_tools. by destruct (state c). Qed.
Lemma forward_unhealthy now name ps c : is_healthy c = false -> starts_with (namespace c) name = true ->
  forward_call patience now name ps c = Some (Err McpServerGone, c).
Proof.
  intros Hh [r ->]%starts_with_spec. unfold forward_call. rewrite strip_prefix_app. revert Hh. unfold is_healthy. by destruct (state c).
Qed.
Lemma call_stuck now msg conns r conns' : handle_tool_call patience yaml now msg conns = Some (r, conns') -> stuck conns conns'.
Proof.
  unfold handle_tool_call. destruct msg as [rq|]; [|by intros [= <- <-]].
  destruct (handle_meta_tool _ _ _); [by intros [= <- <-]|].
  destruct (owner_of _ _) as [n|] eqn:Eo; [|by intros [= <- <-]].
  destruct (owner_of_some _ _ _ Eo) as (c & Hc & Hs). rewrite Hc.
  destruct (forward_call _ _ _ _ _) as [[x c']|] eqn:Ef; [|done]. intros [= <- <-].
  apply (insert_stuck _ _ c); [done|]. intros Hh. rewrite forward_unhealthy in Ef by done. by simplify_eq.
Qed.

(** A check: the connection is as before or the server answered or failed, and only then the kernel is asked to remove
    tools; tools are never added. *)
Lemma check_spec now n st st' : check_server patience kcall uuid token now n st = Some st' ->
  stuck st.1 st'.1 /\ dom st'.1 = dom st.1 /\
  (st'.2 = st.2 \/ exists c c', st.1 !! n = Some c /\ is_healthy c = true /\ is_healthy c' = false /\ tool_names c' = tool_names c /\
     st'.1 = <[n := c']> st.1 /\ st'.2 = (deregister_tools_from_avix kcall uuid token (tool_names c) false st.2).2).
Proof.
  destruct st as [conns k]. unfold check_server. destruct (conns !! n) as [c|] eqn:Hc; [|intros [= <-]; by split_and!; [..|left]].
  destruct (is_healthy c) eqn:Hh.
  2:{ rewrite discover_unhealthy by done. cbn. intros [= <-]. cbn. rewrite insert_id by done. by split_and!; [..|left]. }
  unfold is_healthy in Hh. unfold discover_tools. destruct (state c) as [cl| |] eqn:Es; [|done..].
  destruct (list_tools _ _) as [[r cl']|]; [|done]. cbn.
  assert (is_degraded c = false) as Hd by (unfold is_degraded; by rewrite Es).
  assert (is_healthy c = true) as Hc1 by (unfold is_healthy; by rewrite Es).
  assert (forall c', stuck conns (<[n := c']> conns)) as Hst.
  { intros c'. apply (insert_stuck _ _ c); [done|]. unfold is_healthy. by rewrite Es. }
  assert (forall c', dom (<[n := c']> conns) = dom conns) as Hdom.
  { intros c'. rewrite dom_insert_L. assert (n ∈ dom conns) by (apply elem_of_dom; by eexists). set_solver. }
  destruct r as [l|e]; rewrite ?Hd, ?Hc1; cbn; intros [= <-].
  -  by split_and!; [apply Hst|apply Hdom|left].
  - split_and!; [apply Hst|apply Hdom|]. right.
    exists c, (set_state c (Degraded now)). split_and!; try done; unfold is_healthy; by rewrite ?Es.
Qed.

Definition all_down conns : Prop := forall n c, conns !! n = Some c -> is_healthy c = false.
(** The kernel is only asked to remove tools. *)
Definition only_removes (k k' : K) : Prop := forall P : K -> Prop,
  (forall names k, P k -> P (deregister_tools_from_avix kcall uuid token names false k).2) -> P k -> P k'.

Lemma check_effect now n st st' : check_server patience kcall uuid token now n st = Some st' ->
  stuck st.1 st'.1 /\ only_removes st.2 st'.2 /\ (all_down st.1 -> st' = st).
Proof.
  intros E. pose proof (check_spec _ _ _ _ E) as (S & _ & Hk). split_and!; [done| |].
  - intros P Hp Pk. destruct Hk as [->|(c & c' & _ & _ & _ & _ & _ & ->)]; [done|by apply Hp].
  - intros Hd. unfold check_server in E. destruct st as [conns k]. destruct (conns !! n) as [c|] eqn:Hc; [|by simplify_eq].
    rewrite discover_unhealthy in E by (by eapply Hd). cbn in E. rewrite (Hd _ _ Hc), insert_id in E by done. by simplify_eq.
Qed.
Lemma pass_effect now names : forall st st',
  foldl (fun o name => st ← o; check_server patience kcall uuid token now name st) (Some st) names = Some st' ->
  stuck st.1 st'.1 /\ only_removes st.2 st'.2 /\ (all_down st.1 -> st' = st).
Proof.
  induction names as [|n names IH]; intros st st'; cbn; [intros [= <-]; split_and!; [done|by intros P|done]|].
  destruct (check_server patience kcall uuid token now n st) as [st1|] eqn:E.
  - intros (S2 & R2 & D2)%IH. apply check_effect in E as (S1 & R1 & D1). split_and!.
    + by transitivity (st1.1).
    + intros P Hp Pk. apply R2; [done|]. by apply R1.
    + intros Hd. rewrite D2; [by apply D1|]. by rewrite D1.
  - intros Hf. exfalso. clear -Hf. induction names; cbn in Hf; [done|auto].
Qed.
Lemma call_down now msg conns r conns' : handle_tool_call patience yaml now msg conns = Some (r, conns') -> all_down conns -> conns' = conns.
Proof.
  unfold handle_tool_call. intros E Hd. destruct msg as [rq|]; [|by simplify_eq].
  destruct (handle_meta_tool _ _ _); [by simplify_eq|].
  destruct (owner_of _ _) as [n|] eqn:Eo; [|by simplify_eq].
  destruct (owner_of_some _ _ _ Eo) as (c & Hc & Hs). rewrite Hc, forward_unhealthy in E by eauto. cbn in E.
  rewrite insert_id in E by done. by simplify_eq.
Qed.

(** C27: A server of the bridge that has failed once is lost until the bridge is restarted.  One failing call, also an
    error the server itself reports, takes the connection down; whatever calls and monitor passes follow, a connection
    that is down stays exactly as it is, the monitor only ever asks the kernel to remove tools, never to add any, and
    once every server is down the bridge never does anything again: tools that were registered stay registered. *)
Theorem degraded_forever st st' :
  rtc bridge_step st st' ->
  (forall now raw ps c e c', call_at_server patience now raw ps c = Some (Err e, c') -> is_healthy c' = false) /\
  (forall n c, st.1 !! n = Some c -> is_healthy c = false -> st'.1 !! n = Some c) /\
  only_removes st.2 st'.2 /\
  (all_down st.1 -> st' = st).
Proof.
  intros Hs. split.
  { intros now raw ps c e c'. unfold call_at_server. destruct (state c) as [cl| |] eqn:Es.
    - destruct (call_tool _ _ _ _) as [[x cl']|]; [|done]. cbn. by intros [= -> <-].
    - intros [= _ <-]. unfold is_healthy. by rewrite Es.
    - intros [= _ <-]. unfold is_healthy. by rewrite Es. }
  induction Hs as [st|st st1 st' Hs _ IH]; [split_and!; [done|by intros P|done]|]. destruct IH as (S2 & R2 & D2).
  assert (stuck st.1 st1.1 /\ only_removes st.2 st1.2 /\ (all_down st.1 -> st1 = st)) as (S1 & R1 & D1).
  { destruct Hs as [now msg r conns conns' k E|now st st1 E].
    - split_and!; [by eapply call_stuck|by intros P|]. intros Hd. f_equal. by eapply call_down.
    - by eapply pass_effect. }
  split_and!.
  - intros n c Hc Hh. apply S2; [|done]. by apply S1.
  - intros P Hp Pk. apply R2; [done|]. by apply R1.
  - intros Hd. rewrite D2; [by apply D1|]. by rewrite D1.
Qed.
End Health.

(** ** The MCP bridge's own names *)

(** A tool registered through [McpBridge] goes out under the name it came with, and no name of another server is
    taken for one of this server's when the server names have no slash. *)
Theorem bridge_names b raw desc d b' :
  register_tool b raw desc = (Ok d, b') ->
  outbound_name (md_name d) (mb_server_name b) = Some raw /\
  mb_tools b' = mb_tools b ++ [d] /\
  (forall other, other <> mb_server_name b -> str_contains_char "/" other = false -> str_contains_char "/" (mb_server_name b) = false ->
     outbound_name (md_name d) other = None).
Proof.
  unfold register_tool, outbound_name. destruct (ToolName.parse _); [|done]. intros [= <- <-]. cbn [md_name mb_tools]. split_and!; [|done|].
  - pose proof (strip_prefix_app ("mcp/" +:+ mb_server_name b +:+ "/")%string raw) as Hs. rewrite !str_app_assoc in Hs. exact Hs.
  - intros other Hne Ho Hb. unfold strip_prefix. case_match eqn:E; [|done]. exfalso. apply Hne.
    apply starts_with_spec in E as [r E]. rewrite !str_app_assoc in E. injection E as E. clear - E Ho Hb. revert E Ho Hb. generalize (mb_server_name b).
    induction other as [|a o IH]; intros [|c n] E Ho Hb; cbn in *.
    + done.
    + injection E as -> _. by rewrite bool_decide_true in Hb.
    + injection E as <- _. by rewrite bool_decide_true in Ho.
    + injection E as -> E. apply orb_false_iff in Ho as [_ Ho]. apply orb_false_iff in Hb as [_ Hb]. f_equal. by eapply IH.
Qed.

(** ** A server with two tools *)

Module Toy.

(** What the server does with a message: [list-prs] is served after a notification, [boom] is refused. *)
Definition serve (m : json) : list json :=
  match jget m "id" with
  | None => []
  | Some id =>
      let answer r := JObj [("jsonrpc", JStr "2.0"); ("id", id); ("result", r)]%string in
      let meth := default EmptyString (jget m "method" ≫= as_str) in
      if String.eqb meth "tools/list" then
        [answer (JObj [("tools", JArr [JObj [("name", JStr "list-prs")]; JObj [("name", JStr "boom")]])])%string]
      else if String.eqb meth "tools/call" then
        if decide (as_str (jindex (jindex m "params") "name") = Some "boom"%string) then
          [JObj [("id", id); ("error", JObj [("message", JStr "no such branch")])]]%string
        else [JObj [("method", JStr "notifications/progress")]; answer (JArr [JStr "pr 1"])]%string
      else [answer (JObj [])]
  end.
#[export] Instance pipe : McpTransportIO (list json) := {
  io_send t m := (Ok (), t ++ serve m);
  io_recv t := match t with [] => None | m :: t => Some (Ok m, t) end }.
#[export] Instance list_order : HashOrder := fun _ m => map_to_list m.
#[export] Instance list_order_laws : HashOrderLaws.
Proof. by intros A m. Qed.

Definition github : McpServerConfig := {| command := "npx"; args := []; env := ∅; mount := None; mc_transport := Stdio; health_check_interval_secs := 30 |}.
Definition spawned (w : nat) (cf : McpServerConfig) : result McpClientError (list json) * nat := (Ok [], S w).
Definition ready : option (result McpClientError (McpServerConnection (T := list json)) * nat) := connect 9 spawned "github" github 0%nat.
Definition github_conn : McpServerConnection (T := list json) :=
  {| server_name := "github"; namespace := "github/"; config := github;
     tools := [{| ti_name := "list-prs"; ti_description := ""; ti_input_schema := empty_schema |};
               {| ti_name := "boom"; ti_description := ""; ti_input_schema := empty_schema |}]%string;
     state := Connected {| transport := []; next_id := 3; notification_buffer := [] |} |}.
Example connect_and_list :
  (x ← ready; match x.1 with Ok c => Some ((discover_tools 9 7 c)) | Err _ => None end)
  = Some (Some (Ok (tools github_conn), github_conn)).
Proof. vm_compute. reflexivity. Qed.

Definition fresh_client : McpClient (T := list json) := client_new [].
Definition call_prs : json := rpc_request 1 "tools/call" (JObj [("name", JStr "list-prs"); ("arguments", JObj [])])%string.
Lemma rpc_correlated_witness : exists c', rpc_raw 9 1 call_prs fresh_client = Some (Ok (JArr [JStr "pr 1"]), c').
Proof.
  eexists. apply (proj1 (rpc_correlated 9 1 call_prs fresh_client (JArr [JStr "pr 1"%string]) _)).
  exists (serve call_prs), [JObj [("method", JStr "notifications/progress")]%string],
    [JObj [("jsonrpc", JStr "2.0"); ("id", JInt 1); ("result", JArr [JStr "pr 1"])]%string],
    (JObj [("jsonrpc", JStr "2.0"); ("id", JInt 1); ("result", JArr [JStr "pr 1"])]%string), [].
  split_and!; try reflexivity; [vm_compute; lia | | ].
  - eexists. split; reflexivity.
  - constructor; [by left | constructor].
Defined.

Definition yaml_off (m : Manifest) : result string string := Ok EmptyString.
Definition conns : gmap string (McpServerConnection (T := list json)) := {["github"%string := github_conn]}.
Definition ask (m : string) : JsonRpcRequest := {| rq_jsonrpc := "2.0"; rq_id := "5"; method := m; params := JObj [] |}.
Lemma conns_default n c : conns !! n = Some c -> namespace c = (n +:+ "/")%string /\ str_contains_char "/" n = false.
Proof. unfold conns. intros [<- <-]%lookup_singleton_Some. split; reflexivity. Qed.
Lemma bridge_routes_witness :
  (fun x => x.1) <$> handle_tool_call 9 yaml_off 7 (Request (ask "github/list-prs")) conns = Some (Some (rpc_ok "5" (JArr [JStr "pr 1"%string]))).
Proof.
  destruct (bridge_routes 9 yaml_off 7 (ask "github/list-prs") conns) as (Hs & Hr & _).
  - cbn. intros Hx. repeat (apply elem_of_cons in Hx as [Hx|Hx]; [discriminate Hx|]). by apply not_elem_of_nil in Hx.
  - rewrite (Hr "github"%string github_conn {| ti_name := "list-prs"; ti_description := ""; ti_input_schema := empty_schema |}).
    + vm_compute. reflexivity.
    + apply Hs, conns_default.
    + apply lookup_singleton_eq.
    + left.
    + reflexivity.
Defined.

(** A kernel that counts requests. *)
Definition counting (k : nat) (rq : JsonRpcRequest) : result AvixError JsonRpcResponse * nat := (Ok (rpc_ok (rq_id rq) JNull), S k).
Definition after_boom : gmap string (McpServerConnection (T := list json)) :=
  match handle_tool_call 9 yaml_off 7 (Request (ask "github/boom")) conns with Some (_, c) => c | None => ∅ end.
Lemma degraded_forever_witness :
  fmap is_healthy (after_boom !! "github"%string) = Some false /\
  forall st, rtc (bridge_step 9 yaml_off counting (fun _ => EmptyString) "tok") (after_boom, 0%nat) st -> st = (after_boom, 0%nat).
Proof.
  split; [vm_compute; reflexivity|]. intros st Hs.
  apply (degraded_forever 9 yaml_off counting (fun _ => EmptyString) "tok" (after_boom, 0%nat) st Hs).
  intros n c. assert (after_boom = {["github"%string := set_state github_conn (Degraded 7)]}) as -> by (vm_compute; reflexivity).
  cbn [fst]. intros [<- <-]%lookup_singleton_Some. reflexivity.
Defined.

Lemma bridge_names_witness : outbound_name "mcp/github/list-prs" "github" = Some "list-prs"%string.
Proof.
  apply (bridge_names (bridge_new "github") "list-prs" "" {| md_name := "mcp/github/list-prs"; md_description := ""; md_server := "github" |}
    {| mb_server_name := "github"; mb_tools := [{| md_name := "mcp/github/list-prs"; md_description := ""; md_server := "github" |}] |}).
  vm_compute. reflexivity.
Defined.
End Toy.
