(* ===== verification/McpSockets.v ===== *)
(** * The MCP bridge on the sockets of the runtime

    Composes the runner of [McpBridge] with the two sockets a service can be given: the service socket of [Services],
    which serves [ipc.tool-add] and [ipc.tool-remove], and the kernel's socket of [KernelIpc], which does not. *)

From S2P Require Import Prelude Types Token Channels ToolRegistry Vfs Process Signals Router Resources Services Text Store Sessions Invocations History Proc Lifecycle AgentsYaml KernelIpc Ipc Adapters Json McpBridge.
Local Open Scope Z_scope.

(** ** What a start and a shutdown ask for *)

Section Runs.
Context {T : Type} `{!McpTransportIO T, !HashOrder} {K W : Type}.
Variables (patience : nat) (spawn : W -> McpServerConfig -> result McpClientError T * W).
Variables (kcall : K -> JsonRpcRequest -> result AvixError JsonRpcResponse * K) (uuid : K -> string) (token : string).
Notation starting := (Starting (T := T) (K := K) (W := W)).
Implicit Types s : starting.

(** [I names k] holds of the names registered so far and the kernel's side. *)
Variable I : list string -> K -> Prop.
Hypothesis Registers : forall l ts ns k, I l k ->
  I (l ++ match (register_tools_with_avix kcall uuid token ts ns k).1 with Ok names => names | Err _ => [] end)
    (register_tools_with_avix kcall uuid token ts ns k).2.

(** The tools of a connection that works are among the names. *)
Definition listed s : Prop := forall n c, st_conns s !! n = Some c -> is_healthy c = true -> forall x, x ∈ tool_names c -> x ∈ st_names s.

Lemma registered_names ts ns k names : (register_tools_with_avix kcall uuid token ts ns k).1 = Ok names -> names = qualified ns <$> ts.
Proof.
  unfold register_tools_with_avix. destruct ts as [|t ts]; [by intros [= <-]|].
  destruct (kcall _ _) as [[r|e] k']; cbn; [|done]. destruct (rs_error r); [done|]. by intros [= <-].
Qed.
Lemma connect_namespace name cf w c w' : connect patience spawn name cf w = Some (Ok c, w') ->
  namespace c = tool_namespace cf name /\ tools c = [].
Proof.
  unfold connect. destruct (connect_client _ _ _ _) as [[[cl|e] w1]|]; cbn; [|done|done]. by intros [= <- _].
Qed.
Lemma discovered now c l c' : discover_tools patience now c = Some (Ok l, c') -> tools c' = l /\ namespace c' = namespace c.
Proof.
  unfold discover_tools. destruct (state c) as [cl| |]; [|done|done]. destruct (list_tools _ _) as [[[x|e] cl']|]; cbn; [|done|done].
  by intros [= <- <-].
Qed.
Lemma undiscovered now c e c' : discover_tools patience now c = Some (Err e, c') -> is_healthy c' = false.
Proof.
  unfold discover_tools, is_healthy. destruct (state c) as [cl| |] eqn:Es; [|intros [= _ <-]; by rewrite Es..].
  destruct (list_tools _ _) as [[[x|e'] cl']|]; cbn; [done| |done]. by intros [= _ <-].
Qed.

Lemma start_server_keeps now s e s' : start_server patience spawn kcall uuid token now s e = Some s' ->
  I (st_names s) (st_kernel s) -> listed s -> I (st_names s') (st_kernel s') /\ listed s'.
Proof.
  destruct e as [name cf]. unfold start_server. cbn [fst snd]. intros E Hi Hl.
  destruct (connect _ _ _ _ _) as [[[c|er] w]|] eqn:Ec; cbn in E; [| |done]; [|by simplify_eq].
  apply connect_namespace in Ec as [Hn Ht]. destruct (discover_tools _ _ _) as [[[l|er] c']|] eqn:Ed; cbn in E; [| |done].
  - apply discovered in Ed as [Hl' Hn']. pose proof (Registers _ l (tool_namespace cf name) _ Hi) as Hr.
    destruct (register_tools_with_avix _ _ _ _ _ _) as [[names|er] k'] eqn:Er; cbn in Hr; simplify_eq; cbn.
    + split; [done|]. assert (names = qualified (tool_namespace cf name) <$> tools c') as -> by (eapply registered_names; by rewrite Er).
      intros n d Hd Hh x Hx. cbn in *. apply lookup_insert_Some in Hd as [[<- <-]|[_ Hd]]; apply elem_of_app.
      * right. unfold tool_names in Hx. by rewrite Hn', Hn in Hx.
      * left. by apply (Hl n d).
    + rewrite app_nil_r in Hr. by split.
  - apply undiscovered in Ed. simplify_eq. split; [done|].
    intros n d Hd Hh x Hx. cbn in *. apply lookup_insert_Some in Hd as [[<- <-]|[_ Hd]]; [congruence|]. by apply (Hl n d).
Qed.
Lemma start_fold now es : forall s s', foldl (fun o e => s ← o; start_server patience spawn kcall uuid token now s e) (Some s) es = Some s' ->
  I (st_names s) (st_kernel s) -> listed s -> I (st_names s') (st_kernel s') /\ listed s'.
Proof.
  induction es as [|e es IH]; intros s s'; cbn; [by intros [= <-]|].
  destruct (start_server _ _ _ _ _ _ _ _) as [s1|] eqn:E.
  - intros F Hi Hl. destruct (start_server_keeps _ _ _ _ E Hi Hl). by apply (IH s1).
  - intros F. exfalso. clear -F. induction es; cbn in F; [done|auto].
Qed.
Lemma start_parts now cf b k w s : start patience spawn kcall uuid token now cf b k w = Some (Ok s) -> I [] k ->
  exists l k1, I l k1 /\ listed s /\ st_kernel s = (kcall k1 (tool_add uuid token meta_tool_descriptors k1)).2 /\
    st_names s = l ++ match (kcall k1 (tool_add uuid token meta_tool_descriptors k1)).1 with
                      | Ok r => match rs_error r with None => ALL_META_TOOLS | Some _ => [] end | Err _ => [] end.
Proof.
  unfold start. destruct (foldl _ _ _) as [s0|] eqn:E; cbn; [|done]. intros Hs Hi.
  apply start_fold in E as [Hi0 Hl0]; [|done|by intros n c]. unfold register_meta in Hs.
  exists (st_names s0), (st_kernel s0).
  destruct (kcall _ _) as [r k'] eqn:Er. destruct b; simplify_eq; cbn. split_and!; [done| |done|done].
  intros n c Hc Hh x Hx. cbn in *. apply elem_of_app. left. by apply (Hl0 n c).
Qed.
End Runs.

(** ** On the kernel's socket *)

Section OnTheKernel.
Context {SS IS C F Db D : Type} `{!SessionStoreI SS, !InvocationStoreI IS, !Mpsc Signal C, !UuidText}.
Context `{!FileOps F, !YamlText, !Redb Db, !Serde MessageRecord, !Serde PartRecord, !Disk D}.
Context {T : Type} `{!McpTransportIO T, !HashOrder} {W : Type}.
Variables (hmac : string -> string -> string) (syscalls : list CapabilityResolver.Syscall) (yaml_of_names : list string -> string).
Variables (cf : Config) (h : Host) (dr : Draw).
Variables (patience : nat) (spawn : W -> McpServerConfig -> result McpClientError T * W) (token : string).
Notation kernel := (Kernel (SS := SS) (IS := IS) (C := C) (F := F) (Db := Db) (D := D)).
Variable uuid : kernel -> string.

Definition on_kernel (k : kernel) (rq : JsonRpcRequest) : result AvixError JsonRpcResponse * kernel :=
  match KernelIpc.handle_message hmac syscalls yaml_of_names cf h dr (Request rq) k with
  | Some (Some r, k) => (Ok r, k)
  | _ => (Err (Io "no answer"), k)
  end.
Lemma add_refused specs k : on_kernel k (tool_add uuid token specs k) =
  (Ok (rpc_err (uuid k) (-32601) "unknown kernel method: ipc.tool-add" None), k).
Proof. reflexivity. Qed.

(** Started with the kernel's socket, as its environment variable says, the bridge gets no tool registered, not even
    its own: the kernel does not know the method.  It runs all the same, with no tool listed, and only servers without
    tools or whose listing failed stay connected. *)
Theorem bridge_registers_nothing now mcp b k w s :
  start patience spawn on_kernel uuid token now mcp b k w = Some (Ok s) ->
  st_names s = [] /\ st_kernel s = k /\
  (forall n c, st_conns s !! n = Some c -> is_healthy c = true -> tools c = []).
Proof.
  intros E. destruct (start_parts patience spawn on_kernel uuid token (fun l k' => l = [] /\ k' = k)) with (2 := E)
    as (l & k1 & [-> ->] & Hl & Hk & Hn); [|done|].
  - intros l ts ns k0 [-> ->]. unfold register_tools_with_avix. destruct ts as [|t ts]; [done|]. by rewrite add_refused.
  - rewrite add_refused in Hk, Hn. cbn in Hk, Hn. split_and!; [done..|]. intros n c Hc Hh. pose proof (Hl n c Hc Hh) as Hx.
    rewrite Hn in Hx. unfold tool_names in Hx.
    destruct (tools c) as [|t l]; [done|]. exfalso. apply (not_elem_of_nil (qualified (namespace c) t)). apply Hx. by left.
Qed.
End OnTheKernel.

(** ** On the service socket *)

(** A batch of tools added by one owner. *)
Lemma adds_owned svc es : forall r, owned_by svc es ->
  (forall n, n ∉ te_name <$> es -> inner (foldl add_one r es) !! n = inner r !! n) /\
  (forall n, n ∈ te_name <$> es -> exists x, inner (foldl add_one r es) !! n = Some x /\ te_owner (entry x) = svc).
Proof.
  induction es as [|e es IH]; intros r O; cbn [foldl fmap list_fmap]; [split; [done|set_solver]|].
  destruct (IH (add_one r e)) as [I1 I2]; [intros x Hx; apply O; by right|]. split.
  - intros n Hn. rewrite I1 by set_solver. unfold add_one. cbn. rewrite lookup_insert_ne by set_solver. done.
  - intros n Hn. destruct (decide (n ∈ te_name <$> es)) as [Hi|Hi]; [by apply I2|].
    assert (n = te_name e) as -> by set_solver. rewrite I1 by done. unfold add_one. cbn. rewrite lookup_insert_eq.
    eexists. split; [done|]. cbn. apply O. by left.
Qed.

(** What serde makes of the bridge's requests. *)
Record ReadsBridge (h : ServiceHost) : Prop := {
  rb_add tok (l : list (string * json)) :
    tool_add_of_value h (JObj [("_token", JStr tok);
      ("tools", JArr ((fun x => JObj [("name", JStr x.1); ("descriptor", x.2); ("visibility", JStr "all")]%string) <$> l))]%string)
    = Ok {| ta_token := tok; ta_tools := (fun x => {| ts_name := x.1; ts_descriptor := x.2; ts_visibility := SpecAll |}) <$> l |};
  rb_remove tok names reason drain :
    tool_remove_of_value h (JObj [("_token", JStr tok); ("tools", jstrs names); ("reason", JStr reason); ("drain", JBool drain)]%string)
    = Ok {| tr_token := tok; tr_tools := names; tr_reason := reason; tr_drain := drain |} }.

Section OnTheServiceSocket.
Context {B R : Type} `{!Broadcast ServiceEvent B R}.
Context {T : Type} `{!McpTransportIO T, !HashOrder} {W : Type}.
Variables (h : ServiceHost) (clock : Z).
Hypothesis Reads : ReadsBridge h.
Variables (patience : nat) (spawn : W -> McpServerConfig -> result McpClientError T * W) (token svc : string).
Notation manager := (ServiceManager (B := B)).
Variable uuid : manager -> string.

Definition on_services (m : manager) (rq : JsonRpcRequest) : result AvixError JsonRpcResponse * manager :=
  match Services.handle_message h clock (Request rq) m with
  | Some (Some r, m) => (Ok r, m)
  | _ => (Err (Io "no answer"), m)
  end.

(** The manager as a start finds it, with these names registered for the service in addition. *)
Definition with_tools (m0 : manager) (r0 : ToolRegistry) (names : list string) (m : manager) : Prop :=
  services m = services m0 /\ token_to_svc m = token_to_svc m0 /\ pid_counter m = pid_counter m0 /\
  exists r, Services.tool_registry m = Some r /\
    (forall n, n ∉ names -> inner r !! n = inner r0 !! n) /\
    (forall n, n ∈ names -> is_ok (ToolName.parse n) = true -> exists x, inner r !! n = Some x /\ te_owner (entry x) = svc).

Lemma tools_parse_same n n' : ToolName.parse n = Ok n' -> n' = n.
Proof. unfold ToolName.parse. repeat case_match; by intros [= <-]. Qed.

(** One registration, of tools given by name and descriptor. *)
Lemma add_request m0 r0 names m (l : list (string * json)) :
  token_to_svc m0 !! token = Some svc -> with_tools m0 r0 names m ->
  exists m', on_services m (tool_add uuid token ((fun x => JObj [("name", JStr x.1); ("descriptor", x.2); ("visibility", JStr "all")]%string) <$> l) m)
    = (Ok (rpc_ok (uuid m) (JObj [("added", JBool true)]%string)), m') /\ with_tools m0 r0 (names ++ l.*1) m'.
Proof.
  intros Ht (Hs & Hk & Hp & r & Hr & Hout & Hin).
  unfold on_services, Services.handle_message, Services.dispatch_request, tool_add. cbn [method params rq_id].
  change (String.eqb "ipc.tool-add" "ipc.register") with false. change (String.eqb "ipc.tool-add" "ipc.tool-add") with true. cbn iota.
  unfold ipc_tool_add. rewrite (rb_add h Reads). unfold handle_tool_add, validate_token. cbn [ta_token ta_tools].
  rewrite Hk, Ht. cbn [ok_or]. unfold add_tools. rewrite Hr. cbn.
  eexists. split; [reflexivity|]. split_and!; try done. eexists. split; [reflexivity|].
  set (specs := (fun x => {| ts_name := x.1; ts_descriptor := x.2; ts_visibility := SpecAll |}) <$> l).
  destruct (adds_owned svc (omap (spec_entry svc) specs) r (specs_owned svc specs)) as [A1 A2].
  assert (forall n, n ∈ te_name <$> omap (spec_entry svc) specs <-> n ∈ l.*1 /\ is_ok (ToolName.parse n) = true) as Hn.
  { intros n. rewrite list_elem_of_fmap. setoid_rewrite list_elem_of_omap. split.
    - intros (e & -> & s & Hsp & He). unfold specs in Hsp. apply list_elem_of_fmap in Hsp as (x & -> & Hx).
      unfold spec_entry in He. cbn in He. destruct (ToolName.parse x.1) as [y|] eqn:Ey; [|done].
      pose proof (tools_parse_same _ _ Ey) as ->. injection He as <-. cbn. rewrite Ey. split; [|done]. by apply list_elem_of_fmap_2.
    - intros [Hx Hp']. apply list_elem_of_fmap in Hx as (x & -> & Hx). apply is_ok_inv in Hp' as [y Ey].
      pose proof (tools_parse_same _ _ Ey) as ->.
      exists (default (entry_new x.1 svc Tool.Available Tool.All x.2)
        (spec_entry svc {| ts_name := x.1; ts_descriptor := x.2; ts_visibility := SpecAll |})).
      unfold spec_entry at 1. cbn [ts_name]. rewrite Ey. cbn [default]. split; [done|].
      exists {| ts_name := x.1; ts_descriptor := x.2; ts_visibility := SpecAll |}. split; [|unfold spec_entry; cbn; by rewrite Ey].
      unfold specs. apply list_elem_of_fmap. by exists x. }
  split.
  - intros n Hx. rewrite A1 by (rewrite Hn; set_solver). apply Hout. set_solver.
  - intros n Hx Hok. destruct (decide (n ∈ l.*1)) as [Hl|Hl]; [apply A2, Hn; by split|].
    rewrite A1 by (rewrite Hn; tauto). apply Hin; [|done]. apply elem_of_app in Hx as [|]; done.
Qed.

Lemma register_request m0 r0 names m ts ns : token_to_svc m0 !! token = Some svc -> with_tools m0 r0 names m ->
  exists m', register_tools_with_avix on_services uuid token ts ns m = (Ok (qualified ns <$> ts), m') /\
    with_tools m0 r0 (names ++ (qualified ns <$> ts)) m'.
Proof.
  intros Ht Hw. unfold register_tools_with_avix. destruct ts as [|t ts]; [exists m; by rewrite app_nil_r|].
  destruct (add_request m0 r0 names m ((fun t => (qualified ns t, JObj [("description", JStr (ti_description t)); ("streaming", JBool false);
    ("input_schema", ti_input_schema t)]%string)) <$> t :: ts) Ht Hw) as (m' & E & Hw').
  rewrite <- !list_fmap_compose in E, Hw'. change (tool_spec ns <$> t :: ts) with
    ((fun x => JObj [("name", JStr x.1); ("descriptor", x.2); ("visibility", JStr "all")]%string) ∘
     (fun t => (qualified ns t, JObj [("description", JStr (ti_description t)); ("streaming", JBool false);
       ("input_schema", ti_input_schema t)]%string)) <$> t :: ts). rewrite E. cbn. by exists m'.
Qed.
Definition meta_pairs : list (string * json) :=
  (fun j => (default EmptyString (jget j "name" ≫= as_str), jindex j "descriptor")) <$> meta_tool_descriptors.
Lemma meta_request m0 r0 names m : token_to_svc m0 !! token = Some svc -> with_tools m0 r0 names m ->
  exists m', on_services m (tool_add uuid token meta_tool_descriptors m) = (Ok (rpc_ok (uuid m) (JObj [("added", JBool true)]%string)), m') /\
    with_tools m0 r0 (names ++ ALL_META_TOOLS) m'.
Proof. exact (fun Ht Hw => add_request m0 r0 names m meta_pairs Ht Hw). Qed.

Lemma remove_request m0 r0 names m : token_to_svc m0 !! token = Some svc -> with_tools m0 r0 names m ->
  exists m' r, shutdown on_services uuid token names m = (Ok (), m') /\
    services m' = services m0 /\ token_to_svc m' = token_to_svc m0 /\ pid_counter m' = pid_counter m0 /\
    Services.tool_registry m' = Some r /\ forall n, inner r !! n = if decide (n ∈ names) then None else inner r0 !! n.
Proof.
  intros Ht (Hs & Hk & Hp & r & Hr & Hout & _). unfold shutdown, deregister_tools_from_avix. destruct names as [|n names].
  - exists m, r. split_and!; try done. intros n. rewrite decide_False by set_solver. apply Hout. set_solver.
  - unfold on_services, Services.handle_message, Services.dispatch_request. cbn [method params rq_id].
    change (String.eqb "ipc.tool-remove" "ipc.register") with false. change (String.eqb "ipc.tool-remove" "ipc.tool-add") with false.
    change (String.eqb "ipc.tool-remove" "ipc.tool-remove") with true. cbn iota.
    unfold ipc_tool_remove. rewrite (rb_remove h Reads). unfold handle_tool_remove, validate_token.
    cbn [tr_token tr_tools tr_reason tr_drain]. rewrite Hk, Ht. cbn [ok_or]. rewrite Hr. unfold ToolRegistry.remove.
    destruct (finish_remove r (n :: names) "mcp-bridge shutting down") as [r' ev] eqn:Ef.
    cbn. exists (with_registry m r' ev), r'. split_and!; try done.
    intros x. unfold finish_remove in Ef. pose proof (proj1 (remove_names_spec (inner r) (n :: names)) x) as Hx.
    destruct (remove_names (inner r) (n :: names)) as [mm removed]. injection Ef as <- _. cbn [inner set_inner]. cbn [fst] in Hx. rewrite Hx.
    destruct (decide (x ∈ n :: names)); [done|by apply Hout].
Qed.

End OnTheServiceSocket.

(** ** One server on both sockets *)

Module Toy.
Import Mem ToyUuid Invocations.Toy QueueMpsc Proc.Toy Lifecycle.Running.
#[local] Existing Instances KernelIpc.Toy.no_files KernelIpc.Toy.no_yaml KernelIpc.Toy.no_messages KernelIpc.Toy.no_parts.
Import McpBridge.Toy LogBroadcast.

Definition one_server : McpConfig := {| mcp_servers := {["github"%string := github]} |}.
Definition no_id {K} (k : K) : string := "1"%string.
Definition kernel_run :=
  start 9 spawned (on_kernel toy_mac [] (fun _ => EmptyString) KernelIpc.Toy.toy_config KernelIpc.Toy.toy_host KernelIpc.Toy.toy_draw) no_id "tok" 7 one_server
    (Ok ()) KernelIpc.Toy.idle_kernel 0%nat.
Lemma bridge_registers_nothing_witness : exists s, kernel_run = Some (Ok s) /\ st_names s = [].
Proof.
  assert (match kernel_run with Some (Ok s) => true | _ => false end = true) as Hb by (vm_compute; reflexivity).
  destruct kernel_run as [[s|]|] eqn:E; [|discriminate Hb|discriminate Hb]. exists s. split; [reflexivity|].
  apply (bridge_registers_nothing toy_mac [] (fun _ => EmptyString) KernelIpc.Toy.toy_config KernelIpc.Toy.toy_host KernelIpc.Toy.toy_draw
    9 spawned "tok" no_id 7 one_server (Ok ()) KernelIpc.Toy.idle_kernel 0%nat s E).
Defined.

(** Reading the two requests field by field. *)
Definition spec_of (j : json) : option IpcToolSpec :=
  n ← jget j "name" ≫= as_str; d ← jget j "descriptor"; _ ← jget j "visibility";
  Some {| ts_name := n; ts_descriptor := d; ts_visibility := SpecAll |}.
Definition reading_host : ServiceHost := {|
  tool_add_of_value j := ok_or "bad"%string
    (tok ← jget j "_token" ≫= as_str; l ← jget j "tools" ≫= as_array; ts ← mapM spec_of l; Some {| ta_token := tok; ta_tools := ts |});
  tool_remove_of_value j := ok_or "bad"%string
    (tok ← jget j "_token" ≫= as_str; l ← jget j "tools" ≫= as_array; ts ← mapM as_str l; r ← jget j "reason" ≫= as_str;
     d ← jget j "drain" ≫= as_bool; Some {| tr_token := tok; tr_tools := ts; tr_reason := r; tr_drain := d |});
  descriptors _ := Ok [] |}.
Lemma mapM_fmap {A B C} (f : B -> option C) (g : A -> B) (h : A -> C) l : (forall x, f (g x) = Some (h x)) -> mapM f (g <$> l) = Some (h <$> l).
Proof. intros E. induction l as [|x l IH]; [done|]. rewrite !fmap_cons. cbn [mapM]. rewrite E. cbn. by rewrite IH. Qed.
Ltac keys := repeat progress (cbn -[mapM]; eval_keys).
Lemma reading_reads : ReadsBridge reading_host.
Proof.
  constructor.
  - intros tok l. keys. by rewrite (mapM_fmap _ _ (fun x => {| ts_name := x.1; ts_descriptor := x.2; ts_visibility := SpecAll |})).
  - intros tok names reason drain. unfold jstrs. change (map JStr names) with (JStr <$> names). keys.
    rewrite (mapM_fmap _ _ (fun x => x)) by done. cbn. by rewrite list_fmap_id.
Qed.

Definition empty_manager : ServiceManager (B := LogBroadcast.log ServiceEvent) := manager_new "/run/avix" (Some empty_registry).
Definition bridge_manager : ServiceManager := (spawn_and_get_token "u" empty_manager
  {| rq_name := "mcp-bridge"; rq_binary := "mcp"; rq_caller_scoped := false; rq_max_concurrent := 20 |}).2.
Definition service_run := start 9 spawned (on_services reading_host 7) no_id "svc-token-u" 7 one_server (Ok ()) bridge_manager 0%nat.
End Toy.
