(* ===== verification/ClientAtp.v ===== *)
(** * The client's end of the terminal protocol

    Models [src/crates/avix-client-core/src/atp/]: the frames of [types.rs] as serde reads and writes them, the
    dispatcher that matches replies with calls ([dispatcher.rs]), the subscription of [client.rs] and the
    reconnecting [event_emitter.rs].  The dispatcher is a state machine whose steps are the points between its
    locks and awaits, so that calls, the reader task and timeouts interleave.  The theorems relate it to the server:
    a reply or an event the gateway serialises is read back, and the body the human-in-the-loop manager sends is the
    one the client knows.  JSON text is the interface of [Adapters]; the web socket, RFC 3339 text and the clock are
    arguments.  Keys of an object are taken to be distinct, as serde_json's writer makes them. *)

From S2P Require Import Prelude Types Text Adapters Auth EventBus Hil Gateway Json.
Local Open Scope Z_scope.

(** ** serde's derived readers *)

(** Field [i] of [n], called [k]: by name in an object, by position in an array. *)
Definition sfield (n i : nat) (k : string) (v : json) : option json :=
  match v with
  | JObj l => assoc_get k l
  | JArr l => if decide (length l = n) then l !! i else None
  | _ => None
  end.
(** [Option<T>]: absent or null is [None]. *)
Definition opt_of {A} (f : json -> option A) (x : option json) : option (option A) :=
  match x with None | Some JNull => Some None | Some y => Some <$> f y end.
(** A unit variant: its name, or an object with the one key. *)
Definition unit_variant (v : json) : option string :=
  match v with JStr s | JObj [(s, JNull)] | JObj [(s, JObj [])] => Some s | _ => None end.
Definition variant_of {A} (f : string -> option A) (v : json) : option A := unit_variant v ≫= f.
Definition int_within (lo hi : Z) (v : json) : option Z :=
  match v with JInt z => if decide (lo <= z <= hi) then Some z else None | _ => None end.
Definition u32_field : json -> option Z := int_within 0 u32_max.
Definition i32_field : json -> option Z := int_within (-2147483648) 2147483647.
Definition of_names {A} (name : A -> string) (l : list A) (s : string) : option A := find (fun a => String.eqb (name a) s) l.

(** ** [types.rs] *)

Module Wire.

Record Cmd : Type := { frame_type : string; domain : string; op : string; id : string; token : string; body : json }.
(** [uuid] is [Uuid::new_v4().to_string()]. *)
Definition cmd_new (uuid domain op token : string) (body : json) : Cmd :=
  {| frame_type := "cmd"; domain := domain; op := op; id := uuid; token := token; body := body |}.
Definition with_token (c : Cmd) (t : string) : Cmd :=
  {| frame_type := frame_type c; domain := domain c; op := op c; id := id c; token := t; body := body c |}.
Definition cmd_json (c : Cmd) : json :=
  JObj [("type", JStr (frame_type c)); ("domain", JStr (domain c)); ("op", JStr (op c)); ("id", JStr (id c));
        ("token", JStr (token c)); ("body", body c)]%string.

Record Subscribe : Type := { sub_type : string; sub_events : list string }.
Definition subscribe_json (s : Subscribe) : json :=
  JObj [("type", JStr (sub_type s)); ("events", jstrs (sub_events s))]%string.

Record Reply : Type := {
  rp_type : string; rp_id : string; rp_ok : bool; rp_code : option string; rp_message : option string;
  rp_body : option json; rp_error : option AtpError }.

Inductive EventKind : Type :=
| SessionReady | SessionClosing | TokenExpiring | AgentSpawned | AgentOutput | AgentStatus | AgentToolCall
| AgentToolResult | AgentExit | ProcStart | ProcSignal | HilRequest | HilResolved | FsChanged | ToolChanged
| CronFired | SysService | SysAlert | AgentOutputChunk.
#[global] Instance EventKind_eq_dec : EqDecision EventKind.
Proof. solve_decision. Defined.
Definition kind_name (k : EventKind) : string :=
  match k with
  | SessionReady => "session.ready" | SessionClosing => "session.closing" | TokenExpiring => "token.expiring"
  | AgentSpawned => "agent.spawned" | AgentOutput => "agent.output" | AgentStatus => "agent.status"
  | AgentToolCall => "agent.tool_call" | AgentToolResult => "agent.tool_result" | AgentExit => "agent.exit"
  | ProcStart => "proc.start" | ProcSignal => "proc.signal" | HilRequest => "hil.request"
  | HilResolved => "hil.resolved" | FsChanged => "fs.changed" | ToolChanged => "tool.changed"
  | CronFired => "cron.fired" | SysService => "sys.service" | SysAlert => "sys.alert"
  | AgentOutputChunk => "agent.output.chunk"
  end.
Definition kinds : list EventKind :=
  [SessionReady; SessionClosing; TokenExpiring; AgentSpawned; AgentOutput; AgentStatus; AgentToolCall;
   AgentToolResult; AgentExit; ProcStart; ProcSignal; HilRequest; HilResolved; FsChanged; ToolChanged;
   CronFired; SysService; SysAlert; AgentOutputChunk].
Definition kind_of_str : string -> option EventKind := of_names kind_name kinds.

Inductive AgentState : Type := Running | Paused | Stopped | Crashed.
#[global] Instance AgentState_eq_dec : EqDecision AgentState.
Proof. solve_decision. Defined.
Definition agent_state_name (s : AgentState) : string :=
  match s with Running => "running" | Paused => "paused" | Stopped => "stopped" | Crashed => "crashed" end.
Definition agent_state_of : string -> option AgentState := of_names agent_state_name [Running; Paused; Stopped; Crashed].

Inductive HilOutcome : Type := Approved | Denied | Timeout.
#[global] Instance HilOutcome_eq_dec : EqDecision HilOutcome.
Proof. solve_decision. Defined.
Definition outcome_name (o : HilOutcome) : string :=
  match o with Approved => "approved" | Denied => "denied" | Timeout => "timeout" end.
Definition outcome_of : string -> option HilOutcome := of_names outcome_name [Approved; Denied; Timeout].

Record SessionReadyBody : Type := { sr_session_id : string; sr_role : string }.
Record AgentSpawnedBody : Type := { sp_pid : string; sp_name : string; sp_goal : string; sp_session_id : string }.
Record AgentOutputBody : Type := { ao_pid : string; ao_text : string }.
Record AgentOutputChunkBody : Type := {
  ch_pid : string; ch_session_id : string; ch_turn_id : string; ch_text_delta : string; ch_seq : Z; ch_is_final : bool }.
Record AgentStatusBody : Type := { st_pid : string; st_status : AgentState }.
Record AgentExitBody : Type := { ex_pid : string; ex_exit_code : Z }.
Record HilRequestBody : Type := {
  hb_hil_id : string; hb_pid : Z; hb_session_id : string; hb_approval_token : string; hb_hil_type : string;
  hb_tool : option string; hb_reason : option string; hb_prompt : string; hb_timeout_secs : Z; hb_urgency : string }.
Record HilResolvedBody : Type := {
  hs_hil_id : string; hs_pid : Z; hs_session_id : string; hs_outcome : HilOutcome; hs_resolved_by : string;
  hs_resolved_at : Z }.
Record SysAlertBody : Type := { al_level : string; al_message : string }.

Inductive EventBody : Type :=
| BSessionReady (b : SessionReadyBody) | BAgentSpawned (b : AgentSpawnedBody) | BAgentOutput (b : AgentOutputBody)
| BAgentOutputChunk (b : AgentOutputChunkBody) | BAgentStatus (b : AgentStatusBody) | BAgentExit (b : AgentExitBody)
| BHilRequest (b : HilRequestBody) | BHilResolved (b : HilResolvedBody) | BSysAlert (b : SysAlertBody) | BRaw (v : json).
Definition as_hil_request (b : EventBody) : option HilRequestBody :=
  match b with BHilRequest x => Some x | _ => None end.

Record Event : Type := {
  ev_type : string; ev_kind : EventKind; ev_owner_session : option string; ev_seq : Z; ev_body : EventBody }.
Inductive Frame : Type := FReply (r : Reply) | FEvent (e : Event).

(** *** Reading *)

Definition session_ready_of (v : json) : option SessionReadyBody :=
  s ← sfield 2 0 "session_id" v ≫= as_str; r ← sfield 2 1 "role" v ≫= as_str;
  Some {| sr_session_id := s; sr_role := r |}.
Definition agent_spawned_of (v : json) : option AgentSpawnedBody :=
  p ← sfield 4 0 "pid" v ≫= as_str; n ← sfield 4 1 "name" v ≫= as_str; g ← sfield 4 2 "goal" v ≫= as_str;
  s ← sfield 4 3 "sessionId" v ≫= as_str;
  Some {| sp_pid := p; sp_name := n; sp_goal := g; sp_session_id := s |}.
Definition agent_output_of (v : json) : option AgentOutputBody :=
  p ← sfield 2 0 "pid" v ≫= as_str; t ← sfield 2 1 "text" v ≫= as_str; Some {| ao_pid := p; ao_text := t |}.
(** [session_id] defaults when absent. *)
Definition agent_output_chunk_of (v : json) : option AgentOutputChunkBody :=
  p ← sfield 6 0 "pid" v ≫= as_str;
  s ← match sfield 6 1 "session_id" v with None => Some EmptyString | Some x => as_str x end;
  t ← sfield 6 2 "turn_id" v ≫= as_str; d ← sfield 6 3 "text_delta" v ≫= as_str; n ← sfield 6 4 "seq" v ≫= as_u64;
  f ← sfield 6 5 "is_final" v ≫= as_bool;
  Some {| ch_pid := p; ch_session_id := s; ch_turn_id := t; ch_text_delta := d; ch_seq := n; ch_is_final := f |}.
Definition agent_status_of (v : json) : option AgentStatusBody :=
  p ← sfield 2 0 "pid" v ≫= as_str; s ← sfield 2 1 "status" v ≫= variant_of agent_state_of;
  Some {| st_pid := p; st_status := s |}.
Definition agent_exit_of (v : json) : option AgentExitBody :=
  p ← sfield 2 0 "pid" v ≫= as_str; c ← sfield 2 1 "exitCode" v ≫= i32_field; Some {| ex_pid := p; ex_exit_code := c |}.
Definition hil_request_of (v : json) : option HilRequestBody :=
  h ← sfield 10 0 "hil_id" v ≫= as_str; p ← sfield 10 1 "pid" v ≫= as_u64; s ← sfield 10 2 "session_id" v ≫= as_str;
  a ← sfield 10 3 "approval_token" v ≫= as_str; ty ← sfield 10 4 "hil_type" v ≫= as_str;
  tl ← opt_of as_str (sfield 10 5 "tool" v); w ← opt_of as_str (sfield 10 6 "reason" v);
  pr ← sfield 10 7 "prompt" v ≫= as_str; t ← sfield 10 8 "timeout_secs" v ≫= u32_field; u ← sfield 10 9 "urgency" v ≫= as_str;
  Some {| hb_hil_id := h; hb_pid := p; hb_session_id := s; hb_approval_token := a; hb_hil_type := ty; hb_tool := tl;
          hb_reason := w; hb_prompt := pr; hb_timeout_secs := t; hb_urgency := u |}.
(** [instant_of] reads an RFC 3339 text. *)
Definition hil_resolved_of (instant_of : json -> option Z) (v : json) : option HilResolvedBody :=
  h ← sfield 6 0 "hil_id" v ≫= as_str; p ← sfield 6 1 "pid" v ≫= as_u64; s ← sfield 6 2 "session_id" v ≫= as_str;
  o ← sfield 6 3 "outcome" v ≫= variant_of outcome_of; b ← sfield 6 4 "resolved_by" v ≫= as_str;
  t ← sfield 6 5 "resolved_at" v ≫= instant_of;
  Some {| hs_hil_id := h; hs_pid := p; hs_session_id := s; hs_outcome := o; hs_resolved_by := b; hs_resolved_at := t |}.
Definition sys_alert_of (v : json) : option SysAlertBody :=
  l ← sfield 2 0 "level" v ≫= as_str; m ← sfield 2 1 "message" v ≫= as_str; Some {| al_level := l; al_message := m |}.

(** The untagged union: the first reader that accepts, else the value itself. *)
Definition body_of (instant_of : json -> option Z) (v : json) : EventBody :=
  match session_ready_of v with Some b => BSessionReady b | None =>
  match agent_spawned_of v with Some b => BAgentSpawned b | None =>
  match agent_output_of v with Some b => BAgentOutput b | None =>
  match agent_output_chunk_of v with Some b => BAgentOutputChunk b | None =>
  match agent_status_of v with Some b => BAgentStatus b | None =>
  match agent_exit_of v with Some b => BAgentExit b | None =>
  match hil_request_of v with Some b => BHilRequest b | None =>
  match hil_resolved_of instant_of v with Some b => BHilResolved b | None =>
  match sys_alert_of v with Some b => BSysAlert b | None => BRaw v
  end end end end end end end end end.

Definition error_code_name (c : AtpErrorCode) : string :=
  match c with
  | Eauth => "EAUTH" | Eexpired => "EEXPIRED" | Esession => "ESESSION" | Eperm => "EPERM" | Enotfound => "ENOTFOUND"
  | Econflict => "ECONFLICT" | Eused => "EUSED" | Elimit => "ELIMIT" | Eparse => "EPARSE" | Einternal => "EINTERNAL"
  | Eunavail => "EUNAVAIL"
  end.
Definition error_codes : list AtpErrorCode :=
  [Eauth; Eexpired; Esession; Eperm; Enotfound; Econflict; Eused; Elimit; Eparse; Einternal; Eunavail].
Definition error_code_of : string -> option AtpErrorCode := of_names error_code_name error_codes.
Definition atp_error_of (v : json) : option AtpError :=
  c ← sfield 3 0 "code" v ≫= variant_of error_code_of; m ← sfield 3 1 "message" v ≫= as_str;
  d ← opt_of Some (sfield 3 2 "detail" v);
  Some {| code := c; message := m; detail := d |}.

(** The frame's own type is not read: the tag chose the variant. *)
Definition reply_of (v : json) : option Reply :=
  i ← sfield 6 0 "id" v ≫= as_str; o ← sfield 6 1 "ok" v ≫= as_bool; c ← opt_of as_str (sfield 6 2 "code" v);
  m ← opt_of as_str (sfield 6 3 "message" v); b ← opt_of Some (sfield 6 4 "body" v); e ← opt_of atp_error_of (sfield 6 5 "error" v);
  Some {| rp_type := EmptyString; rp_id := i; rp_ok := o; rp_code := c; rp_message := m; rp_body := b; rp_error := e |}.
Definition event_of (instant_of : json -> option Z) (v : json) : option Event :=
  k ← sfield 4 0 "event" v ≫= variant_of kind_of_str; s ← opt_of as_str (sfield 4 1 "sessionId" v);
  n ← sfield 4 2 "seq" v ≫= as_u64; b ← sfield 4 3 "body" v;
  Some {| ev_type := EmptyString; ev_kind := k; ev_owner_session := s; ev_seq := n; ev_body := body_of instant_of b |}.
(** The tag, and what is left to read. *)
Definition tagged (v : json) : option (string * json) :=
  match v with
  | JObj l => t ← assoc_get "type" l ≫= as_str; Some (t, v)
  | JArr (JStr t :: l) => Some (t, JArr l)
  | _ => None
  end.
Definition frame_of (instant_of : json -> option Z) (v : json) : option Frame :=
  '(t, c) ← tagged v;
  if String.eqb t "reply" then FReply <$> reply_of c
  else if String.eqb t "event" then FEvent <$> event_of instant_of c else None.

Record LoginRequest : Type := { identity : string; credential : string }.
Record LoginResponse : Type := { lr_token : string; expires_at : string; lr_session_id : string }.
Definition login_request_json (r : LoginRequest) : json :=
  JObj [("identity", JStr (identity r)); ("credential", JStr (credential r))]%string.
Definition login_response_of (v : json) : option LoginResponse :=
  t ← sfield 3 0 "token" v ≫= as_str; e ← sfield 3 1 "expiresAt" v ≫= as_str; s ← sfield 3 2 "sessionId" v ≫= as_str;
  Some {| lr_token := t; expires_at := e; lr_session_id := s |}.

End Wire.

(** ** What the server writes *)

Definition atp_error_json (e : AtpError) : json :=
  JObj (app [("code", JStr (Wire.error_code_name (code e))); ("message", JStr (message e))]%string
            (match detail e with Some d => [("detail", d)]%string | None => [] end)).
Definition reply_json (r : AtpReply) : json :=
  JObj (app [("type", JStr (Gateway.rp_type r)); ("id", JStr (Gateway.rp_id r)); ("ok", JBool (Gateway.rp_ok r))]%string
       (app (match Gateway.rp_body r with Some b => [("body", b)]%string | None => [] end)
            (match Gateway.rp_error r with Some e => [("error", atp_error_json e)]%string | None => [] end))).
(** [ts_json] is the text of an instant. *)
Definition event_json (ts_json : Z -> json) (e : AtpEvent) : json :=
  JObj [("type", JStr (EventBus.msg_type e)); ("seq", JInt (seq e)); ("event", JStr (kind_str (event e)));
        ("sessionId", JStr (ev_session e)); ("ts", ts_json (ts e)); ("body", ev_body e)]%string.

(** *** A name table reads back its names *)

Lemma of_names_spec {A} (name : A -> string) l a :
  (forall x y, name x = name y -> x = y) -> a ∈ l -> of_names name l (name a) = Some a.
Proof.
  intros Hinj Ha. unfold of_names. induction l as [|b l IH]; [by apply elem_of_nil in Ha|]. cbn.
  destruct (String.eqb_spec (name b) (name a)) as [E|E]; [by apply Hinj in E as ->|].
  apply elem_of_cons in Ha as [->|Ha]; [done|]. by apply IH.
Qed.
Lemma of_names_name {A} (name : A -> string) l s a : of_names name l s = Some a -> s = name a.
Proof. unfold of_names. by intros [_ E%String.eqb_eq]%find_some. Qed.
Lemma error_code_back c : Wire.error_code_of (Wire.error_code_name c) = Some c.
Proof. by destruct c. Qed.
Lemma kind_back k : Wire.kind_of_str (Wire.kind_name k) = Some k.
Proof. by destruct k. Qed.

(** The value an optional field holds after a trip: null is absent. *)
Definition non_null (o : option json) : option json := match o with Some JNull => None | _ => o end.
Definition trip_error (e : AtpError) : AtpError := {| code := code e; message := message e; detail := non_null (detail e) |}.

Lemma opt_of_Some o : opt_of Some o = Some (non_null o).
Proof. by destruct o as [[]|]. Qed.

Lemma atp_error_trip e : Wire.atp_error_of (atp_error_json e) = Some (trip_error e).
Proof. by destruct e as [[] m [[]|]]. Qed.
Lemma opt_error_trip e : opt_of Wire.atp_error_of (Some (atp_error_json e)) = Some (Some (trip_error e)).
Proof. unfold opt_of. unfold atp_error_json at 1. cbn iota. by rewrite atp_error_trip. Qed.

(** A reply the gateway serialises is read back by the client: same id, same verdict, same body and error, except
    that a null body is no body. *)
Lemma reply_wire instant_of r : Gateway.rp_type r = "reply"%string ->
  Wire.frame_of instant_of (reply_json r) = Some (Wire.FReply {|
    Wire.rp_type := EmptyString; Wire.rp_id := Gateway.rp_id r; Wire.rp_ok := Gateway.rp_ok r; Wire.rp_code := None;
    Wire.rp_message := None; Wire.rp_body := non_null (Gateway.rp_body r); Wire.rp_error := trip_error <$> Gateway.rp_error r |}).
Proof.
  destruct r as [ty i o b e]. cbn. intros ->. unfold Wire.frame_of, reply_json.
  assert (He : forall x, opt_of Wire.atp_error_of (atp_error_json <$> x) = Some (trip_error <$> x))
    by (intros [x|]; [apply opt_error_trip | done]).
  transitivity (e' ← opt_of Wire.atp_error_of (atp_error_json <$> e); b' ← opt_of Some b;
    Some (Wire.FReply {| Wire.rp_type := EmptyString; Wire.rp_id := i; Wire.rp_ok := o; Wire.rp_code := None;
      Wire.rp_message := None; Wire.rp_body := b'; Wire.rp_error := e' |})).
  - by destruct b as [[]|], e as [[[] ? [[]|]]|].
  - by rewrite He, opt_of_Some.
Qed.

(** An event is read back too, with its body through the untagged union, unless its kind is one of the five the
    client has no name for: those frames are not read at all. *)
Lemma event_wire instant_of ts_json e : EventBus.msg_type e = "event"%string -> is_u64 (seq e) ->
  Wire.frame_of instant_of (event_json ts_json e) =
  (fun k => Wire.FEvent {| Wire.ev_type := EmptyString; Wire.ev_kind := k; Wire.ev_owner_session := Some (ev_session e);
     Wire.ev_seq := seq e; Wire.ev_body := Wire.body_of instant_of (ev_body e) |}) <$> Wire.kind_of_str (kind_str (event e)).
Proof.
  destruct e as [ty n k s t b]. cbn [EventBus.msg_type seq event ev_session ev_body]. intros -> Hn.
  transitivity (Wire.FEvent <$> (k' ← Wire.kind_of_str (kind_str k); n' ← as_u64 (JInt n);
    Some {| Wire.ev_type := EmptyString; Wire.ev_kind := k'; Wire.ev_owner_session := Some s;
      Wire.ev_seq := n'; Wire.ev_body := Wire.body_of instant_of b |})); [reflexivity|].
  unfold as_u64. rewrite decide_True by done. by destruct k.
Qed.

Lemma unread_kinds k : Wire.kind_of_str (kind_str k) = None <->
  k ∈ [SessionAgentAttached; SessionAgentDetached; SessionStatusChanged; ProcOutput; ProcExit].
Proof.
  split; [destruct k; try done; intros _; by apply (bool_decide_unpack _)|].
  rewrite !elem_of_cons. intros [->|[->|[->|[->|[->|Hn]]]]]; [done..|]. by apply elem_of_nil in Hn.
Qed.

Lemma as_u64_int n : is_u64 n -> as_u64 (JInt n) = Some n.
Proof. intros. cbn. by rewrite decide_True. Qed.

(** The bodies the human-in-the-loop manager sends are the client's own. *)
Lemma hil_request_body_known instant_of now r : is_u64 (hr_pid r) ->
  Wire.body_of instant_of (Hil.request_body now r) = Wire.BHilRequest {|
    Wire.hb_hil_id := hil_id r; Wire.hb_pid := hr_pid r; Wire.hb_session_id := atp_session_id r;
    Wire.hb_approval_token := approval_token r; Wire.hb_hil_type := hil_type_str (hil_type r); Wire.hb_tool := tool r;
    Wire.hb_reason := reason r; Wire.hb_prompt := Hil.prompt r; Wire.hb_timeout_secs := timeout_left now r;
    Wire.hb_urgency := urgency_str (urgency r) |}.
Proof.
  intros Hp. set (b := Wire.Build_HilRequestBody _ _ _ _ _ _ _ _ _ _).
  assert (Hr : Wire.hil_request_of (Hil.request_body now r) = Some b).
  { transitivity (p ← as_u64 (JInt (hr_pid r)); tl ← opt_of as_str (Some (jopt JStr (tool r)));
      w ← opt_of as_str (Some (jopt JStr (reason r))); t ← u32_field (JInt (timeout_left now r));
      Some (Wire.Build_HilRequestBody (hil_id r) p (atp_session_id r) (approval_token r) (hil_type_str (hil_type r)) tl w
        (Hil.prompt r) t (urgency_str (urgency r)))); [reflexivity|].
    rewrite as_u64_int by done. unfold u32_field, int_within. rewrite decide_True.
    - by destruct r as [? ? ? ? ? ? [] ? [] ? ? ? ? ? ? ? ?].
    - unfold timeout_left. pose proof (Z.mod_pos_bound (Z.max 0 (Z.quot (expires_at r - now) 1000000000)) (u32_max + 1)). unfold u32_max in *. lia. }
  transitivity (match Wire.hil_request_of (Hil.request_body now r) with
    | Some b => Wire.BHilRequest b | None => Wire.body_of instant_of (Hil.request_body now r) end); [|by rewrite Hr].
  unfold Wire.body_of. by rewrite Hr.
Qed.
Lemma hil_resolved_body_known instant_of instant_json now id outcome o by_ t z :
  is_u64 (tg_pid t) -> Wire.outcome_of outcome = Some o -> instant_of (instant_json now) = Some z ->
  Wire.body_of instant_of (ev_body (Hil.resolved_event instant_json now id outcome by_ t)) = Wire.BHilResolved {|
    Wire.hs_hil_id := id; Wire.hs_pid := tg_pid t; Wire.hs_session_id := tg_session t; Wire.hs_outcome := o;
    Wire.hs_resolved_by := by_; Wire.hs_resolved_at := z |}.
Proof.
  intros Hp Ho Hi. set (v := ev_body _). set (b := Wire.Build_HilResolvedBody _ _ _ _ _ _).
  assert (Hr : Wire.hil_resolved_of instant_of v = Some b).
  { transitivity (p ← as_u64 (JInt (tg_pid t)); o ← Wire.outcome_of outcome; z ← instant_of (instant_json now);
      Some (Wire.Build_HilResolvedBody id p (tg_session t) o by_ z)); [reflexivity|].
    by rewrite as_u64_int, Ho, Hi. }
  assert (Hn : Wire.hil_request_of v = None).
  { transitivity (p ← as_u64 (JInt (tg_pid t)); @None Wire.HilRequestBody); [reflexivity|]. by destruct (as_u64 _). }
  unfold Wire.body_of. by rewrite Hn, Hr.
Qed.

(** ** [error.rs] *)

Inductive ClientError : Type :=
| EHttp (m : string) | EWebSocket (m : string) | EJson (m : string) | EAtp (code message : string)
| ENotConnected | ETimeout | EOther (m : string).
#[global] Instance ClientError_eq_dec : EqDecision ClientError.
Proof. solve_decision. Defined.
Definition client_error_text (e : ClientError) : string :=
  match e with
  | EHttp m => "HTTP error: " +:+ m | EWebSocket m => "WebSocket error: " +:+ m | EJson m => "JSON error: " +:+ m
  | EAtp c m => "ATP error " +:+ c +:+ ": " +:+ m | ENotConnected => "Not connected" | ETimeout => "Timeout"
  | EOther m => m
  end%string.

(** ** [dispatcher.rs] *)

Module Dispatcher.
Section Dispatcher.
Context {JT : JsonStr}.
Variable instant_of : json -> option Z.

(** What the reader's stream yields; [Closed] is its end, an error, or a close frame. *)
Inductive Message : Type := Text (s : string) | Closed | OtherMessage.
(** A oneshot channel, and where a call is. *)
Inductive Oneshot : Type := Empty | Full (r : Wire.Reply) | Dropped.
Inductive Phase : Type := Registered | Waiting | Done (r : result ClientError Wire.Reply).
Record Call : Type := { cmd : Wire.Cmd; phase : Phase; chan : Oneshot }.
(** [pending] holds the sender of the oneshot of a call, under the command's id. *)
Record t : Type := {
  pending : gmap string nat; calls : gmap nat Call; reading : bool; sent : list string; published : list Wire.Event }.
Definition new : t := {| pending := ∅; calls := ∅; reading := true; sent := []; published := [] |}.

Definition with_chan (o : Oneshot) (c : Call) : Call := {| cmd := cmd c; phase := phase c; chan := o |}.
Definition with_phase (p : Phase) (c : Call) : Call := {| cmd := cmd c; phase := p; chan := chan c |}.
(** A sender that is dropped unused closes its channel. *)
Definition drop_sender (c : Call) : Call := match chan c with Empty => with_chan Dropped c | _ => c end.

(** The steps: a call registers its oneshot; its text is sent, or is refused; the reader handles a message; a call is
    polled, with its thirty seconds over or not. *)
Inductive Ev : Type :=
| Begin (w : nat) (c : Wire.Cmd) | Send (w : nat) (r : result string unit) | Recv (m : Message) | Poll (w : nat) (expired : bool).

Definition begin (d : t) (w : nat) (c : Wire.Cmd) : t := {|
  pending := <[Wire.id c := w]> (pending d);
  calls := <[w := {| cmd := c; phase := Registered; chan := Empty |}]>
    (match pending d !! Wire.id c with Some w0 => alter drop_sender w0 (calls d) | None => calls d end);
  reading := reading d; sent := sent d; published := published d |}.
Definition set_calls (d : t) m : t :=
  {| pending := pending d; calls := m; reading := reading d; sent := sent d; published := published d |}.
Definition read_text (s : string) : option Wire.Frame :=
  match json_parse s with Ok v => Wire.frame_of instant_of v | Err _ => None end.
Definition recv (d : t) (m : Message) : t :=
  match m with
  | Closed => {| pending := pending d; calls := calls d; reading := false; sent := sent d; published := published d |}
  | OtherMessage => d
  | Text s =>
      match read_text s with
      | None => d
      | Some (Wire.FEvent e) =>
          {| pending := pending d; calls := calls d; reading := reading d; sent := sent d; published := published d ++ [e] |}
      | Some (Wire.FReply r) =>
          match pending d !! Wire.rp_id r with
          | None => d
          | Some w => {| pending := base.delete (Wire.rp_id r) (pending d); calls := alter (with_chan (Full r)) w (calls d);
                         reading := reading d; sent := sent d; published := published d |}
          end
      end
  end.
(** [timeout(30s, rx)]: the channel is looked at first. *)
Definition poll (c : Call) (expired : bool) : Call :=
  match chan c with
  | Full r => with_phase (Done (Ok r)) c
  | Dropped => with_phase (Done (Err (EOther "oneshot cancelled: channel closed"))) c
  | Empty => if expired then with_phase (Done (Err ETimeout)) c else c
  end.
(** [None]: the step cannot happen. *)
Definition step (d : t) (e : Ev) : option t :=
  match e with
  | Begin w c => match calls d !! w with Some _ => None | None => Some (begin d w c) end
  | Send w r =>
      c ← calls d !! w;
      match phase c with
      | Registered =>
          Some (match r with
                | Ok _ => {| pending := pending d; calls := <[w := with_phase Waiting c]> (calls d); reading := reading d;
                             sent := sent d ++ [json_str (Wire.cmd_json (cmd c))]; published := published d |}
                | Err m => set_calls d (<[w := with_phase (Done (Err (EWebSocket m))) c]> (calls d))
                end)
      | _ => None
      end
  | Recv m => if reading d then Some (recv d m) else None
  | Poll w expired =>
      c ← calls d !! w; match phase c with Waiting => Some (set_calls d (<[w := poll c expired]> (calls d))) | _ => None end
  end.
Fixpoint run (d : t) (es : list Ev) : option t :=
  match es with [] => Some d | e :: es => d ← step d e; run d es end.

(** *** Every caller gets the reply to its own command *)

(** What a finished call gave is what its channel holds. *)
Definition settled (c : Call) : Prop :=
  match phase c with
  | Done (Ok r) => chan c = Full r
  | Done (Err (EOther _)) => chan c = Dropped
  | _ => True
  end.
(** An empty channel has its sender in [pending], and [pending] holds nothing else; a reply in a channel carries the id
    of the call's command. *)
Record inv (d : t) : Prop := {
  inv_pending i w : pending d !! i = Some w <-> exists c, calls d !! w = Some c /\ Wire.id (cmd c) = i /\ chan c = Empty;
  inv_chan w c r : calls d !! w = Some c -> chan c = Full r -> Wire.rp_id r = Wire.id (cmd c);
  inv_done w c : calls d !! w = Some c -> settled c }.

Lemma inv_new : inv new.
Proof.
  split; cbn; [|by intros w c r ?%lookup_empty_Some|by intros w c ?%lookup_empty_Some].
  intros i w. split; [by intros ?%lookup_empty_Some|]. by intros (c & ?%lookup_empty_Some & _).
Qed.

(** Changing only the phase of a call, to one its channel agrees with. *)
Lemma inv_phase d w c p : inv d -> calls d !! w = Some c -> settled (with_phase p c) ->
  forall snt pub rd, inv {| pending := pending d; calls := <[w := with_phase p c]> (calls d); reading := rd; sent := snt; published := pub |}.
Proof.
  intros [Hp Hc Hd] Hw Hs snt pub rd. split; cbn.
  - intros i w'. rewrite Hp. split; intros (c' & H1 & H2 & H3).
    + destruct (decide (w' = w)) as [->|]; [|exists c'; by rewrite lookup_insert_ne].
      assert (c' = c) as -> by congruence. exists (with_phase p c). by rewrite lookup_insert_eq.
    + destruct (decide (w' = w)) as [->|]; [|rewrite lookup_insert_ne in H1 by done; by exists c'].
      rewrite lookup_insert_eq in H1. injection H1 as <-. by exists c.
  - intros w' c' r [[<- <-]|[? ?]]%lookup_insert_Some; cbn; eauto.
  - intros w' c' [[<- <-]|[? ?]]%lookup_insert_Some; cbn; eauto.
Qed.

(** The other calls when the sender of a pending id is replaced. *)
Definition displaced (d : t) (i : string) : gmap nat Call :=
  match pending d !! i with Some w0 => alter drop_sender w0 (calls d) | None => calls d end.
Lemma displaced_lookup d i w c' : displaced d i !! w = Some c' -> exists c, calls d !! w = Some c /\ cmd c' = cmd c /\
  phase c' = phase c /\ (pending d !! i <> Some w /\ c' = c \/ pending d !! i = Some w /\ c' = drop_sender c).
Proof.
  unfold displaced. destruct (pending d !! i) as [w0|] eqn:E; [|intros H; exists c'; naive_solver].
  rewrite lookup_alter_Some. intros [(<- & c & Hc & ->)|(Hne & H)]; [|exists c'; naive_solver].
  exists c. split; [done|]. unfold drop_sender. destruct (chan c) eqn:Eq; repeat (split; [done|]); right; by rewrite ?Eq.
Qed.
Lemma displaced_other d i w c : calls d !! w = Some c -> pending d !! i <> Some w -> displaced d i !! w = Some c.
Proof.
  intros Hc Hn. unfold displaced. destruct (pending d !! i) as [w0|] eqn:E; [|done].
  rewrite lookup_alter_ne; [done|]. congruence.
Qed.

Lemma inv_begin d w c : inv d -> calls d !! w = None -> inv (begin d w c).
Proof.
  intros [Hp Hc Hd] Hw. split; cbn; change (match pending d !! Wire.id c with Some w0 => _ | None => _ end) with (displaced d (Wire.id c)).
  - intros i w'. split.
    + intros [[<- <-]|[Hi H]]%lookup_insert_Some; [eexists; by rewrite lookup_insert_eq|].
      apply Hp in H as (c' & H1 & H2 & H3). exists c'. rewrite lookup_insert_ne by congruence.
      split; [|done]. apply displaced_other; [done|]. intros (c2 & ? & ? & _)%Hp. congruence.
    + intros (c' & [[<- <-]|[Hne H]]%lookup_insert_Some & H2 & H3); [cbn in H2; subst; by rewrite lookup_insert_eq|].
      apply displaced_lookup in H as (c2 & Hc2 & E1 & _ & [[Hn ->]|[_ ->]]).
      * rewrite lookup_insert_ne; [apply Hp; by exists c2|]. intros <-. apply Hn, Hp. by exists c2.
      * unfold drop_sender in H3. by destruct (chan c2) eqn:E; rewrite ?E in H3.
  - intros w' c' r [[<- <-]|[Hne H]]%lookup_insert_Some; [done|].
    apply displaced_lookup in H as (c2 & Hc2 & -> & _ & [[_ ->]|[_ ->]]); [eauto|].
    unfold drop_sender. destruct (chan c2) eqn:E; [done| |by rewrite E]. rewrite E. intros [= <-]. eauto.
  - intros w' c' [[<- <-]|[Hne H]]%lookup_insert_Some; [done|].
    apply displaced_lookup in H as (c2 & Hc2 & _ & E & [[_ ->]|[_ ->]]); [eauto|]. apply Hd in Hc2. revert Hc2.
    unfold settled. rewrite E. unfold drop_sender. destruct (chan c2) eqn:E2; [|by rewrite E2..].
    by destruct (phase c2) as [| |[?|[]]].
Qed.

Lemma inv_deliver d w c r : inv d -> pending d !! Wire.rp_id r = Some w -> calls d !! w = Some c ->
  inv {| pending := base.delete (Wire.rp_id r) (pending d); calls := alter (with_chan (Full r)) w (calls d);
         reading := reading d; sent := sent d; published := published d |}.
Proof.
  intros [Hp Hc Hd] Hw Hcw. assert (Wire.id (cmd c) = Wire.rp_id r /\ chan c = Empty) as [Hid He]
    by (apply Hp in Hw as (c' & ? & ? & ?); by simplify_eq).
  split; cbn.
  - intros i w'. rewrite lookup_delete_Some, Hp. split.
    + intros (Hne & c' & H1 & H2 & H3). exists c'. rewrite lookup_alter_ne by congruence. done.
    + intros (c' & [(<- & c2 & H1 & ->)|[Hne H]]%lookup_alter_Some & H2 & H3); [done|].
      split; [|by exists c']. intros <-. assert (pending d !! Wire.rp_id r = Some w') by (apply Hp; by exists c'). congruence.
  - intros w' c' r' [(<- & c2 & H1 & ->)|[Hne H]]%lookup_alter_Some; [|eauto]. cbn. intros [= <-]. congruence.
  - intros w' c' [(<- & c2 & H1 & ->)|[Hne H]]%lookup_alter_Some; [|eauto]. apply Hd in H1 as Hs. simplify_eq.
    unfold settled in *. cbn. rewrite He in Hs. by destruct (phase c) as [| |[?|[]]].
Qed.

Lemma dispatcher_step d e d' : inv d -> step d e = Some d' -> inv d'.
Proof.
  intros Hi. destruct e as [w c|w r|m|w x]; cbn.
  - destruct (calls d !! w) eqn:E; [done|]. intros [= <-]. by apply inv_begin.
  - destruct (calls d !! w) as [c|] eqn:E; [cbn|done]. destruct (phase c); try done.
    destruct r; intros [= <-]; by apply inv_phase.
  - destruct (reading d); [|done]. intros [= <-]. destruct m as [s| |]; cbn; [|by destruct Hi|done].
    destruct (read_text s) as [[r|e]|]; [|by destruct Hi|done].
    destruct (pending d !! Wire.rp_id r) as [w|] eqn:E; [|done].
    destruct (proj1 (inv_pending _ Hi _ _) E) as (c & Hc & _). by eapply inv_deliver.
  - destruct (calls d !! w) as [c|] eqn:E; [cbn|done]. destruct (phase c); try done. intros [= <-].
    unfold poll. destruct (chan c) eqn:Ec; [destruct x| |]; try (by apply inv_phase).
    unfold set_calls. rewrite insert_id by done. by destruct Hi.
Qed.
Lemma inv_run es : forall d d', inv d -> run d es = Some d' -> inv d'.
Proof.
  induction es as [|e es IH]; cbn; intros d d' Hi; [by intros [= <-]|].
  destruct (step d e) as [d1|] eqn:E; [|done]. cbn. apply IH. by eapply dispatcher_step.
Qed.

(** The replies to an id that a sequence of steps brings, and what a channel opened before them then holds. *)
Definition reply_in (i : string) (e : Ev) : option Wire.Reply :=
  match e with
  | Recv (Text s) => match read_text s with
                     | Some (Wire.FReply r) => if String.eqb (Wire.rp_id r) i then Some r else None
                     | _ => None
                     end
  | _ => None
  end.
Definition first_reply (i : string) (es : list Ev) : Oneshot :=
  match omap (reply_in i) es with r :: _ => Full r | [] => Empty end.
(** No later command reuses the id. *)
Definition fresh_id (i : string) (es : list Ev) : Prop := forall w c, Begin w c ∈ es -> Wire.id c <> i.

Lemma step_chan d e d' w c : inv d -> step d e = Some d' -> calls d !! w = Some c -> fresh_id (Wire.id (cmd c)) [e] ->
  exists c', calls d' !! w = Some c' /\ cmd c' = cmd c /\
    chan c' = match chan c with Empty => first_reply (Wire.id (cmd c)) [e] | o => o end.
Proof.
  intros Hi Hs Hw Hf. assert (Hid : match chan c with Empty => Empty | o => o end = chan c) by (by destruct (chan c)).
  destruct e as [w' c'|w' r|m|w' x]; cbn in Hs.
  - destruct (calls d !! w') eqn:E; [done|]. injection Hs as <-. exists c. cbn. rewrite Hid.
    rewrite lookup_insert_ne by congruence. split; [|done]. apply (displaced_other d (Wire.id c') w c Hw).
    intros (c2 & H2 & H3 & _)%(inv_pending _ Hi). simplify_eq. by apply (Hf w' c'); [apply list_elem_of_here|].
  - destruct (calls d !! w') as [c2|] eqn:E; [cbn in Hs|done]. destruct (phase c2); try done. change (first_reply _ [_]) with Empty. rewrite Hid.
    destruct (decide (w' = w)) as [->|].
    + assert (c2 = c) as -> by congruence. destruct r; injection Hs as <-; cbn; rewrite lookup_insert_eq; by eexists.
    + exists c. destruct r; injection Hs as <-; cbn; by rewrite lookup_insert_ne.
  - destruct (reading d); [|done]. injection Hs as <-. unfold first_reply. cbn [omap list_omap reply_in].
    destruct m as [s| |]; cbn; [|by exists c; rewrite Hid..].
    destruct (read_text s) as [[r|e]|] eqn:Es; [|by exists c; rewrite Hid..].
    destruct (String.eqb_spec (Wire.rp_id r) (Wire.id (cmd c))) as [Er|Er].
    + destruct (pending d !! Wire.rp_id r) as [w2|] eqn:Ep; cbn.
      * apply (inv_pending _ Hi) in Ep as Hx. destruct Hx as (c2 & H2 & H3 & H4). destruct (decide (w2 = w)) as [->|].
        -- simplify_eq. rewrite lookup_alter_eq, Hw, H4. by eexists.
        -- rewrite lookup_alter_ne by done. exists c. split; [done|]. split; [done|]. destruct (chan c) eqn:Ec; [|done..].
           assert (pending d !! Wire.rp_id r = Some w) by (apply (inv_pending _ Hi); by exists c). congruence.
      * exists c. split; [done|]. split; [done|]. destruct (chan c) eqn:Ec; [|done..].
        assert (pending d !! Wire.rp_id r = Some w) by (apply (inv_pending _ Hi); by exists c). congruence.
    + rewrite Hid. destruct (pending d !! Wire.rp_id r) as [w2|] eqn:Ep; [|by exists c]. cbn.
      apply (inv_pending _ Hi) in Ep as (c2 & H2 & H3 & _). rewrite lookup_alter_ne by congruence. by exists c.
  - destruct (calls d !! w') as [c2|] eqn:E; [cbn in Hs|done]. destruct (phase c2); try done. injection Hs as <-. cbn.
    change (first_reply _ [_]) with Empty. rewrite Hid. destruct (decide (w' = w)) as [->|];
      [|exists c; by rewrite lookup_insert_ne by done].
    assert (c2 = c) as -> by congruence. rewrite lookup_insert_eq. eexists. split; [done|]. unfold poll. by destruct (chan c) eqn:?, x.
Qed.

Lemma run_chan es : forall d d' w c, inv d -> run d es = Some d' -> calls d !! w = Some c -> fresh_id (Wire.id (cmd c)) es ->
  exists c', calls d' !! w = Some c' /\ cmd c' = cmd c /\
    chan c' = match chan c with Empty => first_reply (Wire.id (cmd c)) es | o => o end.
Proof.
  induction es as [|e es IH]; cbn [run]; intros d d' w c Hi Hr Hw Hf.
  - injection Hr as <-. exists c. by destruct (chan c).
  - destruct (step d e) as [d1|] eqn:E; [cbn in Hr|done].
    destruct (step_chan d e d1 w c Hi E Hw) as (c1 & H1 & Ec & Eh).
    { intros w' c' <-%list_elem_of_singleton. apply (Hf w' c'). by apply list_elem_of_here. }
    destruct (IH d1 d' w c1 (dispatcher_step _ _ _ Hi E) Hr H1) as (c2 & H2 & Ec2 & Eh2).
    { rewrite Ec. intros w' c' Hin. apply (Hf w' c'). by apply list_elem_of_further. }
    exists c2. split; [done|]. split; [congruence|]. rewrite Eh2, Ec. destruct (chan c); [|by rewrite Eh..]. rewrite Eh.
    unfold first_reply. cbn. destruct (reply_in _ e); done.
Qed.

Lemma steps_app es es' : forall d, run d (es ++ es') = run d es ≫= (fun d => run d es').
Proof. induction es as [|e es IH]; cbn; intros d; [done|]. destruct (step d e); cbn; [apply IH|done]. Qed.

(** C21: Whatever else is called, received or timed out in between, a call whose id no later command reuses holds the first
    reply that arrives after it registered, if any: the reply it returns is that one, it carries the command's id, and
    the call is never cancelled. *)
Theorem calls_get_their_reply es w c es' d : run new (es ++ Begin w c :: es') = Some d -> fresh_id (Wire.id c) es' ->
  exists c', calls d !! w = Some c' /\ cmd c' = c /\ chan c' = first_reply (Wire.id c) es' /\
    (forall r, phase c' = Done (Ok r) -> first_reply (Wire.id c) es' = Full r /\ Wire.rp_id r = Wire.id c) /\
    (forall m, phase c' <> Done (Err (EOther m))).
Proof.
  rewrite steps_app. destruct (run new es) as [d0|] eqn:E0; [|done]. cbn [mbind option_bind run].
  destruct (step d0 (Begin w c)) as [d1|] eqn:E1; [|done]. cbn [mbind option_bind]. intros Hr Hf.
  assert (Hi0 := inv_run _ _ _ inv_new E0). assert (Hi1 := dispatcher_step _ _ _ Hi0 E1).
  assert (Hw : calls d1 !! w = Some {| cmd := c; phase := Registered; chan := Empty |}).
  { cbn in E1. destruct (calls d0 !! w); [done|]. injection E1 as <-. apply lookup_insert_eq. }
  destruct (run_chan _ _ _ _ _ Hi1 Hr Hw Hf) as (c' & Hc & Ec & Eh). cbn in Ec, Eh.
  assert (Hi := inv_run _ _ _ Hi1 Hr). exists c'. split; [done|]. split; [done|]. split; [done|].
  pose proof (inv_done _ Hi _ _ Hc) as Hs. unfold settled in Hs. split.
  - intros r Hp. rewrite Hp in Hs. rewrite <-Eh. split; [done|]. rewrite <-Ec. by apply (inv_chan _ Hi w).
  - intros m Hp. rewrite Hp in Hs. rewrite Eh in Hs. unfold first_reply in Hs. by destruct (omap _ _).
Qed.

(** What is left behind: a call that timed out, or whose text was not sent, stays in [pending] as long as no reply
    to it comes. *)
Lemma abandoned_stays_pending es w c es' d : run new (es ++ Begin w c :: es') = Some d -> fresh_id (Wire.id c) es' ->
  first_reply (Wire.id c) es' = Empty -> pending d !! Wire.id c = Some w.
Proof.
  intros Hr Hf Hn. assert (Hi := inv_run _ _ _ inv_new Hr).
  rewrite steps_app in Hr. destruct (run new es) as [d0|] eqn:E0; [|done]. cbn [mbind option_bind run] in Hr.
  destruct (step d0 (Begin w c)) as [d1|] eqn:E1; [|done]. cbn [mbind option_bind] in Hr.
  assert (Hi1 := dispatcher_step _ _ _ (inv_run _ _ _ inv_new E0) E1).
  assert (Hw : calls d1 !! w = Some {| cmd := c; phase := Registered; chan := Empty |}).
  { cbn in E1. destruct (calls d0 !! w); [done|]. injection E1 as <-. apply lookup_insert_eq. }
  destruct (run_chan _ _ _ _ _ Hi1 Hr Hw Hf) as (c' & Hc & Ec & Eh). cbn in Ec, Eh.
  apply (inv_pending _ Hi). exists c'. by rewrite Ec, Eh, Hn.
Qed.

(** Once the stream has ended nothing is read: a call that has no reply by then can only time out. *)
Lemma step_reading d e d' : step d e = Some d' -> reading d = false -> reading d' = false.
Proof.
  destruct e as [w c|w r|m|w x]; cbn; intros H Hr; [destruct (calls d !! w); [done|]; by injection H as <-| | |].
  - destruct (calls d !! w) as [c|]; [cbn in H|done]. destruct (phase c); try done. destruct r; by injection H as <-.
  - by rewrite Hr in H.
  - destruct (calls d !! w) as [c|]; [cbn in H|done]. destruct (phase c); try done. by injection H as <-.
Qed.
Lemma dead_stream_no_reply i es : forall d d', run d es = Some d' -> reading d = false -> first_reply i es = Empty.
Proof.
  induction es as [|e es IH]; cbn [run]; intros d d' Hr Hd; [done|].
  destruct (step d e) as [d1|] eqn:E; [cbn in Hr|done]. assert (Hd1 := step_reading _ _ _ E Hd).
  unfold first_reply. cbn. replace (reply_in i e) with (@None Wire.Reply); [by eapply IH|].
  destruct e as [| |m|]; [done..| |done]. cbn in E. by rewrite Hd in E.
Qed.
End Dispatcher.
End Dispatcher.

(** ** A command on its way to the gateway *)

Definition server_cmd (d : AtpDomain.t) (c : Wire.Cmd) : AtpCmd := {|
  Gateway.msg_type := "cmd"; cmd_id := Wire.id c; Gateway.token := Wire.token c; Gateway.domain := d; Gateway.op := Wire.op c;
  Gateway.body := Wire.body c |}.

(** A command of the client is read by the gateway field by field if its domain is one of the protocol's, and refused
    otherwise; the subscription every connection opens with asks for everything and for no replay. *)
Lemma command_wire parse msg raw uuid d o tok b :
  let c := Wire.cmd_new uuid (AtpDomain.to_str d) o tok b in
  parse raw = Ok (Wire.cmd_json c) -> frame_parse parse msg raw = Ok (Cmd (server_cmd d c)).
Proof. cbn. intros H. unfold frame_parse. rewrite H. by destruct d. Qed.


(** ** [client.rs] *)

Module Client.
Section Client.
Context {JT : JsonStr}.
(** The POST of the login (status and text), reading a response's body, the handshake with a bearer token, sending a
    text; the errors carry their message.  [status_text] is the status as HTTP prints it. *)
Variable post : string -> json -> result string (Z * string).
Variable decode : string -> result string json.
Variable handshake : string -> string -> result string unit.
Variable send : string -> result string unit.
Variable status_text : Z -> string.

Definition login_url (server_url : string) : string := (server_url +:+ "/atp/auth/login")%string.
Definition ws_url (server_url : string) : string := (str_replace "http" "ws" server_url +:+ "/atp")%string.
Definition is_success (status : Z) : bool := bool_decide (200 <= status < 300).
Definition subscribe_all : Wire.Subscribe := {| Wire.sub_type := "subscribe"; Wire.sub_events := ["*"%string] |}.

Definition connect (server_url identity credential : string) : result ClientError Wire.LoginResponse :=
  '(status, text) ← map_err EHttp (post (login_url server_url)
      (Wire.login_request_json {| Wire.identity := identity; Wire.credential := credential |}));
  if negb (is_success status) then
    Err (EOther ("login failed: HTTP " +:+ status_text status +:+ " — " +:+ text)%string)
  else
    v ← map_err EHttp (decode text);
    r ← ok_or (EHttp "error decoding response body") (Wire.login_response_of v);
    _ ← map_err EWebSocket (handshake (ws_url server_url) (Wire.lr_token r));
    _ ← map_err EWebSocket (send (json_str (Wire.subscribe_json subscribe_all)));
    Ok r.
End Client.

(** The subscription never carries a cursor, so the gateway replays nothing to a client that comes back. *)
Lemma subscribe_all_no_replay : Gateway.subscribe_of_json (Wire.subscribe_json subscribe_all) =
  Some {| Gateway.sub_type := "subscribe"; sub_id := EmptyString; sub_token := EmptyString; events := ["*"%string]; since_seq := None |}.
Proof. reflexivity. Qed.
(** The scheme is replaced wherever it occurs, in the host's name too. *)
Lemma ws_url_host : ws_url "http://httpd.local:9142" = "ws://wsd.local:9142/atp"%string.
Proof. reflexivity. Qed.
End Client.

(** ** [event_emitter.rs] *)

Module Emitter.

(** [connecting_]: [connect_fn] is awaited; [Forwarding]: the inner loop, with the reader task of the dispatcher alive
    or ended; [Sleeping]: between attempts. *)
Inductive Where : Type := Connecting | Forwarding (reader : bool) | Sleeping (secs : Z).
Record t : Type := { at_ : Where; connected : bool; last_seq : option Z; backoff : Z; cursors : list (option Z); out : list Wire.Event }.
(** The task's first action is to read the cursor. *)
Definition start : t :=
  {| at_ := Connecting; connected := false; last_seq := None; backoff := 1; cursors := [None]; out := [] |}.

Definition u64_saturating_mul (a b : Z) : Z := Z.min (a * b) u64_max.
Definition next_backoff (b : Z) : Z := Z.min (u64_saturating_mul b 2) 60.
Definition seen (l : option Z) (n : Z) : option Z := Some (match l with Some p => Z.max p n | None => n end).
Definition go_to (e : t) (w : Where) (c : bool) (b : Z) : t :=
  {| at_ := w; connected := c; last_seq := last_seq e; backoff := b; cursors := cursors e; out := out e |}.

(** The dispatcher's channel is closed when both holders of its sender are gone: the reader task, and the dispatcher,
    which the loop keeps. *)
Definition channel_closed (reader dispatcher_held : bool) : bool := negb reader && negb dispatcher_held.

Inductive Ev : Type := ConnectFailed | ConnectOk | Received (e : Wire.Event) | Lagged (n : Z) | ReaderEnds | RecvClosed | Woken.
Definition step (e : t) (v : Ev) : option t :=
  match at_ e, v with
  | Connecting, ConnectFailed => Some (go_to e (Sleeping (backoff e)) (connected e) (next_backoff (backoff e)))
  | Connecting, ConnectOk => Some (go_to e (Forwarding true) true (backoff e))
  | Forwarding true, Received x =>
      Some {| at_ := at_ e; connected := connected e; last_seq := seen (last_seq e) (Wire.ev_seq x); backoff := backoff e;
              cursors := cursors e; out := out e ++ [x] |}
  | Forwarding _, Lagged _ => Some e
  | Forwarding true, ReaderEnds => Some (go_to e (Forwarding false) (connected e) (backoff e))
  | Forwarding reader, RecvClosed =>
      if channel_closed reader true then Some (go_to e (Sleeping 1) false (next_backoff 1)) else None
  | Sleeping _, Woken =>
      Some {| at_ := Connecting; connected := connected e; last_seq := last_seq e; backoff := backoff e;
              cursors := cursors e ++ [last_seq e]; out := out e |}
  | _, _ => None
  end.
Fixpoint run (e : t) (vs : list Ev) : option t := match vs with [] => Some e | v :: vs => e ← step e v; run e vs end.

Definition max_seq (l : list Wire.Event) : option Z := foldl (fun a x => seen a (Wire.ev_seq x)) None l.
(** [subscribe]: the events of one kind. *)
Definition of_kind (k : Wire.EventKind) (l : list Wire.Event) : list Wire.Event := filter (fun x => Wire.ev_kind x = k) l.

Lemma step_last e v e' : step e v = Some e' -> last_seq e = max_seq (out e) -> last_seq e' = max_seq (out e').
Proof.
  unfold step. destruct (at_ e) as [|[]|], v; cbn; try done; intros [= <-]; cbn; try done.
  intros ->. unfold max_seq. by rewrite foldl_app.
Qed.
(** The cursor is the highest sequence number of the events passed on. *)
Lemma last_seq_is_max vs e : run start vs = Some e -> last_seq e = max_seq (out e).
Proof.
  assert (H : forall e0, last_seq e0 = max_seq (out e0) -> run e0 vs = Some e -> last_seq e = max_seq (out e)); [|by apply H].
  induction vs as [|v vs IH]; cbn; intros e0 He; [by intros [= <-]|].
  destruct (step e0 v) as [e1|] eqn:E; [|done]. cbn. apply IH. by eapply step_last.
Qed.

(** The wait before the next attempt doubles with every failure, up to a minute. *)
Lemma next_backoff_min b : 0 <= b <= 60 -> next_backoff b = Z.min (2 * b) 60.
Proof. unfold next_backoff, u64_saturating_mul, u64_max. lia. Qed.
Lemma backoff_iter n : Nat.iter n next_backoff 1 = Z.min (2 ^ Z.of_nat n) 60.
Proof.
  induction n as [|n IH]; [done|]. rewrite Nat.iter_succ, IH, next_backoff_min.
  - rewrite Nat2Z.inj_succ, Z.pow_succ_r by lia. lia.
  - pose proof (Z.pow_pos_nonneg 2 (Z.of_nat n)). lia.
Qed.
Fixpoint failing (n : nat) : list Ev := match n with O => [] | S n => ConnectFailed :: Woken :: failing n end.
Lemma run_failing n : forall e, at_ e = Connecting -> exists e', run e (failing n) = Some e' /\ at_ e' = Connecting /\
  connected e' = connected e /\ out e' = out e /\ backoff e' = Nat.iter n next_backoff (backoff e).
Proof.
  induction n as [|n IH]; intros e He; [by exists e|]. cbn [failing run].
  assert (step e ConnectFailed = Some (go_to e (Sleeping (backoff e)) (connected e) (next_backoff (backoff e)))) as ->
    by (unfold step; by rewrite He).
  cbn [mbind option_bind step go_to at_].
  match goal with |- context [run ?x (failing n)] => destruct (IH x eq_refl) as (e' & Hr & Ha & Hc & Ho & Hb) end.
  exists e'. rewrite Hr, Ha, Hc, Ho, Hb. cbn [go_to connected out backoff]. repeat (split; [done|]). by rewrite <-Nat.iter_succ_r.
Qed.
Lemma backoff_after n : exists e, run start (failing n) = Some e /\ backoff e = Z.min (2 ^ Z.of_nat n) 60 /\ connected e = false.
Proof.
  destruct (run_failing n start eq_refl) as (e & Hr & _ & Hc & _ & Hb). exists e. by rewrite Hr, Hb, Hc, <-backoff_iter.
Qed.

(** The loop is left only when the channel closes, and the loop itself keeps it open: once connected the emitter stays so,
    whatever happens to the connection. *)
Lemma never_leaves vs : forall e e' r, run e vs = Some e' -> at_ e = Forwarding r -> connected e = true ->
  (exists r', at_ e' = Forwarding r') /\ connected e' = true /\ cursors e' = cursors e.
Proof.
  induction vs as [|v vs IH]; cbn; intros e e' r Hr Ha Hc; [injection Hr as <-; eauto|].
  destruct (step e v) as [e1|] eqn:E; [|done]. cbn in Hr.
  assert (exists r1, at_ e1 = Forwarding r1 /\ connected e1 = true /\ cursors e1 = cursors e) as (r1 & H1 & H2 & H3).
  { unfold step in E. rewrite Ha in E. destruct r, v; try done; cbn in E; injection E as <-; cbn; eauto. }
  destruct (IH _ _ _ Hr H1 H2) as (? & ? & ->). done.
Qed.
End Emitter.

(** ** Two calls and their replies *)

Module Toy.
Import Dispatcher.

(** A text per frame of the run. *)
#[local] Instance toy_text : JsonStr := {|
  json_str _ := "{}"%string;
  json_parse s := if String.eqb s "a" then Ok (reply_json (reply_ok "1" (JStr "first")))
                  else if String.eqb s "b" then Ok (reply_json (reply_ok "2" (JStr "second"))) else Err "eof"%string |}.
Definition no_instant (_ : json) : option Z := None.
Definition one : Wire.Cmd := Wire.cmd_new "1" "proc" "list" "t" (JObj []).
Definition two : Wire.Cmd := Wire.cmd_new "2" "sys" "tool-list" "t" (JObj []).
(** The replies come in the other order. *)
Definition crossed : list Ev :=
  [Send 0 (Ok ()); Begin 1 two; Send 1 (Ok ()); Recv (Text "x"); Recv (Text "b"); Recv (Text "a"); Poll 0 false; Poll 1 false].

Lemma calls_get_their_reply_witness :
  exists d c', run no_instant new (Begin 0 one :: crossed) = Some d /\ calls d !! 0%nat = Some c' /\
    exists r, phase c' = Done (Ok r) /\ Wire.rp_id r = "1"%string.
Proof.
  destruct (run no_instant new (Begin 0 one :: crossed)) as [d|] eqn:E; [|discriminate E].
  destruct (calls_get_their_reply no_instant [] 0 one crossed d E) as (c' & Hc & _ & _ & Hr & _).
  { intros w c Hin. unfold crossed in Hin. rewrite !elem_of_cons in Hin.
    destruct Hin as [[=]|[[= _ ->]|[[=]|[[=]|[[=]|[[=]|[[=]|[[=]|Hin]]]]]]]]; [done|]. by apply elem_of_nil in Hin. }
  exists d, c'. split; [done|]. split; [done|].
  assert (exists r, phase <$> calls d !! 0%nat = Some (Done (Ok r))) as [r Hp].
  { eexists. transitivity (d' ← run no_instant new (Begin 0 one :: crossed); phase <$> calls d' !! 0%nat); [by rewrite E|].
    vm_compute. reflexivity. }
  rewrite Hc in Hp. injection Hp as Hp. exists r. split; [exact Hp|]. by apply Hr in Hp as [_ ?].
Defined.


End Toy.
