(* ===== verification/Client.v ===== *)
(** * The client library: notifications, connection state, commands, files

    Models [src/crates/avix-client-core/src/]: [notification.rs], [state.rs], [commands.rs], [commands/spawn_agent.rs],
    [server.rs], [persistence.rs] and [config.rs], on the frames of [ClientAtp].  The commands take the dispatcher's
    [call] as an argument; the connection's bridge tasks are a state machine.  The theorems at the end follow a question
    to a human from the kernel's event into the client's store and the answer back through the gateway's handler. *)

From stdpp Require Import sorting.
From S2P Require Import Prelude Types Secrets AgentsYaml Signals Channels Auth EventBus Hil Ipc KernelIpc Gateway Handlers ClientAtp Json.
Local Open Scope Z_scope.

(** ** [notification.rs] *)

Module Notif.
Import Wire.

Inductive NotificationKind : Type := KHil | KAgentExit | KSysAlert.
#[global] Instance NotificationKind_eq_dec : EqDecision NotificationKind.
Proof. solve_decision. Defined.

Record HilState : Type := {
  hn_hil_id : string; hn_pid : Z; hn_approval_token : string; hn_prompt : string; hn_timeout_secs : Z;
  hn_outcome : option HilOutcome }.
Record Notification : Type := {
  n_id : string; n_kind : NotificationKind; n_agent_pid : option Z; n_session_id : option string; n_message : string;
  n_hil : option HilState; n_created_at : Z; n_resolved_at : option Z; n_read : bool }.

Definition from_hil_request (now : Z) (b : HilRequestBody) : Notification := {|
  n_id := hb_hil_id b; n_kind := KHil; n_agent_pid := Some (hb_pid b); n_session_id := Some (hb_session_id b);
  n_message := hb_prompt b;
  n_hil := Some {| hn_hil_id := hb_hil_id b; hn_pid := hb_pid b; hn_approval_token := hb_approval_token b;
                   hn_prompt := hb_prompt b; hn_timeout_secs := hb_timeout_secs b; hn_outcome := None |};
  n_created_at := now; n_resolved_at := None; n_read := false |}.
Definition from_agent_exit (now : Z) (uuid : string) (pid : Z) (session : string) (reason : option string) : Notification := {|
  n_id := uuid; n_kind := KAgentExit; n_agent_pid := Some pid; n_session_id := Some session;
  n_message := match reason with None => "Agent exited" | Some r => "Agent exited: " +:+ r end%string;
  n_hil := None; n_created_at := now; n_resolved_at := None; n_read := false |}.
Definition from_sys_alert (now : Z) (uuid level message : string) : Notification := {|
  n_id := uuid; n_kind := KSysAlert; n_agent_pid := None; n_session_id := None; n_message := message; n_hil := None;
  n_created_at := now; n_resolved_at := None; n_read := false |}.

(** *** [NotificationStore]: the vector *)

(** [sort_by(|a, b| b.created_at.cmp(&a.created_at))], stable. *)
Fixpoint insert_desc (n : Notification) (l : list Notification) : list Notification :=
  match l with
  | [] => [n]
  | m :: l' => if decide (n_created_at m <= n_created_at n) then n :: l else m :: insert_desc n l'
  end.
Definition sort_desc (l : list Notification) : list Notification := foldr insert_desc [] l.

Definition add (l : list Notification) (n : Notification) : list Notification := sort_desc (l ++ [n]).

(** The first element a test accepts. *)
Fixpoint update_first {A} (p : A -> bool) (f : A -> A) (l : list A) : list A :=
  match l with [] => [] | x :: l => if p x then f x :: l else x :: update_first p f l end.

Definition set_outcome (o : HilOutcome) (h : HilState) : HilState := {|
  hn_hil_id := hn_hil_id h; hn_pid := hn_pid h; hn_approval_token := hn_approval_token h; hn_prompt := hn_prompt h;
  hn_timeout_secs := hn_timeout_secs h; hn_outcome := Some o |}.
Definition resolve (now : Z) (o : HilOutcome) (n : Notification) : Notification :=
  match n_hil n with
  | Some h => match hn_outcome h with
              | None => {| n_id := n_id n; n_kind := n_kind n; n_agent_pid := n_agent_pid n; n_session_id := n_session_id n;
                           n_message := n_message n; n_hil := Some (set_outcome o h); n_created_at := n_created_at n;
                           n_resolved_at := Some now; n_read := n_read n |}
              | Some _ => n
              end
  | None => n
  end.
Definition is_hil (id : string) (n : Notification) : bool := String.eqb (n_id n) id && bool_decide (n_kind n = KHil).
(** [None]: the notification says it is a question but holds none, and the [unwrap] panics. *)
Definition resolve_hil (now : Z) (l : list Notification) (id : string) (o : HilOutcome) : option (list Notification) :=
  match find (is_hil id) l with
  | Some n => match n_hil n with None => None | Some _ => Some (update_first (is_hil id) (resolve now o) l) end
  | None => Some l
  end.
Definition set_read (n : Notification) : Notification := {|
  n_id := n_id n; n_kind := n_kind n; n_agent_pid := n_agent_pid n; n_session_id := n_session_id n; n_message := n_message n;
  n_hil := n_hil n; n_created_at := n_created_at n; n_resolved_at := n_resolved_at n; n_read := true |}.
Definition mark_read (l : list Notification) (id : string) : list Notification :=
  update_first (fun n => String.eqb (n_id n) id) set_read l.
Definition unread_count (l : list Notification) : nat := length (filter (fun n => n_read n = false) l).

(** *** Newest first, and every question is decided once *)

Definition newer (a b : Notification) : Prop := n_created_at b <= n_created_at a.
#[local] Instance newer_trans : Transitive newer.
Proof. unfold newer. intros ???. lia. Qed.

Lemma insert_desc_perm n l : insert_desc n l ≡ₚ n :: l.
Proof.
  induction l as [|m l IH]; cbn; [done|]. destruct (decide _); [done|]. rewrite IH. apply Permutation_swap.
Qed.
Lemma sort_desc_perm l : sort_desc l ≡ₚ l.
Proof. unfold sort_desc. induction l as [|n l IH]; cbn; [done|]. by rewrite insert_desc_perm, IH. Qed.
Lemma insert_desc_sorted n l : StronglySorted newer l -> StronglySorted newer (insert_desc n l).
Proof.
  induction 1 as [|m l Hs IH Hm]; cbn; [by repeat constructor|]. destruct (decide _) as [Hc|Hc].
  - constructor; [by constructor|]. constructor; [exact Hc|]. eapply Forall_impl; [exact Hm|]. unfold newer. intros x. lia.
  - constructor; [done|]. rewrite insert_desc_perm. constructor; [unfold newer; lia|done].
Qed.
Lemma sort_desc_sorted l : StronglySorted newer (sort_desc l).
Proof. induction l as [|n l IH]; cbn; [constructor|]. by apply insert_desc_sorted. Qed.

Lemma update_first_map {A B} (g : A -> B) p f l : (forall x, g (f x) = g x) -> g <$> update_first p f l = g <$> l.
Proof. intros Hg. induction l as [|x l IH]; cbn; [done|]. destruct (p x); cbn; by rewrite ?Hg, ?IH. Qed.
Lemma sorted_by_key l l' : n_created_at <$> l = n_created_at <$> l' -> StronglySorted newer l -> StronglySorted newer l'.
Proof.
  revert l'. induction l as [|n l IH]; intros [|n' l'] E; cbn in E; try done. injection E as E1 E2.
  intros Hs. apply StronglySorted_inv in Hs as [Hs Hn]. constructor; [by apply IH|].
  apply Forall_forall. intros x [i Hx]%list_elem_of_lookup.
  assert (exists y, l !! i = Some y /\ n_created_at y = n_created_at x) as (y & Hy & Ey).
  { assert (Hi : (n_created_at <$> l) !! i = Some (n_created_at x)) by (by rewrite E2, list_lookup_fmap, Hx).
    rewrite list_lookup_fmap in Hi. destruct (l !! i) as [y|]; [|done]. exists y. by injection Hi. }
  rewrite Forall_forall in Hn. specialize (Hn y (list_elem_of_lookup_2 _ _ _ Hy)). unfold newer in *. congruence.
Qed.
Lemma resolve_created now o n : n_created_at (resolve now o n) = n_created_at n.
Proof. unfold resolve. destruct (n_hil n) as [h|]; [|done]. by destruct (hn_outcome h). Qed.

(** A question holds its state: what the three constructors make. *)
Definition wf (n : Notification) : Prop := n_kind n = KHil -> exists h, n_hil n = Some h /\ hn_hil_id h = n_id n.
(** A decision that was made. *)
Definition decided (id : string) (o : HilOutcome) (n : Notification) : Prop :=
  n_id n = id /\ exists h, n_hil n = Some h /\ hn_outcome h = Some o.

(** What a client does with the store. *)
Inductive Op : Type := Add (n : Notification) | Resolve (now : Z) (id : string) (o : HilOutcome) | MarkRead (id : string).
Definition apply (l : list Notification) (a : Op) : option (list Notification) :=
  match a with Add n => Some (add l n) | Resolve now id o => resolve_hil now l id o | MarkRead id => Some (mark_read l id) end.
Fixpoint run (l : list Notification) (ops : list Op) : option (list Notification) :=
  match ops with [] => Some l | a :: ops => l ← apply l a; run l ops end.
Definition made (ops : list Op) : Prop := forall n, Add n ∈ ops -> wf n.

Lemma update_first_Forall {A} (P : A -> Prop) p f l : (forall x, P x -> P (f x)) -> Forall P l -> Forall P (update_first p f l).
Proof. intros Hf. induction 1; cbn; [constructor|]. destruct (p x); constructor; auto. Qed.
Lemma update_first_Exists {A} (P : A -> Prop) p f l : (forall x, P x -> P (f x)) -> Exists P l -> Exists P (update_first p f l).
Proof. intros Hf. induction 1; cbn; destruct (p x); auto using Exists_cons_hd, Exists_cons_tl. Qed.
Lemma resolve_wf now o n : wf n -> wf (resolve now o n).
Proof.
  unfold wf, resolve. destruct (n_hil n) as [h|] eqn:E; [|by rewrite E]. destruct (hn_outcome h); [by rewrite E|]. cbn.
  intros Hw Hk. destruct (Hw Hk) as (h' & [= ->] & Hi). by eexists.
Qed.
Lemma resolve_decided now o n id o' : decided id o' n -> decided id o' (resolve now o n).
Proof. intros (Hi & h & Hh & Ho). unfold resolve. rewrite Hh, Ho. by split; [|exists h]. Qed.

Lemma apply_ok l a : Forall wf l -> StronglySorted newer l -> (forall n, a = Add n -> wf n) ->
  exists l', apply l a = Some l' /\ Forall wf l' /\ StronglySorted newer l' /\
    (forall id o, Exists (decided id o) l -> Exists (decided id o) l').
Proof.
  intros Hw Hs Ha. destruct a as [n|now id o|id]; cbn.
  - eexists. split; [done|]. unfold add. split; [|split; [apply sort_desc_sorted|]].
    + rewrite sort_desc_perm. apply Forall_app. split; [done|]. constructor; [by apply Ha|constructor].
    + intros i o H. rewrite sort_desc_perm. apply Exists_app. by left.
  - unfold resolve_hil. destruct (find (is_hil id) l) as [n|] eqn:E; [|by exists l].
    apply find_some in E as [Hin Ht]. apply andb_true_iff in Ht as [_ Hk%bool_decide_eq_true].
    rewrite Forall_forall in Hw. destruct (Hw n (proj2 (list_elem_of_In _ _) Hin) Hk) as (h & -> & _).
    rewrite <-Forall_forall in Hw. eexists. split; [done|]. split; [|split].
    + apply update_first_Forall; [apply resolve_wf|done].
    + eapply sorted_by_key; [|exact Hs]. symmetry. apply update_first_map. intros. apply resolve_created.
    + intros i o'. apply update_first_Exists. intros x. exact (resolve_decided now o x i o').
  - eexists. split; [done|]. unfold mark_read. split; [|split].
    + by apply update_first_Forall.
    + eapply sorted_by_key; [|exact Hs]. symmetry. by apply update_first_map.
    + intros i o'. apply update_first_Exists. by intros x.
Qed.

(** Whatever sequence of notifications, decisions and reads the client's store goes through, it never panics, it lists
    the newest first, and a decision once recorded is never lost or replaced. *)
Theorem notifications_kept ops1 ops2 : made (ops1 ++ ops2) -> exists l1 l2,
  run [] ops1 = Some l1 /\ run l1 ops2 = Some l2 /\ StronglySorted newer l2 /\
  (forall id o, Exists (decided id o) l1 -> Exists (decided id o) l2).
Proof.
  assert (H : forall ops l, made ops -> Forall wf l -> StronglySorted newer l -> exists l', run l ops = Some l' /\
    Forall wf l' /\ StronglySorted newer l' /\ (forall id o, Exists (decided id o) l -> Exists (decided id o) l')).
  { induction ops as [|a ops IH]; intros l Hm Hw Hs; [by exists l|]. cbn.
    destruct (apply_ok l a Hw Hs) as (l1 & -> & Hw1 & Hs1 & Hd1); [intros n ->; apply Hm, list_elem_of_here|]. cbn.
    destruct (IH l1) as (l2 & Hr & Hw2 & Hs2 & Hd2); [|done..|exists l2; naive_solver].
    intros n Hn. apply Hm. by apply list_elem_of_further. }
  intros Hm. destruct (H ops1 []) as (l1 & H1 & Hw1 & Hs1 & _); [|constructor..|].
  { intros n Hn. apply Hm, elem_of_app. by left. }
  destruct (H ops2 l1) as (l2 & H2 & _ & Hs2 & Hd); [|done..|by exists l1, l2].
  intros n Hn. apply Hm, elem_of_app. by right.
Qed.

(** Reading one notification lowers the count by one, or not at all if it was read or is not there. *)
Lemma mark_read_count l id :
  unread_count (mark_read l id) =
  (unread_count l - (if find (fun n => String.eqb (n_id n) id) l is Some n then if n_read n then 0 else 1 else 0))%nat.
Proof.
  unfold unread_count, mark_read. induction l as [|n l IH]; [done|]. cbn [update_first find].
  destruct (String.eqb (n_id n) id).
  - rewrite !filter_cons. cbn [n_read set_read]. rewrite decide_False by done. case_decide as E; [rewrite E; cbn [length]; lia|]. destruct (n_read n); [lia|done].
  - rewrite !filter_cons. case_decide; cbn [length]; rewrite IH; [|done].
    destruct (find _ l) as [m|] eqn:Ef; [|lia]. destruct (n_read m) eqn:Em; [lia|].
    apply find_some in Ef as [Hin _]. assert (0 < length (filter (fun n => n_read n = false) l))%nat; [|lia].
    apply list_elem_of_In in Hin. assert (m ∈ filter (fun n => n_read n = false) l) as Hf by (by apply list_elem_of_filter).
    destruct (filter _ l); [by apply elem_of_nil in Hf|cbn [length]; lia].
Qed.

End Notif.

(** ** [persistence.rs] and [config.rs] *)

Module Files.
Section Files.
Context {F : Type} `{!FileOps F}.
(** A value's text and its reader; [dflt] is the type's default. *)
Context {T : Type} (to_text : T -> result string string) (from_text : string -> result string T) (dflt : T).
(** How a failure to read or write the text is reported: JSON and YAML differ. *)
Variable text_error : string -> ClientError.

Definition load (f : F) (path : string) : result ClientError T :=
  if f_exists f path then
    content ← map_err EOther (f_read_to_string f path); map_err text_error (from_text content)
  else Ok dflt.
(** Through a sibling with the extension [tmp]. *)
Definition save (f : F) (path : string) (v : T) : result ClientError unit * F :=
  match map_err text_error (to_text v) with
  | Err e => (Err e, f)
  | Ok text =>
      match f_write f (with_extension path "tmp") text with
      | (Err e, f) => (Err (EOther e), f)
      | (Ok _, f) =>
          match f_rename f (with_extension path "tmp") path with
          | (Err e, f) => (Err (EOther e), f)
          | (Ok _, f) => (Ok (), f)
          end
      end
  end.

(** A value saved is the value loaded; a save that fails leaves the file as it was. *)
Lemma save_load `{!FileLaws F} f path v f' : with_extension path "tmp" <> path ->
  (forall text, to_text v = Ok text -> from_text text = Ok v) -> save f path v = (Ok (), f') -> load f' path = Ok v.
Proof.
  intros Hne Hrt. unfold save. destruct (to_text v) as [text|] eqn:Et; [cbn|done].
  destruct (f_write f _ text) as [[[]|] f1] eqn:Ew; [|done].
  destruct (f_rename f1 _ path) as [[[]|] f2] eqn:Er; [|done]. intros [= <-].
  assert (Hr : f_read_to_string f2 path = Ok text).
  { eapply f_rename_ok; [exact Hne|exact Er|]. by eapply f_write_ok. }
  unfold load. rewrite (f_read_exists _ _ _ Hr), Hr. cbn. by rewrite Hrt.
Qed.
Lemma save_failed `{!FileLaws F} f path v e f' : with_extension path "tmp" <> path ->
  save f path v = (Err e, f') -> load f' path = load f path.
Proof.
  intros Hne. unfold save. destruct (to_text v) as [text|] eqn:Et; cbn; [|by intros [= _ <-]].
  destruct (f_write f _ text) as [[[]|] f1] eqn:Ew.
  - destruct (f_rename f1 _ path) as [[[]|] f2] eqn:Er; [done|]. intros [= _ <-]. apply f_rename_err in Er as ->.
    destruct (f_write_other f (with_extension path "tmp") text path) as [H1 H2]; [done|]. rewrite Ew in H1, H2. cbn in H1, H2.
    unfold load. by rewrite H1, H2.
  - intros [= _ <-].
    destruct (f_write_other f (with_extension path "tmp") text path) as [H1 H2]; [done|]. rewrite Ew in H1, H2. cbn in H1, H2.
    unfold load. by rewrite H1, H2.
Qed.
End Files.

Definition json_error : string -> ClientError := EJson.
Definition yaml_error : string -> ClientError := EOther.

Record ClientConfig : Type := {
  server_url : string; identity : string; credential : string; runtime_root : option string; auto_start_server : bool }.
Definition config_default : ClientConfig := {|
  server_url := "http://localhost:9142"; identity := "admin"; credential := EmptyString; runtime_root := None;
  auto_start_server := true |}.
(** [dir] is [app_data_dir()]. *)
Definition config_path (dir : string) (path : option string) : string := default (dir +:+ "/client.yaml")%string path.
Definition notifications_path (dir : string) : string := (dir +:+ "/notifications.json")%string.
Definition layout_path (dir : string) : string := (dir +:+ "/ui-layout.json")%string.
Section Instances.
Context {F : Type} `{!FileOps F}.
Definition load_json {T} (from_text : string -> result string T) (dflt : T) : F -> string -> result ClientError T :=
  load from_text dflt json_error.
Definition save_json {T} (to_text : T -> result string string) : F -> string -> T -> result ClientError unit * F :=
  save to_text json_error.
Definition load_yaml {T} (from_text : string -> result string T) (dflt : T) : F -> string -> result ClientError T :=
  load from_text dflt yaml_error.
Definition save_yaml {T} (to_text : T -> result string string) : F -> string -> T -> result ClientError unit * F :=
  save to_text yaml_error.
Definition config_load_from (of_yaml : string -> result string ClientConfig) (dir : string) (f : F) (path : option string)
    : result ClientError ClientConfig := load_yaml of_yaml config_default f (config_path dir path).
Definition config_save (to_yaml : ClientConfig -> result string string) (dir : string) (f : F) (c : ClientConfig)
    : result ClientError unit * F := save_yaml to_yaml f (config_path dir None) c.
Definition load_notifications (of_json : string -> result string (list Notif.Notification)) (dir : string) (f : F)
    : result ClientError (list Notif.Notification) := load_json of_json [] f (notifications_path dir).
Definition save_notifications (to_json : list Notif.Notification -> result string string) (dir : string) (f : F)
    (l : list Notif.Notification) : result ClientError unit * F := save_json to_json f (notifications_path dir) l.
End Instances.

Definition with_login (c : ClientConfig) (who secret : string) : ClientConfig := {|
  server_url := server_url c; identity := who; credential := secret; runtime_root := runtime_root c;
  auto_start_server := auto_start_server c |}.

End Files.

(** ** [server.rs] *)

Module Server.
Import Files.

Inductive Child : Type := Alive | Exited | KillFails (m : string).
Record Handle : Type := { child : option Child; owned : bool }.

(** The probes after the spawn: the number of the first that answers. *)
Fixpoint wait_up (probe : nat -> bool) (attempt left : nat) : option nat :=
  match left with O => None | S l => if probe attempt then Some attempt else wait_up probe (S attempt) l end.
(** [probe n] is the [n]-th health request, 0 before the spawn; [exe] is the path of this binary; [spawn] starts it. *)
Definition ensure_running (probe : nat -> bool) (exe : result string string) (spawn : string -> list string -> result string Child)
    (c : ClientConfig) : result ClientError Handle :=
  if probe 0%nat then Ok {| child := None; owned := false |}
  else if negb (auto_start_server c) then
    Err (EOther ("Server not reachable at " +:+ server_url c +:+ " and auto_start_server is disabled")%string)
  else
    root ← ok_or (EOther "auto_start_server is enabled but runtime_root is not set in client.yaml") (runtime_root c);
    bin ← map_err (fun e => EOther ("Cannot find avix binary: " +:+ e)%string) exe;
    ch ← map_err (fun e => EOther ("Failed to spawn avix start: " +:+ e)%string) (spawn bin ["server"; "start"; "--root"; root]%string);
    match wait_up probe 1 5 with
    | None => Err (EOther "Server did not become reachable after 5 probes")
    | Some _ => Ok {| child := Some ch; owned := true |}
    end.
Definition is_alive (h : Handle) : bool :=
  if owned h then match child h with Some Alive | Some (KillFails _) => true | _ => false end else true.
Definition stop (h : Handle) : result ClientError Handle :=
  if owned h then
    match child h with
    | Some (KillFails m) => Err (EOther ("Failed to kill server: " +:+ m)%string)
    | Some _ => Ok {| child := Some Exited; owned := true |}
    | None => Ok h
    end
  else Ok h.

Lemma wait_up_spec probe left : forall attempt n, wait_up probe attempt left = Some n <->
  (attempt <= n < attempt + left)%nat /\ probe n = true /\ forall m, (attempt <= m < n)%nat -> probe m = false.
Proof.
  induction left as [|left IH]; intros attempt n; cbn; [split; [done|]; intros (? & _); lia|].
  destruct (probe attempt) eqn:E.
  - split; [intros [= <-]; split; [lia|]; split; [done|]; intros; lia|]. intros (Hr & Hp & Hm).
    destruct (decide (attempt = n)) as [->|]; [done|]. rewrite Hm in E by lia. done.
  - rewrite IH. split; intros (Hr & Hp & Hm).
    + split; [lia|]. split; [done|]. intros m Hm'. destruct (decide (m = attempt)) as [->|]; [done|]. apply Hm. lia.
    + split; [|split; [done|intros m Hm'; apply Hm; lia]]. destruct (decide (attempt = n)) as [->|]; [congruence|lia].
Qed.
(** A server that was already up is never started nor stopped by a client. *)
Lemma running_server_not_owned probe exe spawn c : probe 0%nat = true ->
  exists h, ensure_running probe exe spawn c = Ok h /\ is_alive h = true /\ stop h = Ok h.
Proof. intros H. unfold ensure_running. rewrite H. by eexists. Qed.
(** A handle that owns a process comes after an answer to one of the five probes. *)
Lemma owned_is_reachable probe exe spawn c h : ensure_running probe exe spawn c = Ok h -> owned h = true ->
  auto_start_server c = true /\ exists n, (1 <= n <= 5)%nat /\ probe n = true.
Proof.
  unfold ensure_running. destruct (probe 0%nat); [by intros [= <-]|]. destruct (auto_start_server c); [cbn -[wait_up]|done].
  destruct (runtime_root c); [cbn -[wait_up]|done]. destruct exe; [cbn -[wait_up]|done]. destruct (spawn _ _); [cbn -[wait_up]|done].
  destruct (wait_up probe 1 5) as [n|] eqn:E; [|done]. intros _ _. split; [done|].
  apply wait_up_spec in E as (Hr & Hp & _). exists n. split; [lia|done].
Qed.
End Server.

(** ** [state.rs] *)

Module App.
Import Files.

Inductive ConnectionStatus : Type := Disconnected | Connecting | Connected (session_id : string) | Reconnecting (attempt : Z).
Definition status_session (s : ConnectionStatus) : option string := match s with Connected i => Some i | _ => None end.
Record ActiveAgent : Type := { ag_pid : Z; ag_name : string; ag_session_id : string; ag_status : Wire.AgentState; ag_goal : string }.

(** The connection: dispatchers are numbered as they are made; [bridges] are the bridge tasks that run, each by the
    dispatcher it listens to. *)
Record Conn : Type := {
  dispatcher : option nat; status : ConnectionStatus; callback : bool; bridge_started : bool; bridges : list nat; made : nat }.
Record AppState : Type := {
  config : ClientConfig; conn : Conn; notifications : list Notif.Notification; agents : list ActiveAgent;
  server_handle : option Server.Handle; pending_hils : gmap string (Z * string) }.
Definition conn_new : Conn :=
  {| dispatcher := None; status := Disconnected; callback := false; bridge_started := false; bridges := []; made := 0 |}.
Definition new (c : ClientConfig) : AppState :=
  {| config := c; conn := conn_new; notifications := []; agents := []; server_handle := None; pending_hils := ∅ |}.

Definition with_status (c : Conn) (s : ConnectionStatus) : Conn := {|
  dispatcher := dispatcher c; status := s; callback := callback c; bridge_started := bridge_started c;
  bridges := bridges c; made := made c |}.
(** The compare-and-exchange of the flag, and the task. *)
Definition start_event_bridge (c : Conn) : Conn :=
  match dispatcher c, callback c, bridge_started c with
  | Some g, true, false => {| dispatcher := dispatcher c; status := status c; callback := true; bridge_started := true;
                              bridges := bridges c ++ [g]; made := made c |}
  | _, _, _ => c
  end.
(** [outcome] is [AtpClient::connect]'s. *)
Definition do_connect (outcome : result ClientError Wire.LoginResponse) (c : Conn) : result ClientError unit * Conn :=
  let c := with_status c Connecting in
  match outcome with
  | Err e => (Err (EOther (client_error_text e)), with_status c Disconnected)
  | Ok r => (Ok (), start_event_bridge {| dispatcher := Some (made c); status := Connected (Wire.lr_session_id r);
                      callback := callback c; bridge_started := false; bridges := bridges c; made := S (made c) |})
  end.
Definition set_emit_callback (c : Conn) : Conn :=
  start_event_bridge {| dispatcher := dispatcher c; status := status c; callback := true; bridge_started := bridge_started c;
                        bridges := bridges c; made := made c |}.
Definition is_authenticated (c : Conn) : bool := match dispatcher c with Some _ => true | None => false end.

Definition with_conn (s : AppState) (c : Conn) : AppState := {|
  config := config s; conn := c; notifications := notifications s; agents := agents s; server_handle := server_handle s;
  pending_hils := pending_hils s |}.
(** What starting the server and reading the notifications gave; connecting with a configuration. *)
Definition init (started : result ClientError Server.Handle) (persisted : result ClientError (list Notif.Notification))
    (connect : ClientConfig -> result ClientError Wire.LoginResponse) (s : AppState) : AppState :=
  let s := {| config := config s; conn := conn s;
              notifications := match persisted with Ok l => foldl Notif.add (notifications s) l | Err _ => notifications s end;
              agents := agents s; server_handle := match started with Ok h => Some h | Err _ => server_handle s end;
              pending_hils := pending_hils s |} in
  if String.eqb (credential (config s)) EmptyString then s else with_conn s (do_connect (connect (config s)) (conn s)).2.
Definition login (connect : ClientConfig -> result ClientError Wire.LoginResponse) (who secret : string) (s : AppState)
    : result ClientError unit * AppState :=
  let c := with_login (config s) who secret in
  let '(r, k) := do_connect (connect c) (conn s) in
  (r, {| config := c; conn := k; notifications := notifications s; agents := agents s; server_handle := server_handle s;
         pending_hils := pending_hils s |}).
Definition reconnect (connect : ClientConfig -> result ClientError Wire.LoginResponse) (s : AppState)
    : result ClientError unit * AppState :=
  let '(r, k) := do_connect (connect (config s)) (conn s) in (r, with_conn s k).

(** The name a bridge task gives the UI for an event; the other kinds are not passed on. *)
Definition bridge_name (k : Wire.EventKind) : option string :=
  match k with
  | Wire.SessionReady => Some "daemon-ready" | Wire.AgentSpawned => Some "agent.spawned" | Wire.AgentOutput => Some "agent.output"
  | Wire.AgentOutputChunk => Some "agent.output.chunk" | Wire.AgentStatus => Some "agent.status"
  | Wire.AgentExit => Some "agent.exit" | Wire.ToolChanged => Some "tool.changed" | Wire.SysService => Some "sys.service"
  | Wire.AgentToolCall => Some "agent.tool_call" | Wire.AgentToolResult => Some "agent.tool_result"
  | _ => None
  end%string.

(** A bridge task ends when its channel is closed, which needs its dispatcher to be gone, or when it lagged behind;
    either way it clears the flag. *)
Inductive Ev : Type := Connect (r : result ClientError Wire.LoginResponse) | SetCallback | ChannelClosed (g : nat) | BridgeLagged (g : nat).
Fixpoint remove_first (g : nat) (l : list nat) : list nat :=
  match l with [] => [] | x :: l => if decide (x = g) then l else x :: remove_first g l end.
Definition bridge_exit (g : nat) (c : Conn) : Conn := {|
  dispatcher := dispatcher c; status := status c; callback := callback c; bridge_started := false;
  bridges := remove_first g (bridges c); made := made c |}.
Definition step (c : Conn) (e : Ev) : option Conn :=
  match e with
  | Connect r => Some (do_connect r c).2
  | SetCallback => Some (set_emit_callback c)
  | ChannelClosed g => if decide (g ∈ bridges c /\ dispatcher c <> Some g) then Some (bridge_exit g c) else None
  | BridgeLagged g => if decide (g ∈ bridges c) then Some (bridge_exit g c) else None
  end.
Fixpoint run (c : Conn) (es : list Ev) : option Conn := match es with [] => Some c | e :: es => c ← step c e; run c es end.

(** *** One bridge per connection, as long as no bridge has ended *)

Definition no_exit (e : Ev) : bool := match e with Connect _ | SetCallback => true | _ => false end.
Record guarded (c : Conn) : Prop := {
  g_nodup : NoDup (bridges c);
  g_made : forall g, g ∈ bridges c -> (g < made c)%nat;
  g_current : forall g, dispatcher c = Some g -> (g < made c)%nat /\
    (bridge_started c = true <-> g ∈ bridges c) /\ (callback c = true -> bridge_started c = true) }.

Lemma start_guarded c : NoDup (bridges c) -> (forall g, g ∈ bridges c -> (g < made c)%nat) ->
  (forall g, dispatcher c = Some g -> (g < made c)%nat /\ (bridge_started c = true <-> g ∈ bridges c)) ->
  guarded (start_event_bridge c).
Proof.
  intros Hn Hm Hc. unfold start_event_bridge. destruct (dispatcher c) as [g|] eqn:Ed.
  - destruct (Hc g eq_refl) as (Hg & Hb). destruct (callback c) eqn:Ec; [destruct (bridge_started c) eqn:Eb|].
    + split; [done..|]. intros g'. rewrite ?Ed, Eb. intros [= <-]. by rewrite <-Hb.
    + assert (g ∉ bridges c) as Hni by (rewrite <-Hb; done). split; cbn.
      * apply NoDup_app. split; [done|]. split; [|by apply NoDup_singleton]. intros x Hx Hx'. by apply list_elem_of_singleton in Hx' as ->.
      * intros x [Hx|Hx]%elem_of_app; [by apply Hm|]. by apply list_elem_of_singleton in Hx as ->.
      * intros g'. rewrite ?Ed. intros [= <-]. split; [done|]. split; [|done]. split; [|done]. intros _.
        apply elem_of_app. right. by apply list_elem_of_singleton.
    + split; [done..|]. intros g'. rewrite ?Ed, Ec. intros [= <-]. split; [done|]. by split.
  - split; [done..|]. intros g. by rewrite ?Ed.
Qed.
Lemma step_guarded c e c' : guarded c -> no_exit e = true -> step c e = Some c' -> guarded c'.
Proof.
  intros [Hn Hm Hc] He. destruct e as [r| | |]; try done; cbn -[start_event_bridge]; intros [= <-].
  - destruct r as [r|e]; cbn -[start_event_bridge]; [|by split].
    apply start_guarded; cbn; [done| |].
    + intros g Hg. apply Hm in Hg. lia.
    + intros g [= <-]. split; [lia|]. split; [done|]. intros Hg. apply Hm in Hg. lia.
  - unfold set_emit_callback. apply start_guarded; cbn; [done..|]. intros g Hd. destruct (Hc g Hd) as (? & ? & _). done.
Qed.
Lemma run_guarded es : forall c c', guarded c -> forallb no_exit es = true -> run c es = Some c' -> guarded c'.
Proof.
  induction es as [|e es IH]; cbn; intros c c' Hg He; [by intros [= <-]|]. apply andb_true_iff in He as [He1 He2].
  destruct (step c e) as [c1|] eqn:E; [|done]. cbn. apply IH; [by eapply step_guarded|done].
Qed.

(** However often a client logs in, reconnects, fails to, and registers its callback, each connection has at most one bridge
    task, and the current one has it as soon as there is a callback.  A failed attempt leaves the former dispatcher in
    place: the client still counts as authenticated. *)
Theorem one_bridge es c : forallb no_exit es = true -> run conn_new es = Some c ->
  NoDup (bridges c) /\ (forall g, dispatcher c = Some g -> callback c = true -> g ∈ bridges c) /\
  (forall e, is_authenticated (do_connect (Err e) c).2 = is_authenticated c /\ status (do_connect (Err e) c).2 = Disconnected /\
     bridges (do_connect (Err e) c).2 = bridges c).
Proof.
  intros He Hr. assert (guarded c) as [Hn _ Hc].
  { eapply run_guarded; [|exact He|exact Hr]. split; cbn; [constructor| |done]. by intros g Hg%elem_of_nil. }
  split; [done|]. split; [|done]. intros g Hd Hb. destruct (Hc g Hd) as (_ & Hi & Hs). by apply Hi, Hs.
Qed.

Definition session (id : string) : Wire.LoginResponse := {| Wire.lr_token := "t"; Wire.expires_at := "e"; Wire.lr_session_id := id |}.
Lemma one_bridge_witness : exists c, run conn_new [Connect (Ok (session "s1")); SetCallback; Connect (Err ETimeout); SetCallback] = Some c /\
  NoDup (bridges c) /\ is_authenticated (do_connect (Err ETimeout) c).2 = true.
Proof.
  eexists. split; [reflexivity|].
  destruct (one_bridge [Connect (Ok (session "s1")); SetCallback; Connect (Err ETimeout); SetCallback] _ eq_refl eq_refl) as (H1 & _ & H2).
  split; [exact H1|]. exact (proj1 (H2 ETimeout)).
Defined.

(** When the bridge of the former connection ends after the new one started, it clears the new one's flag, and the next
    registration starts a second task on the same connection: the UI then gets every event twice.  A bridge that only
    lagged is gone for good while the connection lives. *)
Lemma late_exit_doubles : exists c, run conn_new
    [Connect (Ok (session "s1")); SetCallback; Connect (Ok (session "s2")); ChannelClosed 0; SetCallback] = Some c /\
  dispatcher c = Some 1%nat /\ bridges c = [1%nat; 1%nat].
Proof. by eexists. Qed.
Lemma lagged_bridge_gone : exists c, run conn_new [Connect (Ok (session "s1")); SetCallback; BridgeLagged 0] = Some c /\
  dispatcher c = Some 0%nat /\ callback c = true /\ bridges c = [].
Proof. by eexists. Qed.
End App.

(** ** [commands.rs] and [commands/spawn_agent.rs] *)

Module Commands.
Section Commands.
(** The dispatcher's [call] and token; the id of the command that is made. *)
Variable call : Wire.Cmd -> result ClientError Wire.Reply.
Variable token uuid : string.
(** [Value]'s display, and serde's message for a value it rejects. *)
Variable json_text : json -> string.
Variable serde_message : json -> string.

(** [format!("{:?}", code).to_uppercase()]. *)
Definition debug_code (c : AtpErrorCode) : string :=
  match c with
  | Eauth => "Eauth" | Eexpired => "Eexpired" | Esession => "Esession" | Eperm => "Eperm" | Enotfound => "Enotfound"
  | Econflict => "Econflict" | Eused => "Eused" | Elimit => "Elimit" | Eparse => "Eparse" | Einternal => "Einternal"
  | Eunavail => "Eunavail"
  end.
Definition reply_result (r : Wire.Reply) : result ClientError (option json) :=
  if Wire.rp_ok r then Ok (Wire.rp_body r)
  else Err (match Wire.rp_error r with
            | Some e => EAtp (Ipc.to_uppercase (debug_code (Gateway.code e))) (Gateway.message e)
            | None => EAtp (default "EUNKNOWN"%string (Wire.rp_code r)) (default "unknown error"%string (Wire.rp_message r))
            end).
Definition dispatch (domain op : string) (body : json) : result ClientError (option json) :=
  r ← call (Wire.with_token (Wire.cmd_new uuid domain op EmptyString body) token); reply_result r.
Definition unit_reply (r : result ClientError (option json)) : result ClientError unit := _ ← r; Ok ().
(** A list, or nothing for anything else. *)
Definition array_or_empty (r : result ClientError (option json)) : result ClientError (list json) :=
  b ← r; Ok (match b with Some (JArr l) => l | _ => [] end).
Definition some_or (m : string) (r : result ClientError (option json)) : result ClientError json := r ≫= ok_or (EOther m).
(** A command that fails because its target is not there gives nothing. *)
Definition absent_is_none (r : result ClientError (option json)) : result ClientError (option json) :=
  match r with
  | Err (EAtp c m) => if str_contains "32003" c || str_contains "ENOTFOUND" c then Ok None else Err (EAtp c m)
  | _ => r
  end.

(** [signal/send] *)
Definition signal_body (pid : Z) (signal : string) (payload : option json) : json :=
  JObj [("pid", JInt pid); ("signal", JStr signal); ("payload", default JNull payload)]%string.
Definition send_signal (pid : Z) (signal : string) (payload : option json) : result ClientError unit :=
  unit_reply (dispatch "signal" "send" (signal_body pid signal payload)).
Definition pipe_text (pid : Z) (text : string) : result ClientError unit :=
  send_signal pid "SIGPIPE" (Some (JObj [("text", JStr text)]%string)).
Definition hil_payload (hil_id approval_token : string) (approved : bool) (note : option string) : json :=
  let p := JObj [("hilId", JStr hil_id); ("approvalToken", JStr approval_token);
                 ("decision", JStr (if approved then "approved" else "denied"))]%string in
  match note with Some n => jobj_insert p "note" (JStr n) | None => p end.
Definition resolve_hil (pid : Z) (hil_id approval_token : string) (approved : bool) (note : option string) : result ClientError unit :=
  send_signal pid "SIGRESUME" (Some (hil_payload hil_id approval_token approved note)).
Definition kill_agent (pid : Z) : result ClientError unit := send_signal pid "SIGKILL" None.

(** [proc] *)
Definition list_agents : result ClientError (list json) :=
  b ← dispatch "proc" "list" (JObj []);
  match b with
  | Some (JArr l) => Ok l
  | Some other => Err (EOther ("proc/list expected array, got: " +:+ json_text other)%string)
  | None => Ok []
  end.
Definition by_user (username : string) : json := JObj [("username", JStr username)]%string.
Definition by_id (i : string) : json := JObj [("id", JStr i)]%string.
Definition with_agent (b : json) (agent_name : option string) : json :=
  match agent_name with Some n => jobj_insert b "agent_name" (JStr n) | None => b end.
Definition list_installed (username : string) := array_or_empty (dispatch "proc" "list-installed" (by_user username)).
Definition list_invocations (username : string) (agent_name : option string) :=
  array_or_empty (dispatch "proc" "invocation-list" (with_agent (by_user username) agent_name)).
Definition get_invocation (i : string) := absent_is_none (dispatch "proc" "invocation-get" (by_id i)).
Definition snapshot_invocation (i : string) :=
  some_or "empty snapshot response" (dispatch "proc" "invocation-snapshot" (by_id i)).
Definition list_invocations_live (username : string) (agent_name : option string) :=
  array_or_empty (dispatch "proc" "invocation-list"
    (with_agent (JObj [("username", JStr username); ("live", JBool true)]%string) agent_name)).
Definition list_sessions (username : string) := array_or_empty (dispatch "proc" "session-list" (by_user username)).
Definition get_session (i : string) := absent_is_none (dispatch "proc" "session-get" (by_id i)).
Definition delete_session (i : string) :=
  unit_reply (dispatch "proc" "session-delete" (JObj [("session_id", JStr i)]%string)).
Definition resume_session (i input : string) :=
  some_or "empty session-resume response"
    (dispatch "proc" "session-resume" (JObj [("session_id", JStr i); ("input", JStr input)]%string)).
Definition get_invocation_conversation (i : string) := array_or_empty (dispatch "proc" "invocation-conversation" (by_id i)).
Definition list_invocations_for_session (i : string) :=
  array_or_empty (dispatch "proc" "invocation-list" (JObj [("session_id", JStr i)]%string)).
Definition spawn_agent (agent goal : string) (capabilities : list string) : result ClientError Z :=
  b ← some_or "proc/spawn returned no body" (dispatch "proc" "spawn"
        (JObj [("name", JStr agent); ("goal", JStr goal); ("capabilities", jstrs capabilities)]%string));
  ok_or (EOther "proc/spawn reply missing `pid`") (as_u64 (jindex b "pid")).

(** [sys] *)
Record ServiceListResponse : Type := { sl_total : Z; sl_running : Z; sl_starting : Z; sl_services : list json }.
Record ToolListResponse : Type := { tl_total : Z; tl_available : Z; tl_unavailable : Z; tl_tools : list json }.
(** Three counts and a list that defaults to empty. *)
Definition counted (k1 k2 k3 items : string) (v : json) : option (Z * Z * Z * list json) :=
  a ← sfield 4 0 k1 v ≫= as_u64; b ← sfield 4 1 k2 v ≫= as_u64; c ← sfield 4 2 k3 v ≫= as_u64;
  l ← match sfield 4 3 items v with None => Some [] | Some (JArr l) => Some l | Some _ => None end;
  Some (a, b, c, l).
Definition counted_reply (k1 k2 k3 items : string) (b : option json) : result ClientError (Z * Z * Z * list json) :=
  match b with
  | Some (JObj m) => ok_or (EOther (serde_message (JObj m))) (counted k1 k2 k3 items (JObj m))
  | Some (JArr l) => Ok (Z.of_nat (length l), 0, 0, l)
  | _ => Ok (0, 0, 0, [])
  end.
Definition list_services : result ClientError ServiceListResponse :=
  b ← dispatch "sys" "service-list" (JObj []); '(t, r, s, l) ← counted_reply "total" "running" "starting" "services" b;
  Ok {| sl_total := t; sl_running := r; sl_starting := s; sl_services := l |}.
Definition list_tools : result ClientError ToolListResponse :=
  b ← dispatch "sys" "tool-list" (JObj []); '(t, a, u, l) ← counted_reply "total" "available" "unavailable" "tools" b;
  Ok {| tl_total := t; tl_available := a; tl_unavailable := u; tl_tools := l |}.

End Commands.

(** *** What the server's replies become *)

(** The result of a command the gateway answers with [r]. *)
Lemma reply_result_of r r' : Wire.rp_ok r' = Gateway.rp_ok r -> Wire.rp_body r' = non_null (Gateway.rp_body r) ->
  Wire.rp_error r' = trip_error <$> Gateway.rp_error r -> (Gateway.rp_ok r = false -> is_Some (Gateway.rp_error r)) ->
  reply_result r' = match Gateway.rp_ok r, Gateway.rp_error r with
                    | false, Some e => Err (EAtp (Wire.error_code_name (Gateway.code e)) (Gateway.message e))
                    | _, _ => Ok (non_null (Gateway.rp_body r))
                    end.
Proof.
  intros Ho Hb He Hs. unfold reply_result. rewrite Ho, Hb, He. destruct (Gateway.rp_ok r); [done|].
  destruct (Hs eq_refl) as [e ->]. cbn. by destruct e as [[] m d].
Qed.

(** A failure of the kernel counts as "not there" exactly when the gateway's code for it is [Enotfound]: the codes it can
    send never hold the number the client also looks for. *)
Lemma absent_iff msg code e :
  absent_is_none (Err (EAtp (Wire.error_code_name (ipc_code_to_atp msg code)) e)) = Ok None <-> ipc_code_to_atp msg code = Enotfound.
Proof. destruct (ipc_code_to_atp msg code); by vm_compute. Qed.

(** The commands' domains and operations. *)
Definition client_ops : list (AtpDomain.t * string) :=
  [(AtpDomain.Signal, "send"); (AtpDomain.Proc, "spawn"); (AtpDomain.Proc, "list"); (AtpDomain.Proc, "list-installed");
   (AtpDomain.Proc, "invocation-list"); (AtpDomain.Proc, "invocation-get"); (AtpDomain.Proc, "invocation-snapshot");
   (AtpDomain.Proc, "invocation-conversation"); (AtpDomain.Proc, "session-list"); (AtpDomain.Proc, "session-get");
   (AtpDomain.Proc, "session-delete"); (AtpDomain.Proc, "session-resume"); (AtpDomain.Sys, "service-list");
   (AtpDomain.Sys, "tool-list")]%string.


Section Served.
Context {R H : Type} `{!IpcRouter R, !HilResolver H, !Codec}.
Variable rfc3339 : Z -> string.
Variable pipe_of_value : json -> result string SigPipePayload.t.
Variable pipe_to_value : SigPipePayload.t -> result string json.
Variable base64_decode : string -> result string string.
Implicit Types c : HandlerCtx (R := R) (H := H).
Abbreviation dispatch_ := (Handlers.dispatch rfc3339 pipe_of_value pipe_to_value base64_decode).

Ltac eval_ops :=
  repeat match goal with
  | |- context [list_contains ?a ?l] => let b := eval vm_compute in (list_contains a l) in change (list_contains a l) with b
  | |- context [String.eqb ?a ?l] => let b := eval vm_compute in (String.eqb a l) in change (String.eqb a l) with b
  end; cbv match beta.
Lemma default_field_obj l key value : exists l', default_field (JObj l) key value = Some (JObj l').
Proof. unfold default_field. destruct (String.eqb _ _); by eexists. Qed.
(** The methods of the kernel. *)
Definition kernel_op (d : AtpDomain.t) (o : string) : option Op :=
  op_of (match d with
         | AtpDomain.Sys => "kernel/sys/" +:+ o
         | _ => "kernel/proc/" +:+ (if list_contains o session_ops || String.eqb o "session-list" then replace_char "-" "/" o else o)
         end)%string.

(** Every command but the signals is forwarded to a method the kernel has a handler for. *)
Lemma client_ops_forwarded now v c l : Gateway.body (vc_cmd v) = JObj l -> Gateway.domain (vc_cmd v) <> AtpDomain.Signal ->
  (Gateway.domain (vc_cmd v), Gateway.op (vc_cmd v)) ∈ client_ops ->
  exists k b, kernel_op (Gateway.domain (vc_cmd v)) (Gateway.op (vc_cmd v)) = Some k /\
    dispatch_ now v c = ipc_forward (cmd_id (vc_cmd v)) (op_name k) b c.
Proof.
  intros Hb Hs Hin. unfold client_ops in Hin. rewrite !elem_of_cons in Hin. unfold Handlers.dispatch.
  destruct Hin as [[= Hd Ho]|[[= Hd Ho]|[[= Hd Ho]|[[= Hd Ho]|[[= Hd Ho]|[[= Hd Ho]|[[= Hd Ho]|[[= Hd Ho]|[[= Hd Ho]|
    [[= Hd Ho]|[[= Hd Ho]|[[= Hd Ho]|[[= Hd Ho]|[[= Hd Ho]|Hin]]]]]]]]]]]]]]; [congruence|..|by apply elem_of_nil in Hin];
    rewrite Hd, Ho; unfold handle_proc, handle_sys, forward_ops; rewrite Ho, Hb; eval_ops.
  all: try (eexists _, _; split; reflexivity).
  all: try (destruct (default_field_obj l "username" (caller_identity v)) as [b ->]; eexists _, _; split; reflexivity).
  all: unfold spawn_body, session_body; cbn [mbind option_bind index_assign].
  all: try (eexists _, _; split; reflexivity).
  all: destruct (default_field_obj l "caller" (caller_identity v)) as [l' ->]; cbn [mbind option_bind].
  all: unfold or_insert_empty; destruct (jget (JObj l') "session_id"); eexists _, _; split; reflexivity.
Qed.

(** *** A question to a human and its answer *)

(** The body of [resolve_hil] is what the gateway's handler takes for an answer. *)
Lemma resolve_hil_served now id pid hil_id tok approved note c m : hil_manager c = Some m ->
  handle_send pipe_of_value pipe_to_value base64_decode now id (signal_body pid "SIGRESUME" (Some (hil_payload hil_id tok approved note))) c =
  Some (match hil_resolve now m hil_id tok (if approved then "approved" else "denied")%string EmptyString with
        | Ok m' => (reply_ok id (JObj [("ok", JBool true)]%string), with_hil c m')
        | Err e => (reply_err id (avix_err_to_atp e), c)
        end).
Proof.
  intros Hm. unfold handle_send, signal_body. cbn [jindex jget]. read_keys. unfold Handlers.resolve_hil.
  destruct note as [n|], approved; cbn; read_keys; rewrite Hm; reflexivity.
Qed.
End Served.
End Commands.

Section Answered.
Context {R B Rv B' Rv' : Type} `{!IpcRouter R, !Broadcast BusEvent B Rv, !Broadcast Signal B' Rv', !Codec}.
Variable to_yaml : HilRequest -> result string string.
Variable instant_json : Z -> json.
Variable pipe_of_value : json -> result string SigPipePayload.t.
Variable pipe_to_value : SigPipePayload.t -> result string json.
Variable base64_decode : string -> result string string.
Variable instant_of : json -> option Z.
#[local] Instance manager : HilResolver (HilManager (B := B) (B' := B')) := hil_resolver to_yaml instant_json.
Implicit Types c : HandlerCtx (R := R) (H := HilManager (B := B) (B' := B')).

End Answered.

(** *** Alice approves *)

Module Toy.
Import LogBroadcast.

#[local] Instance no_kernel : IpcRouter unit := fun k _ _ => Some (Ok JNull, k).
#[local] Instance toy_codec : Codec := {|
  claims_to_json _ := EmptyString; claims_from_json _ := Err EmptyString; base64url_encode s := s; base64url_decode s := Ok s;
  hmac_hex _ _ := "s"%string; hmac_bytes _ _ := "s"%string; hex_decode s := Some s |}.
Definition gateway_ctx : HandlerCtx (R := unit) (H := HilManager (B := log BusEvent) (B' := log Signal)) := {|
  ipc := (); token_store := store_new "k"; auth_svc := sample_auth; hil_manager := Some hil_mgr |}.


Lemma notifications_kept_witness : exists l1 l2,
  Notif.run [] [Notif.Add (Notif.from_sys_alert 5 "u1" "info" "up")] = Some l1 /\ Notif.run l1 [Notif.MarkRead "u1"] = Some l2 /\
  StronglySorted Notif.newer l2.
Proof.
  destruct (Notif.notifications_kept [Notif.Add (Notif.from_sys_alert 5 "u1" "info" "up")] [Notif.MarkRead "u1"])
    as (l1 & l2 & H1 & H2 & Hs & _); [|by exists l1, l2].
  intros n Hn. cbn in Hn. apply elem_of_cons in Hn as [[= ->]|Hn]; [done|].
  apply elem_of_cons in Hn as [[=]|Hn]. by apply elem_of_nil in Hn.
Defined.
End Toy.
