(* ===== verification/Tui.v ===== *)
(** * The terminal UI: state, reducer, command line, events

    Models [src/crates/avix-cli/src/tui/]: the state and the reducer of [state.rs], the command parser of [parser.rs], the
    buffers and selections of [widgets/], and of [app.rs] what an event from the server does, what a command does, what
    a key does in each mode, and the refresh from the shared state.  Texts are their bytes, so that an index that is no
    character boundary panics, which is [None].  The fields of [TuiState] are grouped in records; drawing is not
    modelled. *)

From S2P Require Import Prelude Types Text Auth Gateway Manifests ClientAtp Client Json.
Local Open Scope Z_scope.

(** ** Texts as the widgets edit them *)

(** [s.insert(i, c)] and [s.remove(i)]. *)
Definition insert_at (s : string) (i : nat) (c : string) : option string :=
  if bool_decide (i <= String.length s)%nat && is_char_boundary s i then Some (str_take i s +:+ c +:+ str_drop i s)%string else None.
(** What follows the first character. *)
Fixpoint drop_conts (s : string) : string :=
  match s with EmptyString => EmptyString | String c t => if is_cont c then drop_conts t else s end.
Definition remove_at (s : string) (i : nat) : option string :=
  if bool_decide (i < String.length s)%nat && is_char_boundary s i
  then Some (str_take i s +:+ drop_conts (str_drop (S i) s))%string else None.
(** [s.pop()]: without the last character. *)
Fixpoint pop_char (s : string) : string :=
  match s with
  | EmptyString => EmptyString
  | String c t => match drop_conts t with EmptyString => EmptyString | _ => String c (pop_char t) end
  end.

(** ** [widgets/agent_output.rs] and the selections *)

Module Output.

Record AgentOutputBuffer : Type := { lines : list string; scroll_offset : Z; processing_since : option Z }.
Definition empty : AgentOutputBuffer := {| lines := []; scroll_offset := 0; processing_since := None |}.
Definition MAX_LINES : nat := Z.to_nat 5000.
#[global] Arguments MAX_LINES : simpl never.
Definition newline : ascii := "010".

(** [text.split_inclusive('\n')] *)
Fixpoint split_inclusive (s : string) : list string :=
  match s with
  | EmptyString => []
  | String c t =>
      if Ascii.eqb c newline then String c EmptyString :: split_inclusive t
      else match split_inclusive t with [] => [String c EmptyString] | x :: r => String c x :: r end
  end.
Definition push_line (l : list string) (x : string) : list string :=
  let l := l ++ [x] in if decide (MAX_LINES < length l)%nat then tail l else l.
Definition with_lines (b : AgentOutputBuffer) (l : list string) : AgentOutputBuffer :=
  {| lines := l; scroll_offset := scroll_offset b; processing_since := processing_since b |}.
Definition push_text (b : AgentOutputBuffer) (text : string) : AgentOutputBuffer :=
  with_lines b (foldl push_line (lines b) (trim_end_matches newline <$> split_inclusive text)).
Definition push_user_message (b : AgentOutputBuffer) (text : string) : AgentOutputBuffer :=
  push_text b ("> " +:+ text +:+ String newline EmptyString)%string.
Definition set_processing (now : Z) (b : AgentOutputBuffer) (processing : bool) : AgentOutputBuffer :=
  {| lines := lines b; scroll_offset := scroll_offset b; processing_since := if processing then Some now else None |}.

Definition with_scroll (b : AgentOutputBuffer) (n : Z) : AgentOutputBuffer :=
  {| lines := lines b; scroll_offset := n; processing_since := processing_since b |}.
Definition last_line (b : AgentOutputBuffer) : Z := Z.max 0 (Z.of_nat (length (lines b)) - 1).
Definition visible_lines (b : AgentOutputBuffer) (height : Z) : list string :=
  take (Z.to_nat height) (drop (Z.to_nat (scroll_offset b)) (lines b)).
(** The offset is a [u16]. *)
Definition scroll_down (b : AgentOutputBuffer) (n : Z) : AgentOutputBuffer :=
  let o := Z.min (scroll_offset b + n) 65535 in with_scroll b (if decide (last_line b < o) then last_line b mod 65536 else o).
Definition scroll_up (b : AgentOutputBuffer) (n : Z) : AgentOutputBuffer := with_scroll b (Z.max 0 (scroll_offset b - n)).
Definition scroll_to_bottom (b : AgentOutputBuffer) : AgentOutputBuffer := with_scroll b (last_line b mod 65536).

Lemma push_line_bound l x : (length l <= MAX_LINES)%nat -> (length (push_line l x) <= MAX_LINES)%nat.
Proof.
  intros Hl. unfold push_line. case_decide as Hd; [|lia].
  destruct (l ++ [x]) as [|y r] eqn:E; cbn [tail length] in *; [lia|].
  assert (length (l ++ [x]) = S (length r)) as Hr by (by rewrite E). rewrite length_app in Hr. cbn in Hr. lia.
Qed.
(** A buffer never holds more than its maximum, and shows the end of what was pushed. *)
Lemma push_lines_bound xs l : (length l <= MAX_LINES)%nat -> (length (foldl push_line l xs) <= MAX_LINES)%nat.
Proof. revert l. induction xs as [|x xs IH]; intros l Hl; cbn; [done|]. by apply IH, push_line_bound. Qed.
Lemma push_line_tail l x : exists n, push_line l x = drop n (l ++ [x]).
Proof. unfold push_line. case_decide; [exists 1%nat; by destruct (l ++ [x])|by exists 0%nat]. Qed.
Lemma push_lines_tail xs l : exists n, foldl push_line l xs = drop n (l ++ xs).
Proof.
  revert l. induction xs as [|x xs IH]; intros l; cbn; [exists 0%nat; by rewrite app_nil_r|].
  destruct (push_line_tail l x) as [n E]. destruct (IH (push_line l x)) as [m ->]. rewrite E.
  destruct (decide (n <= length (l ++ [x]))%nat).
  - exists (n + m)%nat. rewrite <-drop_drop. f_equal. by rewrite <-drop_app_le, <-app_assoc.
  - exists (length (l ++ [x]) + m)%nat. rewrite (drop_ge (l ++ [x]) n) by lia. rewrite <-drop_drop, (cons_middle x l xs), app_assoc, drop_app_length. done.
Qed.
(** Scrolling stays on the lines there are. *)
Lemma scroll_in_range b n : (length (lines b) <= MAX_LINES)%nat -> 0 <= n -> 0 <= scroll_offset b <= last_line b ->
  0 <= scroll_offset (scroll_down b n) <= last_line b /\ 0 <= scroll_offset (scroll_up b n) <= last_line b /\
  scroll_offset (scroll_to_bottom b) = last_line b.
Proof.
  intros Hl Hn Ho. unfold scroll_down, scroll_up, scroll_to_bottom, with_scroll. cbn [scroll_offset].
  assert (0 <= last_line b < 65536) as Hb by (unfold last_line, MAX_LINES in *; lia).
  rewrite (Z.mod_small (last_line b)) by done. split; [case_decide; lia|]. split; [lia|done].
Qed.
(** The pieces of a streamed answer become lines of their own, though the answer has no line break. *)
Lemma deltas_are_lines : lines (push_text (push_text empty "Hel") "lo") = ["Hel"; "lo"]%string /\
  lines (push_text empty "Hello") = ["Hello"%string].
Proof. done. Qed.

End Output.

(** The selected index of a list of [n] elements. *)
Definition select_next (n i : nat) : nat := if decide (n = 0)%nat then i else Nat.min (i + 1) (n - 1).
Definition select_prev (i : nat) : nat := Nat.pred i.
Lemma select_next_range n i : (n <> 0)%nat -> (select_next n i < n)%nat.
Proof. intros Hn. unfold select_next. rewrite decide_False by done. lia. Qed.

(** ** [parser.rs] *)

Inductive ParsedCommand : Type :=
| Quit | CmdConnect | Spawn (name goal : string) | Kill (pid : Z) | Help | CmdToggleLogs | ToggleNotifications
| ToggleNewAgentForm | Invalid (s : string) | Catalog | InstallAgent (source : string) | InstallService (source : string).
#[global] Instance ParsedCommand_eq_dec : EqDecision ParsedCommand.
Proof. solve_decision. Defined.

Definition quote : ascii := "034".
Definition space : ascii := "032".
Definition flush (cur : string) : list string := if String.eqb cur EmptyString then [] else [cur].
(** The loop of [parse_quoted]: the current part, and whether a quote is open. *)
Fixpoint quoted_from (cur : string) (in_quotes : bool) (s : string) : list string :=
  match s with
  | EmptyString => flush cur
  | String c t =>
      if Ascii.eqb c quote then quoted_from cur (negb in_quotes) t
      else if Ascii.eqb c space && negb in_quotes then flush cur ++ quoted_from EmptyString in_quotes t
      else quoted_from (cur +:+ String c EmptyString)%string in_quotes t
  end.
Definition parse_quoted (s : string) : list string := quoted_from EmptyString false s.

Definition one_of (s : string) (l : list string) : bool := list_contains s l.
Definition parse (input : string) : result string ParsedCommand :=
  match strip_prefix "/" input with
  | None => Err "Command must start with '/'"%string
  | Some rest =>
      let trimmed := trim rest in
      if String.eqb trimmed EmptyString then Err "Empty command"%string
      else
        let unknown := Err ("Unknown command: " +:+ trimmed)%string in
        match parse_quoted trimmed with
        | [a] =>
            if one_of a ["quit"; "q"] then Ok Quit
            else if one_of a ["connect"; "c"] then Ok CmdConnect
            else if one_of a ["help"; "h"; "?"] then Ok Help
            else if one_of a ["logs"; "log"] then Ok CmdToggleLogs
            else if one_of a ["notifs"; "notifications"; "n"] then Ok ToggleNotifications
            else if one_of a ["new-agent-form"; "new"; "f"] then Ok ToggleNewAgentForm
            else if one_of a ["catalog"] then Ok Catalog
            else unknown
        | [a; b] =>
            if one_of a ["kill"] then
              match parse_u64 b with Some pid => Ok (Kill pid) | None => Err "kill requires a valid PID (number)"%string end
            else unknown
        | [a; b; c] =>
            if one_of a ["spawn"] then
              if String.eqb b EmptyString || String.eqb c EmptyString then Err "spawn requires name and goal"%string else Ok (Spawn b c)
            else if one_of a ["install"] then
              if String.eqb c EmptyString then Err "install requires a source"%string
              else if one_of b ["agent"] then Ok (InstallAgent c)
              else if one_of b ["service"] then Ok (InstallService c)
              else Err ("Unknown install target: " +:+ b +:+ ". Use 'agent' or 'service'")%string
            else unknown
        | _ => unknown
        end
  end%string.

(** A part is never empty, so the checks for empty names and sources never fire. *)
Lemma flush_nonempty cur : EmptyString ∉ flush cur.
Proof.
  unfold flush. destruct (String.eqb_spec cur EmptyString) as [_|Hn]; [apply not_elem_of_nil|].
  intros H. apply list_elem_of_singleton in H. congruence.
Qed.
Lemma quoted_nonempty s : forall cur q, EmptyString ∉ quoted_from cur q s.
Proof.
  induction s as [|c t IH]; intros cur q; cbn; [apply flush_nonempty|].
  destruct (Ascii.eqb c quote); [apply IH|]. destruct (_ && _); [|apply IH].
  intros [H|H]%elem_of_app; [by eapply flush_nonempty|by eapply IH].
Qed.

(** Plain text: no quote. *)
Fixpoint plain (s : string) : bool := match s with EmptyString => true | String c t => negb (Ascii.eqb c quote) && plain t end.
Fixpoint solid (s : string) : bool :=
  match s with EmptyString => true | String c t => negb (Ascii.eqb c quote) && negb (Ascii.eqb c space) && solid t end.
Lemma quoted_solid s : forall cur rest q, solid s = true -> quoted_from cur q (s +:+ rest) = quoted_from (cur +:+ s) q rest.
Proof.
  induction s as [|c t IH]; intros cur rest q Hs; cbn; [by rewrite str_app_nil_r|].
  apply andb_true_iff in Hs as [[Hq Hsp]%andb_true_iff Ht]. apply negb_true_iff in Hq, Hsp. rewrite Hq, Hsp. cbn.
  rewrite IH by done. by rewrite str_app_assoc.
Qed.
Lemma quoted_plain s : forall cur rest, plain s = true -> quoted_from cur true (s +:+ rest) = quoted_from (cur +:+ s) true rest.
Proof.
  induction s as [|c t IH]; intros cur rest Hs; cbn; [by rewrite str_app_nil_r|].
  apply andb_true_iff in Hs as [Hq Ht]. apply negb_true_iff in Hq. rewrite Hq, andb_false_r.
  rewrite IH by done. by rewrite str_app_assoc.
Qed.

Definition quoted (s : string) : string := String quote (s +:+ String quote EmptyString).
(** The line the log shows for a spawn is read back as its name and its goal, spaces included. *)
Lemma spawn_line_parts name goal : solid name = true -> name <> EmptyString -> plain goal = true -> goal <> EmptyString ->
  parse_quoted ("spawn " +:+ name +:+ " " +:+ quoted goal)%string = ["spawn"; name; goal]%string.
Proof.
  intros Hs Hn Hp Hg. unfold parse_quoted. cbn. rewrite (quoted_solid name) by done. cbn.
  unfold flush at 1. rewrite (proj2 (String.eqb_neq name _)) by done. cbn. unfold quoted. cbn.
  rewrite quoted_plain by done. cbn. unfold flush. by rewrite (proj2 (String.eqb_neq goal _)) by done.
Qed.

(** ** [state.rs] *)

Record CommandInputState : Type := { input : string; cursor_pos : nat; history_index : nat }.
Record NewAgentFormState : Type := { f_name : string; f_goal : string; focused_field : nat; f_error : option string }.
Inductive TuiEvent : Type :=
| SentCommand (cmd : string) (timestamp : Z)
| ReceivedAtp (kind : Wire.EventKind) (pid : option Z) (summary : string) (timestamp : Z).
Definition log_push (l : list TuiEvent) (e : TuiEvent) : list TuiEvent :=
  let l := l ++ [e] in if decide (10 < length l)%nat then tail l else l.
Inductive InstallState : Type := Idle | InProgress (name : string) (progress : list string) | InstallDone (name : string) | Failed (name error : string).
Inductive TuiTab : Type := TabRunning | TabCatalog.

(** What mirrors the client's shared state; the question on screen and since when; the command line; what is open. *)
Record Shared : Type := {
  connected : bool; agents : list App.ActiveAgent; notifications_count : nat; hil_pending : nat;
  notifications : list Notif.Notification }.
Record CommandLine : Type := {
  command_mode : bool; command_input : option CommandInputState; command_history : list string }.
Record Panels : Type := {
  notifications_popup_open : bool; new_agent_form : option NewAgentFormState; log_visible : bool; help_modal_open : bool;
  active_tab : TuiTab }.
Record TuiState : Type := {
  shared : Shared; pending_hil : option Notif.HilState; hil_started_at : option Z;
  agent_output_buffers : gmap Z Output.AgentOutputBuffer; line : CommandLine; panels : Panels; event_log : list TuiEvent;
  catalog : list AgentManifestSummary; install : InstallState; sel_agent : nat; sel_notification : nat; sel_catalog : nat }.

Definition line_new : CommandLine := {| command_mode := false; command_input := None; command_history := [] |}.
Definition default_state : TuiState := {|
  shared := {| connected := false; agents := []; notifications_count := 0; hil_pending := 0; notifications := [] |};
  pending_hil := None; hil_started_at := None; agent_output_buffers := ∅; line := line_new;
  panels := {| notifications_popup_open := false; new_agent_form := None; log_visible := false; help_modal_open := false;
               active_tab := TabRunning |};
  event_log := []; catalog := []; install := Idle; sel_agent := 0; sel_notification := 0; sel_catalog := 0 |}.

Inductive InputDelta : Type := DChar (c : string) | DBackspace | DLeft | DRight | DHistoryUp | DHistoryDown.
Inductive Action : Type :=
| AConnect | ADisconnect | UpdateAgents (l : list App.ActiveAgent) | UpdateNotifications (n : nat) | UpdateHilPending (n : nat)
| UpdateAgentOutput (pid : Z) (text : string) | SetPendingHil (h : option Notif.HilState) | ToggleNotificationsPopup
| SetNewAgentForm (f : option NewAgentFormState) | EnterCommandMode | ExitCommandMode | UpdateCommandInput (d : InputDelta)
| SubmitCommand (s : string) | LogEvent (e : TuiEvent) | ToggleLogs | ToggleHelpModal | CloseHelpModal
| UpdateCatalog (l : list AgentManifestSummary) | SwitchTab (t : TuiTab) | InstallStart (name : string)
| InstallProgress (m : string) | InstallComplete (name : string) | InstallError (e : string) | DismissInstall
| AppendUserMessage (pid : Z) (text : string) | SetAgentProcessing (pid : Z) (p : bool).

Definition with_shared (s : TuiState) x : TuiState := {|
  shared := x; pending_hil := pending_hil s; hil_started_at := hil_started_at s; agent_output_buffers := agent_output_buffers s;
  line := line s; panels := panels s; event_log := event_log s; catalog := catalog s; install := install s;
  sel_agent := sel_agent s; sel_notification := sel_notification s; sel_catalog := sel_catalog s |}.
Definition with_hil (s : TuiState) h t : TuiState := {|
  shared := shared s; pending_hil := h; hil_started_at := t; agent_output_buffers := agent_output_buffers s;
  line := line s; panels := panels s; event_log := event_log s; catalog := catalog s; install := install s;
  sel_agent := sel_agent s; sel_notification := sel_notification s; sel_catalog := sel_catalog s |}.
Definition with_buffers (s : TuiState) b : TuiState := {|
  shared := shared s; pending_hil := pending_hil s; hil_started_at := hil_started_at s; agent_output_buffers := b;
  line := line s; panels := panels s; event_log := event_log s; catalog := catalog s; install := install s;
  sel_agent := sel_agent s; sel_notification := sel_notification s; sel_catalog := sel_catalog s |}.
Definition with_line (s : TuiState) x : TuiState := {|
  shared := shared s; pending_hil := pending_hil s; hil_started_at := hil_started_at s;
  agent_output_buffers := agent_output_buffers s; line := x; panels := panels s; event_log := event_log s; catalog := catalog s;
  install := install s; sel_agent := sel_agent s; sel_notification := sel_notification s; sel_catalog := sel_catalog s |}.
Definition with_panels (s : TuiState) x : TuiState := {|
  shared := shared s; pending_hil := pending_hil s; hil_started_at := hil_started_at s;
  agent_output_buffers := agent_output_buffers s; line := line s; panels := x; event_log := event_log s; catalog := catalog s;
  install := install s; sel_agent := sel_agent s; sel_notification := sel_notification s; sel_catalog := sel_catalog s |}.
Definition with_log (s : TuiState) x : TuiState := {|
  shared := shared s; pending_hil := pending_hil s; hil_started_at := hil_started_at s;
  agent_output_buffers := agent_output_buffers s; line := line s; panels := panels s; event_log := x; catalog := catalog s;
  install := install s; sel_agent := sel_agent s; sel_notification := sel_notification s; sel_catalog := sel_catalog s |}.
Definition with_catalog (s : TuiState) l i : TuiState := {|
  shared := shared s; pending_hil := pending_hil s; hil_started_at := hil_started_at s;
  agent_output_buffers := agent_output_buffers s; line := line s; panels := panels s; event_log := event_log s; catalog := l;
  install := install s; sel_agent := sel_agent s; sel_notification := sel_notification s; sel_catalog := i |}.
Definition with_install (s : TuiState) x : TuiState := {|
  shared := shared s; pending_hil := pending_hil s; hil_started_at := hil_started_at s;
  agent_output_buffers := agent_output_buffers s; line := line s; panels := panels s; event_log := event_log s; catalog := catalog s;
  install := x; sel_agent := sel_agent s; sel_notification := sel_notification s; sel_catalog := sel_catalog s |}.
Definition with_selected (s : TuiState) a n c : TuiState := {|
  shared := shared s; pending_hil := pending_hil s; hil_started_at := hil_started_at s;
  agent_output_buffers := agent_output_buffers s; line := line s; panels := panels s; event_log := event_log s; catalog := catalog s;
  install := install s; sel_agent := a; sel_notification := n; sel_catalog := c |}.

Definition with_input (l : CommandLine) (i : option CommandInputState) : CommandLine :=
  {| command_mode := command_mode l; command_input := i; command_history := command_history l |}.
(** An edit of the command line; [None]: an index that is no character boundary, or none at all. *)
Definition edit (history : list string) (d : InputDelta) (i : CommandInputState) : option CommandInputState :=
  let move n := {| input := input i; cursor_pos := n; history_index := history_index i |} in
  let recall k s := {| input := s; cursor_pos := String.length s; history_index := k |} in
  match d with
  | DChar c => s ← insert_at (input i) (cursor_pos i) c;
               Some {| input := s; cursor_pos := cursor_pos i + 1; history_index := history_index i |}
  | DBackspace =>
      match cursor_pos i with
      | O => Some i
      | S k => s ← remove_at (input i) k; Some {| input := s; cursor_pos := k; history_index := history_index i |}
      end
  | DLeft => Some (move (Nat.pred (cursor_pos i)))
  | DRight => Some (if decide (cursor_pos i < String.length (input i))%nat then move (cursor_pos i + 1)%nat else i)
  | DHistoryUp =>
      match history_index i with O => Some i | S k => s ← history !! k; Some (recall k s) end
  | DHistoryDown =>
      if decide (history_index i < length history)%nat then
        if decide (history_index i + 1 = length history)%nat then Some (recall (history_index i + 1)%nat EmptyString)
        else s ← history !! (history_index i + 1)%nat; Some (recall (history_index i + 1)%nat s)
      else Some i
  end.
Definition buffer_of (s : TuiState) (pid : Z) : Output.AgentOutputBuffer := default Output.empty (agent_output_buffers s !! pid).
Definition update_buffer (s : TuiState) (pid : Z) (f : Output.AgentOutputBuffer -> Output.AgentOutputBuffer) : TuiState :=
  with_buffers s (<[pid := f (buffer_of s pid)]> (agent_output_buffers s)).
Definition set_popup (p : Panels) b : Panels := {| notifications_popup_open := b; new_agent_form := new_agent_form p;
  log_visible := log_visible p; help_modal_open := help_modal_open p; active_tab := active_tab p |}.
Definition set_form (p : Panels) f : Panels := {| notifications_popup_open := notifications_popup_open p; new_agent_form := f;
  log_visible := log_visible p; help_modal_open := help_modal_open p; active_tab := active_tab p |}.
Definition set_logs (p : Panels) b : Panels := {| notifications_popup_open := notifications_popup_open p; new_agent_form := new_agent_form p;
  log_visible := b; help_modal_open := help_modal_open p; active_tab := active_tab p |}.
Definition set_help (p : Panels) b : Panels := {| notifications_popup_open := notifications_popup_open p; new_agent_form := new_agent_form p;
  log_visible := log_visible p; help_modal_open := b; active_tab := active_tab p |}.
Definition set_tab (p : Panels) t : Panels := {| notifications_popup_open := notifications_popup_open p; new_agent_form := new_agent_form p;
  log_visible := log_visible p; help_modal_open := help_modal_open p; active_tab := t |}.
Definition disconnect (s : TuiState) : TuiState := {|
  shared := {| connected := false; agents := []; notifications_count := notifications_count (shared s); hil_pending := 0;
               notifications := notifications (shared s) |};
  pending_hil := None; hil_started_at := None; agent_output_buffers := ∅; line := line_new;
  panels := {| notifications_popup_open := false; new_agent_form := None; log_visible := false; help_modal_open := false;
               active_tab := active_tab (panels s) |};
  event_log := []; catalog := catalog s; install := install s; sel_agent := sel_agent s; sel_notification := sel_notification s;
  sel_catalog := sel_catalog s |}.

(** [now] is the clock. *)
Definition reducer (now : Z) (s : TuiState) (a : Action) : option TuiState :=
  let sh := shared s in
  match a with
  | AConnect => Some (with_shared s {| connected := true; agents := agents sh; notifications_count := notifications_count sh;
                        hil_pending := hil_pending sh; notifications := notifications sh |})
  | ADisconnect => Some (disconnect s)
  | UpdateAgents l => Some (with_shared s {| connected := connected sh; agents := l; notifications_count := notifications_count sh;
                        hil_pending := hil_pending sh; notifications := notifications sh |})
  | UpdateNotifications n => Some (with_shared s {| connected := connected sh; agents := agents sh; notifications_count := n;
                        hil_pending := hil_pending sh; notifications := notifications sh |})
  | UpdateHilPending n => Some (with_shared s {| connected := connected sh; agents := agents sh;
                        notifications_count := notifications_count sh; hil_pending := n; notifications := notifications sh |})
  | UpdateAgentOutput pid text => Some (update_buffer s pid (fun b => Output.push_text b text))
  | SetPendingHil h => Some (with_hil s h (match h with Some _ => Some now | None => None end))
  | ToggleNotificationsPopup => Some (with_panels s (set_popup (panels s) (negb (notifications_popup_open (panels s)))))
  | SetNewAgentForm f => Some (with_panels s (set_form (panels s) f))
  | EnterCommandMode => Some (with_line s {| command_mode := true;
        command_input := Some {| input := EmptyString; cursor_pos := 0; history_index := length (command_history (line s)) |};
        command_history := command_history (line s) |})
  | ExitCommandMode => Some (with_line s {| command_mode := false; command_input := None; command_history := command_history (line s) |})
  | UpdateCommandInput d =>
      match command_input (line s) with
      | None => Some s
      | Some i => i ← edit (command_history (line s)) d i; Some (with_line s (with_input (line s) (Some i)))
      end
  | SubmitCommand c => Some (with_line s {| command_mode := false; command_input := None; command_history := command_history (line s) ++ [c] |})
  | LogEvent e => Some (with_log s (log_push (event_log s) e))
  | ToggleLogs => Some (with_panels s (set_logs (panels s) (negb (log_visible (panels s)))))
  | ToggleHelpModal => Some (with_panels s (set_help (panels s) (negb (help_modal_open (panels s)))))
  | CloseHelpModal => Some (with_panels s (set_help (panels s) false))
  | UpdateCatalog l => Some (with_catalog s l 0)
  | SwitchTab t => Some (with_panels s (set_tab (panels s) t))
  | InstallStart n => Some (with_install s (InProgress n []))
  | InstallProgress m => Some (match install s with InProgress n p => with_install s (InProgress n (p ++ [m])) | _ => s end)
  | InstallComplete n => Some (with_install s (InstallDone n))
  | InstallError e => Some (with_install s (Failed (match install s with InProgress n _ => n | _ => "unknown"%string end) e))
  | DismissInstall => Some (with_install s Idle)
  | AppendUserMessage pid text => Some (update_buffer s pid (fun b => Output.push_user_message b text))
  | SetAgentProcessing pid p => Some (update_buffer s pid (fun b => Output.set_processing now b p))
  end.
Fixpoint reduce (s : TuiState) (l : list (Z * Action)) : option TuiState :=
  match l with [] => Some s | (now, a) :: l => s ← reducer now s a; reduce s l end.

(** *** The reducer never panics on ASCII input *)

Fixpoint ascii_text (s : string) : bool := match s with EmptyString => true | String c t => byte_in 0 127 c && ascii_text t end.
Lemma ascii_not_cont c : byte_in 0 127 c = true -> is_cont c = false.
Proof. destruct c as [[] [] [] [] [] [] [] []]; by vm_compute. Qed.
Lemma ascii_app a b : ascii_text (a +:+ b) = ascii_text a && ascii_text b.
Proof. induction a as [|c a IH]; cbn; [done|]. by rewrite IH, andb_assoc. Qed.
Lemma ascii_take n s : ascii_text s = true -> ascii_text (str_take n s) = true.
Proof. revert s. induction n as [|n IH]; intros [|c s] H; try done. cbn in *. apply andb_true_iff in H as [-> H]. by apply IH. Qed.
Lemma ascii_drop n s : ascii_text s = true -> ascii_text (str_drop n s) = true.
Proof. revert s. induction n as [|n IH]; intros [|c s] H; try done. cbn in *. apply andb_true_iff in H as [_ H]. by apply IH. Qed.
Lemma ascii_drop_conts s : ascii_text s = true -> drop_conts s = s.
Proof. destruct s as [|c s]; [done|]. cbn. intros [H _]%andb_true_iff. by rewrite ascii_not_cont. Qed.
Lemma ascii_boundary s n : ascii_text s = true -> (n <= String.length s)%nat -> is_char_boundary s n = true.
Proof.
  intros Ha Hn. unfold is_char_boundary. apply (ascii_drop n) in Ha. destruct (str_drop n s) as [|c t]; [by apply bool_decide_eq_true|].
  cbn in Ha. apply andb_true_iff in Ha as [Hc _]. by rewrite ascii_not_cont.
Qed.
Lemma take_length n s : (n <= String.length s)%nat -> String.length (str_take n s) = n.
Proof. revert s. induction n as [|n IH]; intros [|c s] H; cbn in *; try lia. rewrite IH; lia. Qed.
Lemma drop_length n s : String.length (str_drop n s) = (String.length s - n)%nat.
Proof. revert s. induction n as [|n IH]; intros [|c s]; cbn; auto with lia. Qed.

Lemma insert_ascii s i c : ascii_text s = true -> ascii_text c = true -> (i <= String.length s)%nat ->
  exists s', insert_at s i c = Some s' /\ ascii_text s' = true /\ String.length s' = (String.length s + String.length c)%nat.
Proof.
  intros Hs Hc Hi. unfold insert_at. rewrite bool_decide_true, ascii_boundary by done. eexists. split; [done|].
  rewrite !ascii_app, ascii_take, Hc, ascii_drop by done. split; [done|]. rewrite !str_length_app, take_length, drop_length by done. lia.
Qed.
Lemma remove_ascii s i : ascii_text s = true -> (i < String.length s)%nat ->
  exists s', remove_at s i = Some s' /\ ascii_text s' = true /\ String.length s' = (String.length s - 1)%nat.
Proof.
  intros Hs Hi. unfold remove_at. rewrite bool_decide_true, ascii_boundary by (done || lia). eexists. split; [done|].
  rewrite ascii_drop_conts by (by apply ascii_drop). rewrite ascii_app, ascii_take, ascii_drop by done. split; [done|].
  rewrite str_length_app, take_length, drop_length by lia. lia.
Qed.

Record input_ok (history : list string) (i : CommandInputState) : Prop := {
  io_ascii : ascii_text (input i) = true; io_cursor : (cursor_pos i <= String.length (input i))%nat;
  io_history : (history_index i <= length history)%nat }.
Record state_ok (s : TuiState) : Prop := {
  so_history : Forall (fun x => ascii_text x = true) (command_history (line s));
  so_input i : command_input (line s) = Some i -> input_ok (command_history (line s)) i;
  so_log : (length (event_log s) <= 10)%nat;
  so_buffers : map_Forall (fun _ b => (length (Output.lines b) <= Output.MAX_LINES)%nat) (agent_output_buffers s) }.
(** A key gives one ASCII character; what is submitted is ASCII. *)
Definition typed (a : Action) : Prop :=
  match a with
  | UpdateCommandInput (DChar c) => ascii_text c = true /\ String.length c = 1%nat
  | SubmitCommand c => ascii_text c = true
  | _ => True
  end.

Lemma edit_ok history d i : Forall (fun x => ascii_text x = true) history -> input_ok history i -> typed (UpdateCommandInput d) ->
  exists i', edit history d i = Some i' /\ input_ok history i'.
Proof.
  intros Hh [Ha Hc Hi] Ht. assert (Hrec : forall k s, history !! k = Some s -> ascii_text s = true)
    by (intros k s Hk; by apply (Forall_lookup_1 _ _ _ _ Hh) in Hk).
  destruct d as [c| | | | |]; cbn in *.
  - destruct Ht as [Hc1 Hc2]. destruct (insert_ascii (input i) (cursor_pos i) c Ha Hc1 Hc) as (s & -> & Hs & Hl). cbn.
    eexists. split; [done|]. split; cbn; [done|lia|done].
  - destruct (cursor_pos i) as [|k] eqn:Ek; [eexists; split; [done|]; by split; rewrite ?Ek|].
    destruct (remove_ascii (input i) k Ha) as (s & -> & Hs & Hl); [lia|]. cbn. eexists. split; [done|]. split; cbn; [done|lia|done].
  - eexists. split; [done|]. split; cbn; [done|lia|done].
  - eexists. split; [done|]. case_decide; split; cbn; try done; lia.
  - destruct (history_index i) as [|k] eqn:Ek; [eexists; split; [done|]; by split; rewrite ?Ek|].
    destruct (lookup_lt_is_Some_2 history k) as [s Hs]; [lia|]. rewrite Hs. cbn. eexists. split; [done|].
    split; cbn; [by eapply Hrec|done|lia].
  - case_decide as H1; [|by exists i]. case_decide as H2; [eexists; split; [done|]; split; cbn; try done; lia|].
    destruct (lookup_lt_is_Some_2 history (history_index i + 1)%nat) as [s Hs]; [lia|]. rewrite Hs. cbn. eexists. split; [done|].
    split; cbn; [by eapply Hrec|done|lia].
Qed.

Lemma log_push_bound l e : (length l <= 10)%nat -> (length (log_push l e) <= 10)%nat.
Proof.
  intros Hl. unfold log_push. case_decide; [|lia]. destruct (l ++ [e]) as [|x r] eqn:E; cbn; [lia|].
  assert (length (l ++ [e]) = S (length r)) as Hr by (by rewrite E). rewrite length_app in Hr. cbn in Hr. lia.
Qed.
Lemma buffer_ok s pid f : state_ok s ->
  (forall b, (length (Output.lines b) <= Output.MAX_LINES)%nat -> (length (Output.lines (f b)) <= Output.MAX_LINES)%nat) ->
  state_ok (update_buffer s pid f).
Proof.
  intros [H1 H2 H3 H4] Hf. split; cbn; [done..|]. apply map_Forall_insert_2; [|done]. apply Hf. unfold buffer_of.
  destruct (agent_output_buffers s !! pid) as [b|] eqn:E; [by apply (H4 pid)|]. cbn. lia.
Qed.

(** Whatever the server sends and the user types, in ASCII, the reducer never panics; the log keeps at most ten
    events and each agent's buffer at most its maximum of lines, and the cursor and the place in the history stay in range.
    (A character outside ASCII breaks the first part: see [accent_panics].) *)
Theorem reducer_total now s a : state_ok s -> typed a -> exists s', reducer now s a = Some s' /\ state_ok s'.
Proof.
  intros Hs Ht. destruct a as [| |l|n|n|pid text|h| |f| | |d|c|e| | | |l|t|n|m|n|e| |pid text|pid p]; cbn [reducer];
    try (eexists; split; [reflexivity|]; by destruct Hs; split).
  - eexists. split; [reflexivity|]. split; cbn; [constructor|done|lia|apply map_Forall_empty].
  - eexists. split; [reflexivity|]. apply buffer_ok; [done|]. intros b. apply Output.push_lines_bound.
  - eexists. split; [reflexivity|]. destruct Hs as [H1 H2 H3 H4]. split; cbn; try done. intros i [= <-]. by split; cbn.
  - destruct Hs as [H1 H2 H3 H4]. destruct (command_input (line s)) as [i|] eqn:Ei; [|exists s; split; [done|]; split; try done; by rewrite Ei].
    destruct (edit_ok (command_history (line s)) d i H1 (H2 i eq_refl) Ht) as (i' & -> & Hi'). cbn. eexists. split; [done|].
    split; cbn; try done. by intros ? [= <-].
  - eexists. split; [reflexivity|]. destruct Hs as [H1 H2 H3 H4]. split; cbn; try done. apply Forall_app. split; [done|]. by constructor.
  - eexists. split; [reflexivity|]. destruct Hs as [H1 H2 H3 H4]. split; cbn; try done. by apply log_push_bound.
  - eexists. split; [reflexivity|]. destruct Hs as [H1 H2 H3 H4]. destruct (install s); by split.
  - eexists. split; [reflexivity|]. apply buffer_ok; [done|]. intros b. apply Output.push_lines_bound.
  - eexists. split; [reflexivity|]. by apply buffer_ok.
Qed.

Lemma default_ok : state_ok default_state.
Proof. split; cbn; [constructor|done|lia|apply map_Forall_empty]. Qed.
Lemma reducer_total_witness : exists s', reducer 0 default_state (UpdateAgentOutput 7 "hello") = Some s' /\ state_ok s'.
Proof. exact (reducer_total 0 default_state (UpdateAgentOutput 7 "hello") default_ok I). Defined.
(** The cursor moves by one for a character of two bytes, so the next one is inserted in its middle. *)
Definition e_acute : string := String "195" (String "169" EmptyString).
Lemma accent_panics : reduce default_state [(0, EnterCommandMode); (0, UpdateCommandInput (DChar e_acute)); (0, UpdateCommandInput (DChar "x"))] = None.
Proof. reflexivity. Qed.

(** ** [app.rs]: an event from the server *)

Module Events.
Import Wire.

Definition kind_debug (k : EventKind) : string :=
  match k with
  | SessionReady => "SessionReady" | SessionClosing => "SessionClosing" | TokenExpiring => "TokenExpiring"
  | AgentSpawned => "AgentSpawned" | AgentOutput => "AgentOutput" | AgentStatus => "AgentStatus"
  | AgentToolCall => "AgentToolCall" | AgentToolResult => "AgentToolResult" | AgentExit => "AgentExit"
  | ProcStart => "ProcStart" | ProcSignal => "ProcSignal" | HilRequest => "HilRequest" | HilResolved => "HilResolved"
  | FsChanged => "FsChanged" | ToolChanged => "ToolChanged" | CronFired => "CronFired" | SysService => "SysService"
  | SysAlert => "SysAlert" | AgentOutputChunk => "AgentOutputChunk"
  end.
Definition state_debug (s : AgentState) : string :=
  match s with Running => "Running" | Paused => "Paused" | Stopped => "Stopped" | Crashed => "Crashed" end.
Definition summary (e : Event) : string :=
  match ev_body e with
  | BAgentOutputChunk b => "AgentOutputChunk pid=" +:+ ch_pid b +:+ " seq=" +:+ pretty (ch_seq b)
  | BAgentOutput b => "AgentOutput pid=" +:+ ao_pid b
  | BAgentStatus b => "AgentStatus pid=" +:+ st_pid b +:+ " status=" +:+ state_debug (st_status b)
  | BAgentExit b => "AgentExit pid=" +:+ ex_pid b
  | BHilRequest b => "HilRequest pid=" +:+ pretty (hb_pid b)
  | BHilResolved b => "HilResolved hil_id=" +:+ hs_hil_id b
  | BSysAlert b => "SysAlert: " +:+ al_message b
  | _ => kind_debug (ev_kind e)
  end%string.
Definition logged_pid (e : Event) : option Z :=
  match ev_body e with
  | BAgentOutputChunk b => parse_u64 (ch_pid b)
  | BAgentOutput b => parse_u64 (ao_pid b)
  | BAgentStatus b => parse_u64 (st_pid b)
  | BAgentExit b => parse_u64 (ex_pid b)
  | BHilRequest b => Some (hb_pid b)
  | _ => None
  end.
Definition pid_or_zero (s : string) : Z := default 0 (parse_u64 s).

(** What the event does: the agents, the notifications, whether these are saved to disk, and the actions sent. *)
Record Effect : Type := {
  e_agents : list App.ActiveAgent; e_notifications : list Notif.Notification; e_saved : bool; e_actions : list Action }.
Definition set_status (st : AgentState) (a : App.ActiveAgent) : App.ActiveAgent := {|
  App.ag_pid := App.ag_pid a; App.ag_name := App.ag_name a; App.ag_session_id := App.ag_session_id a; App.ag_status := st;
  App.ag_goal := App.ag_goal a |}.

(** [now] and [uuid] for the notification that is made.  [None]: [resolve_hil] panics. *)
Definition dispatch_event (now : Z) (uuid : string) (agents : list App.ActiveAgent) (notifs : list Notif.Notification) (e : Event)
    : option Effect :=
  let log := LogEvent (ReceivedAtp (ev_kind e) (logged_pid e) (summary e) now) in
  let only acts := Some {| e_agents := agents; e_notifications := notifs; e_saved := false; e_actions := log :: acts |} in
  let noted ns acts := {| e_agents := agents; e_notifications := ns; e_saved := true; e_actions := log :: acts |} in
  match ev_kind e, ev_body e with
  | AgentOutputChunk, BAgentOutputChunk b =>
      if negb (ch_is_final b) && negb (String.eqb (ch_text_delta b) EmptyString)
      then only [SetAgentProcessing (pid_or_zero (ch_pid b)) false; UpdateAgentOutput (pid_or_zero (ch_pid b)) (ch_text_delta b)]
      else only []
  | AgentOutput, BAgentOutput b =>
      only [SetAgentProcessing (pid_or_zero (ao_pid b)) false; UpdateAgentOutput (pid_or_zero (ao_pid b)) (ao_text b)]
  | AgentStatus, BAgentStatus b =>
      Some {| e_agents := Notif.update_first (fun a => bool_decide (App.ag_pid a = pid_or_zero (st_pid b))) (set_status (st_status b)) agents;
              e_notifications := notifs; e_saved := false; e_actions := [log] |}
  | AgentExit, BAgentExit b =>
      Some (noted (Notif.add notifs (Notif.from_agent_exit now uuid (pid_or_zero (ex_pid b)) (default EmptyString (ev_owner_session e)) None))
              [SetAgentProcessing (pid_or_zero (ex_pid b)) false])
  | HilRequest, BHilRequest b =>
      let n := Notif.from_hil_request now b in Some (noted (Notif.add notifs n) [SetPendingHil (Notif.n_hil n)])
  | HilResolved, BHilResolved b =>
      ns ← Notif.resolve_hil now notifs (hs_hil_id b) (hs_outcome b); Some (noted ns [SetPendingHil None])
  | SysAlert, BSysAlert b => Some (noted (Notif.add notifs (Notif.from_sys_alert now uuid (al_level b) (al_message b))) [])
  | _, _ => only []
  end.

(** The server reports an agent that waits for its next turn with a status the client has no name for: the body stays raw,
    and the agent goes on being shown as it was. *)
Lemma waiting_not_shown now uuid agents notifs instant_of p e :
  ev_kind e = AgentStatus -> ev_body e = body_of instant_of (JObj [("pid", JStr p); ("status", JStr "waiting")]%string) ->
  exists x, dispatch_event now uuid agents notifs e = Some x /\ e_agents x = agents.
Proof. intros Hk Hb. unfold dispatch_event. rewrite Hk, Hb. by eexists. Qed.
(** An alert has no level in the server's body, so it never becomes a notification. *)
Lemma alert_not_noted now uuid agents notifs instant_of m e :
  ev_kind e = SysAlert -> ev_body e = body_of instant_of (JObj [("message", JStr m)]%string) ->
  exists x, dispatch_event now uuid agents notifs e = Some x /\ e_notifications x = notifs.
Proof. intros Hk Hb. unfold dispatch_event. rewrite Hk, Hb. by eexists. Qed.

End Events.

(** ** [app.rs]: a command, a key, the refresh *)

Module Control.

(** What a command or a key asks for besides actions: a background task, or a request to the server. *)
Inductive Task : Type :=
| Subscribe (dispatcher : nat) | FetchCatalog | InstallTask (op : string) (body : option json) (source : string).
Record World : Type := { conn : App.Conn; notifs : list Notif.Notification }.
Record Outcome : Type := { o_world : World; o_actions : list Action; o_tasks : list Task }.

Section Control.
(** The clock, new ids, what starting the server and connecting give, and the dispatcher's [call]. *)
Variable now : Z.
Variable uuid : string.
Variable ensured : result ClientError unit.
Variable connects : result ClientError Wire.LoginResponse.
Variable call : Wire.Cmd -> result ClientError Wire.Reply.
Variable token : string.
(** [Path::exists] and [canonicalize] *)
Variable exists_ : string -> bool.
Variable canonicalize : string -> option string.

Definition alert (level m : string) (w : World) : World :=
  {| conn := conn w; notifs := Notif.add (notifs w) (Notif.from_sys_alert now uuid level m) |}.
Definition is_connected (c : App.Conn) : bool := match App.status c with App.Connected _ => true | _ => false end.
Definition sent (cmd : string) : Action := LogEvent (SentCommand cmd now).
Definition outcome (w : World) (acts : list Action) (ts : list Task) : Outcome := {| o_world := w; o_actions := acts; o_tasks := ts |}.
(** The new dispatcher, the status with the UI's own session name, and the task that feeds events to the UI. *)
Definition connected_to (c : App.Conn) : App.Conn := {|
  App.dispatcher := Some (App.made c); App.status := App.Connected "tui-session"; App.callback := App.callback c;
  App.bridge_started := App.bridge_started c; App.bridges := App.bridges c; App.made := S (App.made c) |}.
Definition do_connect (w : World) : World * list Action * list Task :=
  match connects with
  | Ok _ => ({| conn := connected_to (conn w); notifs := notifs w |}, [AConnect], [Subscribe (App.made (conn w))])
  | Err e => (alert "error" ("Connection failed: " +:+ client_error_text e)%string w, [], [])
  end.

Definition fresh_form : NewAgentFormState := {| f_name := EmptyString; f_goal := EmptyString; focused_field := 0; f_error := None |}.
Definition toggled_form (f : option NewAgentFormState) : option NewAgentFormState :=
  match f with Some _ => None | None => Some fresh_form end.

(** The source the install task sends: a local path is made absolute; [None]: [expect] panics, and the task is gone. *)
Definition agent_source (source : string) : option string :=
  if starts_with "file://" source then Some source
  else if exists_ source then (fun p => "file://" +:+ p)%string <$> canonicalize source else Some source.
Definition install_body (source scope : string) : json :=
  JObj [("source", JStr source); ("scope", JStr scope); ("version", JStr "latest")]%string.
(** The actions of the task: the reply itself is not looked at. *)
Definition install_result (op : string) (body : option json) (source : string) : list Action :=
  match body with
  | None => []
  | Some b => match call (Wire.with_token (Wire.cmd_new uuid "proc" op EmptyString b) token) with
              | Ok _ => [InstallComplete source]
              | Err e => [InstallError (client_error_text e)]
              end
  end.
Definition install_with (op : string) (body : option json) (source : string) (w : World) (acts : list Action) : Outcome :=
  let acts := acts ++ [InstallStart source] in
  if App.is_authenticated (conn w) then outcome w acts [InstallTask op body source]
  else outcome w (acts ++ [InstallError "No connection to server"]) [].

Definition summary_of (v : json) : option AgentManifestSummary :=
  n ← as_str (jindex v "name");
  Some {| su_name := n; su_version := default "?"%string (as_str (jindex v "version"));
          su_description := default EmptyString (as_str (jindex v "description"));
          su_author := default EmptyString (as_str (jindex v "author")); su_path := default EmptyString (as_str (jindex v "path"));
          su_scope := match as_str (jindex v "scope") with
                      | Some s => if String.eqb s "user" then ScopeUser else ScopeSystem
                      | None => ScopeSystem end |}.
(** The catalogue is asked for on behalf of the user [default]. *)
Definition fetch_catalog : list Action :=
  match Commands.list_installed call token uuid "default" with Ok l => [UpdateCatalog (omap summary_of l)] | Err _ => [] end.

(** [dispatch_parsed_command], up to the tasks it spawns. *)
Definition dispatch_parsed_command (s : TuiState) (w : World) (c : ParsedCommand) : Outcome :=
  match c with
  | Quit => (outcome (alert "info" "Quit command received" w) [] [])
  | CmdConnect =>
      if is_connected (conn w) then (outcome w [sent "connect"] [])
      else match ensured with
           | Err e => (outcome (alert "error" ("Local server failed to start: " +:+ client_error_text e)%string w) [sent "connect"] [])
           | Ok _ => let '(w, acts, ts) := do_connect w in (outcome w (sent "connect" :: acts) ts)
           end
  | Spawn name goal =>
      let log := sent ("spawn " +:+ name +:+ " " +:+ quoted goal)%string in
      if App.is_authenticated (conn w) then
        match Commands.spawn_agent call token uuid name goal [] with
        | Ok pid => (outcome w [log; AppendUserMessage pid goal; SetAgentProcessing pid true] [])
        | Err _ => (outcome w [log] [])
        end
      else (outcome w [log] [])
  | Kill pid =>
      let log := sent ("kill " +:+ pretty pid)%string in
      if App.is_authenticated (conn w) then
        match Commands.kill_agent call token uuid pid with
        | Ok _ => (outcome w [log] [])
        | Err e => (outcome (alert "error" ("Kill pid " +:+ pretty pid +:+ " failed: " +:+ client_error_text e)%string w) [log] [])
        end
      else (outcome w [log] [])
  | Help => (outcome w [sent "help"; ToggleHelpModal] [])
  | CmdToggleLogs => (outcome w [sent "logs"; ToggleLogs] [])
  | ToggleNotifications => (outcome w [sent "notifs"; ToggleNotificationsPopup] [])
  | ToggleNewAgentForm => (outcome w [sent "new-agent-form"; SetNewAgentForm (toggled_form (new_agent_form (panels s)))] [])
  | Invalid _ => (outcome w [] [])
  | Catalog => (outcome w [sent "catalog"; SwitchTab TabCatalog] (if App.is_authenticated (conn w) then [FetchCatalog] else []))
  | InstallAgent source =>
      install_with "package/install-agent" ((fun s => install_body s "user") <$> agent_source source) source w
        [sent ("install agent " +:+ source)%string]
  | InstallService source =>
      install_with "package/install-service" (Some (install_body source "system")) source w [sent ("install service " +:+ source)%string]
  end.

(** Quitting by command only leaves a notification. *)
Lemma quit_does_not_quit s w : o_actions (dispatch_parsed_command s w Quit) = [] /\ conn (o_world (dispatch_parsed_command s w Quit)) = conn w.
Proof. done. Qed.
(** An install the server refuses is shown as complete. *)
Lemma refused_install_completes op b source r : call (Wire.with_token (Wire.cmd_new uuid "proc" op EmptyString b) token) = Ok r ->
  Wire.rp_ok r = false -> install_result op (Some b) source = [InstallComplete source].
Proof. intros H _. unfold install_result. by rewrite H. Qed.

(** [update_state_from_shared]; [None]: a question that holds no state. *)
Definition hil_waits (n : Notif.Notification) : option bool :=
  match Notif.n_kind n with
  | Notif.KHil => (fun h => bool_decide (Notif.hn_outcome h = None)) <$> Notif.n_hil n
  | _ => Some false
  end.
Definition update_from_shared (s : TuiState) (w : World) (l : list App.ActiveAgent) : option TuiState :=
  ws ← mapM hil_waits (notifs w);
  Some (with_shared s {| connected := is_connected (conn w); agents := l; notifications_count := Notif.unread_count (notifs w);
                         hil_pending := length (filter (fun b => b = true) ws); notifications := notifs w |}).

(** The row of a process as the server lists it. *)
Definition agent_row (v : json) : option App.ActiveAgent :=
  p ← sfield 5 0 "pid" v ≫= as_u64; n ← sfield 5 1 "name" v ≫= as_str;
  sid ← match sfield 5 2 "session_id" v with None => Some EmptyString | Some x => as_str x end;
  st ← sfield 5 3 "status" v ≫= as_str; g ← sfield 5 4 "goal" v ≫= as_str;
  Some {| App.ag_pid := p; App.ag_name := n; App.ag_session_id := sid;
          App.ag_status := if String.eqb st "running" then Wire.Running else Wire.Stopped; App.ag_goal := g |}.
(** A round of the background refresh. *)
Definition refresh (w : World) (l : list App.ActiveAgent) (json_text : json -> string) : list App.ActiveAgent :=
  if is_connected (conn w) && App.is_authenticated (conn w) then
    match Commands.list_agents call token uuid json_text with Ok raw => omap agent_row raw | Err _ => l end
  else l.

(** *** A key *)

Inductive Key : Type := KChar (c : string) | KEnter | KEsc | KTab | KBackspace | KLeft | KRight | KUp | KDown | KOther.
(** The state at once, the actions queued for the next round, the command that is sent without a look at its reply, and whether the UI ends. *)
Record KeyOut : Type := {
  k_state : TuiState; k_world : World; k_actions : list Action; k_tasks : list Task; k_sent : option Wire.Cmd; k_exit : bool }.
Definition stays (s : TuiState) (w : World) : KeyOut :=
  {| k_state := s; k_world := w; k_actions := []; k_tasks := []; k_sent := None; k_exit := false |}.
Definition reduced (w : World) (s : TuiState) (a : Action) : option KeyOut := (fun s => stays s w) <$> reducer now s a.

Definition answer_cmd (h : Notif.HilState) (approved : bool) : Wire.Cmd :=
  Wire.with_token (Wire.cmd_new uuid "signal" "send" EmptyString (Commands.signal_body (Notif.hn_pid h) "SIGRESUME"
    (Some (Commands.hil_payload (Notif.hn_hil_id h) (Notif.hn_approval_token h) approved None)))) token.
Definition answers (s : TuiState) (w : World) (h : Notif.HilState) (approved : bool) : KeyOut :=
  {| k_state := s; k_world := w; k_actions := []; k_tasks := [];
     k_sent := if App.is_authenticated (conn w) then Some (answer_cmd h approved) else None; k_exit := false |}.
Definition key_hil (s : TuiState) (w : World) (h : Notif.HilState) (k : Key) : option KeyOut :=
  match k with
  | KChar c => if one_of c ["a"; "A"]%string then Some (answers s w h true)
               else if one_of c ["d"; "D"]%string then Some (answers s w h false) else Some (stays s w)
  | KEsc => reduced w s (SetPendingHil None)
  | _ => Some (stays s w)
  end.

Definition form_error (f : NewAgentFormState) (m : string) : NewAgentFormState :=
  {| f_name := f_name f; f_goal := f_goal f; focused_field := focused_field f; f_error := Some m |}.
Definition typed_into (f : NewAgentFormState) (g : string -> string) : NewAgentFormState :=
  if decide (focused_field f = 0%nat)
  then {| f_name := g (f_name f); f_goal := f_goal f; focused_field := focused_field f; f_error := f_error f |}
  else {| f_name := f_name f; f_goal := g (f_goal f); focused_field := focused_field f; f_error := f_error f |}.
(** An error of an earlier attempt stays in the form, and is shown again. *)
Definition submit_form (s : TuiState) (w : World) (f : NewAgentFormState) : option KeyOut :=
  let refused m := reduced w s (SetNewAgentForm (Some (form_error f m))) in
  if is_blank (f_name f) then refused "Agent name cannot be empty"%string
  else if is_blank (f_goal f) then refused "Agent goal cannot be empty"%string
  else if App.is_authenticated (conn w) then
    match Commands.spawn_agent call token uuid (f_name f) (f_goal f) [] with
    | Ok pid =>
        s ← reduce s [(now, AppendUserMessage pid (f_goal f)); (now, SetAgentProcessing pid true); (now, SetNewAgentForm None)];
        let w := alert "info" ("Agent " +:+ f_name f +:+ " spawned with PID " +:+ pretty pid)%string w in
        match f_error f with
        | None => Some (stays s w)
        | Some _ => reduced w s (SetNewAgentForm (Some f))
        end
    | Err e => refused ("Failed to spawn agent: " +:+ client_error_text e)%string
    end
  else refused "No connection to server"%string.
Definition key_form (s : TuiState) (w : World) (f : NewAgentFormState) (k : Key) : option KeyOut :=
  let set f := reduced w s (SetNewAgentForm f) in
  match k with
  | KTab => set (Some {| f_name := f_name f; f_goal := f_goal f; focused_field := (1 - focused_field f)%nat; f_error := f_error f |})
  | KEnter => submit_form s w f
  | KEsc => set None
  | KChar c => set (Some (typed_into f (fun x => x +:+ c)%string))
  | KBackspace => set (Some (typed_into f pop_char))
  | _ => Some (stays s w)
  end.

Definition key_popup (s : TuiState) (w : World) (k : Key) : option KeyOut :=
  let ns := notifications (shared s) in
  match k with
  | KEsc => reduced w s ToggleNotificationsPopup
  | KEnter => Some (stays s (match ns !! sel_notification s with
                             | Some n => {| conn := conn w; notifs := Notif.mark_read (notifs w) (Notif.n_id n) |}
                             | None => w end))
  | KUp => Some (stays (with_selected s (sel_agent s) (select_prev (sel_notification s)) (sel_catalog s)) w)
  | KDown => Some (stays (with_selected s (sel_agent s) (select_next (length ns) (sel_notification s)) (sel_catalog s)) w)
  | _ => Some (stays s w)
  end.
Definition key_help (s : TuiState) (w : World) (k : Key) : option KeyOut :=
  match k with KEsc => reduced w s CloseHelpModal | _ => Some (stays s w) end.

Definition submit_line (s : TuiState) (w : World) : option KeyOut :=
  match command_input (line s) with
  | None => Some (stays s w)
  | Some i =>
      s ← reducer now s (SubmitCommand (input i));
      match parse ("/" +:+ input i) with
      | Ok c => let o := dispatch_parsed_command s w c in
                Some {| k_state := s; k_world := o_world o; k_actions := o_actions o; k_tasks := o_tasks o; k_sent := None; k_exit := false |}
      | Err e => Some (stays s (alert "error" e w))
      end
  end.
Definition key_command (s : TuiState) (w : World) (k : Key) : option KeyOut :=
  let edits d := reduced w s (UpdateCommandInput d) in
  match k with
  | KEsc => reduced w s ExitCommandMode
  | KEnter => submit_line s w
  | KChar c => edits (DChar c)
  | KBackspace => edits DBackspace
  | KLeft => edits DLeft
  | KRight => edits DRight
  | KUp => edits DHistoryUp
  | KDown => edits DHistoryDown
  | _ => Some (stays s w)
  end.

(** [c]: an error of starting the server is noted, and the connection attempted all the same. *)
Definition key_connect (s : TuiState) (w : World) : option KeyOut :=
  if connected (shared s) then Some (stays s w)
  else
    let w := match ensured with
             | Err e => alert "error" ("Local server failed to start: " +:+ client_error_text e)%string w | Ok _ => w end in
    let '(w, acts, ts) := do_connect w in
    s ← reduce s (map (pair now) acts);
    Some {| k_state := s; k_world := w; k_actions := []; k_tasks := ts ++ match ts with [] => [] | _ => [FetchCatalog] end;
            k_sent := None; k_exit := false |}.
Definition test_spawn : Wire.Cmd :=
  Wire.with_token (Wire.cmd_new uuid "proc" "spawn" EmptyString (JObj [("name", JStr "test-agent"); ("goal", JStr "test goal");
    ("capabilities", jstrs [])]%string)) token.
Definition key_normal (s : TuiState) (w : World) (k : Key) : option KeyOut :=
  let selecting a c := Some (stays (with_selected s a (sel_notification s) c) w) in
  match k with
  | KChar c =>
      if one_of c ["/"]%string then reduced w s EnterCommandMode
      else if one_of c ["q"]%string then
        Some {| k_state := s; k_world := w; k_actions := []; k_tasks := []; k_sent := None; k_exit := true |}
      else if one_of c ["c"]%string then key_connect s w
      else if one_of c ["a"]%string then
        Some {| k_state := s; k_world := w; k_actions := []; k_tasks := [];
                k_sent := if App.is_authenticated (conn w) then Some test_spawn else None; k_exit := false |}
      else if one_of c ["f"]%string then reduced w s (SetNewAgentForm (toggled_form (new_agent_form (panels s))))
      else if one_of c ["n"]%string then reduced w s ToggleNotificationsPopup
      else Some (stays s w)
  | KTab => reduced w s (SwitchTab (match active_tab (panels s) with TabRunning => TabCatalog | TabCatalog => TabRunning end))
  | KUp => match active_tab (panels s) with
           | TabCatalog => selecting (sel_agent s) (select_prev (sel_catalog s))
           | TabRunning => selecting (select_prev (sel_agent s)) (sel_catalog s)
           end
  | KDown => match active_tab (panels s) with
             | TabCatalog => selecting (sel_agent s) (select_next (length (catalog s)) (sel_catalog s))
             | TabRunning => selecting (select_next (length (agents (shared s))) (sel_agent s)) (sel_catalog s)
             end
  | _ => Some (stays s w)
  end.

(** The first mode that is on takes the key. *)
Definition handle_key (s : TuiState) (w : World) (k : Key) : option KeyOut :=
  match pending_hil s, new_agent_form (panels s) with
  | Some h, _ => key_hil s w h k
  | None, Some f => key_form s w f k
  | None, None =>
      if notifications_popup_open (panels s) then key_popup s w k
      else if help_modal_open (panels s) then key_help s w k
      else if command_mode (line s) then key_command s w k
      else key_normal s w k
  end.

(** *** Only a key of its own answers a question *)

Definition approves (k : Key) : bool := match k with KChar c => one_of c ["a"; "A"]%string | _ => false end.
Definition denies (k : Key) : bool := match k with KChar c => one_of c ["d"; "D"]%string | _ => false end.

Lemma reduced_Some w s a o : reduced w s a = Some o -> exists s', reducer now s a = Some s' /\ o = stays s' w.
Proof. unfold reduced. destruct (reducer now s a) as [s'|]; [|done]. intros [= <-]. by exists s'. Qed.

(** While a question is on screen a key does nothing else: the approval goes out for its two keys, the denial for its two,
    both for exactly this question, and escape takes the question away without an answer. *)
Theorem question_has_the_keys s w h k o : pending_hil s = Some h -> handle_key s w k = Some o ->
  k_world o = w /\ k_exit o = false /\ k_tasks o = [] /\ k_actions o = [] /\
  (k_sent o = if App.is_authenticated (conn w) then
                if approves k then Some (answer_cmd h true) else if denies k then Some (answer_cmd h false) else None
              else None) /\
  (k_state o = s \/ k = KEsc /\ pending_hil (k_state o) = None).
Proof.
  intros Hh. unfold handle_key. rewrite Hh. destruct k as [c| | | | | | | | |]; cbn [key_hil];
    try (intros [= <-]; cbn; destruct (App.is_authenticated (conn w)); by eauto 10).
  unfold approves, denies. destruct (one_of c ["a"; "A"]%string); [intros [= <-]; cbn; by eauto 10|].
  destruct (one_of c ["d"; "D"]%string); intros [= <-]; cbn; [by eauto 10|]. destruct (App.is_authenticated (conn w)); by eauto 10.
Qed.
(** An event that asks a question puts it on screen, over whatever is open. *)
Lemma question_shown agents ns e b s : Wire.ev_kind e = Wire.HilRequest -> Wire.ev_body e = Wire.BHilRequest b ->
  exists x s', Events.dispatch_event now uuid agents ns e = Some x /\ Events.e_saved x = true /\
    reduce s (map (pair now) (Events.e_actions x)) = Some s' /\ pending_hil s' = Notif.n_hil (Notif.from_hil_request now b) /\
    panels s' = panels s.
Proof. intros Hk Hb. unfold Events.dispatch_event. rewrite Hk, Hb. by eexists _, _. Qed.

End Control.
End Control.
